(* ===== verification/_CoqProject ===== *)
-Q . S2P
Prelude.v
Reg.v
Pstate.v
RegFile.v
Operand.v
Op.v
Instruction.v
Group.v
DpImmediate.v
DpRegister.v
BranchSystem.v
LoadsStores.v
SimdLoadsStores.v
Scalar.v
Neon.v
Decode.v
Assembler.v
DecodeTheorems.v
Flags.v
Fetch.v
DataTheorems.v
GuestMemory.v
Memory.v
MemoryTheorems.v
Trap.v
Cache.v
TraceFormat.v
TraceSink.v
TraceWriter.v
TraceReader.v
TraceTheorems.v
Differ.v
Verdict.v
Perturb.v
Cpu.v
Interp.v
Isa.v
Refine.v
Run.v
MachineTheorems.v
TraceRun.v
DifferTheorems.v
QemuPlugin.v
QemuMap.v
QemuTrace.v
QemuTheorems.v
Machine.v
ShimHost.v
MemoryMap.v
Shim.v
ShimDispatch.v
ShimEffects.v
ShimRun.v
ShimService.v
ShimLoop.v
ShimTheorems.v
FpOperand.v
FpDecompose.v
FpCompare.v
FpArithmetic.v
FpFused.v
FpBackend.v
FpConvert.v
FpSoftfloat.v
FpNative.v
FpEngine.v
FpMagnitude.v
FpRound.v
FpValues.v
FpAddition.v
FpInteger.v
FpData.v
FpOperations.v
FpMultiplyAdd.v
FpLaws.v
FpHost.v
FpTheorems.v
FpEngineTheorems.v
FpConformance.v
Conformance.v
