(* ===== verification/Prelude.v ===== *)
(** * coracle: a model of the AArch64 emulator core

    coracle is an AArch64 emulator in Rust, compiled to WebAssembly.  One
    crate holds its logic, [src/crates/core]; the crates [devices], [machine]
    and [wasm] are thin around it.  Paths below are relative to
    [src/crates/core/src] unless they start with [tests].
    A guest program is run by a loop that fetches a 32-bit word through the
    [Memory] trait, decodes it (from the decode cache when it can), executes the
    decoded [Instruction] on the vCPU, and reports the block to a [TraceSink].
    Anything that cannot be executed becomes a [Trap], which is logged and
    stops the loop; the Linux shim is a loop around that loop that services
    the supervisor calls and resumes.  The floating-point unit is a library
    beside it: an engine that picks one of two backends from FPCR.

    ** Parts and files

    Registers and state.  [Reg.v] ([reg.rs]), [Pstate.v] ([pstate.rs]),
    [RegFile.v] ([regfile.rs]): the records of the source, fixed-size arrays as
    lists indexed with the bounds check of Rust.

    Decoder ([decode/]).  [Operand.v], [Op.v], [Instruction.v] are
    the data model, [Group.v] the bit fields.  Each file of [decode/group/] is
    one file: [DpImmediate.v], [DpRegister.v], [BranchSystem.v],
    [LoadsStores.v], [SimdLoadsStores.v], [Scalar.v], [Neon.v]; [Decode.v] is
    the entry point.  [Instruction.form_ok] is the well-formedness every group
    promises and the interpreter relies on.  [Assembler.v] is the
    architecture's encoding of the implemented instructions, written field by
    field and independently of the decoder.

    Interpreter ([interp/]).  [Flags.v], [Fetch.v] and [Cpu.v] ([flags.rs],
    [fetch.rs], [dispatch.rs] and the types of [mod.rs]), [Interp.v] (the fetch,
    step and run of [mod.rs]), [Memory.v] ([memory.rs]: the trait is the class
    [Memory], its contract [MemoryLaws], [FlatMemory] an instance),
    [GuestMemory.v] ([guest_memory.rs]), [Cache.v] ([cache.rs]), [Trap.v]
    ([trap.rs]).  The vCPU is polymorphic in the memory and in the sink, as it
    is in the source.  [Isa.v] is the specification: a register valuation, a
    partial byte map and one total step on them.  [Refine.v] and [Run.v] are
    the simulation, and the lockstep of two vCPUs that differ in trace and cache
    only.

    Trace ([trace/]).  [TraceFormat.v], [TraceSink.v], [TraceWriter.v] are the
    Rust files; [TraceReader.v] is the other end of the wire, the reader of
    the differ ([tests/differ/reader.mjs], [format.mjs]), where a JavaScript
    [RangeError] or [Error] is the error case of the reading monad.  [Differ.v]
    ([compare.mjs], [fp_policy.mjs], [diff.mjs]) replays two traces in lockstep,
    and has what [cdt.mjs] and [assert_exception_state.mjs] compute of one;
    [Perturb.v] ([perturb.mjs]) injects a fault into one.  [Verdict.v] is what a
    verdict means, without the way it is reached; [TraceRun.v] ties the file a
    traced vCPU writes to the states of [Isa.v] it went through.

    Linux shim ([shim/]).  [ShimHost.v] ([host.rs], the trait as a class with
    laws and the capturing host as an instance), [MemoryMap.v]
    ([memory_map.rs]), [Shim.v] ([structs.rs], [number.rs] and the state of
    [mod.rs]), [ShimDispatch.v] ([dispatch.rs]), [ShimRun.v]
    (the service and the loop of [mod.rs]).  [ShimEffects.v] has the one lemma
    the frame and invariant theorems come from, [ShimService.v] and [ShimLoop.v]
    what is built on it; [process] in the latter is the abstract specification of
    a program under the shim.

    Floating point ([fp/]).  [FpOperand.v] ([operand.rs], [control.rs]); the
    softfloat backend, by the files of [softfloat/]: [FpDecompose.v],
    [FpCompare.v] ([nan.rs] too), [FpArithmetic.v], [FpFused.v], [FpConvert.v], and [FpSoftfloat.v] for its
    [mod.rs]; [FpBackend.v] (the trait of [backend.rs] as a class),
    [FpNative.v] ([native.rs], over a host whose float operators are a
    parameter), [FpEngine.v] ([engine.rs], over a backend chosen at run time).
    The reference is [FpMagnitude.v].  The proofs follow the values:
    [FpRound.v] (the rounding step), [FpValues.v] (encodings as integers in units
    of the least subnormal, their order, and exact results), [FpAddition.v],
    [FpInteger.v] (the operations on finite values).  [FpData.v] is what every
    encoding stands for and what IEEE 754 has the operations answer, NaNs,
    infinities, zeros and flushed subnormals included; [FpOperations.v] and [FpMultiplyAdd.v] prove that the
    softfloat operations deliver it; [FpLaws.v] is the contract of a backend that
    the engine is proved against, with both backends as instances.  [FpHost.v]
    puts the Standard Library's [SpecFloat] on encodings, proves it equal to that
    reference, and so gives a host that the native backend's hypotheses hold of.

    QEMU plugin ([tests/qemu-plugin]), which writes the stream that the emulator
    is compared with.  [QemuPlugin.v] is the C: the packed structures of
    [cdt_format.h] as the bytes they are, [regmap.c] (the map from QEMU's
    registers to trace ids), [trace_writer.c] (the buffer), [coracle_trace.c]
    (the callbacks, the shadow registers, the arguments and the installation),
    and the hash of the differ's [feature_id.mjs].  QEMU is a parameter: its
    register handles are any type, the registers it lists an argument, and what
    the handles read an argument of each callback, its [view]; so are the GLib
    functions the arguments are parsed with and the count [fwrite] returns, and an
    [abort] is a panic.  [QemuMap.v] says what the register map holds once it is
    built, without the way it is built; [QemuTrace.v] what each callback writes,
    and what a reader that replays it knows after each record.

    Build and bindings.  [Machine.v]: [lib.rs], [threading.rs] and the three
    other crates, for both values of the build's thread switch.

    Unit tests.  [FpConformance.v] and [Conformance.v] are the test modules of
    the Rust files, run on the model: one module per [mod tests], one boolean
    per test under the test's name, and an [Example] that evaluates them.

    ** Conventions

    A Rust [uN] is a [Z] and the arithmetic that can wrap says so: [wadd],
    [wsub], [wmul], [wshl], [wshr] are the release profile's operators, the
    shift amount taken modulo the width, and an [as] cast is [as_uN] or [as_iN].
    The [i32] exponents of the softfloat files are plain integers, they stay
    within a few thousands of zero.  [assert!], [unreachable!] and an index out
    of range are the [Panic] of [may_panic]; that a function [returns] is a
    theorem about it.  [debug_assert!], which only the trace writer has, is a
    [Panic] or nothing by the build's [DebugAssertions], and the theorems hold for
    both values of it; arithmetic is the release profile's in either case.  [&mut self] is state passing.  [usize] is a parameter
    where its width shows (32 for wasm32, 64 for a native test build).
    [Inner] modules repeat the source's namespaces, so [Interp.Interp.step] is
    the [step] of [impl Interp] in [Interp.v].

    ** What the theorems show

    Interpreter ([MachineTheorems.v]): every step and every run refines [Isa.v]
    on the architecture's state, with the number of instructions retired and
    the reason for stopping; the trace and the cache cannot be observed.

    Decoder ([DecodeTheorems.v]): [decode] is total and well formed on all
    words, inverts the assembler, and expands bitmask immediates as the
    architecture defines them.

    Data path ([DataTheorems.v]): add-with-carry against unbounded integers,
    every condition code after a comparison as the comparison it names, shifted
    operands bit by bit, effective addresses.

    Memory ([MemoryTheorems.v]): store then load, frame, bounds, and the
    placement of guest RAM.

    Trace and logs ([TraceTheorems.v]): a written stream reads back as the events
    written, unless a block has more deltas than a record counts, which a build
    with debug assertions panics on and one without cuts; no producer in the core
    makes such a block ([deltas_reconstruct]), so a traced run never panics in
    either.  Records are framed by their length, the reader ends on every byte
    sequence, deltas rebuild the register file, the trap log counts and
    deduplicates, the cache returns what decoding would.

    Differ ([DifferTheorems.v]): the verdict on two traces is sound and complete,
    the divergence reported is the first, an injected fault is found where it is.
    End to end, from the vCPU through the writer, the file, the reader and the
    replay: the file of a traced run says what the architecture did, at every
    instruction and register, and the differ matches two files exactly when the
    two executions agree.

    QEMU plugin ([QemuTheorems.v]): the file of a session is QEMU's run, a record
    for each callback with what QEMU showed in it; the differ's exit code on this
    file and one of the emulator is 0 exactly when what QEMU showed is what the
    architecture of [Isa.v] does; no run matches in which a trap is reported as an
    exception, nor one that has a system register set at an exception
    ([match_needs_zero_sysregs]); the register map is complete and its scanned
    prefix is the scope's; the buffered writer loses no byte unless it aborts; the
    three implementations of the feature hash agree; what the inspection tools
    answer on either side's files ([plugin_inspected], [emulator_inspected]).

    Shim ([ShimTheorems.v]): every run ends, and what it returns is a state that a
    process reaches, by instructions of the architecture and by calls, with the
    exit that state has; a serviced call returns, gives the answer of the calls
    that have a fixed one, and changes only the bytes its contract gives it; the
    regions handed out by [mmap] are disjoint and inside the arena; [writev]
    gathers; string reading and the structures' layout.

    Floating point ([FpTheorems.v], [FpHost.v], [FpEngineTheorems.v]): rounding
    and packing is IEEE 754 rounding of the exact result, in the four modes of
    FPCR and to nearest ties away, with the flags.  Add, subtract, multiply, divide,
    square root, fused multiply-add and the conversions answer on every encoding
    what IEEE 754 has them answer, in every mode, most of them with and
    without flushing; comparison is by value, and no division or root panics.
    In round-to-nearest the softfloat backend computes, bit for bit, what the
    Standard Library's [SpecFloat] specifies, NaN payloads apart.
    An engine under any FPCR gives the same bits in every operation whichever
    backend is selected, is native exactly in the default mode, and only
    accumulates flags.
    The exact result of an operation is a [magnitude], a number known by
    its floor at every binary scale and by whether it is whole there, which
    covers quotients and roots without real numbers.  Three hypotheses of
    these theorems are bugs of the code, each proved at a concrete input beside
    them ([subnormal_carry_halved], [fused_borrow_missing], [to_integer_wraps];
    [fractional_bits_ignored] and [nan_choice] are others): [halves] excludes the
    subnormal result that a carry of the rounding step halves, the fused theorem
    asks that nothing be shifted out of a term that is subtracted, and the
    conversion to integers is for values below 2^128.  Conversions with fractional
    bits, which the code ignores, are not stated.  Comparison, minimum and maximum,
    the conversion to integers and the rounding to an integral value do not flush
    their operands in the code, and the theorems say what they answer for the
    operands as they are.
    Rounding to odd, which only FCVTXN uses, is excluded.

    Unit tests ([FpConformance.v], [Conformance.v]): the model passes 220 of
    the 224 tests of the source.  Where a test's oracle is the host's arithmetic, it is here that of
    [FpHost.v].  Pseudorandom sweeps take the number of rounds as an argument.

    ** Fuel

    [Interp.run] has the instruction budget as its fuel, which is the loop's own
    bound.  [shim.run] takes fuel, and [shim_run_ends] shows that some fuel is
    enough and more changes nothing.  [readRecords] has the length of the stream,
    [reader_terminates] shows that this is never used up.  The shift loops of the
    rounding step have 64 rounds, the width of the significand they shift; the
    integer root has 64, the bit pairs of a [u128]; the replication of a bitmask
    element six, the doublings from one bit to 64.  In each the theorems give the
    result itself, not a result should there be one.

    ** Not modelled

    The choice among NaN payloads is in the model but not in the reference: a NaN
    result is some quiet NaN in the theorems, as it is in [HostFloatLaws], where
    the host has the choice.  The fused multiply-add is proved with flushing off; the
    code does not flush its operands.  Not in the model: the command lines and the printing of the
    differ's tools ([tests/differ/report.mjs], [dump_records.mjs], the text of
    [cdt.mjs] and the argument parsing), QEMU itself, the JavaScript of the web
    front end, the integration tests and benchmarks, and [Display], [Debug] and
    other rendering for people.  Four unit tests are left out, of a
    [size_of], of a derived default and of two facts the types already state.
    The interpreter at this commit executes no floating-point instruction, so
    nothing composes the engine with it. *)

From stdpp Require Import base numbers list option.

#[local] Open Scope Z_scope.

(** ** Fixed-width integers

    A Rust [uN] is a [Z] in [0 <= x < 2^N].  The operations below are the ones
    of the release profile: the arithmetic operators wrap and the shift
    operators take their amount modulo the width. *)

Definition in_range (w x : Z) : Prop := 0 <= x < 2 ^ w.

Definition wrap (w x : Z) : Z := x mod 2 ^ w.

Definition wadd (w x y : Z) : Z := wrap w (x + y).
Definition wsub (w x y : Z) : Z := wrap w (x - y).
Definition wmul (w x y : Z) : Z := wrap w (x * y).
Definition wnot (w x : Z) : Z := wrap w (Z.lnot x).
Definition wshl (w x n : Z) : Z := wrap w (Z.shiftl x (n mod w)).
Definition wshr (w x n : Z) : Z := Z.shiftr x (n mod w).

(** The value of the low [w] bits of [x] read in two's complement, which is
    the cast [uN as iN]. *)
Definition to_signed (w x : Z) : Z :=
  let y := wrap w x in if y <? 2 ^ (w - 1) then y else y - 2 ^ w.

Definition as_u8 (x : Z) : Z := wrap 8 x.
Definition as_u16 (x : Z) : Z := wrap 16 x.
Definition as_u32 (x : Z) : Z := wrap 32 x.
Definition as_u64 (x : Z) : Z := wrap 64 x.
Definition as_i32 (x : Z) : Z := to_signed 32 x.
Definition as_i64 (x : Z) : Z := to_signed 64 x.

(** [i64] multiplication and left shift. *)
Definition imul64 (x y : Z) : Z := to_signed 64 (x * y).
Definition ishl64 (x n : Z) : Z := to_signed 64 (Z.shiftl x (n mod 64)).

(** [((x << n) as i64) >> n) as u64], the sign-extension idiom of the source. *)
Definition sar64 (x n : Z) : Z := as_u64 (Z.shiftr (as_i64 x) (n mod 64)).

(** [u64::rotate_right]. *)
Definition rotate_right64 (x n : Z) : Z :=
  Z.lor (wshr 64 x n) (wshl 64 x (64 - n mod 64)).

(** [u32::leading_zeros] and [trailing_zeros]. *)
Definition leading_zeros32 (x : Z) : Z := if x =? 0 then 32 else 31 - Z.log2 x.

(** [leading_zeros] at a width of [w] bits. *)
Definition leading_zeros (w x : Z) : Z := if x =? 0 then w else w - 1 - Z.log2 x.

Fixpoint trailing_zeros_aux (fuel : nat) (x n : Z) : Z :=
  match fuel with
  | O => n
  | S fuel => if Z.testbit x 0 then n else trailing_zeros_aux fuel (Z.shiftr x 1) (n + 1)
  end.

Definition trailing_zeros (w x : Z) : Z := trailing_zeros_aux (Z.to_nat w) x 0.

Definition checked_add64 (x y : Z) : option Z :=
  if x + y <? 2 ^ 64 then Some (x + y) else None.
Definition checked_sub64 (x y : Z) : option Z := if y <=? x then Some (x - y) else None.
Definition checked_mul64 (x y : Z) : option Z :=
  if x * y <? 2 ^ 64 then Some (x * y) else None.
Definition div_ceil (x y : Z) : Z := if x mod y =? 0 then x / y else x / y + 1.

Definition b2z (b : bool) : Z := if b then 1 else 0.

(** ** Panics

    [assert!], an index out of bounds and a slice out of bounds stop the
    program in every build profile.  A function that can reach one of them
    returns a [may_panic]. *)

Inductive may_panic (A : Type) : Type :=
| Done (a : A)
| Panic.

Arguments Done {A} a.
Arguments Panic {A}.

#[export] Instance may_panic_ret : MRet may_panic := fun A a => Done a.
#[export] Instance may_panic_bind : MBind may_panic :=
  fun A B f m => match m with Done a => f a | Panic => Panic end.

Definition rust_assert (b : bool) : may_panic unit := if b then Done tt else Panic.

(** [cfg!(debug_assertions)], which Cargo's dev profile sets and its release
    profile does not: [debug_assert!] checks its condition where it holds and is
    nothing where it does not. *)
Class DebugAssertions : Type := debug_assertions : bool.

Definition debug_assert `{DebugAssertions} (b : bool) : may_panic unit :=
  if debug_assertions then rust_assert b else Done tt.

(** Indexing an array or a slice. *)
Definition index {A} (l : list A) (i : Z) : may_panic A :=
  if i <? 0 then Panic
  else match l !! Z.to_nat i with Some a => Done a | None => Panic end.

(** Assigning to an element of an array. *)
Definition index_set {A} (l : list A) (i : Z) (a : A) : may_panic (list A) :=
  if (0 <=? i) && (i <? Z.of_nat (length l)) then Done (<[Z.to_nat i := a]> l) else Panic.

(** The slice [l[lo..hi]]. *)
Definition slice {A} (l : list A) (lo hi : Z) : may_panic (list A) :=
  if (0 <=? lo) && (lo <=? hi) && (hi <=? Z.of_nat (length l))
  then Done (take (Z.to_nat (hi - lo)) (drop (Z.to_nat lo) l)) else Panic.

(** [for x in l { .. }] over a state that each iteration replaces. *)
Definition for_each {A S} (l : list A) (body : A -> S -> may_panic S) (s : S) : may_panic S :=
  foldl (fun m a => s ← m; body a s) (Done s) l.

(** The range [0..n]. *)
Definition zrange (n : nat) : list Z := Z.of_nat <$> seq 0 n.

(** [m] does not panic, and what it returns satisfies [P]. *)
Definition returns {A} (m : may_panic A) (P : A -> Prop) : Prop :=
  exists a, m = Done a /\ P a.

(** The outcome of a unit test, the conjunction of its assertions: a test that
    panics fails. *)
Definition passes (test : may_panic bool) : bool :=
  match test with Done outcome => outcome | Panic => false end.

(** The xorshift generator of the tests that sweep a pseudorandom sequence. *)
Definition xorshift (state : Z) : Z :=
  let state := Z.lxor state (wshl 64 state 13) in
  let state := Z.lxor state (wshr 64 state 7) in
  Z.lxor state (wshl 64 state 17).

(** ** [Result<T, E>] *)

Inductive result (T E : Type) : Type :=
| Ok (t : T)
| Err (e : E).

Arguments Ok {T E} t.
Arguments Err {T E} e.

Definition map_err {T E F} (f : E -> F) (r : result T E) : result T F :=
  match r with Ok t => Ok t | Err e => Err (f e) end.

(** ** Little-endian bytes *)

Fixpoint to_le_bytes (n : nat) (x : Z) : list Z :=
  match n with
  | O => []
  | S n => x mod 256 :: to_le_bytes n (x / 256)
  end.

Fixpoint from_le_bytes (l : list Z) : Z :=
  match l with
  | [] => 0
  | b :: l => b + 256 * from_le_bytes l
  end.

Definition is_byte (b : Z) : Prop := 0 <= b < 256.

(** * Generic lemmas *)

(** ** Ranges *)

Lemma pow2_pos (w : Z) : 0 <= w -> 0 < 2 ^ w.
Proof. intros; apply Z.pow_pos_nonneg; lia. Qed.

Lemma wrap_range (w x : Z) : 0 <= w -> in_range w (wrap w x).
Proof. intros; apply Z.mod_pos_bound, pow2_pos; assumption. Qed.

Lemma wrap_small (w x : Z) : in_range w x -> wrap w x = x.
Proof. apply Z.mod_small. Qed.

Lemma wrap_wrap (w x : Z) : wrap w (wrap w x) = wrap w x.
Proof. unfold wrap. apply Zmod_mod. Qed.

Lemma wrap_land_ones (w x : Z) : 0 <= w -> wrap w x = Z.land x (Z.ones w).
Proof. intros. unfold wrap. rewrite Z.land_ones; [reflexivity | assumption]. Qed.

Lemma wrap_testbit (w x i : Z) :
  0 <= w -> Z.testbit (wrap w x) i = (i <? w) && Z.testbit x i.
Proof.
  intros Hw. destruct (Z.ltb_spec i w) as [Hi | Hi]; cbn [andb].
  - destruct (Z.neg_nonneg_cases i).
    + rewrite !Z.testbit_neg_r; [reflexivity | lia..].
    + apply Z.mod_pow2_bits_low; lia.
  - apply Z.mod_pow2_bits_high; lia.
Qed.

Lemma wrap_wrap_le (v w x : Z) : 0 <= v <= w -> wrap v (wrap w x) = wrap v x.
Proof.
  intros Hv. apply Z.bits_inj'. intros i Hi. rewrite !wrap_testbit by lia.
  destruct (Z.ltb_spec i v); [| reflexivity]. destruct (Z.ltb_spec i w); [reflexivity | lia].
Qed.

Lemma in_range_testbit_high (w x i : Z) :
  in_range w x -> 0 <= w -> w <= i -> Z.testbit x i = false.
Proof.
  intros Hx Hw Hi. rewrite <- (wrap_small w x Hx), wrap_testbit by assumption.
  destruct (Z.ltb_spec i w); [lia | reflexivity].
Qed.

Lemma testbit_in_range (w x : Z) :
  0 <= w -> 0 <= x -> (forall i, w <= i -> Z.testbit x i = false) -> in_range w x.
Proof.
  intros Hw Hx Hbits. replace x with (wrap w x).
  - apply wrap_range; assumption.
  - apply Z.bits_inj'. intros i Hi. rewrite wrap_testbit by assumption.
    destruct (Z.ltb_spec i w); cbn [andb]; [reflexivity | symmetry; auto].
Qed.

Lemma in_range_land (w x y : Z) : 0 <= w -> in_range w x -> 0 <= y -> in_range w (Z.land x y).
Proof.
  intros Hw Hx Hy. apply testbit_in_range; [assumption | apply Z.land_nonneg; lia |].
  intros i Hi. rewrite Z.land_spec, (in_range_testbit_high w x) by assumption. reflexivity.
Qed.

Lemma in_range_lor (w x y : Z) : 0 <= w -> in_range w x -> in_range w y -> in_range w (Z.lor x y).
Proof.
  intros Hw Hx Hy. apply testbit_in_range;
    [assumption | apply Z.lor_nonneg; split; [apply Hx | apply Hy] |].
  intros i Hi. rewrite Z.lor_spec, (in_range_testbit_high w x), (in_range_testbit_high w y)
    by assumption. reflexivity.
Qed.

Lemma in_range_lxor (w x y : Z) : 0 <= w -> in_range w x -> in_range w y -> in_range w (Z.lxor x y).
Proof.
  intros Hw Hx Hy. apply testbit_in_range;
    [assumption | apply Z.lxor_nonneg; split; intros _; [apply Hy | apply Hx] |].
  intros i Hi. rewrite Z.lxor_spec, (in_range_testbit_high w x), (in_range_testbit_high w y)
    by assumption. reflexivity.
Qed.

Lemma in_range_shiftr (w x n : Z) : 0 <= n -> in_range w x -> in_range w (Z.shiftr x n).
Proof.
  intros Hn [Hlo Hhi]. split; [apply Z.shiftr_nonneg; assumption |].
  rewrite Z.shiftr_div_pow2 by assumption.
  apply Z.le_lt_trans with x; [| assumption].
  pose proof (pow2_pos n Hn). apply Z.div_le_upper_bound; [assumption | nia].
Qed.

Lemma in_range_weaken (v w x : Z) : v <= w -> in_range v x -> in_range w x.
Proof.
  intros Hvw [Hlo Hhi]. split; [assumption |].
  apply Z.lt_le_trans with (2 ^ v); [assumption |]. apply Z.pow_le_mono_r; lia.
Qed.

Lemma wadd_range (w x y : Z) : 0 <= w -> in_range w (wadd w x y).
Proof. apply wrap_range. Qed.

Lemma wshl_range (w x n : Z) : 0 <= w -> in_range w (wshl w x n).
Proof. apply wrap_range. Qed.

Lemma wnot_range (w x : Z) : 0 <= w -> in_range w (wnot w x).
Proof. apply wrap_range. Qed.

Lemma wshr_range (w x n : Z) : 0 < w -> in_range w x -> in_range w (wshr w x n).
Proof. intros Hw Hx. apply in_range_shiftr; [apply Z.mod_pos_bound; lia | assumption]. Qed.

Lemma wnot_testbit (w x i : Z) :
  0 <= w -> 0 <= i -> Z.testbit (wnot w x) i = (i <? w) && negb (Z.testbit x i).
Proof.
  intros Hw Hi. unfold wnot. rewrite wrap_testbit by assumption.
  rewrite Z.lnot_spec by assumption. reflexivity.
Qed.

Lemma wnot_small (w x : Z) : 0 <= w -> in_range w x -> wnot w x = 2 ^ w - 1 - x.
Proof.
  intros Hw [Hlo Hhi]. unfold wnot, wrap. replace (Z.lnot x) with ((2 ^ w - 1 - x) + (-1) * 2 ^ w).
  - rewrite Z.mod_add by lia. apply Z.mod_small. lia.
  - unfold Z.lnot. lia.
Qed.

Lemma wshl_small (w x n : Z) :
  0 <= n < w -> in_range w (x * 2 ^ n) -> wshl w x n = x * 2 ^ n.
Proof.
  intros Hn Hx. unfold wshl. rewrite Z.mod_small, Z.shiftl_mul_pow2 by lia.
  apply wrap_small, Hx.
Qed.

Lemma wshr_div (w x n : Z) : 0 <= n < w -> wshr w x n = x / 2 ^ n.
Proof. intros Hn. unfold wshr. rewrite Z.mod_small by lia. apply Z.shiftr_div_pow2. lia. Qed.

(** ** Two's complement *)

Lemma to_signed_range (w x : Z) :
  0 < w -> - 2 ^ (w - 1) <= to_signed w x < 2 ^ (w - 1).
Proof.
  intros Hw. unfold to_signed. pose proof (wrap_range w x) as [Hlo Hhi]; [lia |].
  replace (2 ^ w) with (2 * 2 ^ (w - 1)) in *
    by (rewrite <- Z.pow_succ_r by lia; f_equal; lia).
  destruct (Z.ltb_spec (wrap w x) (2 ^ (w - 1))); lia.
Qed.

Lemma wrap_to_signed (w x : Z) : wrap w (to_signed w x) = wrap w x.
Proof.
  unfold to_signed. destruct (Z.ltb_spec (wrap w x) (2 ^ (w - 1))); [apply wrap_wrap |].
  unfold wrap at 1. replace (wrap w x - 2 ^ w) with (wrap w x + (-1) * 2 ^ w) by lia.
  rewrite Z_mod_plus_full. apply wrap_wrap.
Qed.

Lemma to_signed_wrap (w x : Z) :
  0 < w -> - 2 ^ (w - 1) <= x < 2 ^ (w - 1) -> to_signed w x = x.
Proof.
  intros Hw Hx. pose proof (pow2_pos (w - 1)).
  assert (2 ^ w = 2 * 2 ^ (w - 1)) as E
    by (rewrite <- Z.pow_succ_r by lia; f_equal; lia).
  unfold to_signed. destruct (Z.neg_nonneg_cases x).
  - assert (wrap w x = x + 2 ^ w) as ->.
    { unfold wrap. rewrite <- (Z.mod_small (x + 2 ^ w) (2 ^ w)) by lia.
      replace (x + 2 ^ w) with (x + 1 * 2 ^ w) by lia. rewrite Z_mod_plus_full. reflexivity. }
    destruct (Z.ltb_spec (x + 2 ^ w) (2 ^ (w - 1))); lia.
  - rewrite wrap_small by (split; lia).
    destruct (Z.ltb_spec x (2 ^ (w - 1))); lia.
Qed.

Lemma imul64_small (x y : Z) : - 2 ^ 63 <= x * y < 2 ^ 63 -> imul64 x y = x * y.
Proof. intros. apply (to_signed_wrap 64); lia. Qed.

Lemma ishl64_small (x n : Z) :
  0 <= n < 64 -> - 2 ^ 63 <= x * 2 ^ n < 2 ^ 63 -> ishl64 x n = x * 2 ^ n.
Proof.
  intros Hn Hx. unfold ishl64. rewrite Z.mod_small, Z.shiftl_mul_pow2 by lia.
  apply (to_signed_wrap 64); lia.
Qed.

Lemma to_signed_mul_pow2 (w k x : Z) :
  0 < w -> 0 <= k -> to_signed (w + k) (x * 2 ^ k) = to_signed w x * 2 ^ k.
Proof.
  intros Hw Hk. pose proof (pow2_pos k Hk). unfold to_signed, wrap.
  replace (w + k - 1) with ((w - 1) + k) by lia. rewrite !Z.pow_add_r by lia.
  rewrite Zmult_mod_distr_r.
  destruct (Z.ltb_spec (x mod 2 ^ w) (2 ^ (w - 1)));
  destruct (Z.ltb_spec (x mod 2 ^ w * 2 ^ k) (2 ^ (w - 1) * 2 ^ k)); nia.
Qed.

(** The source sign-extends by shifting left and then right as an [i64]. *)
Lemma signed_shift_pair (x n : Z) :
  0 < n <= 64 -> Z.shiftr (to_signed 64 (Z.shiftl x (64 - n))) (64 - n) = to_signed n x.
Proof.
  intros Hn. rewrite Z.shiftl_mul_pow2 by lia.
  replace (to_signed 64) with (to_signed (n + (64 - n))) by (f_equal; lia).
  rewrite to_signed_mul_pow2, Z.shiftr_div_pow2 by lia.
  apply Z.div_mul. pose proof (pow2_pos (64 - n)). lia.
Qed.

Lemma sar64_wshl64 (x n : Z) :
  0 < n < 64 -> sar64 (wshl 64 x (64 - n)) (64 - n) = as_u64 (to_signed n x).
Proof.
  intros Hn. unfold sar64, wshl, as_i64. rewrite Z.mod_small by lia.
  rewrite <- (signed_shift_pair x n) by lia. unfold to_signed at 1.
  rewrite wrap_wrap. reflexivity.
Qed.

Lemma to_signed_testbit (w x i : Z) :
  0 < w -> 0 <= i -> Z.testbit (to_signed w x) i = Z.testbit x (Z.min i (w - 1)).
Proof.
  intros Hw Hi. destruct (Z.lt_ge_cases i w) as [Hlt | Hge].
  - rewrite Z.min_l by lia.
    rewrite <- (Z.mod_pow2_bits_low (to_signed w x) w i) by lia.
    fold (wrap w (to_signed w x)). rewrite wrap_to_signed, wrap_testbit by lia.
    destruct (Z.ltb_spec i w); [reflexivity | lia].
  - rewrite Z.min_r by lia.
    assert (2 ^ w = 2 * 2 ^ (w - 1)) as E
      by (rewrite <- Z.pow_succ_r by lia; f_equal; lia).
    pose proof (wrap_range w x ltac:(lia)) as [Hlo Hhi].
    assert (Z.testbit x (w - 1) = negb (wrap w x <? 2 ^ (w - 1))) as ->.
    { transitivity (Z.testbit (wrap w x) (w - 1)).
      { rewrite wrap_testbit by lia. destruct (Z.ltb_spec (w - 1) w); [reflexivity | lia]. }
      rewrite Z.testbit_odd, Z.shiftr_div_pow2 by lia.
      pose proof (pow2_pos (w - 1) ltac:(lia)).
      destruct (Z.ltb_spec (wrap w x) (2 ^ (w - 1))).
      - rewrite Z.div_small by lia. reflexivity.
      - replace (wrap w x / 2 ^ (w - 1)) with 1; [reflexivity |].
        apply (Z.div_unique_pos _ _ 1 (wrap w x - 2 ^ (w - 1))); lia. }
    unfold to_signed. destruct (Z.ltb_spec (wrap w x) (2 ^ (w - 1))); cbn [negb].
    + apply (in_range_testbit_high w); [apply wrap_range | |]; lia.
    + apply Z.bits_above_log2_neg; [lia |].
      destruct (Z.eq_dec (wrap w x - 2 ^ w) (-1)) as [E1 | E1].
      { rewrite E1. change (Z.log2 (Z.pred (- -1))) with 0. lia. }
      apply Z.log2_lt_pow2; [lia |].
      apply Z.lt_le_trans with (2 ^ w); [lia |]. apply Z.pow_le_mono_r; lia.
Qed.

(** ** Computations that may panic *)

Lemma returns_ret {A} (a : A) (P : A -> Prop) : P a -> returns (mret a) P.
Proof. intros H. exists a. split; [reflexivity | exact H]. Qed.

Lemma returns_done {A} (a : A) (P : A -> Prop) : P a -> returns (Done a) P.
Proof. apply returns_ret. Qed.

Lemma debug_assert_holds `{DebugAssertions} (b : bool) :
  debug_assertions = false \/ b = true -> debug_assert b = Done tt.
Proof. unfold debug_assert. intros [-> | ->]; [reflexivity | destruct debug_assertions; reflexivity]. Qed.

Lemma returns_bind {A B} (m : may_panic A) (f : A -> may_panic B) (P : A -> Prop) (Q : B -> Prop) :
  returns m P -> (forall a, P a -> returns (f a) Q) -> returns (m ≫= f) Q.
Proof. intros (a & -> & Ha) Hf. apply Hf, Ha. Qed.

Lemma returns_mono {A} (m : may_panic A) (P Q : A -> Prop) :
  returns m P -> (forall a, P a -> Q a) -> returns m Q.
Proof. intros (a & -> & Ha) HPQ. exists a. auto. Qed.

Lemma returns_done_inv {A} (a : A) (P : A -> Prop) : returns (Done a) P -> P a.
Proof. intros (b & [= <-] & H). exact H. Qed.

Lemma bind_ret {A B} (a : A) (f : A -> may_panic B) : mret a ≫= f = f a.
Proof. reflexivity. Qed.

Lemma bind_bind {A B C} (m : may_panic A) (f : A -> may_panic B) (g : B -> may_panic C) :
  (m ≫= f) ≫= g = m ≫= fun a => f a ≫= g.
Proof. destruct m; reflexivity. Qed.

Lemma bind_done_inv {A B} (m : may_panic A) (f : A -> may_panic B) (b : B) :
  m ≫= f = Done b -> exists a, m = Done a /\ f a = Done b.
Proof. destruct m as [a |]; [intros H; exists a; split; [reflexivity | exact H] | discriminate]. Qed.

Lemma index_done {A} (l : list A) (i : Z) (a : A) :
  0 <= i -> l !! Z.to_nat i = Some a -> index l i = Done a.
Proof.
  intros Hi Hl. unfold index. destruct (Z.ltb_spec i 0); [lia |]. rewrite Hl. reflexivity.
Qed.

Lemma index_returns {A} (l : list A) (i : Z) :
  0 <= i < Z.of_nat (length l) -> returns (index l i) (fun a => l !! Z.to_nat i = Some a).
Proof.
  intros Hi. destruct (lookup_lt_is_Some_2 l (Z.to_nat i)) as [a Ha]; [lia |].
  exists a. split; [apply index_done; [lia | exact Ha] | exact Ha].
Qed.

Lemma index_done_inv {A} (l : list A) (i : Z) (a : A) :
  index l i = Done a -> 0 <= i < Z.of_nat (length l) /\ l !! Z.to_nat i = Some a.
Proof.
  unfold index. destruct (Z.ltb_spec i 0); [discriminate |].
  destruct (l !! Z.to_nat i) eqn:E; [| discriminate].
  intros [= ->]. split; [| reflexivity]. apply lookup_lt_Some in E. lia.
Qed.

Lemma index_set_done {A} (l : list A) (i : Z) (a : A) :
  0 <= i < Z.of_nat (length l) -> index_set l i a = Done (<[Z.to_nat i := a]> l).
Proof.
  intros Hi. unfold index_set. destruct (Z.leb_spec 0 i); [| lia].
  destruct (Z.ltb_spec i (Z.of_nat (length l))); [reflexivity | lia].
Qed.

Lemma index_set_done_inv {A} (l l' : list A) (i : Z) (a : A) :
  index_set l i a = Done l' ->
  0 <= i < Z.of_nat (length l) /\ l' = <[Z.to_nat i := a]> l.
Proof.
  unfold index_set. destruct (Z.leb_spec 0 i); cbn [andb]; [| discriminate].
  destruct (Z.ltb_spec i (Z.of_nat (length l))); [| discriminate].
  intros [= <-]. split; [lia | reflexivity].
Qed.

Lemma slice_done {A} (l : list A) (lo hi : Z) :
  0 <= lo <= hi -> hi <= Z.of_nat (length l) ->
  slice l lo hi = Done (take (Z.to_nat (hi - lo)) (drop (Z.to_nat lo) l)).
Proof.
  intros Hlo Hhi. unfold slice.
  destruct (Z.leb_spec 0 lo), (Z.leb_spec lo hi), (Z.leb_spec hi (Z.of_nat (length l))); try lia.
  reflexivity.
Qed.

Lemma for_each_snoc {A S} (l : list A) (a : A) (body : A -> S -> may_panic S) (s : S) :
  for_each (l ++ [a]) body s = for_each l body s ≫= body a.
Proof. unfold for_each. rewrite foldl_app. reflexivity. Qed.

(** A loop invariant indexed by the prefix already processed. *)
Lemma for_each_returns {A S} (P : list A -> S -> Prop) (l : list A)
    (body : A -> S -> may_panic S) (s : S) :
  P [] s ->
  (forall l1 a l2 s, l = l1 ++ a :: l2 -> P l1 s -> returns (body a s) (P (l1 ++ [a]))) ->
  returns (for_each l body s) (P l).
Proof.
  intros H0 Hstep. assert (forall l1 l2, l = l1 ++ l2 -> returns (for_each l1 body s) (P l1)) as H.
  { induction l1 as [| a l1 IH] using rev_ind; intros l2 E; [apply returns_done, H0 |].
    rewrite for_each_snoc. rewrite <- app_assoc in E.
    eapply returns_bind; [apply (IH ([a] ++ l2)), E |]. intros s' Hs'.
    eapply Hstep; [exact E | exact Hs']. }
  apply (H l []). symmetry. apply app_nil_r.
Qed.

Lemma elem_of_zrange (n : nat) (i : Z) : i ∈ zrange n <-> 0 <= i < Z.of_nat n.
Proof.
  unfold zrange. rewrite list_elem_of_fmap. split.
  - intros (k & -> & Hk%elem_of_seq). lia.
  - intros Hi. exists (Z.to_nat i). split; [lia | apply elem_of_seq; lia].
Qed.

Lemma zrange_split (n : nat) (l1 l2 : list Z) (i : Z) :
  zrange n = l1 ++ i :: l2 -> 0 <= i < Z.of_nat n.
Proof. intros E. apply elem_of_zrange. rewrite E. apply elem_of_app. right. constructor. Qed.

(** ** Little-endian bytes *)

Lemma length_to_le_bytes (n : nat) (x : Z) : length (to_le_bytes n x) = n.
Proof. revert x. induction n; intros; cbn; [reflexivity | f_equal; apply IHn]. Qed.

Lemma to_le_bytes_is_byte (n : nat) (x : Z) : Forall is_byte (to_le_bytes n x).
Proof.
  revert x. induction n; intros; cbn; constructor; [apply Z.mod_pos_bound; lia | apply IHn].
Qed.

Lemma from_to_le_bytes (n : nat) (x : Z) :
  from_le_bytes (to_le_bytes n x) = x mod 256 ^ Z.of_nat n.
Proof.
  revert x. induction n; intros x; cbn [to_le_bytes from_le_bytes].
  - rewrite Z.mod_1_r. reflexivity.
  - rewrite IHn, Nat2Z.inj_succ, Z.pow_succ_r by lia.
    pose proof (Z.pow_pos_nonneg 256 (Z.of_nat n)).
    rewrite Z.rem_mul_r by lia. reflexivity.
Qed.

Lemma from_le_bytes_range (l : list Z) :
  Forall is_byte l -> 0 <= from_le_bytes l < 256 ^ Z.of_nat (length l).
Proof.
  induction 1 as [| b l Hb Hl IH]; cbn [from_le_bytes length]; [lia |].
  rewrite Nat2Z.inj_succ, Z.pow_succ_r by lia. unfold is_byte in Hb. lia.
Qed.

Lemma to_from_le_bytes (l : list Z) :
  Forall is_byte l -> to_le_bytes (length l) (from_le_bytes l) = l.
Proof.
  induction 1 as [| b l Hb Hl IH]; cbn [from_le_bytes to_le_bytes length]; [reflexivity |].
  unfold is_byte in Hb. rewrite (Z.mul_comm 256), Z.mod_add, Z.div_add by lia.
  rewrite Z.mod_small, Z.div_small by lia. rewrite Z.add_0_l, IH. reflexivity.
Qed.

Lemma from_le_bytes_app (l k : list Z) :
  from_le_bytes (l ++ k) = from_le_bytes l + 256 ^ Z.of_nat (length l) * from_le_bytes k.
Proof.
  induction l as [| b l IH]; cbn [from_le_bytes app length]; [lia |].
  rewrite IH, Nat2Z.inj_succ, Z.pow_succ_r by lia. lia.
Qed.

Lemma from_le_bytes_zeros (n : nat) : from_le_bytes (replicate n 0) = 0.
Proof. induction n; cbn; lia. Qed.

Lemma take_to_le_bytes (n m : nat) (x : Z) :
  (n <= m)%nat -> take n (to_le_bytes m x) = to_le_bytes n x.
Proof.
  revert m x. induction n; intros m x Hm; [reflexivity |].
  destruct m; [lia |]. cbn. f_equal. apply IHn. lia.
Qed.

Lemma to_le_bytes_mod (n : nat) (x : Z) :
  to_le_bytes n (x mod 256 ^ Z.of_nat n) = to_le_bytes n x.
Proof.
  rewrite <- from_to_le_bytes. rewrite <- (length_to_le_bytes n x) at 1.
  apply to_from_le_bytes, to_le_bytes_is_byte.
Qed.

Lemma pow_256 (n : Z) : 0 <= n -> 256 ^ n = 2 ^ (8 * n).
Proof. intros. change 256 with (2 ^ 8). rewrite <- Z.pow_mul_r; [reflexivity | lia..]. Qed.

(** ** Exhaustive checks over a small range

    [forall_below n f] runs [f] on [0 .. n-1]; a statement about a bounded
    field of an encoding is proved by evaluating it. *)

Fixpoint forall_below_nat (n : nat) (f : Z -> bool) : bool :=
  match n with
  | O => true
  | S n => f (Z.of_nat n) && forall_below_nat n f
  end.

Definition forall_below (n : Z) (f : Z -> bool) : bool := forall_below_nat (Z.to_nat n) f.

Lemma forall_below_spec (n : Z) (f : Z -> bool) :
  forall_below n f = true -> forall i, 0 <= i < n -> f i = true.
Proof.
  unfold forall_below. intros H i Hi.
  assert (Z.to_nat i < Z.to_nat n)%nat as Hlt by lia.
  replace i with (Z.of_nat (Z.to_nat i)) by lia.
  revert H Hlt. generalize (Z.to_nat n) (Z.to_nat i). clear.
  induction n as [| n IH]; intros i H Hlt; [lia |].
  cbn in H. apply andb_prop in H as [Hn Hr].
  destruct (Nat.eq_dec i n) as [-> | Hne]; [exact Hn | apply IH; [exact Hr | lia]].
Qed.

(** ** Automation *)

Create HintDb coracle discriminated.
Create Rewrite HintDb coracle.

#[export] Hint Resolve returns_ret returns_done wrap_range wadd_range wshl_range wnot_range
  to_le_bytes_is_byte : coracle.
#[export] Hint Rewrite length_to_le_bytes : coracle.

