(* ===== verification/Reg.v ===== *)
(** Register identity ([crates/core/src/reg.rs]): decoded general-purpose and
    SIMD/FP operands, and the register ids of the trace stream. *)

From stdpp Require Import base numbers list option.
From S2P Require Import Prelude.

#[local] Open Scope Z_scope.

(** ** General-purpose operands, after slot 31 has been resolved *)

Module Gpr.

Inductive Gpr : Type :=
| X (n : Z)
| SP
| ZR.

Definition from_index_zr (index : Z) : may_panic Gpr :=
  _ ← rust_assert (index <? 32);
  mret (if index =? 31 then ZR else X index).

Definition from_index_sp (index : Z) : may_panic Gpr :=
  _ ← rust_assert (index <? 32);
  mret (if index =? 31 then SP else X index).

Definition is_zero (reg : Gpr) : bool :=
  match reg with ZR => true | _ => false end.

#[global] Instance Gpr_eq_dec : EqDecision Gpr.
Proof. solve_decision. Defined.

End Gpr.

Abbreviation Gpr := Gpr.Gpr.

(** ** SIMD/FP registers *)

Module Vec.

Record Vec : Type := mk { index : Z }.

Definition COUNT : Z := 32.

Definition new (index : Z) : may_panic Vec :=
  _ ← rust_assert (index <? 32);
  mret (mk index).

#[global] Instance Vec_eq_dec : EqDecision Vec.
Proof. solve_decision. Defined.

End Vec.

Abbreviation Vec := Vec.Vec.

Definition NUM_GPR : Z := 31.

(** ** Trace register ids *)

Module trace_reg_id.

Definition X0 : Z := 0.
Definition SP : Z := 31.
Definition PC : Z := 32.
Definition PSTATE : Z := 33.
Definition FPCR : Z := 34.
Definition FPSR : Z := 35.
Definition V_BASE : Z := 64.
Definition SYS_BASE : Z := 256.

Definition gpr (n : Z) : may_panic Z :=
  _ ← rust_assert (n <? NUM_GPR);
  mret (wadd 16 X0 n).

Definition vec_lo (n : Z) : may_panic Z :=
  _ ← rust_assert (n <? Vec.COUNT);
  mret (wadd 16 V_BASE (wmul 16 2 n)).

Definition vec_hi (n : Z) : may_panic Z :=
  lo ← vec_lo n;
  mret (wadd 16 lo 1).

End trace_reg_id.

(** ** Well-formed operands: what the register file can index *)

Definition gpr_ok (reg : Gpr) : Prop :=
  match reg with Gpr.X n => 0 <= n < NUM_GPR | _ => True end.

Definition vec_ok (reg : Vec) : Prop := 0 <= Vec.index reg < Vec.COUNT.

#[global] Instance gpr_ok_dec (reg : Gpr) : Decision (gpr_ok reg).
Proof. destruct reg; cbn; apply _. Defined.

#[global] Instance vec_ok_dec (reg : Vec) : Decision (vec_ok reg).
Proof. unfold vec_ok; apply _. Defined.

Lemma from_index_zr_returns (index : Z) :
  0 <= index < 32 -> returns (Gpr.from_index_zr index) gpr_ok.
Proof.
  intros Hi. unfold Gpr.from_index_zr. destruct (Z.ltb_spec index 32); [| lia]. cbn.
  apply returns_done. destruct (Z.eqb_spec index 31); cbn; [exact I | unfold NUM_GPR; lia].
Qed.

Lemma from_index_sp_returns (index : Z) :
  0 <= index < 32 -> returns (Gpr.from_index_sp index) gpr_ok.
Proof.
  intros Hi. unfold Gpr.from_index_sp. destruct (Z.ltb_spec index 32); [| lia]. cbn.
  apply returns_done. destruct (Z.eqb_spec index 31); cbn; [exact I | unfold NUM_GPR; lia].
Qed.

Lemma vec_new_returns (index : Z) :
  0 <= index < 32 -> returns (Vec.new index) vec_ok.
Proof.
  intros Hi. unfold Vec.new. destruct (Z.ltb_spec index 32); [| lia]. cbn.
  apply returns_done. unfold vec_ok, Vec.COUNT. cbn. lia.
Qed.

(** The ids of the trace stream are pairwise distinct, so a delta names one
    register. *)

Lemma trace_gpr_id (n : Z) : 0 <= n < 31 -> trace_reg_id.gpr n = Done n.
Proof.
  intros Hn. unfold trace_reg_id.gpr, NUM_GPR. destruct (Z.ltb_spec n 31); [| lia]. cbn.
  f_equal. unfold wadd, trace_reg_id.X0. apply wrap_small. split; lia.
Qed.

Lemma trace_vec_lo_id (n : Z) : 0 <= n < 32 -> trace_reg_id.vec_lo n = Done (64 + 2 * n).
Proof.
  intros Hn. unfold trace_reg_id.vec_lo, Vec.COUNT. destruct (Z.ltb_spec n 32); [| lia]. cbn.
  f_equal. unfold wadd, wmul, trace_reg_id.V_BASE.
  rewrite (wrap_small 16 (2 * n)) by (split; lia). apply wrap_small. split; lia.
Qed.

Lemma trace_vec_hi_id (n : Z) : 0 <= n < 32 -> trace_reg_id.vec_hi n = Done (65 + 2 * n).
Proof.
  intros Hn. unfold trace_reg_id.vec_hi. rewrite trace_vec_lo_id by lia. cbn. f_equal.
  unfold wadd. rewrite wrap_small by (split; lia). lia.
Qed.
