(* ===== verification/Pstate.v ===== *)
(** Processor state ([crates/core/src/pstate.rs]): condition flags, interrupt
    masks, exception level, and the normalised word of the trace stream. *)

From stdpp Require Import base numbers list option.
From S2P Require Import Prelude.

#[local] Open Scope Z_scope.

Definition TRACE_NZCV_SHIFT : Z := 28.
Definition TRACE_DAIF_SHIFT : Z := 6.
Definition TRACE_EL_SHIFT : Z := 2.

Module ExceptionLevel.

Inductive ExceptionLevel : Type := El0 | El1.

(** [self as u64]: the discriminants are given in the source. *)
Definition as_Z (el : ExceptionLevel) : Z := match el with El0 => 0 | El1 => 1 end.

#[global] Instance ExceptionLevel_eq_dec : EqDecision ExceptionLevel.
Proof. solve_decision. Defined.

End ExceptionLevel.

Module StackPointerSelect.

Inductive StackPointerSelect : Type := El0 | Elx.

Definition as_Z (s : StackPointerSelect) : Z := match s with El0 => 0 | Elx => 1 end.

#[global] Instance StackPointerSelect_eq_dec : EqDecision StackPointerSelect.
Proof. solve_decision. Defined.

End StackPointerSelect.

Module Nzcv.

Record Nzcv : Type := mk { n : bool; z : bool; c : bool; v : bool }.

Definition from_bits (bits : Z) : Nzcv :=
  mk (negb (Z.land bits 8 =? 0)) (negb (Z.land bits 4 =? 0))
     (negb (Z.land bits 2 =? 0)) (negb (Z.land bits 1 =? 0)).

Definition to_bits (self : Nzcv) : Z :=
  Z.lor (Z.lor (Z.lor (wshl 8 (b2z (n self)) 3) (wshl 8 (b2z (z self)) 2))
               (wshl 8 (b2z (c self)) 1)) (b2z (v self)).

#[global] Instance Nzcv_eq_dec : EqDecision Nzcv.
Proof. solve_decision. Defined.

End Nzcv.

Module Daif.

Record Daif : Type := mk { d : bool; a : bool; i : bool; f : bool }.

Definition from_bits (bits : Z) : Daif :=
  mk (negb (Z.land bits 8 =? 0)) (negb (Z.land bits 4 =? 0))
     (negb (Z.land bits 2 =? 0)) (negb (Z.land bits 1 =? 0)).

Definition to_bits (self : Daif) : Z :=
  Z.lor (Z.lor (Z.lor (wshl 8 (b2z (d self)) 3) (wshl 8 (b2z (a self)) 2))
               (wshl 8 (b2z (i self)) 1)) (b2z (f self)).

#[global] Instance Daif_eq_dec : EqDecision Daif.
Proof. solve_decision. Defined.

End Daif.

Abbreviation Nzcv := Nzcv.Nzcv.
Abbreviation Daif := Daif.Daif.
Abbreviation ExceptionLevel := ExceptionLevel.ExceptionLevel.
Abbreviation StackPointerSelect := StackPointerSelect.StackPointerSelect.

Module Pstate.

Record Pstate : Type := mk {
  nzcv : Nzcv;
  daif : Daif;
  el : ExceptionLevel;
  sp_sel : StackPointerSelect
}.

Definition to_trace_word (self : Pstate) : Z :=
  Z.lor (Z.lor (Z.lor
    (wshl 64 (Nzcv.to_bits (nzcv self)) TRACE_NZCV_SHIFT)
    (wshl 64 (Daif.to_bits (daif self)) TRACE_DAIF_SHIFT))
    (wshl 64 (ExceptionLevel.as_Z (el self)) TRACE_EL_SHIFT))
    (StackPointerSelect.as_Z (sp_sel self)).

#[global] Instance Pstate_eq_dec : EqDecision Pstate.
Proof. solve_decision. Defined.

End Pstate.

Abbreviation Pstate := Pstate.Pstate.

(** [nzcv] of a state replaced: the assignment [pstate.nzcv = flags]. *)
Definition with_nzcv (p : Pstate) (flags : Nzcv) : Pstate :=
  Pstate.mk flags (Pstate.daif p) (Pstate.el p) (Pstate.sp_sel p).

(** ** The trace word *)

(** The inverse of [to_trace_word], as the reader of a trace stream applies
    it: NZCV at 31..28, DAIF at 9..6, the level at 3..2 and SPSel at 0. *)
Definition of_trace_word (w : Z) : Pstate :=
  Pstate.mk
    (Nzcv.from_bits (Z.land (Z.shiftr w 28) 15))
    (Daif.from_bits (Z.land (Z.shiftr w 6) 15))
    (if Z.land (Z.shiftr w 2) 3 =? 0 then ExceptionLevel.El0 else ExceptionLevel.El1)
    (if Z.land w 1 =? 0 then StackPointerSelect.El0 else StackPointerSelect.Elx).

Lemma of_to_trace_word (p : Pstate) : of_trace_word (Pstate.to_trace_word p) = p.
Proof.
  destruct p as [[[] [] [] []] [[] [] [] []] [] []]; vm_compute; reflexivity.
Qed.

Lemma to_trace_word_inj (p q : Pstate) :
  Pstate.to_trace_word p = Pstate.to_trace_word q -> p = q.
Proof. intros H. rewrite <- (of_to_trace_word p), H. apply of_to_trace_word. Qed.

Lemma to_trace_word_range (p : Pstate) : in_range 64 (Pstate.to_trace_word p).
Proof.
  destruct p as [[[] [] [] []] [[] [] [] []] [] []]; split; vm_compute; congruence.
Qed.
