(* ===== verification/RegFile.v ===== *)
(** The architectural register file ([crates/core/src/regfile.rs]) and the
    read-over-write laws its clients use. *)

From stdpp Require Import base numbers list option.
From S2P Require Import Prelude Reg Pstate.

#[local] Open Scope Z_scope.

Module RegFile.

Record RegFile : Type := mk {
  x : list Z;
  sp : Z;
  pc : Z;
  v : list Z;
  pstate : Pstate;
  fpcr : Z;
  fpsr : Z
}.

Definition new : RegFile :=
  mk (replicate 31 0) 0 0 (replicate 32 0)
    (Pstate.mk (Nzcv.mk false false false false) (Daif.mk false false false false)
       ExceptionLevel.El0 StackPointerSelect.El0)
    0 0.

Definition with_x (self : RegFile) (l : list Z) : RegFile :=
  mk l (sp self) (pc self) (v self) (pstate self) (fpcr self) (fpsr self).
Definition with_v (self : RegFile) (l : list Z) : RegFile :=
  mk (x self) (sp self) (pc self) l (pstate self) (fpcr self) (fpsr self).
Definition with_pstate (self : RegFile) (p : Pstate) : RegFile :=
  mk (x self) (sp self) (pc self) (v self) p (fpcr self) (fpsr self).

Definition set_pc (self : RegFile) (value : Z) : RegFile :=
  mk (x self) (sp self) value (v self) (pstate self) (fpcr self) (fpsr self).

Definition set_sp (self : RegFile) (value : Z) : RegFile :=
  mk (x self) value (pc self) (v self) (pstate self) (fpcr self) (fpsr self).

Definition read_x (self : RegFile) (reg : Gpr) : may_panic Z :=
  match reg with
  | Gpr.X n => index (x self) n
  | Gpr.SP => mret (sp self)
  | Gpr.ZR => mret 0
  end.

Definition read_w (self : RegFile) (reg : Gpr) : may_panic Z :=
  value ← read_x self reg;
  mret (as_u32 value).

Definition write_x (self : RegFile) (reg : Gpr) (value : Z) : may_panic RegFile :=
  match reg with
  | Gpr.X n => l ← index_set (x self) n value; mret (with_x self l)
  | Gpr.SP => mret (set_sp self value)
  | Gpr.ZR => mret self
  end.

Definition write_w (self : RegFile) (reg : Gpr) (value : Z) : may_panic RegFile :=
  write_x self reg (as_u64 value).

Definition read_v (self : RegFile) (reg : Vec) : may_panic Z :=
  index (v self) (Vec.index reg).

Definition write_v (self : RegFile) (reg : Vec) (value : Z) : may_panic RegFile :=
  l ← index_set (v self) (Vec.index reg) value;
  mret (with_v self l).

Definition x_at (self : RegFile) (i : Z) : may_panic Z := index (x self) i.

End RegFile.

Abbreviation RegFile := RegFile.RegFile.

(** ** Well-formed register files: what Rust's array types guarantee *)

Record regfile_ok (r : RegFile) : Prop := {
  ok_x_length : length (RegFile.x r) = 31%nat;
  ok_x : Forall (in_range 64) (RegFile.x r);
  ok_sp : in_range 64 (RegFile.sp r);
  ok_pc : in_range 64 (RegFile.pc r);
  ok_v_length : length (RegFile.v r) = 32%nat;
  ok_v : Forall (in_range 128) (RegFile.v r);
  ok_fpcr : in_range 64 (RegFile.fpcr r);
  ok_fpsr : in_range 64 (RegFile.fpsr r)
}.

Lemma regfile_new_ok : regfile_ok RegFile.new.
Proof.
  split; cbn [RegFile.new RegFile.x RegFile.sp RegFile.pc RegFile.v RegFile.fpcr RegFile.fpsr];
    try (rewrite length_replicate; reflexivity); try (apply Forall_replicate); split; lia.
Qed.

Lemma read_x_returns (r : RegFile) (reg : Gpr) :
  regfile_ok r -> gpr_ok reg -> returns (RegFile.read_x r reg) (in_range 64).
Proof.
  intros Hr Hreg. destruct reg as [n | |]; cbn in *.
  - unfold NUM_GPR in Hreg. eapply returns_mono; [apply index_returns; rewrite ok_x_length; [lia | exact Hr] |].
    intros a Ha. eapply Forall_lookup_1; [apply ok_x, Hr | exact Ha].
  - apply returns_done, Hr.
  - apply returns_done. split; lia.
Qed.

Lemma regfile_ok_set_pc (r : RegFile) (value : Z) :
  regfile_ok r -> in_range 64 value -> regfile_ok (RegFile.set_pc r value).
Proof. intros [] Hv. split; assumption. Qed.

Lemma regfile_ok_set_sp (r : RegFile) (value : Z) :
  regfile_ok r -> in_range 64 value -> regfile_ok (RegFile.set_sp r value).
Proof. intros [] Hv. split; assumption. Qed.

Lemma regfile_ok_with_pstate (r : RegFile) (p : Pstate) :
  regfile_ok r -> regfile_ok (RegFile.with_pstate r p).
Proof. intros []. split; assumption. Qed.

(** A write touches the general-purpose storage and [SP], nothing else. *)
Definition same_but_gpr (r r' : RegFile) : Prop :=
  RegFile.pc r' = RegFile.pc r /\ RegFile.v r' = RegFile.v r /\
  RegFile.pstate r' = RegFile.pstate r /\ RegFile.fpcr r' = RegFile.fpcr r /\
  RegFile.fpsr r' = RegFile.fpsr r.

Lemma write_x_returns (r : RegFile) (reg : Gpr) (value : Z) :
  regfile_ok r -> gpr_ok reg -> in_range 64 value ->
  returns (RegFile.write_x r reg value) (fun r' => regfile_ok r' /\ same_but_gpr r r').
Proof.
  intros Hr Hreg Hv. destruct reg as [n | |]; cbn in *.
  - unfold NUM_GPR in Hreg. rewrite index_set_done by (rewrite ok_x_length; [lia | exact Hr]).
    cbn. apply returns_done. split; [| repeat split].
    destruct Hr. split; cbn; try assumption.
    + rewrite length_insert. assumption.
    + apply Forall_insert; assumption.
  - apply returns_done. split; [apply regfile_ok_set_sp; assumption | repeat split].
  - apply returns_done. split; [assumption | repeat split].
Qed.

(** ** Read over write *)

Lemma read_x_write_x (r r' : RegFile) (reg reg' : Gpr) (value : Z) :
  RegFile.write_x r reg value = Done r' ->
  gpr_ok reg' ->
  RegFile.read_x r' reg' =
    if decide (reg = reg') then (if Gpr.is_zero reg then Done 0 else Done value)
    else RegFile.read_x r reg'.
Proof.
  intros Hw Hok. destruct reg as [n | |]; cbn in Hw.
  - apply bind_done_inv in Hw as (l & Hl & [= <-]).
    apply index_set_done_inv in Hl as [Hn ->].
    case_decide as E; [subst reg' |]; cbn.
    + apply index_done; [lia |]. apply list_lookup_insert_eq. lia.
    + destruct reg' as [m | |]; cbn; [| reflexivity..]. cbn in Hok.
      unfold index. destruct (Z.ltb_spec m 0); [reflexivity |].
      rewrite list_lookup_insert_ne; [reflexivity |]. intros Hnm. apply E. f_equal. lia.
  - injection Hw as <-. case_decide as E; [subst reg'; reflexivity |].
    destruct reg'; [reflexivity | congruence | reflexivity].
  - injection Hw as <-. case_decide as E; [subst reg' |]; reflexivity.
Qed.

Lemma read_x_set_pc (r : RegFile) (value : Z) (reg : Gpr) :
  RegFile.read_x (RegFile.set_pc r value) reg = RegFile.read_x r reg.
Proof. destruct reg; reflexivity. Qed.

Lemma read_x_with_pstate (r : RegFile) (p : Pstate) (reg : Gpr) :
  RegFile.read_x (RegFile.with_pstate r p) reg = RegFile.read_x r reg.
Proof. destruct reg; reflexivity. Qed.

#[export] Hint Resolve regfile_new_ok read_x_returns regfile_ok_set_pc regfile_ok_set_sp
  regfile_ok_with_pstate : coracle.
#[export] Hint Rewrite read_x_set_pc read_x_with_pstate : coracle.
