(* ===== verification/Operand.v ===== *)
(** Operand vocabulary ([crates/core/src/decode/operand.rs]): widths, shifts,
    extensions, condition codes and SIMD/FP operand shapes; addressing modes and
    access sizes ([crates/core/src/decode/address.rs]). *)

From stdpp Require Import base numbers list option.
From S2P Require Import Prelude Reg.

#[local] Open Scope Z_scope.

Module RegWidth.

Inductive RegWidth : Type := W32 | X64.

Definition from_sf (sf : bool) : RegWidth := if sf then X64 else W32.

Definition bits (self : RegWidth) : Z := match self with W32 => 32 | X64 => 64 end.

Definition mask (self : RegWidth) : Z :=
  match self with W32 => 2 ^ 32 - 1 | X64 => 2 ^ 64 - 1 end.

#[global] Instance RegWidth_eq_dec : EqDecision RegWidth.
Proof. solve_decision. Defined.

End RegWidth.

Abbreviation RegWidth := RegWidth.RegWidth.

Module ShiftKind.

Inductive ShiftKind : Type := Lsl | Lsr | Asr | Ror.

End ShiftKind.

Abbreviation ShiftKind := ShiftKind.ShiftKind.

Module ShiftedReg.

Record ShiftedReg : Type := mk { reg : Gpr; kind : ShiftKind; amount : Z }.

End ShiftedReg.

Abbreviation ShiftedReg := ShiftedReg.ShiftedReg.

Module ExtendKind.

Inductive ExtendKind : Type := Uxtb | Uxth | Uxtw | Uxtx | Sxtb | Sxth | Sxtw | Sxtx.

Definition from_option (option : Z) : ExtendKind :=
  match Z.land option 7 with
  | 0 => Uxtb
  | 1 => Uxth
  | 2 => Uxtw
  | 3 => Uxtx
  | 4 => Sxtb
  | 5 => Sxth
  | 6 => Sxtw
  | _ => Sxtx
  end.

Definition source_bits (self : ExtendKind) : Z :=
  match self with
  | Uxtb | Sxtb => 8
  | Uxth | Sxth => 16
  | Uxtw | Sxtw => 32
  | Uxtx | Sxtx => 64
  end.

Definition is_signed (self : ExtendKind) : bool :=
  match self with Sxtb | Sxth | Sxtw | Sxtx => true | _ => false end.

End ExtendKind.

Abbreviation ExtendKind := ExtendKind.ExtendKind.

Module ExtendedReg.

Record ExtendedReg : Type := mk { reg : Gpr; kind : ExtendKind; amount : Z }.

End ExtendedReg.

Abbreviation ExtendedReg := ExtendedReg.ExtendedReg.

Module Cond.

Inductive Cond : Type :=
| Eq | Ne | Cs | Cc | Mi | Pl | Vs | Vc | Hi | Ls | Ge | Lt | Gt | Le | Al | Nv.

Definition from_bits (bits : Z) : Cond :=
  match Z.land bits 15 with
  | 0 => Eq
  | 1 => Ne
  | 2 => Cs
  | 3 => Cc
  | 4 => Mi
  | 5 => Pl
  | 6 => Vs
  | 7 => Vc
  | 8 => Hi
  | 9 => Ls
  | 10 => Ge
  | 11 => Lt
  | 12 => Gt
  | 13 => Le
  | 14 => Al
  | _ => Nv
  end.

Definition invert (self : Cond) : Cond :=
  match self with
  | Eq => Ne
  | Ne => Eq
  | Cs => Cc
  | Cc => Cs
  | Mi => Pl
  | Pl => Mi
  | Vs => Vc
  | Vc => Vs
  | Hi => Ls
  | Ls => Hi
  | Ge => Lt
  | Lt => Ge
  | Gt => Le
  | Le => Gt
  | Al => Al
  | Nv => Nv
  end.

#[global] Instance Cond_eq_dec : EqDecision Cond.
Proof. solve_decision. Defined.

End Cond.

Abbreviation Cond := Cond.Cond.

Module ElemSize.

Inductive ElemSize : Type := B8 | H16 | S32 | D64 | Q128.

Definition bits (self : ElemSize) : Z :=
  match self with B8 => 8 | H16 => 16 | S32 => 32 | D64 => 64 | Q128 => 128 end.

Definition from_size (size : Z) : ElemSize :=
  match Z.land size 3 with
  | 0 => B8
  | 1 => H16
  | 2 => S32
  | _ => D64
  end.

(** [self as u32]: the position in the declaration. *)
Definition as_Z (self : ElemSize) : Z :=
  match self with B8 => 0 | H16 => 1 | S32 => 2 | D64 => 3 | Q128 => 4 end.

#[global] Instance ElemSize_eq_dec : EqDecision ElemSize.
Proof. solve_decision. Defined.

End ElemSize.

Abbreviation ElemSize := ElemSize.ElemSize.

Module VecHalf.

Inductive VecHalf : Type := Full | Low | High.

End VecHalf.

Abbreviation VecHalf := VecHalf.VecHalf.

Module VecShape.

Inductive VecShape : Type :=
| Scalar (size : ElemSize)
| Vector (elem : ElemSize) (count : Z) (half : VecHalf)
| Element (elem : ElemSize) (index : Z).

End VecShape.

Abbreviation VecShape := VecShape.VecShape.

Module RoundMode.

Inductive RoundMode : Type := Current | Nearest | NearestAway | Plus | Minus | Zero | Odd.

End RoundMode.

Abbreviation RoundMode := RoundMode.RoundMode.

Module VecOperand.

Record VecOperand : Type := mk { reg : Vec; shape : VecShape }.

End VecOperand.

Abbreviation VecOperand := VecOperand.VecOperand.

(** ** Lemmas on widths *)

Lemma width_bits_pos (w : RegWidth) : 0 < RegWidth.bits w.
Proof. destruct w; cbn; lia. Qed.

Lemma width_mask (w : RegWidth) : RegWidth.mask w = Z.ones (RegWidth.bits w).
Proof. destruct w; reflexivity. Qed.

Lemma land_mask (w : RegWidth) (x : Z) : Z.land x (RegWidth.mask w) = wrap (RegWidth.bits w) x.
Proof. rewrite width_mask, wrap_land_ones; [reflexivity | destruct w; cbn; lia]. Qed.

Lemma width_bits_nonneg_lt (w : RegWidth) : 0 <= 0 < RegWidth.bits w.
Proof. destruct w; cbn; lia. Qed.

Lemma width_bits_le (w : RegWidth) : RegWidth.bits w <= 64.
Proof. destruct w; cbn; lia. Qed.

Lemma small_below_mask (w : RegWidth) (x : Z) : 0 <= x < 2 ^ 32 -> 0 <= x <= RegWidth.mask w.
Proof. destruct w; cbn; lia. Qed.

Lemma in_range_mask (w : RegWidth) (x : Z) :
  in_range (RegWidth.bits w) x <-> 0 <= x <= RegWidth.mask w.
Proof. unfold in_range. destruct w; cbn; lia. Qed.

Lemma guard_below_width (w : RegWidth) (x : Z) :
  bool_decide (w = RegWidth.W32) && negb (Z.land x 32 =? 0) = false ->
  0 <= x < 64 -> 0 <= x < RegWidth.bits w.
Proof.
  destruct w; [| cbn; lia]. rewrite bool_decide_true by reflexivity. cbn [andb].
  intros H%negb_false_iff Hx. split; [apply Hx |]. cbn [RegWidth.bits].
  assert (forall_below 64 (fun x => implb (Z.land x 32 =? 0) (x <? 32)) = true) as C
    by reflexivity.
  apply (fun C => forall_below_spec _ _ C x Hx) in C. cbv beta in C.
  rewrite H in C. cbn in C. lia.
Qed.

Lemma guard_lor (w : RegWidth) (x y : Z) :
  bool_decide (w = RegWidth.W32) && negb (Z.land (Z.lor x y) 32 =? 0) = false ->
  bool_decide (w = RegWidth.W32) && negb (Z.land x 32 =? 0) = false /\
  bool_decide (w = RegWidth.W32) && negb (Z.land y 32 =? 0) = false.
Proof.
  destruct (bool_decide _); cbn [andb]; [| split; reflexivity].
  intros H%negb_false_iff%Z.eqb_eq. rewrite Z.land_lor_distr_l in H.
  apply Z.lor_eq_0_iff in H as [-> ->]. split; reflexivity.
Qed.

#[export] Hint Resolve width_bits_nonneg_lt width_bits_pos : coracle.

(** ** Addressing modes *)

Module WriteBack.

Inductive WriteBack : Type := None | Pre | Post.

End WriteBack.

Abbreviation WriteBack := WriteBack.WriteBack.

Module AddrMode.

Inductive AddrMode : Type :=
| Immediate (base : Gpr) (offset : Z) (writeback : WriteBack)
| Register (base : Gpr) (index : ExtendedReg) (writeback : WriteBack)
| PcRelative (offset : Z)
| BaseOnly (base : Gpr).

Definition base (self : AddrMode) : option Gpr :=
  match self with
  | Immediate base _ _ | Register base _ _ | BaseOnly base => Some base
  | PcRelative _ => None
  end.

Definition has_writeback (self : AddrMode) : bool :=
  match self with
  | Immediate _ _ (WriteBack.Pre | WriteBack.Post)
  | Register _ _ (WriteBack.Pre | WriteBack.Post) => true
  | _ => false
  end.

End AddrMode.

Abbreviation AddrMode := AddrMode.AddrMode.

Module AccessSize.

Record AccessSize : Type := mk { bytes : Z; is_signed : bool }.

Definition B : AccessSize := mk 1 false.
Definition H : AccessSize := mk 2 false.
Definition W : AccessSize := mk 4 false.
Definition X : AccessSize := mk 8 false.
Definition Q : AccessSize := mk 16 false.

Definition scale (self : AccessSize) : Z := trailing_zeros 8 (bytes self).

End AccessSize.

Abbreviation AccessSize := AccessSize.AccessSize.

Module Ordering.

Record Ordering : Type := mk { is_acquire : bool; is_release : bool; is_exclusive : bool }.

Definition PLAIN : Ordering := mk false false false.

End Ordering.

Abbreviation Ordering := Ordering.Ordering.
