(* ===== verification/Op.v ===== *)
(** Opcodes ([crates/core/src/decode/op.rs]): what an instruction computes. *)

From stdpp Require Import base numbers list option.
From S2P Require Import Prelude.

#[local] Open Scope Z_scope.

Module Op.

Inductive Op : Type :=
| Unallocated
(* integer *)
| Add | Sub | Adc | Sbc | And | Orr | Eor | Bic | Orn | Eon | Movz | Movn | Movk | Adr
| Adrp | Sbfm | Bfm | Ubfm | Extr | Lslv | Lsrv | Asrv | Rorv | Csel | Csinc | Csinv
| Csneg | Ccmp | Ccmn | Madd | Msub | Smaddl | Smsubl | Umaddl | Umsubl | Smulh | Umulh
| Sdiv | Udiv | Rbit | Rev16 | Rev32 | Rev | Clz | Cls
(* branches and system *)
| B | Bl | Br | Blr | Ret | Cbz | Cbnz | Tbz | Tbnz | Svc | Hvc | Smc | Brk | Hlt | Nop
| Wfi | Wfe | Yield | Dmb | Dsb | Isb | Msr | Mrs | Eret | Clrex | Sev
(* memory *)
| Ldr | Str | Ldp | Stp | Ldar | Stlr | Prfm | Ld1 | Ld2 | Ld3 | Ld4 | Ld1r | St1 | St2
| St3 | St4
(* FP and NEON *)
| Fmov | Fadd | Fsub | Fmul | Fdiv | Fneg | Fabs | Fsqrt | Fmadd | Fmsub | Fcmp | Fccmp
| Fcsel | Fcvt | Fcvtn | Fcvtl | Frint | Fcvts | Fcvtu | Fmla | Fmls | Fmax | Fmin
| Fcvtzs | Fcvtzu | Scvtf | Ucvtf | VecAdd | VecSub | VecAnd | VecOrr | VecEor | VecCmeq
| VecMul | VecMla | VecMls | VecBsl | VecBit | VecBif | Uaddl | Saddl | Umull | Smull
| Xtn | Shrn | Ushl | Sshl | Movi | Mvni | Dup | Ins | Umov | Smov | Tbl | Tbx | Ext
| FmovImm | FmovToVec | FmovFromVec | InsGpr | Fnmadd | Fnmsub | Fnmul | Fmaxnm | Fminnm
| Fcmpe | Fccmpe | VecBic | VecOrn | VecNot | VecCmhi | VecCmhs | VecCmgt | VecCmge
| VecShl | VecUshr | VecSshr | VecNeg | VecAbs | VecCnt | VecRev64 | VecRev16 | Uminv
| Umaxv | Addv | Addp | Zip1 | Zip2 | Uzp1 | Uzp2 | Trn1 | Trn2.

Definition is_unallocated (self : Op) : bool :=
  match self with Unallocated => true | _ => false end.

Definition reads_destination (self : Op) : bool :=
  match self with
  | Movk | Bfm | VecBsl | Fmla | Ins
  | Fmls | VecMla | VecMls | VecBit | VecBif | InsGpr | Tbx => true
  | _ => false
  end.

(** The opcodes in declaration order: [derive(PartialEq)] compares positions. *)
Definition all : list Op :=
  [Unallocated; Add; Sub; Adc; Sbc; And; Orr; Eor; Bic; Orn; Eon; Movz; Movn; Movk; Adr;
   Adrp; Sbfm; Bfm; Ubfm; Extr; Lslv; Lsrv; Asrv; Rorv; Csel; Csinc; Csinv; Csneg; Ccmp;
   Ccmn; Madd; Msub; Smaddl; Smsubl; Umaddl; Umsubl; Smulh; Umulh; Sdiv; Udiv; Rbit; Rev16;
   Rev32; Rev; Clz; Cls; B; Bl; Br; Blr; Ret; Cbz; Cbnz; Tbz; Tbnz; Svc; Hvc; Smc; Brk;
   Hlt; Nop; Wfi; Wfe; Yield; Dmb; Dsb; Isb; Msr; Mrs; Eret; Clrex; Sev; Ldr; Str; Ldp;
   Stp; Ldar; Stlr; Prfm; Ld1; Ld2; Ld3; Ld4; Ld1r; St1; St2; St3; St4; Fmov; Fadd; Fsub;
   Fmul; Fdiv; Fneg; Fabs; Fsqrt; Fmadd; Fmsub; Fcmp; Fccmp; Fcsel; Fcvt; Fcvtn; Fcvtl;
   Frint; Fcvts; Fcvtu; Fmla; Fmls; Fmax; Fmin; Fcvtzs; Fcvtzu; Scvtf; Ucvtf; VecAdd;
   VecSub; VecAnd; VecOrr; VecEor; VecCmeq; VecMul; VecMla; VecMls; VecBsl; VecBit; VecBif;
   Uaddl; Saddl; Umull; Smull; Xtn; Shrn; Ushl; Sshl; Movi; Mvni; Dup; Ins; Umov; Smov;
   Tbl; Tbx; Ext; FmovImm; FmovToVec; FmovFromVec; InsGpr; Fnmadd; Fnmsub; Fnmul; Fmaxnm;
   Fminnm; Fcmpe; Fccmpe; VecBic; VecOrn; VecNot; VecCmhi; VecCmhs; VecCmgt; VecCmge;
   VecShl; VecUshr; VecSshr; VecNeg; VecAbs; VecCnt; VecRev64; VecRev16; Uminv; Umaxv;
   Addv; Addp; Zip1; Zip2; Uzp1; Uzp2; Trn1; Trn2].

Definition position (self : Op) : nat :=
  match self with
  | Unallocated => 0 | Add => 1 | Sub => 2 | Adc => 3 | Sbc => 4 | And => 5 | Orr => 6 |
  Eor => 7 | Bic => 8 | Orn => 9 | Eon => 10 | Movz => 11 | Movn => 12 | Movk => 13 |
  Adr => 14 | Adrp => 15 | Sbfm => 16 | Bfm => 17 | Ubfm => 18 | Extr => 19 | Lslv => 20
  | Lsrv => 21 | Asrv => 22 | Rorv => 23 | Csel => 24 | Csinc => 25 | Csinv => 26 |
  Csneg => 27 | Ccmp => 28 | Ccmn => 29 | Madd => 30 | Msub => 31 | Smaddl => 32 |
  Smsubl => 33 | Umaddl => 34 | Umsubl => 35 | Smulh => 36 | Umulh => 37 | Sdiv => 38 |
  Udiv => 39 | Rbit => 40 | Rev16 => 41 | Rev32 => 42 | Rev => 43 | Clz => 44 | Cls =>
  45 | B => 46 | Bl => 47 | Br => 48 | Blr => 49 | Ret => 50 | Cbz => 51 | Cbnz => 52 |
  Tbz => 53 | Tbnz => 54 | Svc => 55 | Hvc => 56 | Smc => 57 | Brk => 58 | Hlt => 59 |
  Nop => 60 | Wfi => 61 | Wfe => 62 | Yield => 63 | Dmb => 64 | Dsb => 65 | Isb => 66 |
  Msr => 67 | Mrs => 68 | Eret => 69 | Clrex => 70 | Sev => 71 | Ldr => 72 | Str => 73 |
  Ldp => 74 | Stp => 75 | Ldar => 76 | Stlr => 77 | Prfm => 78 | Ld1 => 79 | Ld2 => 80 |
  Ld3 => 81 | Ld4 => 82 | Ld1r => 83 | St1 => 84 | St2 => 85 | St3 => 86 | St4 => 87 |
  Fmov => 88 | Fadd => 89 | Fsub => 90 | Fmul => 91 | Fdiv => 92 | Fneg => 93 | Fabs =>
  94 | Fsqrt => 95 | Fmadd => 96 | Fmsub => 97 | Fcmp => 98 | Fccmp => 99 | Fcsel => 100
  | Fcvt => 101 | Fcvtn => 102 | Fcvtl => 103 | Frint => 104 | Fcvts => 105 | Fcvtu =>
  106 | Fmla => 107 | Fmls => 108 | Fmax => 109 | Fmin => 110 | Fcvtzs => 111 | Fcvtzu
  => 112 | Scvtf => 113 | Ucvtf => 114 | VecAdd => 115 | VecSub => 116 | VecAnd => 117 |
  VecOrr => 118 | VecEor => 119 | VecCmeq => 120 | VecMul => 121 | VecMla => 122 |
  VecMls => 123 | VecBsl => 124 | VecBit => 125 | VecBif => 126 | Uaddl => 127 | Saddl
  => 128 | Umull => 129 | Smull => 130 | Xtn => 131 | Shrn => 132 | Ushl => 133 | Sshl
  => 134 | Movi => 135 | Mvni => 136 | Dup => 137 | Ins => 138 | Umov => 139 | Smov =>
  140 | Tbl => 141 | Tbx => 142 | Ext => 143 | FmovImm => 144 | FmovToVec => 145 |
  FmovFromVec => 146 | InsGpr => 147 | Fnmadd => 148 | Fnmsub => 149 | Fnmul => 150 |
  Fmaxnm => 151 | Fminnm => 152 | Fcmpe => 153 | Fccmpe => 154 | VecBic => 155 | VecOrn
  => 156 | VecNot => 157 | VecCmhi => 158 | VecCmhs => 159 | VecCmgt => 160 | VecCmge =>
  161 | VecShl => 162 | VecUshr => 163 | VecSshr => 164 | VecNeg => 165 | VecAbs => 166
  | VecCnt => 167 | VecRev64 => 168 | VecRev16 => 169 | Uminv => 170 | Umaxv => 171 |
  Addv => 172 | Addp => 173 | Zip1 => 174 | Zip2 => 175 | Uzp1 => 176 | Uzp2 => 177 |
  Trn1 => 178 | Trn2 => 179
  end%nat.

Lemma all_position (o : Op) : all !! position o = Some o.
Proof. destruct o; reflexivity. Qed.

Lemma position_inj (o o' : Op) : position o = position o' -> o = o'.
Proof.
  intros H. pose proof (all_position o) as E. rewrite H, all_position in E. congruence.
Qed.

#[global] Instance Op_eq_dec : EqDecision Op.
Proof.
  intros o o'. destruct (Nat.eq_dec (position o) (position o')) as [H | H].
  - left. apply position_inj, H.
  - right. intros ->. apply H. reflexivity.
Defined.

End Op.

Abbreviation Op := Op.Op.
