(* ===== verification/Instruction.v ===== *)
(** The decoded-instruction model ([crates/core/src/decode/instruction.rs]),
    and what it means for a decoded instruction to be well formed. *)

From stdpp Require Import base numbers list option.
From S2P Require Import Prelude Reg Operand Op.

#[local] Open Scope Z_scope.

Module Form.

Inductive Form : Type :=
| None
| RegImm (rd rn : Gpr) (imm : Z)
| MoveWide (rd : Gpr) (imm16 hw : Z)
| PcRelAddr (rd : Gpr) (offset : Z)
| RegShifted (rd rn : Gpr) (rm : ShiftedReg)
| RegExtended (rd rn : Gpr) (rm : ExtendedReg)
| ThreeSource (rd rn rm ra : Gpr)
| Bitfield (rd rn rm : Gpr) (immr imms : Z)
| CondSelect (rd rn rm : Gpr) (cond : Cond)
| CondCompare (rn : Gpr) (imm nzcv : Z) (cond : Cond)
| Branch (offset : Z)
| BranchCond (offset : Z) (cond : Cond)
| BranchReg (rt : Gpr) (offset bit : Z)
| BranchIndirect (rn : Gpr)
| LoadStore (rt : Gpr) (rt2 rs : option Gpr) (addr : AddrMode) (size : AccessSize)
    (ordering : Ordering)
| Prefetch (prfop : Z) (addr : AddrMode)
| LoadStoreVec (vt : VecOperand) (count : Z) (addr : AddrMode) (ordering : Ordering)
| VecData (vd vn : VecOperand) (vm va : option VecOperand)
| VecImm (vd vn : VecOperand) (imm : Z)
| VecCond (vd vn vm : VecOperand) (cond : Cond)
| VecCondCompare (vn vm : VecOperand) (nzcv : Z) (cond : Cond)
| VecCompare (vn : VecOperand) (vm : option VecOperand)
| TableLookup (vd : VecOperand) (table : Vec) (table_len : Z) (vm : VecOperand)
| VecGprMove (gpr : Gpr) (vec : VecOperand)
| Imm (imm : Z)
| System (rt : Gpr) (sysreg : Z).

End Form.

Abbreviation Form := Form.Form.

Module Instruction.

Record Instruction : Type := mk {
  op : Op;
  form : Form;
  width : RegWidth;
  round : RoundMode;
  sets_flags : bool;
  encoding : Z
}.

Definition new (encoding : Z) (op : Op) (form : Form) : Instruction :=
  mk op form RegWidth.X64 RoundMode.Current false encoding.

Definition with_width (self : Instruction) (width : RegWidth) : Instruction :=
  mk (op self) (form self) width (round self) (sets_flags self) (encoding self).

Definition with_round (self : Instruction) (round : RoundMode) : Instruction :=
  mk (op self) (form self) (width self) round (sets_flags self) (encoding self).

Definition setting_flags (self : Instruction) : Instruction :=
  mk (op self) (form self) (width self) (round self) true (encoding self).

End Instruction.

Abbreviation Instruction := Instruction.Instruction.

Definition unallocated (encoding : Z) : Instruction :=
  Instruction.new encoding Op.Unallocated Form.None.

(** ** Well-formed instructions

    The bounds the interpreter relies on without checking them again: every
    register exists, a constant shift is below the operand width, an access
    is of a width the memory interface has, and so on. *)

Definition shifted_ok (w : RegWidth) (r : ShiftedReg) : Prop :=
  gpr_ok (ShiftedReg.reg r) /\ 0 <= ShiftedReg.amount r < RegWidth.bits w.

Definition extended_ok (r : ExtendedReg) : Prop :=
  gpr_ok (ExtendedReg.reg r) /\ 0 <= ExtendedReg.amount r <= 4.

Definition addr_ok (a : AddrMode) : Prop :=
  match a with
  | AddrMode.Immediate base offset _ => gpr_ok base /\ - 2 ^ 63 <= offset < 2 ^ 63
  | AddrMode.Register base index _ => gpr_ok base /\ extended_ok index
  | AddrMode.PcRelative offset => - 2 ^ 20 <= offset < 2 ^ 20 /\ offset mod 4 = 0
  | AddrMode.BaseOnly base => gpr_ok base
  end.

Definition size_ok (s : AccessSize) : Prop :=
  AccessSize.bytes s = 1 \/ AccessSize.bytes s = 2 \/
  AccessSize.bytes s = 4 \/ AccessSize.bytes s = 8.

(** The lanes of a vector arrangement fill 64 or 128 bits, and an addressed
    lane lies in the register. *)
Definition shape_ok (s : VecShape) : Prop :=
  match s with
  | VecShape.Scalar _ => True
  | VecShape.Vector elem count half =>
      elem <> ElemSize.Q128 /\
      count * ElemSize.bits elem = match half with VecHalf.Full => 128 | _ => 64 end
  | VecShape.Element elem index =>
      elem <> ElemSize.Q128 /\ 0 <= index < 128 / ElemSize.bits elem
  end.

Definition operand_ok (o : VecOperand) : Prop :=
  vec_ok (VecOperand.reg o) /\ shape_ok (VecOperand.shape o).

Definition opt_ok {A} (P : A -> Prop) (o : option A) : Prop :=
  match o with Some a => P a | None => True end.

Definition form_ok (w : RegWidth) (f : Form) : Prop :=
  match f with
  | Form.None => True
  | Form.RegImm rd rn imm => gpr_ok rd /\ gpr_ok rn /\ 0 <= imm <= RegWidth.mask w
  | Form.MoveWide rd imm16 hw =>
      gpr_ok rd /\ in_range 16 imm16 /\ 0 <= 16 * hw < RegWidth.bits w
  | Form.PcRelAddr rd offset => gpr_ok rd /\ - 2 ^ 32 <= offset < 2 ^ 32
  | Form.RegShifted rd rn rm => gpr_ok rd /\ gpr_ok rn /\ shifted_ok w rm
  | Form.RegExtended rd rn rm => gpr_ok rd /\ gpr_ok rn /\ extended_ok rm
  | Form.ThreeSource rd rn rm ra => gpr_ok rd /\ gpr_ok rn /\ gpr_ok rm /\ gpr_ok ra
  | Form.Bitfield rd rn rm immr imms =>
      gpr_ok rd /\ gpr_ok rn /\ gpr_ok rm /\
      0 <= immr < RegWidth.bits w /\ 0 <= imms < RegWidth.bits w
  | Form.CondSelect rd rn rm _ => gpr_ok rd /\ gpr_ok rn /\ gpr_ok rm
  | Form.CondCompare rn imm nzcv _ => gpr_ok rn /\ in_range 5 imm /\ in_range 4 nzcv
  | Form.Branch offset => - 2 ^ 27 <= offset < 2 ^ 27 /\ offset mod 4 = 0
  | Form.BranchCond offset _ => - 2 ^ 20 <= offset < 2 ^ 20 /\ offset mod 4 = 0
  | Form.BranchReg rt offset bit =>
      gpr_ok rt /\ - 2 ^ 20 <= offset < 2 ^ 20 /\ offset mod 4 = 0 /\
      0 <= bit < RegWidth.bits w
  | Form.BranchIndirect rn => gpr_ok rn
  | Form.LoadStore rt rt2 rs addr size _ =>
      gpr_ok rt /\ opt_ok gpr_ok rt2 /\ opt_ok gpr_ok rs /\ addr_ok addr /\ size_ok size
  | Form.Prefetch prfop addr => in_range 5 prfop /\ addr_ok addr
  | Form.LoadStoreVec vt count addr _ => operand_ok vt /\ 1 <= count <= 4 /\ addr_ok addr
  | Form.VecData vd vn vm va =>
      operand_ok vd /\ operand_ok vn /\ opt_ok operand_ok vm /\ opt_ok operand_ok va
  | Form.VecImm vd vn imm => operand_ok vd /\ operand_ok vn /\ in_range 64 imm
  | Form.VecCond vd vn vm _ => operand_ok vd /\ operand_ok vn /\ operand_ok vm
  | Form.VecCondCompare vn vm nzcv _ => operand_ok vn /\ operand_ok vm /\ in_range 4 nzcv
  | Form.VecCompare vn vm => operand_ok vn /\ opt_ok operand_ok vm
  | Form.TableLookup vd table table_len vm =>
      operand_ok vd /\ vec_ok table /\ 1 <= table_len <= 4 /\ operand_ok vm
  | Form.VecGprMove gpr vec => gpr_ok gpr /\ operand_ok vec
  | Form.Imm imm => in_range 16 imm
  | Form.System rt sysreg => gpr_ok rt /\ in_range 16 sysreg
  end.

(** The operand layouts an opcode comes with.  The interpreter dispatches on
    the opcode alone, so this is what its arms may expect. *)
Inductive layout : Type :=
| LNone | LRegImm | LMoveWide | LPcRelAddr | LRegShifted | LRegExtended | LThreeSource
| LBitfield | LCondSelect | LCondCompare | LBranch | LBranchCond | LBranchReg
| LBranchIndirect | LLoadStore | LPrefetch | LLoadStoreVec | LVecData | LVecImm | LVecCond
| LVecCondCompare | LVecCompare | LTableLookup | LVecGprMove | LImm | LSystem.

Definition form_layout (f : Form) : layout :=
  match f with
  | Form.None => LNone
  | Form.RegImm _ _ _ => LRegImm
  | Form.MoveWide _ _ _ => LMoveWide
  | Form.PcRelAddr _ _ => LPcRelAddr
  | Form.RegShifted _ _ _ => LRegShifted
  | Form.RegExtended _ _ _ => LRegExtended
  | Form.ThreeSource _ _ _ _ => LThreeSource
  | Form.Bitfield _ _ _ _ _ => LBitfield
  | Form.CondSelect _ _ _ _ => LCondSelect
  | Form.CondCompare _ _ _ _ => LCondCompare
  | Form.Branch _ => LBranch
  | Form.BranchCond _ _ => LBranchCond
  | Form.BranchReg _ _ _ => LBranchReg
  | Form.BranchIndirect _ => LBranchIndirect
  | Form.LoadStore _ _ _ _ _ _ => LLoadStore
  | Form.Prefetch _ _ => LPrefetch
  | Form.LoadStoreVec _ _ _ _ => LLoadStoreVec
  | Form.VecData _ _ _ _ => LVecData
  | Form.VecImm _ _ _ => LVecImm
  | Form.VecCond _ _ _ _ => LVecCond
  | Form.VecCondCompare _ _ _ _ => LVecCondCompare
  | Form.VecCompare _ _ => LVecCompare
  | Form.TableLookup _ _ _ _ => LTableLookup
  | Form.VecGprMove _ _ => LVecGprMove
  | Form.Imm _ => LImm
  | Form.System _ _ => LSystem
  end.

Definition op_has_layout (o : Op) (l : layout) : bool :=
  match o, l with
  | Op.Unallocated, LNone => true
  | (Op.Add | Op.Sub), (LRegImm | LRegShifted | LRegExtended) => true
  | (Op.And | Op.Orr | Op.Eor), (LRegImm | LRegShifted) => true
  | (Op.Bic | Op.Orn | Op.Eon | Op.Adc | Op.Sbc), LRegShifted => true
  | (Op.Lslv | Op.Lsrv | Op.Asrv | Op.Rorv | Op.Udiv | Op.Sdiv), LRegShifted => true
  | (Op.Rbit | Op.Rev16 | Op.Rev32 | Op.Rev | Op.Clz | Op.Cls), LRegShifted => true
  | (Op.Movz | Op.Movn | Op.Movk), LMoveWide => true
  | (Op.Adr | Op.Adrp), LPcRelAddr => true
  | (Op.Sbfm | Op.Bfm | Op.Ubfm | Op.Extr), LBitfield => true
  | (Op.Csel | Op.Csinc | Op.Csinv | Op.Csneg), LCondSelect => true
  | (Op.Ccmp | Op.Ccmn), (LCondCompare | LCondSelect) => true
  | (Op.Madd | Op.Msub | Op.Smaddl | Op.Smsubl | Op.Umaddl | Op.Umsubl | Op.Smulh
    | Op.Umulh), LThreeSource => true
  | Op.B, (LBranch | LBranchCond) => true
  | Op.Bl, LBranch => true
  | (Op.Br | Op.Blr | Op.Ret), LBranchIndirect => true
  | (Op.Cbz | Op.Cbnz | Op.Tbz | Op.Tbnz), LBranchReg => true
  | (Op.Svc | Op.Hvc | Op.Smc | Op.Brk | Op.Hlt), LImm => true
  | (Op.Dmb | Op.Dsb | Op.Isb | Op.Clrex), LImm => true
  | (Op.Nop | Op.Wfi | Op.Wfe | Op.Yield | Op.Sev | Op.Eret), LNone => true
  | (Op.Msr | Op.Mrs), LSystem => true
  | (Op.Ldr | Op.Str | Op.Ldp | Op.Stp), (LLoadStore | LLoadStoreVec) => true
  | (Op.Ldar | Op.Stlr), LLoadStore => true
  | Op.Prfm, LPrefetch => true
  | (Op.Ld1 | Op.Ld2 | Op.Ld3 | Op.Ld4 | Op.St1 | Op.St2 | Op.St3 | Op.St4),
    LLoadStoreVec => true
  | (Op.Fmov | Op.Fadd | Op.Fsub | Op.Fmul | Op.Fdiv | Op.Fneg | Op.Fabs | Op.Fsqrt
    | Op.Fmadd | Op.Fmsub | Op.Fnmadd | Op.Fnmsub | Op.Fnmul | Op.Fmax | Op.Fmin
    | Op.Fmaxnm | Op.Fminnm | Op.Fcvt | Op.Frint), LVecData => true
  | (Op.Fcmp | Op.Fcmpe), LVecCompare => true
  | (Op.Fccmp | Op.Fccmpe), LVecCondCompare => true
  | Op.Fcsel, LVecCond => true
  | (Op.Fcvts | Op.Fcvtu | Op.Fcvtzs | Op.Fcvtzu | Op.Scvtf | Op.Ucvtf | Op.FmovToVec
    | Op.FmovFromVec | Op.InsGpr | Op.Umov | Op.Smov), LVecGprMove => true
  | Op.Dup, (LVecData | LVecGprMove) => true
  | (Op.FmovImm | Op.Movi | Op.Mvni | Op.Ext | Op.VecShl | Op.VecUshr | Op.VecSshr),
    LVecImm => true
  | (Op.VecAdd | Op.VecSub | Op.VecAnd | Op.VecOrr | Op.VecEor | Op.VecBic | Op.VecOrn
    | Op.VecNot | Op.VecCmeq | Op.VecCmhi | Op.VecCmhs | Op.VecCmgt | Op.VecCmge
    | Op.VecMul | Op.VecMla | Op.VecMls | Op.VecBsl | Op.VecBit | Op.VecBif | Op.VecNeg
    | Op.VecAbs | Op.VecCnt | Op.VecRev64 | Op.VecRev16 | Op.Ushl | Op.Sshl | Op.Ins
    | Op.Uminv | Op.Umaxv | Op.Addv | Op.Addp | Op.Zip1 | Op.Zip2 | Op.Uzp1 | Op.Uzp2
    | Op.Trn1 | Op.Trn2), LVecData => true
  | (Op.Tbl | Op.Tbx), LTableLookup => true
  | _, _ => false
  end.

(** What the decoder promises of the instruction it returns for [e]. *)
Record decoded_ok (e : Z) (i : Instruction) : Prop := {
  decoded_encoding : Instruction.encoding i = e;
  decoded_form : form_ok (Instruction.width i) (Instruction.form i);
  decoded_layout : op_has_layout (Instruction.op i) (form_layout (Instruction.form i)) = true
}.

Lemma unallocated_ok (e : Z) : decoded_ok e (unallocated e).
Proof. split; [reflexivity | exact I | reflexivity]. Qed.

Lemma returns_unallocated (e : Z) : returns (mret (unallocated e)) (decoded_ok e).
Proof. apply returns_ret, unallocated_ok. Qed.

#[export] Hint Resolve unallocated_ok returns_unallocated : coracle.
