(* ===== verification/Group.v ===== *)
(** Bit fields of an encoding ([crates/core/src/decode/group/mod.rs]) and the
    automation the group decoders share. *)

From stdpp Require Import base numbers list option.
From S2P Require Import Prelude Reg Operand Op Instruction.

#[local] Open Scope Z_scope.

(** The [[hi:lo]] field of an encoding, inclusive at both ends. *)
Definition bits (encoding hi lo : Z) : Z :=
  Z.land (wshr 32 encoding lo) (wsub 32 (wshl 32 1 (hi - lo + 1)) 1).

(** Sign-extends the low [width] bits of [value] into an [i64]. *)
Definition sign_extend (value width : Z) : Z :=
  let shift := 64 - width in
  Z.shiftr (to_signed 64 (Z.shiftl value shift)) shift.

Lemma bits_spec (e hi lo : Z) :
  0 <= lo -> lo <= hi < 32 -> hi - lo < 31 ->
  bits e hi lo = e / 2 ^ lo mod 2 ^ (hi - lo + 1).
Proof.
  intros Hlo Hhi Hw. unfold bits, wshr, wshl, wsub.
  rewrite !Z.mod_small by lia. rewrite Z.shiftl_1_l.
  pose proof (pow2_pos (hi - lo + 1) ltac:(lia)).
  assert (2 ^ (hi - lo + 1) < 2 ^ 32) by (apply Z.pow_lt_mono_r; lia).
  rewrite (wrap_small 32 (2 ^ _)) by (split; lia).
  rewrite wrap_small by (split; lia).
  replace (2 ^ (hi - lo + 1) - 1) with (Z.ones (hi - lo + 1))
    by (rewrite Z.ones_equiv; lia).
  rewrite Z.land_ones, Z.shiftr_div_pow2 by lia. reflexivity.
Qed.

Lemma bits_range (e hi lo : Z) :
  0 <= lo -> lo <= hi < 32 -> hi - lo < 31 -> 0 <= bits e hi lo < 2 ^ (hi - lo + 1).
Proof. intros. rewrite bits_spec by assumption. apply Z.mod_pos_bound, pow2_pos. lia. Qed.

Lemma sign_extend_spec (value width : Z) :
  0 < width <= 64 -> sign_extend value width = to_signed width value.
Proof. apply signed_shift_pair. Qed.

Lemma sign_extend_range (value width : Z) :
  0 < width <= 64 -> - 2 ^ (width - 1) <= sign_extend value width < 2 ^ (width - 1).
Proof. intros. rewrite sign_extend_spec by assumption. apply to_signed_range. lia. Qed.

#[global] Opaque bits sign_extend.

(** ** Automation *)

(** Adds the range of every field and every sign-extension with constant
    bounds in the goal or the context. *)
Ltac field_fact t :=
  match type of t with
  | Z =>
    match t with
    | bits ?e ?hi ?lo =>
        lazymatch goal with
        | H : 0 <= bits e hi lo < _ |- _ => fail
        | _ =>
            let n := eval cbv in (2 ^ (hi - lo + 1)) in
            assert (0 <= bits e hi lo < n) by (apply (bits_range e hi lo); lia)
        end
    | sign_extend ?v ?w =>
        lazymatch goal with
        | H : _ <= sign_extend v w < _ |- _ => fail
        | _ =>
            let n := eval cbv in (2 ^ (w - 1)) in
            assert (- n <= sign_extend v w < n) by (apply (sign_extend_range v w); lia)
        end
    end
  end.

Ltac field_facts :=
  repeat match goal with
  | |- context [bits ?e ?hi ?lo] => field_fact (bits e hi lo)
  | |- context [sign_extend ?v ?w] => field_fact (sign_extend v w)
  | _ : context [bits ?e ?hi ?lo] |- _ => field_fact (bits e hi lo)
  | _ : context [sign_extend ?v ?w] |- _ => field_fact (sign_extend v w)
  end.

Lemma as_u8_bits (e hi lo : Z) :
  0 <= lo -> lo <= hi < 32 -> hi - lo < 8 -> as_u8 (bits e hi lo) = bits e hi lo.
Proof.
  intros. unfold as_u8. apply wrap_small.
  apply in_range_weaken with (hi - lo + 1); [lia | apply bits_range; lia].
Qed.

(** A five-bit field always names a register. *)
Lemma zr_field (e hi lo : Z) :
  0 <= lo -> lo <= hi < 32 -> hi - lo = 4 ->
  returns (Gpr.from_index_zr (as_u8 (bits e hi lo))) gpr_ok.
Proof.
  intros. rewrite as_u8_bits by lia. apply from_index_zr_returns.
  pose proof (bits_range e hi lo). replace (hi - lo + 1) with 5 in * by lia. lia.
Qed.

Lemma sp_field (e hi lo : Z) :
  0 <= lo -> lo <= hi < 32 -> hi - lo = 4 ->
  returns (Gpr.from_index_sp (as_u8 (bits e hi lo))) gpr_ok.
Proof.
  intros. rewrite as_u8_bits by lia. apply from_index_sp_returns.
  pose proof (bits_range e hi lo). replace (hi - lo + 1) with 5 in * by lia. lia.
Qed.

Lemma vec_field (e hi lo : Z) :
  0 <= lo -> lo <= hi < 32 -> hi - lo = 4 ->
  returns (Vec.new (as_u8 (bits e hi lo))) vec_ok.
Proof.
  intros. rewrite as_u8_bits by lia. apply vec_new_returns.
  pose proof (bits_range e hi lo). replace (hi - lo + 1) with 5 in * by lia. lia.
Qed.

#[export] Hint Extern 1 (returns (Gpr.from_index_zr (as_u8 (bits _ _ _))) _) =>
  apply zr_field; lia : coracle.
#[export] Hint Extern 1 (returns (Gpr.from_index_sp (as_u8 (bits _ _ _))) _) =>
  apply sp_field; lia : coracle.
#[export] Hint Extern 1 (returns (Vec.new (as_u8 (bits _ _ _))) _) =>
  apply vec_field; lia : coracle.

(** One step through a group decoder; the goal is
    [returns (decoder e) (decoded_ok e)]. *)
Ltac decode_step :=
  lazymatch goal with
  | |- returns (mret (unallocated _)) _ => apply returns_unallocated
  | |- returns (mbind _ (mret ?a)) _ => rewrite bind_ret; cbv beta
  | |- returns (mbind _ (mbind _ _)) _ => rewrite bind_bind; cbv beta
  | |- returns (mbind _ (if ?b then _ else _)) _ => destruct b eqn:?
  | |- returns (mbind _ (match ?x with _ => _ end)) _ => destruct x eqn:?
  | |- returns (mbind _ _) _ =>
      eapply returns_bind; [solve [eauto 3 with coracle] | intros; cbv beta]
  | |- returns (if ?b then _ else _) _ => destruct b eqn:?
  | |- returns (match ?x with _ => _ end) _ => destruct x eqn:?
  | |- returns (mret (if ?b then _ else _)) _ => destruct b eqn:?
  | |- returns (mret _) _ => apply returns_ret
  | |- returns _ _ => solve [eauto 3 with coracle]
  end.

(** Splits the matches left in the hypotheses: the opcode tables. *)
Ltac case_match_hyps :=
  repeat match goal with
  | H : context [match ?x with _ => _ end] |- _ =>
      lazymatch type of x with
      | Z => idtac | positive => idtac | bool => idtac | option _ => idtac
      | RegWidth => idtac | ElemSize => idtac
      end;
      destruct x eqn:?; try discriminate H
  end;
  repeat match goal with H : Some _ = Some _ |- _ => injection H; clear H; intros; subst end.

(** Comparisons of fields as hypotheses [lia] reads. *)
Ltac bool_facts :=
  repeat match goal with
  | H : (_ && _) = true |- _ => apply andb_prop in H as [? ?]
  | H : (_ || _) = false |- _ => apply orb_false_elim in H as [? ?]
  | H : negb _ = true |- _ => apply negb_true_iff in H
  | H : negb _ = false |- _ => apply negb_false_iff in H
  | H : (_ =? _) = true |- _ => apply Z.eqb_eq in H
  | H : (_ =? _) = false |- _ => apply Z.eqb_neq in H
  | H : (_ <? _) = true |- _ => apply Z.ltb_lt in H
  | H : (_ <? _) = false |- _ => apply Z.ltb_ge in H
  | H : (_ <=? _) = true |- _ => apply Z.leb_le in H
  | H : (_ <=? _) = false |- _ => apply Z.leb_gt in H
  end.

Ltac decode_open f := unfold f; cbv zeta; repeat decode_step.

(** The three parts of [decoded_ok] of an instruction that has been built. *)
Ltac destruct_matches :=
  repeat match goal with |- context [match ?x with _ => _ end] => destruct x end.

Ltac decoded_split :=
  split;
  [ cbn; destruct_matches; reflexivity
  | cbn -[Z.pow Z.sub RegWidth.mask RegWidth.bits in_range shifted_ok extended_ok addr_ok]
  | cbn -[op_has_layout]; destruct_matches; reflexivity ].

(** Splits a conjunction, leaving two-sided bounds whole. *)
Ltac split_bounds :=
  lazymatch goal with
  | |- _ <= _ <= _ => idtac
  | |- _ <= _ < _ => idtac
  | |- _ /\ _ => split; split_bounds
  | |- _ => idtac
  end.

(** The parts of [form_ok] of a form that has been built. *)
Ltac form_split :=
  cbn -[Z.pow Z.sub RegWidth.mask RegWidth.bits in_range shifted_ok extended_ok addr_ok];
  unfold opt_ok, addr_ok, shifted_ok, extended_ok;
  cbn [ShiftedReg.reg ShiftedReg.amount ExtendedReg.reg ExtendedReg.amount]; split_bounds.

(** The whole of a group decoder, down to the arithmetic side conditions. *)
Ltac decode_solve f :=
  decode_open f; case_match_hyps; decoded_split; field_facts;
  rewrite ?as_u8_bits by lia; form_split;
  try solve [assumption | exact I | lia | apply small_below_mask; lia | apply wrap_range; lia
            | split; lia].
