(* ===== verification/DpImmediate.v ===== *)
(** Data processing, immediate ([crates/core/src/decode/group/dp_immediate.rs]):
    the group decoder and the bitmask-immediate expansion. *)

From stdpp Require Import base numbers list option.
From S2P Require Import Prelude Reg Operand Op Instruction Group.

#[local] Open Scope Z_scope.

Definition pc_relative (encoding : Z) : may_panic Instruction :=
  let imm := Z.lor (wshl 32 (bits encoding 23 5) 2) (bits encoding 30 29) in
  let is_page := bits encoding 31 31 =? 1 in
  let offset := imul64 (sign_extend imm 21) (if is_page then 4096 else 1) in
  rd ← Gpr.from_index_zr (as_u8 (bits encoding 4 0));
  let form := Form.PcRelAddr rd offset in
  let op := if is_page then Op.Adrp else Op.Adr in
  mret (Instruction.new encoding op form).

Definition add_sub_immediate (encoding : Z) : may_panic Instruction :=
  let shift := bits encoding 23 22 in
  if negb (Z.land shift 2 =? 0) then mret (unallocated encoding) else
  let imm :=
    if Z.land shift 1 =? 0 then bits encoding 21 10
    else wshl 64 (bits encoding 21 10) 12 in
  let is_sub := bits encoding 30 30 =? 1 in
  let sets_flags := bits encoding 29 29 =? 1 in
  rd ← (if sets_flags then Gpr.from_index_zr (as_u8 (bits encoding 4 0))
        else Gpr.from_index_sp (as_u8 (bits encoding 4 0)));
  rn ← Gpr.from_index_sp (as_u8 (bits encoding 9 5));
  let form := Form.RegImm rd rn imm in
  let op := if is_sub then Op.Sub else Op.Add in
  let insn :=
    Instruction.with_width (Instruction.new encoding op form)
      (RegWidth.from_sf (bits encoding 31 31 =? 1)) in
  mret (if sets_flags then Instruction.setting_flags insn else insn).

(** Mask of the low [n] bits, for [n] in [1..=64]. *)
Definition mask_of (n : Z) : Z :=
  if 64 <=? n then 2 ^ 64 - 1 else wsub 64 (wshl 64 1 n) 1.

(** [while filled < width { value |= value << filled; filled *= 2 }].  The
    element size is at least 2, so five rounds reach 64 bits. *)
Fixpoint replicate_element (fuel : nat) (value filled width : Z) : Z :=
  match fuel with
  | O => value
  | S fuel =>
      if filled <? width
      then replicate_element fuel (Z.lor value (wshl 64 value filled)) (wmul 32 filled 2) width
      else value
  end.

Definition decode_bit_masks (n immr imms : Z) (width : RegWidth) : option Z :=
  let combined := Z.lor (wshl 32 n 6) (Z.land (wnot 32 imms) 63) in
  if combined =? 0 then None else
  let len := 31 - leading_zeros32 combined in
  if bool_decide (width = RegWidth.W32) && (len =? 6) then None else
  let esize := wshl 32 1 len in
  let level := as_u8 (esize - 1) in
  let s := Z.land imms level in
  if s =? level then None else
  let r := Z.land immr level in
  let ones := wsub 64 (wshl 64 1 (s + 1)) 1 in
  let element :=
    if r =? 0 then ones
    else Z.land (Z.lor (wshr 64 ones r) (wshl 64 ones (esize - r))) (mask_of esize) in
  let value := replicate_element 6 element esize (RegWidth.bits width) in
  Some (Z.land value (RegWidth.mask width)).

Definition logical_immediate (encoding : Z) : may_panic Instruction :=
  let width := RegWidth.from_sf (bits encoding 31 31 =? 1) in
  let n := bits encoding 22 22 in
  if bool_decide (width = RegWidth.W32) && (n =? 1) then mret (unallocated encoding) else
  match decode_bit_masks (as_u8 n) (as_u8 (bits encoding 21 16))
          (as_u8 (bits encoding 15 10)) width with
  | None => mret (unallocated encoding)
  | Some imm =>
      let opc := bits encoding 30 29 in
      let sets_flags := opc =? 3 in
      rd ← (if sets_flags then Gpr.from_index_zr (as_u8 (bits encoding 4 0))
            else Gpr.from_index_sp (as_u8 (bits encoding 4 0)));
      rn ← Gpr.from_index_zr (as_u8 (bits encoding 9 5));
      let form := Form.RegImm rd rn imm in
      let op :=
        match opc with
        | 0 | 3 => Op.And
        | 1 => Op.Orr
        | _ => Op.Eor
        end in
      let insn := Instruction.with_width (Instruction.new encoding op form) width in
      mret (if sets_flags then Instruction.setting_flags insn else insn)
  end.

Definition move_wide (encoding : Z) : may_panic Instruction :=
  let width := RegWidth.from_sf (bits encoding 31 31 =? 1) in
  let hw := as_u8 (bits encoding 22 21) in
  if bool_decide (width = RegWidth.W32) && negb (Z.land hw 2 =? 0)
  then mret (unallocated encoding) else
  let op :=
    match bits encoding 30 29 with
    | 0 => Some Op.Movn
    | 2 => Some Op.Movz
    | 3 => Some Op.Movk
    | _ => None
    end in
  match op with
  | None => mret (unallocated encoding)
  | Some op =>
      rd ← Gpr.from_index_zr (as_u8 (bits encoding 4 0));
      let form := Form.MoveWide rd (as_u16 (bits encoding 20 5)) hw in
      mret (Instruction.with_width (Instruction.new encoding op form) width)
  end.

Definition bitfield (encoding : Z) : may_panic Instruction :=
  let width := RegWidth.from_sf (bits encoding 31 31 =? 1) in
  if negb (bits encoding 22 22 =? bits encoding 31 31) then mret (unallocated encoding) else
  let immr := as_u8 (bits encoding 21 16) in
  let imms := as_u8 (bits encoding 15 10) in
  if bool_decide (width = RegWidth.W32) && negb (Z.land (Z.lor immr imms) 32 =? 0)
  then mret (unallocated encoding) else
  let op :=
    match bits encoding 30 29 with
    | 0 => Some Op.Sbfm
    | 1 => Some Op.Bfm
    | 2 => Some Op.Ubfm
    | _ => None
    end in
  match op with
  | None => mret (unallocated encoding)
  | Some op =>
      rn ← Gpr.from_index_zr (as_u8 (bits encoding 9 5));
      rd ← Gpr.from_index_zr (as_u8 (bits encoding 4 0));
      let form := Form.Bitfield rd rn rn immr imms in
      mret (Instruction.with_width (Instruction.new encoding op form) width)
  end.

Definition extract (encoding : Z) : may_panic Instruction :=
  let width := RegWidth.from_sf (bits encoding 31 31 =? 1) in
  if negb (bits encoding 30 29 =? 0) || negb (bits encoding 21 21 =? 0)
     || negb (bits encoding 22 22 =? bits encoding 31 31)
  then mret (unallocated encoding) else
  let imms := as_u8 (bits encoding 15 10) in
  if bool_decide (width = RegWidth.W32) && negb (Z.land imms 32 =? 0)
  then mret (unallocated encoding) else
  rd ← Gpr.from_index_zr (as_u8 (bits encoding 4 0));
  rn ← Gpr.from_index_zr (as_u8 (bits encoding 9 5));
  rm ← Gpr.from_index_zr (as_u8 (bits encoding 20 16));
  let form := Form.Bitfield rd rn rm 0 imms in
  mret (Instruction.with_width (Instruction.new encoding Op.Extr form) width).

Definition data_processing_immediate (encoding : Z) : may_panic Instruction :=
  match bits encoding 25 23 with
  | 0 | 1 => pc_relative encoding
  | 2 => add_sub_immediate encoding
  | 4 => logical_immediate encoding
  | 5 => move_wide encoding
  | 6 => bitfield encoding
  | 7 => extract encoding
  | _ => mret (unallocated encoding)
  end.

(** ** Bitmask immediates against the architecture's table

    The element size a pair [N:imms] selects, as the table of the reference
    manual lists it, and the bit a run of [imms + 1] ones rotated right by
    [immr] has at position [i]. *)

Definition element_size (n imms : Z) : option Z :=
  if n =? 1 then Some 64
  else if imms <? 32 then Some 32
  else if imms <? 48 then Some 16
  else if imms <? 56 then Some 8
  else if imms <? 60 then Some 4
  else if imms <? 62 then Some 2
  else None.

Definition rotated_run (esize immr imms i : Z) : bool :=
  (i + immr) mod esize <=? imms mod esize.

(** What [decode_bit_masks] has to return for these arguments. *)
Definition bit_masks_promise (n immr imms : Z) (w : RegWidth) (m : option Z) : Prop :=
  match element_size n imms with
  | None => m = None
  | Some esize =>
      if (RegWidth.bits w <? esize) || (imms mod esize =? esize - 1) then m = None
      else exists v, m = Some v /\ in_range (RegWidth.bits w) v /\
             forall i, 0 <= i < RegWidth.bits w ->
               Z.testbit v i = rotated_run esize immr imms i
  end.

(** The rotated run, one bit at a time. *)

Definition rotated_element (esize s r : Z) : Z :=
  let ones := wsub 64 (wshl 64 1 (s + 1)) 1 in
  if r =? 0 then ones
  else Z.land (Z.lor (wshr 64 ones r) (wshl 64 ones (esize - r))) (mask_of esize).

Lemma low_ones (n : Z) : 0 <= n < 64 -> wsub 64 (wshl 64 1 n) 1 = Z.ones n.
Proof.
  intros Hn. unfold wsub, wshl. rewrite (Z.mod_small n), Z.shiftl_1_l by lia.
  pose proof (pow2_pos n ltac:(lia)).
  assert (2 ^ n < 2 ^ 64) by (apply Z.pow_lt_mono_r; lia).
  rewrite (wrap_small 64 (2 ^ n)) by (split; lia).
  rewrite wrap_small by (split; lia). rewrite Z.ones_equiv. lia.
Qed.

Lemma mask_of_ones (n : Z) : 0 <= n <= 64 -> mask_of n = Z.ones n.
Proof.
  intros Hn. unfold mask_of. destruct (Z.leb_spec 64 n).
  - replace n with 64 by lia. reflexivity.
  - apply low_ones. lia.
Qed.

Lemma rotated_element_bit (esize s r i : Z) :
  2 <= esize <= 64 -> 0 <= s < esize - 1 -> 0 <= r < esize -> 0 <= i ->
  Z.testbit (rotated_element esize s r) i = (i <? esize) && ((i + r) mod esize <=? s).
Proof.
  intros He Hs Hr Hi. unfold rotated_element. rewrite low_ones by lia.
  destruct (Z.eqb_spec r 0) as [-> | Hr0].
  - rewrite Z.testbit_ones_nonneg by lia. rewrite Z.add_0_r.
    destruct (Z.ltb_spec i esize).
    + rewrite Z.mod_small by lia. cbn [andb]. lia.
    + cbn [andb]. lia.
  - rewrite mask_of_ones by lia. rewrite Z.land_spec, Z.lor_spec, Z.testbit_ones_nonneg by lia.
    unfold wshr, wshl. rewrite wrap_testbit, (Z.mod_small r), (Z.mod_small (esize - r)) by lia.
    rewrite Z.shiftr_spec, Z.shiftl_spec by lia.
    rewrite Z.testbit_ones_nonneg by lia.
    destruct (Z.ltb_spec i esize); [| apply andb_false_r]. rewrite andb_true_r. cbn [andb].
    destruct (Z.lt_ge_cases (i + r) esize) as [Hlt | Hge].
    + rewrite (Z.mod_small (i + r)) by lia.
      rewrite (Z.testbit_neg_r _ (i - (esize - r))) by lia. lia.
    + replace ((i + r) mod esize) with (i - (esize - r))
        by (apply (Z.mod_unique_pos _ _ 1); lia).
      rewrite Z.testbit_ones_nonneg by lia. lia.
Qed.

(** The doubling loop repeats the element over the whole width. *)
Lemma replicate_element_bit (f : Z -> bool) (esize e w : Z) (Hesize : esize = 2 ^ e)
    (He : 0 <= e) (Hw : w <= 6) (fuel : nat) (k value : Z) :
  e <= k <= w -> w <= k + Z.of_nat fuel ->
  (forall i, 0 <= i -> Z.testbit value i = (i <? 2 ^ k) && f (i mod esize)) ->
  forall i, 0 <= i < 2 ^ w ->
    Z.testbit (replicate_element fuel value (2 ^ k) (2 ^ w)) i = f (i mod esize).
Proof.
  revert k value. induction fuel as [| fuel IH]; intros k value Hk Hfuel Hval i Hi.
  - cbn. rewrite Hval by lia. replace k with w by lia.
    destruct (Z.ltb_spec i (2 ^ w)); [reflexivity | lia].
  - cbn [replicate_element]. destruct (Z.ltb_spec (2 ^ k) (2 ^ w)) as [Hlt | Hge].
    + apply Z.pow_lt_mono_r_iff in Hlt; [| lia..].
      assert (2 ^ k <= 2 ^ 5) by (apply Z.pow_le_mono_r; lia).
      pose proof (pow2_pos k ltac:(lia)).
      replace (wmul 32 (2 ^ k) 2) with (2 ^ (k + 1)).
      2: { unfold wmul. rewrite wrap_small by (split; lia). rewrite Z.pow_add_r by lia. reflexivity. }
      apply IH; [lia | lia | | exact Hi].
      intros j Hj. rewrite Z.lor_spec. unfold wshl.
      rewrite wrap_testbit, (Z.mod_small (2 ^ k)), Z.shiftl_spec by lia.
      rewrite Z.pow_add_r, Z.pow_1_r by lia.
      assert ((2 ^ k) mod esize = 0) as Hmod.
      { subst esize. replace k with ((k - e) + e) by lia.
        rewrite Z.pow_add_r by lia. apply Z.mod_mul. pose proof (pow2_pos e He). lia. }
      destruct (Z.lt_ge_cases j (2 ^ k)) as [Hjk | Hjk].
      * rewrite (Z.testbit_neg_r value (j - 2 ^ k)), Hval by lia.
        rewrite andb_false_r, orb_false_r.
        destruct (Z.ltb_spec j (2 ^ k)); [| lia].
        destruct (Z.ltb_spec j (2 ^ k * 2)); [reflexivity | lia].
      * rewrite (Hval j), (Hval (j - 2 ^ k)) by lia.
        replace ((j - 2 ^ k) mod esize) with (j mod esize).
        2: { rewrite Zminus_mod, Hmod, Z.sub_0_r, Zmod_mod. reflexivity. }
        destruct (Z.ltb_spec j (2 ^ k)); [lia |]. cbn [andb orb].
        destruct (Z.ltb_spec (j - 2 ^ k) (2 ^ k)), (Z.ltb_spec j (2 ^ k * 2)); try lia;
          cbn [andb].
        destruct (Z.ltb_spec j 64); [reflexivity | lia].
    + rewrite Hval by lia. destruct (Z.ltb_spec i (2 ^ k)); [reflexivity | lia].
Qed.

(** The element size the code computes is the one of the table. *)
Definition element_size_check (n imms : Z) : bool :=
  let combined := Z.lor (wshl 32 n 6) (Z.land (wnot 32 imms) 63) in
  let len := 31 - leading_zeros32 combined in
  match element_size n imms with
  | None => (combined =? 0) || ((len =? 0) && negb (combined =? 0))
  | Some esize =>
      negb (combined =? 0) && (1 <=? len) && (len <=? 6) && (esize =? 2 ^ len) &&
      (wshl 32 1 len =? esize) && (as_u8 (esize - 1) =? Z.ones len)
  end.

Lemma element_size_checked (n imms : Z) :
  0 <= n < 2 -> 0 <= imms < 64 -> element_size_check n imms = true.
Proof.
  intros Hn Hs. assert (forall_below 2 (fun n => forall_below 64 (element_size_check n)) = true)
    as H by reflexivity.
  apply (fun H => forall_below_spec _ _ H n Hn) in H. exact (forall_below_spec _ _ H imms Hs).
Qed.

Lemma decode_bit_masks_promise (n immr imms : Z) (w : RegWidth) :
  0 <= n < 2 -> 0 <= immr < 64 -> 0 <= imms < 64 ->
  bit_masks_promise n immr imms w (decode_bit_masks n immr imms w).
Proof.
  intros Hn Hr Hs. pose proof (element_size_checked n imms Hn Hs) as H.
  unfold element_size_check in H. unfold bit_masks_promise, decode_bit_masks.
  set (combined := Z.lor _ _) in *. set (len := 31 - leading_zeros32 combined) in *.
  clearbody combined. clearbody len.
  destruct (element_size n imms) as [esize |].
  2: { destruct (combined =? 0); [reflexivity |]. cbn in H. rewrite andb_true_r in H.
       apply Z.eqb_eq in H as ->. rewrite andb_false_r.
       change (as_u8 (wshl 32 1 0 - 1)) with 0. rewrite Z.land_0_r. reflexivity. }
  rewrite !andb_true_iff in H. destruct H as [[[[[H0 Hlo] Hhi] Hpow] Hshl] Hlevel].
  apply negb_true_iff in H0. rewrite H0.
  apply Z.leb_le in Hlo, Hhi. apply Z.eqb_eq in Hpow, Hshl, Hlevel.
  rewrite Hshl, Hlevel, !Z.land_ones, <- Hpow by lia.
  replace (Z.ones len) with (esize - 1) by (rewrite Z.ones_equiv, Hpow; lia).
  assert (2 <= esize <= 64).
  { rewrite Hpow. split; [apply (Z.pow_le_mono_r 2 1) | apply (Z.pow_le_mono_r 2 len 6)]; lia. }
  assert (bool_decide (w = RegWidth.W32) && (len =? 6) = (RegWidth.bits w <? esize)) as ->.
  { destruct w; cbn [RegWidth.bits]; [rewrite bool_decide_true by reflexivity |
      rewrite bool_decide_false by discriminate]; cbn [andb].
    - destruct (Z.eqb_spec len 6) as [-> |]; [subst esize; reflexivity |].
      symmetry. apply Z.ltb_ge. rewrite Hpow. apply (Z.pow_le_mono_r 2 len 5); lia.
    - symmetry. apply Z.ltb_ge. lia. }
  destruct (Z.ltb_spec (RegWidth.bits w) esize) as [| Hwe]; [reflexivity |]. cbn [orb].
  pose proof (Z.mod_pos_bound imms esize ltac:(lia)).
  pose proof (Z.mod_pos_bound immr esize ltac:(lia)).
  destruct (Z.eqb_spec (imms mod esize) (esize - 1)) as [| Hne]; [reflexivity |].
  fold (rotated_element esize (imms mod esize) (immr mod esize)).
  eexists. split; [reflexivity |]. rewrite land_mask.
  split; [apply wrap_range; destruct w; cbn; lia |].
  intros i Hi. rewrite wrap_testbit by lia.
  destruct (Z.ltb_spec i (RegWidth.bits w)); [| lia]. cbn [andb].
  assert (exists k, RegWidth.bits w = 2 ^ k /\ len <= k <= 6) as (k & Hk & Hlk).
  { destruct w; [exists 5 | exists 6]; (split; [reflexivity |]); [| lia].
    split; [| lia]. apply (Z.pow_le_mono_r_iff 2); [lia | lia |]. rewrite <- Hpow.
    cbn in Hwe. exact Hwe. }
  pose proof (replicate_element_bit
    (fun j => (j + immr mod esize) mod esize <=? imms mod esize) esize len k Hpow
    ltac:(lia) ltac:(lia) 6 len (rotated_element esize (imms mod esize) (immr mod esize))) as L.
  rewrite <- Hpow, <- Hk in L. rewrite L; [| lia | lia | | lia].
  - unfold rotated_run. rewrite Z.add_mod_idemp_r, Z.add_mod_idemp_l by lia. reflexivity.
  - intros j Hj. rewrite rotated_element_bit by lia.
    destruct (j <? esize) eqn:E; [| reflexivity]. cbn [andb].
    rewrite Z.add_mod_idemp_l by lia. reflexivity.
Qed.

Lemma decode_bit_masks_range (n immr imms v : Z) (w : RegWidth) :
  0 <= n < 2 -> 0 <= immr < 64 -> 0 <= imms < 64 ->
  decode_bit_masks n immr imms w = Some v -> in_range (RegWidth.bits w) v.
Proof.
  intros Hn Hr Hs Hv. pose proof (decode_bit_masks_promise n immr imms w Hn Hr Hs) as H.
  unfold bit_masks_promise in H. rewrite Hv in H.
  destruct (element_size n imms); [destruct (_ || _) |];
    [discriminate | destruct H as (v' & [= <-] & Hrange & _); exact Hrange | discriminate].
Qed.

#[global] Opaque decode_bit_masks.

(** ** Every decoder of the group returns a well-formed instruction *)

Lemma pc_relative_ok (e : Z) : returns (pc_relative e) (decoded_ok e).
Proof. decode_solve pc_relative; rewrite imul64_small; destruct (_ =? _); lia. Qed.

Lemma add_sub_immediate_ok (e : Z) : returns (add_sub_immediate e) (decoded_ok e).
Proof.
  decode_solve add_sub_immediate; rewrite wshl_small by (try split; lia);
    destruct (Z.land _ 1 =? 0); apply small_below_mask; lia.
Qed.

Lemma logical_immediate_ok (e : Z) : returns (logical_immediate e) (decoded_ok e).
Proof.
  decode_solve logical_immediate; rewrite !as_u8_bits in * by lia;
    apply (proj1 (in_range_mask _ _)); (eapply decode_bit_masks_range; [| | | eassumption]); lia.
Qed.

Lemma move_wide_ok (e : Z) : returns (move_wide e) (decoded_ok e).
Proof.
  decode_solve move_wide; rewrite as_u8_bits in * by lia;
    (destruct (RegWidth.from_sf _); cbn in *;
      [apply negb_false_iff in Heqb | lia]);
    assert (bits e 22 21 = 0 \/ bits e 22 21 = 1 \/ bits e 22 21 = 2 \/ bits e 22 21 = 3)
      as [E | [E | [E | E]]] by lia; rewrite E in *; cbn in *; try discriminate; lia.
Qed.

Lemma bitfield_ok (e : Z) : returns (bitfield e) (decoded_ok e).
Proof.
  decode_solve bitfield; rewrite !as_u8_bits in * by lia; apply guard_lor in Heqb0 as [? ?];
    apply guard_below_width; assumption.
Qed.

Lemma extract_ok (e : Z) : returns (extract e) (decoded_ok e).
Proof.
  decode_solve extract.
  - auto with coracle.
  - rewrite as_u8_bits in * by lia. apply guard_below_width; assumption.
Qed.

#[export] Hint Resolve pc_relative_ok add_sub_immediate_ok logical_immediate_ok move_wide_ok
  bitfield_ok extract_ok : coracle.

Lemma data_processing_immediate_ok (e : Z) :
  returns (data_processing_immediate e) (decoded_ok e).
Proof. decode_open data_processing_immediate. Qed.

#[export] Hint Resolve data_processing_immediate_ok : coracle.
