(* ===== verification/DpRegister.v ===== *)
(** Data processing, register ([crates/core/src/decode/group/dp_register.rs]). *)

From stdpp Require Import base numbers list option.
From S2P Require Import Prelude Reg Operand Op Instruction Group.

#[local] Open Scope Z_scope.

Definition shift_kind (field : Z) : ShiftKind :=
  match Z.land field 3 with
  | 0 => ShiftKind.Lsl
  | 1 => ShiftKind.Lsr
  | 2 => ShiftKind.Asr
  | _ => ShiftKind.Ror
  end.

(** Shared tail of the two add/sub register forms. *)
Definition finish_arithmetic (encoding : Z) (form : Form) (width : RegWidth) : Instruction :=
  let op := if bits encoding 30 30 =? 1 then Op.Sub else Op.Add in
  let insn := Instruction.with_width (Instruction.new encoding op form) width in
  if bits encoding 29 29 =? 1 then Instruction.setting_flags insn else insn.

Definition logical_shifted (encoding : Z) : may_panic Instruction :=
  let width := RegWidth.from_sf (bits encoding 31 31 =? 1) in
  let amount := as_u8 (bits encoding 15 10) in
  if bool_decide (width = RegWidth.W32) && negb (Z.land amount 32 =? 0)
  then mret (unallocated encoding) else
  let opc := bits encoding 30 29 in
  let is_negated := bits encoding 21 21 =? 1 in
  let op :=
    match opc, is_negated with
    | 0, false | 3, false => Op.And
    | 0, true | 3, true => Op.Bic
    | 1, false => Op.Orr
    | 1, true => Op.Orn
    | 2, false => Op.Eor
    | _, _ => Op.Eon
    end in
  rd ← Gpr.from_index_zr (as_u8 (bits encoding 4 0));
  rn ← Gpr.from_index_zr (as_u8 (bits encoding 9 5));
  rm ← Gpr.from_index_zr (as_u8 (bits encoding 20 16));
  let form :=
    Form.RegShifted rd rn (ShiftedReg.mk rm (shift_kind (bits encoding 23 22)) amount) in
  let insn := Instruction.with_width (Instruction.new encoding op form) width in
  mret (if opc =? 3 then Instruction.setting_flags insn else insn).

Definition add_sub_shifted (encoding : Z) : may_panic Instruction :=
  let width := RegWidth.from_sf (bits encoding 31 31 =? 1) in
  let shift := bits encoding 23 22 in
  let amount := as_u8 (bits encoding 15 10) in
  if (shift =? 3) || (bool_decide (width = RegWidth.W32) && negb (Z.land amount 32 =? 0))
  then mret (unallocated encoding) else
  rd ← Gpr.from_index_zr (as_u8 (bits encoding 4 0));
  rn ← Gpr.from_index_zr (as_u8 (bits encoding 9 5));
  rm ← Gpr.from_index_zr (as_u8 (bits encoding 20 16));
  let form := Form.RegShifted rd rn (ShiftedReg.mk rm (shift_kind shift) amount) in
  mret (finish_arithmetic encoding form width).

Definition add_sub_extended (encoding : Z) : may_panic Instruction :=
  let width := RegWidth.from_sf (bits encoding 31 31 =? 1) in
  let amount := as_u8 (bits encoding 12 10) in
  if negb (bits encoding 23 22 =? 0) || (4 <? amount) then mret (unallocated encoding) else
  let sets_flags := bits encoding 29 29 =? 1 in
  rd ← (if sets_flags then Gpr.from_index_zr (as_u8 (bits encoding 4 0))
        else Gpr.from_index_sp (as_u8 (bits encoding 4 0)));
  rn ← Gpr.from_index_sp (as_u8 (bits encoding 9 5));
  rm ← Gpr.from_index_zr (as_u8 (bits encoding 20 16));
  let form :=
    Form.RegExtended rd rn
      (ExtendedReg.mk rm (ExtendKind.from_option (as_u8 (bits encoding 15 13))) amount) in
  mret (finish_arithmetic encoding form width).

Definition add_sub_with_carry (encoding : Z) : may_panic Instruction :=
  if negb (bits encoding 15 10 =? 0) then mret (unallocated encoding) else
  let width := RegWidth.from_sf (bits encoding 31 31 =? 1) in
  rd ← Gpr.from_index_zr (as_u8 (bits encoding 4 0));
  rn ← Gpr.from_index_zr (as_u8 (bits encoding 9 5));
  rm ← Gpr.from_index_zr (as_u8 (bits encoding 20 16));
  let form := Form.RegShifted rd rn (ShiftedReg.mk rm ShiftKind.Lsl 0) in
  let op := if bits encoding 30 30 =? 1 then Op.Sbc else Op.Adc in
  let insn := Instruction.with_width (Instruction.new encoding op form) width in
  mret (if bits encoding 29 29 =? 1 then Instruction.setting_flags insn else insn).

Definition conditional_compare (encoding : Z) : may_panic Instruction :=
  if negb (bits encoding 29 29 =? 1) || negb (bits encoding 10 10 =? 0)
     || negb (bits encoding 4 4 =? 0)
  then mret (unallocated encoding) else
  let width := RegWidth.from_sf (bits encoding 31 31 =? 1) in
  let cond := Cond.from_bits (as_u8 (bits encoding 15 12)) in
  let nzcv := as_u8 (bits encoding 3 0) in
  rn ← Gpr.from_index_zr (as_u8 (bits encoding 9 5));
  let is_immediate := bits encoding 11 11 =? 1 in
  form ← (if is_immediate
          then mret (Form.CondCompare rn (bits encoding 20 16) nzcv cond)
          else rm ← Gpr.from_index_zr (as_u8 (bits encoding 20 16));
               mret (Form.CondSelect Gpr.ZR rn rm cond));
  let op := if bits encoding 30 30 =? 1 then Op.Ccmp else Op.Ccmn in
  mret (Instruction.setting_flags
          (Instruction.with_width (Instruction.new encoding op form) width)).

Definition conditional_select (encoding : Z) : may_panic Instruction :=
  if negb (bits encoding 29 29 =? 0) then mret (unallocated encoding) else
  let op :=
    match bits encoding 30 30, bits encoding 11 10 with
    | 0, 0 => Some Op.Csel
    | 0, 1 => Some Op.Csinc
    | 1, 0 => Some Op.Csinv
    | 1, 1 => Some Op.Csneg
    | _, _ => None
    end in
  match op with
  | None => mret (unallocated encoding)
  | Some op =>
      rd ← Gpr.from_index_zr (as_u8 (bits encoding 4 0));
      rn ← Gpr.from_index_zr (as_u8 (bits encoding 9 5));
      rm ← Gpr.from_index_zr (as_u8 (bits encoding 20 16));
      let form := Form.CondSelect rd rn rm (Cond.from_bits (as_u8 (bits encoding 15 12))) in
      mret (Instruction.with_width (Instruction.new encoding op form)
              (RegWidth.from_sf (bits encoding 31 31 =? 1)))
  end.

Definition two_source (encoding : Z) : may_panic Instruction :=
  let width := RegWidth.from_sf (bits encoding 31 31 =? 1) in
  let op :=
    match bits encoding 15 10 with
    | 2 => Some Op.Udiv
    | 3 => Some Op.Sdiv
    | 8 => Some Op.Lslv
    | 9 => Some Op.Lsrv
    | 10 => Some Op.Asrv
    | 11 => Some Op.Rorv
    | _ => None
    end in
  match op with
  | None => mret (unallocated encoding)
  | Some op =>
      rd ← Gpr.from_index_zr (as_u8 (bits encoding 4 0));
      rn ← Gpr.from_index_zr (as_u8 (bits encoding 9 5));
      rm ← Gpr.from_index_zr (as_u8 (bits encoding 20 16));
      let form := Form.RegShifted rd rn (ShiftedReg.mk rm ShiftKind.Lsl 0) in
      mret (Instruction.with_width (Instruction.new encoding op form) width)
  end.

Definition one_source (encoding : Z) : may_panic Instruction :=
  let width := RegWidth.from_sf (bits encoding 31 31 =? 1) in
  if negb (bits encoding 20 16 =? 0) then mret (unallocated encoding) else
  let op :=
    match bits encoding 15 10, width with
    | 0, _ => Some Op.Rbit
    | 1, _ => Some Op.Rev16
    | 2, RegWidth.X64 => Some Op.Rev32
    | 2, _ => Some Op.Rev
    | 3, RegWidth.X64 => Some Op.Rev
    | 4, _ => Some Op.Clz
    | 5, _ => Some Op.Cls
    | _, _ => None
    end in
  match op with
  | None => mret (unallocated encoding)
  | Some op =>
      rn ← Gpr.from_index_zr (as_u8 (bits encoding 9 5));
      rd ← Gpr.from_index_zr (as_u8 (bits encoding 4 0));
      let form := Form.RegShifted rd rn (ShiftedReg.mk rn ShiftKind.Lsl 0) in
      mret (Instruction.with_width (Instruction.new encoding op form) width)
  end.

Definition two_source_or_one_source (encoding : Z) : may_panic Instruction :=
  if negb (bits encoding 29 29 =? 0) then mret (unallocated encoding) else
  if bits encoding 30 30 =? 1 then one_source encoding else two_source encoding.

Definition three_source (encoding : Z) : may_panic Instruction :=
  let width := RegWidth.from_sf (bits encoding 31 31 =? 1) in
  if negb (bits encoding 30 29 =? 0) then mret (unallocated encoding) else
  let op31 := bits encoding 23 21 in
  let o0 := bits encoding 15 15 in
  let op :=
    match width, op31, o0 with
    | _, 0, 0 => Some Op.Madd
    | _, 0, _ => Some Op.Msub
    | RegWidth.X64, 1, 0 => Some Op.Smaddl
    | RegWidth.X64, 1, _ => Some Op.Smsubl
    | RegWidth.X64, 2, 0 => Some Op.Smulh
    | RegWidth.X64, 5, 0 => Some Op.Umaddl
    | RegWidth.X64, 5, _ => Some Op.Umsubl
    | RegWidth.X64, 6, 0 => Some Op.Umulh
    | _, _, _ => None
    end in
  match op with
  | None => mret (unallocated encoding)
  | Some op =>
      rd ← Gpr.from_index_zr (as_u8 (bits encoding 4 0));
      rn ← Gpr.from_index_zr (as_u8 (bits encoding 9 5));
      rm ← Gpr.from_index_zr (as_u8 (bits encoding 20 16));
      ra ← Gpr.from_index_zr (as_u8 (bits encoding 14 10));
      let form := Form.ThreeSource rd rn rm ra in
      mret (Instruction.with_width (Instruction.new encoding op form) width)
  end.

Definition data_processing_register (encoding : Z) : may_panic Instruction :=
  let op1 := bits encoding 28 28 in
  let op2 := bits encoding 24 21 in
  match op1, op2 with
  | 0, (0 | 1 | 2 | 3 | 4 | 5 | 6 | 7) => logical_shifted encoding
  | 0, (8 | 10 | 12 | 14) => add_sub_shifted encoding
  | 0, (9 | 11 | 13 | 15) => add_sub_extended encoding
  | 1, 0 => add_sub_with_carry encoding
  | 1, 2 => conditional_compare encoding
  | 1, 4 => conditional_select encoding
  | 1, 6 => two_source_or_one_source encoding
  | 1, (8 | 9 | 10 | 11 | 12 | 13 | 14 | 15) => three_source encoding
  | _, _ => mret (unallocated encoding)
  end.

(** ** Every decoder of the group returns a well-formed instruction *)

Lemma finish_arithmetic_ok (e : Z) (form : Form) (w : RegWidth) :
  form_ok w form ->
  (form_layout form = LRegShifted \/ form_layout form = LRegExtended) ->
  decoded_ok e (finish_arithmetic e form w).
Proof.
  intros Hform Hlayout. unfold finish_arithmetic.
  split; destruct (bits e 29 29 =? 1); cbn; try reflexivity; try exact Hform;
    destruct (bits e 30 30 =? 1); destruct Hlayout as [-> | ->]; reflexivity.
Qed.

Lemma logical_shifted_ok (e : Z) : returns (logical_shifted e) (decoded_ok e).
Proof.
  decode_solve logical_shifted. all: rewrite as_u8_bits in * by lia.
  all: apply guard_below_width; assumption.
Qed.

Lemma add_sub_shifted_ok (e : Z) : returns (add_sub_shifted e) (decoded_ok e).
Proof.
  decode_open add_sub_shifted. apply orb_false_elim in Heqb as [_ ?].
  apply finish_arithmetic_ok; [| left; reflexivity]. field_facts.
  rewrite as_u8_bits in * by lia.
  form_split; try assumption. apply guard_below_width; assumption.
Qed.

Lemma add_sub_extended_ok (e : Z) : returns (add_sub_extended e) (decoded_ok e).
Proof.
  decode_open add_sub_extended; apply finish_arithmetic_ok; try (right; reflexivity);
    field_facts; rewrite !as_u8_bits in * by lia; bool_facts; form_split; try assumption; lia.
Qed.

Lemma add_sub_with_carry_ok (e : Z) : returns (add_sub_with_carry e) (decoded_ok e).
Proof. decode_solve add_sub_with_carry; auto with coracle. Qed.

Lemma conditional_compare_ok (e : Z) : returns (conditional_compare e) (decoded_ok e).
Proof. decode_solve conditional_compare. Qed.

Lemma conditional_select_ok (e : Z) : returns (conditional_select e) (decoded_ok e).
Proof. decode_solve conditional_select. Qed.

Lemma two_source_ok (e : Z) : returns (two_source e) (decoded_ok e).
Proof. decode_solve two_source; auto with coracle. Qed.

Lemma one_source_ok (e : Z) : returns (one_source e) (decoded_ok e).
Proof. decode_solve one_source; auto with coracle. Qed.

Lemma three_source_ok (e : Z) : returns (three_source e) (decoded_ok e).
Proof. decode_solve three_source. Qed.

#[export] Hint Resolve logical_shifted_ok add_sub_shifted_ok add_sub_extended_ok
  add_sub_with_carry_ok conditional_compare_ok conditional_select_ok two_source_ok
  one_source_ok three_source_ok : coracle.

Lemma two_source_or_one_source_ok (e : Z) :
  returns (two_source_or_one_source e) (decoded_ok e).
Proof. decode_open two_source_or_one_source. Qed.

#[export] Hint Resolve two_source_or_one_source_ok : coracle.

Lemma data_processing_register_ok (e : Z) :
  returns (data_processing_register e) (decoded_ok e).
Proof. decode_open data_processing_register. Qed.

#[export] Hint Resolve data_processing_register_ok : coracle.
