(* ===== verification/BranchSystem.v ===== *)
(** Branches, exception generation and system instructions
    ([crates/core/src/decode/group/branch_system.rs]). *)

From stdpp Require Import base numbers list option.
From S2P Require Import Prelude Reg Operand Op Instruction Group.

#[local] Open Scope Z_scope.

(** [op0:op1:CRn:CRm:op2], most significant first. *)
Definition pack_sysreg (op0 op1 crn crm op2 : Z) : Z :=
  as_u16
    (Z.lor (Z.lor (Z.lor (Z.lor
      (wshl 32 (Z.land op0 3) 14)
      (wshl 32 (Z.land op1 7) 11))
      (wshl 32 (Z.land crn 15) 7))
      (wshl 32 (Z.land crm 15) 3))
      (Z.land op2 7)).

Definition branch_immediate (encoding : Z) : may_panic Instruction :=
  let op := if bits encoding 31 31 =? 1 then Op.Bl else Op.B in
  let offset := imul64 (sign_extend (bits encoding 25 0) 26) 4 in
  mret (Instruction.new encoding op (Form.Branch offset)).

Definition conditional_branch (encoding : Z) : may_panic Instruction :=
  if negb (bits encoding 24 24 =? 0) || negb (bits encoding 4 4 =? 0)
  then mret (unallocated encoding) else
  let offset := imul64 (sign_extend (bits encoding 23 5) 19) 4 in
  let cond := Cond.from_bits (as_u8 (bits encoding 3 0)) in
  mret (Instruction.new encoding Op.B (Form.BranchCond offset cond)).

Definition compare_and_branch (encoding : Z) : may_panic Instruction :=
  let op := if bits encoding 24 24 =? 1 then Op.Cbnz else Op.Cbz in
  rt ← Gpr.from_index_zr (as_u8 (bits encoding 4 0));
  let form := Form.BranchReg rt (imul64 (sign_extend (bits encoding 23 5) 19) 4) 0 in
  mret (Instruction.with_width (Instruction.new encoding op form)
          (RegWidth.from_sf (bits encoding 31 31 =? 1))).

Definition test_and_branch (encoding : Z) : may_panic Instruction :=
  let op := if bits encoding 24 24 =? 1 then Op.Tbnz else Op.Tbz in
  let bit := as_u8 (Z.lor (wshl 32 (bits encoding 31 31) 5) (bits encoding 23 19)) in
  rt ← Gpr.from_index_zr (as_u8 (bits encoding 4 0));
  let form := Form.BranchReg rt (imul64 (sign_extend (bits encoding 18 5) 14) 4) bit in
  mret (Instruction.with_width (Instruction.new encoding op form)
          (RegWidth.from_sf (bits encoding 31 31 =? 1))).

Definition branch_register (encoding : Z) : may_panic Instruction :=
  if negb (bits encoding 20 16 =? 31) then mret (unallocated encoding) else
  let opc := bits encoding 24 21 in
  let op3 := bits encoding 15 10 in
  let rn := as_u8 (bits encoding 9 5) in
  let rm := bits encoding 4 0 in
  if negb (op3 =? 0) then mret (unallocated encoding) else
  if (0 <=? opc) && (opc <=? 2) && negb (rm =? 0) then mret (unallocated encoding)
  else if opc =? 0 then
    rn ← Gpr.from_index_zr rn;
    mret (Instruction.new encoding Op.Br (Form.BranchIndirect rn))
  else if opc =? 1 then
    rn ← Gpr.from_index_zr rn;
    mret (Instruction.new encoding Op.Blr (Form.BranchIndirect rn))
  else if opc =? 2 then
    rn ← Gpr.from_index_zr rn;
    mret (Instruction.new encoding Op.Ret (Form.BranchIndirect rn))
  else if (opc =? 4) && ((rn =? 31) && (rm =? 0)) then
    mret (Instruction.new encoding Op.Eret Form.None)
  else mret (unallocated encoding).

Definition exception (encoding : Z) : may_panic Instruction :=
  let imm := bits encoding 20 5 in
  let opc := bits encoding 23 21 in
  let op2 := bits encoding 4 2 in
  let ll := bits encoding 1 0 in
  if negb (op2 =? 0) then mret (unallocated encoding) else
  let op :=
    match opc, ll with
    | 0, 1 => Some Op.Svc
    | 0, 2 => Some Op.Hvc
    | 0, 3 => Some Op.Smc
    | 1, 0 => Some Op.Brk
    | 2, 0 => Some Op.Hlt
    | _, _ => None
    end in
  match op with
  | None => mret (unallocated encoding)
  | Some op => mret (Instruction.new encoding op (Form.Imm imm))
  end.

Definition hint (encoding crm op2 : Z) : may_panic Instruction :=
  let op :=
    match crm, op2 with
    | 0, 0 => Op.Nop
    | 0, 1 => Op.Yield
    | 0, 2 => Op.Wfe
    | 0, 3 => Op.Wfi
    | 0, (4 | 5) => Op.Sev
    | _, _ => Op.Nop
    end in
  mret (Instruction.new encoding op Form.None).

Definition barrier (encoding crm op2 : Z) : may_panic Instruction :=
  let op :=
    match op2 with
    | 2 => Some Op.Clrex
    | 4 => Some Op.Dsb
    | 5 => Some Op.Dmb
    | 6 => Some Op.Isb
    | _ => None
    end in
  match op with
  | None => mret (unallocated encoding)
  | Some op => mret (Instruction.new encoding op (Form.Imm crm))
  end.

Definition system (encoding : Z) : may_panic Instruction :=
  let l := bits encoding 21 21 in
  let op0 := bits encoding 20 19 in
  let op1 := bits encoding 18 16 in
  let crn := bits encoding 15 12 in
  let crm := bits encoding 11 8 in
  let op2 := bits encoding 7 5 in
  let rt := as_u8 (bits encoding 4 0) in
  if (op0 =? 0) && (l =? 0) && (rt =? 31) then
    match op1, crn with
    | 3, 2 => hint encoding crm op2
    | 3, 3 => barrier encoding crm op2
    | _, 4 =>
        mret (Instruction.new encoding Op.Msr
                (Form.System Gpr.ZR (pack_sysreg 0 op1 crn crm op2)))
    | _, _ => mret (unallocated encoding)
    end
  else if op0 =? 1 then mret (unallocated encoding)
  else if (op0 =? 2) || (op0 =? 3) then
    let op := if l =? 1 then Op.Mrs else Op.Msr in
    rt ← Gpr.from_index_zr rt;
    mret (Instruction.new encoding op (Form.System rt (pack_sysreg op0 op1 crn crm op2)))
  else mret (unallocated encoding).

Definition branches_exceptions_system (encoding : Z) : may_panic Instruction :=
  let op0 := bits encoding 31 29 in
  let op1 := bits encoding 25 22 in
  if (op0 =? 2) && ((0 <=? op1) && (op1 <=? 7)) then conditional_branch encoding
  else if (op0 =? 6) && ((0 <=? op1) && (op1 <=? 3)) then exception encoding
  else if (op0 =? 6) && (op1 =? 4) then system encoding
  else if (op0 =? 6) && ((8 <=? op1) && (op1 <=? 15)) then branch_register encoding
  else if (op0 =? 0) || (op0 =? 4) then branch_immediate encoding
  else if ((op0 =? 1) || (op0 =? 5)) && ((0 <=? op1) && (op1 <=? 7))
  then compare_and_branch encoding
  else if (op0 =? 1) || (op0 =? 5) then test_and_branch encoding
  else mret (unallocated encoding).

(** ** Every decoder of the group returns a well-formed instruction *)

(** A sign-extended word offset, scaled to bytes. *)
Lemma branch_offset_ok (v n : Z) :
  0 < n <= 60 ->
  - 2 ^ (n + 1) <= imul64 (sign_extend v n) 4 < 2 ^ (n + 1) /\
  imul64 (sign_extend v n) 4 mod 4 = 0.
Proof.
  intros Hn. pose proof (sign_extend_range v n ltac:(lia)).
  assert (2 ^ (n + 1) = 4 * 2 ^ (n - 1)) as ->
    by (replace (n + 1) with ((n - 1) + 2) by lia; rewrite Z.pow_add_r by lia; lia).
  assert (2 ^ (n - 1) <= 2 ^ 59) by (apply Z.pow_le_mono_r; lia).
  rewrite imul64_small by lia. split; [lia | apply Z.mod_mul; lia].
Qed.

Lemma branch_offset_weaken (v n m : Z) :
  0 < n <= 60 -> n + 1 <= m ->
  - 2 ^ m <= imul64 (sign_extend v n) 4 < 2 ^ m.
Proof.
  intros Hn Hm. pose proof (branch_offset_ok v n Hn) as [? _].
  pose proof (Z.pow_le_mono_r 2 (n + 1) m ltac:(lia) Hm). lia.
Qed.

Lemma pack_sysreg_range (op0 op1 crn crm op2 : Z) :
  in_range 16 (pack_sysreg op0 op1 crn crm op2).
Proof. apply wrap_range. lia. Qed.

#[export] Hint Resolve pack_sysreg_range : coracle.

Ltac branch_offset :=
  first [ apply branch_offset_weaken; lia | apply branch_offset_ok; lia ].

Lemma branch_immediate_ok (e : Z) : returns (branch_immediate e) (decoded_ok e).
Proof. decode_solve branch_immediate; branch_offset. Qed.

Lemma conditional_branch_ok (e : Z) : returns (conditional_branch e) (decoded_ok e).
Proof. decode_solve conditional_branch; branch_offset. Qed.

Lemma compare_and_branch_ok (e : Z) : returns (compare_and_branch e) (decoded_ok e).
Proof. decode_solve compare_and_branch; first [branch_offset | auto with coracle]. Qed.

(** [b5:b40] is below the width [b5] selects. *)
Lemma tested_bit_below_width (b5 b40 : Z) :
  0 <= b5 < 2 -> 0 <= b40 < 32 ->
  0 <= as_u8 (Z.lor (wshl 32 b5 5) b40) < RegWidth.bits (RegWidth.from_sf (b5 =? 1)).
Proof.
  intros H5 H40.
  assert (forall_below 2 (fun b5 => forall_below 32 (fun b40 =>
    let b := as_u8 (Z.lor (wshl 32 b5 5) b40) in
    (0 <=? b) && (b <? RegWidth.bits (RegWidth.from_sf (b5 =? 1))))) = true) as C by reflexivity.
  apply (fun C => forall_below_spec _ _ C b5 H5) in C.
  apply (fun C => forall_below_spec _ _ C b40 H40) in C. cbv beta zeta in C. lia.
Qed.

Lemma test_and_branch_ok (e : Z) : returns (test_and_branch e) (decoded_ok e).
Proof.
  decode_solve test_and_branch;
    first [branch_offset | apply tested_bit_below_width; assumption].
Qed.

Lemma branch_register_ok (e : Z) : returns (branch_register e) (decoded_ok e).
Proof. decode_solve branch_register. Qed.

Lemma exception_ok (e : Z) : returns (exception e) (decoded_ok e).
Proof. decode_solve exception. Qed.

Lemma hint_ok (e crm op2 : Z) : returns (hint e crm op2) (decoded_ok e).
Proof. decode_solve hint. Qed.

Lemma barrier_ok (e crm op2 : Z) : 0 <= crm < 16 -> returns (barrier e crm op2) (decoded_ok e).
Proof. intros. decode_solve barrier. Qed.

#[export] Hint Resolve branch_immediate_ok conditional_branch_ok compare_and_branch_ok
  test_and_branch_ok branch_register_ok exception_ok hint_ok barrier_ok : coracle.

Lemma system_ok (e : Z) : returns (system e) (decoded_ok e).
Proof.
  decode_open system.
  all: try (apply barrier_ok, (bits_range e 11 8); lia).
  all: decoded_split; form_split; auto with coracle; exact I.
Qed.

#[export] Hint Resolve system_ok : coracle.

Lemma branches_exceptions_system_ok (e : Z) :
  returns (branches_exceptions_system e) (decoded_ok e).
Proof. decode_open branches_exceptions_system. Qed.

#[export] Hint Resolve branches_exceptions_system_ok : coracle.
