(* ===== verification/LoadsStores.v ===== *)
(** General-purpose loads and stores ([crates/core/src/decode/group/loads_stores.rs]). *)

From stdpp Require Import base numbers list option.
From S2P Require Import Prelude Reg Operand Op Instruction Group BranchSystem.

#[local] Open Scope Z_scope.

Module loads_stores.

Definition transferred (encoding : Z) : may_panic Gpr :=
  Gpr.from_index_zr (as_u8 (bits encoding 4 0)).

Definition base (encoding : Z) : may_panic Gpr :=
  Gpr.from_index_sp (as_u8 (bits encoding 9 5)).

Definition transfer (encoding : Z) (addr : AddrMode) (size : AccessSize) : may_panic Form :=
  rt ← transferred encoding;
  mret (Form.LoadStore rt None None addr size Ordering.PLAIN).

(** What the [opc] field of a single-register form asks for. *)
Module SingleRegister.

Record SingleRegister : Type := mk { is_load : bool; size : AccessSize; width : RegWidth }.

Definition decode (size_field opc : Z) : option SingleRegister :=
  let is_sign_extending := negb (Z.land opc 2 =? 0) in
  let has_signed_form := (size_field <? 3) && negb ((size_field =? 2) && (opc =? 3)) in
  if is_sign_extending && negb has_signed_form then None else
  let is_load := if is_sign_extending then true else Z.land opc 1 =? 1 in
  let width :=
    if is_sign_extending then RegWidth.from_sf (Z.land opc 1 =? 0)
    else RegWidth.from_sf (size_field =? 3) in
  Some (mk is_load (AccessSize.mk (wshl 8 1 size_field) is_sign_extending) width).

Definition op (self : SingleRegister) : Op := if is_load self then Op.Ldr else Op.Str.

End SingleRegister.

Definition is_prefetch (size_field opc : Z) : bool := (size_field =? 3) && (opc =? 2).

Definition register_offset (encoding size_field : Z) : may_panic (option AddrMode) :=
  let option := as_u8 (bits encoding 15 13) in
  if Z.land option 2 =? 0 then mret None else
  let is_scaled := bits encoding 12 12 =? 1 in
  let amount := if is_scaled then as_u8 size_field else 0 in
  base ← base encoding;
  rm ← Gpr.from_index_zr (as_u8 (bits encoding 20 16));
  mret (Some (AddrMode.Register base
                (ExtendedReg.mk rm (ExtendKind.from_option option) amount) WriteBack.None)).

Definition single_register_address (encoding size_field : Z) : may_panic (option AddrMode) :=
  if bits encoding 24 24 =? 1 then
    let scale := size_field in
    base ← base encoding;
    mret (Some (AddrMode.Immediate base (as_i64 (wshl 64 (bits encoding 21 10) scale))
                  WriteBack.None))
  else if bits encoding 21 21 =? 1 then
    if negb (bits encoding 11 10 =? 2) then mret None
    else register_offset encoding size_field
  else
    let offset := sign_extend (bits encoding 20 12) 9 in
    let writeback :=
      match bits encoding 11 10 with
      | 0 => Some WriteBack.None
      | 1 => Some WriteBack.Post
      | 3 => Some WriteBack.Pre
      | _ => None
      end in
    match writeback with
    | None => mret None
    | Some writeback =>
        base ← base encoding;
        mret (Some (AddrMode.Immediate base offset writeback))
    end.

Definition single_register (encoding : Z) : may_panic Instruction :=
  let size_field := bits encoding 31 30 in
  let opc := bits encoding 23 22 in
  addr ← single_register_address encoding size_field;
  match addr with
  | None => mret (unallocated encoding)
  | Some addr =>
      if is_prefetch size_field opc then
        if AddrMode.has_writeback addr then mret (unallocated encoding)
        else mret (Instruction.new encoding Op.Prfm
                     (Form.Prefetch (as_u8 (bits encoding 4 0)) addr))
      else
        match SingleRegister.decode size_field opc with
        | None => mret (unallocated encoding)
        | Some transferred =>
            form ← transfer encoding addr (SingleRegister.size transferred);
            mret (Instruction.with_width
                    (Instruction.new encoding (SingleRegister.op transferred) form)
                    (SingleRegister.width transferred))
        end
  end.

Definition literal (encoding : Z) : may_panic Instruction :=
  let addr := AddrMode.PcRelative (imul64 (sign_extend (bits encoding 23 5) 19) 4) in
  let size_width :=
    match bits encoding 31 30 with
    | 0 => Some (AccessSize.W, RegWidth.W32)
    | 1 => Some (AccessSize.X, RegWidth.X64)
    | 2 => Some (AccessSize.mk 4 true, RegWidth.X64)
    | _ => None
    end in
  match size_width with
  | None =>
      mret (Instruction.new encoding Op.Prfm (Form.Prefetch (as_u8 (bits encoding 4 0)) addr))
  | Some (size, width) =>
      form ← transfer encoding addr size;
      mret (Instruction.with_width (Instruction.new encoding Op.Ldr form) width)
  end.

Definition pair_writeback (encoding : Z) : WriteBack :=
  match bits encoding 24 23 with
  | 0 | 2 => WriteBack.None
  | 1 => WriteBack.Post
  | _ => WriteBack.Pre
  end.

Definition pair (encoding : Z) : may_panic Instruction :=
  let opc := bits encoding 31 30 in
  let is_load := bits encoding 22 22 =? 1 in
  let size_width :=
    match opc, is_load with
    | 0, _ => Some (AccessSize.W, RegWidth.W32)
    | 1, true => Some (AccessSize.mk 4 true, RegWidth.X64)
    | 2, _ => Some (AccessSize.X, RegWidth.X64)
    | _, _ => None
    end in
  match size_width with
  | None => mret (unallocated encoding)
  | Some (size, width) =>
      let is_non_temporal := bits encoding 24 23 =? 0 in
      if is_non_temporal && AccessSize.is_signed size then mret (unallocated encoding) else
      rt ← transferred encoding;
      rt2 ← Gpr.from_index_zr (as_u8 (bits encoding 14 10));
      base ← base encoding;
      let form :=
        Form.LoadStore rt (Some rt2) None
          (AddrMode.Immediate base
             (imul64 (sign_extend (bits encoding 21 15) 7) (AccessSize.bytes size))
             (pair_writeback encoding))
          size Ordering.PLAIN in
      let op := if is_load then Op.Ldp else Op.Stp in
      mret (Instruction.with_width (Instruction.new encoding op form) width)
  end.

Definition exclusive_size (size_field : Z) (is_pair : bool) : option AccessSize :=
  if negb is_pair then Some (AccessSize.mk (wshl 8 1 size_field) false) else
  match size_field with
  | 2 => Some AccessSize.W
  | 3 => Some AccessSize.X
  | _ => None
  end.

Definition exclusive (encoding : Z) : may_panic Instruction :=
  let size_field := bits encoding 31 30 in
  let is_load := bits encoding 22 22 =? 1 in
  let is_exclusive := bits encoding 23 23 =? 0 in
  let is_pair := bits encoding 21 21 =? 1 in
  let is_ordered := bits encoding 15 15 =? 1 in
  match exclusive_size size_field is_pair with
  | None => mret (unallocated encoding)
  | Some size =>
      let is_unallocated_shape := is_pair && negb is_exclusive in
      if is_unallocated_shape || (negb is_exclusive && negb is_ordered)
      then mret (unallocated encoding) else
      let ordering :=
        Ordering.mk (is_load && is_ordered) (negb is_load && is_ordered) is_exclusive in
      rs ← (if is_exclusive && negb is_load
            then rs ← Gpr.from_index_zr (as_u8 (bits encoding 20 16)); mret (Some rs)
            else mret None);
      rt ← transferred encoding;
      rt2 ← (if is_pair
             then rt2 ← Gpr.from_index_zr (as_u8 (bits encoding 14 10)); mret (Some rt2)
             else mret None);
      base ← base encoding;
      let form := Form.LoadStore rt rt2 rs (AddrMode.BaseOnly base) size ordering in
      let op := if is_load then Op.Ldar else Op.Stlr in
      mret (Instruction.with_width (Instruction.new encoding op form)
              (RegWidth.from_sf (size_field =? 3)))
  end.

Definition loads_and_stores (encoding : Z) : may_panic Instruction :=
  if bits encoding 26 26 =? 1 then mret (unallocated encoding) else
  let has_reserved_bit_set := bits encoding 24 24 =? 1 in
  let family := bits encoding 29 28 in
  if ((family =? 0) || (family =? 1)) && has_reserved_bit_set then mret (unallocated encoding)
  else match family with
  | 0 => exclusive encoding
  | 1 => literal encoding
  | 2 => pair encoding
  | _ => single_register encoding
  end.

(** ** Every decoder of the group returns a well-formed instruction *)

Lemma transferred_ok (e : Z) : returns (transferred e) gpr_ok.
Proof. apply zr_field; lia. Qed.

Lemma base_ok (e : Z) : returns (base e) gpr_ok.
Proof. apply sp_field; lia. Qed.

#[export] Hint Resolve transferred_ok base_ok : coracle.

Lemma register_offset_ok (e size_field : Z) :
  0 <= size_field < 4 -> returns (register_offset e size_field) (opt_ok addr_ok).
Proof.
  intros Hs. decode_open register_offset; form_split; try assumption; try exact I.
  destruct (_ =? 1); [| lia]. unfold as_u8. rewrite wrap_small by (split; lia). lia.
Qed.

Lemma scaled_offset_range (v n : Z) :
  0 <= v < 4096 -> 0 <= n < 8 -> - 2 ^ 63 <= as_i64 (wshl 64 v n) < 2 ^ 63.
Proof. intros. apply (to_signed_range 64). lia. Qed.

#[export] Hint Resolve register_offset_ok : coracle.

Lemma single_register_address_ok (e size_field : Z) :
  0 <= size_field < 4 -> returns (single_register_address e size_field) (opt_ok addr_ok).
Proof.
  intros Hs. decode_open single_register_address; case_match_hyps; form_split;
    try assumption; try exact I; field_facts; try lia.
  apply scaled_offset_range; lia.
Qed.

Lemma size_ok_shift (n : Z) (b : bool) : 0 <= n < 4 -> size_ok (AccessSize.mk (wshl 8 1 n) b).
Proof.
  intros Hn. assert (n = 0 \/ n = 1 \/ n = 2 \/ n = 3) as [-> | [-> | [-> | ->]]] by lia;
    vm_compute; auto 6.
Qed.

Lemma single_register_size_ok (size_field opc : Z) (s : SingleRegister.SingleRegister) :
  0 <= size_field < 4 -> SingleRegister.decode size_field opc = Some s ->
  size_ok (SingleRegister.size s).
Proof.
  intros Hs. unfold SingleRegister.decode. destruct (_ && _); [discriminate |].
  intros [= <-]. apply size_ok_shift, Hs.
Qed.

Lemma exclusive_size_ok (size_field : Z) (is_pair : bool) (s : AccessSize) :
  0 <= size_field < 4 -> exclusive_size size_field is_pair = Some s -> size_ok s.
Proof.
  intros Hs. unfold exclusive_size. destruct is_pair; cbn [negb].
  - assert (size_field = 0 \/ size_field = 1 \/ size_field = 2 \/ size_field = 3)
      as [-> | [-> | [-> | ->]]] by lia; try discriminate; intros [= <-]; unfold size_ok; cbn; lia.
  - intros [= <-]. apply size_ok_shift, Hs.
Qed.

Lemma transfer_ok (e : Z) (addr : AddrMode) (size : AccessSize) :
  addr_ok addr -> size_ok size ->
  returns (transfer e addr size)
    (fun f => form_layout f = LLoadStore /\ forall w, form_ok w f).
Proof.
  intros Ha Hs. decode_open transfer. split; [reflexivity |]. intros w. repeat split; assumption.
Qed.

#[export] Hint Resolve single_register_address_ok size_ok_shift transfer_ok
  single_register_size_ok exclusive_size_ok : coracle.

Lemma transfer_decoded (e : Z) (addr : AddrMode) (size : AccessSize) (w : RegWidth) (o : Op) :
  addr_ok addr -> size_ok size -> op_has_layout o LLoadStore = true ->
  returns (form ← transfer e addr size;
           mret (Instruction.with_width (Instruction.new e o form) w)) (decoded_ok e).
Proof.
  intros Ha Hs Ho. eapply returns_bind; [apply transfer_ok; assumption |].
  intros f [Hl Hf]. apply returns_ret. split; cbn; [reflexivity | apply Hf | rewrite Hl; exact Ho].
Qed.

Lemma single_register_ok (e : Z) : returns (single_register e) (decoded_ok e).
Proof.
  unfold single_register. pose proof (bits_range e 31 30) as Hsize. cbn in Hsize.
  eapply returns_bind; [apply single_register_address_ok; lia |]. intros [addr |] Haddr;
    [| apply returns_unallocated].
  destruct (is_prefetch _ _); [destruct (AddrMode.has_writeback addr); [apply returns_unallocated |] |].
  - apply returns_ret. split; [reflexivity | | reflexivity]. split; [| exact Haddr].
    rewrite as_u8_bits by lia. apply (bits_range e 4 0); lia.
  - destruct (SingleRegister.decode _ _) as [s |] eqn:E; [| apply returns_unallocated].
    apply transfer_decoded; [exact Haddr | eapply single_register_size_ok; [| exact E]; lia |].
    unfold SingleRegister.op. destruct (SingleRegister.is_load s); reflexivity.
Qed.

Lemma literal_ok (e : Z) : returns (literal e) (decoded_ok e).
Proof.
  unfold literal. cbv zeta. pose proof (branch_offset_ok (bits e 23 5) 19 ltac:(lia)) as Hoff.
  destruct (match bits e 31 30 with 0 => _ | _ => _ end) as [[size width] |] eqn:E.
  - apply transfer_decoded; [exact Hoff | | reflexivity].
    case_match_hyps; unfold size_ok; cbn; lia.
  - apply returns_ret. split; [reflexivity | | reflexivity]. split; [| exact Hoff].
    rewrite as_u8_bits by lia. apply (bits_range e 4 0); lia.
Qed.

Lemma pair_ok (e : Z) : returns (pair e) (decoded_ok e).
Proof.
  unfold pair. cbv zeta. destruct (match bits e 31 30 with 0 => _ | _ => _ end) as [[size width] |] eqn:E;
    [| apply returns_unallocated].
  assert (size_ok size) as Hs by (case_match_hyps; unfold size_ok; cbn; lia).
  clear E. repeat decode_step. decoded_split; form_split; try assumption; try exact I.
  apply (to_signed_range 64). lia.
Qed.

Lemma exclusive_ok (e : Z) : returns (exclusive e) (decoded_ok e).
Proof.
  unfold exclusive. cbv zeta. pose proof (bits_range e 31 30) as Hsize. cbn in Hsize.
  destruct (exclusive_size _ _) as [size |] eqn:E; [| apply returns_unallocated].
  apply exclusive_size_ok in E; [| lia].
  repeat decode_step; decoded_split; form_split; first [assumption | exact I].
Qed.

#[export] Hint Resolve single_register_ok literal_ok pair_ok exclusive_ok : coracle.

Lemma loads_and_stores_ok (e : Z) : returns (loads_and_stores e) (decoded_ok e).
Proof. decode_open loads_and_stores. Qed.

End loads_stores.

#[export] Hint Resolve loads_stores.loads_and_stores_ok : coracle.
