(* ===== verification/SimdLoadsStores.v ===== *)
(** SIMD/FP loads and stores
    ([crates/core/src/decode/group/simd_fp/loads_stores.rs]). *)

From stdpp Require Import base numbers list option.
From S2P Require Import Prelude Reg Operand Op Instruction Group BranchSystem.

#[local] Open Scope Z_scope.

Module simd_loads_stores.

Definition base (encoding : Z) : may_panic Gpr :=
  Gpr.from_index_sp (as_u8 (bits encoding 9 5)).

Definition transferred (encoding : Z) : may_panic Vec :=
  Vec.new (as_u8 (bits encoding 4 0)).

Definition scalar (reg : Vec) (size : ElemSize) : VecOperand :=
  VecOperand.mk reg (VecShape.Scalar size).

Definition single_size (encoding : Z) : option ElemSize :=
  let size := bits encoding 31 30 in
  let is_wide := bits encoding 23 23 =? 1 in
  match is_wide, size with
  | false, 0 => Some ElemSize.B8
  | false, 1 => Some ElemSize.H16
  | false, 2 => Some ElemSize.S32
  | false, 3 => Some ElemSize.D64
  | true, 0 => Some ElemSize.Q128
  | _, _ => None
  end.

Definition scale_of (size : ElemSize) : Z :=
  wsub 32 (trailing_zeros 32 (ElemSize.bits size)) 3.

Definition register_offset (encoding : Z) (size : ElemSize) : may_panic AddrMode :=
  let is_scaled := bits encoding 12 12 =? 1 in
  base ← base encoding;
  rm ← Gpr.from_index_zr (as_u8 (bits encoding 20 16));
  mret (AddrMode.Register base
          (ExtendedReg.mk rm (ExtendKind.from_option (as_u8 (bits encoding 15 13)))
             (if is_scaled then as_u8 (scale_of size) else 0))
          WriteBack.None).

Definition single_register_address (encoding : Z) (size : ElemSize) :
    may_panic (option AddrMode) :=
  if bits encoding 24 24 =? 1 then
    base ← base encoding;
    mret (Some (AddrMode.Immediate base
                  (as_i64 (wshl 64 (bits encoding 21 10) (scale_of size))) WriteBack.None))
  else if bits encoding 21 21 =? 1 then
    if negb (bits encoding 11 10 =? 2) then mret None
    else addr ← register_offset encoding size; mret (Some addr)
  else
    let offset := sign_extend (bits encoding 20 12) 9 in
    let writeback :=
      match bits encoding 11 10 with
      | 0 => Some WriteBack.None
      | 1 => Some WriteBack.Post
      | 3 => Some WriteBack.Pre
      | _ => None
      end in
    match writeback with
    | None => mret None
    | Some writeback =>
        base ← base encoding;
        mret (Some (AddrMode.Immediate base offset writeback))
    end.

Definition single_register (encoding : Z) : may_panic Instruction :=
  match single_size encoding with
  | None => mret (unallocated encoding)
  | Some size =>
      addr ← single_register_address encoding size;
      match addr with
      | None => mret (unallocated encoding)
      | Some addr =>
          let op := if bits encoding 22 22 =? 1 then Op.Ldr else Op.Str in
          vt ← transferred encoding;
          let form := Form.LoadStoreVec (scalar vt size) 1 addr Ordering.PLAIN in
          mret (Instruction.new encoding op form)
      end
  end.

Definition literal (encoding : Z) : may_panic Instruction :=
  let size :=
    match bits encoding 31 30 with
    | 0 => Some ElemSize.S32
    | 1 => Some ElemSize.D64
    | 2 => Some ElemSize.Q128
    | _ => None
    end in
  match size with
  | None => mret (unallocated encoding)
  | Some size =>
      vt ← transferred encoding;
      let form :=
        Form.LoadStoreVec (scalar vt size) 1
          (AddrMode.PcRelative (imul64 (sign_extend (bits encoding 23 5) 19) 4))
          Ordering.PLAIN in
      mret (Instruction.new encoding Op.Ldr form)
  end.

Definition pair_writeback (encoding : Z) : option WriteBack :=
  match bits encoding 24 23 with
  | 1 => Some WriteBack.Post
  | 2 => Some WriteBack.None
  | 3 => Some WriteBack.Pre
  | _ => None
  end.

Definition pair (encoding : Z) : may_panic Instruction :=
  let size :=
    match bits encoding 31 30 with
    | 0 => Some ElemSize.S32
    | 1 => Some ElemSize.D64
    | 2 => Some ElemSize.Q128
    | _ => None
    end in
  match size with
  | None => mret (unallocated encoding)
  | Some size =>
      match pair_writeback encoding with
      | None => mret (unallocated encoding)
      | Some writeback =>
          vt ← transferred encoding;
          base ← base encoding;
          let form :=
            Form.LoadStoreVec (scalar vt size) 2
              (AddrMode.Immediate base
                 (ishl64 (sign_extend (bits encoding 21 15) 7) (scale_of size)) writeback)
              Ordering.PLAIN in
          let op := if bits encoding 22 22 =? 1 then Op.Ldp else Op.Stp in
          mret (Instruction.new encoding op form)
      end
  end.

(** What an [LD1]-[LD4] opcode names. *)
Module Structure.

Record Structure : Type := mk { op_load : Op; op_store : Op; count : Z }.

End Structure.

Definition structure_kind (opcode : Z) : option Structure.Structure :=
  match opcode with
  | 0 => Some (Structure.mk Op.Ld4 Op.St4 4)
  | 2 => Some (Structure.mk Op.Ld1 Op.St1 4)
  | 4 => Some (Structure.mk Op.Ld3 Op.St3 3)
  | 6 => Some (Structure.mk Op.Ld1 Op.St1 3)
  | 7 => Some (Structure.mk Op.Ld1 Op.St1 1)
  | 8 => Some (Structure.mk Op.Ld2 Op.St2 2)
  | 10 => Some (Structure.mk Op.Ld1 Op.St1 2)
  | _ => None
  end.

Definition structure_address (encoding : Z) (is_post_indexed : bool)
    (count bytes_per_register : Z) : may_panic AddrMode :=
  if negb is_post_indexed then
    base ← base encoding;
    mret (AddrMode.BaseOnly base)
  else
    let rm := bits encoding 20 16 in
    if rm =? 31 then
      base ← base encoding;
      mret (AddrMode.Immediate base (wmul 32 count bytes_per_register) WriteBack.Post)
    else
      base ← base encoding;
      rm ← Gpr.from_index_zr (as_u8 rm);
      mret (AddrMode.Register base (ExtendedReg.mk rm ExtendKind.Uxtx 0) WriteBack.Post).

Definition structure (encoding : Z) : may_panic Instruction :=
  let is_post_indexed := bits encoding 23 23 =? 1 in
  if negb is_post_indexed && negb (bits encoding 21 16 =? 0)
  then mret (unallocated encoding) else
  match structure_kind (bits encoding 15 12) with
  | None => mret (unallocated encoding)
  | Some kind =>
      let is_quad := bits encoding 30 30 =? 1 in
      let elem := ElemSize.from_size (as_u8 (bits encoding 11 10)) in
      if bool_decide (elem = ElemSize.D64) && negb is_quad
      then mret (unallocated encoding) else
      let lanes := (if is_quad then 128 else 64) / ElemSize.bits elem in
      vt ← transferred encoding;
      let vt :=
        VecOperand.mk vt
          (VecShape.Vector elem (as_u8 lanes)
             (if is_quad then VecHalf.Full else VecHalf.Low)) in
      let is_load := bits encoding 22 22 =? 1 in
      let op := if is_load then Structure.op_load kind else Structure.op_store kind in
      addr ← structure_address encoding is_post_indexed (Structure.count kind)
               (wmul 32 lanes (ElemSize.bits elem) / 8);
      let form := Form.LoadStoreVec vt (Structure.count kind) addr Ordering.PLAIN in
      mret (Instruction.new encoding op form)
  end.

Definition loads_and_stores_vec (encoding : Z) : may_panic Instruction :=
  match bits encoding 29 28 with
  | 0 => structure encoding
  | 1 => literal encoding
  | 2 => pair encoding
  | _ => single_register encoding
  end.

(** ** Every decoder of the group returns a well-formed instruction *)

Lemma simd_transferred_ok (e : Z) : returns (transferred e) vec_ok.
Proof. apply vec_field; lia. Qed.

Lemma simd_base_ok (e : Z) : returns (base e) gpr_ok.
Proof. apply sp_field; lia. Qed.

#[export] Hint Resolve simd_transferred_ok simd_base_ok : coracle.

Lemma simd_scalar_ok (reg : Vec) (size : ElemSize) : vec_ok reg -> operand_ok (scalar reg size).
Proof. intros H. split; [exact H | exact I]. Qed.

#[export] Hint Resolve simd_scalar_ok : coracle.

Lemma scale_of_range (size : ElemSize) : 0 <= as_u8 (scale_of size) <= 4.
Proof. destruct size; vm_compute; split; congruence. Qed.

Lemma simd_register_offset_ok (e : Z) (size : ElemSize) : returns (register_offset e size) addr_ok.
Proof.
  decode_open register_offset; form_split; try assumption.
  destruct (_ =? 1); [apply scale_of_range | lia].
Qed.

#[export] Hint Resolve simd_register_offset_ok : coracle.

Lemma simd_single_register_address_ok (e : Z) (size : ElemSize) :
  returns (single_register_address e size) (opt_ok addr_ok).
Proof.
  decode_open single_register_address; case_match_hyps; form_split;
    try assumption; try exact I; field_facts; try lia.
  apply (to_signed_range 64). lia.
Qed.

#[export] Hint Resolve simd_single_register_address_ok : coracle.

Lemma simd_single_register_ok (e : Z) : returns (single_register e) (decoded_ok e).
Proof.
  unfold single_register. destruct (single_size e) as [size |]; [| apply returns_unallocated].
  eapply returns_bind; [apply simd_single_register_address_ok |]. intros [addr |] Haddr;
    [| apply returns_unallocated].
  repeat decode_step. decoded_split. split_bounds; auto with coracle; lia.
Qed.

Lemma simd_literal_ok (e : Z) : returns (literal e) (decoded_ok e).
Proof.
  decode_open literal; decoded_split.
  split_bounds; auto with coracle; try lia; apply (branch_offset_ok _ 19); lia.
Qed.

Lemma simd_pair_ok (e : Z) : returns (pair e) (decoded_ok e).
Proof.
  decode_open pair; decoded_split.
  split_bounds; auto with coracle; try lia.
  split; [assumption | apply (to_signed_range 64); lia].
Qed.

Lemma structure_kind_ok (opcode : Z) (kind : Structure.Structure) :
  structure_kind opcode = Some kind ->
  op_has_layout (Structure.op_load kind) LLoadStoreVec = true /\
  op_has_layout (Structure.op_store kind) LLoadStoreVec = true /\
  1 <= Structure.count kind <= 4.
Proof.
  unfold structure_kind. intros H. case_match_hyps; cbn; (split; [| split]);
    first [reflexivity | lia].
Qed.

Lemma structure_address_ok (e : Z) (b : bool) (count bytes : Z) :
  returns (structure_address e b count bytes) addr_ok.
Proof.
  decode_open structure_address; form_split; try assumption; try exact I; try lia.
  assert (in_range 32 (wmul 32 count bytes)) as [] by (apply wrap_range; lia). lia.
Qed.

#[export] Hint Resolve structure_address_ok : coracle.

(** The lanes of an arrangement fill the half of the register it names. *)
Lemma lanes_fill (elem : ElemSize) (is_quad : bool) :
  elem <> ElemSize.Q128 ->
  shape_ok (VecShape.Vector elem (as_u8 ((if is_quad then 128 else 64) / ElemSize.bits elem))
              (if is_quad then VecHalf.Full else VecHalf.Low)).
Proof. intros H. split; [exact H |]. destruct elem, is_quad; vm_compute; congruence. Qed.

Lemma from_size_not_q (n : Z) : ElemSize.from_size n <> ElemSize.Q128.
Proof. unfold ElemSize.from_size. destruct_matches; discriminate. Qed.

Lemma structure_ok (e : Z) : returns (structure e) (decoded_ok e).
Proof.
  unfold structure. cbv zeta. destruct (_ && _); [apply returns_unallocated |].
  destruct (structure_kind _) as [kind |] eqn:E; [| apply returns_unallocated].
  apply structure_kind_ok in E as (Hl & Hs & Hc). repeat decode_step.
  split; [reflexivity | | cbn -[op_has_layout]; destruct (bits e 22 22 =? 1); assumption].
  cbn -[Z.le Z.lt operand_ok addr_ok]; split_bounds; try assumption.
  split; [assumption | apply lanes_fill, from_size_not_q].
Qed.

#[export] Hint Resolve simd_single_register_ok simd_literal_ok simd_pair_ok structure_ok : coracle.

Lemma loads_and_stores_vec_ok (e : Z) : returns (loads_and_stores_vec e) (decoded_ok e).
Proof. decode_open loads_and_stores_vec. Qed.

End simd_loads_stores.

#[export] Hint Resolve simd_loads_stores.loads_and_stores_vec_ok simd_loads_stores.from_size_not_q
  simd_loads_stores.lanes_fill : coracle.
