(* ===== verification/Scalar.v ===== *)
(** Scalar floating-point data processing
    ([crates/core/src/decode/group/simd_fp/scalar.rs]). *)

From stdpp Require Import base numbers list option.
From S2P Require Import Prelude Reg Operand Op Instruction Group.

#[local] Open Scope Z_scope.

Module scalar_fp.

Definition float_size (ftype : Z) : option ElemSize :=
  match ftype with
  | 0 => Some ElemSize.S32
  | 1 => Some ElemSize.D64
  | 3 => Some ElemSize.H16
  | _ => None
  end.

Definition scalar (idx : Z) (size : ElemSize) : may_panic VecOperand :=
  reg ← Vec.new (as_u8 idx);
  mret (VecOperand.mk reg (VecShape.Scalar size)).

(** The [Rd], [Rn], [Rm] and [Ra] register fields. *)
Definition fields (encoding : Z) : Z * Z * Z * Z :=
  (bits encoding 4 0, bits encoding 9 5, bits encoding 20 16, bits encoding 14 10).

Definition three_source (encoding : Z) (size : ElemSize) : may_panic Instruction :=
  let '(rd, rn, rm, ra) := fields encoding in
  let op :=
    match bits encoding 21 21, bits encoding 15 15 with
    | 0, 0 => Op.Fmadd
    | 0, 1 => Op.Fmsub
    | 1, 0 => Op.Fnmadd
    | _, _ => Op.Fnmsub
    end in
  vd ← scalar rd size;
  vn ← scalar rn size;
  vm ← scalar rm size;
  va ← scalar ra size;
  let form := Form.VecData vd vn (Some vm) (Some va) in
  mret (Instruction.new encoding op form).

Definition two_source (encoding : Z) (size : ElemSize) : may_panic Instruction :=
  let '(rd, rn, rm, _) := fields encoding in
  let op :=
    match bits encoding 15 12 with
    | 0 => Some Op.Fmul
    | 1 => Some Op.Fdiv
    | 2 => Some Op.Fadd
    | 3 => Some Op.Fsub
    | 4 => Some Op.Fmax
    | 5 => Some Op.Fmin
    | 6 => Some Op.Fmaxnm
    | 7 => Some Op.Fminnm
    | 8 => Some Op.Fnmul
    | _ => None
    end in
  match op with
  | None => mret (unallocated encoding)
  | Some op =>
      vd ← scalar rd size;
      vn ← scalar rn size;
      vm ← scalar rm size;
      let form := Form.VecData vd vn (Some vm) None in
      mret (Instruction.new encoding op form)
  end.

Definition conditional_select (encoding : Z) (size : ElemSize) : may_panic Instruction :=
  let '(rd, rn, rm, _) := fields encoding in
  vd ← scalar rd size;
  vn ← scalar rn size;
  vm ← scalar rm size;
  let form := Form.VecCond vd vn vm (Cond.from_bits (as_u8 (bits encoding 15 12))) in
  mret (Instruction.new encoding Op.Fcsel form).

Definition conditional_compare (encoding : Z) (size : ElemSize) : may_panic Instruction :=
  let '(nzcv, rn, rm, _) := fields encoding in
  let op := if bits encoding 4 4 =? 1 then Op.Fccmpe else Op.Fccmp in
  vn ← scalar rn size;
  vm ← scalar rm size;
  let form :=
    Form.VecCondCompare vn vm (as_u8 (Z.land nzcv 15))
      (Cond.from_bits (as_u8 (bits encoding 15 12))) in
  mret (Instruction.new encoding op form).

Definition compare (encoding : Z) (size : ElemSize) : may_panic Instruction :=
  let '(opcode2, rn, rm, _) := fields encoding in
  let is_zero_form := negb (Z.land opcode2 8 =? 0) in
  let op := if negb (Z.land opcode2 16 =? 0) then Op.Fcmpe else Op.Fcmp in
  if negb (Z.land opcode2 7 =? 0) then mret (unallocated encoding) else
  if is_zero_form && negb (rm =? 0) then mret (unallocated encoding) else
  vn ← scalar rn size;
  vm ← (if negb is_zero_form then vm ← scalar rm size; mret (Some vm) else mret None);
  let form := Form.VecCompare vn vm in
  mret (Instruction.new encoding op form).

(** An 8-bit [abcdefgh] becomes a float with a 4-bit mantissa and an exponent
    formed from [b] repeated. *)
Definition expand_float_immediate (imm8 : Z) (size : ElemSize) : Z :=
  let sign := wshr 8 imm8 7 in
  let exponent_high := Z.land (wshr 8 imm8 6) 1 in
  let exponent_low := Z.land (wshr 8 imm8 4) 3 in
  let mantissa := Z.land imm8 15 in
  let '(exponent_bits, mantissa_bits) :=
    match size with
    | ElemSize.H16 => (5, 10)
    | ElemSize.D64 => (11, 52)
    | _ => (8, 23)
    end in
  let repeated :=
    if exponent_high =? 1 then wsub 64 (wshl 64 1 (exponent_bits - 3)) 1 else 0 in
  let exponent :=
    Z.lor (Z.lor (wshl 64 (wsub 64 1 exponent_high) (exponent_bits - 1)) (wshl 64 repeated 2))
      exponent_low in
  Z.lor
    (Z.lor (wshl 64 sign (exponent_bits + mantissa_bits)) (wshl 64 exponent mantissa_bits))
    (wshl 64 mantissa (mantissa_bits - 4)).

Definition move_immediate (encoding : Z) (size : ElemSize) : may_panic Instruction :=
  let rd := bits encoding 4 0 in
  if negb (bits encoding 9 5 =? 0) then mret (unallocated encoding) else
  let imm8 := as_u8 (bits encoding 20 13) in
  vd ← scalar rd size;
  let form := Form.VecImm vd vd (expand_float_immediate imm8 size) in
  mret (Instruction.new encoding Op.FmovImm form).

Definition one_source (encoding : Z) (size : ElemSize) : may_panic Instruction :=
  let '(rd, rn, _, _) := fields encoding in
  let opcode := bits encoding 20 15 in
  let choice :=
    match opcode with
    | 0 => Some (Op.Fmov, RoundMode.Current, None)
    | 1 => Some (Op.Fabs, RoundMode.Current, None)
    | 2 => Some (Op.Fneg, RoundMode.Current, None)
    | 3 => Some (Op.Fsqrt, RoundMode.Current, None)
    | 4 | 5 | 7 =>
        match float_size (Z.land opcode 3) with
        | None => None
        | Some target =>
            if bool_decide (target = size) then None
            else Some (Op.Fcvt, RoundMode.Current, Some target)
        end
    | 8 => Some (Op.Frint, RoundMode.Nearest, None)
    | 9 => Some (Op.Frint, RoundMode.Plus, None)
    | 10 => Some (Op.Frint, RoundMode.Minus, None)
    | 11 => Some (Op.Frint, RoundMode.Zero, None)
    | 12 => Some (Op.Frint, RoundMode.NearestAway, None)
    | 14 | 15 => Some (Op.Frint, RoundMode.Current, None)
    | _ => None
    end in
  match choice with
  | None => mret (unallocated encoding)
  | Some (op, round, target) =>
      vd ← scalar rd (match target with Some target => target | None => size end);
      vn ← scalar rn size;
      let form := Form.VecData vd vn None None in
      mret (Instruction.with_round (Instruction.new encoding op form) round)
  end.

Definition compare_or_one_source (encoding : Z) (size : ElemSize) : may_panic Instruction :=
  match bits encoding 14 10 with
  | 16 => one_source encoding size
  | 8 => compare encoding size
  | 4 => move_immediate encoding size
  | _ => mret (unallocated encoding)
  end.

(** What a conversion's [rmode:opcode] names. *)
Module ConversionKind.

Record ConversionKind : Type := mk { op : Op; round : RoundMode; is_to_gpr : bool }.

End ConversionKind.

Definition conversion_kind (rmode opcode : Z) : option ConversionKind.ConversionKind :=
  let signed := fun is_signed : bool => if is_signed then Op.Fcvts else Op.Fcvtu in
  let toward_zero := fun is_signed : bool => if is_signed then Op.Fcvtzs else Op.Fcvtzu in
  if (rmode =? 3) && ((opcode =? 0) || (opcode =? 1)) then
    Some (ConversionKind.mk (toward_zero (opcode =? 0)) RoundMode.Zero true)
  else if (opcode =? 0) || (opcode =? 1) then
    Some (ConversionKind.mk (signed (opcode =? 0))
            (match rmode with
             | 0 => RoundMode.Nearest
             | 1 => RoundMode.Plus
             | _ => RoundMode.Minus
             end) true)
  else if (rmode =? 0) && ((opcode =? 2) || (opcode =? 3)) then
    Some (ConversionKind.mk (if opcode =? 2 then Op.Scvtf else Op.Ucvtf) RoundMode.Current false)
  else if (rmode =? 0) && ((opcode =? 4) || (opcode =? 5)) then
    Some (ConversionKind.mk (signed (opcode =? 4)) RoundMode.NearestAway true)
  else if ((rmode =? 0) || (rmode =? 1)) && ((opcode =? 6) || (opcode =? 7)) then
    Some (ConversionKind.mk (if opcode =? 6 then Op.FmovFromVec else Op.FmovToVec)
            RoundMode.Current (opcode =? 6))
  else None.

Definition move_between_files (encoding : Z) (width : RegWidth)
    (kind : ConversionKind.ConversionKind) : may_panic Instruction :=
  let '(rd, rn, _, _) := fields encoding in
  let is_high_half := bits encoding 20 19 =? 1 in
  if is_high_half &&
     (negb (bool_decide (width = RegWidth.X64)) || negb (bits encoding 23 22 =? 2))
  then mret (unallocated encoding) else
  let otherwise := if negb is_high_half then None else Some ElemSize.D64 in
  let size :=
    match float_size (bits encoding 23 22) with
    | Some size =>
        if is_high_half ||
           Bool.eqb (bool_decide (size = ElemSize.D64)) (bool_decide (width = RegWidth.X64))
        then Some size else otherwise
    | None => otherwise
    end in
  match size with
  | None => mret (unallocated encoding)
  | Some size =>
      let shape :=
        if is_high_half then VecShape.Element ElemSize.D64 1 else VecShape.Scalar size in
      let '(gpr_index, vec_index) :=
        if ConversionKind.is_to_gpr kind then (rd, rn) else (rn, rd) in
      gpr ← Gpr.from_index_zr (as_u8 gpr_index);
      vec ← Vec.new (as_u8 vec_index);
      let form := Form.VecGprMove gpr (VecOperand.mk vec shape) in
      mret (Instruction.with_width
              (Instruction.new encoding (ConversionKind.op kind) form) width)
  end.

Definition integer_conversion (encoding : Z) : may_panic Instruction :=
  let '(rd, rn, _, _) := fields encoding in
  let width := RegWidth.from_sf (bits encoding 31 31 =? 1) in
  let rmode := bits encoding 20 19 in
  let opcode := bits encoding 18 16 in
  match conversion_kind rmode opcode with
  | None => mret (unallocated encoding)
  | Some kind =>
      if match ConversionKind.op kind with Op.FmovFromVec | Op.FmovToVec => true | _ => false end
      then move_between_files encoding width kind
      else
        match float_size (bits encoding 23 22) with
        | None => mret (unallocated encoding)
        | Some size =>
            '(gpr, vec) ← (if ConversionKind.is_to_gpr kind
                           then gpr ← Gpr.from_index_zr (as_u8 rd);
                                vec ← scalar rn size; mret (gpr, vec)
                           else gpr ← Gpr.from_index_zr (as_u8 rn);
                                vec ← scalar rd size; mret (gpr, vec));
            let form := Form.VecGprMove gpr vec in
            mret (Instruction.with_round
                    (Instruction.with_width
                       (Instruction.new encoding (ConversionKind.op kind) form) width)
                    (ConversionKind.round kind))
        end
  end.

Definition fixed_point_conversion (encoding : Z) : may_panic Instruction :=
  match float_size (bits encoding 23 22) with
  | None => mret (unallocated encoding)
  | Some size =>
      let '(rd, rn, _, _) := fields encoding in
      let width := RegWidth.from_sf (bits encoding 31 31 =? 1) in
      let scale := bits encoding 15 10 in
      let fractional_bits := wsub 32 64 scale in
      if bool_decide (width = RegWidth.W32) && (32 <? fractional_bits)
      then mret (unallocated encoding) else
      let rmode := bits encoding 20 19 in
      let opcode := bits encoding 18 16 in
      let choice :=
        match rmode, opcode with
        | 3, 0 => Some (Op.Fcvtzs, true)
        | 3, 1 => Some (Op.Fcvtzu, true)
        | 0, 2 => Some (Op.Scvtf, false)
        | 0, 3 => Some (Op.Ucvtf, false)
        | _, _ => None
        end in
      match choice with
      | None => mret (unallocated encoding)
      | Some (op, is_to_gpr) =>
          '(gpr, vec) ← (if is_to_gpr : bool
                         then gpr ← Gpr.from_index_zr (as_u8 rd);
                              vec ← scalar rn size; mret (gpr, vec)
                         else gpr ← Gpr.from_index_zr (as_u8 rn);
                              vec ← scalar rd size; mret (gpr, vec));
          let form := Form.VecGprMove gpr vec in
          mret (Instruction.with_round
                  (Instruction.with_width (Instruction.new encoding op form) width)
                  RoundMode.Zero)
      end
  end.

Definition data_processing (encoding : Z) : may_panic Instruction :=
  if (bits encoding 29 29 =? 1) || (bits encoding 30 30 =? 1)
  then mret (unallocated encoding) else
  let is_three_source := bits encoding 24 24 =? 1 in
  let is_fixed_point := negb is_three_source && (bits encoding 21 21 =? 0) in
  let is_integer_conversion :=
    negb is_three_source && (bits encoding 21 21 =? 1) && (bits encoding 15 10 =? 0) in
  if (bits encoding 31 31 =? 1) && negb (is_fixed_point || is_integer_conversion)
  then mret (unallocated encoding) else
  if is_fixed_point then fixed_point_conversion encoding else
  if is_integer_conversion then integer_conversion encoding else
  match float_size (bits encoding 23 22) with
  | None => mret (unallocated encoding)
  | Some size =>
      if is_three_source then three_source encoding size else
      match bits encoding 11 10 with
      | 0 => compare_or_one_source encoding size
      | 1 => conditional_compare encoding size
      | 2 => two_source encoding size
      | _ => conditional_select encoding size
      end
  end.

(** ** Every decoder of the group returns a well-formed instruction *)

Lemma scalar_ok (e hi lo : Z) (size : ElemSize) :
  0 <= lo -> lo <= hi < 32 -> hi - lo = 4 ->
  returns (scalar (bits e hi lo) size) operand_ok.
Proof.
  intros. unfold scalar. eapply returns_bind; [apply vec_field; assumption |].
  intros r Hr. apply returns_ret. split; [exact Hr | exact I].
Qed.

#[export] Hint Extern 1 (returns (scalar (bits _ _ _) _) _) => apply scalar_ok; lia : coracle.

Ltac fp_solve f := unfold f, fields; decode_solve f.

Lemma float_three_source_ok (e : Z) (size : ElemSize) :
  returns (three_source e size) (decoded_ok e).
Proof. fp_solve three_source. Qed.

Lemma float_two_source_ok (e : Z) (size : ElemSize) : returns (two_source e size) (decoded_ok e).
Proof. fp_solve two_source. Qed.

Lemma float_conditional_select_ok (e : Z) (size : ElemSize) :
  returns (conditional_select e size) (decoded_ok e).
Proof. fp_solve conditional_select. Qed.

Lemma low_nibble_range (x : Z) : 0 <= x -> in_range 4 (as_u8 (Z.land x 15)).
Proof.
  intros Hx. change 15 with (Z.ones 4). rewrite Z.land_ones by lia.
  pose proof (Z.mod_pos_bound x (2 ^ 4) ltac:(lia)). unfold as_u8.
  rewrite wrap_small by (split; lia). split; lia.
Qed.

Lemma float_conditional_compare_ok (e : Z) (size : ElemSize) :
  returns (conditional_compare e size) (decoded_ok e).
Proof. fp_solve conditional_compare; apply low_nibble_range; lia. Qed.

Lemma compare_ok (e : Z) (size : ElemSize) : returns (compare e size) (decoded_ok e).
Proof. fp_solve compare. Qed.

Lemma expand_float_immediate_range (imm8 : Z) (size : ElemSize) :
  in_range 8 imm8 -> in_range 64 (expand_float_immediate imm8 size).
Proof.
  intros H. unfold expand_float_immediate.
  destruct size; cbv beta iota zeta; repeat apply in_range_lor;
    first [lia | apply wrap_range; lia].
Qed.

Lemma float_move_immediate_ok (e : Z) (size : ElemSize) :
  returns (move_immediate e size) (decoded_ok e).
Proof. fp_solve move_immediate; apply expand_float_immediate_range; assumption. Qed.

Lemma float_one_source_ok (e : Z) (size : ElemSize) : returns (one_source e size) (decoded_ok e).
Proof.
  unfold one_source, fields. cbv zeta.
  destruct (match bits e 20 15 with 0 => _ | _ => _ end) as [[[op round] target] |] eqn:E;
    [| apply returns_unallocated].
  assert (op_has_layout op LVecData = true) as Hop by (case_match_hyps; reflexivity).
  repeat decode_step; (split; [reflexivity | | exact Hop]); form_split; assumption || exact I.
Qed.

#[export] Hint Resolve float_three_source_ok float_two_source_ok float_conditional_select_ok
  float_conditional_compare_ok compare_ok float_move_immediate_ok float_one_source_ok : coracle.

Lemma compare_or_one_source_ok (e : Z) (size : ElemSize) :
  returns (compare_or_one_source e size) (decoded_ok e).
Proof. decode_open compare_or_one_source. Qed.

Lemma conversion_kind_ok (rmode opcode : Z) (kind : ConversionKind.ConversionKind) :
  conversion_kind rmode opcode = Some kind ->
  op_has_layout (ConversionKind.op kind) LVecGprMove = true.
Proof. unfold conversion_kind. intros H. case_match_hyps; reflexivity. Qed.

Lemma move_between_files_ok (e : Z) (w : RegWidth) (kind : ConversionKind.ConversionKind) :
  op_has_layout (ConversionKind.op kind) LVecGprMove = true ->
  returns (move_between_files e w kind) (decoded_ok e).
Proof.
  intros Hk. unfold move_between_files, fields. cbv zeta.
  destruct (_ && _); [apply returns_unallocated |].
  destruct (match float_size _ with Some _ => _ | None => _ end) as [size |];
    [| apply returns_unallocated].
  assert (shape_ok (if bits e 20 19 =? 1 then VecShape.Element ElemSize.D64 1
                    else VecShape.Scalar size)) as Hs.
  { destruct (_ =? 1); [| exact I]. split; [discriminate | vm_compute; split; congruence]. }
  destruct (ConversionKind.is_to_gpr kind); repeat decode_step;
    (split; [reflexivity | form_split; try assumption; split; assumption | exact Hk]).
Qed.

(** The two operands of a conversion, whichever way it goes. *)
Lemma conversion_operands_ok (e : Z) (b : bool) (size : ElemSize) :
  returns (if b
           then gpr ← Gpr.from_index_zr (as_u8 (bits e 4 0));
                vec ← scalar (bits e 9 5) size; mret (gpr, vec)
           else gpr ← Gpr.from_index_zr (as_u8 (bits e 9 5));
                vec ← scalar (bits e 4 0) size; mret (gpr, vec))
    (fun p => gpr_ok p.1 /\ operand_ok p.2).
Proof. destruct b; repeat decode_step; split; assumption. Qed.

Lemma integer_conversion_ok (e : Z) : returns (integer_conversion e) (decoded_ok e).
Proof.
  unfold integer_conversion, fields. cbv zeta.
  destruct (conversion_kind _ _) as [kind |] eqn:E; [| apply returns_unallocated].
  apply conversion_kind_ok in E.
  destruct (match ConversionKind.op kind with Op.FmovFromVec => _ | _ => _ end);
    [apply move_between_files_ok, E |].
  destruct (float_size _) as [size |]; [| apply returns_unallocated].
  eapply returns_bind; [apply conversion_operands_ok |]. intros [gpr vec] [Hg Hv].
  apply returns_ret. split; [reflexivity | split; assumption | exact E].
Qed.

Lemma fixed_point_conversion_ok (e : Z) : returns (fixed_point_conversion e) (decoded_ok e).
Proof.
  unfold fixed_point_conversion, fields. cbv zeta.
  destruct (float_size _) as [size |]; [| apply returns_unallocated].
  destruct (_ && _); [apply returns_unallocated |].
  destruct (match bits e 20 19 with 3 => _ | _ => _ end) as [[op to_gpr] |] eqn:E;
    [| apply returns_unallocated].
  eapply returns_bind; [apply conversion_operands_ok |]. intros [gpr vec] [Hg Hv].
  apply returns_ret. split; [reflexivity | split; assumption |].
  case_match_hyps; reflexivity.
Qed.

#[export] Hint Resolve compare_or_one_source_ok integer_conversion_ok
  fixed_point_conversion_ok : coracle.

Lemma float_data_processing_ok (e : Z) : returns (data_processing e) (decoded_ok e).
Proof. decode_open data_processing. Qed.

End scalar_fp.

#[export] Hint Resolve scalar_fp.float_data_processing_ok : coracle.
