(* ===== verification/Neon.v ===== *)
(** The claimed subset of advanced SIMD
    ([crates/core/src/decode/group/simd_fp/neon.rs]). *)

From stdpp Require Import base numbers list option.
From S2P Require Import Prelude Reg Operand Op Instruction Group SimdLoadsStores.

#[local] Open Scope Z_scope.

Module neon.

(** The [Rd], [Rn] and [Rm] register fields. *)
Definition fields (encoding : Z) : Z * Z * Z :=
  (bits encoding 4 0, bits encoding 9 5, bits encoding 20 16).

Definition is_quad (encoding : Z) : bool := bits encoding 30 30 =? 1.

Definition vector (idx : Z) (elem : ElemSize) (is_quad : bool) : may_panic VecOperand :=
  let lanes := (if is_quad then 128 else 64) / ElemSize.bits elem in
  reg ← Vec.new (as_u8 idx);
  mret (VecOperand.mk reg
          (VecShape.Vector elem (as_u8 lanes) (if is_quad then VecHalf.Full else VecHalf.Low))).

Definition element (idx : Z) (elem : ElemSize) (lane : Z) : may_panic VecOperand :=
  reg ← Vec.new (as_u8 idx);
  mret (VecOperand.mk reg (VecShape.Element elem lane)).

Definition three_same_logical (encoding : Z) : may_panic Instruction :=
  let '(rd, rn, rm) := fields encoding in
  let op :=
    match bits encoding 29 29, bits encoding 23 22 with
    | 0, 0 => Op.VecAnd
    | 0, 1 => Op.VecBic
    | 0, 2 => Op.VecOrr
    | 0, 3 => Op.VecOrn
    | _, 0 => Op.VecEor
    | _, 1 => Op.VecBsl
    | _, 2 => Op.VecBit
    | _, _ => Op.VecBif
    end in
  let quad := is_quad encoding in
  vd ← vector rd ElemSize.B8 quad;
  vn ← vector rn ElemSize.B8 quad;
  vm ← vector rm ElemSize.B8 quad;
  let form := Form.VecData vd vn (Some vm) None in
  mret (Instruction.new encoding op form).

(** The opcode table of the three-register-same group. *)
Definition three_same_op (opcode : Z) (is_unsigned : bool) : option Op :=
  let signed_choice := fun signed unsigned : Op => Some (if is_unsigned then unsigned else signed) in
  match opcode with
  | 1 => signed_choice Op.Sshl Op.Ushl
  | 6 => signed_choice Op.VecCmgt Op.VecCmhi
  | 7 => signed_choice Op.VecCmge Op.VecCmhs
  | 16 => signed_choice Op.VecAdd Op.VecSub
  | 17 => if is_unsigned then Some Op.VecCmeq else None
  | 19 => signed_choice Op.VecMul Op.VecMul
  | 18 => signed_choice Op.VecMla Op.VecMls
  | 23 => Some Op.Addp
  | _ => None
  end.

Definition three_same (encoding : Z) : may_panic Instruction :=
  let '(rd, rn, rm) := fields encoding in
  let is_unsigned := bits encoding 29 29 =? 1 in
  let elem := ElemSize.from_size (as_u8 (bits encoding 23 22)) in
  let quad := is_quad encoding in
  match three_same_op (bits encoding 15 11) is_unsigned with
  | None => mret (unallocated encoding)
  | Some op =>
      if bool_decide (elem = ElemSize.D64) && negb quad then mret (unallocated encoding) else
      vd ← vector rd elem quad;
      vn ← vector rn elem quad;
      vm ← vector rm elem quad;
      let form := Form.VecData vd vn (Some vm) None in
      mret (Instruction.new encoding op form)
  end.

Definition across_lanes (encoding : Z) : may_panic Instruction :=
  let '(rd, rn, _) := fields encoding in
  let elem := ElemSize.from_size (as_u8 (bits encoding 23 22)) in
  let quad := is_quad encoding in
  let op :=
    match bits encoding 16 12, bits encoding 29 29 with
    | 26, 1 => Some Op.Uminv
    | 10, 1 => Some Op.Umaxv
    | 27, _ => Some Op.Addv
    | _, _ => None
    end in
  match op with
  | None => mret (unallocated encoding)
  | Some op =>
      rd ← Vec.new (as_u8 rd);
      vn ← vector rn elem quad;
      let form := Form.VecData (VecOperand.mk rd (VecShape.Scalar elem)) vn None None in
      mret (Instruction.new encoding op form)
  end.

(** [imm5] names both the element width and the lane, by the position of its
    lowest set bit. *)
Definition lane_from_imm5 (imm5 : Z) : option (ElemSize * Z) :=
  if negb (Z.land imm5 1 =? 0) then Some (ElemSize.B8, as_u8 (wshr 32 imm5 1))
  else if negb (Z.land imm5 2 =? 0) then Some (ElemSize.H16, as_u8 (wshr 32 imm5 2))
  else if negb (Z.land imm5 4 =? 0) then Some (ElemSize.S32, as_u8 (wshr 32 imm5 3))
  else if negb (Z.land imm5 8 =? 0) then Some (ElemSize.D64, as_u8 (wshr 32 imm5 4))
  else None.

Definition duplicate_from_gpr (encoding : Z) (elem : ElemSize) : may_panic Instruction :=
  let '(rd, rn, _) := fields encoding in
  gpr ← Gpr.from_index_zr (as_u8 rn);
  vec ← vector rd elem (is_quad encoding);
  mret (Instruction.new encoding Op.Dup (Form.VecGprMove gpr vec)).

Definition duplicate_from_element (encoding : Z) (elem : ElemSize) (lane : Z) :
    may_panic Instruction :=
  let '(rd, rn, _) := fields encoding in
  vd ← vector rd elem (is_quad encoding);
  vn ← element rn elem lane;
  mret (Instruction.new encoding Op.Dup (Form.VecData vd vn None None)).

Definition insert_from_gpr (encoding : Z) (elem : ElemSize) (lane : Z) : may_panic Instruction :=
  let '(rd, rn, _) := fields encoding in
  gpr ← Gpr.from_index_zr (as_u8 rn);
  vec ← element rd elem lane;
  mret (Instruction.new encoding Op.InsGpr (Form.VecGprMove gpr vec)).

Definition move_to_gpr (encoding : Z) (elem : ElemSize) (lane : Z) (is_signed : bool) :
    may_panic Instruction :=
  let '(rd, rn, _) := fields encoding in
  gpr ← Gpr.from_index_zr (as_u8 rd);
  vec ← element rn elem lane;
  let form := Form.VecGprMove gpr vec in
  let op := if is_signed then Op.Smov else Op.Umov in
  let width := RegWidth.from_sf (is_quad encoding) in
  mret (Instruction.with_width (Instruction.new encoding op form) width).

Definition insert_element (encoding : Z) : may_panic Instruction :=
  let '(rd, rn, _) := fields encoding in
  match lane_from_imm5 (bits encoding 20 16) with
  | None => mret (unallocated encoding)
  | Some (elem, destination) =>
      let source := as_u8 (wshr 32 (bits encoding 14 11) (ElemSize.as_Z elem)) in
      vd ← element rd elem destination;
      vn ← element rn elem source;
      mret (Instruction.new encoding Op.Ins (Form.VecData vd vn None None))
  end.

Definition copy (encoding : Z) : may_panic Instruction :=
  let imm5 := bits encoding 20 16 in
  match lane_from_imm5 imm5 with
  | None => mret (unallocated encoding)
  | Some (elem, lane) =>
      if bits encoding 29 29 =? 1 then insert_element encoding else
      match bits encoding 14 11 with
      | 0 => duplicate_from_element encoding elem lane
      | 1 => duplicate_from_gpr encoding elem
      | 3 => insert_from_gpr encoding elem lane
      | 5 => move_to_gpr encoding elem lane true
      | 7 => move_to_gpr encoding elem lane false
      | _ => mret (unallocated encoding)
      end
  end.

Definition table_lookup (encoding : Z) : may_panic Instruction :=
  let '(rd, rn, rm) := fields encoding in
  let table_len := wadd 8 (as_u8 (bits encoding 14 13)) 1 in
  let op := if bits encoding 12 12 =? 1 then Op.Tbx else Op.Tbl in
  let quad := is_quad encoding in
  vd ← vector rd ElemSize.B8 quad;
  table ← Vec.new (as_u8 rn);
  vm ← vector rm ElemSize.B8 quad;
  mret (Instruction.new encoding op (Form.TableLookup vd table table_len vm)).

Definition extract (encoding : Z) : may_panic Instruction :=
  let '(rd, rn, rm) := fields encoding in
  let quad := is_quad encoding in
  let index := bits encoding 14 11 in
  if negb quad && (8 <=? index) then mret (unallocated encoding) else
  vd ← vector rd ElemSize.B8 quad;
  vn ← vector rn ElemSize.B8 quad;
  mret (Instruction.new encoding Op.Ext (Form.VecImm vd vn index)).

Definition two_register (encoding : Z) : may_panic Instruction :=
  let '(rd, rn, _) := fields encoding in
  let elem := ElemSize.from_size (as_u8 (bits encoding 23 22)) in
  let quad := is_quad encoding in
  let op :=
    match bits encoding 16 12, bits encoding 29 29 with
    | 0, 0 => Some Op.VecRev64
    | 1, 0 => Some Op.VecRev16
    | 5, 0 => Some Op.VecCnt
    | 5, 1 => Some Op.VecNot
    | 11, 0 => Some Op.VecAbs
    | 11, 1 => Some Op.VecNeg
    | _, _ => None
    end in
  match op with
  | None => mret (unallocated encoding)
  | Some op =>
      let elem := match op with Op.VecNot | Op.VecCnt => ElemSize.B8 | _ => elem end in
      vd ← vector rd elem quad;
      vn ← vector rn elem quad;
      mret (Instruction.new encoding op (Form.VecData vd vn None None))
  end.

(** The [cmode = 1111] float immediate. *)
Definition expand_float32 (imm8 : Z) : Z :=
  let sign := wshr 8 imm8 7 in
  let exponent_high := Z.land (wshr 8 imm8 6) 1 in
  let exponent_low := Z.land (wshr 8 imm8 4) 3 in
  let mantissa := Z.land imm8 15 in
  let repeated := if exponent_high =? 1 then 31 else 0 in
  Z.lor (Z.lor (Z.lor (Z.lor
    (wshl 64 sign 31)
    (wshl 64 (wsub 64 1 exponent_high) 30))
    (wshl 64 repeated 25))
    (wshl 64 exponent_low 23))
    (wshl 64 mantissa 19).

(** Each bit of [imm8] becomes a whole byte. *)
Definition expand_byte_mask (imm8 : Z) : Z :=
  foldl (fun expanded bit =>
           if negb (Z.land imm8 (wshl 8 1 bit) =? 0)
           then Z.lor expanded (wshl 64 255 (8 * bit)) else expanded)
    0 [0; 1; 2; 3; 4; 5; 6; 7].

Definition expand_wide_immediate (imm8 cmode : Z) (is_inverted : bool) :
    option (Z * ElemSize) :=
  match Z.land cmode 15, is_inverted with
  | 14, false => Some (imm8, ElemSize.B8)
  | 14, true => Some (expand_byte_mask imm8, ElemSize.D64)
  | 15, false => Some (expand_float32 imm8, ElemSize.S32)
  | _, _ => None
  end.

Definition expand_advsimd_immediate (imm8 cmode : Z) (is_inverted : bool) :
    option (Z * ElemSize) :=
  let value := imm8 in
  match wshr 32 cmode 1 with
  | 0 | 1 | 2 | 3 => Some (wshl 64 value (8 * wshr 32 cmode 1), ElemSize.S32)
  | 4 | 5 => Some (wshl 64 value (8 * Z.land (wshr 32 cmode 1) 1), ElemSize.H16)
  | 6 =>
      let shift := 8 * (Z.land (wshr 32 cmode 1) 1 + 1) in
      Some (Z.lor (wshl 64 value shift) (wsub 64 (wshl 64 1 shift) 1), ElemSize.S32)
  | _ => expand_wide_immediate imm8 cmode is_inverted
  end.

Definition move_immediate (encoding : Z) : may_panic Instruction :=
  let rd := bits encoding 4 0 in
  let cmode := bits encoding 15 12 in
  let is_inverted := bits encoding 29 29 =? 1 in
  let abc := bits encoding 18 16 in
  let defgh := bits encoding 9 5 in
  let imm8 := as_u8 (Z.lor (wshl 32 abc 5) defgh) in
  match expand_advsimd_immediate imm8 cmode is_inverted with
  | None => mret (unallocated encoding)
  | Some (imm, elem) =>
      let op := if is_inverted && negb (cmode =? 14) then Op.Mvni else Op.Movi in
      vd ← vector rd elem (is_quad encoding);
      mret (Instruction.new encoding op (Form.VecImm vd vd imm))
  end.

Definition element_from_immh (immh : Z) : option ElemSize :=
  match immh with
  | 1 => Some ElemSize.B8
  | 2 | 3 => Some ElemSize.H16
  | 4 | 5 | 6 | 7 => Some ElemSize.S32
  | 8 | 9 | 10 | 11 | 12 | 13 | 14 | 15 => Some ElemSize.D64
  | _ => None
  end.

Definition shift_by_immediate (encoding : Z) : may_panic Instruction :=
  let '(rd, rn, _) := fields encoding in
  let immh := bits encoding 22 19 in
  let immb := bits encoding 18 16 in
  match element_from_immh immh with
  | None => mret (unallocated encoding)
  | Some elem =>
      let width := ElemSize.bits elem in
      let encoded := Z.lor (wshl 32 immh 3) immb in
      let is_left := bits encoding 15 11 =? 10 in
      let amount :=
        if is_left then wsub 32 encoded width else wsub 32 (wmul 32 2 width) encoded in
      let op :=
        if is_left then Op.VecShl
        else if bits encoding 29 29 =? 1 then Op.VecUshr else Op.VecSshr in
      if negb is_left && negb (bits encoding 15 11 =? 0) then mret (unallocated encoding) else
      let quad := is_quad encoding in
      vd ← vector rd elem quad;
      vn ← vector rn elem quad;
      mret (Instruction.new encoding op (Form.VecImm vd vn amount))
  end.

Definition immediate_or_shift (encoding : Z) : may_panic Instruction :=
  if bits encoding 22 19 =? 0 then move_immediate encoding else shift_by_immediate encoding.

Definition permute (encoding : Z) : may_panic Instruction :=
  let '(rd, rn, rm) := fields encoding in
  let elem := ElemSize.from_size (as_u8 (bits encoding 23 22)) in
  let quad := is_quad encoding in
  let op :=
    match bits encoding 14 12 with
    | 1 => Some Op.Uzp1
    | 2 => Some Op.Trn1
    | 3 => Some Op.Zip1
    | 5 => Some Op.Uzp2
    | 6 => Some Op.Trn2
    | 7 => Some Op.Zip2
    | _ => None
    end in
  match op with
  | None => mret (unallocated encoding)
  | Some op =>
      if bool_decide (elem = ElemSize.D64) && negb quad then mret (unallocated encoding) else
      vd ← vector rd elem quad;
      vn ← vector rn elem quad;
      vm ← vector rm elem quad;
      mret (Instruction.new encoding op (Form.VecData vd vn (Some vm) None))
  end.

Definition bit21_clear (encoding : Z) : may_panic Instruction :=
  if bits encoding 10 10 =? 1 then copy encoding
  else if bits encoding 11 10 =? 0 then table_lookup encoding
  else if negb (bits encoding 11 10 =? 2) then mret (unallocated encoding)
  else if bits encoding 29 29 =? 1 then
    if negb (bits encoding 23 22 =? 0) then mret (unallocated encoding) else extract encoding
  else permute encoding.

Definition bit21_set (encoding : Z) : may_panic Instruction :=
  let rest :=
    if bits encoding 15 10 =? 7 then three_same_logical encoding
    else if bits encoding 10 10 =? 1 then three_same encoding
    else mret (unallocated encoding) in
  if bits encoding 11 10 =? 2 then
    match bits encoding 20 17 with
    | 8 => across_lanes encoding
    | 0 => two_register encoding
    | _ => rest
    end
  else rest.

Definition data_processing (encoding : Z) : may_panic Instruction :=
  if bits encoding 31 31 =? 1 then mret (unallocated encoding)
  else if bits encoding 28 24 =? 15 then immediate_or_shift encoding
  else if negb (bits encoding 28 24 =? 14) then mret (unallocated encoding)
  else if bits encoding 21 21 =? 0 then bit21_clear encoding
  else bit21_set encoding.

(** ** Every decoder of the group returns a well-formed instruction *)

Lemma vector_ok (e hi lo : Z) (elem : ElemSize) (quad : bool) :
  0 <= lo -> lo <= hi < 32 -> hi - lo = 4 -> elem <> ElemSize.Q128 ->
  returns (vector (bits e hi lo) elem quad) operand_ok.
Proof.
  intros ??? Helem. unfold vector. eapply returns_bind; [apply vec_field; assumption |].
  intros r Hr. apply returns_ret. split; [exact Hr |]. apply simd_loads_stores.lanes_fill, Helem.
Qed.

Lemma element_ok (e hi lo : Z) (elem : ElemSize) (lane : Z) :
  0 <= lo -> lo <= hi < 32 -> hi - lo = 4 -> shape_ok (VecShape.Element elem lane) ->
  returns (element (bits e hi lo) elem lane) operand_ok.
Proof.
  intros ??? Hs. unfold element. eapply returns_bind; [apply vec_field; assumption |].
  intros r Hr. apply returns_ret. split; [exact Hr | exact Hs].
Qed.

Ltac not_q :=
  first [ discriminate | apply simd_loads_stores.from_size_not_q | assumption ].

#[local] Hint Extern 1 (returns (vector (bits _ _ _) _ _) _) =>
  apply vector_ok; [lia | lia | lia | not_q] : coracle.
#[local] Hint Extern 1 (returns (element (bits _ _ _) _ _) _) =>
  apply element_ok; [lia | lia | lia | assumption] : coracle.

Ltac neon_solve f := unfold f, fields; decode_solve f.

Lemma three_same_logical_ok (e : Z) : returns (three_same_logical e) (decoded_ok e).
Proof. neon_solve three_same_logical. Qed.

Lemma three_same_op_ok (opcode : Z) (b : bool) (op : Op) :
  three_same_op opcode b = Some op -> op_has_layout op LVecData = true.
Proof.
  unfold three_same_op. intros H. cbv zeta in H. destruct b; case_match_hyps; reflexivity.
Qed.

Lemma three_same_ok (e : Z) : returns (three_same e) (decoded_ok e).
Proof.
  unfold three_same, fields. cbv zeta.
  destruct (three_same_op _ _) as [op |] eqn:E; [| apply returns_unallocated].
  apply three_same_op_ok in E. repeat decode_step.
  split; [reflexivity | form_split; assumption || exact I | exact E].
Qed.

Lemma across_lanes_ok (e : Z) : returns (across_lanes e) (decoded_ok e).
Proof. neon_solve across_lanes; split; assumption || exact I. Qed.

(** A lane number is in the register it addresses. *)

Definition lane_check (elem : ElemSize) (lane : Z) : bool :=
  bool_decide (elem <> ElemSize.Q128) && ((0 <=? lane) && (lane <? 128 / ElemSize.bits elem)).

Lemma lane_check_sound (elem : ElemSize) (lane : Z) :
  lane_check elem lane = true -> shape_ok (VecShape.Element elem lane).
Proof.
  unfold lane_check. intros H. apply andb_prop in H as [He Hl].
  split; [exact (bool_decide_eq_true_1 _ He) | lia].
Qed.

Lemma lane_from_imm5_ok (imm5 : Z) (elem : ElemSize) (lane : Z) :
  0 <= imm5 < 32 -> lane_from_imm5 imm5 = Some (elem, lane) ->
  shape_ok (VecShape.Element elem lane).
Proof.
  intros Hi E. apply lane_check_sound.
  assert (forall_below 32 (fun imm5 =>
    match lane_from_imm5 imm5 with Some (elem, lane) => lane_check elem lane | None => true end)
    = true) as C by reflexivity.
  apply (fun C => forall_below_spec _ _ C imm5 Hi) in C. cbv beta in C. rewrite E in C. exact C.
Qed.

Lemma source_lane_ok (imm4 : Z) (elem : ElemSize) :
  0 <= imm4 < 16 -> elem <> ElemSize.Q128 ->
  shape_ok (VecShape.Element elem (as_u8 (wshr 32 imm4 (ElemSize.as_Z elem)))).
Proof.
  intros Hi He. apply lane_check_sound.
  assert (forall_below 16 (fun imm4 =>
    bool_decide (elem = ElemSize.Q128) ||
    lane_check elem (as_u8 (wshr 32 imm4 (ElemSize.as_Z elem)))) = true) as C
    by (destruct elem; reflexivity).
  apply (fun C => forall_below_spec _ _ C imm4 Hi) in C. cbv beta in C.
  rewrite bool_decide_false in C by exact He. exact C.
Qed.

Lemma shape_not_q (elem : ElemSize) (lane : Z) :
  shape_ok (VecShape.Element elem lane) -> elem <> ElemSize.Q128.
Proof. intros [H _]. exact H. Qed.

Section copies.

Context (e : Z) (elem : ElemSize) (lane : Z).
Context (Hshape : shape_ok (VecShape.Element elem lane)).

Lemma duplicate_from_gpr_ok : returns (duplicate_from_gpr e elem) (decoded_ok e).
Proof. pose proof (shape_not_q _ _ Hshape). neon_solve duplicate_from_gpr. Qed.

Lemma duplicate_from_element_ok : returns (duplicate_from_element e elem lane) (decoded_ok e).
Proof. pose proof (shape_not_q _ _ Hshape). neon_solve duplicate_from_element. Qed.

Lemma insert_from_gpr_ok : returns (insert_from_gpr e elem lane) (decoded_ok e).
Proof. neon_solve insert_from_gpr. Qed.

Lemma move_to_gpr_ok (b : bool) : returns (move_to_gpr e elem lane b) (decoded_ok e).
Proof. neon_solve move_to_gpr. Qed.

End copies.

Lemma insert_element_ok (e : Z) : returns (insert_element e) (decoded_ok e).
Proof.
  unfold insert_element, fields. cbv zeta.
  destruct (lane_from_imm5 _) as [[elem lane] |] eqn:E; [| apply returns_unallocated].
  apply lane_from_imm5_ok in E; [| apply (bits_range e 20 16); lia].
  pose proof (source_lane_ok (bits e 14 11) elem (bits_range e 14 11 ltac:(lia) ltac:(lia) ltac:(lia))
                (shape_not_q _ _ E)).
  repeat decode_step. decoded_split; form_split; assumption || exact I.
Qed.

Lemma copy_ok (e : Z) : returns (copy e) (decoded_ok e).
Proof.
  unfold copy. cbv zeta.
  destruct (lane_from_imm5 _) as [[elem lane] |] eqn:E; [| apply returns_unallocated].
  apply lane_from_imm5_ok in E; [| apply (bits_range e 20 16); lia].
  destruct (bits e 29 29 =? 1); [apply insert_element_ok |].
  destruct_matches;
    first [ apply returns_unallocated | apply (duplicate_from_element_ok e elem lane E)
          | apply (duplicate_from_gpr_ok e elem lane E) | apply (insert_from_gpr_ok e elem lane E)
          | apply (move_to_gpr_ok e elem lane E) ].
Qed.

Lemma table_lookup_ok (e : Z) : returns (table_lookup e) (decoded_ok e).
Proof.
  neon_solve table_lookup. unfold wadd. rewrite wrap_small by (split; lia). lia.
Qed.

Lemma neon_extract_ok (e : Z) : returns (extract e) (decoded_ok e).
Proof. neon_solve extract. Qed.

Lemma two_register_ok (e : Z) : returns (two_register e) (decoded_ok e).
Proof.
  unfold two_register, fields. cbv zeta.
  destruct (match bits e 16 12 with 0 => _ | _ => _ end) as [op |] eqn:E;
    [| apply returns_unallocated].
  assert (op_has_layout op LVecData = true) as Hop by (case_match_hyps; reflexivity).
  assert (match op with Op.VecNot | Op.VecCnt => ElemSize.B8
          | _ => ElemSize.from_size (as_u8 (bits e 23 22)) end <> ElemSize.Q128) as Hq
    by (destruct op; not_q).
  repeat decode_step.
  split; [reflexivity | form_split; assumption || exact I | exact Hop].
Qed.

Lemma expand_byte_mask_range (imm8 : Z) : in_range 64 (expand_byte_mask imm8).
Proof.
  unfold expand_byte_mask.
  assert (forall l acc, in_range 64 acc ->
    in_range 64 (foldl (fun expanded bit =>
      if negb (Z.land imm8 (wshl 8 1 bit) =? 0)
      then Z.lor expanded (wshl 64 255 (8 * bit)) else expanded) acc l)) as H.
  { induction l as [| bit l IH]; intros acc Hacc; [exact Hacc |]. cbn [foldl]. apply IH.
    destruct (negb _); [| exact Hacc]. apply in_range_lor; [lia | exact Hacc |].
    apply wrap_range. lia. }
  apply H. split; lia.
Qed.

Lemma expand_advsimd_immediate_ok (imm8 cmode imm : Z) (b : bool) (elem : ElemSize) :
  in_range 8 imm8 -> expand_advsimd_immediate imm8 cmode b = Some (imm, elem) ->
  in_range 64 imm /\ elem <> ElemSize.Q128.
Proof.
  intros Hi. unfold expand_advsimd_immediate, expand_wide_immediate.
  assert (forall x n, in_range 64 (wshl 64 x n)) as Hshl by (intros; apply wrap_range; lia).
  assert (in_range 64 imm8) as H64 by (apply in_range_weaken with 8; [lia | exact Hi]).
  assert (in_range 64 (expand_float32 imm8)) as Hf
    by (unfold expand_float32; repeat apply in_range_lor; first [lia | apply Hshl]).
  pose proof (expand_byte_mask_range imm8) as Hb.
  assert (forall x y, in_range 64 (Z.lor (wshl 64 x y) (wsub 64 (wshl 64 1 y) 1))) as Hm
    by (intros; apply in_range_lor; [lia | apply Hshl | apply wrap_range; lia]).
  intros H. case_match_hyps; (split; [| discriminate]); auto.
Qed.

Lemma neon_move_immediate_ok (e : Z) : returns (move_immediate e) (decoded_ok e).
Proof.
  unfold move_immediate. cbv zeta.
  destruct (expand_advsimd_immediate _ _ _) as [[imm elem] |] eqn:E; [| apply returns_unallocated].
  apply expand_advsimd_immediate_ok in E as [Hi He]; [| apply wrap_range; lia].
  repeat decode_step. decoded_split; form_split; assumption || exact I.
Qed.

Lemma element_from_immh_not_q (immh : Z) (elem : ElemSize) :
  element_from_immh immh = Some elem -> elem <> ElemSize.Q128.
Proof. unfold element_from_immh. intros H. case_match_hyps; discriminate. Qed.

Lemma shift_by_immediate_ok (e : Z) : returns (shift_by_immediate e) (decoded_ok e).
Proof.
  unfold shift_by_immediate, fields. cbv zeta.
  destruct (element_from_immh _) as [elem |] eqn:E; [| apply returns_unallocated].
  apply element_from_immh_not_q in E. repeat decode_step.
  decoded_split; form_split; try assumption; try exact I.
  apply in_range_weaken with 32; [lia |]. destruct (_ =? 10); apply wrap_range; lia.
Qed.

Lemma permute_ok (e : Z) : returns (permute e) (decoded_ok e).
Proof. neon_solve permute. Qed.

#[export] Hint Resolve three_same_logical_ok three_same_ok across_lanes_ok copy_ok
  table_lookup_ok neon_extract_ok two_register_ok neon_move_immediate_ok shift_by_immediate_ok
  permute_ok : coracle.

Lemma bit21_clear_ok (e : Z) : returns (bit21_clear e) (decoded_ok e).
Proof. decode_open bit21_clear. Qed.

Lemma bit21_set_ok (e : Z) : returns (bit21_set e) (decoded_ok e).
Proof. decode_open bit21_set. Qed.

Lemma immediate_or_shift_ok (e : Z) : returns (immediate_or_shift e) (decoded_ok e).
Proof. decode_open immediate_or_shift. Qed.

#[export] Hint Resolve bit21_clear_ok bit21_set_ok immediate_or_shift_ok : coracle.

Lemma neon_data_processing_ok (e : Z) : returns (data_processing e) (decoded_ok e).
Proof. decode_open data_processing. Qed.

End neon.

#[export] Hint Resolve neon.neon_data_processing_ok : coracle.
