(* ===== verification/Decode.v ===== *)
(** The decoder's entry point ([crates/core/src/decode/mod.rs] and
    [decode/group/simd_fp/mod.rs]), and its totality. *)

From stdpp Require Import base numbers list option.
From S2P Require Import Prelude Reg Operand Op Instruction Group DpImmediate DpRegister.
From S2P Require Import BranchSystem LoadsStores SimdLoadsStores Scalar Neon.

#[local] Open Scope Z_scope.

(** Bytes occupied by one instruction. *)
Definition INSN_BYTES : Z := 4.

Module EncodingGroup.

Inductive EncodingGroup : Type :=
| Reserved
| Sve
| DataProcessingImmediate
| BranchesExceptionsSystem
| LoadsAndStores
| DataProcessingRegister
| DataProcessingSimdFp
| Unallocated.

Definition of_ (encoding : Z) : EncodingGroup :=
  let op0 := Z.land (wshr 32 encoding 25) 15 in
  match op0 with
  | 0 => Reserved
  | 1 | 3 => Unallocated
  | 2 => Sve
  | 8 | 9 => DataProcessingImmediate
  | 10 | 11 => BranchesExceptionsSystem
  | 4 | 6 | 12 | 14 => LoadsAndStores
  | 5 | 13 => DataProcessingRegister
  | _ => DataProcessingSimdFp
  end.

End EncodingGroup.

Abbreviation EncodingGroup := EncodingGroup.EncodingGroup.

Definition data_processing_simd_fp (encoding : Z) : may_panic Instruction :=
  if bits encoding 28 28 =? 1 then scalar_fp.data_processing encoding
  else neon.data_processing encoding.

Definition decode (encoding : Z) : may_panic Instruction :=
  match EncodingGroup.of_ encoding with
  | EncodingGroup.DataProcessingImmediate => data_processing_immediate encoding
  | EncodingGroup.BranchesExceptionsSystem => branches_exceptions_system encoding
  | EncodingGroup.LoadsAndStores =>
      if Z.land (wshr 32 encoding 26) 1 =? 1
      then simd_loads_stores.loads_and_stores_vec encoding
      else loads_stores.loads_and_stores encoding
  | EncodingGroup.DataProcessingRegister => data_processing_register encoding
  | EncodingGroup.DataProcessingSimdFp => data_processing_simd_fp encoding
  | EncodingGroup.Sve | EncodingGroup.Reserved | EncodingGroup.Unallocated =>
      mret (unallocated encoding)
  end.

Lemma data_processing_simd_fp_ok (e : Z) : returns (data_processing_simd_fp e) (decoded_ok e).
Proof. decode_open data_processing_simd_fp. Qed.

#[export] Hint Resolve data_processing_simd_fp_ok : coracle.

(** What the interpreter uses: [decode] returns, and returns a well-formed
    instruction. *)
Lemma decode_returns (e : Z) : returns (decode e) (decoded_ok e).
Proof. decode_open decode. Qed.

Lemma decode_returns_eq (e : Z) : returns (decode e) (fun i => decode e = Done i).
Proof. destruct (decode_returns e) as (i & Hi & _). exists i. split; exact Hi. Qed.

Lemma decode_done_ok (e : Z) (i : Instruction) : decode e = Done i -> decoded_ok e i.
Proof. intros H. pose proof (decode_returns e) as R. rewrite H in R. exact (returns_done_inv _ _ R). Qed.

#[export] Hint Resolve decode_returns : coracle.

(** The group is a function of bits 28..25 alone. *)
Lemma group_of_bits (e : Z) : EncodingGroup.of_ e = EncodingGroup.of_ (wshl 32 (bits e 28 25) 25).
Proof.
  assert (Z.land (wshr 32 e 25) 15 = bits e 28 25) as E.
  { rewrite bits_spec by lia. rewrite wshr_div by lia. change 15 with (Z.ones 4).
    rewrite Z.land_ones by lia. reflexivity. }
  pose proof (bits_range e 28 25 ltac:(lia) ltac:(lia) ltac:(lia)) as Hr.
  assert (forall_below 16 (fun b => Z.land (wshr 32 (wshl 32 b 25) 25) 15 =? b) = true) as C
    by reflexivity.
  apply (fun C => forall_below_spec _ _ C _ Hr) in C. apply Z.eqb_eq in C.
  unfold EncodingGroup.of_. rewrite C, E. reflexivity.
Qed.
