(* ===== verification/Assembler.v ===== *)
(** An assembler for the instructions the interpreter implements, and the round
    trip with the decoder.

    The encodings are the architecture's, given field by field; [meaning] is the
    decoded instruction the interpreter is to execute. *)

From stdpp Require Import base numbers list option.
From S2P Require Import Prelude Reg Operand Op Instruction Group DpImmediate DpRegister.
From S2P Require Import BranchSystem LoadsStores Decode.

#[local] Open Scope Z_scope.

(** Register fields: 31 is the zero register, or the stack pointer. *)
Definition zr (n : Z) : Gpr := if n =? 31 then Gpr.ZR else Gpr.X n.
Definition sp (n : Z) : Gpr := if n =? 31 then Gpr.SP else Gpr.X n.

Definition sf (w : RegWidth) : Z := match w with RegWidth.X64 => 1 | RegWidth.W32 => 0 end.

Definition reg_field (n : Z) : Prop := 0 <= n < 32.

Lemma as_u8_reg (n : Z) : reg_field n -> as_u8 n = n.
Proof. intros H. apply wrap_small. split; [apply H | unfold reg_field in H; lia]. Qed.

Lemma zr_of_field (n : Z) : reg_field n -> Gpr.from_index_zr (as_u8 n) = Done (zr n).
Proof.
  intros H. rewrite as_u8_reg by exact H. unfold Gpr.from_index_zr.
  destruct (Z.ltb_spec n 32); [reflexivity | unfold reg_field in H; lia].
Qed.

Lemma sp_of_field (n : Z) : reg_field n -> Gpr.from_index_sp (as_u8 n) = Done (sp n).
Proof.
  intros H. rewrite as_u8_reg by exact H. unfold Gpr.from_index_sp.
  destruct (Z.ltb_spec n 32); [reflexivity | unfold reg_field in H; lia].
Qed.

(** The group of a word, by its bits 28..25. *)
Lemma group_bits (e : Z) :
  EncodingGroup.of_ e =
  match bits e 28 25 with
  | 0 => EncodingGroup.Reserved
  | 1 | 3 => EncodingGroup.Unallocated
  | 2 => EncodingGroup.Sve
  | 8 | 9 => EncodingGroup.DataProcessingImmediate
  | 10 | 11 => EncodingGroup.BranchesExceptionsSystem
  | 4 | 6 | 12 | 14 => EncodingGroup.LoadsAndStores
  | 5 | 13 => EncodingGroup.DataProcessingRegister
  | _ => EncodingGroup.DataProcessingSimdFp
  end.
Proof.
  unfold EncodingGroup.of_. rewrite bits_spec by lia. rewrite wshr_div by lia.
  change 15 with (Z.ones 4). rewrite Z.land_ones by lia. reflexivity.
Qed.

(** ** Fields of a word given as a sum of fields *)

Definition bit (b : Z) : Prop := 0 <= b < 2.

Lemma sf_bit (w : RegWidth) : bit (sf w).
Proof. destruct w; split; cbn; lia. Qed.

Lemma b2z_bit (b : bool) : bit (b2z b).
Proof. destruct b; split; cbn; lia. Qed.

Lemma from_sf_eq (w : RegWidth) : RegWidth.from_sf (sf w =? 1) = w.
Proof. destruct w; reflexivity. Qed.

Lemma b2z_eq (b : bool) : (b2z b =? 1) = b.
Proof. destruct b; reflexivity. Qed.

(** The ranges of the fields of a word. *)
Ltac field_ranges :=
  unfold reg_field, bit in *;
  repeat match goal with
  | |- context [sf ?w] =>
      lazymatch goal with H : 0 <= sf w < 2 |- _ => fail | _ => pose proof (sf_bit w : 0 <= sf w < 2) end
  | |- context [b2z ?b] =>
      lazymatch goal with H : 0 <= b2z b < 2 |- _ => fail | _ => pose proof (b2z_bit b : 0 <= b2z b < 2) end
  end.

(** Replaces [bits e hi lo] by the field [v] it is. *)
Ltac field e hi lo v :=
  let H := fresh in
  assert (bits e hi lo = v) as H
    by (unfold e; field_ranges; rewrite bits_spec by lia; Z.div_mod_to_equations; lia);
  rewrite !H; clear H.

(** Register fields, and the flags that are themselves fields. *)
Ltac fields_done :=
  rewrite ?from_sf_eq, ?b2z_eq, ?zr_of_field, ?sp_of_field by assumption;
  cbn [mbind may_panic_bind].

Definition flagged (b : bool) (i : Instruction) : Instruction :=
  if b then Instruction.setting_flags i else i.

(** ** Data processing *)

(** ADD, ADDS, SUB, SUBS (immediate). *)
Definition add_sub_imm (w : RegWidth) (sub s sh : bool) (imm12 rn rd : Z) : Z :=
  sf w * 2 ^ 31 + b2z sub * 2 ^ 30 + b2z s * 2 ^ 29 + 34 * 2 ^ 23 + b2z sh * 2 ^ 22 +
  imm12 * 2 ^ 10 + rn * 2 ^ 5 + rd.

Definition sum_op (sub : bool) : Op := if sub then Op.Sub else Op.Add.

Lemma decode_add_sub_imm (w : RegWidth) (sub s sh : bool) (imm12 rn rd : Z) :
  0 <= imm12 < 2 ^ 12 -> reg_field rn -> reg_field rd ->
  let e := add_sub_imm w sub s sh imm12 rn rd in
  decode e =
  Done (flagged s (Instruction.with_width
    (Instruction.new e (sum_op sub)
       (Form.RegImm (if s then zr rd else sp rd) (sp rn)
          (imm12 * if sh then 2 ^ 12 else 1))) w)).
Proof.
  intros Hi Hn Hd e. unfold decode. rewrite group_bits. unfold add_sub_imm in e.
  field e 28 25 8. unfold data_processing_immediate. field e 25 23 2. unfold add_sub_immediate.
  field e 23 22 (b2z sh). field e 21 10 imm12. field e 30 30 (b2z sub). field e 29 29 (b2z s).
  field e 4 0 rd. field e 9 5 rn. field e 31 31 (sf w). fields_done.
  assert (wshl 64 imm12 12 = imm12 * 2 ^ 12) as -> by (rewrite wshl_small; unfold in_range; lia).
  destruct sh, s, sub; cbn; rewrite ?zr_of_field, ?sp_of_field, ?Z.mul_1_r by assumption; reflexivity.
Qed.

(** AND, ORR, EOR, ANDS (immediate). *)
Definition logical_imm (w : RegWidth) (opc n immr imms rn rd : Z) : Z :=
  sf w * 2 ^ 31 + opc * 2 ^ 29 + 36 * 2 ^ 23 + n * 2 ^ 22 + immr * 2 ^ 16 + imms * 2 ^ 10 +
  rn * 2 ^ 5 + rd.

Definition logical_op (opc : Z) : Op :=
  match opc with 0 | 3 => Op.And | 1 => Op.Orr | _ => Op.Eor end.

Lemma decode_logical_imm (w : RegWidth) (opc n immr imms rn rd imm : Z) :
  0 <= opc < 4 -> bit n -> 0 <= immr < 64 -> 0 <= imms < 64 -> reg_field rn -> reg_field rd ->
  decode_bit_masks n immr imms w = Some imm ->
  let e := logical_imm w opc n immr imms rn rd in
  decode e =
  Done (flagged (opc =? 3) (Instruction.with_width
    (Instruction.new e (logical_op opc)
       (Form.RegImm (if opc =? 3 then zr rd else sp rd) (zr rn) imm)) w)).
Proof.
  intros Ho Hnb Hr Hs Hn Hd Hm e. unfold decode. rewrite group_bits. unfold logical_imm in e.
  assert (w = RegWidth.W32 -> n = 0) as Hw.
  { intros ->. destruct (Z.eq_dec n 0) as [| Hn1]; [assumption | exfalso].
    assert (n = 1) as -> by (unfold bit in Hnb; lia).
    pose proof (decode_bit_masks_promise 1 immr imms RegWidth.W32 ltac:(lia) Hr Hs) as P.
    unfold bit_masks_promise, element_size in P. cbn [Z.eqb RegWidth.bits] in P.
    cbn in P. congruence. }
  field e 28 25 9. unfold data_processing_immediate. field e 25 23 4. unfold logical_immediate.
  field e 31 31 (sf w). field e 22 22 n. field e 21 16 immr. field e 15 10 imms.
  field e 30 29 opc. field e 4 0 rd. field e 9 5 rn. fields_done.
  assert (as_u8 n = n) as -> by (apply wrap_small; unfold bit in Hnb; split; lia).
  assert (as_u8 immr = immr) as -> by (apply wrap_small; split; lia).
  assert (as_u8 imms = imms) as -> by (apply wrap_small; split; lia).
  assert (bool_decide (w = RegWidth.W32) && (n =? 1) = false) as ->.
  { destruct (decide (w = RegWidth.W32)) as [E |]; [rewrite (Hw E); apply andb_false_r |].
    rewrite bool_decide_false by assumption. reflexivity. }
  rewrite Hm. unfold logical_op.
  destruct (Z.eqb_spec opc 3); fields_done; reflexivity.
Qed.

(** The 2-bit code of a shift. *)
Definition shift_code (k : ShiftKind) : Z :=
  match k with ShiftKind.Lsl => 0 | ShiftKind.Lsr => 1 | ShiftKind.Asr => 2 | ShiftKind.Ror => 3 end.

Lemma shift_code_range (k : ShiftKind) : 0 <= shift_code k < 4.
Proof. destruct k; cbn; lia. Qed.

Lemma shift_kind_code (k : ShiftKind) : shift_kind (shift_code k) = k.
Proof. destruct k; reflexivity. Qed.

(** A shift amount that the decoder's W-form guard accepts. *)
Lemma amount_guard (w : RegWidth) (n : Z) :
  0 <= n < RegWidth.bits w ->
  bool_decide (w = RegWidth.W32) && negb (Z.land (as_u8 n) 32 =? 0) = false /\ as_u8 n = n.
Proof.
  intros Hn. assert (as_u8 n = n) as E by (apply wrap_small; destruct w; cbn in Hn; split; lia).
  split; [| exact E]. rewrite E. destruct w; cbn in Hn |- *; [| reflexivity].
  assert (forall_below 32 (fun n => Z.land n 32 =? 0) = true) as C by reflexivity.
  rewrite (forall_below_spec _ _ C n Hn). reflexivity.
Qed.

(** ADD, ADDS, SUB, SUBS (shifted register). *)
Definition add_sub_shifted_word (w : RegWidth) (sub s : bool) (kind : ShiftKind)
    (rm amount rn rd : Z) : Z :=
  sf w * 2 ^ 31 + b2z sub * 2 ^ 30 + b2z s * 2 ^ 29 + 11 * 2 ^ 24 + shift_code kind * 2 ^ 22 +
  rm * 2 ^ 16 + amount * 2 ^ 10 + rn * 2 ^ 5 + rd.

Lemma decode_add_sub_shifted (w : RegWidth) (sub s : bool) (kind : ShiftKind)
    (rm amount rn rd : Z) :
  kind <> ShiftKind.Ror -> reg_field rm -> 0 <= amount < RegWidth.bits w ->
  reg_field rn -> reg_field rd ->
  let e := add_sub_shifted_word w sub s kind rm amount rn rd in
  decode e =
  Done (flagged s (Instruction.with_width
    (Instruction.new e (sum_op sub)
       (Form.RegShifted (zr rd) (zr rn) (ShiftedReg.mk (zr rm) kind amount))) w)).
Proof.
  intros Hk Hm Ha Hn Hd e. unfold decode. rewrite group_bits. unfold add_sub_shifted_word in e.
  pose proof (shift_code_range kind). pose proof (width_bits_le w).
  destruct (amount_guard w amount Ha) as [Hg Hamt].
  field e 28 25 5. unfold data_processing_register. field e 28 28 0.
  assert (bits e 24 21 = 8 + 2 * shift_code kind) as ->
    by (unfold e; field_ranges; rewrite bits_spec by lia; Z.div_mod_to_equations; lia).
  assert (forall A (x y z t : A), match 0, 8 + 2 * shift_code kind with
    | 0, (0 | 1 | 2 | 3 | 4 | 5 | 6 | 7) => x
    | 0, (8 | 10 | 12 | 14) => y
    | 0, (9 | 11 | 13 | 15) => z
    | _, _ => t end = y) as Hsel by (intros; destruct kind; reflexivity).
  assert (add_sub_shifted e = Done (flagged s (Instruction.with_width
    (Instruction.new e (sum_op sub)
       (Form.RegShifted (zr rd) (zr rn) (ShiftedReg.mk (zr rm) kind amount))) w))) as Hdec;
    [| destruct kind; exact Hdec].
  unfold add_sub_shifted, finish_arithmetic.
  field e 31 31 (sf w). field e 23 22 (shift_code kind). field e 15 10 amount.
  field e 4 0 rd. field e 9 5 rn. field e 20 16 rm. field e 30 30 (b2z sub). field e 29 29 (b2z s).
  fields_done. rewrite Hg, Hamt, shift_kind_code.
  assert ((shift_code kind =? 3) = false) as -> by (destruct kind; congruence || reflexivity).
  reflexivity.
Qed.

(** AND, BIC, ORR, ORN, EOR, EON, ANDS, BICS (shifted register). *)
Definition logical_shifted_word (w : RegWidth) (opc : Z) (kind : ShiftKind) (neg : bool)
    (rm amount rn rd : Z) : Z :=
  sf w * 2 ^ 31 + opc * 2 ^ 29 + 10 * 2 ^ 24 + shift_code kind * 2 ^ 22 + b2z neg * 2 ^ 21 +
  rm * 2 ^ 16 + amount * 2 ^ 10 + rn * 2 ^ 5 + rd.

Definition logical_register_op (opc : Z) (neg : bool) : Op :=
  match opc with
  | 0 | 3 => if neg then Op.Bic else Op.And
  | 1 => if neg then Op.Orn else Op.Orr
  | _ => if neg then Op.Eon else Op.Eor
  end.

Lemma decode_logical_shifted (w : RegWidth) (opc : Z) (kind : ShiftKind) (neg : bool)
    (rm amount rn rd : Z) :
  0 <= opc < 4 -> reg_field rm -> 0 <= amount < RegWidth.bits w -> reg_field rn -> reg_field rd ->
  let e := logical_shifted_word w opc kind neg rm amount rn rd in
  decode e =
  Done (flagged (opc =? 3) (Instruction.with_width
    (Instruction.new e (logical_register_op opc neg)
       (Form.RegShifted (zr rd) (zr rn) (ShiftedReg.mk (zr rm) kind amount))) w)).
Proof.
  intros Ho Hm Ha Hn Hd e. unfold decode. rewrite group_bits. unfold logical_shifted_word in e.
  pose proof (shift_code_range kind). pose proof (width_bits_le w).
  destruct (amount_guard w amount Ha) as [Hg Hamt].
  field e 28 25 5. unfold data_processing_register. field e 28 28 0.
  assert (bits e 24 21 = 2 * shift_code kind + b2z neg) as ->
    by (unfold e; field_ranges; rewrite bits_spec by lia; Z.div_mod_to_equations; lia).
  assert (logical_shifted e = Done (flagged (opc =? 3) (Instruction.with_width
    (Instruction.new e (logical_register_op opc neg)
       (Form.RegShifted (zr rd) (zr rn) (ShiftedReg.mk (zr rm) kind amount))) w))) as Hdec;
    [| destruct kind, neg; exact Hdec].
  unfold logical_shifted.
  field e 31 31 (sf w). field e 23 22 (shift_code kind). field e 15 10 amount. field e 30 29 opc.
  field e 21 21 (b2z neg). field e 4 0 rd. field e 9 5 rn. field e 20 16 rm.
  fields_done. rewrite Hg, Hamt, shift_kind_code.
  assert (opc = 0 \/ opc = 1 \/ opc = 2 \/ opc = 3) as [-> | [-> | [-> | ->]]] by lia;
    destruct neg; reflexivity.
Qed.

(** The 3-bit code of an extension. *)
Definition extend_code (k : ExtendKind) : Z :=
  match k with
  | ExtendKind.Uxtb => 0 | ExtendKind.Uxth => 1 | ExtendKind.Uxtw => 2 | ExtendKind.Uxtx => 3
  | ExtendKind.Sxtb => 4 | ExtendKind.Sxth => 5 | ExtendKind.Sxtw => 6 | ExtendKind.Sxtx => 7
  end.

Lemma extend_code_range (k : ExtendKind) : 0 <= extend_code k < 8.
Proof. destruct k; cbn; lia. Qed.

Lemma from_option_code (k : ExtendKind) : ExtendKind.from_option (as_u8 (extend_code k)) = k.
Proof. destruct k; reflexivity. Qed.

(** ADD, ADDS, SUB, SUBS (extended register). *)
Definition add_sub_extended_word (w : RegWidth) (sub s : bool) (kind : ExtendKind)
    (rm amount rn rd : Z) : Z :=
  sf w * 2 ^ 31 + b2z sub * 2 ^ 30 + b2z s * 2 ^ 29 + 89 * 2 ^ 21 + rm * 2 ^ 16 +
  extend_code kind * 2 ^ 13 + amount * 2 ^ 10 + rn * 2 ^ 5 + rd.

Lemma decode_add_sub_extended (w : RegWidth) (sub s : bool) (kind : ExtendKind)
    (rm amount rn rd : Z) :
  reg_field rm -> 0 <= amount <= 4 -> reg_field rn -> reg_field rd ->
  let e := add_sub_extended_word w sub s kind rm amount rn rd in
  decode e =
  Done (flagged s (Instruction.with_width
    (Instruction.new e (sum_op sub)
       (Form.RegExtended (if s then zr rd else sp rd) (sp rn)
          (ExtendedReg.mk (zr rm) kind amount))) w)).
Proof.
  intros Hm Ha Hn Hd e. unfold decode. rewrite group_bits. unfold add_sub_extended_word in e.
  pose proof (extend_code_range kind).
  assert (as_u8 amount = amount) as Hamt by (apply wrap_small; split; lia).
  field e 28 25 5. unfold data_processing_register. field e 28 28 0. field e 24 21 9.
  unfold add_sub_extended, finish_arithmetic.
  field e 31 31 (sf w). field e 12 10 amount. field e 23 22 0. field e 29 29 (b2z s).
  field e 4 0 rd. field e 9 5 rn. field e 20 16 rm. field e 15 13 (extend_code kind).
  field e 30 30 (b2z sub). fields_done. rewrite Hamt, from_option_code.
  destruct (Z.ltb_spec 4 amount); [lia |].
  destruct s; fields_done; reflexivity.
Qed.

(** ** Branches and exceptions *)

(** A signed offset as the [n]-bit word count an instruction holds. *)
Definition word_offset (n offset : Z) : Z := (offset / 4) mod 2 ^ n.

Lemma word_offset_back (n offset : Z) :
  0 < n <= 26 -> offset mod 4 = 0 -> - 2 ^ (n + 1) <= offset < 2 ^ (n + 1) ->
  imul64 (sign_extend (word_offset n offset) n) 4 = offset.
Proof.
  intros Hn H4 Ho. rewrite sign_extend_spec by lia. unfold word_offset.
  fold (wrap n (offset / 4)).
  assert (to_signed n (wrap n (offset / 4)) = offset / 4) as ->.
  { assert (to_signed n (wrap n (offset / 4)) = to_signed n (offset / 4)) as ->
      by (unfold to_signed; rewrite wrap_wrap; reflexivity).
    unfold to_signed, wrap.
    assert (2 ^ (n + 1) = 4 * 2 ^ (n - 1)) as E1
      by (replace (n + 1) with (n - 1 + 2) by lia; rewrite Z.pow_add_r by lia; lia).
    assert (2 ^ n = 2 * 2 ^ (n - 1)) as E2
      by (replace n with (n - 1 + 1) at 1 by lia; rewrite Z.pow_add_r by lia; lia).
    assert (- 2 ^ (n - 1) <= offset / 4 < 2 ^ (n - 1)) as Hd
      by (Z.div_mod_to_equations; lia).
    rewrite E2. pose proof (pow2_pos (n - 1) ltac:(lia)).
    set (h := 2 ^ (n - 1)) in *. set (q := offset / 4) in *.
    destruct (Z.ltb_spec q 0).
    - replace (q mod (2 * h)) with (q + 2 * h) by (apply (Z.mod_unique_pos _ _ (-1)); lia).
      destruct (Z.ltb_spec (q + 2 * h) h); lia.
    - rewrite (Z.mod_small q) by lia. destruct (Z.ltb_spec q h); lia. }
  assert (2 ^ (n + 1) <= 2 ^ 27) by (apply Z.pow_le_mono_r; lia).
  rewrite imul64_small; Z.div_mod_to_equations; lia.
Qed.

Lemma word_offset_range (n offset : Z) : 0 <= n -> 0 <= word_offset n offset < 2 ^ n.
Proof. intros Hn. apply Z.mod_pos_bound, pow2_pos, Hn. Qed.

(** B, BL. *)
Definition branch_word (link : bool) (offset : Z) : Z :=
  b2z link * 2 ^ 31 + 5 * 2 ^ 26 + word_offset 26 offset.

Lemma decode_branch (link : bool) (offset : Z) :
  offset mod 4 = 0 -> - 2 ^ 27 <= offset < 2 ^ 27 ->
  let e := branch_word link offset in
  decode e = Done (Instruction.new e (if link then Op.Bl else Op.B) (Form.Branch offset)).
Proof.
  intros H4 Ho e. pose proof (word_offset_back 26 offset ltac:(lia) H4 Ho) as Hback.
  pose proof (word_offset_range 26 offset ltac:(lia)) as Hw.
  unfold decode. rewrite group_bits. unfold branch_word in e.
  set (i := word_offset 26 offset) in *. clearbody i.
  assert (bits e 28 25 = 10 \/ bits e 28 25 = 11) as Hg
    by (unfold e; field_ranges; rewrite bits_spec by lia; Z.div_mod_to_equations; lia).
  assert (branches_exceptions_system e =
    Done (Instruction.new e (if link then Op.Bl else Op.B) (Form.Branch offset))) as Hdec;
    [| destruct Hg as [-> | ->]; exact Hdec].
  unfold branches_exceptions_system.
  assert (bits e 31 29 = 4 * b2z link) as ->
    by (unfold e; field_ranges; rewrite bits_spec by lia; Z.div_mod_to_equations; lia).
  unfold branch_immediate. field e 25 0 i. field e 31 31 (b2z link). fields_done.
  rewrite Hback. destruct link; reflexivity.
Qed.

(** BR, BLR, RET. *)
Definition branch_register_word (opc rn : Z) : Z :=
  107 * 2 ^ 25 + opc * 2 ^ 21 + 31 * 2 ^ 16 + rn * 2 ^ 5.

Definition branch_register_op (opc : Z) : Op :=
  match opc with 0 => Op.Br | 1 => Op.Blr | _ => Op.Ret end.

Lemma decode_branch_register (opc rn : Z) :
  0 <= opc < 3 -> reg_field rn ->
  let e := branch_register_word opc rn in
  decode e = Done (Instruction.new e (branch_register_op opc) (Form.BranchIndirect (zr rn))).
Proof.
  intros Ho Hn e. unfold decode. rewrite group_bits. unfold branch_register_word in e.
  field e 28 25 11. unfold branches_exceptions_system. field e 31 29 6.
  assert (bits e 25 22 = 8 + opc / 2) as ->
    by (unfold e; field_ranges; rewrite bits_spec by lia; Z.div_mod_to_equations; lia).
  assert (branch_register e =
    Done (Instruction.new e (branch_register_op opc) (Form.BranchIndirect (zr rn)))) as Hdec;
    [| assert (opc = 0 \/ opc = 1 \/ opc = 2) as [-> | [-> | ->]] by lia; exact Hdec].
  unfold branch_register. field e 20 16 31. field e 24 21 opc. field e 15 10 0. field e 9 5 rn.
  field e 4 0 0. fields_done.
  assert (opc = 0 \/ opc = 1 \/ opc = 2) as [-> | [-> | ->]] by lia; reflexivity.
Qed.

Definition nop_word : Z := 0xD503201F.

Lemma decode_nop : decode nop_word = Done (Instruction.new nop_word Op.Nop Form.None).
Proof. vm_compute. reflexivity. Qed.

(** SVC and BRK. *)
Definition svc_word (imm : Z) : Z := 212 * 2 ^ 24 + imm * 2 ^ 5 + 1.
Definition brk_word (imm : Z) : Z := 212 * 2 ^ 24 + 1 * 2 ^ 21 + imm * 2 ^ 5.

Lemma decode_svc (imm : Z) :
  in_range 16 imm ->
  let e := svc_word imm in decode e = Done (Instruction.new e Op.Svc (Form.Imm imm)).
Proof.
  intros [Hi0 Hi] e. unfold decode. rewrite group_bits. unfold svc_word in e.
  field e 28 25 10. unfold branches_exceptions_system. field e 31 29 6. field e 25 22 0.
  cbn [Z.eqb Z.leb Z.compare Pos.eqb Pos.compare Pos.compare_cont andb].
  unfold exception. field e 20 5 imm. field e 23 21 0. field e 4 2 0. field e 1 0 1. reflexivity.
Qed.

Lemma decode_brk (imm : Z) :
  in_range 16 imm ->
  let e := brk_word imm in decode e = Done (Instruction.new e Op.Brk (Form.Imm imm)).
Proof.
  intros [Hi0 Hi] e. unfold decode. rewrite group_bits. unfold brk_word in e.
  field e 28 25 10. unfold branches_exceptions_system. field e 31 29 6. field e 25 22 0.
  cbn [Z.eqb Z.leb Z.compare Pos.eqb Pos.compare Pos.compare_cont andb].
  unfold exception. field e 20 5 imm. field e 23 21 1. field e 4 2 0. field e 1 0 0. reflexivity.
Qed.

(** ** Loads and stores of one register *)

(** The transfers [size:opc] names: the opcode, the access and the register's
    width. *)
Definition transfer_of (size opc : Z) : option (Op * AccessSize * RegWidth) :=
  match opc with
  | 0 => Some (Op.Str, AccessSize.mk (2 ^ size) false, if size =? 3 then RegWidth.X64 else RegWidth.W32)
  | 1 => Some (Op.Ldr, AccessSize.mk (2 ^ size) false, if size =? 3 then RegWidth.X64 else RegWidth.W32)
  | 2 => if size <? 3 then Some (Op.Ldr, AccessSize.mk (2 ^ size) true, RegWidth.X64) else None
  | _ => if size <? 2 then Some (Op.Ldr, AccessSize.mk (2 ^ size) true, RegWidth.W32) else None
  end.

Definition transfer_insn (e : Z) (t : Op * AccessSize * RegWidth) (rt : Gpr) (addr : AddrMode) :
    Instruction :=
  let '(op, size, w) := t in
  Instruction.with_width
    (Instruction.new e op (Form.LoadStore rt None None addr size Ordering.PLAIN)) w.

(** The decoder's reading of [size:opc]. *)
Lemma single_register_decodes (e : Z) (size opc rt : Z) (addr : AddrMode)
    (t : Op * AccessSize * RegWidth) :
  0 <= size < 4 -> 0 <= opc < 4 -> reg_field rt -> transfer_of size opc = Some t ->
  bits e 31 30 = size -> bits e 23 22 = opc -> bits e 4 0 = rt ->
  loads_stores.single_register_address e size = Done (Some addr) ->
  loads_stores.single_register e = Done (transfer_insn e t (zr rt) addr).
Proof.
  intros Hs Ho Ht Htr Es Eo Et Ha. unfold loads_stores.single_register. cbv zeta.
  rewrite Es, Eo, Ha. cbn [mbind may_panic_bind].
  unfold loads_stores.transfer, loads_stores.transferred. rewrite Et, zr_of_field by exact Ht.
  assert (size = 0 \/ size = 1 \/ size = 2 \/ size = 3) as [-> | [-> | [-> | ->]]] by lia;
  (assert (opc = 0 \/ opc = 1 \/ opc = 2 \/ opc = 3) as [-> | [-> | [-> | ->]]] by lia;
   try discriminate Htr; injection Htr as <-; reflexivity).
Qed.

Lemma simd_bit (e : Z) : Z.land (wshr 32 e 26) 1 = bits e 26 26.
Proof.
  rewrite bits_spec by lia. rewrite wshr_div by lia. change 1 with (Z.ones 1) at 1.
  rewrite Z.land_ones by lia. reflexivity.
Qed.

(** From a word to [loads_stores]: the group, the SIMD bit and the family. *)
Lemma decode_loads_stores (e : Z) (family : Z) :
  bits e 28 25 = 12 -> bits e 26 26 = 0 -> bits e 29 28 = family ->
  (family = 3 \/ family = 1 /\ bits e 24 24 = 0) ->
  decode e = if family =? 3 then loads_stores.single_register e else loads_stores.literal e.
Proof.
  intros Hg Hv Hf Hfam. unfold decode. rewrite group_bits, Hg, simd_bit, Hv.
  unfold loads_stores.loads_and_stores. rewrite Hv, Hf.
  destruct Hfam as [-> | [-> H24]]; [reflexivity |]. rewrite H24. reflexivity.
Qed.

Definition load_store_unsigned (size opc imm12 rn rt : Z) : Z :=
  size * 2 ^ 30 + 57 * 2 ^ 24 + opc * 2 ^ 22 + imm12 * 2 ^ 10 + rn * 2 ^ 5 + rt.

Lemma decode_load_store_unsigned (size opc imm12 rn rt : Z) (t : Op * AccessSize * RegWidth) :
  0 <= size < 4 -> 0 <= opc < 4 -> 0 <= imm12 < 2 ^ 12 -> reg_field rn -> reg_field rt ->
  transfer_of size opc = Some t ->
  let e := load_store_unsigned size opc imm12 rn rt in
  decode e = Done (transfer_insn e t (zr rt)
    (AddrMode.Immediate (sp rn) (imm12 * 2 ^ size) WriteBack.None)).
Proof.
  intros Hs Ho Hi Hn Ht Htr e. unfold load_store_unsigned in e.
  rewrite (decode_loads_stores e 3); [| | | | left; reflexivity];
    [| unfold e; field_ranges; rewrite bits_spec by lia; Z.div_mod_to_equations; lia ..].
  cbn [Z.eqb Pos.eqb].
  apply (single_register_decodes e size opc rt); try assumption;
    [unfold e; field_ranges; rewrite bits_spec by lia; Z.div_mod_to_equations; lia .. |].
  unfold loads_stores.single_register_address, loads_stores.base.
  field e 24 24 1. field e 21 10 imm12. field e 9 5 rn. fields_done. cbn [Z.eqb Pos.eqb].
  assert (as_i64 (wshl 64 imm12 size) = imm12 * 2 ^ size) as ->; [| reflexivity].
  assert (1 <= 2 ^ size <= 8)
    by (assert (size = 0 \/ size = 1 \/ size = 2 \/ size = 3) as [-> | [-> | [-> | ->]]] by lia; lia).
  rewrite wshl_small by (unfold in_range; nia || lia). unfold as_i64. unfold to_signed.
  rewrite wrap_small by (split; nia). destruct (Z.ltb_spec (imm12 * 2 ^ size) (2 ^ (64 - 1))); nia.
Qed.

(** The 2-bit addressing mode of the 9-bit immediate forms. *)
Definition imm9_mode (wb : WriteBack) : Z :=
  match wb with WriteBack.None => 0 | WriteBack.Post => 1 | WriteBack.Pre => 3 end.

Definition load_store_imm9 (size opc imm9 : Z) (wb : WriteBack) (rn rt : Z) : Z :=
  size * 2 ^ 30 + 56 * 2 ^ 24 + opc * 2 ^ 22 + imm9 mod 2 ^ 9 * 2 ^ 12 + imm9_mode wb * 2 ^ 10 +
  rn * 2 ^ 5 + rt.

Lemma signed_field (n x : Z) : 0 < n -> - 2 ^ (n - 1) <= x < 2 ^ (n - 1) -> to_signed n (x mod 2 ^ n) = x.
Proof.
  intros Hn Hx. change (x mod 2 ^ n) with (wrap n x). unfold to_signed. rewrite wrap_wrap.
  apply (to_signed_wrap n x Hn Hx).
Qed.

Lemma decode_load_store_imm9 (size opc imm9 : Z) (wb : WriteBack) (rn rt : Z)
    (t : Op * AccessSize * RegWidth) :
  0 <= size < 4 -> 0 <= opc < 4 -> - 2 ^ 8 <= imm9 < 2 ^ 8 -> reg_field rn -> reg_field rt ->
  transfer_of size opc = Some t ->
  let e := load_store_imm9 size opc imm9 wb rn rt in
  decode e = Done (transfer_insn e t (zr rt) (AddrMode.Immediate (sp rn) imm9 wb)).
Proof.
  intros Hs Ho Hi Hn Ht Htr e. pose proof (signed_field 9 imm9 ltac:(lia) Hi) as Hback.
  unfold load_store_imm9 in e.
  pose proof (Z.mod_pos_bound imm9 (2 ^ 9) ltac:(lia)) as Hm.
  set (i := imm9 mod 2 ^ 9) in *. clearbody i.
  assert (0 <= imm9_mode wb < 4) by (destruct wb; cbn; lia).
  rewrite (decode_loads_stores e 3); [| | | | left; reflexivity];
    [| unfold e; field_ranges; rewrite bits_spec by lia; Z.div_mod_to_equations; lia ..].
  cbn [Z.eqb Pos.eqb].
  apply (single_register_decodes e size opc rt); try assumption;
    [unfold e; field_ranges; rewrite bits_spec by lia; Z.div_mod_to_equations; lia .. |].
  unfold loads_stores.single_register_address, loads_stores.base.
  field e 24 24 0. field e 21 21 0. field e 20 12 i. field e 11 10 (imm9_mode wb). field e 9 5 rn.
  fields_done. rewrite sign_extend_spec, Hback by lia. destruct wb; reflexivity.
Qed.

Definition load_store_register (size opc rm : Z) (kind : ExtendKind) (scaled : bool) (rn rt : Z) : Z :=
  size * 2 ^ 30 + 56 * 2 ^ 24 + opc * 2 ^ 22 + 1 * 2 ^ 21 + rm * 2 ^ 16 +
  extend_code kind * 2 ^ 13 + b2z scaled * 2 ^ 12 + 2 * 2 ^ 10 + rn * 2 ^ 5 + rt.

(** The extensions an index register can have. *)
Definition index_kind (kind : ExtendKind) : Prop :=
  kind = ExtendKind.Uxtw \/ kind = ExtendKind.Uxtx \/ kind = ExtendKind.Sxtw \/ kind = ExtendKind.Sxtx.

Lemma decode_load_store_register (size opc rm : Z) (kind : ExtendKind) (scaled : bool) (rn rt : Z)
    (t : Op * AccessSize * RegWidth) :
  0 <= size < 4 -> 0 <= opc < 4 -> reg_field rm -> index_kind kind -> reg_field rn -> reg_field rt ->
  transfer_of size opc = Some t ->
  let e := load_store_register size opc rm kind scaled rn rt in
  decode e = Done (transfer_insn e t (zr rt)
    (AddrMode.Register (sp rn) (ExtendedReg.mk (zr rm) kind (if scaled then size else 0))
       WriteBack.None)).
Proof.
  intros Hs Ho Hm Hk Hn Ht Htr e. unfold load_store_register in e.
  pose proof (extend_code_range kind).
  rewrite (decode_loads_stores e 3); [| | | | left; reflexivity];
    [| unfold e; field_ranges; rewrite bits_spec by lia; Z.div_mod_to_equations; lia ..].
  cbn [Z.eqb Pos.eqb].
  apply (single_register_decodes e size opc rt); try assumption;
    [unfold e; field_ranges; rewrite bits_spec by lia; Z.div_mod_to_equations; lia .. |].
  unfold loads_stores.single_register_address, loads_stores.register_offset, loads_stores.base.
  field e 24 24 0. field e 21 21 1. field e 11 10 2. field e 15 13 (extend_code kind).
  field e 12 12 (b2z scaled). field e 9 5 rn. field e 20 16 rm. fields_done.
  assert (as_u8 size = size) as -> by (apply wrap_small; split; lia).
  rewrite from_option_code.
  assert ((Z.land (as_u8 (extend_code kind)) 2 =? 0) = false) as ->
    by (destruct Hk as [-> | [-> | [-> | ->]]]; reflexivity).
  reflexivity.
Qed.

(** LDR and LDRSW (literal). *)
Definition load_literal (opc offset rt : Z) : Z :=
  opc * 2 ^ 30 + 24 * 2 ^ 24 + word_offset 19 offset * 2 ^ 5 + rt.

Definition literal_transfer (opc : Z) : AccessSize * RegWidth :=
  match opc with
  | 0 => (AccessSize.mk 4 false, RegWidth.W32)
  | 1 => (AccessSize.mk 8 false, RegWidth.X64)
  | _ => (AccessSize.mk 4 true, RegWidth.X64)
  end.

Lemma decode_load_literal (opc offset rt : Z) :
  0 <= opc < 3 -> offset mod 4 = 0 -> - 2 ^ 20 <= offset < 2 ^ 20 -> reg_field rt ->
  let e := load_literal opc offset rt in
  let '(size, w) := literal_transfer opc in
  decode e = Done (transfer_insn e (Op.Ldr, size, w) (zr rt) (AddrMode.PcRelative offset)).
Proof.
  intros Ho H4 Hoff Ht e. pose proof (word_offset_back 19 offset ltac:(lia) H4 Hoff) as Hback.
  pose proof (word_offset_range 19 offset ltac:(lia)) as Hw. unfold load_literal in e.
  set (i := word_offset 19 offset) in *. clearbody i.
  rewrite (decode_loads_stores e 1);
    [| | | | right; split; [reflexivity |]];
    [| unfold e; field_ranges; rewrite bits_spec by lia; Z.div_mod_to_equations; lia ..].
  cbn [Z.eqb Pos.eqb]. unfold loads_stores.literal, loads_stores.transfer, loads_stores.transferred.
  field e 31 30 opc. field e 23 5 i. field e 4 0 rt. rewrite Hback. fields_done.
  assert (opc = 0 \/ opc = 1 \/ opc = 2) as [-> | [-> | ->]] by lia; reflexivity.
Qed.

(** ** The assembly language of the interpreter *)

Inductive asm : Type :=
| AddSubImm (w : RegWidth) (sub s sh : bool) (imm12 rn rd : Z)
| LogicalImm (w : RegWidth) (opc n immr imms rn rd : Z)
| AddSubShifted (w : RegWidth) (sub s : bool) (kind : ShiftKind) (rm amount rn rd : Z)
| AddSubExtended (w : RegWidth) (sub s : bool) (kind : ExtendKind) (rm amount rn rd : Z)
| LogicalShifted (w : RegWidth) (opc : Z) (kind : ShiftKind) (neg : bool) (rm amount rn rd : Z)
| Branch (link : bool) (offset : Z)
| BranchRegister (opc rn : Z)
| Nop
| Svc (imm : Z)
| Brk (imm : Z)
| LoadStoreUnsigned (size opc imm12 rn rt : Z)
| LoadStoreImm9 (size opc imm9 : Z) (wb : WriteBack) (rn rt : Z)
| LoadStoreRegister (size opc rm : Z) (kind : ExtendKind) (scaled : bool) (rn rt : Z)
| LoadLiteral (opc offset rt : Z).

Definition assemble (a : asm) : Z :=
  match a with
  | AddSubImm w sub s sh imm12 rn rd => add_sub_imm w sub s sh imm12 rn rd
  | LogicalImm w opc n immr imms rn rd => logical_imm w opc n immr imms rn rd
  | AddSubShifted w sub s kind rm amount rn rd => add_sub_shifted_word w sub s kind rm amount rn rd
  | AddSubExtended w sub s kind rm amount rn rd =>
      add_sub_extended_word w sub s kind rm amount rn rd
  | LogicalShifted w opc kind neg rm amount rn rd =>
      logical_shifted_word w opc kind neg rm amount rn rd
  | Branch link offset => branch_word link offset
  | BranchRegister opc rn => branch_register_word opc rn
  | Nop => nop_word
  | Svc imm => svc_word imm
  | Brk imm => brk_word imm
  | LoadStoreUnsigned size opc imm12 rn rt => load_store_unsigned size opc imm12 rn rt
  | LoadStoreImm9 size opc imm9 wb rn rt => load_store_imm9 size opc imm9 wb rn rt
  | LoadStoreRegister size opc rm kind scaled rn rt =>
      load_store_register size opc rm kind scaled rn rt
  | LoadLiteral opc offset rt => load_literal opc offset rt
  end.

(** The operands an instruction has room for. *)
Definition asm_ok (a : asm) : Prop :=
  match a with
  | AddSubImm _ _ _ _ imm12 rn rd => in_range 12 imm12 /\ reg_field rn /\ reg_field rd
  | LogicalImm w opc n immr imms rn rd =>
      in_range 2 opc /\ bit n /\ in_range 6 immr /\ in_range 6 imms /\ reg_field rn /\
      reg_field rd /\ is_Some (decode_bit_masks n immr imms w)
  | AddSubShifted w _ _ kind rm amount rn rd =>
      kind <> ShiftKind.Ror /\ reg_field rm /\ 0 <= amount < RegWidth.bits w /\ reg_field rn /\
      reg_field rd
  | AddSubExtended _ _ _ _ rm amount rn rd =>
      reg_field rm /\ 0 <= amount <= 4 /\ reg_field rn /\ reg_field rd
  | LogicalShifted w opc _ _ rm amount rn rd =>
      in_range 2 opc /\ reg_field rm /\ 0 <= amount < RegWidth.bits w /\ reg_field rn /\ reg_field rd
  | Branch _ offset => offset mod 4 = 0 /\ - 2 ^ 27 <= offset < 2 ^ 27
  | BranchRegister opc rn => 0 <= opc < 3 /\ reg_field rn
  | Nop => True
  | Svc imm | Brk imm => in_range 16 imm
  | LoadStoreUnsigned size opc imm12 rn rt =>
      in_range 2 size /\ in_range 2 opc /\ in_range 12 imm12 /\ reg_field rn /\ reg_field rt /\
      is_Some (transfer_of size opc)
  | LoadStoreImm9 size opc imm9 _ rn rt =>
      in_range 2 size /\ in_range 2 opc /\ - 2 ^ 8 <= imm9 < 2 ^ 8 /\ reg_field rn /\
      reg_field rt /\ is_Some (transfer_of size opc)
  | LoadStoreRegister size opc rm kind _ rn rt =>
      in_range 2 size /\ in_range 2 opc /\ reg_field rm /\ index_kind kind /\ reg_field rn /\
      reg_field rt /\ is_Some (transfer_of size opc)
  | LoadLiteral opc offset rt =>
      0 <= opc < 3 /\ offset mod 4 = 0 /\ - 2 ^ 20 <= offset < 2 ^ 20 /\ reg_field rt
  end.

(** Opcode, operands, width and flag setting. *)
Definition insn (e : Z) (op : Op) (form : Form) (w : RegWidth) (s : bool) : Instruction :=
  Instruction.mk op form w RoundMode.Current s e.

Definition transfer_meaning (e size opc rt : Z) (addr : AddrMode) : Instruction :=
  match transfer_of size opc with
  | Some (op, access, w) =>
      insn e op (Form.LoadStore (zr rt) None None addr access Ordering.PLAIN) w false
  | None => unallocated e
  end.

Definition meaning (a : asm) : Instruction :=
  let e := assemble a in
  match a with
  | AddSubImm w sub s sh imm12 rn rd =>
      insn e (sum_op sub)
        (Form.RegImm (if s then zr rd else sp rd) (sp rn) (imm12 * if sh then 2 ^ 12 else 1)) w s
  | LogicalImm w opc n immr imms rn rd =>
      let imm := match decode_bit_masks n immr imms w with Some imm => imm | None => 0 end in
      insn e (logical_op opc)
        (Form.RegImm (if opc =? 3 then zr rd else sp rd) (zr rn) imm) w (opc =? 3)
  | AddSubShifted w sub s kind rm amount rn rd =>
      insn e (sum_op sub) (Form.RegShifted (zr rd) (zr rn) (ShiftedReg.mk (zr rm) kind amount)) w s
  | AddSubExtended w sub s kind rm amount rn rd =>
      insn e (sum_op sub)
        (Form.RegExtended (if s then zr rd else sp rd) (sp rn) (ExtendedReg.mk (zr rm) kind amount))
        w s
  | LogicalShifted w opc kind neg rm amount rn rd =>
      insn e (logical_register_op opc neg)
        (Form.RegShifted (zr rd) (zr rn) (ShiftedReg.mk (zr rm) kind amount)) w (opc =? 3)
  | Branch link offset =>
      insn e (if link then Op.Bl else Op.B) (Form.Branch offset) RegWidth.X64 false
  | BranchRegister opc rn =>
      insn e (branch_register_op opc) (Form.BranchIndirect (zr rn)) RegWidth.X64 false
  | Nop => insn e Op.Nop Form.None RegWidth.X64 false
  | Svc imm => insn e Op.Svc (Form.Imm imm) RegWidth.X64 false
  | Brk imm => insn e Op.Brk (Form.Imm imm) RegWidth.X64 false
  | LoadStoreUnsigned size opc imm12 rn rt =>
      transfer_meaning e size opc rt
        (AddrMode.Immediate (sp rn) (imm12 * 2 ^ size) WriteBack.None)
  | LoadStoreImm9 size opc imm9 wb rn rt =>
      transfer_meaning e size opc rt (AddrMode.Immediate (sp rn) imm9 wb)
  | LoadStoreRegister size opc rm kind scaled rn rt =>
      transfer_meaning e size opc rt
        (AddrMode.Register (sp rn) (ExtendedReg.mk (zr rm) kind (if scaled then size else 0))
           WriteBack.None)
  | LoadLiteral opc offset rt =>
      insn e Op.Ldr
        (Form.LoadStore (zr rt) None None (AddrMode.PcRelative offset) (literal_transfer opc).1
           Ordering.PLAIN)
        (literal_transfer opc).2 false
  end.

Lemma transfer_insn_meaning (e size opc rt : Z) (t : Op * AccessSize * RegWidth) (addr : AddrMode) :
  transfer_of size opc = Some t ->
  transfer_insn e t (zr rt) addr = transfer_meaning e size opc rt addr.
Proof. intros Ht. unfold transfer_meaning. rewrite Ht. destruct t as [[op access] w]. reflexivity. Qed.

Lemma assemble_decode (a : asm) : asm_ok a -> decode (assemble a) = Done (meaning a).
Proof.
  intros Ha. destruct a; cbn [asm_ok] in Ha; cbn [assemble meaning].
  - destruct Ha as (? & ? & ?). rewrite decode_add_sub_imm by assumption. destruct s; reflexivity.
  - destruct Ha as (? & ? & ? & ? & ? & ? & [imm Himm]).
    rewrite (decode_logical_imm w opc n immr imms rn rd imm) by assumption. rewrite Himm.
    destruct (opc =? 3); reflexivity.
  - destruct Ha as (? & ? & ? & ? & ?). rewrite decode_add_sub_shifted by assumption.
    destruct s; reflexivity.
  - destruct Ha as (? & ? & ? & ?). rewrite decode_add_sub_extended by assumption.
    destruct s; reflexivity.
  - destruct Ha as (? & ? & ? & ? & ?). rewrite decode_logical_shifted by assumption.
    destruct (opc =? 3); reflexivity.
  - destruct Ha. rewrite decode_branch by assumption. reflexivity.
  - destruct Ha. rewrite decode_branch_register by assumption. reflexivity.
  - apply decode_nop.
  - rewrite decode_svc by assumption. reflexivity.
  - rewrite decode_brk by assumption. reflexivity.
  - destruct Ha as (? & ? & ? & ? & ? & [t Ht]).
    rewrite (decode_load_store_unsigned size opc imm12 rn rt t) by assumption.
    rewrite (transfer_insn_meaning _ size opc) by exact Ht. reflexivity.
  - destruct Ha as (? & ? & ? & ? & ? & [t Ht]).
    rewrite (decode_load_store_imm9 size opc imm9 wb rn rt t) by assumption.
    rewrite (transfer_insn_meaning _ size opc) by exact Ht. reflexivity.
  - destruct Ha as (? & ? & ? & ? & ? & ? & [t Ht]).
    rewrite (decode_load_store_register size opc rm kind scaled rn rt t) by assumption.
    rewrite (transfer_insn_meaning _ size opc) by exact Ht. reflexivity.
  - destruct Ha as (? & ? & ? & ?).
    pose proof (decode_load_literal opc offset rt) as L. cbv zeta in L.
    destruct (literal_transfer opc) as [size w]. rewrite L by assumption. reflexivity.
Qed.
