(* ===== verification/DecodeTheorems.v ===== *)
(** What the decoder does ([crates/core/src/decode/]). *)

From stdpp Require Import base numbers list option.
From S2P Require Import Prelude Reg Operand Op Instruction Group DpImmediate DpRegister.
From S2P Require Import BranchSystem LoadsStores SimdLoadsStores Scalar Neon Decode Assembler.

#[local] Open Scope Z_scope.

(** C7: decoding is total.  For every word [decode] returns, without reaching
    an [assert!] on a register index, an instruction that carries the word, whose
    operands are within the bounds the interpreter relies on ([form_ok]: registers
    exist, shift amounts are below the width, offsets are aligned and in range) and
    whose operand layout is one its opcode comes with ([op_has_layout]). *)
Theorem decode_total (e : Z) : returns (decode e) (decoded_ok e).
Proof. apply decode_returns. Qed.

(** C8: the decoder inverts the assembler.  Every instruction the interpreter
    implements (add and subtract, the bitwise operations, branches, the loads and
    stores of one register, NOP, SVC, BRK), with any operands its encoding has room
    for, is decoded from the word the architecture gives it: same opcode, operands,
    width and flag setting. *)
Theorem decode_inverts_assemble (a : asm) :
  asm_ok a -> decode (assemble a) = Done (meaning a).
Proof. apply assemble_decode. Qed.

Lemma decode_inverts_assemble_witness :
  decode 0x39FFFFE3 =
  Done (insn 0x39FFFFE3 Op.Ldr
    (Form.LoadStore (Gpr.X 3) None None (AddrMode.Immediate Gpr.SP 0xFFF WriteBack.None)
       (AccessSize.mk 1 true) Ordering.PLAIN) RegWidth.W32 false).
Proof.
  apply (decode_inverts_assemble (LoadStoreUnsigned 0 3 0xFFF 31 3)).
  unfold asm_ok, in_range, reg_field. repeat split; try lia. eexists. reflexivity.
Defined.

(** C35: the bitmask immediates are the architecture's.  For every [N:immr:imms]
    and both widths, [decode_bit_masks] rejects exactly the combinations the
    reference manual's table reserves, and otherwise returns the value below
    [2^width] whose bit [i] is set iff [(i + immr) mod esize <= imms mod esize]. *)
Theorem decode_bit_masks_spec (n immr imms : Z) (w : RegWidth) :
  0 <= n < 2 -> 0 <= immr < 64 -> 0 <= imms < 64 ->
  bit_masks_promise n immr imms w (decode_bit_masks n immr imms w).
Proof. apply decode_bit_masks_promise. Qed.

Lemma decode_bit_masks_spec_witness :
  bit_masks_promise 0 7 51 RegWidth.X64 (decode_bit_masks 0 7 51 RegWidth.X64).
Proof. apply decode_bit_masks_spec; lia. Defined.

(** FMOV D0, #imm8. *)
Definition fmov_word (imm8 : Z) : Z := 0x1E601000 + imm8 * 2 ^ 13.

Definition decodes_as_fmov (imm8 : Z) : bool :=
  match decode (fmov_word imm8) with
  | Done i =>
      match Instruction.op i, Instruction.form i with
      | Op.FmovImm, Form.VecImm _ _ imm =>
          imm =? scalar_fp.expand_float_immediate imm8 ElemSize.D64
      | _, _ => false
      end
  | Panic => false
  end.

Lemma fmov_check :
  forall_below 256 (fun imm8 => Bool.eqb (decodes_as_fmov imm8) (imm8 mod 4 =? 0)) = true.
Proof. vm_compute. reflexivity. Qed.

(** Scalar FMOV immediates.  Of the 256 encodings of FMOV D0, #imm8 the
    decoder accepts exactly those whose [imm8] is a multiple of four: the guard of
    [compare_or_one_source] tests the five bits 14..10, of which the top two are
    the low bits of [imm8], so three quarters of the immediates, such as
    FMOV D0, #2.125, are unallocated. *)
Theorem fmov_immediates_decoded (imm8 : Z) :
  0 <= imm8 < 256 -> decodes_as_fmov imm8 = (imm8 mod 4 =? 0).
Proof. intros H. apply Bool.eqb_prop, (forall_below_spec _ _ fmov_check _ H). Qed.

Lemma fmov_immediates_decoded_witness : decodes_as_fmov 1 = false.
Proof. apply (fmov_immediates_decoded 1). lia. Defined.

(** MSL immediates.  [expand_advsimd_immediate] gives [MSL #16]
    ([cmode = 1101]) the value of [MSL #8] ([cmode = 1100]): the byte shifted by 8
    over eight ones. *)
Theorem msl_shift_lost (imm8 : Z) (inv : bool) :
  0 <= imm8 < 256 ->
  neon.expand_advsimd_immediate imm8 12 inv = Some (imm8 * 256 + 255, ElemSize.S32) /\
  neon.expand_advsimd_immediate imm8 13 inv = Some (imm8 * 256 + 255, ElemSize.S32).
Proof.
  intros Hi.
  assert (forall_below 256 (fun i =>
    match neon.expand_advsimd_immediate i 12 true with
    | Some (v, ElemSize.S32) => v =? i * 256 + 255 | _ => false end) = true) as C
    by (vm_compute; reflexivity).
  pose proof (forall_below_spec _ _ C imm8 Hi) as H. cbv beta in H.
  assert (neon.expand_advsimd_immediate imm8 12 true = Some (imm8 * 256 + 255, ElemSize.S32)) as E.
  { destruct (neon.expand_advsimd_immediate imm8 12 true) as [[v []] |]; try discriminate.
    apply Z.eqb_eq in H. congruence. }
  split; destruct inv; exact E.
Qed.

Lemma msl_shift_lost_witness :
  neon.expand_advsimd_immediate 0xAB 13 false = Some (0xABFF, ElemSize.S32).
Proof. apply (msl_shift_lost 0xAB false). lia. Defined.

(** Two words that differ in bit 24 only agree on every other field. *)
Lemma bits_bit24 (e hi lo : Z) :
  e / 2 ^ 24 mod 2 = 0 -> 0 <= lo -> lo <= hi < 32 -> hi - lo < 31 -> hi < 24 \/ 24 < lo ->
  bits (e + 2 ^ 24) hi lo = bits e hi lo.
Proof.
  intros He Hlo Hhi Hw Hd. rewrite !bits_spec by assumption. destruct Hd as [Hd | Hd].
  - replace (e + 2 ^ 24) with (e + 2 ^ (24 - lo) * 2 ^ lo)
      by (rewrite <- Z.pow_add_r by lia; do 2 f_equal; lia).
    rewrite Z.div_add by lia.
    replace (2 ^ (24 - lo)) with (2 ^ (23 - hi) * 2 ^ (hi - lo + 1))
      by (rewrite <- Z.pow_add_r by lia; f_equal; lia).
    apply Z_mod_plus_full.
  - f_equal. replace (2 ^ lo) with (2 ^ 25 * 2 ^ (lo - 25))
      by (rewrite <- Z.pow_add_r by lia; f_equal; lia).
    rewrite <- !Z.div_div by lia. f_equal. Z.div_mod_to_equations. lia.
Qed.

(** Reads every field of the word with bit 24 set in the word without it. *)
Ltac drop_bit24 He := rewrite ?(fun hi lo => bits_bit24 _ hi lo He) by lia.

Lemma structure_address_bit24 (e : Z) (post : bool) (count bytes : Z) :
  e / 2 ^ 24 mod 2 = 0 ->
  simd_loads_stores.structure_address (e + 2 ^ 24) post count bytes =
  simd_loads_stores.structure_address e post count bytes.
Proof.
  intros He. unfold simd_loads_stores.structure_address, simd_loads_stores.base.
  drop_bit24 He. reflexivity.
Qed.

(** Single-structure loads.  [structure] does not test bit 24, the bit that
    tells the one-lane and replicating loads and stores (LD1 [{Vt.B}[i]] and their
    kin) from the whole-register ones: a word and the word with bit 24 set decode
    to the same opcode and operands, so LD1 [{V0.B}[0], [X0]] is LD4 of four
    registers. *)
Theorem structure_ignores_bit24 (e : Z) :
  e / 2 ^ 24 mod 2 = 0 ->
  exists i j, simd_loads_stores.structure e = Done i /\
    simd_loads_stores.structure (e + 2 ^ 24) = Done j /\
    Instruction.op j = Instruction.op i /\ Instruction.form j = Instruction.form i.
Proof.
  intros He. destruct (simd_loads_stores.structure_ok e) as (i & Hi & _).
  exists i. revert Hi. unfold simd_loads_stores.structure, simd_loads_stores.transferred. cbv zeta.
  drop_bit24 He. destruct (negb _ && negb _).
  { intros [= <-]. eexists. repeat split. }
  destruct (simd_loads_stores.structure_kind _) as [kind |].
  2: { intros [= <-]. eexists. repeat split. }
  destruct (bool_decide _ && negb _).
  { intros [= <-]. eexists. repeat split. }
  destruct (Vec.new _) as [vt |]; [| discriminate]. cbn [mbind may_panic_bind].
  rewrite structure_address_bit24 by exact He.
  destruct (simd_loads_stores.structure_address _ _ _ _) as [addr |]; [| discriminate].
  intros [= <-]. eexists. repeat split.
Qed.

Lemma structure_ignores_bit24_witness :
  exists i j, simd_loads_stores.structure 0x0C400000 = Done i /\
    simd_loads_stores.structure 0x0D400000 = Done j /\
    Instruction.op j = Instruction.op i /\ Instruction.form j = Instruction.form i.
Proof. apply (structure_ignores_bit24 0x0C400000). reflexivity. Defined.
