(* ===== verification/Flags.v ===== *)
(** NZCV production and consumption ([crates/core/src/interp/flags.rs]). *)

From stdpp Require Import base numbers list option.
From S2P Require Import Prelude Pstate Reg Operand.

#[local] Open Scope Z_scope.

Module FlaggedResult.

Record FlaggedResult : Type := mk { value : Z; flags : Nzcv }.

End FlaggedResult.

Abbreviation FlaggedResult := FlaggedResult.FlaggedResult.

Definition add_with_carry (operands : Z * Z) (carry_in : bool) (width : RegWidth) :
    FlaggedResult :=
  let left := Z.land operands.1 (RegWidth.mask width) in
  let right := Z.land operands.2 (RegWidth.mask width) in
  let carry := b2z carry_in in
  let unsigned := wadd 128 (wadd 128 left right) carry in
  let value := Z.land (as_u64 unsigned) (RegWidth.mask width) in
  let sign_bit := wshl 64 1 (RegWidth.bits width - 1) in
  let signed_overflow :=
    negb (Z.land (Z.land (Z.lxor left value) (Z.lxor right value)) sign_bit =? 0) in
  FlaggedResult.mk value
    (Nzcv.mk
       (negb (Z.land value sign_bit =? 0))
       (value =? 0)
       (negb (wshr 128 unsigned (RegWidth.bits width) =? 0))
       signed_overflow).

Definition logical_flags (value : Z) (width : RegWidth) : Nzcv :=
  let value := Z.land value (RegWidth.mask width) in
  Nzcv.mk
    (negb (Z.land value (wshl 64 1 (RegWidth.bits width - 1)) =? 0))
    (value =? 0) false false.

Definition is_condition_met (cond : Cond) (flags : Nzcv) : bool :=
  match cond with
  | Cond.Eq => Nzcv.z flags
  | Cond.Ne => negb (Nzcv.z flags)
  | Cond.Cs => Nzcv.c flags
  | Cond.Cc => negb (Nzcv.c flags)
  | Cond.Mi => Nzcv.n flags
  | Cond.Pl => negb (Nzcv.n flags)
  | Cond.Vs => Nzcv.v flags
  | Cond.Vc => negb (Nzcv.v flags)
  | Cond.Hi => Nzcv.c flags && negb (Nzcv.z flags)
  | Cond.Ls => negb (Nzcv.c flags && negb (Nzcv.z flags))
  | Cond.Ge => Bool.eqb (Nzcv.n flags) (Nzcv.v flags)
  | Cond.Lt => negb (Bool.eqb (Nzcv.n flags) (Nzcv.v flags))
  | Cond.Gt => negb (Nzcv.z flags) && Bool.eqb (Nzcv.n flags) (Nzcv.v flags)
  | Cond.Le => negb (negb (Nzcv.z flags) && Bool.eqb (Nzcv.n flags) (Nzcv.v flags))
  | Cond.Al | Cond.Nv => true
  end.

(** ** The specification: integers and their two readings *)

(** [x] read at a width, unsigned and signed. *)
Definition uval (w : RegWidth) (x : Z) : Z := wrap (RegWidth.bits w) x.
Definition sval (w : RegWidth) (x : Z) : Z := to_signed (RegWidth.bits w) x.

Definition spec_add_with_carry (w : RegWidth) (l r : Z) (c : bool) : FlaggedResult :=
  let total := uval w l + uval w r + b2z c in
  let signed_total := sval w l + sval w r + b2z c in
  FlaggedResult.mk (uval w total)
    (Nzcv.mk
       (sval w total <? 0)
       (uval w total =? 0)
       (2 ^ RegWidth.bits w <=? total)
       (negb ((- 2 ^ (RegWidth.bits w - 1) <=? signed_total) &&
              (signed_total <? 2 ^ (RegWidth.bits w - 1))))).

(** ** Reading the top bit *)

Lemma uval_range (w : RegWidth) (x : Z) : 0 <= uval w x < 2 ^ RegWidth.bits w.
Proof. apply wrap_range. destruct w; cbn; lia. Qed.

Lemma width_pow (w : RegWidth) : 2 ^ RegWidth.bits w = 2 * 2 ^ (RegWidth.bits w - 1).
Proof. destruct w; reflexivity. Qed.

Lemma sval_uval (w : RegWidth) (x : Z) :
  sval w x = if uval w x <? 2 ^ (RegWidth.bits w - 1) then uval w x
             else uval w x - 2 ^ RegWidth.bits w.
Proof. reflexivity. Qed.

Lemma sign_bit_testbit (w : RegWidth) (x : Z) :
  negb (Z.land x (wshl 64 1 (RegWidth.bits w - 1)) =? 0) =
  Z.testbit x (RegWidth.bits w - 1).
Proof.
  assert (wshl 64 1 (RegWidth.bits w - 1) = 2 ^ (RegWidth.bits w - 1)) as ->
    by (destruct w; reflexivity).
  assert (0 <= RegWidth.bits w - 1) as Hn by (destruct w; cbn; lia).
  set (n := RegWidth.bits w - 1) in *. clearbody n.
  destruct (Z.testbit x n) eqn:E.
  - apply negb_true_iff, Z.eqb_neq. intros H.
    assert (Z.testbit (Z.land x (2 ^ n)) n = true) as C
      by (rewrite Z.land_spec, E, Z.pow2_bits_true by exact Hn; reflexivity).
    rewrite H, Z.testbit_0_l in C. discriminate.
  - apply negb_false_iff, Z.eqb_eq. apply Z.bits_inj'. intros i Hi.
    rewrite Z.land_spec, Z.testbit_0_l. destruct (Z.eq_dec i n) as [-> | Hin].
    + rewrite E. reflexivity.
    + rewrite Z.pow2_bits_false by lia. apply andb_false_r.
Qed.

Lemma top_bit (w : RegWidth) (x : Z) :
  0 <= x < 2 ^ RegWidth.bits w ->
  Z.testbit x (RegWidth.bits w - 1) = (2 ^ (RegWidth.bits w - 1) <=? x).
Proof.
  intros Hx. rewrite width_pow in Hx. pose proof (pow2_pos (RegWidth.bits w - 1)) as Hp.
  assert (0 <= RegWidth.bits w - 1) as Hn by (destruct w; cbn; lia). specialize (Hp Hn).
  rewrite Z.testbit_odd, Z.shiftr_div_pow2 by exact Hn.
  destruct (Z.leb_spec (2 ^ (RegWidth.bits w - 1)) x).
  - replace (x / 2 ^ (RegWidth.bits w - 1)) with 1; [reflexivity |].
    apply (Z.div_unique_pos _ _ 1 (x - 2 ^ (RegWidth.bits w - 1))); lia.
  - rewrite Z.div_small by lia. reflexivity.
Qed.

(** The carry out of the operand width. *)
Lemma carry_out (w : RegWidth) (t : Z) :
  0 <= t < 2 * 2 ^ RegWidth.bits w ->
  negb (wshr 128 t (RegWidth.bits w) =? 0) = (2 ^ RegWidth.bits w <=? t).
Proof.
  intros Ht. rewrite wshr_div by (destruct w; cbn; lia).
  pose proof (pow2_pos (RegWidth.bits w)) as Hp.
  specialize (Hp ltac:(destruct w; cbn; lia)).
  destruct (Z.leb_spec (2 ^ RegWidth.bits w) t).
  - replace (t / 2 ^ RegWidth.bits w) with 1; [reflexivity |].
    apply (Z.div_unique_pos _ _ 1 (t - 2 ^ RegWidth.bits w)); lia.
  - rewrite Z.div_small by lia. reflexivity.
Qed.

Lemma wrap_u64 (w : RegWidth) (x : Z) : wrap (RegWidth.bits w) (as_u64 x) = uval w x.
Proof.
  apply wrap_wrap_le. destruct w; cbn; lia.
Qed.

Lemma add_with_carry_correct (w : RegWidth) (l r : Z) (c : bool) :
  add_with_carry (l, r) c w = spec_add_with_carry w l r c.
Proof.
  unfold add_with_carry, spec_add_with_carry. cbn [fst snd]. rewrite !land_mask.
  fold (uval w l) (uval w r).
  pose proof (uval_range w l) as Hl. pose proof (uval_range w r) as Hr.
  assert (0 <= b2z c <= 1) as Hc by (destruct c; cbn; lia).
  assert (2 ^ RegWidth.bits w <= 2 ^ 64) as Hw by (destruct w; cbn; lia).
  assert (wadd 128 (wadd 128 (uval w l) (uval w r)) (b2z c) = uval w l + uval w r + b2z c) as ->.
  { unfold wadd. rewrite (wrap_small 128 (uval w l + uval w r)) by (split; lia).
    apply wrap_small. split; lia. }
  set (t := uval w l + uval w r + b2z c) in *.
  rewrite wrap_u64, !sign_bit_testbit, carry_out by lia.
  pose proof (uval_range w t) as Ht.
  rewrite !Z.land_spec, !Z.lxor_spec, !top_bit by assumption.
  pose proof (width_pow w) as Hp.
  assert (uval w t = if t <? 2 ^ RegWidth.bits w then t else t - 2 ^ RegWidth.bits w) as Et.
  { unfold uval, wrap. destruct (Z.ltb_spec t (2 ^ RegWidth.bits w)).
    - apply Z.mod_small. lia.
    - symmetry. apply (Z.mod_unique_pos _ _ 1); lia. }
  f_equal. f_equal.
  - rewrite (sval_uval w t). destruct (Z.ltb_spec (uval w t) (2 ^ (RegWidth.bits w - 1))); lia.
  - rewrite !sval_uval. set (h := 2 ^ (RegWidth.bits w - 1)) in *.
    set (L := uval w l) in *. set (R := uval w r) in *.
    rewrite Et, Hp in *. clearbody L R h.
    destruct (Z.ltb_spec L h), (Z.ltb_spec R h), (Z.leb_spec h L), (Z.leb_spec h R);
      try lia; destruct (Z.ltb_spec t (2 * h)); try lia;
      repeat match goal with |- context [?a <=? ?b] => destruct (Z.leb_spec a b) end;
      repeat match goal with |- context [?a <? ?b] => destruct (Z.ltb_spec a b) end;
      try reflexivity; lia.
Qed.

(** ** Subtraction: [right] inverted and a carry in *)

Lemma uval_not (w : RegWidth) (r : Z) :
  uval w (wnot 64 r) = 2 ^ RegWidth.bits w - 1 - uval w r.
Proof.
  unfold uval, wnot. rewrite wrap_wrap_le by (destruct w; cbn; lia).
  unfold wrap. set (m := 2 ^ RegWidth.bits w).
  assert (0 < m) by (apply pow2_pos; destruct w; cbn; lia).
  pose proof (Z.mod_pos_bound r m ltac:(lia)).
  pose proof (Z.div_mod r m ltac:(lia)).
  symmetry. apply (Z.mod_unique_pos _ _ (- (r / m) - 1)); [lia |].
  unfold Z.lnot. nia.
Qed.

Lemma sval_not (w : RegWidth) (r : Z) : sval w (wnot 64 r) = -1 - sval w r.
Proof.
  rewrite !sval_uval, uval_not. pose proof (width_pow w). pose proof (uval_range w r).
  destruct (Z.ltb_spec (uval w r) (2 ^ (RegWidth.bits w - 1)));
  destruct (Z.ltb_spec (2 ^ RegWidth.bits w - 1 - uval w r) (2 ^ (RegWidth.bits w - 1))); lia.
Qed.

(** [l - r] with its flags: a borrow clears C. *)
Definition spec_subtract (w : RegWidth) (l r : Z) : FlaggedResult :=
  FlaggedResult.mk (uval w (l - r))
    (Nzcv.mk
       (sval w (l - r) <? 0)
       (uval w l =? uval w r)
       (uval w r <=? uval w l)
       (negb ((- 2 ^ (RegWidth.bits w - 1) <=? sval w l - sval w r) &&
              (sval w l - sval w r <? 2 ^ (RegWidth.bits w - 1))))).

Lemma uval_congr (w : RegWidth) (x y k : Z) :
  x = y + k * 2 ^ RegWidth.bits w -> uval w x = uval w y.
Proof. intros ->. unfold uval, wrap. apply Z_mod_plus_full. Qed.

Lemma sval_congr (w : RegWidth) (x y : Z) : uval w x = uval w y -> sval w x = sval w y.
Proof. intros H. rewrite !sval_uval, H. reflexivity. Qed.

Lemma uval_sub_uval (w : RegWidth) (l r : Z) : uval w (uval w l - uval w r) = uval w (l - r).
Proof. unfold uval, wrap. symmetry. apply Zminus_mod. Qed.

Lemma subtract_correct (w : RegWidth) (l r : Z) :
  add_with_carry (l, wnot 64 r) true w = spec_subtract w l r.
Proof.
  rewrite add_with_carry_correct. unfold spec_add_with_carry, spec_subtract. cbn [b2z].
  rewrite uval_not, sval_not.
  set (t := uval w l + (2 ^ RegWidth.bits w - 1 - uval w r) + 1).
  assert (uval w t = uval w (l - r)) as Ht.
  { rewrite <- (uval_sub_uval w l r). apply (uval_congr _ _ _ 1). unfold t. lia. }
  rewrite (sval_congr w t (l - r) Ht), Ht.
  replace (sval w l + (-1 - sval w r) + 1) with (sval w l - sval w r) by lia.
  f_equal. f_equal.
  - rewrite <- uval_sub_uval. pose proof (uval_range w l). pose proof (uval_range w r).
    pose proof (pow2_pos (RegWidth.bits w) ltac:(destruct w; cbn; lia)).
    unfold uval at 1, wrap.
    destruct (Z.eqb_spec (uval w l) (uval w r)) as [-> | Hne].
    + rewrite Z.sub_diag. reflexivity.
    + apply Z.eqb_neq. intros Hmod. apply Hne.
      apply Z.mod_divide in Hmod; [| lia]. destruct Hmod as [k Hk].
      assert (k = 0) by nia. nia.
  - unfold t. destruct (Z.leb_spec (uval w r) (uval w l)); lia.
Qed.

(** ** Conditions after a compare *)

Definition compare_flags (w : RegWidth) (l r : Z) : Nzcv :=
  FlaggedResult.flags (add_with_carry (l, wnot 64 r) true w).

Lemma sval_range (w : RegWidth) (x : Z) :
  - 2 ^ (RegWidth.bits w - 1) <= sval w x < 2 ^ (RegWidth.bits w - 1).
Proof. apply to_signed_range. destruct w; cbn; lia. Qed.

(** N and V of a compare differ exactly when the signed order is strict. *)
Lemma compare_signed (w : RegWidth) (l r : Z) :
  Bool.eqb (Nzcv.n (compare_flags w l r)) (Nzcv.v (compare_flags w l r)) =
  (sval w r <=? sval w l).
Proof.
  unfold compare_flags. rewrite subtract_correct. cbn -[Z.pow Z.sub Z.opp].
  pose proof (sval_range w l). pose proof (sval_range w r). pose proof (width_pow w).
  set (h := 2 ^ (RegWidth.bits w - 1)) in *. set (d := sval w l - sval w r).
  assert (exists k, sval w (l - r) = d + k * (2 * h)) as [k Hk].
  { assert (forall x, exists k, sval w x = x + k * (2 * h)) as Hc.
    { intros x. rewrite sval_uval. unfold uval, wrap. rewrite H1.
      pose proof (Z.div_mod x (2 * h)). destruct (_ <? _);
        [exists (- (x / (2 * h))) | exists (- (x / (2 * h)) - 1)]; nia. }
    destruct (Hc (l - r)) as [k1 ?], (Hc l) as [k2 ?], (Hc r) as [k3 ?].
    exists (k1 - k2 + k3). unfold d. nia. }
  pose proof (sval_range w (l - r)) as Hd. fold h in Hd. rewrite Hk in *.
  assert (k = 0 \/ k = 1 \/ k = -1) as Hk' by (unfold d in *; nia).
  unfold d in *. clear Hk. clearbody h.
  destruct Hk' as [-> | [-> | ->]];
    repeat match goal with |- context [?a <=? ?b] => destruct (Z.leb_spec a b) end;
    repeat match goal with |- context [?a <? ?b] => destruct (Z.ltb_spec a b) end;
    try reflexivity; lia.
Qed.

Lemma compare_zero (w : RegWidth) (l r : Z) :
  Nzcv.z (compare_flags w l r) = (uval w l =? uval w r).
Proof. unfold compare_flags. rewrite subtract_correct. reflexivity. Qed.

Lemma compare_carry (w : RegWidth) (l r : Z) :
  Nzcv.c (compare_flags w l r) = (uval w r <=? uval w l).
Proof. unfold compare_flags. rewrite subtract_correct. reflexivity. Qed.

Lemma sval_eqb (w : RegWidth) (l r : Z) : (sval w l =? sval w r) = (uval w l =? uval w r).
Proof.
  rewrite !sval_uval. pose proof (uval_range w l). pose proof (uval_range w r).
  pose proof (width_pow w).
  destruct (Z.ltb_spec (uval w l) (2 ^ (RegWidth.bits w - 1)));
  destruct (Z.ltb_spec (uval w r) (2 ^ (RegWidth.bits w - 1)));
  destruct (Z.eqb_spec (uval w l) (uval w r)); lia.
Qed.

(** What each ordering condition means for [CMP l, r]. *)
Definition condition_after_compare (w : RegWidth) (l r : Z) (cond : Cond) : option bool :=
  match cond with
  | Cond.Eq => Some (uval w l =? uval w r)
  | Cond.Ne => Some (negb (uval w l =? uval w r))
  | Cond.Cs => Some (uval w r <=? uval w l)
  | Cond.Cc => Some (uval w l <? uval w r)
  | Cond.Hi => Some (uval w r <? uval w l)
  | Cond.Ls => Some (uval w l <=? uval w r)
  | Cond.Ge => Some (sval w r <=? sval w l)
  | Cond.Lt => Some (sval w l <? sval w r)
  | Cond.Gt => Some (sval w r <? sval w l)
  | Cond.Le => Some (sval w l <=? sval w r)
  | Cond.Al | Cond.Nv => Some true
  | Cond.Mi | Cond.Pl | Cond.Vs | Cond.Vc => None
  end.

Lemma compare_condition (w : RegWidth) (l r : Z) (cond : Cond) (b : bool) :
  condition_after_compare w l r cond = Some b ->
  is_condition_met cond (compare_flags w l r) = b.
Proof.
  intros H. assert (sval w l = sval w r <-> uval w l = uval w r) as E.
  { rewrite <- !Z.eqb_eq, sval_eqb. reflexivity. }
  destruct cond; injection H as <- || discriminate; cbn [is_condition_met];
    rewrite ?compare_signed, ?compare_zero, ?compare_carry; try reflexivity;
    repeat match goal with |- context [?a <=? ?b] => destruct (Z.leb_spec a b) end;
    repeat match goal with |- context [?a <? ?b] => destruct (Z.ltb_spec a b) end;
    repeat match goal with |- context [?a =? ?b] => destruct (Z.eqb_spec a b) end;
    try reflexivity; lia.
Qed.

Lemma condition_invert (cond : Cond) (flags : Nzcv) :
  cond <> Cond.Al -> cond <> Cond.Nv ->
  is_condition_met (Cond.invert cond) flags = negb (is_condition_met cond flags).
Proof.
  intros Hal Hnv. destruct cond; cbn; rewrite ?negb_involutive; try reflexivity; congruence.
Qed.

(** ** Logical flags *)

Lemma logical_flags_correct (value : Z) (w : RegWidth) :
  logical_flags value w = Nzcv.mk (sval w value <? 0) (uval w value =? 0) false false.
Proof.
  unfold logical_flags. rewrite land_mask. fold (uval w value).
  rewrite sign_bit_testbit, top_bit by apply uval_range. f_equal.
  rewrite sval_uval. pose proof (uval_range w value). pose proof (width_pow w).
  destruct (Z.leb_spec (2 ^ (RegWidth.bits w - 1)) (uval w value));
  destruct (Z.ltb_spec (uval w value) (2 ^ (RegWidth.bits w - 1))); lia.
Qed.
