(* ===== verification/Fetch.v ===== *)
(** Reading operands out of the register file
    ([crates/core/src/interp/fetch.rs]): constant shifts, extensions and
    effective addresses. *)

From stdpp Require Import base numbers list option.
From S2P Require Import Prelude Reg Pstate RegFile Operand Op Instruction Flags.

#[local] Open Scope Z_scope.

Definition read_gpr (regs : RegFile) (reg : Gpr) (width : RegWidth) : may_panic Z :=
  value ← RegFile.read_x regs reg;
  mret (Z.land value (RegWidth.mask width)).

(** Keeps the low [bits] of [value]. *)
Definition mask_to (value bits : Z) : Z :=
  if 64 <=? bits then value else Z.land value (wsub 64 (wshl 64 1 bits) 1).

(** Replicates bit [bits - 1] of [value] through the upper bits. *)
Definition sign_extend_to_64 (value bits : Z) : Z :=
  if 64 <=? bits then value
  else let shift := wsub 32 64 bits in sar64 (wshl 64 value shift) shift.

(** The bits a 32-bit rotate must pull back down from the 64-bit rotation. *)
Definition rotate_carry (value amount bits : Z) : Z :=
  if (64 <=? bits) || (amount =? 0) then 0 else wshl 64 value (wsub 32 bits (amount mod bits)).

Definition read_shifted (regs : RegFile) (operand : ShiftedReg) (width : RegWidth) :
    may_panic Z :=
  value ← read_gpr regs (ShiftedReg.reg operand) width;
  let amount := ShiftedReg.amount operand in
  let bits := RegWidth.bits width in
  let shifted :=
    match ShiftedReg.kind operand with
    | ShiftKind.Lsl => wshl 64 value amount
    | ShiftKind.Lsr => wshr 64 value amount
    | ShiftKind.Asr => as_u64 (Z.shiftr (as_i64 (sign_extend_to_64 value bits)) (amount mod 64))
    | ShiftKind.Ror => Z.lor (rotate_right64 value amount) (rotate_carry value amount bits)
    end in
  mret (Z.land shifted (RegWidth.mask width)).

Definition read_extended (regs : RegFile) (operand : ExtendedReg) : may_panic Z :=
  raw ← RegFile.read_x regs (ExtendedReg.reg operand);
  let source_bits := ExtendKind.source_bits (ExtendedReg.kind operand) in
  let extended :=
    if ExtendKind.is_signed (ExtendedReg.kind operand)
    then sign_extend_to_64 raw source_bits
    else mask_to raw source_bits in
  mret (wshl 64 extended (ExtendedReg.amount operand)).

Module EffectiveAddress.

Record EffectiveAddress : Type := mk { address : Z; writeback : option (Gpr * Z) }.

End EffectiveAddress.

Abbreviation EffectiveAddress := EffectiveAddress.EffectiveAddress.

Definition effective_address (regs : RegFile) (addr : AddrMode) (pc : Z) :
    may_panic EffectiveAddress :=
  let based base_reg offset writeback :=
    base_value ← RegFile.read_x regs base_reg;
    let updated := wadd 64 base_value (as_u64 offset) in
    let address :=
      match writeback with
      | WriteBack.Post => base_value
      | WriteBack.Pre | WriteBack.None => updated
      end in
    mret (EffectiveAddress.mk address
            (match writeback with
             | WriteBack.None => None
             | WriteBack.Pre | WriteBack.Post => Some (base_reg, updated)
             end)) in
  match addr with
  | AddrMode.Immediate base offset writeback => based base offset writeback
  | AddrMode.Register base index writeback =>
      offset ← read_extended regs index;
      based base (as_i64 offset) writeback
  | AddrMode.BaseOnly base => based base 0 WriteBack.None
  | AddrMode.PcRelative offset =>
      mret (EffectiveAddress.mk (wadd 64 pc (as_u64 offset)) None)
  end.

(** ** Specifications *)

(** Bit [i] of a value [v] of [bits] bits under a constant shift by [n]. *)
Definition shifted_bit (kind : ShiftKind) (bits n v i : Z) : bool :=
  match kind with
  | ShiftKind.Lsl => (n <=? i) && Z.testbit v (i - n)
  | ShiftKind.Lsr => Z.testbit v (i + n)
  | ShiftKind.Asr => Z.testbit v (Z.min (i + n) (bits - 1))
  | ShiftKind.Ror => Z.testbit v ((i + n) mod bits)
  end.

(** The integer an extension reads from a register's value. *)
Definition extended_value (kind : ExtendKind) (v : Z) : Z :=
  if ExtendKind.is_signed kind then to_signed (ExtendKind.source_bits kind) v
  else wrap (ExtendKind.source_bits kind) v.

(** ** Register reads *)

Lemma read_gpr_returns (r : RegFile) (reg : Gpr) (w : RegWidth) :
  regfile_ok r -> gpr_ok reg ->
  returns (read_gpr r reg w)
    (fun v => in_range (RegWidth.bits w) v /\
              exists x, RegFile.read_x r reg = Done x /\ v = uval w x).
Proof.
  intros Hr Hg. destruct (read_x_returns r reg Hr Hg) as (x & Hx & _).
  unfold read_gpr. rewrite Hx. apply returns_ret. rewrite land_mask.
  split; [apply wrap_range; destruct w; cbn; lia | exists x; split; reflexivity].
Qed.

Lemma mask_to_wrap (v n : Z) : in_range 64 v -> 0 <= n <= 64 -> mask_to v n = wrap n v.
Proof.
  intros Hv Hn. unfold mask_to. destruct (Z.leb_spec 64 n).
  - replace n with 64 by lia. symmetry. apply wrap_small, Hv.
  - rewrite wrap_land_ones by lia. f_equal. unfold wsub, wshl.
    rewrite (Z.mod_small n), Z.shiftl_1_l, Z.ones_equiv by lia.
    pose proof (pow2_pos n ltac:(lia)).
    assert (2 ^ n < 2 ^ 64) by (apply Z.pow_lt_mono_r; lia).
    rewrite (wrap_small 64 (2 ^ n)) by (split; lia). rewrite wrap_small by (split; lia). lia.
Qed.

Lemma sign_extend_to_64_signed (v n : Z) :
  in_range 64 v -> 0 < n <= 64 -> sign_extend_to_64 v n = as_u64 (to_signed n v).
Proof.
  intros Hv Hn. unfold sign_extend_to_64. destruct (Z.leb_spec 64 n).
  - replace n with 64 by lia. unfold as_u64. rewrite wrap_to_signed. symmetry. apply wrap_small, Hv.
  - replace (wsub 32 64 n) with (64 - n) by (symmetry; apply wrap_small; split; lia).
    apply sar64_wshl64. lia.
Qed.

Lemma sign_extend_to_64_range (v n : Z) : in_range 64 v -> in_range 64 (sign_extend_to_64 v n).
Proof.
  intros Hv. unfold sign_extend_to_64. destruct (64 <=? n); [exact Hv | apply wrap_range; lia].
Qed.

(** ** Constant shifts *)

Lemma rotate_bit (w : RegWidth) (v n i : Z) :
  in_range (RegWidth.bits w) v -> 0 <= n < RegWidth.bits w -> 0 <= i < RegWidth.bits w ->
  Z.testbit (Z.lor (rotate_right64 v n) (rotate_carry v n (RegWidth.bits w))) i =
  Z.testbit v ((i + n) mod RegWidth.bits w).
Proof.
  intros Hv Hn Hi. assert (RegWidth.bits w <= 64) as Hw by (apply width_bits_le).
  unfold rotate_right64, rotate_carry. rewrite (Z.mod_small n 64) by lia.
  rewrite !Z.lor_spec. unfold wshr at 1. rewrite (Z.mod_small n 64), Z.shiftr_spec by lia.
  destruct (Z.eq_dec n 0) as [-> | Hn0].
  - rewrite orb_true_r, Z.testbit_0_l, orb_false_r, Z.add_0_r, (Z.mod_small i) by lia.
    unfold wshl. change ((64 - 0) mod 64) with 0. rewrite Z.shiftl_0_r, wrap_testbit by lia.
    destruct (Z.ltb_spec i 64); [apply orb_diag | lia].
  - unfold wshl at 1. rewrite (Z.mod_small (64 - n) 64), wrap_testbit, Z.shiftl_spec by lia.
    assert ((i + n) mod RegWidth.bits w =
            if i + n <? RegWidth.bits w then i + n else i + n - RegWidth.bits w) as ->.
    { destruct (Z.ltb_spec (i + n) (RegWidth.bits w)); [apply Z.mod_small; lia |].
      symmetry. apply (Z.mod_unique_pos _ _ 1); lia. }
    destruct (Z.ltb_spec i 64); [| lia]. cbn [andb].
    destruct w; cbn [RegWidth.bits] in *.
    + destruct (Z.eqb_spec n 0); [lia |]. cbn [orb Z.leb Z.compare Pos.compare Pos.compare_cont].
      rewrite (Z.testbit_neg_r v (i - (64 - n))), orb_false_r by lia.
      rewrite (Z.mod_small n 32) by lia.
      unfold wshl, wsub. rewrite (wrap_small 32 (32 - n)) by (split; lia).
      rewrite (Z.mod_small (32 - n) 64), wrap_testbit, Z.shiftl_spec by lia.
      destruct (Z.ltb_spec i 64); [| lia]. cbn [andb].
      destruct (Z.ltb_spec (i + n) 32).
      * rewrite (Z.testbit_neg_r v (i - (32 - n))) by lia. apply orb_false_r.
      * rewrite (in_range_testbit_high 32 v (i + n)) by (assumption || lia).
        cbn [orb]. f_equal. lia.
    + cbn [orb Z.leb Z.compare Pos.compare Pos.compare_cont].
      rewrite Z.testbit_0_l, orb_false_r. destruct (Z.ltb_spec (i + n) 64).
      * rewrite (Z.testbit_neg_r v (i - (64 - n))) by lia. apply orb_false_r.
      * rewrite (in_range_testbit_high 64 v (i + n)) by (assumption || lia).
        cbn [orb]. f_equal. lia.
Qed.

Lemma asr_bit (w : RegWidth) (v n i : Z) :
  in_range (RegWidth.bits w) v -> 0 <= n < RegWidth.bits w -> 0 <= i < RegWidth.bits w ->
  Z.testbit (as_u64 (Z.shiftr (as_i64 (sign_extend_to_64 v (RegWidth.bits w))) (n mod 64))) i =
  Z.testbit v (Z.min (i + n) (RegWidth.bits w - 1)).
Proof.
  intros Hv Hn Hi. pose proof (width_bits_le w). pose proof (width_bits_pos w).
  rewrite sign_extend_to_64_signed by (try lia; apply (in_range_weaken (RegWidth.bits w)); assumption).
  assert (as_i64 (as_u64 (to_signed (RegWidth.bits w) v)) = to_signed (RegWidth.bits w) v) as ->.
  { unfold as_i64, as_u64, to_signed at 1. rewrite wrap_wrap.
    fold (to_signed 64 (to_signed (RegWidth.bits w) v)). apply to_signed_wrap; [lia |].
    pose proof (to_signed_range (RegWidth.bits w) v ltac:(lia)).
    pose proof (Z.pow_le_mono_r 2 (RegWidth.bits w - 1) (64 - 1) ltac:(lia) ltac:(lia)). lia. }
  unfold as_u64. rewrite wrap_testbit, (Z.mod_small n), Z.shiftr_spec by lia.
  destruct (Z.ltb_spec i 64); [| lia]. cbn [andb]. apply to_signed_testbit; lia.
Qed.

Lemma read_shifted_returns (r : RegFile) (op : ShiftedReg) (w : RegWidth) :
  regfile_ok r -> shifted_ok w op ->
  returns (read_shifted r op w) (fun v =>
    in_range (RegWidth.bits w) v /\
    exists x, RegFile.read_x r (ShiftedReg.reg op) = Done x /\
      forall i, 0 <= i < RegWidth.bits w ->
        Z.testbit v i =
        shifted_bit (ShiftedReg.kind op) (RegWidth.bits w) (ShiftedReg.amount op) (uval w x) i).
Proof.
  intros Hr [Hg Hn]. unfold read_shifted.
  eapply returns_bind; [apply read_gpr_returns; assumption |].
  intros v (Hv & x & Hx & ->). apply returns_ret.
  pose proof (width_bits_le w). pose proof (width_bits_pos w). rewrite land_mask.
  split; [apply wrap_range; lia |]. exists x. split; [exact Hx |]. intros i Hi.
  rewrite wrap_testbit by lia. destruct (Z.ltb_spec i (RegWidth.bits w)); [| lia]. cbn [andb].
  destruct (ShiftedReg.kind op); cbn [shifted_bit].
  - unfold wshl. rewrite wrap_testbit, (Z.mod_small (ShiftedReg.amount op)), Z.shiftl_spec by lia.
    destruct (Z.ltb_spec i 64); [| lia]. cbn [andb].
    destruct (Z.leb_spec (ShiftedReg.amount op) i); [reflexivity | apply Z.testbit_neg_r; lia].
  - unfold wshr. rewrite (Z.mod_small (ShiftedReg.amount op)), Z.shiftr_spec by lia. reflexivity.
  - apply asr_bit; assumption.
  - apply rotate_bit; assumption.
Qed.

(** ** Extensions *)

Lemma read_extended_returns (r : RegFile) (op : ExtendedReg) :
  regfile_ok r -> extended_ok op ->
  returns (read_extended r op) (fun v =>
    in_range 64 v /\
    exists x, RegFile.read_x r (ExtendedReg.reg op) = Done x /\
      v = as_u64 (extended_value (ExtendedReg.kind op) x * 2 ^ ExtendedReg.amount op)).
Proof.
  intros Hr [Hg Hn]. unfold read_extended.
  destruct (read_x_returns r _ Hr Hg) as (x & Hx & Hrange). rewrite Hx. apply returns_ret.
  split; [apply wrap_range; lia |]. exists x. split; [reflexivity |].
  assert (forall y, wshl 64 (as_u64 y) (ExtendedReg.amount op) =
                    as_u64 (y * 2 ^ ExtendedReg.amount op)) as Hshl.
  { intros y. unfold wshl, as_u64, wrap. rewrite (Z.mod_small (ExtendedReg.amount op)) by lia.
    rewrite Z.shiftl_mul_pow2 by lia. apply Z.mul_mod_idemp_l. lia. }
  assert (0 < ExtendKind.source_bits (ExtendedReg.kind op) <= 64) as Hs
    by (destruct (ExtendedReg.kind op); cbn; lia).
  unfold extended_value. destruct (ExtendKind.is_signed (ExtendedReg.kind op)).
  - rewrite sign_extend_to_64_signed by assumption. apply Hshl.
  - rewrite mask_to_wrap by (assumption || lia). rewrite <- Hshl. f_equal.
    symmetry. apply wrap_small. apply in_range_weaken with (ExtendKind.source_bits (ExtendedReg.kind op));
      [lia | apply wrap_range; lia].
Qed.

(** ** Effective addresses *)

(** The offset an addressing mode adds to its base, modulo [2^64], when the
    registers hold [rd]. *)
Definition mode_offset (rd : Gpr -> Z) (addr : AddrMode) : Z :=
  match addr with
  | AddrMode.Immediate _ offset _ | AddrMode.PcRelative offset => offset
  | AddrMode.Register _ index _ =>
      extended_value (ExtendedReg.kind index) (rd (ExtendedReg.reg index)) *
      2 ^ ExtendedReg.amount index
  | AddrMode.BaseOnly _ => 0
  end.

Definition spec_effective_address (rd : Gpr -> Z) (addr : AddrMode) (pc : Z) : EffectiveAddress :=
  match addr with
  | AddrMode.PcRelative offset => EffectiveAddress.mk (as_u64 (pc + offset)) None
  | AddrMode.BaseOnly base => EffectiveAddress.mk (rd base) None
  | AddrMode.Immediate base _ wb | AddrMode.Register base _ wb =>
      let updated := as_u64 (rd base + mode_offset rd addr) in
      match wb with
      | WriteBack.None => EffectiveAddress.mk updated None
      | WriteBack.Pre => EffectiveAddress.mk updated (Some (base, updated))
      | WriteBack.Post => EffectiveAddress.mk (rd base) (Some (base, updated))
      end
  end.

(** The value of a register of a well-formed file. *)
Definition reg_value (r : RegFile) (reg : Gpr) : Z :=
  match RegFile.read_x r reg with Done x => x | Panic => 0 end.

Lemma read_x_value (r : RegFile) (reg : Gpr) :
  regfile_ok r -> gpr_ok reg ->
  RegFile.read_x r reg = Done (reg_value r reg) /\ in_range 64 (reg_value r reg).
Proof.
  intros Hr Hg. destruct (read_x_returns r reg Hr Hg) as (x & Hx & Hrange).
  unfold reg_value. rewrite Hx. split; [reflexivity | exact Hrange].
Qed.

Lemma wadd_as_u64 (x y : Z) : wadd 64 x (as_u64 y) = as_u64 (x + y).
Proof. unfold wadd, as_u64, wrap. apply Z.add_mod_idemp_r. lia. Qed.

Lemma as_u64_as_i64 (x : Z) : as_u64 (as_i64 x) = as_u64 x.
Proof. apply wrap_to_signed. Qed.

Lemma as_u64_add_idemp (x y : Z) : as_u64 (x + as_u64 y) = as_u64 (x + y).
Proof. unfold as_u64, wrap. apply Z.add_mod_idemp_r. lia. Qed.

Lemma effective_address_correct (r : RegFile) (addr : AddrMode) (pc : Z) :
  regfile_ok r -> addr_ok addr ->
  effective_address r addr pc = Done (spec_effective_address (reg_value r) addr pc).
Proof.
  intros Hr Ha. destruct addr as [base offset wb | base idx wb | offset | base]; cbn in Ha.
  - destruct Ha as [Hg _]. destruct (read_x_value r base Hr Hg) as [Hx _].
    unfold effective_address. rewrite Hx. cbn. rewrite wadd_as_u64. destruct wb; reflexivity.
  - destruct Ha as [Hg Hi]. destruct (read_x_value r base Hr Hg) as [Hx _].
    destruct (read_extended_returns r idx Hr Hi) as (v & Hv & _ & y & Hy & ->).
    assert (reg_value r (ExtendedReg.reg idx) = y) as Ey by (unfold reg_value; rewrite Hy; reflexivity).
    unfold effective_address. rewrite Hv. cbn [mbind may_panic_bind]. rewrite Hx.
    unfold spec_effective_address, mode_offset. rewrite Ey. cbn [mbind may_panic_bind mret may_panic_ret].
    rewrite as_u64_as_i64, wadd_as_u64, as_u64_add_idemp. destruct wb; reflexivity.
  - reflexivity || (cbn; rewrite wadd_as_u64; reflexivity).
  - destruct (read_x_value r base Hr Ha) as [Hx Hrange].
    unfold effective_address. rewrite Hx. cbn. rewrite wadd_as_u64, Z.add_0_r.
    f_equal. f_equal. apply wrap_small, Hrange.
Qed.

(** ** Constant shifts as arithmetic *)

Definition shift_value (w : RegWidth) (kind : ShiftKind) (n v : Z) : Z :=
  match kind with
  | ShiftKind.Lsl => uval w (v * 2 ^ n)
  | ShiftKind.Lsr => v / 2 ^ n
  | ShiftKind.Asr => uval w (sval w v / 2 ^ n)
  | ShiftKind.Ror => v / 2 ^ n + v mod 2 ^ n * 2 ^ (RegWidth.bits w - n)
  end.

Lemma rotate_as_lor (w : RegWidth) (n v : Z) :
  in_range (RegWidth.bits w) v -> 0 <= n < RegWidth.bits w ->
  v / 2 ^ n + v mod 2 ^ n * 2 ^ (RegWidth.bits w - n) =
  Z.lor (Z.shiftr v n) (Z.shiftl (v mod 2 ^ n) (RegWidth.bits w - n)).
Proof.
  intros Hv Hn. rewrite <- Z.shiftl_mul_pow2, <- Z.shiftr_div_pow2 by lia.
  assert (Z.land (Z.shiftr v n) (Z.shiftl (v mod 2 ^ n) (RegWidth.bits w - n)) = 0) as Hd;
    [| rewrite Z.add_nocarry_lxor, Z.lxor_lor by exact Hd; reflexivity].
  apply Z.bits_inj'. intros i Hi. rewrite Z.land_spec, Z.testbit_0_l.
  rewrite Z.shiftr_spec, Z.shiftl_spec by lia.
  destruct (Z.lt_ge_cases i (RegWidth.bits w - n)).
  - rewrite (Z.testbit_neg_r _ (i - (RegWidth.bits w - n))) by lia. apply andb_false_r.
  - rewrite (in_range_testbit_high (RegWidth.bits w) v) by (assumption || lia). reflexivity.
Qed.

Lemma shift_value_range (w : RegWidth) (kind : ShiftKind) (n v : Z) :
  in_range (RegWidth.bits w) v -> 0 <= n < RegWidth.bits w ->
  in_range (RegWidth.bits w) (shift_value w kind n v).
Proof.
  intros Hv Hn. destruct kind; cbn [shift_value].
  - apply uval_range.
  - rewrite <- Z.shiftr_div_pow2 by lia. apply in_range_shiftr; [lia | exact Hv].
  - apply uval_range.
  - pose proof (pow2_pos n ltac:(lia)) as Hp. pose proof (Z.mod_pos_bound v (2 ^ n) Hp).
    pose proof (pow2_pos (RegWidth.bits w - n) ltac:(lia)). destruct Hv as [Hv0 Hv1].
    assert (2 ^ RegWidth.bits w = 2 ^ n * 2 ^ (RegWidth.bits w - n)) as E
      by (rewrite <- Z.pow_add_r by lia; f_equal; lia).
    assert (0 <= v / 2 ^ n < 2 ^ (RegWidth.bits w - n)).
    { split; [apply Z.div_pos; lia | apply Z.div_lt_upper_bound; lia]. }
    unfold in_range. nia.
Qed.

Lemma shift_value_bit (w : RegWidth) (kind : ShiftKind) (n v i : Z) :
  in_range (RegWidth.bits w) v -> 0 <= n < RegWidth.bits w -> 0 <= i < RegWidth.bits w ->
  Z.testbit (shift_value w kind n v) i = shifted_bit kind (RegWidth.bits w) n v i.
Proof.
  intros Hv Hn Hi. pose proof (width_bits_pos w).
  assert (forall x, Z.testbit (uval w x) i = Z.testbit x i) as Hu.
  { intros x. unfold uval. rewrite wrap_testbit by lia.
    destruct (Z.ltb_spec i (RegWidth.bits w)); [reflexivity | lia]. }
  destruct kind; cbn [shift_value shifted_bit].
  - rewrite Hu, <- Z.shiftl_mul_pow2, Z.shiftl_spec by lia.
    destruct (Z.leb_spec n i); [reflexivity | apply Z.testbit_neg_r; lia].
  - rewrite <- Z.shiftr_div_pow2, Z.shiftr_spec by lia. reflexivity.
  - rewrite Hu, <- Z.shiftr_div_pow2, Z.shiftr_spec by lia. apply to_signed_testbit; lia.
  - rewrite rotate_as_lor, Z.lor_spec, Z.shiftr_spec, Z.shiftl_spec by (assumption || lia).
    change (v mod 2 ^ n) with (wrap n v).
    destruct (Z.lt_ge_cases (i + n) (RegWidth.bits w)) as [Hlt | Hge].
    + rewrite (Z.mod_small (i + n)) by lia.
      rewrite (Z.testbit_neg_r _ (i - (RegWidth.bits w - n))) by lia. apply orb_false_r.
    + rewrite (in_range_testbit_high (RegWidth.bits w) v (i + n)) by (assumption || lia).
      replace ((i + n) mod RegWidth.bits w) with (i - (RegWidth.bits w - n))
        by (apply (Z.mod_unique_pos _ _ 1); lia).
      rewrite wrap_testbit by lia. cbn [orb].
      destruct (Z.ltb_spec (i - (RegWidth.bits w - n)) n); [reflexivity | lia].
Qed.

(** Two values of a width with the same bits are equal. *)
Lemma in_range_ext (n x y : Z) :
  0 <= n -> in_range n x -> in_range n y ->
  (forall i, 0 <= i < n -> Z.testbit x i = Z.testbit y i) -> x = y.
Proof.
  intros Hn Hx Hy H. apply Z.bits_inj'. intros i Hi. destruct (Z.lt_ge_cases i n).
  - apply H. lia.
  - rewrite !(in_range_testbit_high n) by assumption. reflexivity.
Qed.

Lemma read_shifted_value (r : RegFile) (op : ShiftedReg) (w : RegWidth) :
  regfile_ok r -> shifted_ok w op ->
  read_shifted r op w =
  Done (shift_value w (ShiftedReg.kind op) (ShiftedReg.amount op)
          (uval w (reg_value r (ShiftedReg.reg op)))).
Proof.
  intros Hr Hop. destruct (read_shifted_returns r op w Hr Hop) as (v & -> & Hv & x & Hx & Hb).
  f_equal. assert (reg_value r (ShiftedReg.reg op) = x) as ->
    by (unfold reg_value; rewrite Hx; reflexivity).
  destruct Hop as [_ Hn]. pose proof (width_bits_pos w).
  assert (in_range (RegWidth.bits w) (uval w x)) by apply uval_range.
  apply (in_range_ext (RegWidth.bits w)); [lia | exact Hv | apply shift_value_range; assumption |].
  intros i Hi. rewrite Hb, shift_value_bit by assumption. reflexivity.
Qed.

Lemma read_extended_value (r : RegFile) (op : ExtendedReg) :
  regfile_ok r -> extended_ok op ->
  read_extended r op =
  Done (as_u64 (extended_value (ExtendedReg.kind op) (reg_value r (ExtendedReg.reg op)) *
                2 ^ ExtendedReg.amount op)).
Proof.
  intros Hr Hop. destruct (read_extended_returns r op Hr Hop) as (v & -> & _ & x & Hx & ->).
  do 4 f_equal. unfold reg_value. rewrite Hx. reflexivity.
Qed.

Lemma read_gpr_value (r : RegFile) (reg : Gpr) (w : RegWidth) :
  regfile_ok r -> gpr_ok reg -> read_gpr r reg w = Done (uval w (reg_value r reg)).
Proof.
  intros Hr Hg. destruct (read_gpr_returns r reg w Hr Hg) as (v & -> & _ & x & Hx & ->).
  do 2 f_equal. unfold reg_value. rewrite Hx. reflexivity.
Qed.
