(* ===== verification/DataTheorems.v ===== *)
(** What the interpreter computes with: flags, conditions, operands and
    addresses ([crates/core/src/interp/flags.rs],
    [crates/core/src/interp/fetch.rs], [crates/core/src/pstate.rs]). *)

From stdpp Require Import base numbers list option.
From S2P Require Import Prelude Reg Pstate RegFile Operand Op Instruction Flags Fetch.

#[local] Open Scope Z_scope.

(** A register file with distinct values to read. *)
Definition sample_regs : RegFile :=
  RegFile.with_x RegFile.new ((fun i => 0x123456789 * i) <$> zrange 31).

Lemma sample_regs_ok : regfile_ok sample_regs.
Proof.
  destruct regfile_new_ok. split; try assumption.
  apply Forall_fmap, list.Forall_forall. intros i Hi%elem_of_zrange. unfold compose. split; lia.
Qed.

(** [add_with_carry] is addition.  At either width, the value is the sum of
    the operands and the carry modulo [2^width], N is its sign, Z its being zero,
    C the unsigned carry out, and V says that the signed sum does not fit; with the
    right operand inverted and the carry set it is subtraction, where C is set iff
    there is no borrow. *)
Theorem add_with_carry_spec (w : RegWidth) (l r : Z) (c : bool) :
  add_with_carry (l, r) c w =
    (let total := uval w l + uval w r + b2z c in
     let signed := sval w l + sval w r + b2z c in
     FlaggedResult.mk (uval w total)
       (Nzcv.mk (sval w total <? 0) (uval w total =? 0) (2 ^ RegWidth.bits w <=? total)
          (negb ((- 2 ^ (RegWidth.bits w - 1) <=? signed) &&
                 (signed <? 2 ^ (RegWidth.bits w - 1)))))) /\
  add_with_carry (l, wnot 64 r) true w =
    FlaggedResult.mk (uval w (l - r))
      (Nzcv.mk (sval w (l - r) <? 0) (uval w l =? uval w r) (uval w r <=? uval w l)
         (negb ((- 2 ^ (RegWidth.bits w - 1) <=? sval w l - sval w r) &&
                (sval w l - sval w r <? 2 ^ (RegWidth.bits w - 1))))).
Proof. split; [apply add_with_carry_correct | apply subtract_correct]. Qed.

(** conditions order.  After the compare [l - r] every comparison condition
    of the architecture means the comparison of [l] and [r]: EQ and NE equality,
    HS, LO, HI and LS the unsigned order at the width, GE, LT, GT and LE the signed
    one. *)
Theorem conditions_after_compare (w : RegWidth) (l r : Z) :
  let flags := FlaggedResult.flags (add_with_carry (l, wnot 64 r) true w) in
  is_condition_met Cond.Eq flags = (uval w l =? uval w r) /\
  is_condition_met Cond.Ne flags = negb (uval w l =? uval w r) /\
  is_condition_met Cond.Cs flags = (uval w r <=? uval w l) /\
  is_condition_met Cond.Cc flags = (uval w l <? uval w r) /\
  is_condition_met Cond.Hi flags = (uval w r <? uval w l) /\
  is_condition_met Cond.Ls flags = (uval w l <=? uval w r) /\
  is_condition_met Cond.Ge flags = (sval w r <=? sval w l) /\
  is_condition_met Cond.Lt flags = (sval w l <? sval w r) /\
  is_condition_met Cond.Gt flags = (sval w r <? sval w l) /\
  is_condition_met Cond.Le flags = (sval w l <=? sval w r).
Proof. repeat split; apply compare_condition; reflexivity. Qed.

(** [Cond::invert] negates.  Inverting any condition other than AL and NV
    gives the condition met exactly when the first is not, and inverting twice
    gives the condition back. *)
Theorem invert_negates (cond : Cond) (flags : Nzcv) :
  (cond <> Cond.Al -> cond <> Cond.Nv ->
   is_condition_met (Cond.invert cond) flags = negb (is_condition_met cond flags)) /\
  Cond.invert (Cond.invert cond) = cond.
Proof. split; [apply condition_invert | destruct cond; reflexivity]. Qed.

Lemma invert_negates_witness :
  is_condition_met (Cond.invert Cond.Gt) (Nzcv.mk true false false true) =
  negb (is_condition_met Cond.Gt (Nzcv.mk true false false true)).
Proof. apply invert_negates; discriminate. Defined.

(** shifted operands.  Reading a register shifted by a constant below the
    width does not panic and gives the value at the width whose bits are the
    register's, moved: zeros in from the right (LSL) or the left (LSR), the sign
    bit repeated (ASR), the bits rotated within the operand width, 32 bits
    included (ROR). *)
Theorem read_shifted_bits (r : RegFile) (op : ShiftedReg) (w : RegWidth) :
  regfile_ok r -> gpr_ok (ShiftedReg.reg op) ->
  0 <= ShiftedReg.amount op < RegWidth.bits w ->
  returns (read_shifted r op w) (fun v =>
    in_range (RegWidth.bits w) v /\
    exists x, RegFile.read_x r (ShiftedReg.reg op) = Done x /\
      forall i, 0 <= i < RegWidth.bits w ->
        let n := ShiftedReg.amount op in
        let bits := RegWidth.bits w in
        Z.testbit v i =
        match ShiftedReg.kind op with
        | ShiftKind.Lsl => (n <=? i) && Z.testbit (uval w x) (i - n)
        | ShiftKind.Lsr => Z.testbit (uval w x) (i + n)
        | ShiftKind.Asr => Z.testbit (uval w x) (Z.min (i + n) (bits - 1))
        | ShiftKind.Ror => Z.testbit (uval w x) ((i + n) mod bits)
        end).
Proof. intros Hr Hg Hn. exact (read_shifted_returns r op w Hr (conj Hg Hn)). Qed.

Lemma read_shifted_bits_witness :
  returns (read_shifted sample_regs (ShiftedReg.mk (Gpr.X 7) ShiftKind.Ror 5) RegWidth.W32)
    (fun v => in_range 32 v).
Proof.
  eapply returns_mono; [apply read_shifted_bits; [exact sample_regs_ok | cbn; unfold NUM_GPR; lia | cbn; lia] |].
  intros v [Hv _]. exact Hv.
Defined.

(** Extended operands.  Reading a register through an extension shifted
    left by at most four does not panic and gives, modulo [2^64], the low 8, 16, 32
    or 64 bits of the register, read as unsigned (UXT) or in two's complement
    (SXT), times two to the shift. *)
Theorem read_extended_spec (r : RegFile) (op : ExtendedReg) :
  regfile_ok r -> gpr_ok (ExtendedReg.reg op) -> 0 <= ExtendedReg.amount op <= 4 ->
  exists x, RegFile.read_x r (ExtendedReg.reg op) = Done x /\
    read_extended r op =
    Done (as_u64 ((let n := ExtendKind.source_bits (ExtendedReg.kind op) in
                   if ExtendKind.is_signed (ExtendedReg.kind op)
                   then to_signed n x else x mod 2 ^ n) * 2 ^ ExtendedReg.amount op)).
Proof.
  intros Hr Hg Hn. exists (reg_value r (ExtendedReg.reg op)).
  split; [apply read_x_value; assumption |].
  exact (read_extended_value r op Hr (conj Hg Hn)).
Qed.

Lemma read_extended_spec_witness :
  exists x, RegFile.read_x sample_regs (Gpr.X 3) = Done x /\
    read_extended sample_regs (ExtendedReg.mk (Gpr.X 3) ExtendKind.Sxtw 2) =
    Done (as_u64 (to_signed 32 x * 4)).
Proof.
  apply (read_extended_spec sample_regs (ExtendedReg.mk (Gpr.X 3) ExtendKind.Sxtw 2));
    [exact sample_regs_ok | cbn; unfold NUM_GPR; lia | cbn; lia].
Defined.

(** effective addresses.  For every addressing mode the decoder produces
    the address is computed without panicking: base plus offset (an immediate or an
    extended register) modulo [2^64], the plain base when post-indexed, PC plus
    offset for a literal; and the base is written back, with the updated value,
    exactly when the mode is pre- or post-indexed. *)
Theorem effective_address_spec (r : RegFile) (addr : AddrMode) (pc : Z) :
  regfile_ok r -> addr_ok addr ->
  effective_address r addr pc =
  Done (match addr with
        | AddrMode.PcRelative offset => EffectiveAddress.mk (as_u64 (pc + offset)) None
        | AddrMode.BaseOnly base => EffectiveAddress.mk (reg_value r base) None
        | AddrMode.Immediate base _ wb | AddrMode.Register base _ wb =>
            let updated := as_u64 (reg_value r base + mode_offset (reg_value r) addr) in
            match wb with
            | WriteBack.None => EffectiveAddress.mk updated None
            | WriteBack.Pre => EffectiveAddress.mk updated (Some (base, updated))
            | WriteBack.Post => EffectiveAddress.mk (reg_value r base) (Some (base, updated))
            end
        end).
Proof. intros Hr Ha. rewrite effective_address_correct by assumption. destruct addr; reflexivity. Qed.

Lemma effective_address_spec_witness :
  effective_address sample_regs (AddrMode.Immediate (Gpr.X 2) (-8) WriteBack.Post) 0 =
  Done (EffectiveAddress.mk 0x2468ACF12 (Some (Gpr.X 2, 0x2468ACF0A))).
Proof.
  rewrite effective_address_spec; [reflexivity | exact sample_regs_ok | cbn; unfold NUM_GPR; lia].
Defined.

(** The trace's PSTATE word.  It loses nothing (two states with the same
    word are equal), it fits 64 bits, and every bit outside NZCV (31..28), DAIF
    (9..6), EL (3..2) and SPSel (0) is zero. *)
Theorem trace_word_faithful (p q : Pstate) :
  (Pstate.to_trace_word p = Pstate.to_trace_word q -> p = q) /\
  in_range 64 (Pstate.to_trace_word p) /\
  Z.land (Pstate.to_trace_word p) (Z.lnot 0xF00003CD) = 0.
Proof.
  split; [apply to_trace_word_inj |]. split; [apply to_trace_word_range |].
  destruct p as [[[] [] [] []] [[] [] [] []] [] []]; reflexivity.
Qed.

Lemma trace_word_faithful_witness :
  let p := RegFile.pstate RegFile.new in
  let q := of_trace_word 0 in
  Pstate.to_trace_word p = Pstate.to_trace_word q /\ p = q.
Proof.
  split; [reflexivity |].
  apply (trace_word_faithful (RegFile.pstate RegFile.new)); reflexivity.
Defined.
