(* ===== verification/GuestMemory.v ===== *)
(** Placement of guest RAM in linear memory ([crates/core/src/guest_memory.rs]).

    [usize] is a parameter: 32 bits on the wasm32 build the module is for, 64
    in a native build of the tests. *)

From stdpp Require Import base numbers list option.
From S2P Require Import Prelude.

#[local] Open Scope Z_scope.

Module guest_memory.

Definition RAM_BASE : Z := Z.shiftl 1 30.

Definition MAX_RAM_BYTES : Z := Z.shiftl 4 30 - RAM_BASE.

Definition DEFAULT_RAM_BYTES : Z := Z.shiftl 1 30.

Definition PHYS_RAM_BASE : Z := 0x40000000.

Definition PAGE_SIZE : Z := 4096.

Module LayoutError.

Inductive LayoutError : Type :=
| TooLarge (requested max : Z)
| Unaligned (requested : Z)
| Empty.

End LayoutError.

Section Usize.

Context (usize : Z).

Definition reserve (ram_bytes : Z) : result (Z * Z) LayoutError.LayoutError :=
  if ram_bytes =? 0 then Err LayoutError.Empty
  else if negb (ram_bytes mod PAGE_SIZE =? 0) then Err (LayoutError.Unaligned ram_bytes)
  else if MAX_RAM_BYTES <? ram_bytes then Err (LayoutError.TooLarge ram_bytes MAX_RAM_BYTES)
  else Ok (RAM_BASE, wadd usize RAM_BASE ram_bytes).

Definition linear_offset (guest_physical ram_bytes : Z) : option Z :=
  offset_in_ram ← checked_sub64 guest_physical PHYS_RAM_BASE;
  if ram_bytes <=? offset_in_ram then None
  else Some (wadd usize RAM_BASE (wrap usize offset_in_ram)).

End Usize.

(** ** What [reserve] and [linear_offset] compute *)

(** A window that ends at or below [2^usize - 1] is reported exactly. *)
Lemma reserve_ok (usize ram : Z) :
  32 <= usize -> 0 < ram <= MAX_RAM_BYTES -> ram mod PAGE_SIZE = 0 ->
  RAM_BASE + ram < 2 ^ usize ->
  reserve usize ram = Ok (RAM_BASE, RAM_BASE + ram).
Proof.
  intros Hu Hr Hp Hend. unfold reserve.
  destruct (Z.eqb_spec ram 0); [lia |]. rewrite Hp. cbn [Z.eqb negb].
  destruct (Z.ltb_spec MAX_RAM_BYTES ram); [lia |].
  unfold wadd. rewrite wrap_small; [reflexivity |]. split; [change RAM_BASE with 1073741824; lia | exact Hend].
Qed.

Lemma linear_offset_ok (usize ram gp : Z) :
  32 <= usize -> 0 < ram <= MAX_RAM_BYTES -> 
  linear_offset usize gp ram =
  if (PHYS_RAM_BASE <=? gp) && (gp <? PHYS_RAM_BASE + ram)
  then Some (RAM_BASE + (gp - PHYS_RAM_BASE)) else None.
Proof.
  intros Hu Hr. unfold linear_offset, checked_sub64.
  destruct (Z.leb_spec PHYS_RAM_BASE gp); [| reflexivity]. cbn [mbind option_bind andb].
  destruct (Z.leb_spec ram (gp - PHYS_RAM_BASE)), (Z.ltb_spec gp (PHYS_RAM_BASE + ram));
    try lia; [reflexivity |].
  assert (2 ^ 32 <= 2 ^ usize) by (apply Z.pow_le_mono_r; lia).
  change MAX_RAM_BYTES with 3221225472 in *. unfold wadd.
  rewrite (wrap_small usize (gp - PHYS_RAM_BASE)) by (split; lia).
  change RAM_BASE with 1073741824. rewrite wrap_small by (split; lia). reflexivity.
Qed.

End guest_memory.
