(* ===== verification/Memory.v ===== *)
(** The memory interface and its flat implementation
    ([crates/core/src/interp/memory.rs]).

    The trait [Memory] is the class of the same name; [MemoryLaws] is what the
    interpreter's theorems use of an implementation, and [FlatMemory]
    discharges it. *)

From stdpp Require Import base numbers list option.
From S2P Require Import Prelude GuestMemory.

#[local] Open Scope Z_scope.

Module AccessFault.

Record AccessFault : Type := mk { address : Z; is_write : bool }.

End AccessFault.

Abbreviation AccessFault := AccessFault.AccessFault.

(** A read fills the buffer it is given; a write reports its fault and leaves
    the memory it has modified. *)
Class Memory (M : Type) : Type := {
  mem_read : M -> Z -> list Z -> may_panic (result (list Z) AccessFault);
  mem_write : M -> Z -> list Z -> may_panic (M * result unit AccessFault)
}.

(** The provided methods of the trait. *)

Definition read_uint {M} `{Memory M} (self : M) (address width : Z) :
    may_panic (result Z AccessFault) :=
  let buffer := replicate 8 0 in
  head ← slice buffer 0 width;
  outcome ← mem_read self address head;
  match outcome with
  | Err fault => mret (Err fault)
  | Ok bytes => mret (Ok (from_le_bytes (bytes ++ drop (Z.to_nat width) buffer)))
  end.

Definition write_uint {M} `{Memory M} (self : M) (address width value : Z) :
    may_panic (M * result unit AccessFault) :=
  bytes ← slice (to_le_bytes 8 value) 0 width;
  mem_write self address bytes.

(** ** The flat memory *)

Module FlatMemory.

Record FlatMemory : Type := mk { base : Z; bytes : list Z }.

Definition at_ (base : Z) (size : nat) : FlatMemory := mk base (replicate size 0).

Definition new (size : nat) : FlatMemory := at_ guest_memory.PHYS_RAM_BASE size.

Definition len (self : FlatMemory) : Z := Z.of_nat (length (bytes self)).

Definition limit (self : FlatMemory) : Z := wadd 64 (base self) (len self).

Definition offset (self : FlatMemory) (address len_ : Z) (is_write : bool) :
    result Z AccessFault :=
  let fault := AccessFault.mk address is_write in
  match checked_sub64 address (base self) with
  | None => Err fault
  | Some start =>
      match checked_add64 start len_ with
      | None => Err fault
      | Some end_ => if len self <? end_ then Err fault else Ok start
      end
  end.

Definition read (self : FlatMemory) (address : Z) (buffer : list Z) :
    may_panic (result (list Z) AccessFault) :=
  match offset self address (Z.of_nat (length buffer)) false with
  | Err fault => mret (Err fault)
  | Ok start =>
      data ← slice (bytes self) start (start + Z.of_nat (length buffer));
      mret (Ok data)
  end.

Definition write (self : FlatMemory) (address : Z) (data : list Z) :
    may_panic (FlatMemory * result unit AccessFault) :=
  match offset self address (Z.of_nat (length data)) true with
  | Err fault => mret (self, Err fault)
  | Ok start =>
      _ ← slice (bytes self) start (start + Z.of_nat (length data));
      let n := Z.to_nat start in
      mret (mk (base self)
              (take n (bytes self) ++ data ++ drop (n + length data) (bytes self)), Ok tt)
  end.

Definition store_slice (self : FlatMemory) (address : Z) (data : list Z) :
    may_panic (FlatMemory * result unit AccessFault) :=
  write self address data.

Definition slice_ (self : FlatMemory) (address len_ : Z) :
    may_panic (result (list Z) AccessFault) :=
  match offset self address len_ false with
  | Err fault => mret (Err fault)
  | Ok start => data ← slice (bytes self) start (start + len_); mret (Ok data)
  end.

End FlatMemory.

Abbreviation FlatMemory := FlatMemory.FlatMemory.

#[export] Instance FlatMemory_Memory : Memory FlatMemory := {
  mem_read := FlatMemory.read;
  mem_write := FlatMemory.write
}.

(** ** What the interpreter relies on *)

(** The [n] bytes of a partial byte map from [address] on, if all are mapped. *)
Fixpoint bytes_at (byte_at : Z -> option Z) (address : Z) (n : nat) : option (list Z) :=
  match n with
  | O => Some []
  | S n =>
      b ← byte_at address;
      bs ← bytes_at byte_at (address + 1) n;
      Some (b :: bs)
  end.

(** [f] with the bytes [bs] stored from [address] on. *)
Definition store_bytes (f : Z -> option Z) (address : Z) (bs : list Z) (x : Z) : option Z :=
  if (address <=? x) && (x <? address + Z.of_nat (length bs))
  then bs !! Z.to_nat (x - address) else f x.

(** Non-empty accesses succeed exactly when every byte they touch is mapped,
    read and write those bytes and no other, and a fault changes nothing.  An
    empty access may succeed or fault, and changes nothing either. *)
Class MemoryLaws (M : Type) `{Memory M} : Type := {
  mem_ok : M -> Prop;
  byte_at : M -> Z -> option Z;
  byte_at_is_byte : forall m a b, mem_ok m -> byte_at m a = Some b -> is_byte b;
  mem_read_law : forall m a buf, mem_ok m -> in_range 64 a -> buf <> [] ->
    mem_read m a buf =
    Done (match bytes_at (byte_at m) a (length buf) with
          | Some bs => Ok bs
          | None => Err (AccessFault.mk a false)
          end);
  mem_write_law : forall m a bs, mem_ok m -> in_range 64 a -> bs <> [] -> Forall is_byte bs ->
    match bytes_at (byte_at m) a (length bs) with
    | Some _ => exists m', mem_write m a bs = Done (m', Ok tt) /\ mem_ok m' /\
                  forall x, byte_at m' x = store_bytes (byte_at m) a bs x
    | None => mem_write m a bs = Done (m, Err (AccessFault.mk a true))
    end;
  mem_read_empty : forall m a, mem_ok m -> in_range 64 a ->
    mem_read m a [] = Done (Ok []) \/ mem_read m a [] = Done (Err (AccessFault.mk a false));
  mem_write_empty : forall m a, mem_ok m -> in_range 64 a ->
    mem_write m a [] = Done (m, Ok tt) \/ mem_write m a [] = Done (m, Err (AccessFault.mk a true))
}.

Lemma bytes_at_length (f : Z -> option Z) (a : Z) (n : nat) (bs : list Z) :
  bytes_at f a n = Some bs -> length bs = n.
Proof.
  revert a bs. induction n as [| n IH]; intros a bs H; cbn in H; [injection H as <-; reflexivity |].
  destruct (f a); [| discriminate]. cbn in H.
  destruct (bytes_at f (a + 1) n) eqn:E; [| discriminate]. injection H as <-.
  cbn. f_equal. eapply IH, E.
Qed.

Lemma bytes_at_Forall (f : Z -> option Z) (P : Z -> Prop) (a : Z) (n : nat) (bs : list Z) :
  (forall x b, f x = Some b -> P b) -> bytes_at f a n = Some bs -> Forall P bs.
Proof.
  intros HP. revert a bs. induction n as [| n IH]; intros a bs H; cbn in H.
  - injection H as <-. constructor.
  - destruct (f a) eqn:Ea; [| discriminate]. cbn in H.
    destruct (bytes_at f (a + 1) n) eqn:E; [| discriminate]. injection H as <-.
    constructor; [eapply HP, Ea | eapply IH, E].
Qed.

Lemma bytes_at_lookup (f : Z -> option Z) (a : Z) (n : nat) (bs : list Z) :
  bytes_at f a n = Some bs <->
  length bs = n /\ forall i, (i < n)%nat -> f (a + Z.of_nat i) = bs !! i.
Proof.
  revert a bs. induction n as [| n IH]; intros a bs; cbn [bytes_at].
  - split; [intros [= <-]; split; [reflexivity | lia] |].
    intros [H _]. destruct bs; [reflexivity | discriminate].
  - split.
    + destruct (f a) as [b |] eqn:Ea; [| discriminate]. cbn.
      destruct (bytes_at f (a + 1) n) as [bs' |] eqn:E; [| discriminate]. intros [= <-].
      apply IH in E as [Hlen Hf]. split; [cbn; lia |]. intros [| i] Hi.
      * rewrite Z.add_0_r. exact Ea.
      * cbn. rewrite <- Hf by lia. f_equal. lia.
    + intros [Hlen Hf]. destruct bs as [| b bs]; [discriminate |].
      pose proof (Hf 0%nat ltac:(lia)) as H0. rewrite Z.add_0_r in H0. cbn in H0.
      rewrite H0. cbn. cbn in Hlen.
      assert (bytes_at f (a + 1) n = Some bs) as ->; [| reflexivity].
      apply IH. split; [lia |]. intros i Hi.
      change (bs !! i) with ((b :: bs) !! S i). rewrite <- Hf by lia. f_equal. lia.
Qed.

Lemma bytes_at_ext (f g : Z -> option Z) (a : Z) (n : nat) :
  (forall i, (i < n)%nat -> f (a + Z.of_nat i) = g (a + Z.of_nat i)) ->
  bytes_at f a n = bytes_at g a n.
Proof.
  revert a. induction n as [| n IH]; intros a H; [reflexivity |]. cbn.
  pose proof (H 0%nat ltac:(lia)) as H0. rewrite Z.add_0_r in H0. rewrite H0.
  destruct (g a); [| reflexivity]. cbn. rewrite (IH (a + 1)); [reflexivity |].
  intros i Hi. specialize (H (S i) ltac:(lia)).
  replace (a + 1 + Z.of_nat i) with (a + Z.of_nat (S i)) by lia. exact H.
Qed.

Lemma bytes_at_store_same (f : Z -> option Z) (a : Z) (bs : list Z) :
  bytes_at (store_bytes f a bs) a (length bs) = Some bs.
Proof.
  apply bytes_at_lookup. split; [reflexivity |]. intros i Hi. unfold store_bytes.
  destruct (Z.leb_spec a (a + Z.of_nat i)); [| lia].
  destruct (Z.ltb_spec (a + Z.of_nat i) (a + Z.of_nat (length bs))); [| lia].
  cbn. f_equal. lia.
Qed.

Lemma bytes_at_store_disjoint (f : Z -> option Z) (a b : Z) (bs : list Z) (n : nat) :
  b + Z.of_nat n <= a \/ a + Z.of_nat (length bs) <= b ->
  bytes_at (store_bytes f a bs) b n = bytes_at f b n.
Proof.
  intros Hd. apply bytes_at_ext. intros i Hi. unfold store_bytes.
  destruct (Z.leb_spec a (b + Z.of_nat i)); [| reflexivity].
  destruct (Z.ltb_spec (b + Z.of_nat i) (a + Z.of_nat (length bs))); [lia | reflexivity].
Qed.

(** ** Integers through the interface *)

Section Integers.

Context {M : Type} `{MemoryLaws M}.

(** The widths the interface is used at. *)
Definition width_ok (width : Z) : Prop := 1 <= width <= 8.

Lemma read_uint_law (m : M) (a width : Z) :
  mem_ok m -> in_range 64 a -> width_ok width ->
  read_uint m a width =
  Done (match bytes_at (byte_at m) a (Z.to_nat width) with
        | Some bs => Ok (from_le_bytes bs)
        | None => Err (AccessFault.mk a false)
        end).
Proof.
  intros Hm Ha Hw. unfold width_ok in Hw. unfold read_uint. cbv zeta.
  rewrite slice_done by (rewrite ?length_replicate; lia).
  rewrite Z.sub_0_r. change (Z.to_nat 0) with 0%nat. rewrite drop_0, take_replicate.
  cbn [mbind may_panic_bind]. rewrite Nat.min_l by lia.
  rewrite mem_read_law by first [assumption | destruct (Z.to_nat width) eqn:E; [lia | discriminate]].
  rewrite length_replicate. cbn [mbind may_panic_bind].
  destruct (bytes_at (byte_at m) a (Z.to_nat width)) as [bs |]; [| reflexivity].
  rewrite drop_replicate, from_le_bytes_app, from_le_bytes_zeros, Z.mul_0_r, Z.add_0_r.
  reflexivity.
Qed.

Lemma write_uint_law (m : M) (a width value : Z) :
  mem_ok m -> in_range 64 a -> width_ok width ->
  match bytes_at (byte_at m) a (Z.to_nat width) with
  | Some _ => exists m', write_uint m a width value = Done (m', Ok tt) /\ mem_ok m' /\
                forall x, byte_at m' x =
                  store_bytes (byte_at m) a (to_le_bytes (Z.to_nat width) value) x
  | None => write_uint m a width value = Done (m, Err (AccessFault.mk a true))
  end.
Proof.
  intros Hm Ha Hw. unfold width_ok in Hw. unfold write_uint.
  rewrite slice_done by (rewrite ?length_to_le_bytes; lia).
  rewrite Z.sub_0_r. change (Z.to_nat 0) with 0%nat. rewrite drop_0, take_to_le_bytes by lia.
  cbn [mbind may_panic_bind].
  pose proof (mem_write_law m a (to_le_bytes (Z.to_nat width) value) Hm Ha) as L.
  rewrite length_to_le_bytes in L. apply L; [| apply to_le_bytes_is_byte].
  destruct (Z.to_nat width) eqn:E; [lia | discriminate].
Qed.

(** A successful store is read back, truncated to its width. *)
Lemma read_write_same (m m' : M) (a width value : Z) :
  mem_ok m -> in_range 64 a -> width_ok width ->
  write_uint m a width value = Done (m', Ok tt) ->
  read_uint m' a width = Done (Ok (value mod 2 ^ (8 * width))).
Proof.
  intros Hm Ha Hw Hs. pose proof (write_uint_law m a width value Hm Ha Hw) as L.
  destruct (bytes_at (byte_at m) a (Z.to_nat width)); [| congruence].
  destruct L as (m'' & Hs' & Hm' & Hb). rewrite Hs in Hs'. injection Hs' as <-.
  rewrite read_uint_law by assumption.
  rewrite (bytes_at_ext _ _ _ _ (fun i _ => Hb (a + Z.of_nat i))).
  pose proof (bytes_at_store_same (byte_at m) a (to_le_bytes (Z.to_nat width) value)) as Hsame.
  rewrite length_to_le_bytes in Hsame. rewrite Hsame, from_to_le_bytes.
  unfold width_ok in Hw. rewrite Z2Nat.id, pow_256 by lia. reflexivity.
Qed.

(** A successful store changes no disjoint load. *)
Lemma read_write_other (m m' : M) (a width value b width' : Z) :
  mem_ok m -> in_range 64 a -> width_ok width -> in_range 64 b -> width_ok width' ->
  b + width' <= a \/ a + width <= b ->
  write_uint m a width value = Done (m', Ok tt) ->
  read_uint m' b width' = read_uint m b width'.
Proof.
  intros Hm Ha Hw Hb Hw' Hd Hs. pose proof (write_uint_law m a width value Hm Ha Hw) as L.
  destruct (bytes_at (byte_at m) a (Z.to_nat width)); [| congruence].
  destruct L as (m'' & Hs' & Hm' & Hx). rewrite Hs in Hs'. injection Hs' as <-.
  rewrite !read_uint_law by assumption.
  rewrite (bytes_at_ext _ _ _ _ (fun i _ => Hx (b + Z.of_nat i))).
  unfold width_ok in *. rewrite bytes_at_store_disjoint; [reflexivity |].
  rewrite length_to_le_bytes. lia.
Qed.

(** A faulting store changes nothing. *)
Lemma write_fault_unchanged (m m' : M) (a width value : Z) (e : AccessFault) :
  mem_ok m -> in_range 64 a -> width_ok width ->
  write_uint m a width value = Done (m', Err e) -> m' = m.
Proof.
  intros Hm Ha Hw Hs. pose proof (write_uint_law m a width value Hm Ha Hw) as L.
  destruct (bytes_at (byte_at m) a (Z.to_nat width)); [| congruence].
  destruct L as (m'' & Hs' & _). congruence.
Qed.

End Integers.

(** ** The flat memory satisfies the laws *)

Definition flat_ok (m : FlatMemory) : Prop :=
  in_range 64 (FlatMemory.base m) /\ Forall is_byte (FlatMemory.bytes m) /\
  FlatMemory.len m < 2 ^ 64.

Definition flat_byte_at (m : FlatMemory) (a : Z) : option Z :=
  if a <? FlatMemory.base m then None
  else FlatMemory.bytes m !! Z.to_nat (a - FlatMemory.base m).

(** [offset] succeeds exactly on a range inside the window. *)
Lemma offset_ok (m : FlatMemory) (a n : Z) (b : bool) :
  flat_ok m -> in_range 64 a -> 0 <= n ->
  FlatMemory.offset m a n b =
  if (FlatMemory.base m <=? a) && (a - FlatMemory.base m + n <=? FlatMemory.len m)
  then Ok (a - FlatMemory.base m) else Err (AccessFault.mk a b).
Proof.
  intros (Hbase & _ & Hlen) Ha Hn. unfold FlatMemory.offset, checked_sub64, checked_add64.
  destruct (Z.leb_spec (FlatMemory.base m) a); [| reflexivity]. cbn [andb].
  destruct (Z.ltb_spec (a - FlatMemory.base m + n) (2 ^ 64)).
  - destruct (Z.ltb_spec (FlatMemory.len m) (a - FlatMemory.base m + n)),
      (Z.leb_spec (a - FlatMemory.base m + n) (FlatMemory.len m)); reflexivity || lia.
  - destruct (Z.leb_spec (a - FlatMemory.base m + n) (FlatMemory.len m)); [lia | reflexivity].
Qed.

Lemma flat_bytes_at (m : FlatMemory) (a : Z) (n : nat) :
  (0 < n)%nat ->
  bytes_at (flat_byte_at m) a n =
  if (FlatMemory.base m <=? a) && (a - FlatMemory.base m + Z.of_nat n <=? FlatMemory.len m)
  then Some (take n (drop (Z.to_nat (a - FlatMemory.base m)) (FlatMemory.bytes m))) else None.
Proof.
  intros Hn. unfold FlatMemory.len.
  destruct (Z.leb_spec (FlatMemory.base m) a) as [Hb | Hb]; cbn [andb].
  - destruct (Z.leb_spec (a - FlatMemory.base m + Z.of_nat n)
                (Z.of_nat (length (FlatMemory.bytes m)))) as [Hl | Hl].
    + apply bytes_at_lookup. split; [rewrite length_take, length_drop; lia |].
      intros i Hi. rewrite lookup_take_lt, lookup_drop by exact Hi. unfold flat_byte_at.
      destruct (Z.ltb_spec (a + Z.of_nat i) (FlatMemory.base m)); [lia | f_equal; lia].
    + destruct (bytes_at _ _ _) as [bs |] eqn:E; [| reflexivity]. exfalso.
      apply bytes_at_lookup in E as [Hlen Hf]. specialize (Hf (n - 1)%nat ltac:(lia)).
      unfold flat_byte_at in Hf. destruct (Z.ltb_spec (a + Z.of_nat (n - 1)) (FlatMemory.base m));
        [lia |]. rewrite lookup_ge_None_2 in Hf by lia.
      symmetry in Hf. apply lookup_ge_None in Hf. lia.
  - destruct n; [lia |]. cbn [bytes_at]. assert (flat_byte_at m a = None) as ->; [| reflexivity].
    unfold flat_byte_at. destruct (Z.ltb_spec a (FlatMemory.base m)); [reflexivity | lia].
Qed.

Lemma flat_store (m : FlatMemory) (a : Z) (bs : list Z) (x : Z) :
  FlatMemory.base m <= a ->
  a - FlatMemory.base m + Z.of_nat (length bs) <= FlatMemory.len m ->
  flat_byte_at
    (FlatMemory.mk (FlatMemory.base m)
       (take (Z.to_nat (a - FlatMemory.base m)) (FlatMemory.bytes m) ++ bs ++
        drop (Z.to_nat (a - FlatMemory.base m) + length bs) (FlatMemory.bytes m))) x =
  store_bytes (flat_byte_at m) a bs x.
Proof.
  unfold FlatMemory.len. intros Hb Hl. unfold flat_byte_at, store_bytes. cbn.
  destruct (Z.ltb_spec x (FlatMemory.base m)); [destruct (Z.leb_spec a x); [lia | reflexivity] |].
  set (n := Z.to_nat (a - FlatMemory.base m)). set (i := Z.to_nat (x - FlatMemory.base m)).
  assert (length (take n (FlatMemory.bytes m)) = n) as Hn by (rewrite length_take; lia).
  destruct (Z.leb_spec a x); cbn [andb].
  - destruct (Z.ltb_spec x (a + Z.of_nat (length bs))).
    + rewrite lookup_app_r, Hn, lookup_app_l by lia. f_equal. lia.
    + rewrite lookup_app_r, Hn, lookup_app_r, lookup_drop by lia. f_equal. lia.
  - rewrite lookup_app_l, lookup_take_lt by lia. reflexivity.
Qed.

#[export] Program Instance FlatMemory_laws : MemoryLaws FlatMemory := {
  mem_ok := flat_ok;
  byte_at := flat_byte_at
}.
Next Obligation.
  intros m a b (_ & Hbytes & _) Hb. unfold flat_byte_at in Hb.
  destruct (a <? _); [discriminate |]. eapply Forall_lookup_1; [exact Hbytes | exact Hb].
Qed.
Next Obligation.
  intros m a buf Hm Ha Hbuf. cbn. unfold FlatMemory.read.
  assert (0 < length buf)%nat by (destruct buf; [congruence | cbn; lia]).
  rewrite offset_ok, flat_bytes_at by (assumption || lia).
  destruct (Z.leb_spec (FlatMemory.base m) a); [| reflexivity]. cbn [andb].
  destruct (Z.leb_spec (a - FlatMemory.base m + Z.of_nat (length buf)) (FlatMemory.len m));
    [| reflexivity].
  rewrite slice_done by (unfold FlatMemory.len in *; lia). cbn.
  repeat f_equal. lia.
Qed.
Next Obligation.
  intros m a bs Hm Ha Hbs Hbytes. cbn. unfold FlatMemory.write.
  assert (0 < length bs)%nat by (destruct bs; [congruence | cbn; lia]).
  rewrite offset_ok, flat_bytes_at by (assumption || lia).
  destruct (Z.leb_spec (FlatMemory.base m) a); [| reflexivity]. cbn [andb].
  destruct (Z.leb_spec (a - FlatMemory.base m + Z.of_nat (length bs)) (FlatMemory.len m));
    [| reflexivity].
  rewrite slice_done by (unfold FlatMemory.len in *; lia). cbn.
  eexists. split; [reflexivity |]. split; [| intros x; apply flat_store; assumption].
  destruct Hm as (Hbase & Hall & Hlen). unfold flat_ok, FlatMemory.len in *. cbn.
  split; [exact Hbase |]. split.
  - repeat apply Forall_app_2; [apply Forall_take, Hall | exact Hbytes | apply Forall_drop, Hall].
  - rewrite !length_app, length_take, length_drop. lia.
Qed.
Next Obligation.
  intros m a Hm Ha. cbn. unfold FlatMemory.read.
  rewrite offset_ok by (assumption || (cbn; lia)). change (Z.of_nat (@length Z [])) with 0.
  destruct (Z.leb_spec (FlatMemory.base m) a); cbn [andb]; [| right; reflexivity].
  destruct (Z.leb_spec (a - FlatMemory.base m + 0) (FlatMemory.len m)); [left | right; reflexivity].
  rewrite slice_done by (unfold FlatMemory.len in *; lia). cbn.
  replace (a - FlatMemory.base m + 0 - (a - FlatMemory.base m)) with 0 by lia. reflexivity.
Qed.
Next Obligation.
  intros m a Hm Ha. cbn. unfold FlatMemory.write.
  rewrite offset_ok by (assumption || (cbn; lia)). change (Z.of_nat (@length Z [])) with 0.
  destruct (Z.leb_spec (FlatMemory.base m) a); cbn [andb]; [| right; reflexivity].
  destruct (Z.leb_spec (a - FlatMemory.base m + 0) (FlatMemory.len m)); [left | right; reflexivity].
  rewrite slice_done by (unfold FlatMemory.len in *; lia). cbn.
  rewrite Nat.add_0_r, take_drop. destruct m. reflexivity.
Qed.
