(* ===== verification/MemoryTheorems.v ===== *)
(** What guest memory promises ([crates/core/src/interp/memory.rs],
    [crates/core/src/guest_memory.rs]). *)

From stdpp Require Import base numbers list option.
From S2P Require Import Prelude GuestMemory Memory.

#[local] Open Scope Z_scope.

(** Sixteen bytes at an odd base. *)
Definition sample_memory : FlatMemory := FlatMemory.at_ 0x1001 16.

Lemma sample_memory_ok : mem_ok sample_memory.
Proof.
  split; [| split]; [split; cbn; lia | apply Forall_replicate; unfold is_byte; lia | reflexivity].
Qed.

(** C38: a memory is what was stored.  On any memory that keeps the laws, an
    access of one to eight bytes that was stored without a fault loads as the
    value truncated to its width, and every load of disjoint bytes is as it
    was. *)
Theorem store_then_load {M} `{MemoryLaws M} (m m' : M) (a width value : Z) :
  mem_ok m -> in_range 64 a -> 1 <= width <= 8 ->
  write_uint m a width value = Done (m', Ok tt) ->
  read_uint m' a width = Done (Ok (value mod 2 ^ (8 * width))) /\
  (forall b width', in_range 64 b -> 1 <= width' <= 8 -> b + width' <= a \/ a + width <= b ->
     read_uint m' b width' = read_uint m b width').
Proof.
  intros Hm Ha Hw Hs. split; [exact (read_write_same m m' a width value Hm Ha Hw Hs) |].
  intros b width' Hb Hw' Hd. exact (read_write_other m m' a width value b width' Hm Ha Hw Hb Hw' Hd Hs).
Qed.

Lemma store_then_load_witness :
  exists m', write_uint sample_memory 0x1003 4 0x123456789A = Done (m', Ok tt) /\
    read_uint m' 0x1003 4 = Done (Ok 0x3456789A) /\
    read_uint m' 0x1007 8 = read_uint sample_memory 0x1007 8.
Proof.
  destruct (write_uint sample_memory 0x1003 4 0x123456789A) as [[m' [[] | e]] |] eqn:E; [| discriminate E ..].
  destruct (store_then_load sample_memory m' 0x1003 4 0x123456789A) as [Hsame Hother];
    [exact sample_memory_ok | split; lia | lia | exact E |].
  exists m'. split; [reflexivity |].
  split; [exact Hsame | apply Hother; [split; lia | lia | lia]].
Defined.

(** Stores change only what they name.  A stored access leaves every load
    of disjoint bytes as it was, and a faulting one leaves the memory itself. *)
Theorem store_frame {M} `{MemoryLaws M} (m m' : M) (a width value b width' : Z)
    (o : result unit AccessFault) :
  mem_ok m -> in_range 64 a -> 1 <= width <= 8 -> in_range 64 b -> 1 <= width' <= 8 ->
  b + width' <= a \/ a + width <= b ->
  write_uint m a width value = Done (m', o) ->
  read_uint m' b width' = read_uint m b width' /\ (o <> Ok tt -> m' = m).
Proof.
  intros Hm Ha Hw Hb Hw' Hd Hs. destruct o as [[] | e].
  - split; [| congruence]. exact (read_write_other m m' a width value b width' Hm Ha Hw Hb Hw' Hd Hs).
  - assert (m' = m) as -> by exact (write_fault_unchanged m m' a width value e Hm Ha Hw Hs).
    split; reflexivity.
Qed.

Lemma store_frame_witness :
  exists m', write_uint sample_memory 0x1003 4 0x123456789A = Done (m', Ok tt) /\
    read_uint m' 0x1007 8 = read_uint sample_memory 0x1007 8.
Proof.
  eexists. split; [reflexivity |].
  apply (store_frame sample_memory _ 0x1003 4 0x123456789A 0x1007 8 (Ok tt));
    [exact sample_memory_ok | split; lia | lia | split; lia | lia | lia | reflexivity].
Defined.

(** The range of an access is in the memory's: the end is a plain sum, not one
    that wraps. *)
Definition inside (m : FlatMemory) (a : Z) (n : nat) : bool :=
  (FlatMemory.base m <=? a) && (a + Z.of_nat n <=? FlatMemory.base m + FlatMemory.len m).

Lemma offset_inside (m : FlatMemory) (a : Z) (n : nat) (is_write : bool) :
  flat_ok m -> in_range 64 a ->
  FlatMemory.offset m a (Z.of_nat n) is_write =
  if inside m a n then Ok (a - FlatMemory.base m) else Err (AccessFault.mk a is_write).
Proof.
  intros Hm Ha. rewrite offset_ok by (assumption || lia). unfold inside.
  destruct (Z.leb_spec (FlatMemory.base m) a); [| reflexivity]. cbn [andb].
  destruct (Z.leb_spec (a - FlatMemory.base m + Z.of_nat n) (FlatMemory.len m)),
    (Z.leb_spec (a + Z.of_nat n) (FlatMemory.base m + FlatMemory.len m)); reflexivity || lia.
Qed.

Lemma inside_slice (m : FlatMemory) (a : Z) (n : nat) :
  inside m a n = true ->
  slice (FlatMemory.bytes m) (a - FlatMemory.base m) (a - FlatMemory.base m + Z.of_nat n) =
  Done (take n (drop (Z.to_nat (a - FlatMemory.base m)) (FlatMemory.bytes m))).
Proof.
  unfold inside, FlatMemory.len. intros [Hb%Z.leb_le Hl%Z.leb_le]%andb_true_iff.
  rewrite slice_done by lia. do 2 f_equal. lia.
Qed.

(** C39: the flat memory's bounds, of a well-formed [FlatMemory] and any address.
    A read, a borrow or a write of [n] bytes never panics.  It faults, with its
    address and with its own direction, exactly when the range [address ..
    address + n) is not contained in [base .. base + len], where the end address
    is not taken modulo 2^64 (so an empty access faults too, unless its address is
    between [base] and [base + len] included).  Otherwise a read and a borrow give
    the bytes at [address - base], and a write changes the byte at every address
    of the range to the datum's and no other byte, neither the base nor the size;
    a write that faults changes nothing. *)
Theorem flat_memory_bounds (m : FlatMemory) (a : Z) (data : list Z) :
  flat_ok m -> in_range 64 a ->
  let n := length data in
  let found := take n (drop (Z.to_nat (a - FlatMemory.base m)) (FlatMemory.bytes m)) in
  FlatMemory.read m a data = Done (if inside m a n then Ok found else Err (AccessFault.mk a false)) /\
  FlatMemory.slice_ m a (Z.of_nat n) =
    Done (if inside m a n then Ok found else Err (AccessFault.mk a false)) /\
  exists m', FlatMemory.write m a data =
      Done (m', if inside m a n then Ok tt else Err (AccessFault.mk a true)) /\
    (inside m a n = false -> m' = m) /\
    (inside m a n = true ->
     FlatMemory.base m' = FlatMemory.base m /\ FlatMemory.len m' = FlatMemory.len m /\
     forall x, flat_byte_at m' x = store_bytes (flat_byte_at m) a data x).
Proof.
  intros Hm Ha n found. unfold FlatMemory.read, FlatMemory.slice_, FlatMemory.write.
  rewrite !offset_inside by assumption. fold n.
  destruct (inside m a n) eqn:E; [| split; [reflexivity |]; split; [reflexivity |]; exists m; auto with congruence].
  rewrite inside_slice by exact E. cbn [mbind may_panic_bind].
  unfold inside in E. apply andb_true_iff in E as [Hb%Z.leb_le Hl%Z.leb_le].
  split; [reflexivity |]. split; [reflexivity |]. eexists. split; [reflexivity |].
  split; [discriminate |]. intros _. split; [reflexivity |]. split.
  - unfold FlatMemory.len in *. cbn. rewrite !length_app, length_take, length_drop. fold n. lia.
  - intros x. apply flat_store; lia.
Qed.

(** Across the end of the memory, in both directions, and a write inside. *)
Lemma flat_memory_bounds_witness :
  FlatMemory.read sample_memory 0x100C (replicate 8 0) = Done (Err (AccessFault.mk 0x100C false)) /\
  FlatMemory.write sample_memory 0x100C (replicate 8 0) =
    Done (sample_memory, Err (AccessFault.mk 0x100C true)) /\
  exists m', FlatMemory.write sample_memory 0x100F [7; 9] = Done (m', Ok tt) /\
    flat_byte_at m' 0x1010 = Some 9.
Proof.
  destruct (flat_memory_bounds sample_memory 0x100C (replicate 8 0) sample_memory_ok ltac:(split; lia))
    as (Hread & _ & m1 & Hwrite & Hsame & _).
  destruct (flat_memory_bounds sample_memory 0x100F [7; 9] sample_memory_ok ltac:(split; lia))
    as (_ & _ & m2 & Hwrite2 & _ & Hstored).
  split; [exact Hread |]. rewrite <- (Hsame eq_refl) at 2. split; [exact Hwrite |].
  exists m2. split; [exact Hwrite2 |]. destruct (Hstored eq_refl) as (_ & _ & Hx). rewrite Hx. reflexivity.
Defined.

(** The guest's window of linear memory.  On a 64-bit host [reserve]
    accepts exactly the non-zero whole numbers of pages up to 3 GiB, names the
    window [RAM_BASE .. RAM_BASE + size), and [linear_offset] maps the guest's
    physical range onto it byte for byte and nothing else. *)
Theorem guest_window (ram gp : Z) :
  0 <= ram -> in_range 64 gp ->
  match guest_memory.reserve 64 ram with
  | Ok (lo, hi) =>
      0 < ram <= guest_memory.MAX_RAM_BYTES /\ ram mod guest_memory.PAGE_SIZE = 0 /\
      hi = lo + ram /\
      guest_memory.linear_offset 64 gp ram =
        (if (guest_memory.PHYS_RAM_BASE <=? gp) && (gp <? guest_memory.PHYS_RAM_BASE + ram)
         then Some (lo + (gp - guest_memory.PHYS_RAM_BASE)) else None)
  | Err _ =>
      ram = 0 \/ ram mod guest_memory.PAGE_SIZE <> 0 \/ guest_memory.MAX_RAM_BYTES < ram
  end.
Proof.
  intros Hram Hgp. unfold guest_memory.reserve at 1.
  destruct (Z.eqb_spec ram 0); [left; assumption |].
  destruct (Z.eqb_spec (ram mod guest_memory.PAGE_SIZE) 0) as [Hp |]; cbn [negb];
    [| right; left; assumption].
  destruct (Z.ltb_spec guest_memory.MAX_RAM_BYTES ram); [right; right; assumption |].
  assert (wadd 64 guest_memory.RAM_BASE ram = guest_memory.RAM_BASE + ram) as ->.
  { unfold wadd. apply wrap_small. change guest_memory.MAX_RAM_BYTES with 3221225472 in *.
    change guest_memory.RAM_BASE with 1073741824. split; lia. }
  split; [lia |]. split; [exact Hp |]. split; [reflexivity |].
  apply guest_memory.linear_offset_ok; lia.
Qed.

Lemma guest_window_witness :
  match guest_memory.reserve 64 8192 with
  | Ok (lo, hi) => hi = lo + 8192
  | Err _ => False
  end.
Proof.
  pose proof (guest_window 8192 0x40000000 ltac:(lia) ltac:(split; lia)) as H.
  cbn in H. apply H.
Defined.

(** The largest window does not fit a 32-bit address.  On a 32-bit target
    (the wasm build) [reserve] accepts [MAX_RAM_BYTES] and reports a window whose
    exclusive end has wrapped to zero. *)
Theorem reserve_wraps_on_wasm32 :
  guest_memory.reserve 32 guest_memory.MAX_RAM_BYTES = Ok (guest_memory.RAM_BASE, 0).
Proof. reflexivity. Qed.
