(* ===== verification/Trap.v ===== *)
(** Traps and the log of unimplemented encodings ([crates/core/src/trap.rs]). *)

From stdpp Require Import base numbers list option.
From S2P Require Import Prelude Reg Operand Op Instruction Group DpImmediate DpRegister.
From S2P Require Import BranchSystem LoadsStores SimdLoadsStores Scalar Neon Decode.

#[local] Open Scope Z_scope.

Module Trap.

Inductive Trap : Type :=
| UndefinedInstruction (pc encoding : Z)
| SupervisorCall (pc imm : Z)
| Breakpoint (pc imm : Z)
| DataAbort (pc address : Z) (is_write : bool)
| InstructionAbort (pc : Z).

Definition undefined (pc : Z) (insn : Instruction) : Trap :=
  UndefinedInstruction pc (Instruction.encoding insn).

End Trap.

Abbreviation Trap := Trap.Trap.

Definition TRAP_LOG_CAPACITY : Z := 256.

Module TrapLogEntry.

Record TrapLogEntry : Type := mk { encoding : Z; group : EncodingGroup; count : Z }.

End TrapLogEntry.

Abbreviation TrapLogEntry := TrapLogEntry.TrapLogEntry.

Module TrapLog.

Record TrapLog : Type := mk {
  entries : list (option TrapLogEntry);
  used : Z;
  dropped : Z;
  total : Z
}.

Definition new : TrapLog := mk (replicate (Z.to_nat TRAP_LOG_CAPACITY) None) 0 0 0.

(** [find_mut(encoding)] followed by [entry.count += 1]: the first entry of the
    slice with this encoding, counted once more. *)
Fixpoint count_found (l : list (option TrapLogEntry)) (encoding : Z) :
    option (list (option TrapLogEntry)) :=
  match l with
  | [] => None
  | Some entry :: l =>
      if TrapLogEntry.encoding entry =? encoding then
        Some (Some (TrapLogEntry.mk (TrapLogEntry.encoding entry) (TrapLogEntry.group entry)
                      (wadd 64 (TrapLogEntry.count entry) 1)) :: l)
      else l' ← count_found l encoding; Some (Some entry :: l')
  | None :: l => l' ← count_found l encoding; Some (None :: l')
  end.

Definition record (self : TrapLog) (encoding : Z) : may_panic TrapLog :=
  let total := wadd 64 (total self) 1 in
  recorded ← slice (entries self) 0 (used self);
  match count_found recorded encoding with
  | Some recorded =>
      mret (mk (recorded ++ drop (Z.to_nat (used self)) (entries self))
              (used self) (dropped self) total)
  | None =>
      if used self =? TRAP_LOG_CAPACITY
      then mret (mk (entries self) (used self) (wadd 64 (dropped self) 1) total)
      else
        entries ← index_set (entries self) (used self)
                    (Some (TrapLogEntry.mk encoding (EncodingGroup.of_ encoding) 1));
        mret (mk entries (wadd 64 (used self) 1) (dropped self) total)
  end.

Definition record_trap (self : TrapLog) (trap : Trap) : may_panic TrapLog :=
  match trap with
  | Trap.UndefinedInstruction _ encoding => record self encoding
  | _ => mret self
  end.

(** [entries()]: [flatten] over the recorded slots. *)
Definition entries_ (self : TrapLog) : may_panic (list TrapLogEntry) :=
  recorded ← slice (entries self) 0 (used self);
  mret (omap (M:=list) (fun e : option TrapLogEntry => e) recorded).

Definition total_encounters (self : TrapLog) : Z := total self.
Definition dropped_encodings (self : TrapLog) : Z := dropped self.
Definition is_empty (self : TrapLog) : bool := (used self =? 0) && (dropped self =? 0).

End TrapLog.

Abbreviation TrapLog := TrapLog.TrapLog.

Definition is_unimplemented (insn : Instruction) : bool :=
  match Instruction.op insn with Op.Unallocated => true | _ => false end.

(** ** What the log holds after a run *)

(** Records a sequence of encounters. *)
Definition record_all (log : TrapLog) (l : list Z) : may_panic TrapLog :=
  foldl (fun log e => log ← log; TrapLog.record log e) (Done log) l.

(** The distinct elements of [l] in the order they are first seen. *)
Definition first_seen (l : list Z) : list Z :=
  foldl (fun seen e => if decide (e ∈ seen) then seen else seen ++ [e]) [] l.

Definition occurrences (e : Z) (l : list Z) : Z := Z.of_nat (length (filter (fun x => x = e) l)).

(** The encodings the log has room for. *)
Definition logged (l : list Z) : list Z := take (Z.to_nat TRAP_LOG_CAPACITY) (first_seen l).

Definition log_entry (l : list Z) (e : Z) : TrapLogEntry :=
  TrapLogEntry.mk e (EncodingGroup.of_ e) (occurrences e l).

Definition spec_log (l : list Z) : TrapLog :=
  let K := logged l in
  TrapLog.mk
    (((fun e => Some (log_entry l e)) <$> K) ++
     replicate (Z.to_nat TRAP_LOG_CAPACITY - length K) None)
    (Z.of_nat (length K))
    (Z.of_nat (length (filter (fun e => e ∉ K) l)))
    (Z.of_nat (length l)).

Lemma first_seen_snoc (l : list Z) (e : Z) :
  first_seen (l ++ [e]) = if decide (e ∈ first_seen l) then first_seen l else first_seen l ++ [e].
Proof. unfold first_seen. rewrite foldl_app. reflexivity. Qed.

Lemma elem_of_first_seen (l : list Z) (e : Z) : e ∈ first_seen l <-> e ∈ l.
Proof.
  induction l as [| x l IH] using rev_ind; [reflexivity |].
  rewrite first_seen_snoc, elem_of_app, list_elem_of_singleton.
  case_decide; rewrite ?elem_of_app, ?list_elem_of_singleton, IH; [| reflexivity].
  split; [tauto |]. intros [Hl | ->]; [exact Hl | apply IH; assumption].
Qed.

Lemma first_seen_NoDup (l : list Z) : NoDup (first_seen l).
Proof.
  induction l as [| x l IH] using rev_ind; [constructor |].
  rewrite first_seen_snoc. case_decide as Hx; [exact IH |].
  apply list.NoDup_app. split; [exact IH |]. split; [| apply NoDup_singleton].
  intros y Hy ->%list_elem_of_singleton. exact (Hx Hy).
Qed.

Lemma occurrences_snoc (e x : Z) (l : list Z) :
  occurrences e (l ++ [x]) = occurrences e l + (if decide (x = e) then 1 else 0).
Proof.
  unfold occurrences. rewrite list.filter_app, length_app, filter_cons, filter_nil.
  case_decide; cbn; lia.
Qed.

Lemma occurrences_bound (e : Z) (l : list Z) : 0 <= occurrences e l <= Z.of_nat (length l).
Proof. unfold occurrences. pose proof (length_filter (fun x => x = e) l). lia. Qed.

Lemma occurrences_absent (e : Z) (l : list Z) : e ∉ l -> occurrences e l = 0.
Proof.
  intros H. unfold occurrences.
  assert (filter (fun x => x = e) l = []) as ->; [| reflexivity].
  induction l as [| x l IH]; [reflexivity |].
  rewrite filter_cons. apply not_elem_of_cons in H as [Hx Hl].
  case_decide as E; [congruence | apply IH, Hl].
Qed.

(** [count_found] on the recorded entries. *)
Lemma count_found_absent (l K : list Z) (e : Z) :
  e ∉ K -> TrapLog.count_found ((fun k => Some (log_entry l k)) <$> K) e = None.
Proof.
  induction K as [| k K IH]; intros H; [reflexivity |].
  apply not_elem_of_cons in H as [Hk HK]. cbn.
  destruct (Z.eqb_spec k e); [congruence |]. rewrite IH by exact HK. reflexivity.
Qed.

Lemma log_entry_other (l : list Z) (e k : Z) :
  k <> e -> log_entry (l ++ [e]) k = log_entry l k.
Proof.
  intros H. unfold log_entry. rewrite occurrences_snoc. case_decide; [congruence |].
  f_equal. lia.
Qed.

Lemma log_entries_other (l K : list Z) (e : Z) :
  e ∉ K ->
  ((fun k => Some (log_entry (l ++ [e]) k)) <$> K) = ((fun k => Some (log_entry l k)) <$> K).
Proof.
  induction K as [| k K IH]; intros H; [reflexivity |].
  apply not_elem_of_cons in H as [Hk HK]. cbn.
  rewrite log_entry_other by congruence. f_equal. apply IH, HK.
Qed.

Lemma count_found_present (l K : list Z) (e : Z) :
  NoDup K -> e ∈ K -> Z.of_nat (length l) + 1 < 2 ^ 64 ->
  TrapLog.count_found ((fun k => Some (log_entry l k)) <$> K) e =
  Some ((fun k => Some (log_entry (l ++ [e]) k)) <$> K).
Proof.
  intros HK He Hlen. induction HK as [| k K Hk HK IH]; [apply elem_of_nil in He as [] |].
  cbn. destruct (Z.eqb_spec k e) as [-> | Hne].
  - rewrite log_entries_other by exact Hk. unfold log_entry at 2. do 4 f_equal.
    rewrite occurrences_snoc. case_decide; [| congruence].
    pose proof (occurrences_bound e l). apply wrap_small. split; lia.
  - apply elem_of_cons in He as [-> | He]; [congruence |].
    rewrite IH by exact He. cbn. rewrite log_entry_other by exact Hne. reflexivity.
Qed.

Lemma logged_length (l : list Z) : (length (logged l) <= Z.to_nat TRAP_LOG_CAPACITY)%nat.
Proof. unfold logged. rewrite length_take. lia. Qed.

Lemma logged_NoDup (l : list Z) : NoDup (logged l).
Proof.
  unfold logged. pose proof (first_seen_NoDup l) as H.
  rewrite <- (take_drop (Z.to_nat TRAP_LOG_CAPACITY) (first_seen l)) in H.
  apply list.NoDup_app in H as [H _]. exact H.
Qed.

Lemma logged_snoc_present (l : list Z) (e : Z) :
  e ∈ logged l -> logged (l ++ [e]) = logged l.
Proof.
  intros He. unfold logged. rewrite first_seen_snoc. case_decide as H; [reflexivity |].
  exfalso. apply H. unfold logged in He. apply elem_of_take in He as (i & Hi & _).
  eapply list_elem_of_lookup_2, Hi.
Qed.

Lemma logged_snoc_full (l : list Z) (e : Z) :
  length (logged l) = Z.to_nat TRAP_LOG_CAPACITY -> logged (l ++ [e]) = logged l.
Proof.
  unfold logged. intros Hlen. rewrite first_seen_snoc. case_decide; [reflexivity |].
  rewrite length_take in Hlen. apply take_app_le. lia.
Qed.

Lemma logged_snoc_new (l : list Z) (e : Z) :
  e ∉ logged l -> (length (logged l) < Z.to_nat TRAP_LOG_CAPACITY)%nat ->
  logged (l ++ [e]) = logged l ++ [e] /\ e ∉ l.
Proof.
  unfold logged. intros He Hlen. rewrite length_take in Hlen.
  assert (length (first_seen l) < Z.to_nat TRAP_LOG_CAPACITY)%nat as Hfs by lia.
  rewrite (take_ge (first_seen l)) in * by lia.
  rewrite first_seen_snoc. case_decide as H; [contradiction |].
  split; [apply take_ge; rewrite length_app; cbn; lia |].
  intros Hl. apply He, elem_of_first_seen, Hl.
Qed.

Lemma dropped_snoc (P Q : list Z) (l : list Z) (e : Z) :
  (forall x, x ∈ l -> x ∈ P <-> x ∈ Q) ->
  length (filter (fun x => x ∉ Q) (l ++ [e])) =
  (length (filter (fun x => x ∉ P) l) + if decide (e ∈ Q) then 0 else 1)%nat.
Proof.
  intros H. rewrite list.filter_app, length_app. f_equal.
  - induction l as [| x l IH]; [reflexivity |]. rewrite !filter_cons.
    assert (x ∉ Q <-> x ∉ P) as E by (rewrite (H x) by constructor; reflexivity).
    assert (forall y, y ∈ l -> y ∈ P <-> y ∈ Q) as Hl by (intros y Hy; apply H; constructor; exact Hy).
    case_decide; case_decide; cbn; rewrite ?(IH Hl); tauto || reflexivity.
  - rewrite filter_cons, filter_nil. case_decide as H1; case_decide as H2; reflexivity || contradiction.
Qed.

(** One more encounter. *)
Lemma record_spec (l : list Z) (e : Z) :
  Z.of_nat (length l) + 1 < 2 ^ 64 ->
  TrapLog.record (spec_log l) e = Done (spec_log (l ++ [e])).
Proof.
  intros Hlen. unfold TrapLog.record, spec_log. cbn [TrapLog.entries TrapLog.used TrapLog.dropped
    TrapLog.total]. cbv zeta.
  pose proof (logged_length l) as HK.
  assert (wadd 64 (Z.of_nat (length l)) 1 = Z.of_nat (length (l ++ [e]))) as ->.
  { rewrite length_app. unfold wadd. rewrite wrap_small by (split; lia). cbn. lia. }
  rewrite slice_done by (rewrite ?length_app, ?length_fmap, ?length_replicate; lia).
  rewrite Z.sub_0_r, Nat2Z.id. change (Z.to_nat 0) with 0%nat. rewrite drop_0.
  rewrite take_app_length', drop_app_length' by (rewrite length_fmap; reflexivity).
  cbn [mbind may_panic_bind].
  destruct (decide (e ∈ logged l)) as [He | He].
  - rewrite count_found_present by (try assumption; apply logged_NoDup).
    rewrite logged_snoc_present, (dropped_snoc (logged l) (logged l)) by (assumption || reflexivity).
    rewrite decide_True by exact He. rewrite Nat.add_0_r. reflexivity.
  - rewrite count_found_absent by exact He.
    assert (Z.of_nat (length (filter (fun x => x ∉ logged l) l)) <= Z.of_nat (length l)) as Hd
      by (pose proof (length_filter (fun x => x ∉ logged l) l); lia).
    destruct (Z.eqb_spec (Z.of_nat (length (logged l))) TRAP_LOG_CAPACITY) as [Hfull | Hroom].
    + rewrite logged_snoc_full, (dropped_snoc (logged l) (logged l)) by (lia || reflexivity).
      rewrite decide_False by exact He. rewrite log_entries_other by exact He.
      unfold wadd. rewrite wrap_small by (split; lia). do 3 f_equal. lia.
    + destruct (logged_snoc_new l e He) as [-> Hel]; [unfold TRAP_LOG_CAPACITY in *; lia |].
      rewrite index_set_done
        by (rewrite length_app, length_fmap, length_replicate; unfold TRAP_LOG_CAPACITY in *; lia).
      rewrite Nat2Z.id, insert_app_r_alt, length_fmap, Nat.sub_diag by (rewrite length_fmap; lia).
      rewrite (dropped_snoc (logged l)).
      2: { intros x Hx. rewrite elem_of_app, list_elem_of_singleton. split; [tauto |].
           intros [Hx' | ->]; [exact Hx' | contradiction]. }
      rewrite decide_True by (apply elem_of_app; right; apply list_elem_of_singleton; reflexivity).
      destruct (Z.to_nat TRAP_LOG_CAPACITY - length (logged l))%nat as [| n] eqn:En;
        [unfold TRAP_LOG_CAPACITY in *; lia |].
      cbn [mbind may_panic_bind]. f_equal. f_equal.
      * rewrite fmap_app, log_entries_other by exact He. rewrite length_app. cbn [length].
        replace (Z.to_nat TRAP_LOG_CAPACITY - (length (logged l) + 1))%nat with n by lia.
        assert (log_entry (l ++ [e]) e = TrapLogEntry.mk e (EncodingGroup.of_ e) 1) as E.
        { unfold log_entry. rewrite occurrences_snoc, occurrences_absent by exact Hel.
          rewrite decide_True by reflexivity. reflexivity. }
        rewrite <- app_assoc. cbn. rewrite E. reflexivity.
      * rewrite length_app. unfold wadd. rewrite wrap_small by (split; unfold TRAP_LOG_CAPACITY in *; lia). cbn. lia.
      * rewrite Nat.add_0_r. reflexivity.
Qed.

Lemma record_all_spec (l : list Z) :
  Z.of_nat (length l) < 2 ^ 64 -> record_all TrapLog.new l = Done (spec_log l).
Proof.
  induction l as [| e l IH] using rev_ind; intros Hlen; [reflexivity |].
  rewrite length_app in Hlen. cbn in Hlen. unfold record_all. rewrite foldl_app. cbn.
  fold (record_all TrapLog.new l). rewrite IH by lia. apply record_spec. lia.
Qed.

(** The report read back from the log. *)
Lemma spec_log_entries (l : list Z) :
  TrapLog.entries_ (spec_log l) = Done (log_entry l <$> logged l).
Proof.
  unfold TrapLog.entries_, spec_log. cbn [TrapLog.entries TrapLog.used].
  rewrite slice_done by (rewrite ?length_app, ?length_fmap; lia).
  rewrite Z.sub_0_r, Nat2Z.id. change (Z.to_nat 0) with 0%nat. rewrite drop_0.
  rewrite take_app_length' by (rewrite length_fmap; reflexivity). cbn [mbind may_panic_bind].
  unfold mret, may_panic_ret. f_equal. induction (logged l) as [| k K IH]; [reflexivity |].
  cbn. f_equal. exact IH.
Qed.

(** ** The log never panics *)

Record log_ok (log : TrapLog) : Prop := {
  ok_log_entries : length (TrapLog.entries log) = Z.to_nat TRAP_LOG_CAPACITY;
  ok_log_used : 0 <= TrapLog.used log <= TRAP_LOG_CAPACITY
}.

Lemma log_new_ok : log_ok TrapLog.new.
Proof. split; [apply length_replicate | cbn; unfold TRAP_LOG_CAPACITY; lia]. Qed.

Lemma count_found_length (l l' : list (option TrapLogEntry)) (e : Z) :
  TrapLog.count_found l e = Some l' -> length l' = length l.
Proof.
  revert l'. induction l as [| [entry |] l IH]; intros l'; [discriminate | |]; cbn.
  - destruct (TrapLogEntry.encoding entry =? e); [intros [= <-]; reflexivity |].
    destruct (TrapLog.count_found l e); [| discriminate]. intros [= <-]. cbn. f_equal. auto.
  - destruct (TrapLog.count_found l e); [| discriminate]. intros [= <-]. cbn. f_equal. auto.
Qed.

Lemma record_returns (log : TrapLog) (e : Z) : log_ok log -> returns (TrapLog.record log e) log_ok.
Proof.
  intros [Hlen Hused]. unfold TrapLog.record. unfold TRAP_LOG_CAPACITY in *.
  rewrite slice_done by lia. rewrite Z.sub_0_r. change (Z.to_nat 0) with 0%nat. rewrite drop_0.
  cbn [mbind may_panic_bind].
  destruct (TrapLog.count_found _ _) as [l |] eqn:E.
  - apply count_found_length in E. rewrite length_take in E. apply returns_ret.
    split; cbn; unfold TRAP_LOG_CAPACITY; [rewrite length_app, length_drop; lia | exact Hused].
  - destruct (Z.eqb_spec (TrapLog.used log) 256); [apply returns_ret; split; assumption |].
    rewrite index_set_done by lia. apply returns_ret. unfold wadd. rewrite wrap_small by (split; lia).
    split; cbn; unfold TRAP_LOG_CAPACITY; [rewrite length_insert; exact Hlen | lia].
Qed.

Lemma record_trap_returns (log : TrapLog) (t : Trap) :
  log_ok log -> returns (TrapLog.record_trap log t) log_ok.
Proof. intros Hlog. destruct t; try (apply returns_ret; exact Hlog). apply record_returns, Hlog. Qed.
