(* ===== verification/Cache.v ===== *)
(** The decoded-instruction cache ([crates/core/src/interp/cache.rs]). *)

From stdpp Require Import base numbers list option.
From S2P Require Import Prelude Reg Operand Op Instruction Group DpImmediate DpRegister.
From S2P Require Import BranchSystem LoadsStores SimdLoadsStores Scalar Neon Decode.

#[local] Open Scope Z_scope.

Definition DECODE_CACHE_ENTRIES : Z := 4096.

(** [UDF #0], the encoding that means "this slot holds nothing". *)
Definition EMPTY_TAG : Z := 0.

Module DecodeCache.

Record DecodeCache : Type := mk {
  tags : list Z;
  entries : list Instruction;
  hits : Z;
  misses : Z
}.

Definition new : DecodeCache :=
  mk (replicate (Z.to_nat DECODE_CACHE_ENTRIES) EMPTY_TAG)
     (replicate (Z.to_nat DECODE_CACHE_ENTRIES) (unallocated EMPTY_TAG)) 0 0.

Definition slot (pc : Z) : Z := Z.land (wshr 64 pc 2) (DECODE_CACHE_ENTRIES - 1).

Definition decoded (self : DecodeCache) (pc encoding : Z) :
    may_panic (DecodeCache * Instruction) :=
  let slot := slot pc in
  tag ← index (tags self) slot;
  if (tag =? encoding) && negb (encoding =? EMPTY_TAG) then
    insn ← index (entries self) slot;
    mret (mk (tags self) (entries self) (wadd 64 (hits self) 1) (misses self), insn)
  else
    let misses := wadd 64 (misses self) 1 in
    insn ← decode encoding;
    tags ← index_set (tags self) slot encoding;
    entries ← index_set (entries self) slot insn;
    mret (mk tags entries (hits self) misses, insn).

End DecodeCache.

Abbreviation DecodeCache := DecodeCache.DecodeCache.

(** Every slot in use holds the decoding of its tag. *)
Record cache_ok (c : DecodeCache) : Prop := {
  ok_tags : length (DecodeCache.tags c) = Z.to_nat DECODE_CACHE_ENTRIES;
  ok_entries : length (DecodeCache.entries c) = Z.to_nat DECODE_CACHE_ENTRIES;
  ok_slots : forall i tag insn,
    DecodeCache.tags c !! i = Some tag -> DecodeCache.entries c !! i = Some insn ->
    tag <> EMPTY_TAG -> decode tag = Done insn
}.

Lemma cache_new_ok : cache_ok DecodeCache.new.
Proof.
  split; cbn [DecodeCache.new DecodeCache.tags DecodeCache.entries].
  - apply length_replicate.
  - apply length_replicate.
  - intros i tag insn [-> _]%lookup_replicate _ Hne. congruence.
Qed.

Lemma slot_range (pc : Z) : 0 <= DecodeCache.slot pc < DECODE_CACHE_ENTRIES.
Proof.
  unfold DecodeCache.slot. change (DECODE_CACHE_ENTRIES - 1) with (Z.ones 12).
  rewrite Z.land_ones by lia. apply (Z.mod_pos_bound _ (2 ^ 12)). lia.
Qed.

(** A lookup, hit or miss, answers with the decoding of the word. *)
Lemma decoded_returns (c : DecodeCache) (pc e : Z) :
  cache_ok c ->
  returns (DecodeCache.decoded c pc e)
    (fun p => cache_ok p.1 /\ decode e = Done p.2 /\
       DecodeCache.hits p.1 + DecodeCache.misses p.1 =
         (if (DecodeCache.tags c !!! Z.to_nat (DecodeCache.slot pc) =? e) && negb (e =? EMPTY_TAG)
          then wadd 64 (DecodeCache.hits c) 1 + DecodeCache.misses c
          else DecodeCache.hits c + wadd 64 (DecodeCache.misses c) 1)).
Proof.
  intros Hc. unfold DecodeCache.decoded. pose proof (slot_range pc) as Hs.
  set (s := DecodeCache.slot pc) in *. clearbody s.
  eapply returns_bind; [apply index_returns; rewrite ok_tags by exact Hc; lia |].
  intros tag Htag. rewrite (list_lookup_total_correct _ _ _ Htag).
  destruct (Z.eqb_spec tag e) as [-> |]; destruct (Z.eqb_spec e EMPTY_TAG); cbn [andb negb].
  2: { eapply returns_bind; [apply index_returns; rewrite ok_entries by exact Hc; lia |].
       intros insn Hinsn. apply returns_ret. split; [| split; [| reflexivity]].
       - destruct Hc. split; assumption.
       - eapply ok_slots; eassumption. }
  all: eapply returns_bind; [apply decode_returns_eq |]; intros insn Hd;
    rewrite !index_set_done by (rewrite ?ok_tags, ?ok_entries by exact Hc; lia);
    apply returns_ret; (split; [| split; [exact Hd | reflexivity]]); cbn [fst];
    destruct Hc as [Ht He Hslots]; split;
    cbn [DecodeCache.tags DecodeCache.entries]; rewrite ?length_insert; try assumption;
    intros i tag' insn'; destruct (decide (Z.to_nat s = i)) as [<- | Hi];
    [ rewrite !list_lookup_insert_eq by lia; intros [= <-] [= <-] _; exact Hd
    | rewrite !list_lookup_insert_ne by exact Hi; apply Hslots ].
Qed.
