(* ===== verification/TraceFormat.v ===== *)
(** Constants of the trace stream ([crates/core/src/trace/format.rs]). *)

From stdpp Require Import base numbers list option.
From Stdlib Require Import Ascii String.
From S2P Require Import Prelude.

#[local] Open Scope Z_scope.

(** [str::as_bytes]. *)
Definition as_bytes (s : string) : list Z :=
  (fun c => Z.of_N (N_of_ascii c)) <$> list_ascii_of_string s.

Definition MAGIC : list Z := as_bytes "CORACLE"%string ++ [1].

Definition FORMAT_VERSION : Z := 1.
Definition PRODUCER_CORACLE : Z := 2.
Definition FILE_HEADER_BYTES : Z := 80.
Definition RECORD_HEADER_BYTES : Z := 8.
Definition REG_DELTA_BYTES : Z := 16.
Definition BLOCK_PREFIX_BYTES : Z := 32.
Definition PRODUCER_NAME_BYTES : Z := 32.
Definition MAX_DELTAS_PER_BLOCK : Z := 255.

Module record_type.

Definition BLOCK : Z := 1.
Definition EXCEPTION : Z := 2.
Definition MARKER : Z := 3.
Definition END_ : Z := 4.

End record_type.

Module stream_flags.

Definition PRECISE_FP : Z := Z.shiftl 1 0.
Definition HAS_VREGS : Z := Z.shiftl 1 1.
Definition HAS_SYSREGS : Z := Z.shiftl 1 2.
Definition BLOCK_DELTAS : Z := Z.shiftl 1 3.

End stream_flags.

Module MarkerKind.

Inductive MarkerKind : Type := TraceStart | Reset_ | Annotation.

Definition as_Z (self : MarkerKind) : Z :=
  match self with TraceStart => 1 | Reset_ => 2 | Annotation => 3 end.

End MarkerKind.

Abbreviation MarkerKind := MarkerKind.MarkerKind.

Module EndReason.

Inductive EndReason : Type := Normal | LimitReached | GuestHalt.

Definition as_Z (self : EndReason) : Z :=
  match self with Normal => 0 | LimitReached => 1 | GuestHalt => 2 end.

End EndReason.

Abbreviation EndReason := EndReason.EndReason.

Module DisconType.

Inductive DisconType : Type := Interrupt | Exception | HostCall.

Definition as_Z (self : DisconType) : Z :=
  match self with Interrupt => 1 | Exception => 2 | HostCall => 4 end.

End DisconType.

Abbreviation DisconType := DisconType.DisconType.

Definition FEATURE_MASK : string :=
  "armv8.0-a+el1+nolse+nosve+nopauth+nomte+nobti+qemucrypto"%string.

Definition FNV_OFFSET_BASIS : Z := 0xcbf29ce484222325.
Definition FNV_PRIME : Z := 0x100000001b3.

(** 64-bit FNV-1a. *)
Definition fnv1a (text : string) : Z :=
  foldl (fun hash byte => wmul 64 (Z.lxor hash byte) FNV_PRIME) FNV_OFFSET_BASIS (as_bytes text).

Definition CPU_FEATURE_ID : Z := fnv1a FEATURE_MASK.

Lemma as_bytes_is_byte (s : string) : Forall is_byte (as_bytes s).
Proof.
  unfold as_bytes. apply Forall_fmap, Forall_forall. intros c _. unfold compose, is_byte.
  pose proof (N_ascii_bounded c). lia.
Qed.

#[export] Hint Resolve as_bytes_is_byte : coracle.
