(* ===== verification/TraceSink.v ===== *)
(** The trace hook and the register deltas it is handed
    ([crates/core/src/trace/sink.rs]). *)

From stdpp Require Import base numbers list option.
From S2P Require Import Prelude Reg Pstate RegFile TraceFormat.

#[local] Open Scope Z_scope.

Module RegDelta.

Record RegDelta : Type := mk { reg_id : Z; value : Z }.

End RegDelta.

Abbreviation RegDelta := RegDelta.RegDelta.

(** The trait [DeltaOut]: somewhere deltas can be appended. *)
Class DeltaOut (O : Type) : Type := {
  delta_clear : O -> O;
  delta_push : O -> RegDelta -> may_panic O
}.

#[export] Instance list_DeltaOut : DeltaOut (list RegDelta) := {
  delta_clear := fun _ => [];
  delta_push := fun l d => mret (l ++ [d])
}.

Module DeltaBuffer.

Record DeltaBuffer : Type := mk { deltas : list RegDelta; len : Z }.

Definition new : DeltaBuffer :=
  mk (replicate (Z.to_nat MAX_DELTAS_PER_BLOCK) (RegDelta.mk 0 0)) 0.

Definition as_slice (self : DeltaBuffer) : may_panic (list RegDelta) :=
  slice (deltas self) 0 (len self).

Definition clear (self : DeltaBuffer) : DeltaBuffer := mk (deltas self) 0.

Definition push (self : DeltaBuffer) (delta : RegDelta) : may_panic DeltaBuffer :=
  if len self <? MAX_DELTAS_PER_BLOCK then
    deltas ← index_set (deltas self) (len self) delta;
    mret (mk deltas (wadd 64 (len self) 1))
  else mret self.

End DeltaBuffer.

Abbreviation DeltaBuffer := DeltaBuffer.DeltaBuffer.

#[export] Instance DeltaBuffer_DeltaOut : DeltaOut DeltaBuffer := {
  delta_clear := DeltaBuffer.clear;
  delta_push := DeltaBuffer.push
}.

Module ExceptionEvent.

Record ExceptionEvent : Type := mk {
  icount : Z;
  from_pc : Z;
  to_pc : Z;
  discon : DisconType;
  regs : RegFile
}.

End ExceptionEvent.

Abbreviation ExceptionEvent := ExceptionEvent.ExceptionEvent.

(** The trait [TraceSink]. *)
Class TraceSink (S : Type) : Type := {
  ENABLED : bool;
  on_marker : S -> MarkerKind -> Z -> Z -> may_panic S;
  on_block : S -> Z -> Z -> list RegDelta -> may_panic S;
  on_exception : S -> ExceptionEvent -> may_panic S;
  finish : S -> EndReason -> Z -> may_panic S
}.

(** A sink that never panics on a block whose deltas a record can count. *)
Class TotalSink (S : Type) `{TraceSink S} : Prop := {
  on_block_total : forall s pc icount deltas,
    Z.of_nat (length deltas) <= MAX_DELTAS_PER_BLOCK ->
    returns (on_block s pc icount deltas) (fun _ => True);
  on_exception_total : forall s e, regfile_ok (ExceptionEvent.regs e) ->
    returns (on_exception s e) (fun _ => True)
}.

Module NullSink.

Inductive NullSink : Type := mk.

End NullSink.

Abbreviation NullSink := NullSink.NullSink.

#[export] Instance NullSink_TraceSink : TraceSink NullSink := {
  ENABLED := false;
  on_marker := fun s _ _ _ => mret s;
  on_block := fun s _ _ _ => mret s;
  on_exception := fun s _ => mret s;
  finish := fun s _ _ => mret s
}.

#[export] Instance NullSink_total : TotalSink NullSink.
Proof. split; intros; apply returns_ret; exact I. Qed.

(** ** The deltas between two snapshots *)

Section Deltas.

Context {O : Type} `{DeltaOut O}.

(** [previous.map(f)] for an accessor that may panic. *)
Definition map_previous {A} (previous : option RegFile) (f : RegFile -> may_panic A) :
    may_panic (option A) :=
  match previous with
  | None => mret None
  | Some regs => a ← f regs; mret (Some a)
  end.

(** The closure [push] of [deltas_between]. *)
Definition push_changed (out : O) (reg_id value : Z) (old : option Z) : may_panic O :=
  if bool_decide (old = Some value) then mret out
  else delta_push out (RegDelta.mk reg_id value).

Definition push_vec_deltas (previous : option RegFile) (current : RegFile) (out : O) :
    may_panic O :=
  for_each (zrange (Z.to_nat Vec.COUNT))
    (fun index out =>
       reg ← Vec.new index;
       value ← RegFile.read_v current reg;
       old ← map_previous previous (fun regs => RegFile.read_v regs reg);
       if bool_decide (old = Some value) then mret out else
       lo ← trace_reg_id.vec_lo index;
       out ← delta_push out (RegDelta.mk lo (as_u64 value));
       hi ← trace_reg_id.vec_hi index;
       delta_push out (RegDelta.mk hi (as_u64 (wshr 128 value 64))))
    out.

Definition deltas_between (previous : option RegFile) (current : RegFile) (out : O) :
    may_panic O :=
  let out := delta_clear out in
  out ← for_each (zrange (Z.to_nat NUM_GPR))
    (fun index out =>
       id ← trace_reg_id.gpr index;
       value ← RegFile.x_at current index;
       old ← map_previous previous (fun regs => RegFile.x_at regs index);
       push_changed out id value old)
    out;
  out ← push_changed out trace_reg_id.SP (RegFile.sp current) (RegFile.sp <$> previous);
  out ← push_changed out trace_reg_id.PC (RegFile.pc current) (RegFile.pc <$> previous);
  out ← push_changed out trace_reg_id.PSTATE (Pstate.to_trace_word (RegFile.pstate current))
          ((fun regs => Pstate.to_trace_word (RegFile.pstate regs)) <$> previous);
  out ← push_changed out trace_reg_id.FPCR (RegFile.fpcr current) (RegFile.fpcr <$> previous);
  out ← push_changed out trace_reg_id.FPSR (RegFile.fpsr current) (RegFile.fpsr <$> previous);
  push_vec_deltas previous current out.

End Deltas.

(** ** What a delta target promises *)

(** Deltas accumulate in order, up to the [MAX_DELTAS_PER_BLOCK] a record can
    count. *)
Class DeltaOutLaws (O : Type) `{DeltaOut O} : Type := {
  delta_ok : O -> Prop;
  contents : O -> list RegDelta;
  delta_clear_law : forall o, delta_ok o ->
    delta_ok (delta_clear o) /\ contents (delta_clear o) = [];
  delta_push_law : forall o d, delta_ok o ->
    Z.of_nat (length (contents o)) < MAX_DELTAS_PER_BLOCK ->
    returns (delta_push o d) (fun o' => delta_ok o' /\ contents o' = contents o ++ [d])
}.

#[export] Program Instance list_DeltaOutLaws : DeltaOutLaws (list RegDelta) := {
  delta_ok := fun _ => True;
  contents := fun l => l
}.
Next Obligation. intros o _. split; reflexivity || exact I. Qed.
Next Obligation. intros o d _ _. apply returns_ret. split; reflexivity || exact I. Qed.

Definition buffer_ok (b : DeltaBuffer) : Prop :=
  length (DeltaBuffer.deltas b) = Z.to_nat MAX_DELTAS_PER_BLOCK /\
  0 <= DeltaBuffer.len b <= MAX_DELTAS_PER_BLOCK.

Definition buffer_contents (b : DeltaBuffer) : list RegDelta :=
  take (Z.to_nat (DeltaBuffer.len b)) (DeltaBuffer.deltas b).

Lemma as_slice_contents (b : DeltaBuffer) :
  buffer_ok b -> DeltaBuffer.as_slice b = Done (buffer_contents b).
Proof.
  intros [Hlen Hb]. unfold DeltaBuffer.as_slice, MAX_DELTAS_PER_BLOCK in *.
  rewrite slice_done by lia. rewrite Z.sub_0_r. reflexivity.
Qed.

Lemma buffer_new_ok : buffer_ok DeltaBuffer.new.
Proof. split; [apply length_replicate | cbn; unfold MAX_DELTAS_PER_BLOCK; lia]. Qed.

Lemma buffer_length (b : DeltaBuffer) :
  buffer_ok b -> Z.of_nat (length (buffer_contents b)) = DeltaBuffer.len b.
Proof.
  intros [Hlen Hb]. unfold buffer_contents, MAX_DELTAS_PER_BLOCK in *. rewrite length_take. lia.
Qed.

#[export] Program Instance DeltaBuffer_DeltaOutLaws : DeltaOutLaws DeltaBuffer := {
  delta_ok := buffer_ok;
  contents := buffer_contents
}.
Next Obligation.
  intros o [Hlen Hb]. split; [| reflexivity]. split; [exact Hlen |].
  cbn. unfold MAX_DELTAS_PER_BLOCK. lia.
Qed.
Next Obligation.
  intros o d Ho Hroom. rewrite buffer_length in Hroom by exact Ho. destruct Ho as [Hlen Hb].
  cbn. unfold DeltaBuffer.push, buffer_ok, buffer_contents, MAX_DELTAS_PER_BLOCK in *.
  destruct (Z.ltb_spec (DeltaBuffer.len o) 255); [| lia].
  rewrite index_set_done by lia. apply returns_ret.
  cbn [DeltaBuffer.deltas DeltaBuffer.len]. unfold wadd. rewrite wrap_small by (split; lia).
  rewrite length_insert. split; [split; [exact Hlen | lia] |].
  replace (Z.to_nat (DeltaBuffer.len o + 1)) with (S (Z.to_nat (DeltaBuffer.len o))) by lia.
  rewrite (take_S_r _ _ d) by (apply list_lookup_insert_eq; lia).
  rewrite take_insert_ge by lia. reflexivity.
Qed.

(** ** The register file as the trace names it *)

(** The vector register an id is a half of. *)
Definition vec_of_id (id : Z) : nat := Z.to_nat ((id - 64) / 2).

(** The value of the register with a trace id. *)
Definition reg_at (r : RegFile) (id : Z) : option Z :=
  if (0 <=? id) && (id <? 31) then RegFile.x r !! Z.to_nat id
  else if id =? trace_reg_id.SP then Some (RegFile.sp r)
  else if id =? trace_reg_id.PC then Some (RegFile.pc r)
  else if id =? trace_reg_id.PSTATE then Some (Pstate.to_trace_word (RegFile.pstate r))
  else if id =? trace_reg_id.FPCR then Some (RegFile.fpcr r)
  else if id =? trace_reg_id.FPSR then Some (RegFile.fpsr r)
  else if (64 <=? id) && (id <? 128) then
    value ← RegFile.v r !! vec_of_id id;
    Some (if id mod 2 =? 0 then as_u64 value else as_u64 (wshr 128 value 64))
  else None.

(** The ids a snapshot has. *)
Definition trace_id (id : Z) : Prop := 0 <= id <= 35 \/ 64 <= id < 128.

(** The register has a value the reader of the previous record does not know. *)
Definition changed (previous : option RegFile) (current : RegFile) (id : Z) : Prop :=
  if id <? 64
  then (p ← previous; reg_at p id) <> reg_at current id
  else (p ← previous; RegFile.v p !! vec_of_id id) <> RegFile.v current !! vec_of_id id.

Definition reg_ids (ds : list RegDelta) : list Z := RegDelta.reg_id <$> ds.

(** What a block's deltas have to be, for the ids in [D]. *)
Record deltas_ok (previous : option RegFile) (current : RegFile) (D : Z -> Prop) (n : nat)
    (ds : list RegDelta) : Prop := {
  deltas_values : forall d, d ∈ ds -> reg_at current (RegDelta.reg_id d) = Some (RegDelta.value d);
  deltas_ids : forall id, id ∈ reg_ids ds <-> D id /\ changed previous current id;
  deltas_length : (length ds <= n)%nat
}.

Section DeltaProofs.

Context {O : Type} `{DeltaOutLaws O}.
Context (previous : option RegFile) (current : RegFile).

Hypothesis Hprev : forall p, previous = Some p -> regfile_ok p.
Hypothesis Hcur : regfile_ok current.

Definition target_ok (D : Z -> Prop) (n : nat) (out : O) : Prop :=
  delta_ok out /\ deltas_ok previous current D n (contents out).

Lemma target_weaken (D E : Z -> Prop) (n m : nat) (out : O) :
  (forall id, D id <-> E id) -> (n <= m)%nat -> target_ok D n out -> target_ok E m out.
Proof.
  intros HDE Hnm [Ho [Hv Hi Hl]]. split; [exact Ho |]. split; [exact Hv | | lia].
  intros id. rewrite Hi, HDE. reflexivity.
Qed.

(** One push of a changed register. *)
Lemma push_target (D : Z -> Prop) (n : nat) (out : O) (id value : Z) :
  target_ok D n out -> Z.of_nat n < MAX_DELTAS_PER_BLOCK ->
  reg_at current id = Some value -> changed previous current id ->
  returns (delta_push out (RegDelta.mk id value)) (target_ok (fun i => D i \/ i = id) (S n)).
Proof.
  intros [Ho [Hv Hi Hl]] Hn Hval Hch.
  eapply returns_mono; [apply delta_push_law; [exact Ho | lia] |].
  intros out' [Ho' Hc]. split; [exact Ho' |]. rewrite Hc. split.
  - intros d Hd. apply elem_of_app in Hd as [Hd | ->%list_elem_of_singleton]; [apply Hv, Hd | exact Hval].
  - intros i. unfold reg_ids. rewrite fmap_app, elem_of_app. fold (reg_ids (contents out)).
    rewrite Hi. cbn. rewrite list_elem_of_singleton. split.
    + intros [[HD Hc'] | ->]; [split; [left |]; assumption | split; [right; reflexivity | exact Hch]].
    + intros [[HD | ->] Hc']; [left; split; assumption | right; reflexivity].
  - rewrite length_app. cbn. lia.
Qed.

Lemma skip_target (D : Z -> Prop) (n : nat) (out : O) (id : Z) :
  target_ok D n out -> ~ changed previous current id -> target_ok (fun i => D i \/ i = id) (S n) out.
Proof.
  intros [Ho [Hv Hi Hl]] Hch. split; [exact Ho |]. split; [exact Hv | | lia].
  intros i. rewrite Hi. split; [tauto |]. intros [[HD | ->] Hc]; [tauto | contradiction].
Qed.

Lemma push_changed_target (D : Z -> Prop) (n : nat) (out : O) (id value : Z) (old : option Z) :
  target_ok D n out -> Z.of_nat n < MAX_DELTAS_PER_BLOCK -> id < 64 ->
  reg_at current id = Some value -> old = (p ← previous; reg_at p id) ->
  returns (push_changed out id value old) (target_ok (fun i => D i \/ i = id) (S n)).
Proof.
  intros Ht Hn Hid Hval ->. unfold push_changed.
  assert (changed previous current id <-> (p ← previous; reg_at p id) <> Some value) as Hch.
  { unfold changed. rewrite Hval. destruct (Z.ltb_spec id 64); [reflexivity | lia]. }
  case_bool_decide as E.
  - apply returns_ret. apply skip_target; [exact Ht |]. rewrite Hch. tauto.
  - apply push_target; try assumption. rewrite Hch. exact E.
Qed.

Lemma reg_at_gpr (r : RegFile) (i : Z) : 0 <= i < 31 -> reg_at r i = RegFile.x r !! Z.to_nat i.
Proof.
  intros Hi. unfold reg_at. destruct (Z.leb_spec 0 i), (Z.ltb_spec i 31); try lia. reflexivity.
Qed.

Lemma gpr_loop (out : O) :
  delta_ok out -> contents out = [] ->
  returns
    (for_each (zrange (Z.to_nat NUM_GPR))
      (fun index out =>
         id ← trace_reg_id.gpr index;
         value ← RegFile.x_at current index;
         old ← map_previous previous (fun regs => RegFile.x_at regs index);
         push_changed out id value old) out)
    (target_ok (fun id => 0 <= id < 31) 31).
Proof.
  intros Ho Hc. eapply returns_mono.
  - apply (for_each_returns (fun l1 => target_ok (fun id => id ∈ l1) (length l1))).
    + split; [exact Ho |]. rewrite Hc. split; [intros d Hd; apply elem_of_nil in Hd as [] | | reflexivity].
      intros id. unfold reg_ids. cbn. rewrite elem_of_nil. tauto.
    + intros l1 i l2 s Hl Hs. pose proof (zrange_split _ _ _ _ Hl) as Hi.
      change (Z.of_nat (Z.to_nat NUM_GPR)) with 31 in Hi.
      assert (length l1 < 31)%nat as Hlen.
      { assert (length (zrange (Z.to_nat NUM_GPR)) = 31%nat) as E by reflexivity.
        rewrite Hl, length_app in E. cbn in E. lia. }
      rewrite trace_gpr_id by exact Hi. cbn [mbind may_panic_bind].
      assert (forall r, regfile_ok r -> exists v, RegFile.x_at r i = Done v /\ reg_at r i = Some v) as Hx.
      { intros r Hr. destruct (index_returns (RegFile.x r) i) as (v & Hv & Hl').
        - rewrite ok_x_length by exact Hr. lia.
        - exists v. split; [exact Hv |]. rewrite reg_at_gpr by exact Hi. exact Hl'. }
      destruct (Hx current Hcur) as (v & -> & Hv). cbn [mbind may_panic_bind].
      assert (exists old, map_previous previous (fun regs => RegFile.x_at regs i) = Done old /\
                old = (p ← previous; reg_at p i)) as (old & -> & Hold).
      { destruct previous as [p |] eqn:Ep; [| exists None; split; reflexivity].
        destruct (Hx p (Hprev p eq_refl)) as (vp & Hvp & Hvp').
        unfold map_previous. rewrite Hvp. exists (Some vp). split; [reflexivity |]. cbn. congruence. }
      cbn [mbind may_panic_bind]. eapply returns_mono.
      * apply push_changed_target; [exact Hs | unfold MAX_DELTAS_PER_BLOCK; lia | lia | exact Hv | exact Hold].
      * intros o. rewrite length_app. apply target_weaken; [| cbn; lia].
        intros id. rewrite elem_of_app, list_elem_of_singleton. reflexivity.
  - intros o. apply target_weaken; [| reflexivity].
    intros id. rewrite elem_of_zrange. reflexivity.
Qed.

Lemma half_of_id (i id : Z) : id = 64 + 2 * i \/ id = 65 + 2 * i -> (id - 64) / 2 = i.
Proof.
  intros [-> | ->]; symmetry; [apply (Z.div_unique_pos _ _ _ 0) | apply (Z.div_unique_pos _ _ _ 1)];
    lia.
Qed.

Lemma reg_at_vec (r : RegFile) (i : Z) (value : Z) :
  0 <= i < 32 -> RegFile.v r !! Z.to_nat i = Some value ->
  reg_at r (64 + 2 * i) = Some (as_u64 value) /\
  reg_at r (65 + 2 * i) = Some (as_u64 (wshr 128 value 64)).
Proof.
  intros Hi Hv. unfold reg_at, trace_reg_id.SP, trace_reg_id.PC, trace_reg_id.PSTATE,
    trace_reg_id.FPCR, trace_reg_id.FPSR, vec_of_id.
  rewrite !(half_of_id i) by lia.
  replace ((64 + 2 * i) mod 2) with 0 by (apply (Z.mod_unique_pos _ _ (32 + i)); lia).
  replace ((65 + 2 * i) mod 2) with 1 by (apply (Z.mod_unique_pos _ _ (32 + i)); lia).
  rewrite Hv.
  repeat match goal with
  | |- context [?a <? ?b] => destruct (Z.ltb_spec a b); try lia
  | |- context [?a <=? ?b] => destruct (Z.leb_spec a b); try lia
  | |- context [?a =? ?b] => destruct (Z.eqb_spec a b); try lia
  end; split; reflexivity.
Qed.

(** The two halves of a vector register change together. *)
Lemma changed_vec (i : Z) :
  0 <= i < 32 ->
  forall id, id = 64 + 2 * i \/ id = 65 + 2 * i ->
  changed previous current id <->
  (p ← previous; RegFile.v p !! Z.to_nat i) <> RegFile.v current !! Z.to_nat i.
Proof.
  intros Hi id Hid. unfold changed. destruct (Z.ltb_spec id 64); [lia |].
  assert (vec_of_id id = Z.to_nat i) as ->; [| reflexivity].
  unfold vec_of_id. f_equal.
  apply half_of_id. exact Hid.
Qed.

Definition vec_ids (l : list Z) (id : Z) : Prop := 64 <= id < 128 /\ (id - 64) / 2 ∈ l.

Lemma vec_ids_snoc (l : list Z) (i id : Z) :
  0 <= i < 32 ->
  vec_ids (l ++ [i]) id <-> (vec_ids l id \/ id = 64 + 2 * i) \/ id = 65 + 2 * i.
Proof.
  intros Hi. unfold vec_ids. rewrite elem_of_app, list_elem_of_singleton.
  assert ((id - 64) / 2 = i <-> id = 64 + 2 * i \/ id = 65 + 2 * i) as E.
  { pose proof (Z.div_mod (id - 64) 2 ltac:(lia)). pose proof (Z.mod_pos_bound (id - 64) 2 ltac:(lia)).
    split; [lia | apply half_of_id]. }
  assert (id = 64 + 2 * i \/ id = 65 + 2 * i -> 64 <= id < 128) by lia. tauto.
Qed.

Lemma vec_loop (D : Z -> Prop) (n : nat) (out : O) :
  target_ok D n out -> (n + 64 <= 255)%nat ->
  returns (push_vec_deltas previous current out)
    (target_ok (fun id => D id \/ 64 <= id < 128) (n + 64)).
Proof.
  intros Ht Hn. unfold push_vec_deltas. eapply returns_mono.
  - apply (for_each_returns (fun l1 => target_ok (fun id => D id \/ vec_ids l1 id) (n + 2 * length l1))).
    + eapply target_weaken; [| | exact Ht]; [| lia]. intros id. unfold vec_ids.
      rewrite elem_of_nil. tauto.
    + intros l1 i l2 s Hl Hs. pose proof (zrange_split _ _ _ _ Hl) as Hi.
      change (Z.of_nat (Z.to_nat Vec.COUNT)) with 32 in Hi.
      assert (length l1 < 32)%nat as Hlen.
      { assert (length (zrange (Z.to_nat Vec.COUNT)) = 32%nat) as E by reflexivity.
        rewrite Hl, length_app in E. cbn in E. lia. }
      assert (Vec.new i = Done (Vec.mk i)) as ->.
      { unfold Vec.new. destruct (Z.ltb_spec i 32); [reflexivity | lia]. }
      cbn [mbind may_panic_bind].
      assert (forall r, regfile_ok r -> exists v, RegFile.read_v r (Vec.mk i) = Done v /\
                RegFile.v r !! Z.to_nat i = Some v) as Hx.
      { intros r Hr. destruct (index_returns (RegFile.v r) i) as (v & Hv & Hl').
        - rewrite ok_v_length by exact Hr. lia.
        - exists v. split; assumption. }
      destruct (Hx current Hcur) as (v & -> & Hv). cbn [mbind may_panic_bind].
      assert (exists old, map_previous previous (fun regs => RegFile.read_v regs (Vec.mk i)) = Done old /\
                old = (p ← previous; RegFile.v p !! Z.to_nat i)) as (old & -> & Hold).
      { destruct previous as [p |] eqn:Ep; [| exists None; split; reflexivity].
        destruct (Hx p (Hprev p eq_refl)) as (vp & Hvp & Hvp').
        unfold map_previous. rewrite Hvp. exists (Some vp). split; [reflexivity |]. cbn. congruence. }
      cbn [mbind may_panic_bind].
      destruct (reg_at_vec current i v Hi Hv) as [Hlo Hhi].
      pose proof (changed_vec i Hi) as Hch.
      assert (forall o, target_ok (fun id => ((D id \/ vec_ids l1 id) \/ id = 64 + 2 * i) \/ id = 65 + 2 * i)
                (S (S (n + 2 * length l1))) o ->
              target_ok (fun id => D id \/ vec_ids (l1 ++ [i]) id) (n + 2 * length (l1 ++ [i])) o) as Hdone.
      { intros o. apply target_weaken; [| rewrite length_app; cbn; lia].
        intros id. rewrite vec_ids_snoc by exact Hi. tauto. }
      case_bool_decide as E.
      * apply returns_ret. apply Hdone.
        assert (forall id, id = 64 + 2 * i \/ id = 65 + 2 * i -> ~ changed previous current id) as Hnot.
        { intros id Hid. rewrite (Hch id Hid), Hv, <- Hold. tauto. }
        apply skip_target; [apply skip_target; [exact Hs |] |]; apply Hnot; lia.
      * assert (forall id, id = 64 + 2 * i \/ id = 65 + 2 * i -> changed previous current id) as Hyes.
        { intros id Hid. rewrite (Hch id Hid), Hv, <- Hold. exact E. }
        rewrite trace_vec_lo_id by lia. cbn [mbind may_panic_bind].
        eapply returns_bind.
        { apply push_target; [exact Hs | unfold MAX_DELTAS_PER_BLOCK; lia | exact Hlo |].
          apply Hyes. lia. }
        intros s' Hs'. rewrite trace_vec_hi_id by lia. cbn [mbind may_panic_bind].
        eapply returns_mono; [| exact Hdone].
        apply push_target; [exact Hs' | unfold MAX_DELTAS_PER_BLOCK; lia | exact Hhi |].
        apply Hyes. lia.
  - intros o. apply target_weaken;
      [| change (length (zrange (Z.to_nat Vec.COUNT))) with 32%nat; lia]. intros id. unfold vec_ids.
    rewrite elem_of_zrange. change (Z.of_nat (Z.to_nat Vec.COUNT)) with 32.
    pose proof (Z.div_mod (id - 64) 2 ltac:(lia)). pose proof (Z.mod_pos_bound (id - 64) 2 ltac:(lia)).
    split; [tauto |]. intros [? | ?]; [tauto | right; lia].
Qed.

(** Every trace register, at most a hundred deltas. *)
Lemma deltas_between_target (out : O) :
  delta_ok out ->
  returns (deltas_between previous current out) (target_ok trace_id 100).
Proof.
  intros Ho. unfold deltas_between. cbv zeta.
  destruct (delta_clear_law out Ho) as [Hc0 Hc].
  eapply returns_bind; [apply gpr_loop; assumption |]. intros o1 H1.
  eapply returns_bind;
    [apply push_changed_target; [exact H1 | unfold MAX_DELTAS_PER_BLOCK; lia | vm_compute; reflexivity | reflexivity |
       destruct previous; reflexivity] |]. intros o2 H2.
  eapply returns_bind;
    [apply push_changed_target; [exact H2 | unfold MAX_DELTAS_PER_BLOCK; lia | vm_compute; reflexivity | reflexivity |
       destruct previous; reflexivity] |]. intros o3 H3.
  eapply returns_bind;
    [apply push_changed_target; [exact H3 | unfold MAX_DELTAS_PER_BLOCK; lia | vm_compute; reflexivity | reflexivity |
       destruct previous; reflexivity] |]. intros o4 H4.
  eapply returns_bind;
    [apply push_changed_target; [exact H4 | unfold MAX_DELTAS_PER_BLOCK; lia | vm_compute; reflexivity | reflexivity |
       destruct previous; reflexivity] |]. intros o5 H5.
  eapply returns_bind;
    [apply push_changed_target; [exact H5 | unfold MAX_DELTAS_PER_BLOCK; lia | vm_compute; reflexivity | reflexivity |
       destruct previous; reflexivity] |]. intros o6 H6.
  eapply returns_mono; [apply vec_loop; [exact H6 | lia] |].
  intros o. apply target_weaken; [| lia]. intros id.
  unfold trace_id, trace_reg_id.SP, trace_reg_id.PC, trace_reg_id.PSTATE, trace_reg_id.FPCR,
    trace_reg_id.FPSR. lia.
Qed.

End DeltaProofs.

(** ** The reader's side *)

(** A reader's knowledge, updated by a block's deltas. *)
Definition apply_deltas (known : Z -> option Z) (ds : list RegDelta) : Z -> option Z :=
  foldl (fun f d id => if id =? RegDelta.reg_id d then Some (RegDelta.value d) else f id) known ds.

(** What the reader knows of a snapshot; nothing before the first block. *)
Definition known_of (previous : option RegFile) (id : Z) : option Z :=
  p ← previous; reg_at p id.

Lemma apply_deltas_lookup (current : RegFile) (ds : list RegDelta) (f : Z -> option Z) (id : Z) :
  (forall d, d ∈ ds -> reg_at current (RegDelta.reg_id d) = Some (RegDelta.value d)) ->
  apply_deltas f ds id = if bool_decide (id ∈ reg_ids ds) then reg_at current id else f id.
Proof.
  induction ds as [| d ds IH] using rev_ind; intros Hv.
  - rewrite bool_decide_false by apply not_elem_of_nil. reflexivity.
  - unfold apply_deltas. rewrite foldl_app. cbn. fold (apply_deltas f ds).
    assert (reg_at current (RegDelta.reg_id d) = Some (RegDelta.value d)) as Hd.
    { apply Hv, elem_of_app. right. constructor. }
    rewrite IH by (intros d' Hd'; apply Hv, elem_of_app; left; exact Hd').
    unfold reg_ids. rewrite fmap_app. cbn. fold (reg_ids ds).
    destruct (Z.eqb_spec id (RegDelta.reg_id d)) as [-> | Hne].
    + rewrite bool_decide_true by (apply elem_of_app; right; constructor). symmetry. exact Hd.
    + destruct (bool_decide (id ∈ reg_ids ds)) eqn:E.
      * apply bool_decide_eq_true in E.
        rewrite bool_decide_true by (apply elem_of_app; left; exact E). reflexivity.
      * apply bool_decide_eq_false in E. rewrite bool_decide_false; [reflexivity |].
        rewrite elem_of_app, list_elem_of_singleton. tauto.
Qed.

Lemma unchanged_known (previous : option RegFile) (current : RegFile) (id : Z) :
  regfile_ok current -> trace_id id -> ~ changed previous current id ->
  known_of previous id = reg_at current id.
Proof.
  intros Hcur Hid Hch. unfold known_of, changed in *. destruct (Z.ltb_spec id 64) as [Hlt | Hge].
  - apply dec_stable. exact Hch.
  - apply dec_stable in Hch. destruct Hid as [? | Hid]; [lia |].
    assert (vec_of_id id < 32)%nat as Hn.
    { unfold vec_of_id. pose proof (Z.div_lt_upper_bound (id - 64) 2 32). lia. }
    destruct (lookup_lt_is_Some_2 (RegFile.v current) (vec_of_id id)) as [v Hv];
      [rewrite ok_v_length by exact Hcur; exact Hn |].
    rewrite Hv in Hch. destruct previous as [p |]; [| discriminate]. cbn in *.
    unfold reg_at, trace_reg_id.SP, trace_reg_id.PC, trace_reg_id.PSTATE,
      trace_reg_id.FPCR, trace_reg_id.FPSR.
    rewrite Hch, Hv.
    repeat match goal with
    | |- context [id <? ?b] => destruct (Z.ltb_spec id b); try lia
    | |- context [?a <=? id] => destruct (Z.leb_spec a id); try lia
    | |- context [id =? ?b] => destruct (Z.eqb_spec id b); try lia
    end; reflexivity.
Qed.

(** The deltas of a block turn what the reader knew into the new state. *)
Lemma deltas_reconstruct_state (previous : option RegFile) (current : RegFile) (n : nat)
    (ds : list RegDelta) (id : Z) :
  regfile_ok current -> trace_id id -> deltas_ok previous current trace_id n ds ->
  apply_deltas (known_of previous) ds id = reg_at current id.
Proof.
  intros Hcur Hid [Hv Hi _]. rewrite (apply_deltas_lookup current) by exact Hv.
  destruct (bool_decide (id ∈ reg_ids ds)) eqn:E; [reflexivity |].
  apply bool_decide_eq_false in E. rewrite Hi in E.
  apply unchanged_known; [exact Hcur | exact Hid | tauto].
Qed.
