(* ===== verification/TraceWriter.v ===== *)
(** The stream writer ([crates/core/src/trace/writer.rs]): every record as the
    bytes it appends, and the layout of what it appends. *)

From stdpp Require Import base numbers list option.
From S2P Require Import Prelude Reg Pstate RegFile TraceFormat TraceSink.

#[local] Open Scope Z_scope.

Definition NUM_SYSREG : Z := 20.

Definition M1_INSNS_PER_BLOCK : Z := 1.

Module FpMode.

Inductive FpMode : Type := Precise | Native.

End FpMode.

Abbreviation FpMode := FpMode.FpMode.

Module CdtWriter.

Record CdtWriter : Type := mk { buffer : list Z }.

Definition bytes (self : CdtWriter) : list Z := buffer self.

Definition take_ (self : CdtWriter) : CdtWriter * list Z := (mk [], buffer self).

(** [self.buffer.extend_from_slice(bytes)]. *)
Definition extend (self : CdtWriter) (bytes : list Z) : CdtWriter := mk (buffer self ++ bytes).

Definition write_file_header `{DebugAssertions} (self : CdtWriter) (producer_name : list Z) (fp_mode : FpMode) :
    may_panic CdtWriter :=
  let flags := Z.lor stream_flags.BLOCK_DELTAS stream_flags.HAS_VREGS in
  let flags :=
    match fp_mode with
    | FpMode.Precise => Z.lor flags stream_flags.PRECISE_FP
    | FpMode.Native => flags
    end in
  let self := extend self MAGIC in
  let self := extend self (to_le_bytes 4 FORMAT_VERSION) in
  let self := extend self (to_le_bytes 4 PRODUCER_CORACLE) in
  let self := extend self (to_le_bytes 8 flags) in
  let self := extend self (to_le_bytes 8 CPU_FEATURE_ID) in
  let name := replicate (Z.to_nat PRODUCER_NAME_BYTES) 0 in
  let len := Z.min (Z.of_nat (length producer_name)) PRODUCER_NAME_BYTES in
  source ← slice producer_name 0 len;
  _ ← slice name 0 len;
  let name := source ++ drop (Z.to_nat len) name in
  let self := extend self name in
  let self := extend self (replicate 16 0) in
  _ ← debug_assert (Z.of_nat (length (buffer self)) =? FILE_HEADER_BYTES);
  mret self.

Definition new `{DebugAssertions} (producer_name : list Z) (fp_mode : FpMode) : may_panic CdtWriter :=
  write_file_header (mk []) producer_name fp_mode.

Definition write_record_header (self : CdtWriter) (record flags length : Z) : CdtWriter :=
  let self := extend self [record] in
  let self := extend self [flags] in
  let self := extend self (to_le_bytes 2 (as_u16 length)) in
  extend self (to_le_bytes 4 0).

Definition write_words (self : CdtWriter) (words : list Z) : CdtWriter :=
  foldl (fun self word => extend self (to_le_bytes 8 word)) self words.

(** Appends the dense architectural-state block an exception record carries. *)
Definition write_full_state (buffer : CdtWriter) (regs : RegFile) : may_panic CdtWriter :=
  buffer ← for_each (zrange (Z.to_nat NUM_GPR))
    (fun index buffer =>
       value ← RegFile.x_at regs index;
       mret (extend buffer (to_le_bytes 8 value))) buffer;
  let buffer := extend buffer (to_le_bytes 8 (RegFile.sp regs)) in
  let buffer := extend buffer (to_le_bytes 8 (RegFile.pc regs)) in
  let buffer := extend buffer (to_le_bytes 8 (Pstate.to_trace_word (RegFile.pstate regs))) in
  let buffer := extend buffer (replicate (Z.to_nat (NUM_SYSREG * 8)) 0) in
  let buffer := extend buffer (to_le_bytes 8 (RegFile.fpcr regs)) in
  let buffer := extend buffer (to_le_bytes 8 (RegFile.fpsr regs)) in
  for_each (zrange (Z.to_nat Vec.COUNT))
    (fun index buffer =>
       reg ← Vec.new index;
       value ← RegFile.read_v regs reg;
       let buffer := extend buffer (to_le_bytes 8 (as_u64 value)) in
       mret (extend buffer (to_le_bytes 8 (as_u64 (wshr 128 value 64))))) buffer.

Definition on_marker (self : CdtWriter) (kind : MarkerKind) (icount value : Z) :
    may_panic CdtWriter :=
  let self := write_record_header self record_type.MARKER 0 (RECORD_HEADER_BYTES + 24) in
  mret (write_words self [icount; MarkerKind.as_Z kind; value]).

Definition on_block `{DebugAssertions} (self : CdtWriter) (pc icount : Z) (deltas : list RegDelta) :
    may_panic CdtWriter :=
  _ ← debug_assert (Z.of_nat (length deltas) <=? MAX_DELTAS_PER_BLOCK);
  deltas ← slice deltas 0 (Z.min (Z.of_nat (length deltas)) MAX_DELTAS_PER_BLOCK);
  let count := Z.of_nat (length deltas) in
  let length := BLOCK_PREFIX_BYTES + count * REG_DELTA_BYTES in
  let self := write_record_header self record_type.BLOCK (as_u8 count) length in
  let self := write_words self [pc; icount] in
  let self := extend self (to_le_bytes 2 M1_INSNS_PER_BLOCK) in
  let self := extend self (replicate 6 0) in
  mret (foldl (fun self delta =>
                 let self := extend self (to_le_bytes 2 (RegDelta.reg_id delta)) in
                 let self := extend self (replicate 6 0) in
                 extend self (to_le_bytes 8 (RegDelta.value delta))) self deltas).

Definition on_exception (self : CdtWriter) (event : ExceptionEvent) : may_panic CdtWriter :=
  let length := RECORD_HEADER_BYTES + 32 + (32 + 2 + NUM_SYSREG + 2 + 64) * 8 in
  let self := write_record_header self record_type.EXCEPTION 0 length in
  let self := write_words self
    [ExceptionEvent.icount event; ExceptionEvent.from_pc event; ExceptionEvent.to_pc event] in
  let self := extend self (to_le_bytes 4 (DisconType.as_Z (ExceptionEvent.discon event))) in
  let self := extend self (to_le_bytes 4 0) in
  write_full_state self (ExceptionEvent.regs event).

Definition finish (self : CdtWriter) (reason : EndReason) (icount : Z) : may_panic CdtWriter :=
  let self := write_record_header self record_type.END_ 0 (RECORD_HEADER_BYTES + 16) in
  mret (write_words self [icount; EndReason.as_Z reason]).

End CdtWriter.

Abbreviation CdtWriter := CdtWriter.CdtWriter.

#[export] Instance CdtWriter_TraceSink `{DebugAssertions} : TraceSink CdtWriter := {
  ENABLED := true;
  on_marker := CdtWriter.on_marker;
  on_block := CdtWriter.on_block;
  on_exception := CdtWriter.on_exception;
  finish := CdtWriter.finish
}.

(** ** The bytes of a record *)

Definition words_bytes (l : list Z) : list Z := mjoin (to_le_bytes 8 <$> l).

Definition record_header (record flags length : Z) : list Z :=
  [record; flags] ++ to_le_bytes 2 (as_u16 length) ++ to_le_bytes 4 0.

Definition delta_bytes (d : RegDelta) : list Z :=
  to_le_bytes 2 (RegDelta.reg_id d) ++ replicate 6 0 ++ to_le_bytes 8 (RegDelta.value d).

Definition block_bytes (pc icount : Z) (ds : list RegDelta) : list Z :=
  let n := Z.of_nat (length ds) in
  record_header record_type.BLOCK (as_u8 n) (BLOCK_PREFIX_BYTES + n * REG_DELTA_BYTES) ++
  words_bytes [pc; icount] ++ to_le_bytes 2 M1_INSNS_PER_BLOCK ++ replicate 6 0 ++
  mjoin (delta_bytes <$> ds).

Definition marker_bytes (kind : MarkerKind) (icount value : Z) : list Z :=
  record_header record_type.MARKER 0 32 ++ words_bytes [icount; MarkerKind.as_Z kind; value].

Definition end_bytes (reason : EndReason) (icount : Z) : list Z :=
  record_header record_type.END_ 0 24 ++ words_bytes [icount; EndReason.as_Z reason].

(** The words of a state block, the system registers being zero. *)
Definition vec_words (v : Z) : list Z := [as_u64 v; as_u64 (wshr 128 v 64)].

Definition state_words (r : RegFile) : list Z :=
  RegFile.x r ++
  [RegFile.sp r; RegFile.pc r; Pstate.to_trace_word (RegFile.pstate r)] ++
  replicate (Z.to_nat NUM_SYSREG) 0 ++
  [RegFile.fpcr r; RegFile.fpsr r] ++ mjoin (vec_words <$> RegFile.v r).

Definition exception_bytes (e : ExceptionEvent) : list Z :=
  record_header record_type.EXCEPTION 0 1000 ++
  words_bytes [ExceptionEvent.icount e; ExceptionEvent.from_pc e; ExceptionEvent.to_pc e] ++
  to_le_bytes 4 (DisconType.as_Z (ExceptionEvent.discon e)) ++ to_le_bytes 4 0 ++
  words_bytes (state_words (ExceptionEvent.regs e)).

Lemma words_bytes_app (l k : list Z) : words_bytes (l ++ k) = words_bytes l ++ words_bytes k.
Proof. unfold words_bytes. rewrite fmap_app. apply join_app. Qed.

Lemma write_words_bytes (w : CdtWriter) (l : list Z) :
  CdtWriter.write_words w l = CdtWriter.extend w (words_bytes l).
Proof.
  revert w. induction l as [| x l IH]; intros [buf].
  - unfold CdtWriter.extend. cbn. rewrite app_nil_r. reflexivity.
  - cbn. fold (CdtWriter.write_words (CdtWriter.extend (CdtWriter.mk buf) (to_le_bytes 8 x)) l).
    rewrite IH. unfold CdtWriter.extend. cbn [CdtWriter.buffer]. rewrite <- app_assoc. reflexivity.
Qed.

Lemma extend_extend (w : CdtWriter) (a b : list Z) :
  CdtWriter.extend (CdtWriter.extend w a) b = CdtWriter.extend w (a ++ b).
Proof. unfold CdtWriter.extend. cbn. rewrite app_assoc. reflexivity. Qed.

Lemma record_header_bytes (w : CdtWriter) (record flags length : Z) :
  CdtWriter.write_record_header w record flags length =
  CdtWriter.extend w (record_header record flags length).
Proof. unfold CdtWriter.write_record_header. rewrite !extend_extend. reflexivity. Qed.

Lemma on_marker_bytes (w : CdtWriter) (kind : MarkerKind) (icount value : Z) :
  CdtWriter.on_marker w kind icount value =
  Done (CdtWriter.extend w (marker_bytes kind icount value)).
Proof.
  unfold CdtWriter.on_marker. rewrite write_words_bytes, record_header_bytes, extend_extend.
  reflexivity.
Qed.

Lemma finish_bytes (w : CdtWriter) (reason : EndReason) (icount : Z) :
  CdtWriter.finish w reason icount = Done (CdtWriter.extend w (end_bytes reason icount)).
Proof.
  unfold CdtWriter.finish. rewrite write_words_bytes, record_header_bytes, extend_extend.
  reflexivity.
Qed.

Lemma write_deltas_bytes (w : CdtWriter) (ds : list RegDelta) :
  foldl (fun self delta =>
           let self := CdtWriter.extend self (to_le_bytes 2 (RegDelta.reg_id delta)) in
           let self := CdtWriter.extend self (replicate 6 0) in
           CdtWriter.extend self (to_le_bytes 8 (RegDelta.value delta))) w ds =
  CdtWriter.extend w (mjoin (delta_bytes <$> ds)).
Proof.
  revert w. induction ds as [| d ds IH]; intros w.
  - unfold CdtWriter.extend. cbn. rewrite app_nil_r. destruct w. reflexivity.
  - cbn [foldl fmap list_fmap]. rewrite IH, !extend_extend. reflexivity.
Qed.

(** A block record carries the first 255 deltas, where an assertion does not ask
    that there be no more. *)
Lemma on_block_bytes `{DebugAssertions} (w : CdtWriter) (pc icount : Z) (ds : list RegDelta) :
  debug_assertions = false \/ Z.of_nat (length ds) <= MAX_DELTAS_PER_BLOCK ->
  CdtWriter.on_block w pc icount ds =
  Done (CdtWriter.extend w
          (block_bytes pc icount (take (Z.to_nat MAX_DELTAS_PER_BLOCK) ds))).
Proof.
  intros Hd. unfold CdtWriter.on_block. rewrite debug_assert_holds by (rewrite Z.leb_le; exact Hd).
  unfold MAX_DELTAS_PER_BLOCK. cbn [mbind may_panic_bind].
  rewrite slice_done by lia. rewrite Z.sub_0_r. change (Z.to_nat 0) with 0%nat. rewrite drop_0.
  cbn [mbind may_panic_bind]. cbv zeta.
  assert (take (Z.to_nat (Z.min (Z.of_nat (length ds)) 255)) ds = take (Z.to_nat 255) ds) as ->.
  { destruct (Z.min_spec (Z.of_nat (length ds)) 255) as [[Hl ->] | [Hl ->]]; [| reflexivity].
    rewrite Nat2Z.id. rewrite !take_ge by lia. reflexivity. }
  unfold mret, may_panic_ret. f_equal.
  rewrite write_deltas_bytes, write_words_bytes, record_header_bytes, !extend_extend.
  reflexivity.
Qed.

(** More deltas panic where assertions are on. *)
Lemma on_block_asserts `{DebugAssertions} (w : CdtWriter) (pc icount : Z) (ds : list RegDelta) :
  debug_assertions = true -> MAX_DELTAS_PER_BLOCK < Z.of_nat (length ds) ->
  CdtWriter.on_block w pc icount ds = Panic.
Proof.
  intros Hd Hl. unfold CdtWriter.on_block, debug_assert. rewrite Hd.
  destruct (Z.leb_spec (Z.of_nat (length ds)) MAX_DELTAS_PER_BLOCK); [lia | reflexivity].
Qed.

(** A loop that appends a chunk per element. *)
Lemma for_each_extend {A} (l : list A) (chunk : A -> list Z)
    (body : A -> CdtWriter -> may_panic CdtWriter) (w : CdtWriter) :
  (forall a w, a ∈ l -> body a w = Done (CdtWriter.extend w (chunk a))) ->
  for_each l body w = Done (CdtWriter.extend w (mjoin (chunk <$> l))).
Proof.
  induction l as [| a l IH] using rev_ind; intros Hb.
  - unfold CdtWriter.extend. cbn. rewrite app_nil_r. destruct w. reflexivity.
  - rewrite for_each_snoc, IH by (intros b w' Hin; apply Hb, elem_of_app; left; exact Hin).
    cbn [mbind may_panic_bind]. rewrite Hb by (apply elem_of_app; right; constructor).
    rewrite extend_extend, fmap_app, join_app. cbn. rewrite app_nil_r. reflexivity.
Qed.

(** Indexing every element of a list in turn. *)
Lemma fmap_zrange_lookup {A B} `{Inhabited A} (l : list A) (n : nat) (f : A -> B) :
  length l = n -> ((fun i => f (l !!! Z.to_nat i)) <$> zrange n) = (f <$> l).
Proof.
  intros <-. unfold zrange. rewrite <- list_fmap_compose. apply list_eq. intros i.
  rewrite !list_lookup_fmap. destruct (decide (i < length l)%nat) as [Hi | Hi].
  - rewrite lookup_seq_lt by exact Hi. cbn. rewrite Nat2Z.id.
    destruct (lookup_lt_is_Some_2 l i Hi) as [a Ha].
    rewrite (list_lookup_total_correct _ _ _ Ha), Ha. reflexivity.
  - rewrite lookup_seq_ge, lookup_ge_None_2 by lia. reflexivity.
Qed.

Lemma words_bytes_vecs (l : list Z) :
  mjoin ((fun v => words_bytes (vec_words v)) <$> l) = words_bytes (mjoin (vec_words <$> l)).
Proof.
  induction l as [| v l IH]; [reflexivity |].
  change (mjoin (vec_words <$> v :: l)) with (vec_words v ++ mjoin (vec_words <$> l)).
  rewrite words_bytes_app, <- IH. reflexivity.
Qed.

Lemma on_exception_bytes (w : CdtWriter) (e : ExceptionEvent) :
  regfile_ok (ExceptionEvent.regs e) ->
  CdtWriter.on_exception w e = Done (CdtWriter.extend w (exception_bytes e)).
Proof.
  intros Hr. unfold CdtWriter.on_exception, CdtWriter.write_full_state. cbv zeta.
  set (r := ExceptionEvent.regs e) in *.
  rewrite (for_each_extend _ (fun i => to_le_bytes 8 (RegFile.x r !!! Z.to_nat i))).
  2: { intros i w' [Hi0 Hi]%elem_of_zrange. unfold RegFile.x_at.
       change (Z.of_nat (Z.to_nat NUM_GPR)) with 31 in Hi.
       destruct (index_returns (RegFile.x r) i) as (a & -> & Ha); [rewrite ok_x_length by exact Hr; lia |].
       rewrite (list_lookup_total_correct _ _ _ Ha). reflexivity. }
  cbn [mbind may_panic_bind].
  rewrite (for_each_extend _ (fun i => words_bytes (vec_words (RegFile.v r !!! Z.to_nat i)))).
  2: { intros i w' [Hi0 Hi]%elem_of_zrange. change (Z.of_nat (Z.to_nat Vec.COUNT)) with 32 in Hi.
       assert (Vec.new i = Done (Vec.mk i)) as ->
         by (unfold Vec.new; destruct (Z.ltb_spec i 32); [reflexivity | lia]).
       cbn [mbind may_panic_bind]. unfold RegFile.read_v. cbn.
       destruct (index_returns (RegFile.v r) i) as (a & -> & Ha); [rewrite ok_v_length by exact Hr; lia |].
       rewrite (list_lookup_total_correct _ _ _ Ha). cbn [mbind may_panic_bind].
       rewrite extend_extend. reflexivity. }
  f_equal. rewrite !extend_extend, write_words_bytes, record_header_bytes, !extend_extend. f_equal.
  rewrite (fmap_zrange_lookup (RegFile.x r) _ (to_le_bytes 8)) by apply (ok_x_length _ Hr).
  rewrite (fmap_zrange_lookup (RegFile.v r) _ (fun v => words_bytes (vec_words v)))
    by apply (ok_v_length _ Hr).
  rewrite words_bytes_vecs.
  unfold exception_bytes, state_words. fold r. rewrite !words_bytes_app.
  reflexivity.
Qed.

(** The header, for any name. *)
Definition header_flags (m : FpMode) : Z := match m with FpMode.Precise => 11 | FpMode.Native => 10 end.

Definition name_field (name : list Z) : list Z :=
  take 32 name ++ replicate (32 - length name) 0.

Definition header_bytes (name : list Z) (m : FpMode) : list Z :=
  MAGIC ++ to_le_bytes 4 1 ++ to_le_bytes 4 2 ++ to_le_bytes 8 (header_flags m) ++
  to_le_bytes 8 CPU_FEATURE_ID ++ name_field name ++ replicate 16 0.

Lemma length_name_field (name : list Z) : length (name_field name) = 32%nat.
Proof. unfold name_field. rewrite length_app, length_take, length_replicate. lia. Qed.

Lemma length_header_bytes (name : list Z) (m : FpMode) : length (header_bytes name m) = 80%nat.
Proof.
  unfold header_bytes. rewrite !length_app, length_name_field, length_replicate. reflexivity.
Qed.

Lemma new_bytes `{DebugAssertions} (name : list Z) (m : FpMode) :
  CdtWriter.new name m = Done (CdtWriter.mk (header_bytes name m)).
Proof.
  unfold CdtWriter.new, CdtWriter.write_file_header. unfold PRODUCER_NAME_BYTES.
  rewrite !slice_done by (rewrite ?length_replicate; lia).
  rewrite Z.sub_0_r. change (Z.to_nat 0) with 0%nat. rewrite !drop_0.
  cbn [mbind may_panic_bind]. rewrite !extend_extend.
  unfold CdtWriter.extend. cbn [CdtWriter.buffer app].
  match goal with |- context [CdtWriter.mk ?l] => assert (l = header_bytes name m) as -> end.
  2: { cbn [CdtWriter.buffer]. rewrite debug_assert_holds; [reflexivity |].
       right. rewrite length_header_bytes. reflexivity. }
  unfold header_bytes, name_field. rewrite <- !app_assoc. do 3 f_equal.
  destruct m; cbn [header_flags]; (f_equal; f_equal; rewrite drop_replicate; 
    (destruct (Z.min_spec (Z.of_nat (length name)) 32) as [[Hl ->] | [Hl ->]];
     [rewrite Nat2Z.id, !take_ge by lia; reflexivity
     | change (Z.to_nat 32) with 32%nat; replace (32 - length name)%nat with 0%nat by lia; reflexivity])).
Qed.

(** The writer never panics on what a record can count. *)
#[export] Instance CdtWriter_total `{DebugAssertions} : TotalSink CdtWriter.
Proof.
  split.
  - intros s pc icount ds Hd. cbn. rewrite on_block_bytes by (right; exact Hd). apply returns_done. exact I.
  - intros s e He. cbn. rewrite on_exception_bytes by exact He. apply returns_done. exact I.
Qed.
