(* ===== verification/TraceReader.v ===== *)
(** The differ's stream reader ([tests/differ/reader.mjs]), and the round trip
    with the writer.

    A [DataView] is a list of bytes; its accessors throw a [RangeError] past the
    end.  Offsets are natural numbers. *)

From stdpp Require Import base numbers list option.
From S2P Require Import Prelude Reg Pstate RegFile TraceFormat TraceSink TraceWriter.

#[local] Open Scope Z_scope.

Module ReadError.

Inductive ReadError : Type :=
| RangeError
| ShortFile
| BadMagic
| BadVersion (version : Z)
| BadLength (offset : nat) (length : Z)
| PastEnd (offset : nat)
| OutOfFuel.

End ReadError.

Abbreviation ReadError := ReadError.ReadError.

(** A value, or an exception thrown. *)
Definition read (A : Type) : Type := result A ReadError.

#[export] Instance read_bind : MBind read :=
  fun A B f m => match m with Ok a => f a | Err e => Err e end.

Module reader.

Definition NUM_SYSREG : nat := 20.
Definition NUM_VREG : nat := 32.

(** [view.getUint8], [getUint16], [getUint32] and [getBigUint64], with
    [littleEndian] true. *)
Definition getUint (view : list Z) (offset width : nat) : read Z :=
  if (offset + width <=? length view)%nat
  then Ok (from_le_bytes (take width (drop offset view))) else Err ReadError.RangeError.

Record Header : Type := {
  producer : Z;
  flags : Z;
  cpuFeatureId : Z;
  producerName : list Z
}.

Record Exception_ : Type := {
  icount : Z;
  fromPc : Z;
  toPc : Z;
  disconType : Z;
  x : list Z;
  pc : Z;
  pstate : Z;
  sysreg : list Z;
  fpcr : Z;
  fpsr : Z;
  v : list Z
}.

Inductive Record_ : Type :=
| Block (pc icount nInsns : Z) (deltas : list RegDelta)
| Exception (e : Exception_)
| Marker (icount kind value : Z)
| End_ (icount reason : Z)
| Unknown (type : Z).

(** [toString("latin1", 0, end)] where [end] is the first NUL, if any. *)
Fixpoint until_nul (l : list Z) : list Z :=
  match l with
  | [] => []
  | b :: l => if b =? 0 then [] else b :: until_nul l
  end.

Definition readHeader (view : list Z) : read Header :=
  if bool_decide (take 8 view = MAGIC) then
    formatVersion ← getUint view 8 4;
    if negb (formatVersion =? FORMAT_VERSION) then Err (ReadError.BadVersion formatVersion)
    else
      producer ← getUint view 12 4;
      flags ← getUint view 16 8;
      cpuFeatureId ← getUint view 24 8;
      Ok {| producer := producer; flags := flags; cpuFeatureId := cpuFeatureId;
            producerName := until_nul (take 32 (drop 32 view)) |}
  else Err ReadError.BadMagic.

Fixpoint readDeltas (view : list Z) (cursor count : nat) : read (list RegDelta) :=
  match count with
  | O => Ok []
  | S count =>
      regId ← getUint view cursor 2;
      value ← getUint view (cursor + 8) 8;
      deltas ← readDeltas view (cursor + 16) count;
      Ok (RegDelta.mk regId value :: deltas)
  end.

Definition readBlock (view : list Z) (offset count : nat) : read Record_ :=
  deltas ← readDeltas view (offset + 32) count;
  pc ← getUint view (offset + 8) 8;
  icount ← getUint view (offset + 16) 8;
  nInsns ← getUint view (offset + 24) 2;
  Ok (Block pc icount nInsns deltas).

(** The loop of [readWords], from its [i]th iteration on. *)
Fixpoint readWords_from (view : list Z) (offset i count : nat) : read (list Z) :=
  match count with
  | O => Ok []
  | S count =>
      word ← getUint view (offset + i * 8) 8;
      words ← readWords_from view offset (S i) count;
      Ok (word :: words)
  end.

Definition readWords (view : list Z) (offset count : nat) : read (list Z) :=
  readWords_from view offset 0 count.

Definition readException (view : list Z) (offset : nat) : read Record_ :=
  let cursor := (offset + 8)%nat in
  icount ← getUint view cursor 8;
  fromPc ← getUint view (cursor + 8) 8;
  toPc ← getUint view (cursor + 16) 8;
  disconType ← getUint view (cursor + 24) 4;
  let cursor := (cursor + 32)%nat in
  x ← readWords view cursor 32;
  let cursor := (cursor + 32 * 8)%nat in
  pc ← getUint view cursor 8;
  let cursor := (cursor + 8)%nat in
  pstate ← getUint view cursor 8;
  let cursor := (cursor + 8)%nat in
  sysreg ← readWords view cursor NUM_SYSREG;
  let cursor := (cursor + NUM_SYSREG * 8)%nat in
  fpcr ← getUint view cursor 8;
  let cursor := (cursor + 8)%nat in
  fpsr ← getUint view cursor 8;
  let cursor := (cursor + 8)%nat in
  v ← readWords view cursor (NUM_VREG * 2);
  Ok (Exception {| icount := icount; fromPc := fromPc; toPc := toPc; disconType := disconType;
                   x := x; pc := pc; pstate := pstate; sysreg := sysreg; fpcr := fpcr;
                   fpsr := fpsr; v := v |}).

Definition readRecord (view : list Z) (offset : nat) : read (Z * Record_) :=
  type ← getUint view offset 1;
  flags ← getUint view (offset + 1) 1;
  length ← getUint view (offset + 2) 2;
  if (length <? RECORD_HEADER_BYTES) || negb (length mod 8 =? 0)
  then Err (ReadError.BadLength offset length)
  else if type =? record_type.BLOCK then
    record ← readBlock view offset (Z.to_nat flags); Ok (length, record)
  else if type =? record_type.EXCEPTION then
    record ← readException view offset; Ok (length, record)
  else if type =? record_type.MARKER then
    icount ← getUint view (offset + 8) 8;
    kind ← getUint view (offset + 16) 8;
    value ← getUint view (offset + 24) 8;
    Ok (length, Marker icount kind value)
  else if type =? record_type.END_ then
    icount ← getUint view (offset + 8) 8;
    reason ← getUint view (offset + 16) 8;
    Ok (length, End_ icount reason)
  else Ok (length, Unknown type).

(** The [while] loop of [loadTrace]; every iteration advances by at least a
    record header, so the length of the file is fuel enough. *)
Fixpoint readRecords (fuel : nat) (view : list Z) (offset : nat) : read (list Record_) :=
  match fuel with
  | O => Err ReadError.OutOfFuel
  | S fuel =>
      if (offset + 8 <=? length view)%nat then
        '(length, record) ← readRecord view offset;
        if (List.length view <? offset + Z.to_nat length)%nat
        then Err (ReadError.PastEnd offset)
        else
          records ← readRecords fuel view (offset + Z.to_nat length);
          Ok (record :: records)
      else Ok []
  end.

Definition loadTrace (bytes : list Z) : read (Header * list Record_) :=
  if (length bytes <? 80)%nat then Err ReadError.ShortFile
  else
    header ← readHeader bytes;
    records ← readRecords (length bytes) bytes 80;
    Ok (header, records).

End reader.

Import reader.

(** ** Reading inside a list *)

Lemma getUint_drop (view : list Z) (offset k width : nat) :
  (0 < width)%nat -> getUint view (offset + k) width = getUint (drop offset view) k width.
Proof.
  intros Hw. unfold getUint. rewrite length_drop, drop_drop.
  destruct (Nat.leb_spec (offset + k + width) (length view)),
    (Nat.leb_spec (k + width) (length view - offset)); reflexivity || lia.
Qed.

Lemma getUint_skip (l rest : list Z) (k width : nat) :
  (length l <= k)%nat -> getUint (l ++ rest) k width = getUint rest (k - length l) width.
Proof.
  intros Hk. unfold getUint. rewrite length_app, drop_app_ge by exact Hk.
  destruct (Nat.leb_spec (k + width) (length l + length rest)),
    (Nat.leb_spec (k - length l + width) (length rest)); reflexivity || lia.
Qed.

Lemma getUint_here (width : nat) (x : Z) (rest : list Z) :
  0 <= x < 256 ^ Z.of_nat width -> getUint (to_le_bytes width x ++ rest) 0 width = Ok x.
Proof.
  intros Hx. unfold getUint. rewrite length_app, length_to_le_bytes, drop_0.
  destruct (Nat.leb_spec (0 + width) (width + length rest)); [| lia].
  rewrite take_app_length' by (symmetry; apply length_to_le_bytes).
  rewrite from_to_le_bytes, Z.mod_small by exact Hx. reflexivity.
Qed.

(** Reads the field a list starts with, or skips it. *)
Lemma getUint_at (width : nat) (x : Z) (pre rest : list Z) (k : nat) :
  k = length pre -> 0 <= x < 256 ^ Z.of_nat width ->
  getUint (pre ++ to_le_bytes width x ++ rest) k width = Ok x.
Proof.
  intros -> Hx. rewrite getUint_skip, Nat.sub_diag by reflexivity. apply getUint_here, Hx.
Qed.

(** Every accessor of a record reads the rest of the stream only. *)
Lemma readDeltas_drop (view : list Z) (offset k count : nat) :
  readDeltas view (offset + k) count = readDeltas (drop offset view) k count.
Proof.
  revert k. induction count as [| count IH]; intros k; [reflexivity |]. cbn [readDeltas].
  rewrite <- !Nat.add_assoc, !getUint_drop, IH by lia. reflexivity.
Qed.

Lemma readWords_from_drop (view : list Z) (offset k i count : nat) :
  readWords_from view (offset + k) i count = readWords_from (drop offset view) k i count.
Proof.
  revert i. induction count as [| count IH]; intros i; [reflexivity |]. cbn [readWords_from].
  rewrite <- !Nat.add_assoc, !getUint_drop, IH by lia. reflexivity.
Qed.

Lemma readException_drop (view : list Z) (offset : nat) :
  readException view offset = readException (drop offset view) 0.
Proof.
  unfold readException, readWords. cbv zeta.
  rewrite <- !Nat.add_assoc, !getUint_drop, !readWords_from_drop by lia. reflexivity.
Qed.

Lemma readBlock_drop (view : list Z) (offset count : nat) :
  readBlock view offset count = readBlock (drop offset view) 0 count.
Proof. unfold readBlock. rewrite !getUint_drop, readDeltas_drop by lia. reflexivity. Qed.

(** A record that reads at the start of the rest reads where it is. *)
Lemma readRecord_drop (view : list Z) (offset : nat) (r : Z * Record_) :
  readRecord (drop offset view) 0 = Ok r -> readRecord view offset = Ok r.
Proof.
  unfold readRecord. cbn [Nat.add].
  assert (getUint view offset 1 = getUint (drop offset view) 0 1) as ->
    by (rewrite <- getUint_drop, Nat.add_0_r by lia; reflexivity).
  rewrite !getUint_drop by lia.
  destruct (getUint (drop offset view) 0 1) as [type |]; [| discriminate].
  destruct (getUint (drop offset view) 1 1) as [flags |]; [| discriminate].
  destruct (getUint (drop offset view) 2 2) as [length |]; [| discriminate].
  cbn [mbind read_bind].
  destruct ((length <? RECORD_HEADER_BYTES) || _); [discriminate |].
  rewrite (readBlock_drop view offset), (readException_drop view offset). exact id.
Qed.

(** ** What the differ is meant to read *)

Definition word (x : Z) : Prop := in_range 64 x.

Lemma word_bytes (x : Z) : word x -> 0 <= x < 256 ^ Z.of_nat 8.
Proof. exact id. Qed.

Lemma u32_bytes (x : Z) : in_range 32 x -> 0 <= x < 256 ^ Z.of_nat 4.
Proof. exact id. Qed.

Lemma u16_bytes (x : Z) : in_range 16 x -> 0 <= x < 256 ^ Z.of_nat 2.
Proof. exact id. Qed.

Lemma length_words_bytes (l : list Z) : length (words_bytes l) = (length l * 8)%nat.
Proof.
  induction l as [| x l IH]; [reflexivity |].
  change (words_bytes (x :: l)) with (to_le_bytes 8 x ++ words_bytes l).
  rewrite length_app, length_to_le_bytes, IH. cbn [length]. lia.
Qed.

(** A block of words, [i] of them already read. *)
Lemma readWords_from_bytes (l pre rest : list Z) (offset i : nat) :
  Forall word l -> length pre = (offset + i * 8)%nat ->
  readWords_from (pre ++ words_bytes l ++ rest) offset i (length l) = Ok l.
Proof.
  intros Hl. revert pre i. induction Hl as [| x l Hx Hl IH]; intros pre i Hpre; [reflexivity |].
  cbn [readWords_from length].
  change (words_bytes (x :: l)) with (to_le_bytes 8 x ++ words_bytes l). rewrite <- !app_assoc.
  rewrite getUint_at by (try apply word_bytes; congruence || assumption).
  cbn [mbind read_bind]. rewrite (app_assoc pre), IH; [reflexivity |].
  rewrite length_app, length_to_le_bytes, Hpre. lia.
Qed.

Lemma readWords_bytes (l pre rest : list Z) (offset : nat) :
  Forall word l -> length pre = offset ->
  readWords (pre ++ words_bytes l ++ rest) offset (length l) = Ok l.
Proof. intros Hl Hpre. apply readWords_from_bytes; [exact Hl | lia]. Qed.

Definition delta_wf (d : RegDelta) : Prop :=
  in_range 16 (RegDelta.reg_id d) /\ word (RegDelta.value d).

Lemma readDeltas_bytes (ds : list RegDelta) (pre rest : list Z) (cursor : nat) :
  Forall delta_wf ds -> length pre = cursor ->
  readDeltas (pre ++ mjoin (delta_bytes <$> ds) ++ rest) cursor (length ds) = Ok ds.
Proof.
  intros Hds. revert pre cursor. induction Hds as [| [id value] ds [Hid Hv] Hds IH];
    intros pre cursor Hpre; [reflexivity |]. cbn in Hid, Hv.
  cbn [readDeltas length].
  change (mjoin (delta_bytes <$> RegDelta.mk id value :: ds))
    with ((to_le_bytes 2 id ++ replicate 6 0 ++ to_le_bytes 8 value) ++ mjoin (delta_bytes <$> ds)).
  rewrite <- !app_assoc.
  rewrite getUint_at by (try apply u16_bytes; congruence || assumption).
  cbn [mbind read_bind].
  rewrite (app_assoc (to_le_bytes 2 id)), (app_assoc pre).
  rewrite (getUint_at 8) by first
    [ rewrite !length_app, length_to_le_bytes, length_replicate; lia | apply word_bytes, Hv ].
  rewrite (app_assoc _ (to_le_bytes 8 value)), IH; [reflexivity |].
  rewrite !length_app, !length_to_le_bytes, length_replicate. lia.
Qed.

(** ** Records, field by field *)

(** The bytes of a record, whoever wrote it. *)
Definition record_bytes (r : Record_) : list Z :=
  match r with
  | Block pc icount nInsns deltas =>
      let n := Z.of_nat (length deltas) in
      record_header record_type.BLOCK n (BLOCK_PREFIX_BYTES + n * REG_DELTA_BYTES) ++
      words_bytes [pc; icount] ++ to_le_bytes 2 nInsns ++ replicate 6 0 ++
      mjoin (delta_bytes <$> deltas)
  | Exception e =>
      record_header record_type.EXCEPTION 0 1000 ++
      words_bytes [reader.icount e; fromPc e; toPc e] ++
      to_le_bytes 4 (disconType e) ++ to_le_bytes 4 0 ++
      words_bytes (x e ++ [reader.pc e; pstate e] ++ sysreg e ++ [fpcr e; fpsr e] ++ v e)
  | Marker icount kind value =>
      record_header record_type.MARKER 0 32 ++ words_bytes [icount; kind; value]
  | End_ icount reason => record_header record_type.END_ 0 24 ++ words_bytes [icount; reason]
  | Unknown type => record_header type 0 8
  end.

Record exception_wf (e : Exception_) : Prop := {
  wf_icount : word (reader.icount e);
  wf_from : word (fromPc e);
  wf_to : word (toPc e);
  wf_discon : in_range 32 (disconType e);
  wf_x : Forall word (x e);
  wf_x_length : length (x e) = 32%nat;
  wf_pc : word (reader.pc e);
  wf_pstate : word (pstate e);
  wf_sysreg : Forall word (sysreg e);
  wf_sysreg_length : length (sysreg e) = 20%nat;
  wf_fpcr : word (fpcr e);
  wf_fpsr : word (fpsr e);
  wf_v : Forall word (v e);
  wf_v_length : length (v e) = 64%nat
}.

(** Fields that fit where they are written. *)
Definition record_wf (r : Record_) : Prop :=
  match r with
  | Block pc icount nInsns deltas =>
      word pc /\ word icount /\ in_range 16 nInsns /\ Forall delta_wf deltas /\
      (length deltas <= 255)%nat
  | Exception e => exception_wf e
  | Marker icount kind value => word icount /\ word kind /\ word value
  | End_ icount reason => word icount /\ word reason
  | Unknown type => 4 < type < 256
  end.

Lemma length_record_header (record flags len : Z) : length (record_header record flags len) = 8%nat.
Proof. reflexivity. Qed.

Lemma length_deltas_bytes (ds : list RegDelta) :
  length (mjoin (delta_bytes <$> ds)) = (length ds * 16)%nat.
Proof.
  induction ds as [| d ds IH]; [reflexivity |].
  change (mjoin (delta_bytes <$> d :: ds)) with (delta_bytes d ++ mjoin (delta_bytes <$> ds)).
  rewrite length_app, IH. cbn [length Nat.mul]. f_equal.
Qed.

Lemma length_block_record (pc icount nInsns : Z) (ds : list RegDelta) :
  length (record_bytes (Block pc icount nInsns ds)) = (32 + length ds * 16)%nat.
Proof.
  cbn [record_bytes]. cbv zeta. rewrite !length_app, length_deltas_bytes, length_words_bytes.
  reflexivity.
Qed.

Lemma length_exception_record (e : Exception_) :
  exception_wf e -> length (record_bytes (Exception e)) = 1000%nat.
Proof.
  intros He. cbn [record_bytes]. rewrite !length_app, !length_words_bytes, !length_app.
  rewrite (wf_x_length _ He), (wf_sysreg_length _ He), (wf_v_length _ He). reflexivity.
Qed.

(** The declared length of a record is the number of bytes written: whole
    words, and at most what the header's 16 bits can say. *)
Lemma record_length (r : Record_) :
  record_wf r ->
  (8 <= length (record_bytes r))%nat /\ Z.of_nat (length (record_bytes r)) < 2 ^ 16 /\
  Z.of_nat (length (record_bytes r)) mod 8 = 0.
Proof.
  intros Hr. destruct r as [pc ic n ds | e | ic kind value | ic reason | type].
  - destruct Hr as (_ & _ & _ & _ & Hlen). rewrite length_block_record.
    split; [lia |]. split; [lia |].
    replace (Z.of_nat (32 + length ds * 16)) with ((4 + 2 * Z.of_nat (length ds)) * 8) by lia.
    apply Z.mod_mul. lia.
  - rewrite length_exception_record by exact Hr. split; [lia | split; reflexivity].
  - split; [cbn; lia | split; reflexivity].
  - split; [cbn; lia | split; reflexivity].
  - split; [cbn; lia | split; reflexivity].
Qed.

(** A fixed-width field, found by computing where it is. *)
Lemma getUint_field (view : list Z) (k width : nat) (x : Z) :
  getUint view k width = Ok (from_le_bytes (to_le_bytes width x)) ->
  0 <= x < 256 ^ Z.of_nat width -> getUint view k width = Ok x.
Proof. intros -> Hx. rewrite from_to_le_bytes, Z.mod_small by exact Hx. reflexivity. Qed.

Ltac field_at k width x :=
  rewrite (getUint_field _ k width x) by first [reflexivity | assumption | cbn; lia];
  cbn [mbind read_bind].

(** A one-byte field that is not computed. *)
Lemma getUint_byte (view : list Z) (k : nat) (x : Z) :
  view !! k = Some x -> 0 <= x < 256 -> getUint view k 1 = Ok x.
Proof.
  intros Hk Hx. unfold getUint. pose proof (lookup_lt_Some _ _ _ Hk).
  destruct (Nat.leb_spec (k + 1) (length view)); [| lia].
  rewrite (drop_S _ _ _ Hk). change (take 1 (x :: drop (S k) view)) with [x].
  cbn [from_le_bytes]. f_equal. lia.
Qed.

Lemma block_reads (pc icount nInsns : Z) (ds : list RegDelta) (rest : list Z) :
  record_wf (Block pc icount nInsns ds) ->
  readRecord (record_bytes (Block pc icount nInsns ds) ++ rest) 0 =
  Ok (32 + 16 * Z.of_nat (length ds), Block pc icount nInsns ds).
Proof.
  intros (Hp & Hi & Hn & Hds & Hlen). cbn [record_bytes]. cbv zeta.
  unfold BLOCK_PREFIX_BYTES, REG_DELTA_BYTES, record_header.
  set (n := Z.of_nat (length ds)).
  assert (as_u16 (32 + n * 16) = 32 + 16 * n) as ->
    by (unfold as_u16; rewrite wrap_small by (split; lia); lia).
  unfold readRecord. field_at 0%nat 1%nat 1.
  rewrite (getUint_byte _ 1 n) by (reflexivity || lia). cbn [mbind read_bind].
  field_at 2%nat 2%nat (32 + 16 * n).
  assert ((32 + 16 * n <? RECORD_HEADER_BYTES) || negb ((32 + 16 * n) mod 8 =? 0) = false) as ->.
  { unfold RECORD_HEADER_BYTES. destruct (Z.ltb_spec (32 + 16 * n) 8); [lia |].
    replace (32 + 16 * n) with ((4 + 2 * n) * 8) by lia. rewrite Z.mod_mul by lia. reflexivity. }
  change (1 =? record_type.BLOCK) with true. cbv iota.
  replace (Z.to_nat n) with (length ds) by (unfold n; lia). unfold readBlock. cbn [Nat.add].
  rewrite <- !app_assoc.
  set (pre := ([record_type.BLOCK; n] ++ to_le_bytes 2 (32 + 16 * n) ++ to_le_bytes 4 0 ++
    words_bytes [pc; icount] ++ to_le_bytes 2 nInsns ++ replicate 6 0)).
  match goal with |- context [readDeltas ?view 32 _] =>
    change view with (pre ++ mjoin (delta_bytes <$> ds) ++ rest) end.
  rewrite readDeltas_bytes by (assumption || reflexivity). cbn [mbind read_bind].
  field_at 8%nat 8%nat pc. field_at 16%nat 8%nat icount. field_at 24%nat 2%nat nInsns. reflexivity.
Qed.

(** The fixed part of an exception record, and its state block by field. *)
Definition exception_prefix (e : Exception_) : list Z :=
  record_header record_type.EXCEPTION 0 1000 ++
  words_bytes [reader.icount e; fromPc e; toPc e] ++ to_le_bytes 4 (disconType e) ++ to_le_bytes 4 0.

Lemma exception_layout (e : Exception_) (rest : list Z) :
  record_bytes (Exception e) ++ rest =
  exception_prefix e ++ words_bytes (x e) ++ to_le_bytes 8 (reader.pc e) ++
  to_le_bytes 8 (pstate e) ++ words_bytes (sysreg e) ++ to_le_bytes 8 (fpcr e) ++
  to_le_bytes 8 (fpsr e) ++ words_bytes (v e) ++ rest.
Proof.
  cbn [record_bytes]. unfold exception_prefix. rewrite !words_bytes_app, <- !app_assoc. reflexivity.
Qed.

Lemma length_exception_prefix (e : Exception_) : length (exception_prefix e) = 40%nat.
Proof. reflexivity. Qed.

(** [readWords] with its count given by the code. *)
Lemma readWords_count (l pre rest : list Z) (offset count : nat) :
  Forall word l -> length pre = offset -> length l = count ->
  readWords (pre ++ words_bytes l ++ rest) offset count = Ok l.
Proof. intros Hl Hpre <-. apply readWords_bytes; assumption. Qed.

(** Moves the field just read to the prefix [P] of length [n]. *)
Ltac next_field P Q n :=
  rewrite (app_assoc P); set (Q := P ++ _);
  assert (length Q = n)
    by (unfold Q; rewrite length_app, ?length_words_bytes, ?length_to_le_bytes; lia);
  clearbody Q.

Ltac words_at l P k := rewrite (readWords_count l P _ k) by (assumption || lia); cbn [mbind read_bind].

Ltac word_at x P k := rewrite (getUint_at 8 x P _ k) by (assumption || lia); cbn [mbind read_bind].

Lemma exception_reads (e : Exception_) (rest : list Z) :
  exception_wf e -> readException (record_bytes (Exception e) ++ rest) 0 = Ok (Exception e).
Proof.
  intros [Hi Hf Ht Hd Hx Hxl Hpc Hps Hs Hsl Hfc Hfs Hv Hvl]. rewrite exception_layout.
  unfold readException, reader.NUM_SYSREG, reader.NUM_VREG. cbv zeta. cbn [Nat.add Nat.mul].
  field_at 8%nat 8%nat (reader.icount e). field_at 16%nat 8%nat (fromPc e).
  field_at 24%nat 8%nat (toPc e). field_at 32%nat 4%nat (disconType e).
  pose proof (length_exception_prefix e) as Hpre.
  set (P := exception_prefix e) in *. clearbody P.
  words_at (x e) P 40%nat. next_field P P1 296%nat.
  word_at (reader.pc e) P1 296%nat. next_field P1 P2 304%nat.
  word_at (pstate e) P2 304%nat. next_field P2 P3 312%nat.
  words_at (sysreg e) P3 312%nat. next_field P3 P4 472%nat.
  word_at (fpcr e) P4 472%nat. next_field P4 P5 480%nat.
  word_at (fpsr e) P5 480%nat. next_field P5 P6 488%nat.
  words_at (v e) P6 488%nat. destruct e. reflexivity.
Qed.

(** A record reads as it was written, whatever follows it. *)
Lemma record_reads (r : Record_) (rest : list Z) :
  record_wf r ->
  readRecord (record_bytes r ++ rest) 0 = Ok (Z.of_nat (length (record_bytes r)), r).
Proof.
  intros Hr. destruct r as [pc ic n ds | e | ic kind value | ic reason | type].
  - rewrite length_block_record, block_reads by exact Hr. do 2 f_equal. lia.
  - rewrite length_exception_record by exact Hr.
    pose proof (exception_reads e rest Hr) as R. unfold readRecord.
    field_at 0%nat 1%nat 2. field_at 1%nat 1%nat 0. field_at 2%nat 2%nat 1000.
    change ((1000 <? RECORD_HEADER_BYTES) || negb (1000 mod 8 =? 0)) with false.
    change (2 =? record_type.BLOCK) with false. change (2 =? record_type.EXCEPTION) with true.
    cbv iota. rewrite R. reflexivity.
  - destruct Hr as (Hi & Hk & Hv). unfold readRecord.
    field_at 0%nat 1%nat 3. field_at 1%nat 1%nat 0. field_at 2%nat 2%nat 32.
    field_at 8%nat 8%nat ic. field_at 16%nat 8%nat kind. field_at 24%nat 8%nat value. reflexivity.
  - destruct Hr as (Hi & Hk). unfold readRecord.
    field_at 0%nat 1%nat 4. field_at 1%nat 1%nat 0. field_at 2%nat 2%nat 24.
    field_at 8%nat 8%nat ic. field_at 16%nat 8%nat reason. reflexivity.
  - cbn in Hr. unfold readRecord. rewrite (getUint_byte _ 0 type) by (reflexivity || lia).
    cbn [mbind read_bind]. field_at 1%nat 1%nat 0. field_at 2%nat 2%nat 8.
    change ((8 <? RECORD_HEADER_BYTES) || negb (8 mod 8 =? 0)) with false. cbv iota.
    unfold record_type.BLOCK, record_type.EXCEPTION, record_type.MARKER, record_type.END_.
    destruct (Z.eqb_spec type 1), (Z.eqb_spec type 2), (Z.eqb_spec type 3), (Z.eqb_spec type 4);
      lia || reflexivity.
Qed.

(** ** Events, as written and as read *)

Inductive trace_event : Type :=
| EMarker (kind : MarkerKind) (icount value : Z)
| EBlock (pc icount : Z) (deltas : list RegDelta)
| EException (e : ExceptionEvent)
| EEnd (reason : EndReason) (icount : Z).

(** The machine words an event carries. *)
Definition event_wf (ev : trace_event) : Prop :=
  match ev with
  | EMarker _ icount value => word icount /\ word value
  | EBlock pc icount deltas => word pc /\ word icount /\ Forall delta_wf deltas
  | EException e =>
      word (ExceptionEvent.icount e) /\ word (ExceptionEvent.from_pc e) /\
      word (ExceptionEvent.to_pc e) /\ regfile_ok (ExceptionEvent.regs e)
  | EEnd _ icount => word icount
  end.

Definition event_bytes (ev : trace_event) : list Z :=
  match ev with
  | EMarker kind icount value => marker_bytes kind icount value
  | EBlock pc icount deltas =>
      block_bytes pc icount (take (Z.to_nat MAX_DELTAS_PER_BLOCK) deltas)
  | EException e => exception_bytes e
  | EEnd reason icount => end_bytes reason icount
  end.

Definition event_record (ev : trace_event) : Record_ :=
  match ev with
  | EMarker kind icount value => Marker icount (MarkerKind.as_Z kind) value
  | EBlock pc icount deltas => Block pc icount 1 (take (Z.to_nat MAX_DELTAS_PER_BLOCK) deltas)
  | EException e =>
      let r := ExceptionEvent.regs e in
      Exception {| icount := ExceptionEvent.icount e; fromPc := ExceptionEvent.from_pc e;
        toPc := ExceptionEvent.to_pc e; disconType := DisconType.as_Z (ExceptionEvent.discon e);
        x := RegFile.x r ++ [RegFile.sp r]; pc := RegFile.pc r;
        pstate := Pstate.to_trace_word (RegFile.pstate r); sysreg := replicate 20 0;
        fpcr := RegFile.fpcr r; fpsr := RegFile.fpsr r; v := mjoin (vec_words <$> RegFile.v r) |}
  | EEnd reason icount => End_ icount (EndReason.as_Z reason)
  end.

(** The call each event is. *)
Definition emit {S} `{TraceSink S} (sink : S) (ev : trace_event) : may_panic S :=
  match ev with
  | EMarker kind icount value => on_marker sink kind icount value
  | EBlock pc icount deltas => on_block sink pc icount deltas
  | EException e => on_exception sink e
  | EEnd reason icount => finish sink reason icount
  end.

(** A block whose deltas a record can count. *)
Definition event_fits (ev : trace_event) : Prop :=
  match ev with
  | EBlock _ _ deltas => Z.of_nat (length deltas) <= MAX_DELTAS_PER_BLOCK
  | _ => True
  end.

#[export] Instance event_fits_dec (ev : trace_event) : Decision (event_fits ev).
Proof. destruct ev; apply _. Defined.

Lemma emit_bytes `{DebugAssertions} (w : CdtWriter) (ev : trace_event) :
  event_wf ev -> debug_assertions = false \/ event_fits ev ->
  emit w ev = Done (CdtWriter.extend w (event_bytes ev)).
Proof.
  intros Hev Hfits. destruct ev; cbn.
  - apply on_marker_bytes.
  - apply on_block_bytes, Hfits.
  - apply on_exception_bytes. apply Hev.
  - apply finish_bytes.
Qed.

(** One that does not fit stops the writer, in a build with assertions. *)
Lemma emit_asserts `{DebugAssertions} (w : CdtWriter) (ev : trace_event) :
  debug_assertions = true -> ~ event_fits ev -> emit w ev = Panic.
Proof.
  intros Hd Hfits. destruct ev; cbn in *; try tauto. apply on_block_asserts; [exact Hd | lia].
Qed.

(** What the writer appends is the layout of the record the differ reads. *)
Lemma event_bytes_record (ev : trace_event) : event_bytes ev = record_bytes (event_record ev).
Proof.
  destruct ev as [kind ic value | pc ic ds | e | reason ic]; [reflexivity | | | reflexivity];
    cbn [event_bytes event_record record_bytes].
  - unfold block_bytes. cbv zeta. unfold as_u8. rewrite wrap_small; [reflexivity |].
    rewrite length_take. unfold MAX_DELTAS_PER_BLOCK. split; lia.
  - unfold exception_bytes, state_words. cbn [reader.icount fromPc toPc disconType x reader.pc pstate
      sysreg fpcr fpsr v]. rewrite <- !app_assoc. reflexivity.
Qed.

Lemma vec_words_word (l : list Z) : Forall word (mjoin (vec_words <$> l)).
Proof.
  induction l as [| v l IH]; [constructor |].
  constructor; [apply wrap_range; lia |]. constructor; [apply wrap_range; lia | exact IH].
Qed.

Lemma length_vec_words (l : list Z) : length (mjoin (vec_words <$> l)) = (length l * 2)%nat.
Proof.
  induction l as [| v l IH]; [reflexivity |].
  change (mjoin (vec_words <$> v :: l)) with (vec_words v ++ mjoin (vec_words <$> l)).
  rewrite length_app, IH. reflexivity.
Qed.

Lemma event_record_wf (ev : trace_event) : event_wf ev -> record_wf (event_record ev).
Proof.
  intros Hev. destruct ev as [kind ic value | pc ic ds | e | reason ic]; cbn [event_record].
  - destruct Hev as [Hi Hv]. split; [exact Hi |]. split; [| exact Hv].
    destruct kind; split; vm_compute; congruence.
  - destruct Hev as (Hp & Hi & Hds). do 2 (split; [assumption |]). split; [split; lia |].
    split; [apply Forall_take, Hds |]. rewrite length_take. unfold MAX_DELTAS_PER_BLOCK. lia.
  - destruct Hev as (Hi & Hf & Ht & Hr). set (r := ExceptionEvent.regs e) in *.
    split; cbn [reader.icount fromPc toPc disconType x reader.pc pstate sysreg fpcr fpsr v];
      try assumption; try apply Hr.
    + destruct (ExceptionEvent.discon e); split; vm_compute; congruence.
    + apply Forall_app_2; [apply (ok_x _ Hr) | constructor; [apply (ok_sp _ Hr) | constructor]].
    + rewrite length_app, (ok_x_length _ Hr). reflexivity.
    + apply to_trace_word_range.
    + apply Forall_replicate. split; lia.
    + reflexivity.
    + apply vec_words_word.
    + rewrite length_vec_words, (ok_v_length _ Hr). reflexivity.
  - split; [exact Hev |]. destruct reason; split; vm_compute; congruence.
Qed.

(** ** Streams *)

Lemma event_length (ev : trace_event) :
  event_wf ev ->
  (8 <= length (event_bytes ev))%nat /\ Z.of_nat (length (event_bytes ev)) < 2 ^ 16 /\
  Z.of_nat (length (event_bytes ev)) mod 8 = 0.
Proof. rewrite event_bytes_record. intros Hev. apply record_length, event_record_wf, Hev. Qed.

Lemma event_reads (ev : trace_event) (rest : list Z) :
  event_wf ev ->
  readRecord (event_bytes ev ++ rest) 0 =
  Ok (Z.of_nat (length (event_bytes ev)), event_record ev).
Proof. rewrite event_bytes_record. intros Hev. apply record_reads, event_record_wf, Hev. Qed.

Definition stream_bytes (events : list trace_event) : list Z := mjoin (event_bytes <$> events).

Lemma records_read (events : list trace_event) (pre : list Z) (fuel : nat) :
  Forall event_wf events -> (length events < fuel)%nat ->
  readRecords fuel (pre ++ stream_bytes events) (length pre) = Ok (event_record <$> events).
Proof.
  intros Hev. revert pre fuel. induction Hev as [| ev events Hev Hevs IH]; intros pre fuel Hfuel;
    (destruct fuel as [| fuel]; [lia |]); cbn [readRecords].
  - rewrite length_app. cbn [stream_bytes mjoin list_join fmap list_fmap length].
    destruct (Nat.leb_spec (length pre + 8) (length pre + 0)); [lia | reflexivity].
  - change (stream_bytes (ev :: events)) with (event_bytes ev ++ stream_bytes events).
    destruct (event_length ev Hev) as (Hlen & _). rewrite !length_app.
    destruct (Nat.leb_spec (length pre + 8)
      (length pre + (length (event_bytes ev) + length (stream_bytes events)))); [| lia].
    rewrite (readRecord_drop _ _ (Z.of_nat (length (event_bytes ev)), event_record ev))
      by (rewrite drop_app_length; apply event_reads, Hev).
    cbn [mbind read_bind]. rewrite Nat2Z.id.
    destruct (Nat.ltb_spec (length pre + (length (event_bytes ev) + length (stream_bytes events)))
      (length pre + length (event_bytes ev))); [lia |].
    rewrite app_assoc, <- length_app, IH by (cbn in Hfuel; lia). reflexivity.
Qed.

(** ** A whole file *)

Lemma until_nul_padding (l : list Z) (n : nat) :
  until_nul (l ++ replicate n 0) = until_nul l.
Proof.
  induction l as [| b l IH]; [destruct n; reflexivity |]. cbn. destruct (b =? 0); [reflexivity |].
  f_equal. exact IH.
Qed.

Definition header_of (name : list Z) (m : FpMode) : Header :=
  {| producer := 2; flags := header_flags m; cpuFeatureId := CPU_FEATURE_ID;
     producerName := until_nul (take 32 name) |}.

Lemma feature_id_word : word CPU_FEATURE_ID.
Proof. split; vm_compute; congruence. Qed.

Lemma header_reads (name : list Z) (m : FpMode) (rest : list Z) :
  readHeader (header_bytes name m ++ rest) = Ok (header_of name m).
Proof.
  unfold readHeader, header_bytes. rewrite <- !app_assoc.
  set (tail := name_field name ++ replicate 16 0 ++ rest).
  rewrite bool_decide_true by reflexivity.
  field_at 8%nat 4%nat 1. change (negb (1 =? FORMAT_VERSION)) with false. cbv iota.
  pose proof feature_id_word.
  assert (word (header_flags m)) by (destruct m; split; vm_compute; congruence).
  field_at 12%nat 4%nat 2. field_at 16%nat 8%nat (header_flags m).
  field_at 24%nat 8%nat CPU_FEATURE_ID.
  unfold header_of. do 2 f_equal.
  match goal with |- until_nul (take 32 (drop 32 ?view)) = _ => change (drop 32 view) with tail end.
  unfold tail. rewrite take_app_length' by (symmetry; apply length_name_field).
  apply until_nul_padding.
Qed.

(** The events a writer was given, in one file. *)
Definition write_stream `{DebugAssertions} (name : list Z) (m : FpMode) (events : list trace_event) :
    may_panic CdtWriter :=
  w ← CdtWriter.new name m; for_each events (fun ev w => emit w ev) w.

Lemma write_stream_bytes `{DebugAssertions} (name : list Z) (m : FpMode) (events : list trace_event) :
  Forall event_wf events -> debug_assertions = false \/ Forall event_fits events ->
  write_stream name m events = Done (CdtWriter.mk (header_bytes name m ++ stream_bytes events)).
Proof.
  intros Hev Hfits. unfold write_stream. rewrite new_bytes. cbn [mbind may_panic_bind].
  rewrite (for_each_extend _ event_bytes); [reflexivity |].
  intros ev w Hin. apply emit_bytes; [apply (proj1 (list.Forall_forall _ _) Hev), Hin |].
  destruct Hfits as [Hd | Hfits]; [left; exact Hd | right; apply (proj1 (list.Forall_forall _ _) Hfits), Hin].
Qed.

Lemma for_each_panic {A S} (l : list A) (body : A -> S -> may_panic S) :
  foldl (fun m a => s ← m; body a s) Panic l = Panic.
Proof. induction l as [| a l IH]; [reflexivity | exact IH]. Qed.

Lemma write_stream_asserts `{DebugAssertions} (name : list Z) (m : FpMode) (events : list trace_event) :
  Forall event_wf events -> debug_assertions = true -> ~ Forall event_fits events ->
  write_stream name m events = Panic.
Proof.
  intros Hev Hd Hfits. unfold write_stream. rewrite new_bytes. cbn [mbind may_panic_bind].
  unfold for_each. generalize (CdtWriter.mk (header_bytes name m)) as w.
  induction Hev as [| ev events Hev Hevs IH]; intros w; [destruct Hfits; constructor |].
  cbn [foldl mbind may_panic_bind]. destruct (decide (event_fits ev)) as [Hf | Hf].
  - rewrite emit_bytes by auto. apply IH. intros Hall. apply Hfits. constructor; assumption.
  - rewrite emit_asserts by assumption. apply for_each_panic.
Qed.

Lemma stream_length (events : list trace_event) :
  Forall event_wf events -> (length events <= length (stream_bytes events))%nat.
Proof.
  induction 1 as [| ev events Hev Hevs IH]; [reflexivity |].
  change (stream_bytes (ev :: events)) with (event_bytes ev ++ stream_bytes events).
  destruct (event_length ev Hev) as (Hlen & _). rewrite length_app. cbn [length]. lia.
Qed.

Lemma stream_roundtrip `{DebugAssertions} (name : list Z) (m : FpMode) (events : list trace_event) :
  Forall event_wf events -> debug_assertions = false \/ Forall event_fits events ->
  exists w, write_stream name m events = Done w /\
    loadTrace (CdtWriter.bytes w) = Ok (header_of name m, event_record <$> events).
Proof.
  intros Hev Hfits. eexists. split; [apply write_stream_bytes; assumption |]. cbn [CdtWriter.bytes CdtWriter.buffer].
  unfold loadTrace. rewrite header_reads. rewrite length_app, length_header_bytes.
  destruct (Nat.ltb_spec (80 + length (stream_bytes events)) 80); [lia |].
  cbn [mbind read_bind]. pose proof (stream_length events Hev).
  rewrite <- (length_header_bytes name m) at 2. rewrite records_read by (assumption || lia).
  reflexivity.
Qed.

(** ** Any file at all *)

Lemma record_length_ok (view : list Z) (offset : nat) (len : Z) (r : Record_) :
  readRecord view offset = Ok (len, r) -> 8 <= len.
Proof.
  unfold readRecord.
  destruct (getUint view offset 1) as [type |]; [| discriminate].
  destruct (getUint view (offset + 1) 1) as [flags |]; [| discriminate].
  destruct (getUint view (offset + 2) 2) as [len' |]; [| discriminate].
  cbn [mbind read_bind].
  destruct (Z.ltb_spec len' RECORD_HEADER_BYTES) as [| Hl]; [discriminate |].
  unfold RECORD_HEADER_BYTES in Hl. cbn [orb]. destruct (negb _); [discriminate |].
  repeat match goal with
  | |- (?m ≫= _) = _ -> _ => destruct m; [cbn [mbind read_bind] | discriminate]
  | |- (if ?b then _ else _) = _ -> _ => destruct b
  end; intros E; assert (len' = len) by congruence; lia.
Qed.

Lemma getUint_no_fuel (view : list Z) (k w : nat) : getUint view k w <> Err ReadError.OutOfFuel.
Proof. unfold getUint. destruct (_ <=? _)%nat; discriminate. Qed.

(** An outcome other than running out of fuel. *)
Definition ends {A} (m : read A) : Prop := m <> Err ReadError.OutOfFuel.

Lemma ends_bind {A B} (m : read A) (f : A -> read B) :
  ends m -> (forall a, m = Ok a -> ends (f a)) -> ends (m ≫= f).
Proof. intros Hm Hf. destruct m as [a | e]; [apply Hf; reflexivity | intros [= ->]; apply Hm; reflexivity]. Qed.

Lemma ends_ok {A} (a : A) : ends (Ok a).
Proof. discriminate. Qed.

Lemma readDeltas_ends (view : list Z) (cursor count : nat) : ends (readDeltas view cursor count).
Proof.
  revert cursor. induction count as [| count IH]; intros cursor; [apply ends_ok |]. cbn [readDeltas].
  repeat (apply ends_bind; [apply getUint_no_fuel || apply IH | intros ? _]). apply ends_ok.
Qed.

Lemma readWords_ends (view : list Z) (offset i count : nat) :
  ends (readWords_from view offset i count).
Proof.
  revert i. induction count as [| count IH]; intros i; [apply ends_ok |]. cbn [readWords_from].
  repeat (apply ends_bind; [apply getUint_no_fuel || apply IH | intros ? _]). apply ends_ok.
Qed.

Lemma readRecord_ends (view : list Z) (offset : nat) : ends (readRecord view offset).
Proof.
  unfold readRecord.
  do 3 (apply ends_bind; [apply getUint_no_fuel | intros ? _]).
  destruct (_ || _); [discriminate |].
  repeat match goal with |- ends (if ?b then _ else _) => destruct b end;
    unfold readBlock, readException, readWords; cbv zeta;
    repeat (apply ends_bind;
      [ first [apply getUint_no_fuel | apply readDeltas_ends | apply readWords_ends | idtac]
      | intros ? _]); try apply ends_ok.
Qed.

Lemma readRecords_ends (fuel : nat) (view : list Z) (offset : nat) :
  (offset <= length view < offset + 8 * fuel)%nat -> ends (readRecords fuel view offset).
Proof.
  revert offset. induction fuel as [| fuel IH]; intros offset Hf; [lia |].
  cbn [readRecords]. destruct (Nat.leb_spec (offset + 8) (length view)); [| apply ends_ok].
  apply ends_bind; [apply readRecord_ends |]. intros [len r] Hr.
  pose proof (record_length_ok _ _ _ _ Hr).
  destruct (Nat.ltb_spec (length view) (offset + Z.to_nat len)); [discriminate |].
  apply ends_bind; [apply IH; lia | intros ? _; apply ends_ok].
Qed.

Lemma readHeader_ends (view : list Z) : ends (readHeader view).
Proof.
  unfold readHeader. destruct (bool_decide _); [| discriminate].
  apply ends_bind; [apply getUint_no_fuel | intros ? _]. destruct (negb _); [discriminate |].
  repeat (apply ends_bind; [apply getUint_no_fuel | intros ? _]). apply ends_ok.
Qed.

Lemma loadTrace_ends (bytes : list Z) : ends (loadTrace bytes).
Proof.
  unfold loadTrace. destruct (Nat.ltb_spec (length bytes) 80); [discriminate |].
  apply ends_bind; [apply readHeader_ends | intros ? _].
  apply ends_bind; [apply readRecords_ends; lia | intros ? _; apply ends_ok].
Qed.
