(* ===== verification/TraceTheorems.v ===== *)
(** What the trap log, the decode cache and the trace report
    ([crates/core/src/trap.rs], [crates/core/src/interp/cache.rs],
    [crates/core/src/trace/]). *)

From stdpp Require Import base numbers list option.
From S2P Require Import Prelude Reg Pstate RegFile Instruction Decode Trap Cache TraceFormat.
From S2P Require Import TraceSink TraceWriter TraceReader.

#[local] Open Scope Z_scope.

(** C37: the trap log's report.  Recording any sequence of fewer than [2^64]
    encodings into a new log does not panic; the log then lists the first 256
    distinct encodings in the order they were first met, each with its group and
    the number of times it occurred, counts every encounter in [total_encounters],
    and counts in [dropped_encodings] the encounters of encodings it had no room
    for. *)
Theorem trap_log_reports (l : list Z) :
  Z.of_nat (length l) < 2 ^ 64 ->
  returns (record_all TrapLog.new l) (fun log =>
    let known := take 256 (first_seen l) in
    TrapLog.entries_ log =
      Done ((fun e => TrapLogEntry.mk e (EncodingGroup.of_ e)
                        (Z.of_nat (length (filter (fun x => x = e) l)))) <$> known) /\
    TrapLog.total_encounters log = Z.of_nat (length l) /\
    TrapLog.dropped_encodings log = Z.of_nat (length (filter (fun e => e ∉ known) l))).
Proof.
  intros Hl. rewrite record_all_spec by exact Hl. apply returns_done. cbv zeta.
  split; [apply spec_log_entries | split; reflexivity].
Qed.

Lemma trap_log_reports_witness :
  returns (record_all TrapLog.new [5; 9; 5]) (fun log => TrapLog.total_encounters log = 3).
Proof.
  eapply returns_mono; [apply (trap_log_reports [5; 9; 5]); cbn; lia |].
  intros log (_ & Ht & _). exact Ht.
Defined.

(** The decode cache is transparent.  A lookup in a well-formed cache does
    not panic, leaves a well-formed cache, and answers, hit or miss, with the
    decoding of the word it was given; a new cache is well formed. *)
Theorem cache_transparent (c : DecodeCache) (pc e : Z) :
  cache_ok c ->
  returns (DecodeCache.decoded c pc e) (fun p => cache_ok p.1 /\ decode e = Done p.2) /\
  cache_ok DecodeCache.new.
Proof.
  intros Hc. split; [| apply cache_new_ok].
  eapply returns_mono; [apply decoded_returns, Hc |]. intros p (Hok & Hd & _). split; assumption.
Qed.

Lemma cache_transparent_witness :
  returns (DecodeCache.decoded DecodeCache.new 0x1000 0x91000400)
    (fun p => cache_ok p.1 /\ decode 0x91000400 = Done p.2).
Proof. apply cache_transparent, cache_new_ok. Defined.

(** C16: a block's deltas are exact and complete.  For two well-formed
    snapshots (or none before), and any delta target that keeps its laws (the fixed
    buffer, or a vector), [deltas_between] does not panic, emits at most 100
    deltas, and a reader that applies them to what it knew of the previous snapshot
    knows every traced register of the current one; an id is emitted iff its
    register changed (both halves of a vector register when either did). *)
Theorem deltas_reconstruct {O} `{DeltaOutLaws O} (previous : option RegFile) (current : RegFile)
    (out : O) :
  (forall p, previous = Some p -> regfile_ok p) -> regfile_ok current -> delta_ok out ->
  returns (deltas_between previous current out) (fun out' =>
    delta_ok out' /\ (length (contents out') <= 100)%nat /\
    (forall id, id ∈ reg_ids (contents out') <-> trace_id id /\ changed previous current id) /\
    (forall id, trace_id id ->
       apply_deltas (known_of previous) (contents out') id = reg_at current id)).
Proof.
  intros Hp Hc Ho. eapply returns_mono; [apply deltas_between_target; eassumption |].
  intros out' [Hok Hd]. split; [exact Hok |]. split; [apply Hd |]. split; [apply Hd |].
  intros id Hid. eapply deltas_reconstruct_state; eassumption.
Qed.

Lemma deltas_reconstruct_witness :
  returns (deltas_between None RegFile.new DeltaBuffer.new) (fun out' => delta_ok out').
Proof.
  eapply returns_mono;
    [apply deltas_reconstruct; [discriminate | exact regfile_new_ok | exact buffer_new_ok] |].
  intros out' [Hok _]. exact Hok.
Defined.

(** A stream with one event of each kind. *)
Definition sample_events : list trace_event :=
  [EMarker MarkerKind.TraceStart 0 0;
   EBlock 0x40000000 0 [RegDelta.mk 0 7; RegDelta.mk 32 0x40000000];
   EException (ExceptionEvent.mk 1 0x40000004 0x200 DisconType.HostCall RegFile.new);
   EEnd EndReason.GuestHalt 1].

Lemma sample_events_wf : Forall event_wf sample_events.
Proof.
  repeat constructor; cbn; try lia; apply regfile_new_ok.
Qed.

(** One more delta than a record can count. *)
Definition large_block : list trace_event := [EBlock 0 0 (replicate 256 (RegDelta.mk 0 7))].

Lemma large_block_wf : Forall event_wf large_block.
Proof.
  constructor; [| constructor]. split; [split; lia |]. split; [split; lia |].
  apply Forall_replicate. split; split; cbn; lia.
Qed.

(** C9: the differ reads what the emulator writes.  For any producer name, mode
    and list of events with machine-word fields: in a build with debug assertions,
    writing them with [CdtWriter] panics if the deltas of some block are more than
    the 255 a record can count; otherwise, and in a build without them always, it
    does not panic and produces a file that [loadTrace] accepts, which returns the
    header (the name cut at 32 bytes and at its first NUL) and one record per event,
    in order, with every field as it was given, except that without the assertion
    the deltas after the 255th of a block are lost. *)
Theorem trace_round_trip `{DebugAssertions} (name : list Z) (mode : FpMode) (events : list trace_event) :
  Forall event_wf events ->
  if debug_assertions && negb (bool_decide (Forall event_fits events))
  then write_stream name mode events = Panic
  else exists w, write_stream name mode events = Done w /\
    reader.loadTrace (CdtWriter.bytes w) = Ok (header_of name mode, event_record <$> events).
Proof.
  intros Hev. destruct debug_assertions eqn:Hd; cbn [andb].
  - case_bool_decide as Hfits; cbn [negb].
    + apply stream_roundtrip; auto.
    + apply write_stream_asserts; assumption.
  - apply stream_roundtrip; auto.
Qed.

(** With assertions; and a block of 256 deltas, with them and without. *)
Lemma trace_round_trip_witness :
  (exists w, write_stream (H := true) [99; 100; 116] FpMode.Precise sample_events = Done w /\
    reader.loadTrace (CdtWriter.bytes w) =
    Ok (header_of [99; 100; 116] FpMode.Precise, event_record <$> sample_events)) /\
  write_stream (H := true) [] FpMode.Precise large_block = Panic /\
  exists w, write_stream (H := false) [] FpMode.Precise large_block = Done w /\
    reader.loadTrace (CdtWriter.bytes w) =
    Ok (header_of [] FpMode.Precise, [reader.Block 0 0 1 (replicate 255 (RegDelta.mk 0 7))]).
Proof.
  split; [| split].
  - exact (trace_round_trip (H := true) [99; 100; 116] FpMode.Precise sample_events sample_events_wf).
  - exact (trace_round_trip (H := true) [] FpMode.Precise large_block large_block_wf).
  - exact (trace_round_trip (H := false) [] FpMode.Precise large_block large_block_wf).
Defined.

(** Records are framed.  The bytes an event that fits appends are a whole number of
    64-bit words, at least a record header and few enough for its 16-bit length,
    and that length field is their number: a reader can skip any record. *)
Theorem records_framed `{DebugAssertions} (w : CdtWriter) (ev : trace_event) :
  event_wf ev -> event_fits ev ->
  returns (emit w ev) (fun w' => exists bytes,
    CdtWriter.bytes w' = CdtWriter.bytes w ++ bytes /\
    (8 <= length bytes)%nat /\ Z.of_nat (length bytes) < 2 ^ 16 /\
    Z.of_nat (length bytes) mod 8 = 0 /\
    exists record, reader.readRecord bytes 0 = Ok (Z.of_nat (length bytes), record)).
Proof.
  intros Hev Hfits. rewrite emit_bytes by auto. apply returns_done.
  exists (event_bytes ev). split; [reflexivity |].
  destruct (event_length ev Hev) as (H1 & H2 & H3).
  do 3 (split; [assumption |]). exists (event_record ev).
  rewrite <- (app_nil_r (event_bytes ev)) at 1. apply event_reads, Hev.
Qed.

Lemma records_framed_witness :
  returns (emit (CdtWriter.mk []) (H := CdtWriter_TraceSink (H := true)) (EMarker MarkerKind.Reset_ 1 2)) (fun w' =>
    (8 <= length (CdtWriter.bytes w'))%nat).
Proof.
  eapply returns_mono; [apply records_framed; [split; split; lia | exact I] |].
  intros w' (bytes & Hb & Hlen & _). rewrite Hb. exact Hlen.
Defined.

(** C40: the reader ends on any file.  The record loop of [loadTrace], bounded
    by the length of the file, never runs out of that bound: whatever the bytes,
    the reader returns the records or one of its errors. *)
Theorem reader_terminates (bytes : list Z) : reader.loadTrace bytes <> Err ReadError.OutOfFuel.
Proof. apply loadTrace_ends. Qed.
