(* ===== verification/Differ.v ===== *)
(** The differ ([tests/differ/format.mjs], [compare.mjs], [fp_policy.mjs],
    [diff.mjs], [cdt.mjs], [assert_exception_state.mjs]): the replay of two traces in lockstep, the first divergence, the
    policies that relax the comparison of floating-point registers, the
    verdict on two files, and the tools that inspect one.

    A [BigInt] and a [Number] are integers, an [undefined] field is [None], and a
    thrown [Error] is the error case of [result].  A [Map] keyed by register id is
    a [gmap]: its keys are sorted before they are used. *)

From stdpp Require Import base numbers list option gmap sorting strings.
From S2P Require Import Prelude TraceFormat TraceSink TraceReader.

Import reader.

#[local] Open Scope Z_scope.

(** ** Register ids ([format.mjs]) *)

Module RegId.

Definition SP : Z := 31.
Definition PC : Z := 32.
Definition PSTATE : Z := 33.
Definition FPCR : Z := 34.
Definition FPSR : Z := 35.
Definition V_BASE : Z := 64.
Definition SYS_BASE : Z := 256.

End RegId.

Definition isFpReg (id : Z) : bool :=
  if (id =? RegId.FPCR) || (id =? RegId.FPSR) then true
  else (RegId.V_BASE <=? id) && (id <? RegId.V_BASE + Z.of_nat NUM_VREG * 2).

(** ** Floating-point policies ([fp_policy.mjs]) *)

Module fp_policy.

Definition POLICIES : list string := ["bitwise"; "nan-insensitive"; "ignore-fpsr"]%string.

Definition EXPONENT_ALL_ONES_64 : Z := Z.shiftl 0x7ff 52.
Definition MANTISSA_64 : Z := Z.shiftl 1 52 - 1.
Definition QUIET_BIT_64 : Z := Z.shiftl 1 51.
Definition EXPONENT_ALL_ONES_32 : Z := Z.shiftl 0xff 23.
Definition MANTISSA_32 : Z := Z.shiftl 1 23 - 1.
Definition QUIET_BIT_32 : Z := Z.shiftl 1 22.
Definition FPSR_CUMULATIVE_MASK : Z := 0x9f.

Definition classify64 (bits : Z) : option string :=
  if negb (Z.land bits EXPONENT_ALL_ONES_64 =? EXPONENT_ALL_ONES_64) then None
  else
    let mantissa := Z.land bits MANTISSA_64 in
    if mantissa =? 0 then None
    else Some (if negb (Z.land bits QUIET_BIT_64 =? 0) then "qnan64"%string else "snan64"%string).

Definition classify32 (bits : Z) : option string :=
  let low := Z.land bits 0xffffffff in
  if negb (Z.land low EXPONENT_ALL_ONES_32 =? EXPONENT_ALL_ONES_32) then None
  else
    let mantissa := Z.land low MANTISSA_32 in
    if mantissa =? 0 then None
    else Some (if negb (Z.land low QUIET_BIT_32 =? 0) then "qnan32"%string else "snan32"%string).

Definition isNanEquivalent (left right : Z) : bool :=
  let pairs := [(classify64 left, classify64 right); (classify32 left, classify32 right)] in
  existsb (fun '(a, b) => negb (bool_decide (a = None)) && bool_decide (a = b)) pairs.

(** The closure [makeComparator] returns. *)
Definition areEqual (policy : string) (regId left right : Z) : bool :=
  if left =? right then true
  else if bool_decide (policy = "bitwise"%string) then false
  else if regId =? RegId.FPSR then
    if negb (bool_decide (policy = "ignore-fpsr"%string)) then false
    else Z.land left (Z.lnot FPSR_CUMULATIVE_MASK) =? Z.land right (Z.lnot FPSR_CUMULATIVE_MASK)
  else if regId =? RegId.FPCR then false
  else
    let isVector := (RegId.V_BASE <=? regId) && (regId <? RegId.V_BASE + 64) in
    isVector && isNanEquivalent left right.

Inductive PolicyError : Type := UnknownPolicy (policy : string).

Definition makeComparator (policy : string) : result (Z -> Z -> Z -> bool) PolicyError :=
  if negb (bool_decide (policy ∈ POLICIES)) then Err (UnknownPolicy policy)
  else Ok (areEqual policy).

End fp_policy.

(** ** The comparison ([compare.mjs]) *)

Module KIND.

Inductive KIND : Type :=
| PC | ICOUNT | INSN_COUNT | REGISTER | RECORD_TYPE | LENGTH | EXCEPTION_FIELD.

End KIND.

Abbreviation KIND := KIND.KIND.

Module RegisterState.

Record RegisterState : Type := mk { values : gmap Z Z }.

Definition new : RegisterState := mk ∅.

Definition applyDeltas (self : RegisterState) (deltas : list RegDelta) : RegisterState :=
  mk (foldl (fun values delta => <[RegDelta.reg_id delta := RegDelta.value delta]> values)
        (values self) deltas).

(** [values.set(base + n, words[n])] for [n] below [count].  A word that is not
    there is [undefined], which [get] reads as it reads a missing key. *)
Definition set_words (base : Z) (words : list Z) (count : nat) (values : gmap Z Z) : gmap Z Z :=
  foldl (fun values n => partial_alter (fun _ => words !! n) (base + Z.of_nat n) values)
    values (seq 0 count).

Definition applyException (self : RegisterState) (record : Exception_) : RegisterState :=
  let values := set_words 0 (x record) 31 (values self) in
  let values := partial_alter (fun _ => x record !! 31%nat) RegId.SP values in
  let values := <[RegId.PC := pc record]> values in
  let values := <[RegId.PSTATE := pstate record]> values in
  let values := <[RegId.FPCR := fpcr record]> values in
  let values := <[RegId.FPSR := fpsr record]> values in
  let values := set_words RegId.V_BASE (v record) (NUM_VREG * 2) values in
  mk (set_words RegId.SYS_BASE (sysreg record) NUM_SYSREG values).

Definition get (self : RegisterState) (regId : Z) : Z := default 0 (values self !! regId).

Definition regIds (self : RegisterState) : gset Z := dom (values self).

End RegisterState.

Abbreviation RegisterState := RegisterState.RegisterState.

(** A report: [undefined] where a kind of divergence has no such field. *)
Module Divergence.

Record Divergence : Type := mk {
  kind : KIND;
  index : nat;
  icount : option Z;
  pc : option Z;
  regId : option Z;
  field : option string;
  expected : Z;
  actual : Z
}.

End Divergence.

Abbreviation Divergence := Divergence.Divergence.

(** An entry of the history of aligned steps. *)
Module Entry.

Record Entry : Type := mk { index : nat; icount : option Z; type : Z; pc : option Z; nInsns : Z }.

End Entry.

Abbreviation Entry := Entry.Entry.

(** [{ ok: true, steps, history }] or [{ ok: false, divergence, history }]. *)
Module Verdict.

Inductive Verdict : Type :=
| Match (steps : nat) (history : list Entry)
| Diverged (divergence : Divergence) (history : list Entry).

Definition ok (self : Verdict) : bool := match self with Match _ _ => true | _ => false end.

End Verdict.

Abbreviation Verdict := Verdict.Verdict.

Module compare.

(** [record.type], [record.icount]. *)
Definition type (record : Record_) : Z :=
  match record with
  | Block _ _ _ _ => record_type.BLOCK
  | Exception _ => record_type.EXCEPTION
  | Marker _ _ _ => record_type.MARKER
  | End_ _ _ => record_type.END_
  | Unknown type => type
  end.

Definition icount (record : Record_) : option Z :=
  match record with
  | Block _ icount _ _ | Marker icount _ _ | End_ icount _ => Some icount
  | Exception e => Some (reader.icount e)
  | Unknown _ => None
  end.

Definition is_significant (record : Record_) : bool :=
  (type record =? record_type.BLOCK) || (type record =? record_type.EXCEPTION).

Definition significantRecords (records : list Record_) : list Record_ :=
  filter (fun record => is_significant record = true) records.

(** The loop of [compareRegisters] over the sorted ids. *)
Fixpoint compare_ids (ids : list Z) (left right : RegisterState) (areEqual : Z -> Z -> Z -> bool)
    (index : nat) (icount pc : option Z) : option Divergence :=
  match ids with
  | [] => None
  | regId :: ids =>
      let expected := RegisterState.get left regId in
      let actual := RegisterState.get right regId in
      if expected =? actual then compare_ids ids left right areEqual index icount pc
      else if isFpReg regId && areEqual regId expected actual
      then compare_ids ids left right areEqual index icount pc
      else Some (Divergence.mk KIND.REGISTER index icount pc (Some regId) None expected actual)
  end.

Definition compareRegisters (left right : RegisterState) (areEqual : Z -> Z -> Z -> bool)
    (index : nat) (icount pc : option Z) : option Divergence :=
  let regIds := RegisterState.regIds left ∪ RegisterState.regIds right in
  compare_ids (merge_sort Z.le (elements regIds)) left right areEqual index icount pc.

Fixpoint compare_fields (fields : list (string * Z * Z)) (index : nat) (icount : option Z) :
    option Divergence :=
  match fields with
  | [] => None
  | (name, expected, actual) :: fields =>
      if negb (expected =? actual)
      then Some (Divergence.mk KIND.EXCEPTION_FIELD index icount None None (Some name) expected actual)
      else compare_fields fields index icount
  end.

Definition compareExceptionFields (left right : Exception_) (index : nat) (icount : option Z) :
    option Divergence :=
  compare_fields [("from_pc"%string, fromPc left, fromPc right);
                  ("to_pc"%string, toPc left, toPc right);
                  ("discon_type"%string, disconType left, disconType right)] index icount.

(** Only significant records are compared; of two others, [undefined]. *)
Definition compareStep (leftRecord rightRecord : Record_) (index : nat) : option Divergence :=
  let context kind := Divergence.mk kind index (icount leftRecord) None None None in
  if negb (type leftRecord =? type rightRecord) then
    Some (context KIND.RECORD_TYPE (type leftRecord) (type rightRecord))
  else if negb (bool_decide (icount leftRecord = icount rightRecord)) then
    Some (context KIND.ICOUNT (default 0 (icount leftRecord)) (default 0 (icount rightRecord)))
  else
    match leftRecord, rightRecord with
    | Block leftPc _ leftInsns _, Block rightPc _ rightInsns _ =>
        if negb (leftPc =? rightPc) then Some (context KIND.PC leftPc rightPc)
        else if negb (leftInsns =? rightInsns) then
          Some (context KIND.INSN_COUNT leftInsns rightInsns)
        else None
    | Exception leftState, Exception rightState =>
        compareExceptionFields leftState rightState index (icount leftRecord)
    | _, _ => None
    end.

Definition apply (state : RegisterState) (record : Record_) : RegisterState :=
  match record with
  | Block _ _ _ deltas => RegisterState.applyDeltas state deltas
  | Exception e => RegisterState.applyException state e
  | _ => state
  end.

(** [context.pc]. *)
Definition record_pc (record : Record_) : option Z :=
  match record with
  | Block pc _ _ _ => Some pc
  | Exception e => Some (toPc e)
  | _ => None
  end.

Definition entry (record : Record_) (index : nat) : Entry :=
  Entry.mk index (icount record) (type record) (record_pc record)
    (match record with Block _ _ nInsns _ => nInsns | _ => 0 end).

(** [history.push] and [history.shift]. *)
Definition push_history (historyDepth : Z) (history : list Entry) (e : Entry) : list Entry :=
  let history := history ++ [e] in
  if historyDepth <? Z.of_nat (length history) then drop 1 history else history.

(** The loop of [compareTraces], from step [index] on. *)
Fixpoint compare_from (areEqual : Z -> Z -> Z -> bool) (historyDepth : Z)
    (left right : list Record_) (index : nat) (leftState rightState : RegisterState)
    (history : list Entry) : option Divergence * list Entry :=
  match left, right with
  | leftRecord :: leftRest, rightRecord :: rightRest =>
      match compareStep leftRecord rightRecord index with
      | Some structural => (Some structural, history)
      | None =>
          let leftState := apply leftState leftRecord in
          let rightState := apply rightState rightRecord in
          match compareRegisters leftState rightState areEqual index (icount leftRecord)
                  (record_pc leftRecord) with
          | Some mismatch => (Some mismatch, history)
          | None =>
              compare_from areEqual historyDepth leftRest rightRest (S index) leftState rightState
                (push_history historyDepth history (entry leftRecord index))
          end
      end
  | _, _ => (None, history)
  end.

Definition compareTraces (leftTrace rightTrace : list Record_) (areEqual : Z -> Z -> Z -> bool)
    (historyDepth : Z) : Verdict :=
  let left := significantRecords leftTrace in
  let right := significantRecords rightTrace in
  let steps := Nat.min (length left) (length right) in
  match compare_from areEqual historyDepth left right 0 RegisterState.new RegisterState.new [] with
  | (Some divergence, history) => Verdict.Diverged divergence history
  | (None, history) =>
      if negb (length left =? length right)%nat then
        Verdict.Diverged
          (Divergence.mk KIND.LENGTH steps None None None None
             (Z.of_nat (length left)) (Z.of_nat (length right))) history
      else Verdict.Match steps history
  end.

End compare.

(** ** Two files ([diff.mjs]) *)

Module diff.

Definition EXIT_MATCH : Z := 0.
Definition EXIT_DIVERGED : Z := 1.
Definition EXIT_ERROR : Z := 2.

Record Options : Type := {
  fpPolicy : option string;
  history : Z;
  allowFeatureMismatch : bool
}.

Inductive DiffError : Type :=
| TraceError (e : ReadError)
| FeatureMismatch (left right : Z)
| UnknownFpPolicy (policy : string).

Definition isPrecise (trace : Header * list Record_) : bool :=
  negb (Z.land (flags trace.1) stream_flags.PRECISE_FP =? 0).

(** The policy, and whether the warning is printed. *)
Definition choosePolicy (requested : option string) (leftTrace rightTrace : Header * list Record_) :
    result (string * bool) DiffError :=
  let bothPrecise := isPrecise leftTrace && isPrecise rightTrace in
  match requested with
  | None => Ok ((if bothPrecise then "bitwise"%string else "nan-insensitive"%string), false)
  | Some requested =>
      if negb (bool_decide (requested ∈ fp_policy.POLICIES)) then Err (UnknownFpPolicy requested)
      else Ok (requested, bothPrecise && negb (bool_decide (requested = "bitwise"%string)))
  end.

Definition assertComparable (leftTrace rightTrace : Header * list Record_) (allowMismatch : bool) :
    result unit DiffError :=
  let left := cpuFeatureId leftTrace.1 in
  let right := cpuFeatureId rightTrace.1 in
  if (left =? right) || allowMismatch then Ok tt else Err (FeatureMismatch left right).

(** [main] from the contents of the two files on: the verdict and the warning. *)
Definition main (left right : list Z) (options : Options) : result (Verdict * bool) DiffError :=
  match loadTrace left with
  | Err e => Err (TraceError e)
  | Ok leftTrace =>
      match loadTrace right with
      | Err e => Err (TraceError e)
      | Ok rightTrace =>
          match assertComparable leftTrace rightTrace (allowFeatureMismatch options) with
          | Err e => Err e
          | Ok _ =>
              match choosePolicy (fpPolicy options) leftTrace rightTrace with
              | Err e => Err e
              | Ok (policy, warning) =>
                  match fp_policy.makeComparator policy with
                  | Err (fp_policy.UnknownPolicy p) => Err (UnknownFpPolicy p)
                  | Ok areEqual =>
                      Ok (compare.compareTraces leftTrace.2 rightTrace.2 areEqual (history options),
                          warning)
                  end
              end
          end
      end
  end.

Definition exit_code (outcome : result (Verdict * bool) DiffError) : Z :=
  match outcome with
  | Ok (Verdict.Match _ _, _) => EXIT_MATCH
  | Ok (Verdict.Diverged _ _, _) => EXIT_DIVERGED
  | Err _ => EXIT_ERROR
  end.

End diff.

(** ** Inspection ([cdt.mjs], [assert_exception_state.mjs])

    What the tools compute of a trace, without the text they print.  A file that
    [loadTrace] throws on ends the process with 1, as node ends it. *)

Module cdt.

Definition exceptions (records : list Record_) : list Exception_ :=
  omap (fun r => match r with Exception e => Some e | _ => None end) records.

Record Stats : Type := {
  counts : gmap Z Z;
  deltas : nat;
  instructions : Z
}.

(** The body of the loop of [commandStats]. *)
Definition count_record (s : Stats) (record : Record_) : Stats :=
  let type := compare.type record in
  let counts := <[type := default 0 (counts s !! type) + 1]> (counts s) in
  match record with
  | Block _ _ nInsns ds =>
      {| counts := counts; deltas := deltas s + length ds; instructions := instructions s + nInsns |}
  | _ => {| counts := counts; deltas := deltas s; instructions := instructions s |}
  end.

Definition commandStats (file : list Z) : read Stats :=
  trace ← reader.loadTrace file;
  Ok (foldl count_record {| counts := ∅; deltas := 0; instructions := 0 |} trace.2).

Definition commandCountExceptions (file : list Z) : read nat :=
  trace ← reader.loadTrace file;
  Ok (length (exceptions trace.2)).

(** The exit code. *)
Definition commandIsComplete (file : list Z) : Z :=
  match reader.loadTrace file with
  | Err _ => 1
  | Ok (_, records) => match last records with Some (End_ _ _) => 0 | _ => 1 end
  end.

End cdt.

Module assert_exception_state.

Definition SYSREG_NAMES : list string :=
  ["SCTLR_EL1"; "TTBR0_EL1"; "TTBR1_EL1"; "TCR_EL1"; "MAIR_EL1"; "VBAR_EL1"; "ESR_EL1"; "FAR_EL1";
   "ELR_EL1"; "SPSR_EL1"; "SP_EL0"; "SP_EL1"; "TPIDR_EL0"; "TPIDR_EL1"; "TPIDRRO_EL0";
   "CONTEXTIDR_EL1"; "CPACR_EL1"; "AMAIR_EL1"; "PAR_EL1"; "CNTKCTL_EL1"]%string.

Definition REQUIRED : list string := ["SPSR_EL1"; "ELR_EL1"; "VBAR_EL1"; "ESR_EL1"]%string.

(** [record.sysreg[SYSREG_NAMES.indexOf(name)]], [undefined] if there is none. *)
Definition sysreg_named (record : Exception_) (name : string) : option Z :=
  '(index, _) ← list_find (name =.) SYSREG_NAMES; sysreg record !! index.

(** The failures one record adds. *)
Definition failures_of (record : Exception_) : nat :=
  length (filter (fun name => sysreg_named record name = Some 0) REQUIRED) +
  (if negb (length (x record) =? 32)%nat || negb (length (v record) =? 64)%nat then 1 else 0).

(** The exit code. *)
Definition main (file : list Z) : Z :=
  match reader.loadTrace file with
  | Err _ => 1
  | Ok (_, records) =>
      let exceptions := cdt.exceptions records in
      if (length exceptions =? 0)%nat then 1
      else
        let failures := foldl (fun failures record => failures + failures_of record)%nat 0%nat exceptions in
        if (0 <? failures)%nat then 1 else 0
  end.

End assert_exception_state.
