(* ===== verification/Verdict.v ===== *)
(** What the differ's verdict means: two traces replayed step by step, agreeing
    or not, without reference to how the comparison is carried out. *)

From stdpp Require Import base numbers list option gmap sorting strings.
From S2P Require Import Prelude TraceFormat TraceSink TraceReader Differ.

Import reader compare.

#[local] Open Scope Z_scope.

(** ** The reference *)

(** Two records that say the same of control flow. *)
Definition same_step (l r : Record_) : Prop :=
  type l = type r /\ compare.icount l = compare.icount r /\
  match l, r with
  | Block pc _ n _, Block pc' _ n' _ => pc = pc' /\ n = n'
  | Exception e, Exception f =>
      fromPc e = fromPc f /\ toPc e = toPc f /\ disconType e = disconType f
  | _, _ => True
  end.

(** The register state after each record. *)
Fixpoint states (s : RegisterState) (records : list Record_) : list RegisterState :=
  match records with
  | [] => []
  | r :: records => let s' := apply s r in s' :: states s' records
  end.

Section Agreement.

Context (areEqual : Z -> Z -> Z -> bool).

(** A register on which two states agree, under a policy. *)
Definition agree_at (s t : RegisterState) (id : Z) : Prop :=
  RegisterState.get s id = RegisterState.get t id \/
  isFpReg id = true /\
    areEqual id (RegisterState.get s id) (RegisterState.get t id) = true.

#[export] Instance agree_at_dec (s t : RegisterState) (id : Z) : Decision (agree_at s t id).
Proof. unfold agree_at. apply _. Defined.

Definition agrees (s t : RegisterState) : Prop := forall id, agree_at s t id.

(** Two sequences of records that agree all along. *)
Definition aligned (s t : RegisterState) (left right : list Record_) : Prop :=
  Forall2 same_step left right /\ Forall2 agrees (states s left) (states t right).

(** ** Registers *)

Lemma compare_ids_none (ids : list Z) (s t : RegisterState) (i : nat) (ic pc : option Z) :
  compare_ids ids s t areEqual i ic pc = None <-> Forall (agree_at s t) ids.
Proof.
  induction ids as [| id ids IH]; cbn [compare_ids].
  { split; [constructor | reflexivity]. }
  rewrite Forall_cons, <- IH. unfold agree_at.
  destruct (Z.eqb_spec (RegisterState.get s id) (RegisterState.get t id)) as [E | E]; [tauto |].
  destruct (isFpReg id) eqn:Ef; cbn [andb]; [| split; [discriminate | intuition congruence]].
  destruct (areEqual id _ _) eqn:Ea; [tauto |]. split; [discriminate | intuition congruence].
Qed.

Lemma compare_ids_some (ids : list Z) (s t : RegisterState) (i : nat) (ic pc : option Z)
    (d : Divergence) :
  compare_ids ids s t areEqual i ic pc = Some d ->
  exists before id after, ids = before ++ id :: after /\ Forall (agree_at s t) before /\
    ~ agree_at s t id /\
    d = Divergence.mk KIND.REGISTER i ic pc (Some id) None
          (RegisterState.get s id) (RegisterState.get t id).
Proof.
  induction ids as [| id ids IH]; cbn [compare_ids]; [discriminate |].
  assert (compare_ids ids s t areEqual i ic pc = Some d -> agree_at s t id ->
    exists before id' after, id :: ids = before ++ id' :: after /\ Forall (agree_at s t) before /\
      ~ agree_at s t id' /\
      d = Divergence.mk KIND.REGISTER i ic pc (Some id') None
            (RegisterState.get s id') (RegisterState.get t id')) as Hnext.
  { intros E Ha. destruct (IH E) as (before & id' & after & -> & Hb & Hn & Hd).
    exists (id :: before), id', after. split; [reflexivity |]. split; [constructor; assumption |].
    split; assumption. }
  unfold agree_at in Hnext at 1.
  destruct (Z.eqb_spec (RegisterState.get s id) (RegisterState.get t id)) as [E | E]; [tauto |].
  destruct (isFpReg id && areEqual id _ _) eqn:Ea.
  { apply andb_true_iff in Ea. tauto. }
  intros [= <-]. exists [], id, ids. split; [reflexivity |]. split; [constructor |].
  split; [| reflexivity]. intros [He | [Hf Hq]]; [exact (E He) |].
  rewrite Hf, Hq in Ea. discriminate.
Qed.

Lemma get_absent (s : RegisterState) (id : Z) :
  id ∉ RegisterState.regIds s -> RegisterState.get s id = 0.
Proof.
  unfold RegisterState.regIds, RegisterState.get. intros Hid%not_elem_of_dom. rewrite Hid. reflexivity.
Qed.

(** An id neither side has is not a disagreement. *)
Lemma agree_absent (s t : RegisterState) (id : Z) :
  id ∉ RegisterState.regIds s ∪ RegisterState.regIds t -> agree_at s t id.
Proof.
  intros Hid. left. rewrite !get_absent by set_solver. reflexivity.
Qed.

Lemma compared_ids (s t : RegisterState) (id : Z) :
  id ∈ merge_sort Z.le (elements (RegisterState.regIds s ∪ RegisterState.regIds t)) <->
  id ∈ RegisterState.regIds s ∪ RegisterState.regIds t.
Proof. rewrite merge_sort_Permutation. apply elem_of_elements. Qed.

Lemma compareRegisters_none (s t : RegisterState) (i : nat) (ic pc : option Z) :
  compareRegisters s t areEqual i ic pc = None <-> agrees s t.
Proof.
  unfold compareRegisters. cbv zeta. rewrite compare_ids_none, Forall_forall. split.
  - intros H id. destruct (decide (id ∈ RegisterState.regIds s ∪ RegisterState.regIds t)).
    + apply H, compared_ids. assumption.
    + apply agree_absent. assumption.
  - intros H id _. apply H.
Qed.

(** The reported register is the one of least id. *)
Lemma compareRegisters_some (s t : RegisterState) (i : nat) (ic pc : option Z) (d : Divergence) :
  compareRegisters s t areEqual i ic pc = Some d ->
  exists id, ~ agree_at s t id /\ (forall id', id' < id -> agree_at s t id') /\
    d = Divergence.mk KIND.REGISTER i ic pc (Some id) None
          (RegisterState.get s id) (RegisterState.get t id).
Proof.
  unfold compareRegisters. cbv zeta. intros (before & id & after & E & Hb & Hn & Hd)%compare_ids_some.
  exists id. split; [exact Hn |]. split; [| exact Hd]. intros id' Hlt.
  destruct (decide (id' ∈ RegisterState.regIds s ∪ RegisterState.regIds t)) as [Hin |];
    [| apply agree_absent; assumption].
  apply compared_ids in Hin. rewrite E in Hin.
  pose proof (StronglySorted_merge_sort Z.le
    (elements (RegisterState.regIds s ∪ RegisterState.regIds t))) as Hs.
  rewrite E in Hs. apply elem_of_app in Hin as [Hin | Hin].
  - rewrite Forall_forall in Hb. apply Hb, Hin.
  - exfalso. apply StronglySorted_app_1_r in Hs. apply StronglySorted_inv in Hs as [_ Hs].
    apply elem_of_cons in Hin as [-> | Hin]; [lia |].
    rewrite Forall_forall in Hs. specialize (Hs _ Hin). lia.
Qed.

(** ** Steps *)

Lemma compare_fields_none (fields : list (string * Z * Z)) (i : nat) (ic : option Z) :
  compare_fields fields i ic = None <-> Forall (fun f => f.1.2 = f.2) fields.
Proof.
  induction fields as [| [[name e] a] fields IH]; cbn [compare_fields].
  { split; [constructor | reflexivity]. }
  rewrite Forall_cons, <- IH. cbn.
  destruct (Z.eqb_spec e a); cbn [negb]; [tauto |]. split; [discriminate | tauto].
Qed.

Lemma compareStep_none (l r : Record_) (i : nat) : compareStep l r i = None <-> same_step l r.
Proof.
  unfold compareStep, same_step. cbv zeta.
  destruct (Z.eqb_spec (type l) (type r)); cbn [negb]; [| split; [discriminate | tauto]].
  case_bool_decide; cbn [negb]; [| split; [discriminate | tauto]].
  destruct l as [p ic n ds | e1 | | |], r as [p' ic' n' ds' | e2 | | |]; try tauto.
  - destruct (Z.eqb_spec p p'); cbn [negb]; [| split; [discriminate | tauto]].
    destruct (Z.eqb_spec n n'); cbn [negb]; [tauto | split; [discriminate | tauto]].
  - unfold compareExceptionFields. rewrite compare_fields_none, !Forall_cons, Forall_nil. cbn. tauto.
Qed.

(** A structural report carries its step. *)
Lemma compareStep_some (l r : Record_) (i : nat) (d : Divergence) :
  compareStep l r i = Some d ->
  ~ same_step l r /\ Divergence.kind d <> KIND.REGISTER /\ Divergence.kind d <> KIND.LENGTH /\
  Divergence.index d = i.
Proof.
  intros E. split; [rewrite <- (compareStep_none l r i), E; discriminate |]. revert E.
  unfold compareStep, compareExceptionFields. cbv zeta.
  repeat match goal with
  | |- (if ?b then _ else _) = _ -> _ => destruct b
  | |- (match ?r with _ => _ end) = _ -> _ => destruct r
  | |- Some _ = Some _ -> _ => intros [= <-]; cbn; repeat split; discriminate
  | |- None = Some _ -> _ => discriminate
  | _ => progress cbn [compare_fields]
  end.
Qed.

(** ** The loop *)

(** The state a prefix of a trace leaves. *)
Definition replay (s : RegisterState) (records : list Record_) : RegisterState :=
  foldl apply s records.

(** The history entries of the records from step [i] on. *)
Fixpoint entries (i : nat) (records : list Record_) : list Entry :=
  match records with
  | [] => []
  | r :: records => entry r i :: entries (S i) records
  end.

(** What is wrong with a step, in the states it leaves. *)
Definition diverges (s t : RegisterState) (l r : Record_) (d : Divergence) : Prop :=
  (~ same_step l r /\ Divergence.kind d <> KIND.REGISTER /\ Divergence.kind d <> KIND.LENGTH) \/
  (same_step l r /\ Divergence.kind d = KIND.REGISTER /\
   exists id, Divergence.regId d = Some id /\ ~ agree_at s t id /\
     (forall id', id' < id -> agree_at s t id') /\
     Divergence.expected d = RegisterState.get s id /\
     Divergence.actual d = RegisterState.get t id).

Lemma aligned_cons (s t : RegisterState) (a b : Record_) (left right : list Record_) :
  aligned s t (a :: left) (b :: right) <->
  same_step a b /\ agrees (apply s a) (apply t b) /\ aligned (apply s a) (apply t b) left right.
Proof. unfold aligned. cbn [states]. rewrite !Forall2_cons. tauto. Qed.

Context (d : Z).

Lemma compare_from_none (left right : list Record_) (i : nat) (s t : RegisterState)
    (h : list Entry) :
  (compare_from areEqual d left right i s t h).1 = None <->
  aligned s t (take (length right) left) (take (length left) right).
Proof.
  revert right i s t h. induction left as [| a left IH]; intros [| b right] i s t h;
    cbn [compare_from length take]; try (split; [repeat constructor | reflexivity]).
  rewrite aligned_cons, <- (compareStep_none a b i).
  destruct (compareStep a b i); [split; [discriminate | intros [? _]; discriminate] |]. cbv zeta.
  rewrite <- (compareRegisters_none _ _ i (icount a) (record_pc a)).
  destruct (compareRegisters _ _ _ _ _ _); [split; [discriminate | intros (_ & ? & _); discriminate] |].
  rewrite IH. tauto.
Qed.

Lemma compare_from_history (left right : list Record_) (i : nat) (s t : RegisterState)
    (h h' : list Entry) :
  compare_from areEqual d left right i s t h = (None, h') ->
  h' = foldl (push_history d) h (entries i (take (length right) left)).
Proof.
  revert right i s t h. induction left as [| a left IH]; intros [| b right] i s t h;
    cbn [compare_from length take entries foldl]; try (intros [= <-]; reflexivity).
  destruct (compareStep a b i); [discriminate |]. cbv zeta.
  destruct (compareRegisters _ _ _ _ _ _); [discriminate |]. apply IH.
Qed.

Lemma compare_from_some (left right : list Record_) (i : nat) (s t : RegisterState)
    (h h' : list Entry) (dv : Divergence) :
  compare_from areEqual d left right i s t h = (Some dv, h') ->
  exists k a b, left !! k = Some a /\ right !! k = Some b /\ Divergence.index dv = (i + k)%nat /\
    aligned s t (take k left) (take k right) /\
    diverges (replay s (take (S k) left)) (replay t (take (S k) right)) a b dv /\
    h' = foldl (push_history d) h (entries i (take k left)).
Proof.
  revert right i s t h. induction left as [| a left IH]; intros [| b right] i s t h;
    cbn [compare_from]; try discriminate.
  destruct (compareStep a b i) as [dv' |] eqn:Es.
  { intros [= <- <-]. apply compareStep_some in Es as (Hn & Hk & Hl & Hi).
    exists 0%nat, a, b. rewrite Hi, Nat.add_0_r. split; [reflexivity |]. split; [reflexivity |].
    split; [reflexivity |]. split; [split; constructor |]. split; [left; tauto | reflexivity]. }
  apply compareStep_none in Es. cbv zeta.
  destruct (compareRegisters _ _ _ _ _ _) as [dv' |] eqn:Er.
  { intros [= <- <-]. apply compareRegisters_some in Er as (id & Hn & Hb & ->).
    exists 0%nat, a, b. rewrite Nat.add_0_r. split; [reflexivity |]. split; [reflexivity |].
    split; [reflexivity |]. split; [split; constructor |]. split; [| reflexivity].
    right. split; [exact Es |]. split; [reflexivity |]. exists id. cbn. tauto. }
  apply compareRegisters_none in Er.
  intros (k & x & y & Hx & Hy & Hi & Ha & Hd & ->)%IH.
  exists (S k), x, y. split; [exact Hx |]. split; [exact Hy |]. split; [lia |].
  split; [cbn [take]; rewrite aligned_cons; tauto |]. split; [exact Hd | reflexivity].
Qed.

End Agreement.

(** The history is the last [d] entries. *)
Lemma push_all (d : Z) (es : list Entry) :
  0 <= d -> foldl (push_history d) [] es = drop (length es - Z.to_nat d) es.
Proof.
  intros Hd. induction es as [| e es IH] using rev_ind; [rewrite drop_nil; reflexivity |].
  rewrite foldl_app, IH, length_app. cbn [foldl length]. unfold push_history. cbv zeta.
  rewrite length_app, length_drop. cbn [length].
  destruct (Z.ltb_spec d (Z.of_nat (length es - (length es - Z.to_nat d) + 1))).
  - rewrite <- drop_app_le by lia. rewrite drop_drop. f_equal. lia.
  - replace (length es + 1 - Z.to_nat d)%nat with 0%nat by lia.
    replace (length es - Z.to_nat d)%nat with 0%nat by lia. reflexivity.
Qed.

Lemma length_entries (i : nat) (records : list Record_) : length (entries i records) = length records.
Proof. revert i. induction records as [| r records IH]; intros i; [reflexivity |]. cbn. f_equal. apply IH. Qed.

Lemma length_states (s : RegisterState) (records : list Record_) :
  length (states s records) = length records.
Proof. revert s. induction records as [| r records IH]; intros s; [reflexivity |]. cbn. f_equal. apply IH. Qed.

Lemma states_lookup (s : RegisterState) (records : list Record_) (i : nat) :
  (i < length records)%nat -> states s records !! i = Some (replay s (take (S i) records)).
Proof.
  revert s i. induction records as [| r records IH]; intros s [| i]; cbn [length];
    intros Hi; try lia; [reflexivity |]. cbn [states lookup list_lookup]. rewrite IH by lia. reflexivity.
Qed.

Lemma aligned_length (eq : Z -> Z -> Z -> bool) (s t : RegisterState) (l r : list Record_) :
  aligned eq s t l r -> length l = length r.
Proof. intros [H _]. apply Forall2_length in H. exact H. Qed.

(** ** The verdict *)

Lemma verdict_ok (eq : Z -> Z -> Z -> bool) (d : Z) (L R : list Record_) :
  Verdict.ok (compareTraces L R eq d) = true <->
  aligned eq RegisterState.new RegisterState.new (significantRecords L) (significantRecords R).
Proof.
  unfold compareTraces. cbv zeta. set (l := significantRecords L). set (r := significantRecords R).
  pose proof (compare_from_none eq d l r 0 RegisterState.new RegisterState.new []) as Hnone.
  destruct (compare_from _ _ _ _ _ _ _ _) as [[dv |] h]; cbn [fst] in Hnone.
  - split; [discriminate |]. intros Ha. pose proof (aligned_length _ _ _ _ _ Ha) as El.
    rewrite !take_ge in Hnone by lia. apply Hnone in Ha. discriminate.
  - destruct (Nat.eqb_spec (length l) (length r)) as [E | E]; cbn.
    + rewrite !take_ge in Hnone by lia. tauto.
    + split; [discriminate |]. intros Ha. destruct (E (aligned_length _ _ _ _ _ Ha)).
Qed.

Lemma take_overlap {A} (l : list A) (n : nat) : take (Nat.min (length l) n) l = take n l.
Proof.
  destruct (Nat.min_spec (length l) n) as [[Hlt ->] | [Hle ->]]; [| reflexivity].
  rewrite !take_ge by lia. reflexivity.
Qed.

Lemma diverged_first (eq : Z -> Z -> Z -> bool) (d : Z) (L R : list Record_)
    (dv : Divergence) (h : list Entry) :
  0 <= d -> compareTraces L R eq d = Verdict.Diverged dv h ->
  let l := significantRecords L in
  let r := significantRecords R in
  let k := Divergence.index dv in
  aligned eq RegisterState.new RegisterState.new (take k l) (take k r) /\
  h = drop (k - Z.to_nat d) (entries 0 (take k l)) /\
  ((Divergence.kind dv = KIND.LENGTH /\ k = Nat.min (length l) (length r) /\ length l <> length r) \/
   exists a b, l !! k = Some a /\ r !! k = Some b /\
     diverges eq (replay RegisterState.new (take (S k) l)) (replay RegisterState.new (take (S k) r)) a b dv).
Proof.
  intros Hd. unfold compareTraces. cbv zeta. set (l := significantRecords L). set (r := significantRecords R).
  destruct (compare_from _ _ _ _ _ _ _ _) as [[dv' |] h'] eqn:E.
  - intros [= <- <-]. apply compare_from_some in E as (k & a & b & Ha & Hb & -> & Hal & Hdiv & ->).
    cbn [Nat.add]. split; [exact Hal |]. split; [| right; eauto].
    rewrite push_all, length_entries, length_take by exact Hd.
    apply lookup_lt_Some in Ha. do 2 f_equal. lia.
  - destruct (Nat.eqb_spec (length l) (length r)) as [| Hne]; [discriminate |].
    intros [= <- <-]. cbn [Divergence.index Divergence.kind].
    pose proof (compare_from_history _ _ _ _ _ _ _ _ _ E) as Hh.
    assert ((compare_from eq d l r 0 RegisterState.new RegisterState.new []).1 = None) as Hn
      by (rewrite E; reflexivity).
    apply compare_from_none in Hn.
    rewrite (take_overlap l (length r)), Nat.min_comm, (take_overlap r (length l)).
    split; [exact Hn |]. split; [| left; cbn; rewrite Nat.min_comm; tauto].
    rewrite Hh, push_all, length_entries, length_take by exact Hd. reflexivity.
Qed.

(** ** Policies *)

(** A NaN with [m] bits of mantissa under [e] of exponent, quiet or signalling;
    the bits above are not looked at. *)
Definition nan_of (m e bits : Z) : option bool :=
  if ((bits / 2 ^ m) mod 2 ^ e =? 2 ^ e - 1) && negb (bits mod 2 ^ m =? 0)
  then Some (Z.testbit bits (m - 1)) else None.

(** A field test written with a mask. *)
Lemma mask_field (bits m e : Z) :
  0 <= m -> 0 <= e ->
  Z.land bits (Z.shiftl (2 ^ e - 1) m) = Z.shiftl ((bits / 2 ^ m) mod 2 ^ e) m.
Proof.
  intros Hm He. rewrite <- Z.shiftr_div_pow2, <- Z.land_ones, Z.sub_1_r, <- Z.ones_equiv by assumption.
  rewrite Z.shiftl_land. apply Z.bits_inj'. intros i Hi. rewrite !Z.land_spec.
  destruct (Z.ltb_spec i m).
  - rewrite !(Z.shiftl_spec_low _ _ i) by lia. rewrite !andb_false_r. reflexivity.
  - rewrite !Z.shiftl_spec, Z.shiftr_spec by lia. rewrite Z.sub_add. reflexivity.
Qed.

Lemma mask_full (bits m e : Z) :
  0 <= m -> 0 <= e ->
  (Z.land bits (Z.shiftl (2 ^ e - 1) m) =? Z.shiftl (2 ^ e - 1) m) =
  ((bits / 2 ^ m) mod 2 ^ e =? 2 ^ e - 1).
Proof.
  intros Hm He. rewrite mask_field by assumption. rewrite !Z.shiftl_mul_pow2 by assumption.
  assert (0 < 2 ^ m) by lia.
  destruct (Z.eqb_spec ((bits / 2 ^ m) mod 2 ^ e) (2 ^ e - 1)) as [-> | Hne]; [apply Z.eqb_refl |].
  apply Z.eqb_neq. intros E. apply Hne. apply (Z.mul_cancel_r _ _ (2 ^ m)); lia.
Qed.

Lemma mask_bit (bits i : Z) : 0 <= i -> negb (Z.land bits (Z.shiftl 1 i) =? 0) = Z.testbit bits i.
Proof.
  intros Hi. change 1 with (2 ^ 1 - 1) at 1. rewrite mask_field by lia.
  change (2 ^ 1) with 2. rewrite <- Z.testbit_spec' by exact Hi.
  destruct (Z.testbit bits i); cbn [Z.b2z]; rewrite Z.shiftl_mul_pow2 by exact Hi; [| reflexivity].
  assert (0 < 2 ^ i) by lia. destruct (Z.eqb_spec (1 * 2 ^ i) 0); [lia | reflexivity].
Qed.

Definition nan_name (width : string) (quiet : bool) : string :=
  ((if quiet then "qnan" else "snan") +:+ width)%string.

Lemma classify64_spec (bits : Z) :
  fp_policy.classify64 bits = nan_name "64"%string <$> nan_of 52 11 bits.
Proof.
  unfold fp_policy.classify64, nan_of. cbv zeta.
  change fp_policy.EXPONENT_ALL_ONES_64 with (Z.shiftl (2 ^ 11 - 1) 52). rewrite mask_full by lia.
  change fp_policy.MANTISSA_64 with (Z.ones 52). rewrite Z.land_ones by lia.
  change fp_policy.QUIET_BIT_64 with (Z.shiftl 1 51). rewrite mask_bit by lia.
  destruct (_ =? 2 ^ 11 - 1); cbn [negb andb]; [| reflexivity].
  destruct (bits mod 2 ^ 52 =? 0); cbn [negb]; [reflexivity |].
  change (52 - 1) with 51. destruct (Z.testbit bits 51); reflexivity.
Qed.

(** The low word decides the 32-bit class. *)
Lemma classify32_spec (bits : Z) :
  fp_policy.classify32 bits = nan_name "32"%string <$> nan_of 23 8 bits.
Proof.
  unfold fp_policy.classify32, nan_of. cbv zeta. change 0xffffffff with (Z.ones 32).
  rewrite <- !Z.land_assoc.
  change (Z.land (Z.ones 32) fp_policy.EXPONENT_ALL_ONES_32) with (Z.shiftl (2 ^ 8 - 1) 23).
  change (Z.land (Z.ones 32) fp_policy.MANTISSA_32) with (Z.ones 23).
  change (Z.land (Z.ones 32) fp_policy.QUIET_BIT_32) with (Z.shiftl 1 22).
  change fp_policy.EXPONENT_ALL_ONES_32 with (Z.shiftl (2 ^ 8 - 1) 23).
  rewrite mask_full, Z.land_ones, mask_bit by lia.
  destruct (_ =? 2 ^ 8 - 1); cbn [negb andb]; [| reflexivity].
  destruct (bits mod 2 ^ 23 =? 0); cbn [negb]; [reflexivity |].
  change (23 - 1) with 22. destruct (Z.testbit bits 22); reflexivity.
Qed.

(** Two NaNs of one class. *)
Definition same_nan (m e l r : Z) : Prop := exists q, nan_of m e l = Some q /\ nan_of m e r = Some q.

Lemma same_class (w : string) (m e l r : Z) :
  (forall p q, nan_name w p = nan_name w q -> p = q) ->
  negb (bool_decide (nan_name w <$> nan_of m e l = None)) &&
  bool_decide (nan_name w <$> nan_of m e l = nan_name w <$> nan_of m e r) = true <->
  same_nan m e l r.
Proof.
  intros Hw. unfold same_nan. destruct (nan_of m e l) as [q |], (nan_of m e r) as [q' |]; cbn.
  - rewrite bool_decide_eq_true. split.
    + intros [= E%Hw]. exists q. split; congruence.
    + intros (x & [= ->] & [= ->]). reflexivity.
  - split; [discriminate | intros (x & _ & E); discriminate].
  - split; [discriminate | intros (x & E & _); discriminate].
  - split; [discriminate | intros (x & E & _); discriminate].
Qed.

Lemma isNanEquivalent_spec (l r : Z) :
  fp_policy.isNanEquivalent l r = true <-> same_nan 52 11 l r \/ same_nan 23 8 l r.
Proof.
  unfold fp_policy.isNanEquivalent. cbv zeta. cbn [existsb].
  rewrite !classify64_spec, !classify32_spec, orb_false_r, orb_true_iff.
  rewrite !same_class by (intros [] [] E; first [reflexivity | discriminate E]). reflexivity.
Qed.

(** Two words that agree outside FPSR's cumulative exception bits (IOC, DZC, OFC,
    UFC, IXC at 4..0 and IDC at 7). *)
Definition same_but_cumulative (l r : Z) : Prop :=
  forall i, 0 <= i -> ~ (i <= 4 \/ i = 7) -> Z.testbit l i = Z.testbit r i.

Lemma cumulative_spec (l r : Z) :
  Z.land l (Z.lnot fp_policy.FPSR_CUMULATIVE_MASK) = Z.land r (Z.lnot fp_policy.FPSR_CUMULATIVE_MASK) <->
  same_but_cumulative l r.
Proof.
  assert (forall i, 0 <= i -> Z.testbit (Z.lnot fp_policy.FPSR_CUMULATIVE_MASK) i =
    negb (bool_decide (i <= 4 \/ i = 7))) as Hmask.
  { intros i Hi. rewrite Z.lnot_spec by exact Hi. f_equal.
    destruct (Z.ltb_spec i 8) as [Hlt |].
    - assert (i = 0 \/ i = 1 \/ i = 2 \/ i = 3 \/ i = 4 \/ i = 5 \/ i = 6 \/ i = 7)
        as [-> | [-> | [-> | [-> | [-> | [-> | [-> | ->]]]]]]] by lia; reflexivity.
    - rewrite bool_decide_false by lia. apply Z.bits_above_log2; [vm_compute; discriminate |].
      change (Z.log2 fp_policy.FPSR_CUMULATIVE_MASK) with 7. lia. }
  split.
  - intros E i Hi Hn. apply (f_equal (fun x => Z.testbit x i)) in E.
    rewrite !Z.land_spec, Hmask, bool_decide_false, !andb_true_r in E by assumption. exact E.
  - intros E. apply Z.bits_inj'. intros i Hi. rewrite !Z.land_spec, Hmask by exact Hi.
    destruct (bool_decide (i <= 4 \/ i = 7)) eqn:Eb; cbn [negb]; [rewrite !andb_false_r; reflexivity |].
    rewrite !andb_true_r. apply E; [exact Hi |]. apply bool_decide_eq_false in Eb. exact Eb.
Qed.

Lemma bitwise_spec (id l r : Z) : fp_policy.areEqual "bitwise"%string id l r = true <-> l = r.
Proof.
  unfold fp_policy.areEqual. destruct (Z.eqb_spec l r); [tauto |].
  rewrite bool_decide_true by reflexivity. split; [discriminate | tauto].
Qed.

(** The two halves of a vector register, under either relaxed policy. *)
Definition same_vector_nan (id l r : Z) : Prop :=
  64 <= id < 128 /\ (same_nan 52 11 l r \/ same_nan 23 8 l r).

Lemma nan_insensitive_spec (id l r : Z) :
  fp_policy.areEqual "nan-insensitive"%string id l r = true <-> l = r \/ same_vector_nan id l r.
Proof.
  unfold fp_policy.areEqual, same_vector_nan, RegId.FPSR, RegId.FPCR, RegId.V_BASE.
  rewrite !bool_decide_false by discriminate. rewrite <- isNanEquivalent_spec.
  destruct (Z.eqb_spec l r); [tauto |]. cbn [negb].
  destruct (Z.eqb_spec id 35); [split; [discriminate | lia] |].
  destruct (Z.eqb_spec id 34); [split; [discriminate | lia] |]. cbv zeta.
  rewrite !andb_true_iff, Z.leb_le, Z.ltb_lt. tauto.
Qed.

Lemma ignore_fpsr_spec (id l r : Z) :
  fp_policy.areEqual "ignore-fpsr"%string id l r = true <->
  l = r \/ same_vector_nan id l r \/ (id = 35 /\ same_but_cumulative l r).
Proof.
  unfold fp_policy.areEqual, same_vector_nan, RegId.FPSR, RegId.FPCR, RegId.V_BASE.
  rewrite (bool_decide_false ("ignore-fpsr"%string = "bitwise"%string)) by discriminate.
  rewrite bool_decide_true by reflexivity. rewrite <- isNanEquivalent_spec, <- cumulative_spec.
  destruct (Z.eqb_spec l r); [tauto |]. cbn [negb].
  destruct (Z.eqb_spec id 35) as [-> | Hid].
  { rewrite Z.eqb_eq. split; [tauto |]. intros [? | [? | ?]]; [tauto | lia | tauto]. }
  destruct (Z.eqb_spec id 34); [split; [discriminate | lia] |]. cbv zeta.
  rewrite !andb_true_iff, Z.leb_le, Z.ltb_lt. tauto.
Qed.

(** A comparator that accepts more lets more traces match. *)
Lemma aligned_mono (eq eq' : Z -> Z -> Z -> bool) (s t : RegisterState) (l r : list Record_) :
  (forall id x y, eq id x y = true -> eq' id x y = true) ->
  aligned eq s t l r -> aligned eq' s t l r.
Proof.
  intros He [Hstep Hreg]. split; [exact Hstep |]. eapply Forall2_impl; [exact Hreg |].
  intros a b Hab id. destruct (Hab id) as [E | [Hf E]]; [left; exact E | right; auto].
Qed.

Lemma bitwise_agrees (s t : RegisterState) :
  agrees (fp_policy.areEqual "bitwise"%string) s t <->
  forall id, RegisterState.get s id = RegisterState.get t id.
Proof.
  unfold agrees, agree_at. split; intros H id; [| left; apply H].
  destruct (H id) as [E | [_ E]]; [exact E |]. unfold fp_policy.areEqual in E.
  destruct (Z.eqb_spec (RegisterState.get s id) (RegisterState.get t id)); [assumption |].
  rewrite bool_decide_true in E by reflexivity. discriminate.
Qed.

(** ** What a record writes *)

Lemma set_words_lookup (base : Z) (words : list Z) (count : nat) (m : gmap Z Z) (id : Z) :
  RegisterState.set_words base words count m !! id =
  if decide (base <= id < base + Z.of_nat count) then words !! Z.to_nat (id - base) else m !! id.
Proof.
  unfold RegisterState.set_words. induction count as [| n IH].
  { cbn. rewrite decide_False by lia. reflexivity. }
  rewrite seq_S, foldl_app. cbn [foldl]. set (m' := foldl _ m (seq 0 n)) in *. cbn [Nat.add] in *.
  destruct (decide (id = base + Z.of_nat n)) as [-> | Hne].
  - rewrite lookup_partial_alter_eq, decide_True by lia. f_equal. lia.
  - rewrite lookup_partial_alter_ne by congruence. rewrite IH.
    destruct (decide (base <= id < base + Z.of_nat n)).
    + rewrite decide_True by lia. reflexivity.
    + rewrite decide_False by lia. reflexivity.
Qed.
