(* ===== verification/Perturb.v ===== *)
(** The differ's test instrument ([tests/differ/perturb.mjs]): it rewrites one
    register value of a trace in place, and the trace that results is the old one
    with that value changed. *)

From stdpp Require Import base numbers list option gmap strings.
From S2P Require Import Prelude RegFile TraceFormat TraceSink TraceWriter TraceReader Differ Verdict.

Import reader.

#[local] Open Scope Z_scope.

Module perturb.

Definition BLOCK_PREFIX_BYTES : nat := 32.
Definition REG_DELTA_BYTES : nat := 16.

Inductive PerturbError : Type :=
| RangeError
| Malformed (offset : nat)
| NotCarried (step : nat) (regId : Z)
| TooFewRecords (targetStep : nat).

(** Byte offset of a register's value within an exception record. *)
Definition exceptionValueOffset (regId : Z) : option nat :=
  let base := (8 + 32)%nat in
  if regId <? 31 then Some (base + Z.to_nat regId * 8)%nat
  else if regId =? RegId.SP then Some (base + 31 * 8)%nat
  else
    let afterX := (base + 32 * 8)%nat in
    if regId =? RegId.PC then Some afterX
    else if regId =? RegId.PSTATE then Some (afterX + 8)%nat
    else
      let afterSys := (afterX + 16 + NUM_SYSREG * 8)%nat in
      if (RegId.SYS_BASE <=? regId) && (regId <? RegId.SYS_BASE + Z.of_nat NUM_SYSREG)
      then Some (afterX + 16 + Z.to_nat (regId - RegId.SYS_BASE) * 8)%nat
      else if regId =? RegId.FPCR then Some afterSys
      else if regId =? RegId.FPSR then Some (afterSys + 8)%nat
      else if (RegId.V_BASE <=? regId) && (regId <? RegId.V_BASE + Z.of_nat NUM_VREG * 2)
      then Some (afterSys + 16 + Z.to_nat (regId - RegId.V_BASE) * 8)%nat
      else None.

(** The loop of [blockValueOffset], from delta [i] on. *)
Fixpoint blockValueOffset_from (view : list Z) (offset i count : nat) (regId : Z) : read (option nat) :=
  match count with
  | O => Ok None
  | S count =>
      let deltaAt := (offset + BLOCK_PREFIX_BYTES + i * REG_DELTA_BYTES)%nat in
      id ← getUint view deltaAt 2;
      if id =? regId then Ok (Some (deltaAt + 8)%nat)
      else blockValueOffset_from view offset (S i) count regId
  end.

Definition blockValueOffset (view : list Z) (offset deltaCount : nat) (regId : Z) : read (option nat) :=
  blockValueOffset_from view offset 0 deltaCount regId.

(** [view.setBigUint64(at, value, true)], which throws past the end. *)
Definition setBigUint64 (view : list Z) (at_ : nat) (value : Z) : read (list Z) :=
  if (at_ + 8 <=? length view)%nat
  then Ok (take at_ view ++ to_le_bytes 8 value ++ drop (at_ + 8) view) else Err ReadError.RangeError.

Record Outcome : Type := { bytes : list Z; step : nat; before : Z; after : Z }.

(** A value, or an error thrown. *)
Definition attempt (A : Type) : Type := result A PerturbError.

#[export] Instance attempt_bind : MBind attempt :=
  fun A B f m => match m with Ok a => f a | Err e => Err e end.

Definition or_range {A} (m : read A) : attempt A :=
  match m with Ok a => Ok a | Err _ => Err RangeError end.

(** The offset of the value in the record found. *)
Definition value_offset (view : list Z) (type : Z) (flags offset : nat) (regId : Z) : read (option nat) :=
  if type =? record_type.BLOCK then blockValueOffset view offset flags regId
  else Ok (Nat.add offset <$> exceptionValueOffset regId).

(** The [while] loop; every iteration advances by at least a record header, so the
    length of the file is fuel enough. *)
Fixpoint perturb_from (fuel : nat) (view : list Z) (regId : Z) (targetStep : nat) (xorMask : Z)
    (offset step : nat) : attempt Outcome :=
  match fuel with
  | O => Err (TooFewRecords targetStep)
  | S fuel =>
      if (offset + 8 <=? length view)%nat then
        type ← or_range (getUint view offset 1);
        flags ← or_range (getUint view (offset + 1) 1);
        length ← or_range (getUint view (offset + 2) 2);
        if length <? RECORD_HEADER_BYTES then Err (Malformed offset)
        else
          let isSignificant := (type =? record_type.BLOCK) || (type =? record_type.EXCEPTION) in
          if isSignificant && (step =? targetStep)%nat then
            valueAt ← or_range (value_offset view type (Z.to_nat flags) offset regId);
            match valueAt with
            | None => Err (NotCarried targetStep regId)
            | Some valueAt =>
                before ← or_range (getUint view valueAt 8);
                let after := Z.lxor before xorMask in
                bytes ← or_range (setBigUint64 view valueAt after);
                Ok {| bytes := bytes; step := step; before := before; after := after |}
            end
          else
            perturb_from fuel view regId targetStep xorMask (offset + Z.to_nat length)
              (if isSignificant then S step else step)
      else Err (TooFewRecords targetStep)
  end.

Definition perturb (bytes : list Z) (regId : Z) (targetStep : nat) (xorMask : Z) :
    attempt Outcome :=
  perturb_from (length bytes) bytes regId targetStep xorMask (Z.to_nat FILE_HEADER_BYTES) 0.

End perturb.

(** ** Changing eight bytes of a view *)

Definition splice (view : list Z) (at_ : nat) (w : Z) : list Z :=
  take at_ view ++ to_le_bytes 8 w ++ drop (at_ + 8) view.

Section Splice.

Context (view : list Z) (at_ : nat) (w : Z).

Hypothesis Hat : (at_ + 8 <= length view)%nat.

Lemma length_splice : length (splice view at_ w) = length view.
Proof.
  unfold splice. rewrite !length_app, length_to_le_bytes, length_take, length_drop. lia.
Qed.

Lemma splice_app (rest : list Z) : splice view at_ w ++ rest = splice (view ++ rest) at_ w.
Proof.
  unfold splice. rewrite take_app_le, drop_app_le by lia. rewrite <- !app_assoc. reflexivity.
Qed.

(** A field elsewhere reads as before; the field itself reads as written. *)
Lemma getUint_other (offset width : nat) :
  (offset + width <= at_ \/ at_ + 8 <= offset)%nat ->
  getUint (splice view at_ w) offset width = getUint view offset width.
Proof.
  intros Ho. unfold getUint. rewrite length_splice.
  destruct (Nat.leb_spec (offset + width) (length view)) as [Hl |]; [| reflexivity].
  do 2 f_equal. unfold splice. destruct Ho as [Ho | Ho].
  - rewrite drop_app_le, take_app_le by (rewrite ?length_drop, length_take; lia).
    rewrite skipn_firstn_comm, take_take. f_equal. lia.
  - rewrite drop_app_ge, drop_app_ge by (rewrite ?length_take, ?length_to_le_bytes; lia).
    rewrite drop_drop, length_to_le_bytes, length_take. do 2 f_equal. lia.
Qed.

Lemma getUint_there : word w -> getUint (splice view at_ w) at_ 8 = Ok w.
Proof.
  intros Hw. unfold splice. apply getUint_at; [rewrite length_take; lia | apply word_bytes, Hw].
Qed.

Lemma readDeltas_other (cursor count : nat) :
  (cursor + count * 16 <= at_ \/ at_ + 8 <= cursor)%nat ->
  readDeltas (splice view at_ w) cursor count = readDeltas view cursor count.
Proof.
  revert cursor. induction count as [| n IH]; intros cursor Hc; [reflexivity |]. cbn [readDeltas].
  rewrite !getUint_other, IH by lia. reflexivity.
Qed.

Lemma readDeltas_there (cursor count i : nat) (ds : list RegDelta) (d : RegDelta) :
  word w -> at_ = (cursor + i * 16 + 8)%nat -> readDeltas view cursor count = Ok ds ->
  ds !! i = Some d ->
  readDeltas (splice view at_ w) cursor count = Ok (<[i := RegDelta.mk (RegDelta.reg_id d) w]> ds).
Proof.
  intros Hw. revert cursor i ds. induction count as [| n IH]; intros cursor i ds Hi; cbn [readDeltas].
  { intros [= <-]. discriminate. }
  destruct (getUint view cursor 2) as [id |] eqn:E1; [| discriminate].
  destruct (getUint view (cursor + 8) 8) as [v |] eqn:E2; [| discriminate].
  destruct (readDeltas view (cursor + 16) n) as [rest |] eqn:E3; [| discriminate].
  cbn [mbind read_bind]. intros [= <-]. destruct i as [| i]; cbn [lookup list_lookup].
  - intros [= <-]. rewrite (getUint_other cursor), E1 by lia. cbn [mbind read_bind].
    replace (cursor + 8)%nat with at_ by lia. rewrite getUint_there by exact Hw.
    cbn [mbind read_bind]. rewrite readDeltas_other, E3 by lia. reflexivity.
  - intros Hd. rewrite !getUint_other, E1, E2 by lia. cbn [mbind read_bind].
    rewrite (IH (cursor + 16)%nat i rest) by (assumption || lia). reflexivity.
Qed.

Lemma readWords_other (offset i count : nat) :
  (offset + (i + count) * 8 <= at_ \/ at_ + 8 <= offset + i * 8)%nat ->
  readWords_from (splice view at_ w) offset i count = readWords_from view offset i count.
Proof.
  revert i. induction count as [| n IH]; intros i Hc; [reflexivity |]. cbn [readWords_from].
  rewrite getUint_other, IH by lia. reflexivity.
Qed.

Lemma readWords_there (offset i count j : nat) (l : list Z) :
  word w -> at_ = (offset + (i + j) * 8)%nat -> (j < count)%nat ->
  readWords_from view offset i count = Ok l ->
  readWords_from (splice view at_ w) offset i count = Ok (<[j := w]> l).
Proof.
  intros Hw. revert i j l. induction count as [| n IH]; intros i j l Hi Hj; [lia |]. cbn [readWords_from].
  destruct (getUint view (offset + i * 8) 8) as [v |] eqn:E1; [| discriminate].
  destruct (readWords_from view offset (S i) n) as [rest |] eqn:E2; [| discriminate].
  cbn [mbind read_bind]. intros [= <-]. destruct j as [| j].
  - replace (offset + i * 8)%nat with at_ by lia. rewrite getUint_there by exact Hw.
    cbn [mbind read_bind]. rewrite readWords_other, E2 by lia. reflexivity.
  - rewrite (getUint_other (offset + i * 8)), E1 by lia. cbn [mbind read_bind].
    rewrite (IH (S i) j rest) by (assumption || lia). reflexivity.
Qed.

End Splice.

(** ** A register's value in a record *)

(** Where an exception record keeps a register. *)
Inductive slot : Type := SX (n : nat) | SPc | SPstate | SSys (n : nat) | SFpcr | SFpsr | SV (n : nat).

#[export] Instance slot_eq_dec : EqDecision slot.
Proof. solve_decision. Defined.

Definition slot_of (regId : Z) : option slot :=
  if decide (0 <= regId <= 31) then Some (SX (Z.to_nat regId))
  else if decide (regId = 32) then Some SPc
  else if decide (regId = 33) then Some SPstate
  else if decide (256 <= regId < 276) then Some (SSys (Z.to_nat (regId - 256)))
  else if decide (regId = 34) then Some SFpcr
  else if decide (regId = 35) then Some SFpsr
  else if decide (64 <= regId < 128) then Some (SV (Z.to_nat (regId - 64)))
  else None.

Definition slot_get (e : Exception_) (s : slot) : option Z :=
  match s with
  | SX n => x e !! n | SPc => Some (pc e) | SPstate => Some (pstate e) | SSys n => sysreg e !! n
  | SFpcr => Some (fpcr e) | SFpsr => Some (fpsr e) | SV n => v e !! n
  end.

Definition slot_set (e : Exception_) (s : slot) (w : Z) : Exception_ :=
  let make x pc pstate sysreg fpcr fpsr v :=
    {| icount := icount e; fromPc := fromPc e; toPc := toPc e; disconType := disconType e;
       x := x; pc := pc; pstate := pstate; sysreg := sysreg; fpcr := fpcr; fpsr := fpsr; v := v |} in
  match s with
  | SX n => make (<[n := w]> (x e)) (pc e) (pstate e) (sysreg e) (fpcr e) (fpsr e) (v e)
  | SPc => make (x e) w (pstate e) (sysreg e) (fpcr e) (fpsr e) (v e)
  | SPstate => make (x e) (pc e) w (sysreg e) (fpcr e) (fpsr e) (v e)
  | SSys n => make (x e) (pc e) (pstate e) (<[n := w]> (sysreg e)) (fpcr e) (fpsr e) (v e)
  | SFpcr => make (x e) (pc e) (pstate e) (sysreg e) w (fpsr e) (v e)
  | SFpsr => make (x e) (pc e) (pstate e) (sysreg e) (fpcr e) w (v e)
  | SV n => make (x e) (pc e) (pstate e) (sysreg e) (fpcr e) (fpsr e) (<[n := w]> (v e))
  end.

(** The first delta of a block that names a register. *)
Definition find_delta (regId : Z) (ds : list RegDelta) : option (nat * RegDelta) :=
  list_find (fun d => RegDelta.reg_id d = regId) ds.

Definition value_of (r : Record_) (regId : Z) : option Z :=
  match r with
  | Block _ _ _ ds => RegDelta.value ∘ snd <$> find_delta regId ds
  | Exception e => s ← slot_of regId; slot_get e s
  | _ => None
  end.

Definition set_value (r : Record_) (regId w : Z) : Record_ :=
  match r with
  | Block pc ic n ds =>
      match find_delta regId ds with
      | Some (i, d) => Block pc ic n (<[i := RegDelta.mk regId w]> ds)
      | None => r
      end
  | Exception e => match slot_of regId with Some s => Exception (slot_set e s w) | None => r end
  | _ => r
  end.

Definition slot_offset (s : slot) : nat :=
  match s with
  | SX n => 40 + n * 8 | SPc => 296 | SPstate => 304 | SSys n => 312 + n * 8
  | SFpcr => 472 | SFpsr => 480 | SV n => 488 + n * 8
  end%nat.

Lemma exceptionValueOffset_slot (regId : Z) :
  0 <= regId -> perturb.exceptionValueOffset regId = slot_offset <$> slot_of regId.
Proof.
  intros Hid. unfold perturb.exceptionValueOffset, slot_of, NUM_SYSREG, NUM_VREG, RegId.SP, RegId.PC,
    RegId.PSTATE, RegId.SYS_BASE, RegId.FPCR, RegId.FPSR, RegId.V_BASE. cbv zeta.
  destruct (Z.ltb_spec regId 31); [rewrite decide_True by lia; reflexivity |].
  destruct (Z.eqb_spec regId 31) as [-> | Hsp]; [reflexivity |]. rewrite decide_False by lia.
  destruct (Z.eqb_spec regId 32) as [-> | Hpc]; [reflexivity |]. rewrite decide_False by lia.
  destruct (Z.eqb_spec regId 33) as [-> | Hps]; [reflexivity |]. rewrite decide_False by lia.
  destruct (Z.leb_spec 256 regId), (Z.ltb_spec regId (256 + Z.of_nat 20)); cbn [andb];
    try (rewrite decide_True by lia; reflexivity); rewrite decide_False by lia;
  (destruct (Z.eqb_spec regId 34) as [-> | Hfc]; [reflexivity |]; rewrite decide_False by lia;
   destruct (Z.eqb_spec regId 35) as [-> | Hfs]; [reflexivity |]; rewrite decide_False by lia;
   destruct (Z.leb_spec 64 regId), (Z.ltb_spec regId (64 + Z.of_nat 32 * 2)); cbn [andb];
    try (rewrite decide_True by lia; reflexivity); rewrite decide_False by lia; reflexivity).
Qed.

(** ** Reading a record with a value changed *)

Lemma read_inv {A B} (m : read A) (f : A -> read B) (b : B) :
  m ≫= f = Ok b -> exists a, m = Ok a /\ f a = Ok b.
Proof. destruct m as [a | e]; [intros H; exists a; split; [reflexivity | exact H] | discriminate]. Qed.

Lemma readWords_length (view : list Z) (offset i count : nat) (l : list Z) :
  readWords_from view offset i count = Ok l -> length l = count.
Proof.
  revert i l. induction count as [| n IH]; intros i l; cbn [readWords_from]; [intros [= <-]; reflexivity |].
  intros (a & _ & (rest & Hrest & [= <-])%read_inv)%read_inv. cbn. f_equal. eapply IH, Hrest.
Qed.

Lemma readWords_lookup (view : list Z) (offset i count j : nat) (l : list Z) (z : Z) :
  readWords_from view offset i count = Ok l -> l !! j = Some z ->
  getUint view (offset + (i + j) * 8) 8 = Ok z.
Proof.
  revert i j l. induction count as [| n IH]; intros i j l; cbn [readWords_from]; [intros [= <-]; discriminate |].
  intros (a & Ha & (rest & Hrest & [= <-])%read_inv)%read_inv. destruct j as [| j]; cbn [lookup list_lookup].
  - intros [= <-]. rewrite Nat.add_0_r. exact Ha.
  - intros Hz. rewrite <- (IH (S i) j rest Hrest Hz). f_equal. lia.
Qed.

(** The words of an exception record, by slot. *)
Lemma readException_slot (view : list Z) (e : Exception_) (s : slot) (z : Z) :
  readException view 0 = Ok (Exception e) -> slot_get e s = Some z ->
  getUint view (slot_offset s) 8 = Ok z.
Proof.
  unfold readException, readWords, NUM_SYSREG, NUM_VREG. cbv zeta. cbn [Nat.add Nat.mul].
  intros (a1 & E1 & E)%read_inv. apply read_inv in E as (a2 & E2 & E). apply read_inv in E as (a3 & E3 & E).
  apply read_inv in E as (a4 & E4 & E). apply read_inv in E as (a5 & E5 & E). apply read_inv in E as (a6 & E6 & E).
  apply read_inv in E as (a7 & E7 & E). apply read_inv in E as (a8 & E8 & E). apply read_inv in E as (a9 & E9 & E).
  apply read_inv in E as (a10 & E10 & E). apply read_inv in E as (a11 & E11 & E). injection E as <-.
  destruct s; cbn [slot_get slot_offset x pc pstate sysreg fpcr fpsr v]; intros Hz;
    try (injection Hz as <-; assumption).
  - apply (readWords_lookup _ _ _ _ _ _ _ E5 Hz).
  - apply (readWords_lookup _ _ _ _ _ _ _ E8 Hz).
  - apply (readWords_lookup _ _ _ _ _ _ _ E11 Hz).
Qed.

Lemma getUint_length (view : list Z) (offset width : nat) (z : Z) :
  getUint view offset width = Ok z -> (offset + width <= length view)%nat.
Proof. unfold getUint. destruct (Nat.leb_spec (offset + width) (length view)); [lia | discriminate]. Qed.

(** The reads of a spliced view, one field at a time. *)
Ltac field view w Hat Hw o k E :=
  first [ rewrite (getUint_other view _ w Hat o k) by lia; rewrite E
        | rewrite (getUint_there view o w Hat Hw) ]; cbn [mbind read_bind].
Ltac words view w Hat Hw Hn o k E :=
  first [ rewrite (readWords_other view _ w Hat o 0 k) by lia; rewrite E
        | rewrite (readWords_there view _ w Hat o 0 k _ _ Hw eq_refl Hn E) ];
  cbn [mbind read_bind].

Lemma readException_set (view : list Z) (e : Exception_) (s : slot) (z w : Z) :
  readException view 0 = Ok (Exception e) -> slot_get e s = Some z -> word w ->
  readException (splice view (slot_offset s) w) 0 = Ok (Exception (slot_set e s w)).
Proof.
  intros Hread Hz Hw.
  assert (slot_offset s + 8 <= length view)%nat as Hat
    by (eapply getUint_length, readException_slot; eassumption).
  assert (match s with SX n => n < 32 | SSys n => n < 20 | SV n => n < 64 | _ => True end)%nat as Hn.
  { revert Hread. unfold readException, readWords, NUM_SYSREG, NUM_VREG. cbv zeta. cbn [Nat.add Nat.mul].
    intros E. do 4 (apply read_inv in E as (? & _ & E)). apply read_inv in E as (xs & Ex & E).
    do 2 (apply read_inv in E as (? & _ & E)). apply read_inv in E as (ss & Es & E).
    do 2 (apply read_inv in E as (? & _ & E)). apply read_inv in E as (vs & Ev & E). injection E as <-.
    apply readWords_length in Ex, Es, Ev. destruct s; cbn in Hz; try exact I;
      apply lookup_lt_Some in Hz; lia. }
  revert Hread. unfold readException, readWords, NUM_SYSREG, NUM_VREG. cbv zeta. cbn [Nat.add Nat.mul].
  intros (a1 & E1 & E)%read_inv. apply read_inv in E as (a2 & E2 & E). apply read_inv in E as (a3 & E3 & E).
  apply read_inv in E as (a4 & E4 & E). apply read_inv in E as (a5 & E5 & E). apply read_inv in E as (a6 & E6 & E).
  apply read_inv in E as (a7 & E7 & E). apply read_inv in E as (a8 & E8 & E). apply read_inv in E as (a9 & E9 & E).
  apply read_inv in E as (a10 & E10 & E). apply read_inv in E as (a11 & E11 & E). injection E as <-.
  clear Hz. destruct s as [n | | | n | | | n]; cbn [slot_offset] in Hat |- *;
    field view w Hat Hw 8%nat 8%nat E1; field view w Hat Hw 16%nat 8%nat E2;
    field view w Hat Hw 24%nat 8%nat E3; field view w Hat Hw 32%nat 4%nat E4;
    words view w Hat Hw Hn 40%nat 32%nat E5; field view w Hat Hw 296%nat 8%nat E6;
    field view w Hat Hw 304%nat 8%nat E7; words view w Hat Hw Hn 312%nat 20%nat E8;
    field view w Hat Hw 472%nat 8%nat E9; field view w Hat Hw 480%nat 8%nat E10;
    words view w Hat Hw Hn 488%nat 64%nat E11; reflexivity.
Qed.

(** The first matching delta of a block, where [perturb] finds it. *)
Lemma blockValueOffset_find (view : list Z) (i count : nat) (regId : Z) (ds : list RegDelta) :
  readDeltas view (32 + i * 16) count = Ok ds ->
  perturb.blockValueOffset_from view 0 i count regId =
  Ok ((fun p : nat * RegDelta => 32 + (i + p.1) * 16 + 8)%nat <$> find_delta regId ds).
Proof.
  revert i ds. induction count as [| n IH]; intros i ds; cbn [readDeltas perturb.blockValueOffset_from].
  { intros [= <-]. reflexivity. }
  intros (id & E1 & E)%read_inv. apply read_inv in E as (value & E2 & E).
  apply read_inv in E as (rest & E3 & E). injection E as <-.
  unfold perturb.BLOCK_PREFIX_BYTES, perturb.REG_DELTA_BYTES. rewrite Nat.add_0_l, E1. cbn [mbind read_bind].
  unfold find_delta. cbn [list_find RegDelta.reg_id].
  destruct (Z.eqb_spec id regId) as [-> | Hne].
  - rewrite decide_True by reflexivity. cbn. do 3 f_equal. lia.
  - rewrite decide_False by exact Hne.
    rewrite (IH (S i) rest) by (rewrite <- E3; f_equal; lia). fold (find_delta regId rest).
    destruct (find_delta regId rest) as [[j d] |]; cbn; [| reflexivity]. do 2 f_equal. lia.
Qed.

Lemma readDeltas_lookup (view : list Z) (cursor count i : nat) (ds : list RegDelta) (d : RegDelta) :
  readDeltas view cursor count = Ok ds -> ds !! i = Some d ->
  getUint view (cursor + i * 16 + 8) 8 = Ok (RegDelta.value d).
Proof.
  revert cursor i ds. induction count as [| n IH]; intros cursor i ds; cbn [readDeltas].
  { intros [= <-]. discriminate. }
  intros (id & E1 & E)%read_inv. apply read_inv in E as (value & E2 & E).
  apply read_inv in E as (rest & E3 & E). injection E as <-. destruct i as [| i]; cbn [lookup list_lookup].
  - intros [= <-]. cbn [RegDelta.value]. rewrite <- E2. f_equal. lia.
  - intros Hd. rewrite <- (IH _ _ _ E3 Hd). f_equal. lia.
Qed.

Lemma find_delta_lookup (regId : Z) (ds : list RegDelta) (i : nat) (d : RegDelta) :
  find_delta regId ds = Some (i, d) -> ds !! i = Some d /\ RegDelta.reg_id d = regId.
Proof. intros (Hd & Hid & _)%list_find_Some. split; assumption. Qed.

(** ** Framed records *)

(** The bytes of one record, whatever follows them. *)
Definition framed (chunk : list Z) (r : Record_) : Prop :=
  Forall is_byte chunk /\ forall rest, readRecord (chunk ++ rest) 0 = Ok (Z.of_nat (length chunk), r).

(** The header of a record that reads, and its body. *)
Record parts (view : list Z) (len : Z) (r : Record_) (flags : Z) : Prop := {
  parts_type : getUint view 0 1 = Ok (compare.type r);
  parts_flags : getUint view 1 1 = Ok flags;
  parts_length : getUint view 2 2 = Ok len;
  parts_header : RECORD_HEADER_BYTES <= len;
  parts_body : match r with
    | Block _ _ _ ds => readDeltas view 32 (Z.to_nat flags) = Ok ds
    | Exception _ => readException view 0 = Ok r
    | _ => compare.is_significant r = false
    end
}.

Lemma readRecord_parts (view : list Z) (len : Z) (r : Record_) :
  readRecord view 0 = Ok (len, r) -> exists flags, parts view len r flags.
Proof.
  unfold readRecord. cbn [Nat.add]. intros (ty & Et & E)%read_inv. apply read_inv in E as (fl & Ef & E).
  apply read_inv in E as (ln & El & E). exists fl.
  destruct (Z.ltb_spec ln RECORD_HEADER_BYTES) as [| Hlen]; [discriminate |]. cbn [orb] in E.
  destruct (negb (ln mod 8 =? 0)); [discriminate |].
  destruct (Z.eqb_spec ty record_type.BLOCK) as [-> | Hb].
  { apply read_inv in E as (rec & Eb & [= -> ->]). unfold readBlock in Eb. cbn [Nat.add] in Eb.
    apply read_inv in Eb as (ds & Eds & Eb). apply read_inv in Eb as (p & _ & Eb).
    apply read_inv in Eb as (ic & _ & Eb). apply read_inv in Eb as (n & _ & [= <-]). split; assumption. }
  destruct (Z.eqb_spec ty record_type.EXCEPTION) as [-> | He].
  { apply read_inv in E as (rec & Eb & [= -> ->]). pose proof Eb as Eb'. unfold readException in Eb'.
    do 11 (apply read_inv in Eb' as (? & _ & Eb')). injection Eb' as <-. split; assumption. }
  destruct (Z.eqb_spec ty record_type.MARKER) as [-> | Hm].
  { do 3 (apply read_inv in E as (? & _ & E)). injection E as -> <-. split; try assumption. reflexivity. }
  destruct (Z.eqb_spec ty record_type.END_) as [-> | Hn].
  { do 2 (apply read_inv in E as (? & _ & E)). injection E as -> <-. split; try assumption. reflexivity. }
  injection E as -> <-. split; try assumption. unfold compare.is_significant. cbn [compare.type].
  destruct (Z.eqb_spec ty record_type.BLOCK), (Z.eqb_spec ty record_type.EXCEPTION); tauto || reflexivity.
Qed.

(** Where [perturb] finds the value of a register that a record carries. *)
Definition value_at (r : Record_) (regId : Z) : option nat :=
  match r with
  | Block _ _ _ ds => (fun p : nat * RegDelta => 32 + p.1 * 16 + 8)%nat <$> find_delta regId ds
  | Exception _ => slot_offset <$> slot_of regId
  | _ => None
  end.

Lemma value_offset_spec (view : list Z) (len : Z) (r : Record_) (flags regId : Z) :
  0 <= regId -> parts view len r flags -> compare.is_significant r = true ->
  perturb.value_offset view (compare.type r) (Z.to_nat flags) 0 regId = Ok (value_at r regId).
Proof.
  intros Hid [_ _ _ _ Hbody] Hsig. destruct r as [p ic n ds | e | | |]; try congruence.
  - apply (blockValueOffset_find view 0 _ regId ds Hbody).
  - unfold perturb.value_offset. change (compare.type (Exception e) =? record_type.BLOCK) with false.
    cbv iota. rewrite exceptionValueOffset_slot by exact Hid. cbn [value_at].
    destruct (slot_of regId); reflexivity.
Qed.

Lemma value_read (view : list Z) (len : Z) (r : Record_) (flags regId z : Z) :
  parts view len r flags -> value_of r regId = Some z ->
  exists at_, value_at r regId = Some at_ /\ (40 <= at_)%nat /\ getUint view at_ 8 = Ok z.
Proof.
  intros [_ _ _ _ Hbody] Hz. destruct r as [p ic n ds | e | | |]; cbn [value_of value_at] in *; try discriminate.
  - destruct (find_delta regId ds) as [[i d] |] eqn:Ef; [| discriminate]. injection Hz as <-.
    apply find_delta_lookup in Ef as [Hd _]. eexists. split; [reflexivity |]. cbn [fst].
    split; [lia | apply (readDeltas_lookup _ _ _ _ _ _ Hbody Hd)].
  - destruct (slot_of regId) as [s |]; [| discriminate]. exists (slot_offset s). split; [reflexivity |].
    split; [destruct s; cbn [slot_offset]; lia | eapply readException_slot; eassumption].
Qed.

(** A record with a value changed reads as the record with that value. *)
Lemma readRecord_set (view : list Z) (len : Z) (r : Record_) (regId z w : Z) (at_ : nat) :
  readRecord view 0 = Ok (len, r) -> value_of r regId = Some z -> value_at r regId = Some at_ -> word w ->
  readRecord (splice view at_ w) 0 = Ok (len, set_value r regId w).
Proof.
  intros Hread Hz Hat Hw. destruct (readRecord_parts _ _ _ Hread) as (flags & Hparts).
  destruct (value_read _ _ _ _ _ _ Hparts Hz) as (at2 & Hat2 & H40 & Hget).
  rewrite Hat in Hat2. injection Hat2 as <-. pose proof (getUint_length _ _ _ _ Hget) as Hlen.
  revert Hread. unfold readRecord. cbn [Nat.add].
  intros (ty & Et & E)%read_inv. apply read_inv in E as (fl & Ef & E). apply read_inv in E as (ln & El & E).
  rewrite (getUint_other view at_ w Hlen 0 1), Et by lia. cbn [mbind read_bind].
  rewrite (getUint_other view at_ w Hlen 1 1), Ef by lia. cbn [mbind read_bind].
  rewrite (getUint_other view at_ w Hlen 2 2), El by lia. cbn [mbind read_bind].
  destruct Hparts as [Pt Pf Pl _ Pb]. rewrite Pt in Et. rewrite Pf in Ef. injection Et as <-. injection Ef as <-.
  destruct ((ln <? RECORD_HEADER_BYTES) || _); [discriminate |].
  destruct r as [p ic n ds | e | | |]; cbn [value_of value_at set_value] in *; try discriminate.
  - change (compare.type (Block p ic n ds) =? record_type.BLOCK) with true in *. cbv iota in *.
    destruct (find_delta regId ds) as [[i d] |] eqn:Efd; [| discriminate].
    apply find_delta_lookup in Efd as [Hd <-]. cbn [fmap option_fmap option_map fst] in Hat. injection Hat as <-.
    apply read_inv in E as (rec & Eb & [= -> ->]). unfold readBlock in Eb |- *. cbn [Nat.add] in Eb |- *.
    apply read_inv in Eb as (ds' & Eds & Eb). apply read_inv in Eb as (p' & Ep & Eb).
    apply read_inv in Eb as (ic' & Ei & Eb). apply read_inv in Eb as (n' & En & [= -> -> -> ->]).
    rewrite (readDeltas_there view _ w Hlen 32 (Z.to_nat flags) i ds d Hw) by (assumption || lia).
    cbn [mbind read_bind].
    rewrite (getUint_other view _ w Hlen 8 8), Ep by lia. cbn [mbind read_bind].
    rewrite (getUint_other view _ w Hlen 16 8), Ei by lia. cbn [mbind read_bind].
    rewrite (getUint_other view _ w Hlen 24 2), En by lia. reflexivity.
  - change (compare.type (Exception e) =? record_type.BLOCK) with false in *.
    change (compare.type (Exception e) =? record_type.EXCEPTION) with true in *. cbv iota in *.
    apply read_inv in E as (rec & Eb & [= -> _]).
    destruct (slot_of regId) as [s |]; [| discriminate]. cbn in Hat. injection Hat as <-.
    rewrite (readException_set view e s z w Pb Hz Hw). reflexivity.
Qed.

Lemma framed_word (chunk : list Z) (r : Record_) (regId z : Z) :
  framed chunk r -> value_of r regId = Some z -> word z.
Proof.
  intros [Hb Hf] Hz. specialize (Hf []). rewrite app_nil_r in Hf.
  destruct (readRecord_parts _ _ _ Hf) as (flags & Hp).
  destruct (value_read _ _ _ _ _ _ Hp Hz) as (at_ & _ & _ & Hg). unfold getUint in Hg.
  destruct (Nat.leb_spec (at_ + 8) (length chunk)); [| discriminate]. injection Hg as <-.
  pose proof (from_le_bytes_range (take 8 (drop at_ chunk))) as Hr.
  rewrite length_take, length_drop in Hr. unfold word, in_range.
  replace (8 `min` (length chunk - at_))%nat with 8%nat in Hr by lia. apply Hr.
  apply Forall_take, Forall_drop, Hb.
Qed.

Lemma framed_set (chunk : list Z) (r : Record_) (regId z w : Z) (at_ : nat) :
  framed chunk r -> value_of r regId = Some z -> value_at r regId = Some at_ -> word w ->
  framed (splice chunk at_ w) (set_value r regId w) /\ (at_ + 8 <= length chunk)%nat.
Proof.
  intros Hfr Hz Hat Hw. pose proof Hfr as [Hb Hf]. specialize (Hf []) as Hf0. rewrite app_nil_r in Hf0.
  destruct (readRecord_parts _ _ _ Hf0) as (flags & Hp).
  destruct (value_read _ _ _ _ _ _ Hp Hz) as (at2 & Hat2 & _ & Hg).
  rewrite Hat in Hat2. injection Hat2 as <-. pose proof (getUint_length _ _ _ _ Hg) as Hlen.
  split; [| exact Hlen]. split.
  - unfold splice. apply Forall_app_2; [apply Forall_take, Hb |].
    apply Forall_app_2; [apply to_le_bytes_is_byte | apply Forall_drop, Hb].
  - intros rest. rewrite splice_app, length_splice by exact Hlen.
    eapply readRecord_set; [apply Hf | exact Hz | exact Hat | exact Hw].
Qed.

(** ** The whole file *)

Definition shift_offset (offset : nat) (m : read (option nat)) : read (option nat) :=
  match m with Ok o => Ok (Nat.add offset <$> o) | Err e => Err e end.

Lemma value_offset_shift (view : list Z) (type : Z) (flags offset : nat) (regId : Z) :
  perturb.value_offset view type flags offset regId =
  shift_offset offset (perturb.value_offset (drop offset view) type flags 0 regId).
Proof.
  unfold perturb.value_offset, perturb.blockValueOffset.
  destruct (type =? record_type.BLOCK).
  2: { cbn [shift_offset]. destruct (perturb.exceptionValueOffset regId); reflexivity. }
  assert (forall i, perturb.blockValueOffset_from view offset i flags regId =
    shift_offset offset (perturb.blockValueOffset_from (drop offset view) 0 i flags regId)) as H;
    [| apply H].
  induction flags as [| n IH]; intros i; [reflexivity |].
  cbn [perturb.blockValueOffset_from]. unfold perturb.BLOCK_PREFIX_BYTES in *.
  rewrite <- (Nat.add_assoc offset), getUint_drop, Nat.add_0_l by lia.
  destruct (getUint (drop offset view) _ 2) as [id |]; [| reflexivity]. cbn [mbind read_bind].
  destruct (id =? regId); [| apply IH]. cbn [shift_offset fmap option_fmap option_map]. do 2 f_equal. lia.
Qed.

(** The [k]th significant record replaced. *)
Fixpoint replace_significant (k : nat) (r' : Record_) (records : list Record_) : list Record_ :=
  match records with
  | [] => []
  | r :: records =>
      if compare.is_significant r then
        match k with O => r' :: records | S k => r :: replace_significant k r' records end
      else r :: replace_significant k r' records
  end.

Lemma significant_cons (r : Record_) (records : list Record_) :
  compare.significantRecords (r :: records) =
  if compare.is_significant r then r :: compare.significantRecords records
  else compare.significantRecords records.
Proof.
  unfold compare.significantRecords. destruct (compare.is_significant r) eqn:E.
  - rewrite filter_cons_True by exact E. reflexivity.
  - rewrite filter_cons_False by (rewrite E; discriminate). reflexivity.
Qed.

Lemma significant_replace (k : nat) (r' : Record_) (records : list Record_) :
  compare.is_significant r' = true ->
  compare.significantRecords (replace_significant k r' records) =
  <[k := r']> (compare.significantRecords records).
Proof.
  intros Hr'. revert k. induction records as [| r records IH]; intros k; [reflexivity |].
  cbn [replace_significant]. rewrite significant_cons.
  destruct (compare.is_significant r) eqn:E; [| rewrite significant_cons, E; apply IH].
  destruct k as [| k]; rewrite significant_cons; [rewrite Hr'; reflexivity |].
  rewrite E, IH. reflexivity.
Qed.

Lemma set_value_type (r : Record_) (regId w : Z) :
  compare.type (set_value r regId w) = compare.type r.
Proof.
  destruct r as [p ic n ds | e | | |]; cbn [set_value]; try reflexivity.
  - destruct (find_delta regId ds) as [[i d] |]; reflexivity.
  - destruct (slot_of regId); reflexivity.
Qed.

Lemma splice_middle (pre chunk rest : list Z) (at_ : nat) (w : Z) :
  (at_ + 8 <= length chunk)%nat ->
  splice (pre ++ chunk ++ rest) (length pre + at_) w = pre ++ splice chunk at_ w ++ rest.
Proof.
  intros Hat. rewrite (splice_app chunk at_ w Hat). unfold splice.
  rewrite take_app_add, <- Nat.add_assoc, drop_app_add, <- !app_assoc. reflexivity.
Qed.

Lemma framed_length (chunk : list Z) (r : Record_) : framed chunk r -> (8 <= length chunk)%nat.
Proof.
  intros [_ Hf]. specialize (Hf []). rewrite app_nil_r in Hf.
  destruct (readRecord_parts _ _ _ Hf) as (flags & [_ _ _ Hl _]). unfold RECORD_HEADER_BYTES in Hl. lia.
Qed.

Lemma perturb_from_spec (chunks : list (list Z)) (records : list Record_) (pre : list Z)
    (fuel k step : nat) (regId mask z : Z) (r : Record_) :
  Forall2 framed chunks records -> (length chunks < fuel)%nat -> 0 <= regId -> word mask ->
  compare.significantRecords records !! k = Some r -> value_of r regId = Some z ->
  exists chunks',
    perturb.perturb_from fuel (pre ++ mjoin chunks) regId (step + k) mask (length pre) step =
      Ok {| perturb.bytes := pre ++ mjoin chunks'; perturb.step := step + k;
            perturb.before := z; perturb.after := Z.lxor z mask |} /\
    Forall2 framed chunks' (replace_significant k (set_value r regId (Z.lxor z mask)) records).
Proof.
  intros Hf. revert pre fuel k step. induction Hf as [| chunk r0 chunks records Hc Hf IH];
    intros pre fuel k step Hfuel Hid Hmask Hk Hz; [discriminate |].
  destruct fuel as [| fuel]; [cbn in Hfuel; lia |]. cbn [length] in Hfuel.
  change (mjoin (chunk :: chunks)) with (chunk ++ mjoin chunks). cbn [perturb.perturb_from].
  pose proof (framed_length _ _ Hc) as Hlen. pose proof Hc as [_ Hread]. specialize (Hread (mjoin chunks)).
  destruct (readRecord_parts _ _ _ Hread) as (flags & Hp). pose proof Hp as [Pt Pf Pl Ph Pb].
  set (view := pre ++ chunk ++ mjoin chunks).
  assert (forall o w, (0 < w)%nat ->
    getUint view (length pre + o) w = getUint (chunk ++ mjoin chunks) o w) as Hget.
  { intros o w Hw. unfold view. rewrite getUint_drop, drop_app_length by exact Hw. reflexivity. }
  destruct (Nat.leb_spec (length pre + 8) (length view)) as [_ | Hl];
    [| unfold view in Hl; rewrite !length_app in Hl; lia].
  replace (getUint view (length pre) 1) with (getUint (chunk ++ mjoin chunks) 0 1)
    by (rewrite <- Hget, Nat.add_0_r by lia; reflexivity).
  rewrite !Hget, Pt, Pf, Pl by lia.
  cbn [perturb.or_range mbind perturb.attempt_bind].
  destruct (Z.ltb_spec (Z.of_nat (length chunk)) RECORD_HEADER_BYTES); [lia |]. cbv zeta.
  rewrite significant_cons in Hk. fold (compare.is_significant r0). cbn [replace_significant].
  assert (forall k' step', (step' + k' = step + k)%nat ->
    compare.significantRecords records !! k' = Some r ->
    exists chunks',
      perturb.perturb_from fuel view regId (step + k) mask
        (length pre + Z.to_nat (Z.of_nat (length chunk))) step' =
      Ok {| perturb.bytes := pre ++ mjoin (chunk :: chunks'); perturb.step := step + k;
            perturb.before := z; perturb.after := Z.lxor z mask |} /\
      Forall2 framed chunks' (replace_significant k' (set_value r regId (Z.lxor z mask)) records)) as Hnext.
  { intros k' step' Es Hk'. destruct (IH (pre ++ chunk) fuel k' step') as (chunks' & E & Hf'); try assumption; [lia |].
    exists chunks'. split; [| exact Hf']. unfold view. rewrite Nat2Z.id, <- length_app, app_assoc, <- Es, E.
    rewrite <- app_assoc. reflexivity. }
  destruct (compare.is_significant r0) eqn:Esig; cbn [andb].
  2: { destruct (Hnext k step eq_refl Hk) as (chunks' & E & Hf'). exists (chunk :: chunks').
       split; [exact E | constructor; assumption]. }
  destruct k as [| k].
  - cbn in Hk. injection Hk as ->. rewrite Nat.add_0_r, Nat.eqb_refl. clear Hnext.
    rewrite value_offset_shift.
    change (drop (length pre) view) with (drop (length pre) (pre ++ chunk ++ mjoin chunks)).
    rewrite drop_app_length.
    rewrite (value_offset_spec _ _ _ _ _ Hid Hp Esig).
    destruct (value_read _ _ _ _ _ _ Hp Hz) as (at_ & Hat & _ & Hg). rewrite Hat.
    cbn [shift_offset fmap option_fmap option_map perturb.or_range mbind perturb.attempt_bind].
    rewrite Hget, Hg by lia. cbn [perturb.or_range mbind perturb.attempt_bind].
    assert (word (Z.lxor z mask)) as Hw by (apply in_range_lxor; [lia | eapply framed_word; eassumption | exact Hmask]).
    destruct (framed_set _ _ _ _ _ _ Hc Hz Hat Hw) as [Hset Hin].
    unfold perturb.setBigUint64.
    destruct (Nat.leb_spec (length pre + at_ + 8) (length view)) as [_ | Hl];
      [| unfold view in Hl; rewrite !length_app in Hl; lia].
    cbn [perturb.or_range mbind perturb.attempt_bind]. fold (splice view (length pre + at_) (Z.lxor z mask)).
    unfold view. rewrite splice_middle by exact Hin.
    exists (splice chunk at_ (Z.lxor z mask) :: chunks). split; [reflexivity | constructor; assumption].
  - destruct (Nat.eqb_spec step (step + S k)); [lia |]. cbn [andb].
    destruct (Hnext k (S step)) as (chunks' & E & Hf'); [lia | exact Hk |].
    exists (chunk :: chunks'). split; [exact E | constructor; assumption].
Qed.

Lemma readRecords_framed (chunks : list (list Z)) (records : list Record_) (pre : list Z) (fuel : nat) :
  Forall2 framed chunks records -> (length chunks < fuel)%nat ->
  readRecords fuel (pre ++ mjoin chunks) (length pre) = Ok records.
Proof.
  intros Hf. revert pre fuel. induction Hf as [| chunk r chunks records Hc Hf IH]; intros pre fuel Hfuel;
    (destruct fuel as [| fuel]; [cbn in Hfuel; lia |]); cbn [readRecords].
  - rewrite length_app. cbn [mjoin list_join length].
    destruct (Nat.leb_spec (length pre + 8) (length pre + 0)); [lia | reflexivity].
  - change (mjoin (chunk :: chunks)) with (chunk ++ mjoin chunks).
    pose proof (framed_length _ _ Hc) as Hlen. rewrite !length_app.
    destruct (Nat.leb_spec (length pre + 8) (length pre + (length chunk + length (mjoin chunks)))); [| lia].
    rewrite (readRecord_drop _ _ (Z.of_nat (length chunk), r)) by (rewrite drop_app_length; apply Hc).
    cbn [mbind read_bind]. rewrite Nat2Z.id.
    destruct (Nat.ltb_spec (length pre + (length chunk + length (mjoin chunks))) (length pre + length chunk)); [lia |].
    rewrite app_assoc, <- length_app, IH by (cbn in Hfuel; lia). reflexivity.
Qed.

(** A file: a header and framed records. *)
Definition file_of (file : list Z) (h : Header) (records : list Record_) : Prop :=
  exists head chunks, file = head ++ mjoin chunks /\ length head = 80%nat /\
    (forall rest, readHeader (head ++ rest) = Ok h) /\ Forall2 framed chunks records.

Lemma chunks_length (chunks : list (list Z)) (records : list Record_) :
  Forall2 framed chunks records -> (length chunks <= length (mjoin chunks))%nat.
Proof.
  induction 1 as [| chunk r chunks records Hc Hf IH]; [reflexivity |].
  change (mjoin (chunk :: chunks)) with (chunk ++ mjoin chunks). rewrite length_app.
  pose proof (framed_length _ _ Hc). cbn [length]. lia.
Qed.

Lemma file_loads (file : list Z) (h : Header) (records : list Record_) :
  file_of file h records -> loadTrace file = Ok (h, records).
Proof.
  intros (head & chunks & -> & Hlen & Hh & Hf). unfold loadTrace. rewrite Hh, length_app, Hlen.
  destruct (Nat.ltb_spec (80 + length (mjoin chunks)) 80); [lia |]. cbn [mbind read_bind].
  pose proof (chunks_length _ _ Hf). rewrite <- Hlen.
  rewrite (readRecords_framed _ records) by (assumption || lia). reflexivity.
Qed.

(** The instrument changes one value of one record. *)
Lemma perturb_spec (file : list Z) (h : Header) (records : list Record_) (k : nat) (regId mask z : Z)
    (r : Record_) :
  file_of file h records -> 0 <= regId -> word mask ->
  compare.significantRecords records !! k = Some r -> value_of r regId = Some z ->
  exists file',
    perturb.perturb file regId k mask =
      Ok {| perturb.bytes := file'; perturb.step := k; perturb.before := z;
            perturb.after := Z.lxor z mask |} /\
    file_of file' h (replace_significant k (set_value r regId (Z.lxor z mask)) records).
Proof.
  intros (head & chunks & -> & Hlen & Hh & Hf) Hid Hmask Hk Hz. unfold perturb.perturb.
  change (Z.to_nat FILE_HEADER_BYTES) with 80%nat. rewrite <- Hlen.
  destruct (perturb_from_spec chunks records head (length (head ++ mjoin chunks)) k 0 regId mask z r)
    as (chunks' & E & Hf'); try assumption.
  { rewrite length_app, Hlen. pose proof (chunks_length _ _ Hf). lia. }
  exists (head ++ mjoin chunks'). split; [exact E | exists head, chunks'; tauto].
Qed.

(** The writer's files are of this kind. *)
Lemma words_is_byte (l : list Z) : Forall is_byte (words_bytes l).
Proof.
  induction l as [| a l IH]; [constructor |].
  change (words_bytes (a :: l)) with (to_le_bytes 8 a ++ words_bytes l).
  apply Forall_app_2; [apply to_le_bytes_is_byte | exact IH].
Qed.

Lemma record_is_byte (r : Record_) : record_wf r -> Forall is_byte (record_bytes r).
Proof.
  assert (forall n, Forall is_byte (replicate n 0)) as Hz by (intros n; apply Forall_replicate; split; lia).
  assert (forall t f n, is_byte t -> is_byte f -> Forall is_byte (record_header t f n)) as Hh.
  { intros t f n Ht Hf. unfold record_header. cbn [app].
    do 2 (constructor; [assumption |]). apply Forall_app_2; apply to_le_bytes_is_byte. }
  intros Hr. destruct r as [pc ic n ds | e | ic kind value | ic reason | type]; cbn [record_bytes]; cbv zeta.
  - apply Forall_app_2.
    { destruct Hr as (_ & _ & _ & _ & Hlen). apply Hh; split; unfold record_type.BLOCK; lia. }
    do 3 (apply Forall_app_2; [apply words_is_byte || apply to_le_bytes_is_byte || apply Hz |]).
    clear Hr. induction ds as [| d l IH]; [constructor |].
    change (mjoin (delta_bytes <$> d :: l)) with (delta_bytes d ++ mjoin (delta_bytes <$> l)).
    unfold delta_bytes at 1. repeat apply Forall_app_2;
      first [apply to_le_bytes_is_byte | apply Hz | exact IH].
  - apply Forall_app_2; [apply Hh; split; vm_compute; congruence |].
    do 3 (apply Forall_app_2; [apply words_is_byte || apply to_le_bytes_is_byte |]).
    apply words_is_byte.
  - apply Forall_app_2; [apply Hh; split; vm_compute; congruence | apply words_is_byte].
  - apply Forall_app_2; [apply Hh; split; vm_compute; congruence | apply words_is_byte].
  - cbn in Hr. apply Hh; split; lia.
Qed.

Lemma record_framed (r : Record_) : record_wf r -> framed (record_bytes r) r.
Proof.
  intros Hr. split; [apply record_is_byte, Hr |]. intros rest. apply record_reads, Hr.
Qed.

(** A header that reads, then well-formed records. *)
Lemma records_file (head : list Z) (h : Header) (records : list Record_) :
  length head = 80%nat -> (forall rest, readHeader (head ++ rest) = Ok h) ->
  Forall record_wf records -> file_of (head ++ mjoin (record_bytes <$> records)) h records.
Proof.
  intros Hlen Hh Hr. exists head, (record_bytes <$> records). do 3 (split; [assumption || reflexivity |]).
  induction Hr as [| r records Hr Hrs IH]; constructor; [apply record_framed, Hr | exact IH].
Qed.

Lemma stream_bytes_records (evs : list trace_event) :
  stream_bytes evs = mjoin (record_bytes <$> (event_record <$> evs)).
Proof.
  unfold stream_bytes. f_equal. rewrite <- list_fmap_compose. apply list_fmap_ext.
  intros _ ev _. apply event_bytes_record.
Qed.

Lemma stream_file (name : list Z) (m : FpMode) (evs : list trace_event) :
  Forall event_wf evs ->
  file_of (header_bytes name m ++ stream_bytes evs) (header_of name m) (event_record <$> evs).
Proof.
  intros Hev. rewrite stream_bytes_records.
  apply records_file; [apply length_header_bytes | apply header_reads |].
  apply Forall_fmap. eapply Forall_impl; [exact Hev |]. apply event_record_wf.
Qed.

(** ** The differ sees the change *)

(** What a record writes to the differ's state, when no register is in it
    twice. *)
Definition well_shaped (r : Record_) : Prop :=
  match r with
  | Block _ _ _ ds => NoDup (RegDelta.reg_id <$> ds)
  | Exception e => length (x e) = 32%nat /\ length (sysreg e) = 20%nat /\ length (v e) = 64%nat
  | _ => True
  end.

Lemma framed_shape (chunk : list Z) (e : Exception_) : framed chunk (Exception e) -> well_shaped (Exception e).
Proof.
  intros [_ Hf]. specialize (Hf []). rewrite app_nil_r in Hf.
  destruct (readRecord_parts _ _ _ Hf) as (flags & [_ _ _ _ E]). revert E.
  unfold readException, readWords, NUM_SYSREG, NUM_VREG. cbv zeta. cbn [Nat.add Nat.mul].
  intros E. do 4 (apply read_inv in E as (? & _ & E)). apply read_inv in E as (xs & Ex & E).
  do 2 (apply read_inv in E as (? & _ & E)). apply read_inv in E as (ss & Es & E).
  do 2 (apply read_inv in E as (? & _ & E)). apply read_inv in E as (vs & Ev & E). injection E as <-.
  apply readWords_length in Ex, Es, Ev. cbn. auto.
Qed.

Lemma deltas_lookup (s : RegisterState) (ds : list RegDelta) (id : Z) :
  NoDup (RegDelta.reg_id <$> ds) ->
  RegisterState.values (RegisterState.applyDeltas s ds) !! id =
  match find_delta id ds with Some (_, d) => Some (RegDelta.value d) | None => RegisterState.values s !! id end.
Proof.
  unfold RegisterState.applyDeltas. cbn. generalize (RegisterState.values s) as m.
  induction ds as [| d ds IH]; intros m Hnd; [reflexivity |]. cbn in Hnd |- *.
  apply NoDup_cons in Hnd as [Hd Hnd]. rewrite (IH _ Hnd). unfold find_delta in *. cbn [list_find].
  destruct (decide (RegDelta.reg_id d = id)) as [<- | Hne].
  - destruct (list_find _ ds) as [[j d'] |] eqn:E.
    + apply find_delta_lookup in E as [Hj Hid]. exfalso. apply Hd. rewrite <- Hid.
      apply list_elem_of_fmap. exists d'. split; [reflexivity | eapply list_elem_of_lookup_2, Hj].
    + apply lookup_insert_eq.
  - destruct (list_find _ ds) as [[j d'] |]; [reflexivity |]. cbn. apply lookup_insert_ne, Hne.
Qed.

Lemma find_insert (ds : list RegDelta) (i : nat) (d : RegDelta) (regId w id : Z) :
  find_delta regId ds = Some (i, d) ->
  find_delta id (<[i := RegDelta.mk regId w]> ds) =
  if decide (id = regId) then Some (i, RegDelta.mk regId w) else find_delta id ds.
Proof.
  unfold find_delta. revert i. induction ds as [| d0 ds IH]; intros i; [discriminate |]. cbn [list_find].
  destruct (decide (RegDelta.reg_id d0 = regId)) as [E | E].
  - intros [= <- <-]. cbn [insert list_insert list_find RegDelta.reg_id].
    destruct (decide (id = regId)) as [-> | Hne]; [rewrite decide_True by reflexivity; reflexivity |].
    rewrite decide_False by congruence. rewrite decide_False by congruence. reflexivity.
  - destruct (list_find _ ds) as [[j d'] |] eqn:Ef; [| discriminate]. intros [= <- <-].
    change (<[S j := RegDelta.mk regId w]> (d0 :: ds)) with (d0 :: <[j := RegDelta.mk regId w]> ds).
    cbn [list_find]. rewrite (IH j eq_refl).
    destruct (decide (id = regId)) as [-> | Hne]; [rewrite decide_False by exact E; reflexivity | reflexivity].
Qed.

Lemma applyException_lookup (s : RegisterState) (e : Exception_) (id : Z) :
  well_shaped (Exception e) ->
  RegisterState.values (RegisterState.applyException s e) !! id =
  match slot_of id with Some sl => slot_get e sl | None => RegisterState.values s !! id end.
Proof.
  intros (Hx & Hs & Hv). unfold RegisterState.applyException. cbv zeta. cbn [RegisterState.values].
  rewrite !set_words_lookup, !lookup_insert. unfold slot_of, RegId.SYS_BASE, RegId.V_BASE, RegId.FPSR,
    RegId.FPCR, RegId.PSTATE, RegId.PC, RegId.SP, NUM_SYSREG, NUM_VREG.
  change (256 + Z.of_nat 20) with 276. change (64 + Z.of_nat (32 * 2)) with 128.
  destruct (decide (id = 31)) as [-> | Hsp].
  { rewrite !decide_False by lia. rewrite lookup_partial_alter_eq. reflexivity. }
  rewrite lookup_partial_alter_ne by congruence. rewrite set_words_lookup, Z.add_0_l, Z.sub_0_r.
  repeat case_decide; try lia; try reflexivity.
Qed.

Lemma slot_of_inj (id id' : Z) (s : slot) : slot_of id = Some s -> slot_of id' = Some s -> id = id'.
Proof.
  unfold slot_of. repeat case_decide; intros E E'; rewrite <- E in E'; try congruence; injection E' as E'; lia.
Qed.

Lemma slot_get_set (e : Exception_) (s t : slot) (z w : Z) :
  slot_get e s = Some z ->
  slot_get (slot_set e s w) t = if bool_decide (t = s) then Some w else slot_get e t.
Proof.
  intros Hz. case_bool_decide as E.
  - subst t. destruct s; cbn in *; try reflexivity;
      apply list_lookup_insert_eq; eapply lookup_lt_Some; exact Hz.
  - destruct s, t; cbn in *; try reflexivity; try congruence;
      apply list_lookup_insert_ne; congruence.
Qed.

Lemma set_value_get (s : RegisterState) (r : Record_) (regId z w id : Z) :
  well_shaped r -> value_of r regId = Some z ->
  RegisterState.get (compare.apply s r) regId = z /\
  RegisterState.get (compare.apply s (set_value r regId w)) id =
    if decide (id = regId) then w else RegisterState.get (compare.apply s r) id.
Proof.
  intros Hw Hz. unfold RegisterState.get. destruct r as [p ic n ds | e | | |]; cbn [value_of set_value] in *;
    try discriminate.
  - destruct (find_delta regId ds) as [[i d] |] eqn:Ef; [| discriminate]. injection Hz as <-. cbn [compare.apply].
    pose proof (find_delta_lookup _ _ _ _ Ef) as [Hi Hid].
    rewrite !(deltas_lookup s ds) by exact Hw. rewrite deltas_lookup.
    2: { rewrite list_fmap_insert. cbn. rewrite list_insert_id; [exact Hw |].
         rewrite list_lookup_fmap, Hi. cbn. congruence. }
    rewrite Ef, (find_insert _ _ _ _ _ _ Ef). split; [reflexivity |].
    destruct (decide (id = regId)); reflexivity.
  - destruct (slot_of regId) as [sl |] eqn:Es; [| discriminate]. cbn [compare.apply].
    cbn [mbind option_bind] in Hz.
    rewrite !(applyException_lookup s e) by exact Hw. rewrite applyException_lookup.
    2: { destruct Hw as (H1 & H2 & H3). destruct sl; cbn; rewrite ?length_insert; auto. }
    rewrite Es, Hz. split; [reflexivity |].
    destruct (decide (id = regId)) as [-> | Hne].
    + rewrite Es, (slot_get_set _ _ _ _ _ Hz), bool_decide_true by reflexivity. reflexivity.
    + destruct (slot_of id) as [sl' |] eqn:Es'; [| reflexivity].
      rewrite (slot_get_set _ _ _ _ _ Hz), bool_decide_false; [reflexivity |].
      intros ->. apply Hne. eapply slot_of_inj; eassumption.
Qed.

Lemma set_value_step (r : Record_) (regId w : Z) : same_step r (set_value r regId w).
Proof.
  unfold same_step. rewrite set_value_type. split; [reflexivity |].
  destruct r as [p ic n ds | e | | |]; cbn [set_value]; try (split; reflexivity || exact I).
  - destruct (find_delta regId ds) as [[i d] |]; auto.
  - destruct (slot_of regId) as [s |]; [destruct s |]; cbn; auto.
Qed.

Lemma value_of_significant (r : Record_) (regId z : Z) :
  value_of r regId = Some z -> compare.is_significant r = true.
Proof. destruct r; discriminate || reflexivity. Qed.

Lemma set_value_significant (r : Record_) (regId w : Z) :
  compare.is_significant (set_value r regId w) = compare.is_significant r.
Proof. unfold compare.is_significant. rewrite set_value_type. reflexivity. Qed.

(** A trace and the same trace with one value changed: bitwise, the differ reports
    that register of that step and its two values. *)
Lemma change_detected (records : list Record_) (k : nat) (regId z w depth : Z) (r : Record_) :
  0 <= depth -> compare.significantRecords records !! k = Some r -> well_shaped r ->
  value_of r regId = Some z -> w <> z ->
  exists d history,
    compare.compareTraces records (replace_significant k (set_value r regId w) records)
      (fp_policy.areEqual "bitwise"%string) depth = Verdict.Diverged d history /\
    Divergence.kind d = KIND.REGISTER /\ Divergence.index d = k /\ Divergence.regId d = Some regId /\
    Divergence.expected d = z /\ Divergence.actual d = w.
Proof.
  intros Hdepth Hk Hw Hz Hne. set (eq := fp_policy.areEqual "bitwise"%string).
  set (r' := set_value r regId w). set (records' := replace_significant k r' records).
  set (l := compare.significantRecords records) in *.
  assert (compare.significantRecords records' = <[k := r']> l) as El'.
  { apply significant_replace. unfold r'. rewrite set_value_significant. eapply value_of_significant, Hz. }
  pose proof (lookup_lt_Some _ _ _ Hk) as Hklt.
  assert (forall s, ~ agrees eq (compare.apply s r) (compare.apply s r')) as Hdis.
  { intros s Ha. unfold eq in Ha. rewrite bitwise_agrees in Ha. specialize (Ha regId).
    destruct (set_value_get s r regId z w regId Hw Hz) as [E1 E2]. unfold r' in Ha.
    rewrite E1, E2, decide_True in Ha by reflexivity. congruence. }
  assert (replay RegisterState.new (take (S k) l) =
      compare.apply (replay RegisterState.new (take k l)) r /\
    replay RegisterState.new (take (S k) (<[k := r']> l)) =
      compare.apply (replay RegisterState.new (take k l)) r') as [Ek Ek'].
  { unfold replay. rewrite (take_S_r _ _ _ Hk), foldl_app.
    rewrite (take_S_r _ _ r') by (apply list_lookup_insert_eq; exact Hklt).
    rewrite foldl_app, take_insert_ge by lia. split; reflexivity. }
  destruct (compare.compareTraces records records' eq depth) as [steps h | d h] eqn:E.
  - exfalso.
    assert (Verdict.ok (compare.compareTraces records records' eq depth) = true) as Hok by (rewrite E; reflexivity).
    apply verdict_ok in Hok as [_ Hst]. fold l in Hst. rewrite El' in Hst.
    eapply Forall2_lookup_lr with (i := k) in Hst;
      [| apply states_lookup, Hklt | apply states_lookup; rewrite length_insert; exact Hklt].
    rewrite Ek, Ek' in Hst. exact (Hdis _ Hst).
  - exists d, h. split; [reflexivity |].
    destruct (diverged_first eq depth records records' d h Hdepth E) as (Hal & _ & Hcase).
    fold l in Hal, Hcase. rewrite El' in Hal, Hcase. cbv zeta in Hal, Hcase. set (i := Divergence.index d) in *.
    destruct Hcase as [(_ & _ & Hl) | (a & b & Ha & Hb & Hdiv)]; [rewrite length_insert in Hl; tauto |].
    destruct (Nat.lt_trichotomy i k) as [Hlt | [Heq | Hgt]].
    + exfalso. rewrite list_lookup_insert_ne in Hb by lia. rewrite Ha in Hb. injection Hb as <-.
      rewrite take_insert_ge in Hdiv by lia.
      destruct Hdiv as [[Hn _] | (_ & _ & id & _ & Hn & _)]; apply Hn.
      * unfold same_step. destruct a; auto.
      * left. reflexivity.
    + rewrite Heq in *. rewrite Hk in Ha. injection Ha as <-.
      rewrite list_lookup_insert_eq in Hb by exact Hklt. injection Hb as <-. rewrite Ek, Ek' in Hdiv.
      destruct Hdiv as [[Hn _] | (_ & Hkind & id & Hid & Hn & _ & He & Ha)];
        [destruct (Hn (set_value_step r regId w)) |].
      destruct (set_value_get (replay RegisterState.new (take k l)) r regId z w id Hw Hz) as [E1 E2].
      fold r' in E2. destruct (decide (id = regId)) as [-> | Hid'].
      * rewrite E1 in He. rewrite E2 in Ha. auto.
      * exfalso. apply Hn. left. rewrite E2. reflexivity.
    + exfalso. destruct Hal as [_ Hst].
      eapply Forall2_lookup_lr with (i := k) in Hst;
        [| apply states_lookup; rewrite length_take; lia
         | apply states_lookup; rewrite length_take, length_insert; lia].
      rewrite !take_take, !Nat.min_l in Hst by lia. rewrite Ek, Ek' in Hst. exact (Hdis _ Hst).
Qed.

Lemma file_shape (file : list Z) (h : Header) (records : list Record_) (r : Record_) (k : nat) :
  file_of file h records -> compare.significantRecords records !! k = Some r ->
  (forall p ic n ds, r = Block p ic n ds -> NoDup (RegDelta.reg_id <$> ds)) -> well_shaped r.
Proof.
  intros (head & chunks & _ & _ & _ & Hf) Hk Hnd. destruct r as [p ic n ds | e | | |]; try exact I.
  - exact (Hnd _ _ _ _ eq_refl).
  - apply list_elem_of_lookup_2 in Hk. unfold compare.significantRecords in Hk.
    apply list_elem_of_filter in Hk as [_ Hin].
    apply list_elem_of_lookup_1 in Hin as (i & Hi).
    destruct (Forall2_lookup_r _ _ _ _ _ Hf Hi) as (chunk & _ & Hc). eapply framed_shape, Hc.
Qed.
