(* ===== verification/Cpu.v ===== *)
(** The vCPU and the execution of one decoded instruction
    ([crates/core/src/interp/mod.rs], the types, and
    [crates/core/src/interp/dispatch.rs]). *)

From stdpp Require Import base numbers list option.
From S2P Require Import Prelude Reg Pstate RegFile Operand Op Instruction Decode Flags Fetch.
From S2P Require Import Memory Trap Cache TraceFormat TraceSink.

#[local] Open Scope Z_scope.

(** Why [Cpu::run] stopped. *)
Module Stop.

Inductive Stop : Type :=
| BudgetExhausted
| Trapped (trap : Trap).

End Stop.

Abbreviation Stop := Stop.Stop.

(** Whether an instruction set PC itself. *)
Module Flow.

Inductive Flow : Type := Next | Branched.

End Flow.

Abbreviation Flow := Flow.Flow.

Module Cpu.

Record Cpu (M S : Type) : Type := mk {
  regs : RegFile;
  memory : M;
  trap_log : TrapLog;
  sink : S;
  cache : DecodeCache;
  icount : Z;
  previous : option RegFile;
  deltas : DeltaBuffer
}.

Arguments mk {M S}.
Arguments regs {M S}.
Arguments memory {M S}.
Arguments trap_log {M S}.
Arguments sink {M S}.
Arguments cache {M S}.
Arguments icount {M S}.
Arguments previous {M S}.
Arguments deltas {M S}.

Section Fields.

Context {M S : Type}.

Definition with_sink (memory : M) (sink : S) : Cpu M S :=
  mk RegFile.new memory TrapLog.new sink DecodeCache.new 0 None DeltaBuffer.new.

Definition set_regs (self : Cpu M S) (r : RegFile) : Cpu M S :=
  mk r (memory self) (trap_log self) (sink self) (cache self) (icount self) (previous self)
    (deltas self).
Definition set_memory (self : Cpu M S) (m : M) : Cpu M S :=
  mk (regs self) m (trap_log self) (sink self) (cache self) (icount self) (previous self)
    (deltas self).
Definition set_trap_log (self : Cpu M S) (l : TrapLog) : Cpu M S :=
  mk (regs self) (memory self) l (sink self) (cache self) (icount self) (previous self)
    (deltas self).
Definition set_sink (self : Cpu M S) (s : S) : Cpu M S :=
  mk (regs self) (memory self) (trap_log self) s (cache self) (icount self) (previous self)
    (deltas self).
Definition set_cache (self : Cpu M S) (c : DecodeCache) : Cpu M S :=
  mk (regs self) (memory self) (trap_log self) (sink self) c (icount self) (previous self)
    (deltas self).
Definition set_icount (self : Cpu M S) (n : Z) : Cpu M S :=
  mk (regs self) (memory self) (trap_log self) (sink self) (cache self) n (previous self)
    (deltas self).
Definition set_previous (self : Cpu M S) (p : option RegFile) : Cpu M S :=
  mk (regs self) (memory self) (trap_log self) (sink self) (cache self) (icount self) p
    (deltas self).
Definition set_deltas (self : Cpu M S) (d : DeltaBuffer) : Cpu M S :=
  mk (regs self) (memory self) (trap_log self) (sink self) (cache self) (icount self)
    (previous self) d.

Definition decode_count (self : Cpu M S) : Z := DecodeCache.misses (cache self).

End Fields.

End Cpu.

Abbreviation Cpu := Cpu.Cpu.

(** ** Dispatch *)

Section Dispatch.

Context {M S : Type} `{Memory M} `{TraceSink S}.

(** What an arm does to the CPU, and what it answers. *)
Abbreviation arm A E := (may_panic (Cpu M S * result A E)).

Definition data_abort (pc address : Z) (is_write : bool) : Trap :=
  Trap.DataAbort pc address is_write.

Definition sign_extend (value bits : Z) : Z :=
  if 64 <=? bits then value
  else let shift := wsub 32 64 bits in sar64 (wshl 64 value shift) shift.

(** A [W]-form write zero-extends. *)
Definition write_result (cpu : Cpu M S) (rd : Gpr) (value : Z) (width : RegWidth) :
    may_panic (Cpu M S) :=
  regs ← (match width with
          | RegWidth.W32 => RegFile.write_w (Cpu.regs cpu) rd (as_u32 value)
          | RegWidth.X64 => RegFile.write_x (Cpu.regs cpu) rd value
          end);
  mret (Cpu.set_regs cpu regs).

Definition set_nzcv (cpu : Cpu M S) (flags : Nzcv) : Cpu M S :=
  let regs := Cpu.regs cpu in
  Cpu.set_regs cpu (RegFile.with_pstate regs (with_nzcv (RegFile.pstate regs) flags)).

(** The [match insn.form] of [arithmetic]: destination, first source and second
    operand, or no shape the arm knows. *)
Definition arithmetic_operands (cpu : Cpu M S) (insn : Instruction) :
    may_panic (option (Gpr * Gpr * Z)) :=
  match Instruction.form insn with
  | Form.RegImm rd rn imm => mret (Some (rd, rn, imm))
  | Form.RegShifted rd rn rm =>
      v ← read_shifted (Cpu.regs cpu) rm (Instruction.width insn); mret (Some (rd, rn, v))
  | Form.RegExtended rd rn rm =>
      v ← read_extended (Cpu.regs cpu) rm; mret (Some (rd, rn, v))
  | _ => mret None
  end.

Definition arithmetic (cpu : Cpu M S) (insn : Instruction) : arm Flow Trap :=
  let width := Instruction.width insn in
  operands ← arithmetic_operands cpu insn;
  match operands with
  | None => mret (cpu, Err (Trap.undefined (RegFile.pc (Cpu.regs cpu)) insn))
  | Some (rd, rn, operand) =>
      left ← read_gpr (Cpu.regs cpu) rn width;
      let is_sub := match Instruction.op insn with Op.Sub => true | _ => false end in
      let right := if is_sub then wnot 64 operand else operand in
      let result := add_with_carry (left, right) is_sub width in
      cpu ← write_result cpu rd (FlaggedResult.value result) width;
      let cpu :=
        if Instruction.sets_flags insn then set_nzcv cpu (FlaggedResult.flags result)
        else cpu in
      mret (cpu, Ok Flow.Next)
  end.

(** The [match insn.form] of [logical]. *)
Definition logical_operands (cpu : Cpu M S) (insn : Instruction) :
    may_panic (option (Gpr * Gpr * Z)) :=
  match Instruction.form insn with
  | Form.RegImm rd rn imm => mret (Some (rd, rn, imm))
  | Form.RegShifted rd rn rm =>
      v ← read_shifted (Cpu.regs cpu) rm (Instruction.width insn); mret (Some (rd, rn, v))
  | _ => mret None
  end.

Definition logical (cpu : Cpu M S) (insn : Instruction) : arm Flow Trap :=
  let width := Instruction.width insn in
  operands ← logical_operands cpu insn;
  match operands with
  | None => mret (cpu, Err (Trap.undefined (RegFile.pc (Cpu.regs cpu)) insn))
  | Some (rd, rn, operand) =>
      left ← read_gpr (Cpu.regs cpu) rn width;
      let value :=
        match Instruction.op insn with
        | Op.And => Z.land left operand
        | Op.Bic => Z.land left (wnot 64 operand)
        | Op.Orr => Z.lor left operand
        | Op.Orn => Z.lor left (wnot 64 operand)
        | Op.Eor => Z.lxor left operand
        | _ => Z.lxor left (wnot 64 operand)
        end in
      cpu ← write_result cpu rd value width;
      let cpu :=
        if Instruction.sets_flags insn then set_nzcv cpu (logical_flags value width)
        else cpu in
      mret (cpu, Ok Flow.Next)
  end.

Definition branch_immediate (cpu : Cpu M S) (insn : Instruction) (pc : Z) : arm Flow Trap :=
  match Instruction.form insn with
  | Form.Branch offset =>
      regs ← (match Instruction.op insn with
              | Op.Bl => RegFile.write_x (Cpu.regs cpu) (Gpr.X 30) (wadd 64 pc INSN_BYTES)
              | _ => mret (Cpu.regs cpu)
              end);
      mret (Cpu.set_regs cpu (RegFile.set_pc regs (wadd 64 pc (as_u64 offset))),
            Ok Flow.Branched)
  | _ => mret (cpu, Err (Trap.undefined pc insn))
  end.

Definition branch_register (cpu : Cpu M S) (insn : Instruction) (pc : Z) : arm Flow Trap :=
  match Instruction.form insn with
  | Form.BranchIndirect rn =>
      target ← RegFile.read_x (Cpu.regs cpu) rn;
      regs ← (match Instruction.op insn with
              | Op.Blr => RegFile.write_x (Cpu.regs cpu) (Gpr.X 30) (wadd 64 pc INSN_BYTES)
              | _ => mret (Cpu.regs cpu)
              end);
      mret (Cpu.set_regs cpu (RegFile.set_pc regs target), Ok Flow.Branched)
  | _ => mret (cpu, Err (Trap.undefined pc insn))
  end.

(** Moves one register's worth of data in the named direction. *)
Definition transfer (cpu : Cpu M S) (access : Gpr * Z * bool) (insn : Instruction)
    (size : AccessSize) : arm unit AccessFault :=
  let '(rt, address, is_write) := access in
  if is_write : bool then
    value ← read_gpr (Cpu.regs cpu) rt (Instruction.width insn);
    '(memory, outcome) ← write_uint (Cpu.memory cpu) address (AccessSize.bytes size) value;
    mret (Cpu.set_memory cpu memory, outcome)
  else
    outcome ← read_uint (Cpu.memory cpu) address (AccessSize.bytes size);
    match outcome with
    | Err fault => mret (cpu, Err fault)
    | Ok raw =>
        let value :=
          if AccessSize.is_signed size
          then sign_extend raw (wmul 32 (AccessSize.bytes size) 8)
          else raw in
        cpu ← write_result cpu rt value (Instruction.width insn);
        mret (cpu, Ok tt)
    end.

Definition load_store (cpu : Cpu M S) (insn : Instruction) (pc : Z) : arm Flow Trap :=
  match Instruction.form insn with
  | Form.LoadStore rt None _ addr size _ =>
      computed ← effective_address (Cpu.regs cpu) addr pc;
      let is_write := match Instruction.op insn with Op.Str => true | _ => false end in
      '(cpu, outcome) ←
        transfer cpu (rt, EffectiveAddress.address computed, is_write) insn size;
      match map_err (fun _ : AccessFault =>
                       data_abort pc (EffectiveAddress.address computed) is_write) outcome with
      | Err trap => mret (cpu, Err trap)
      | Ok _ =>
          regs ← (match EffectiveAddress.writeback computed with
                  | Some (base, value) => RegFile.write_x (Cpu.regs cpu) base value
                  | None => mret (Cpu.regs cpu)
                  end);
          mret (Cpu.set_regs cpu regs, Ok Flow.Next)
      end
  | _ => mret (cpu, Err (Trap.undefined pc insn))
  end.

Definition supervisor_call (insn : Instruction) (pc : Z) : Trap :=
  match Instruction.form insn with
  | Form.Imm imm => Trap.SupervisorCall pc (as_u16 imm)
  | _ => Trap.undefined pc insn
  end.

Definition breakpoint (insn : Instruction) (pc : Z) : Trap :=
  match Instruction.form insn with
  | Form.Imm imm => Trap.Breakpoint pc (as_u16 imm)
  | _ => Trap.undefined pc insn
  end.

Definition execute (cpu : Cpu M S) (insn : Instruction) (pc : Z) : arm Flow Trap :=
  match Instruction.op insn with
  | Op.Add | Op.Sub => arithmetic cpu insn
  | Op.And | Op.Orr | Op.Eor | Op.Bic | Op.Orn | Op.Eon => logical cpu insn
  | Op.B | Op.Bl => branch_immediate cpu insn pc
  | Op.Br | Op.Blr | Op.Ret => branch_register cpu insn pc
  | Op.Nop => mret (cpu, Ok Flow.Next)
  | Op.Ldr | Op.Str => load_store cpu insn pc
  | Op.Svc => mret (cpu, Err (supervisor_call insn pc))
  | Op.Brk => mret (cpu, Err (breakpoint insn pc))
  | _ => mret (cpu, Err (Trap.undefined pc insn))
  end.

End Dispatch.
