(* ===== verification/Interp.v ===== *)
(** The interpreter loop ([crates/core/src/interp/mod.rs]). *)

From stdpp Require Import base numbers list option.
From S2P Require Import Prelude Reg Pstate RegFile Operand Op Instruction Decode Flags Fetch.
From S2P Require Import Memory Trap Cache TraceFormat TraceSink Cpu.

#[local] Open Scope Z_scope.

Section Interp.

Context {M S : Type} `{Memory M} `{TraceSink S}.

Definition fetch (self : Cpu M S) (pc : Z) : may_panic (result Z Trap) :=
  outcome ← mem_read (Cpu.memory self) pc (replicate 4 0);
  match outcome with
  | Err _ => mret (Err (Trap.InstructionAbort pc))
  | Ok word => mret (Ok (from_le_bytes word))
  end.

(** The trace work of a step, before the instruction runs. *)
Definition emit_block (self : Cpu M S) (pc : Z) : may_panic (Cpu M S) :=
  if ENABLED (S := S) then
    deltas ← deltas_between (Cpu.previous self) (Cpu.regs self) (Cpu.deltas self);
    view ← DeltaBuffer.as_slice deltas;
    sink ← on_block (Cpu.sink self) pc (Cpu.icount self) view;
    mret (Cpu.set_previous (Cpu.set_sink (Cpu.set_deltas self deltas) sink)
            (Some (Cpu.regs self)))
  else mret self.

Definition step (self : Cpu M S) : may_panic (Cpu M S * result unit Trap) :=
  let pc := RegFile.pc (Cpu.regs self) in
  fetched ← fetch self pc;
  match fetched with
  | Err trap => mret (self, Err trap)
  | Ok encoding =>
      '(cache, insn) ← DecodeCache.decoded (Cpu.cache self) pc encoding;
      self ← emit_block (Cpu.set_cache self cache) pc;
      '(self, outcome) ← execute self insn pc;
      match outcome with
      | Ok flow =>
          let self :=
            match flow with
            | Flow.Next =>
                Cpu.set_regs self (RegFile.set_pc (Cpu.regs self) (wadd 64 pc INSN_BYTES))
            | Flow.Branched => self
            end in
          mret (Cpu.set_icount self (wadd 64 (Cpu.icount self) 1), Ok tt)
      | Err trap =>
          log ← TrapLog.record_trap (Cpu.trap_log self) trap;
          mret (Cpu.set_trap_log self log, Err trap)
      end
  end.

(** [budget] iterations of the loop at most; the [u64] budget is the fuel. *)
Fixpoint run (budget : nat) (self : Cpu M S) : may_panic (Cpu M S * Stop) :=
  match budget with
  | O => mret (self, Stop.BudgetExhausted)
  | Datatypes.S budget =>
      '(self, outcome) ← step self;
      match outcome with
      | Err trap => mret (self, Stop.Trapped trap)
      | Ok _ => run budget self
      end
  end.

(** Reports an exception entry. *)
Definition on_exception_entry (self : Cpu M S) (from_pc to_pc : Z) (discon : DisconType) :
    may_panic (Cpu M S) :=
  if ENABLED (S := S) then
    sink ← on_exception (Cpu.sink self)
             (ExceptionEvent.mk (Cpu.icount self) from_pc to_pc discon (Cpu.regs self));
    mret (Cpu.set_previous (Cpu.set_sink self sink) None)
  else mret self.

End Interp.
