(* ===== verification/Isa.v ===== *)
(** What the implemented instructions mean: the architecture's state as
    mathematical objects and one total step on it.

    This is the specification the interpreter is measured against
    ([Refine.v]).  It has no register file, no cache, no machine words: a
    register valuation, a partial byte map, and integers read at a width. *)

From stdpp Require Import base numbers list option.
From S2P Require Import Prelude Reg Pstate RegFile Operand Op Instruction Decode Flags Fetch.
From S2P Require Import Memory Trap.

#[local] Open Scope Z_scope.

Record isa_state : Type := {
  isa_reg : Gpr -> Z;
  isa_pc : Z;
  isa_nzcv : Nzcv;
  isa_mem : Z -> option Z
}.

Inductive isa_outcome : Type :=
| Continue (s : isa_state)
| Raise (t : Trap).

(** A register write; the zero register discards it. *)
Definition upd (f : Gpr -> Z) (rd : Gpr) (v : Z) (r : Gpr) : Z :=
  if decide (r = rd) then (if Gpr.is_zero rd then f r else v) else f r.

Definition isa_write (s : isa_state) (rd : Gpr) (v : Z) : isa_state :=
  {| isa_reg := upd (isa_reg s) rd v; isa_pc := isa_pc s; isa_nzcv := isa_nzcv s;
     isa_mem := isa_mem s |}.
Definition isa_jump (s : isa_state) (pc : Z) : isa_state :=
  {| isa_reg := isa_reg s; isa_pc := pc; isa_nzcv := isa_nzcv s; isa_mem := isa_mem s |}.
Definition isa_set_nzcv (s : isa_state) (f : Nzcv) : isa_state :=
  {| isa_reg := isa_reg s; isa_pc := isa_pc s; isa_nzcv := f; isa_mem := isa_mem s |}.
Definition isa_store (s : isa_state) (a : Z) (bs : list Z) : isa_state :=
  {| isa_reg := isa_reg s; isa_pc := isa_pc s; isa_nzcv := isa_nzcv s;
     isa_mem := store_bytes (isa_mem s) a bs |}.

(** On to the next instruction. *)
Definition isa_next (s : isa_state) : isa_state := isa_jump s (as_u64 (isa_pc s + 4)).

(** The second operand of a data-processing instruction. *)
Definition isa_shifted (s : isa_state) (w : RegWidth) (rm : ShiftedReg) : Z :=
  shift_value w (ShiftedReg.kind rm) (ShiftedReg.amount rm)
    (uval w (isa_reg s (ShiftedReg.reg rm))).
Definition isa_extended (s : isa_state) (rm : ExtendedReg) : Z :=
  extended_value (ExtendedReg.kind rm) (isa_reg s (ExtendedReg.reg rm)) *
  2 ^ ExtendedReg.amount rm.

(** A result written, with its flags when the instruction sets them. *)
Definition isa_result (s : isa_state) (insn : Instruction) (rd : Gpr) (res : FlaggedResult) :
    isa_outcome :=
  let s' := isa_write s rd (FlaggedResult.value res) in
  Continue (isa_next (if Instruction.sets_flags insn
                      then isa_set_nzcv s' (FlaggedResult.flags res) else s')).

Definition sum_value (op : Op) (w : RegWidth) (l r : Z) : FlaggedResult :=
  match op with
  | Op.Sub => spec_subtract w l r
  | _ => spec_add_with_carry w l r false
  end.

Definition isa_arithmetic (s : isa_state) (insn : Instruction) : isa_outcome :=
  let w := Instruction.width insn in
  let finish rd rn operand :=
    isa_result s insn rd (sum_value (Instruction.op insn) w (isa_reg s rn) operand) in
  match Instruction.form insn with
  | Form.RegImm rd rn imm => finish rd rn imm
  | Form.RegShifted rd rn rm => finish rd rn (isa_shifted s w rm)
  | Form.RegExtended rd rn rm => finish rd rn (isa_extended s rm)
  | _ => Raise (Trap.undefined (isa_pc s) insn)
  end.

Definition logic_value (op : Op) (l r : Z) : Z :=
  match op with
  | Op.And => Z.land l r
  | Op.Bic => Z.land l (Z.lnot r)
  | Op.Orr => Z.lor l r
  | Op.Orn => Z.lor l (Z.lnot r)
  | Op.Eor => Z.lxor l r
  | _ => Z.lxor l (Z.lnot r)
  end.

Definition logic_result (op : Op) (w : RegWidth) (l r : Z) : FlaggedResult :=
  let v := uval w (logic_value op l r) in
  FlaggedResult.mk v (Nzcv.mk (sval w v <? 0) (v =? 0) false false).

Definition isa_logical (s : isa_state) (insn : Instruction) : isa_outcome :=
  let w := Instruction.width insn in
  let finish rd rn operand :=
    isa_result s insn rd (logic_result (Instruction.op insn) w (isa_reg s rn) operand) in
  match Instruction.form insn with
  | Form.RegImm rd rn imm => finish rd rn imm
  | Form.RegShifted rd rn rm => finish rd rn (isa_shifted s w rm)
  | _ => Raise (Trap.undefined (isa_pc s) insn)
  end.

(** The return address, for the linking branches. *)
Definition isa_link (s : isa_state) (links : bool) : isa_state :=
  if links then isa_write s (Gpr.X 30) (as_u64 (isa_pc s + 4)) else s.

Definition isa_branch (s : isa_state) (insn : Instruction) : isa_outcome :=
  match Instruction.form insn with
  | Form.Branch offset =>
      Continue (isa_jump
        (isa_link s (match Instruction.op insn with Op.Bl => true | _ => false end))
        (as_u64 (isa_pc s + offset)))
  | _ => Raise (Trap.undefined (isa_pc s) insn)
  end.

Definition isa_branch_register (s : isa_state) (insn : Instruction) : isa_outcome :=
  match Instruction.form insn with
  | Form.BranchIndirect rn =>
      Continue (isa_jump
        (isa_link s (match Instruction.op insn with Op.Blr => true | _ => false end))
        (isa_reg s rn))
  | _ => Raise (Trap.undefined (isa_pc s) insn)
  end.

Definition isa_writeback (s : isa_state) (wb : option (Gpr * Z)) : isa_state :=
  match wb with Some (base, v) => isa_write s base v | None => s end.

Definition isa_load_store (s : isa_state) (insn : Instruction) : isa_outcome :=
  let w := Instruction.width insn in
  match Instruction.form insn with
  | Form.LoadStore rt None _ addr size _ =>
      let ea := spec_effective_address (isa_reg s) addr (isa_pc s) in
      let address := EffectiveAddress.address ea in
      let n := Z.to_nat (AccessSize.bytes size) in
      let is_write := match Instruction.op insn with Op.Str => true | _ => false end in
      match bytes_at (isa_mem s) address n with
      | None => Raise (Trap.DataAbort (isa_pc s) address is_write)
      | Some bs =>
          let raw := from_le_bytes bs in
          let loaded :=
            if AccessSize.is_signed size then to_signed (8 * AccessSize.bytes size) raw else raw in
          let s' :=
            if is_write
            then isa_store s address (to_le_bytes n (uval w (isa_reg s rt)))
            else isa_write s rt (uval w loaded) in
          Continue (isa_next (isa_writeback s' (EffectiveAddress.writeback ea)))
      end
  | _ => Raise (Trap.undefined (isa_pc s) insn)
  end.

Definition isa_exec (s : isa_state) (insn : Instruction) : isa_outcome :=
  match Instruction.op insn with
  | Op.Add | Op.Sub => isa_arithmetic s insn
  | Op.And | Op.Orr | Op.Eor | Op.Bic | Op.Orn | Op.Eon => isa_logical s insn
  | Op.B | Op.Bl => isa_branch s insn
  | Op.Br | Op.Blr | Op.Ret => isa_branch_register s insn
  | Op.Nop => Continue (isa_next s)
  | Op.Ldr | Op.Str => isa_load_store s insn
  | Op.Svc =>
      match Instruction.form insn with
      | Form.Imm imm => Raise (Trap.SupervisorCall (isa_pc s) imm)
      | _ => Raise (Trap.undefined (isa_pc s) insn)
      end
  | Op.Brk =>
      match Instruction.form insn with
      | Form.Imm imm => Raise (Trap.Breakpoint (isa_pc s) imm)
      | _ => Raise (Trap.undefined (isa_pc s) insn)
      end
  | _ => Raise (Trap.undefined (isa_pc s) insn)
  end.

(** The instruction a word is; [decode] never panics. *)
Definition decode_word (e : Z) : Instruction :=
  match decode e with Done i => i | Panic => unallocated e end.

Definition isa_step (s : isa_state) : isa_outcome :=
  match bytes_at (isa_mem s) (isa_pc s) 4 with
  | None => Raise (Trap.InstructionAbort (isa_pc s))
  | Some word => isa_exec s (decode_word (from_le_bytes word))
  end.

(** At most [n] steps: the state reached, the number retired, and the trap
    that stopped it. *)
Fixpoint isa_run (n : nat) (s : isa_state) : isa_state * nat * option Trap :=
  match n with
  | O => (s, O, None)
  | S n =>
      match isa_step s with
      | Raise t => (s, O, Some t)
      | Continue s' => let '(s'', k, t) := isa_run n s' in (s'', S k, t)
      end
  end.

Lemma decode_word_eq (e : Z) : decode e = Done (decode_word e).
Proof. destruct (decode_returns e) as (i & Hi & _). unfold decode_word. rewrite Hi. reflexivity. Qed.

Lemma decode_word_ok (e : Z) : decoded_ok e (decode_word e).
Proof. apply decode_done_ok, decode_word_eq. Qed.
