(* ===== verification/Refine.v ===== *)
(** The interpreter refines the architecture ([Isa.v]): simulation of every
    arm of the dispatch, of a step and of a run. *)

From stdpp Require Import base numbers list option.
From S2P Require Import Prelude Reg Pstate RegFile Operand Op Instruction Decode Flags Fetch.
From S2P Require Import Memory Trap Cache TraceFormat TraceSink Cpu Interp Isa.

#[local] Open Scope Z_scope.

(** ** Writes to the register file *)

Lemma reg_value_done (r : RegFile) (reg : Gpr) (x : Z) :
  RegFile.read_x r reg = Done x -> reg_value r reg = x.
Proof. unfold reg_value. intros ->. reflexivity. Qed.

Lemma write_x_value (r : RegFile) (rd : Gpr) (v : Z) :
  regfile_ok r -> gpr_ok rd -> in_range 64 v ->
  exists r', RegFile.write_x r rd v = Done r' /\ regfile_ok r' /\ same_but_gpr r r' /\
    forall reg, gpr_ok reg -> reg_value r' reg = upd (reg_value r) rd v reg.
Proof.
  intros Hr Hrd Hv. destruct (write_x_returns r rd v Hr Hrd Hv) as (r' & Hw & Hr' & Hsame).
  exists r'. split; [exact Hw |]. split; [exact Hr' |]. split; [exact Hsame |].
  intros reg Hreg. unfold reg_value. rewrite (read_x_write_x _ _ _ _ _ Hw Hreg). unfold upd.
  destruct (decide (rd = reg)) as [-> | Hne].
  - rewrite decide_True by reflexivity. destruct reg; reflexivity.
  - rewrite decide_False by congruence. reflexivity.
Qed.

(** ** Widths *)

Lemma uval_x64 (v : Z) : in_range 64 v -> uval RegWidth.X64 v = v.
Proof. apply wrap_small. Qed.

Lemma uval_uval (w : RegWidth) (x : Z) : uval w (uval w x) = uval w x.
Proof. apply wrap_wrap. Qed.

Lemma uval_in_range (w : RegWidth) (x : Z) : in_range 64 (uval w x).
Proof. apply in_range_weaken with (RegWidth.bits w); [apply width_bits_le | apply uval_range]. Qed.

Lemma uval_as_u64 (w : RegWidth) (x : Z) : uval w (as_u64 x) = uval w x.
Proof. apply wrap_u64. Qed.

Lemma uval_testbit (w : RegWidth) (x i : Z) :
  Z.testbit (uval w x) i = (i <? RegWidth.bits w) && Z.testbit x i.
Proof. apply wrap_testbit. destruct w; cbn; lia. Qed.

(** ** States *)

(** The memory and the registers of a CPU, replaced. *)
Definition with_state {M S} (cpu : Cpu M S) (r : RegFile) (m : M) : Cpu M S :=
  Cpu.set_memory (Cpu.set_regs cpu r) m.

Section Refinement.

Context {M S : Type} `{MemoryLaws M} `{TraceSink S}.

(** A register file and a memory represent an architectural state. *)
Record represents (r : RegFile) (m : M) (s : isa_state) : Prop := {
  rep_regfile : regfile_ok r;
  rep_memory : mem_ok m;
  rep_reg : forall reg, gpr_ok reg -> reg_value r reg = isa_reg s reg;
  rep_pc : RegFile.pc r = isa_pc s;
  rep_nzcv : Pstate.nzcv (RegFile.pstate r) = isa_nzcv s;
  rep_mem : forall a, byte_at m a = isa_mem s a
}.

(** PC after an arm: the loop advances it unless the arm branched. *)
Definition advance (r : RegFile) (flow : Flow) (pc : Z) : RegFile :=
  match flow with
  | Flow.Next => RegFile.set_pc r (wadd 64 pc INSN_BYTES)
  | Flow.Branched => r
  end.

(** What an arm has to answer when the architecture's outcome is [o]: on a trap
    nothing has changed, otherwise the state it leaves represents the next one. *)
Definition arm_ok (cpu : Cpu M S) (pc : Z) (o : isa_outcome) (p : Cpu M S * result Flow Trap) : Prop :=
  match o, p.2 with
  | Raise t, Err t' => t' = t /\ p.1 = cpu
  | Continue s', Ok flow =>
      exists r m, p.1 = with_state cpu r m /\ represents (advance r flow pc) m s'
  | _, _ => False
  end.

Lemma rep_pc_range (r : RegFile) (m : M) (s : isa_state) : represents r m s -> in_range 64 (isa_pc s).
Proof. intros Hrep. rewrite <- (rep_pc _ _ _ Hrep). apply ok_pc, (rep_regfile _ _ _ Hrep). Qed.

Lemma as_u64_range (x : Z) : in_range 64 (as_u64 x).
Proof. apply wrap_range. lia. Qed.

Lemma represents_write (r r' : RegFile) (m : M) (s : isa_state) (rd : Gpr) (v : Z) :
  represents r m s -> regfile_ok r' -> same_but_gpr r r' ->
  (forall reg, gpr_ok reg -> reg_value r' reg = upd (reg_value r) rd v reg) ->
  represents r' m (isa_write s rd v).
Proof.
  intros [Hr Hm Hreg Hpc Hf Hb] Hr' (Ep & _ & Es & _) Hv. split; cbn; try assumption.
  - intros reg Hok. rewrite Hv by exact Hok. unfold upd.
    destruct (decide (reg = rd)); rewrite Hreg by exact Hok; reflexivity.
  - rewrite Ep. exact Hpc.
  - rewrite Es. exact Hf.
Qed.

Lemma represents_jump (r : RegFile) (m : M) (s : isa_state) (pc : Z) :
  represents r m s -> in_range 64 pc -> represents (RegFile.set_pc r pc) m (isa_jump s pc).
Proof.
  intros [Hr Hm Hreg Hpc Hf Hb] Hrange. split; cbn; try assumption; try reflexivity.
  apply regfile_ok_set_pc; assumption.
Qed.

Lemma represents_nzcv (r : RegFile) (m : M) (s : isa_state) (f : Nzcv) :
  represents r m s ->
  represents (RegFile.with_pstate r (with_nzcv (RegFile.pstate r) f)) m (isa_set_nzcv s f).
Proof.
  intros [Hr Hm Hreg Hpc Hf Hb]. split; cbn; try assumption; try reflexivity.
  apply regfile_ok_with_pstate, Hr.
Qed.

Lemma represents_store (r : RegFile) (m m' : M) (s : isa_state) (a : Z) (bs : list Z) :
  represents r m s -> mem_ok m' -> (forall x, byte_at m' x = store_bytes (byte_at m) a bs x) ->
  represents r m' (isa_store s a bs).
Proof.
  intros [Hr Hm Hreg Hpc Hf Hb] Hm' Hx. split; cbn; try assumption.
  intros x. rewrite Hx. unfold store_bytes. rewrite Hb. reflexivity.
Qed.

(** The loop's own PC update. *)
Lemma represents_next (r : RegFile) (m : M) (s : isa_state) (pc : Z) :
  represents r m s -> isa_pc s = pc ->
  represents (advance r Flow.Next pc) m (isa_next s).
Proof.
  intros Hrep <-. unfold advance, isa_next, wadd, INSN_BYTES. fold (as_u64 (isa_pc s + 4)).
  apply represents_jump; [exact Hrep | apply as_u64_range].
Qed.

Lemma bytes_at_mem (r : RegFile) (m : M) (s : isa_state) (a : Z) (n : nat) :
  represents r m s -> bytes_at (byte_at m) a n = bytes_at (isa_mem s) a n.
Proof. intros Hrep. apply bytes_at_ext. intros i _. apply (rep_mem _ _ _ Hrep). Qed.

(** Writing a result at the operand width. *)
Lemma write_result_refines (cpu : Cpu M S) (s : isa_state) (rd : Gpr) (v : Z) (w : RegWidth) :
  represents (Cpu.regs cpu) (Cpu.memory cpu) s -> gpr_ok rd -> in_range 64 v ->
  exists r', write_result cpu rd v w = Done (Cpu.set_regs cpu r') /\
    represents r' (Cpu.memory cpu) (isa_write s rd (uval w v)).
Proof.
  intros Hrep Hrd Hv.
  assert (exists r', (match w with
          | RegWidth.W32 => RegFile.write_w (Cpu.regs cpu) rd (as_u32 v)
          | RegWidth.X64 => RegFile.write_x (Cpu.regs cpu) rd v end) = Done r' /\
          represents r' (Cpu.memory cpu) (isa_write s rd (uval w v))) as (r' & Hw & Hr').
  { assert (exists v', (match w with
          | RegWidth.W32 => RegFile.write_w (Cpu.regs cpu) rd (as_u32 v)
          | RegWidth.X64 => RegFile.write_x (Cpu.regs cpu) rd v end) =
          RegFile.write_x (Cpu.regs cpu) rd v' /\ v' = uval w v) as (v' & -> & ->).
    { destruct w; eexists; (split; [reflexivity |]).
      - apply wrap_small. apply in_range_weaken with 32; [lia | apply (uval_range RegWidth.W32)].
      - symmetry. apply uval_x64, Hv. }
    destruct (write_x_value (Cpu.regs cpu) rd (uval w v) (rep_regfile _ _ _ Hrep) Hrd
                (uval_in_range w v)) as (r' & Hw & Hok & Hsame & Hval).
    exists r'. split; [exact Hw |]. eapply represents_write; eassumption. }
  exists r'. split; [| exact Hr']. unfold write_result. rewrite Hw. reflexivity.
Qed.

(** ** Data processing *)

Lemma spec_add_congr (w : RegWidth) (l l' r r' : Z) (c : bool) :
  uval w l = uval w l' -> uval w r = uval w r' ->
  spec_add_with_carry w l r c = spec_add_with_carry w l' r' c.
Proof.
  intros Hl Hr. unfold spec_add_with_carry.
  rewrite Hl, Hr, (sval_congr w l l' Hl), (sval_congr w r r' Hr). reflexivity.
Qed.

Lemma spec_subtract_congr (w : RegWidth) (l l' r r' : Z) :
  uval w l = uval w l' -> uval w r = uval w r' -> spec_subtract w l r = spec_subtract w l' r'.
Proof.
  intros Hl Hr. unfold spec_subtract.
  assert (uval w (l - r) = uval w (l' - r')) as Hd
    by (rewrite <- (uval_sub_uval w l r), <- (uval_sub_uval w l' r'), Hl, Hr; reflexivity).
  rewrite Hd, Hl, Hr, (sval_congr w l l' Hl), (sval_congr w r r' Hr), (sval_congr w _ _ Hd).
  reflexivity.
Qed.

(** The register write, the flag update and the PC of a data-processing arm. *)
Lemma finish_result (cpu : Cpu M S) (s : isa_state) (insn : Instruction) (rd : Gpr) (v : Z)
    (res : FlaggedResult) :
  represents (Cpu.regs cpu) (Cpu.memory cpu) s -> gpr_ok rd -> in_range 64 v ->
  uval (Instruction.width insn) v = FlaggedResult.value res ->
  returns
    (cpu ← write_result cpu rd v (Instruction.width insn);
     mret (if Instruction.sets_flags insn then set_nzcv cpu (FlaggedResult.flags res) else cpu,
           Ok Flow.Next))
    (arm_ok cpu (isa_pc s) (isa_result s insn rd res)).
Proof.
  intros Hrep Hrd Hv Hval.
  destruct (write_result_refines cpu s rd v (Instruction.width insn) Hrep Hrd Hv)
    as (r' & -> & Hrep').
  rewrite Hval in Hrep'. cbn [mbind may_panic_bind]. apply returns_ret.
  unfold isa_result, arm_ok. cbn [snd fst]. destruct (Instruction.sets_flags insn).
  - exists (RegFile.with_pstate r' (with_nzcv (RegFile.pstate r') (FlaggedResult.flags res))),
      (Cpu.memory cpu).
    split; [destruct cpu; reflexivity |]. apply represents_next; [| reflexivity].
    apply represents_nzcv, Hrep'.
  - exists r', (Cpu.memory cpu). split; [destruct cpu; reflexivity |].
    apply represents_next; [exact Hrep' | reflexivity].
Qed.

Section Arms.

Context (cpu : Cpu M S) (s : isa_state) (insn : Instruction).

Hypothesis Hrep : represents (Cpu.regs cpu) (Cpu.memory cpu) s.
Hypothesis Hform : form_ok (Instruction.width insn) (Instruction.form insn).

Let Hr : regfile_ok (Cpu.regs cpu) := rep_regfile _ _ _ Hrep.
Let pc := isa_pc s.

Lemma shifted_refines (rm : ShiftedReg) :
  shifted_ok (Instruction.width insn) rm ->
  read_shifted (Cpu.regs cpu) rm (Instruction.width insn) =
  Done (isa_shifted s (Instruction.width insn) rm).
Proof.
  intros Hok. rewrite read_shifted_value by assumption. unfold isa_shifted.
  rewrite (rep_reg _ _ _ Hrep) by apply Hok. reflexivity.
Qed.

Lemma extended_refines (rm : ExtendedReg) :
  extended_ok rm -> read_extended (Cpu.regs cpu) rm = Done (as_u64 (isa_extended s rm)).
Proof.
  intros Hok. rewrite read_extended_value by assumption. unfold isa_extended.
  rewrite (rep_reg _ _ _ Hrep) by apply Hok. reflexivity.
Qed.

Lemma gpr_refines (reg : Gpr) :
  gpr_ok reg ->
  read_gpr (Cpu.regs cpu) reg (Instruction.width insn) =
  Done (uval (Instruction.width insn) (isa_reg s reg)).
Proof.
  intros Hok. rewrite read_gpr_value by assumption. rewrite (rep_reg _ _ _ Hrep) by exact Hok.
  reflexivity.
Qed.

Lemma raise_refines (t : Trap) : returns (mret (cpu, Err t)) (arm_ok cpu pc (Raise t)).
Proof. apply returns_ret. split; reflexivity. Qed.

(** [l op r] on the code's words. *)
Lemma sum_refines (rn : Gpr) (v v' : Z) :
  uval (Instruction.width insn) v = uval (Instruction.width insn) v' ->
  add_with_carry
    (uval (Instruction.width insn) (isa_reg s rn),
     if match Instruction.op insn with Op.Sub => true | _ => false end then wnot 64 v else v)
    (match Instruction.op insn with Op.Sub => true | _ => false end) (Instruction.width insn) =
  sum_value (Instruction.op insn) (Instruction.width insn) (isa_reg s rn) v'.
Proof.
  intros Hv. destruct (Instruction.op insn); cbv iota;
    first [ rewrite add_with_carry_correct; apply spec_add_congr
          | rewrite subtract_correct; apply spec_subtract_congr ];
    first [exact Hv | apply uval_uval].
Qed.

Lemma sum_value_range (op : Op) (w : RegWidth) (l r : Z) :
  uval w (FlaggedResult.value (sum_value op w l r)) = FlaggedResult.value (sum_value op w l r) /\
  in_range 64 (FlaggedResult.value (sum_value op w l r)).
Proof. destruct op; (split; [apply uval_uval | apply uval_in_range]). Qed.

(** What the [match] on the form finds. *)
Lemma arithmetic_operands_refine :
  (exists rd rn v v', gpr_ok rd /\ gpr_ok rn /\
     uval (Instruction.width insn) v = uval (Instruction.width insn) v' /\
     arithmetic_operands cpu insn = Done (Some (rd, rn, v)) /\
     isa_arithmetic s insn =
       isa_result s insn rd
         (sum_value (Instruction.op insn) (Instruction.width insn) (isa_reg s rn) v')) \/
  (arithmetic_operands cpu insn = Done None /\
   isa_arithmetic s insn = Raise (Trap.undefined (isa_pc s) insn)).
Proof.
  unfold arithmetic_operands, isa_arithmetic.
  destruct (Instruction.form insn); cbn [form_ok] in Hform;
    try (right; split; reflexivity); left; destruct Hform as (? & ? & Hop).
  - exists rd, rn, imm, imm. repeat split; assumption.
  - rewrite shifted_refines by exact Hop. exists rd, rn. do 2 eexists.
    repeat split; assumption || reflexivity.
  - rewrite extended_refines by exact Hop.
    exists rd, rn, (as_u64 (isa_extended s rm)), (isa_extended s rm).
    repeat split; try assumption. apply uval_as_u64.
Qed.

Lemma arithmetic_refines : returns (arithmetic cpu insn) (arm_ok cpu pc (isa_arithmetic s insn)).
Proof.
  unfold arithmetic. cbv zeta.
  destruct arithmetic_operands_refine as [(rd & rn & v & v' & Hrd & Hrn & Hv & -> & ->) | [-> ->]];
    cbn [mbind may_panic_bind].
  - rewrite gpr_refines by exact Hrn. cbn [mbind may_panic_bind].
    rewrite (sum_refines rn v v' Hv).
    apply finish_result; try assumption; apply sum_value_range.
  - rewrite (rep_pc _ _ _ Hrep). apply raise_refines.
Qed.

(** The operand of a logical instruction is a machine word. *)
Lemma logical_operands_refine :
  (exists rd rn v, gpr_ok rd /\ gpr_ok rn /\ in_range 64 v /\
     logical_operands cpu insn = Done (Some (rd, rn, v)) /\
     isa_logical s insn =
       isa_result s insn rd
         (logic_result (Instruction.op insn) (Instruction.width insn) (isa_reg s rn) v)) \/
  (logical_operands cpu insn = Done None /\
   isa_logical s insn = Raise (Trap.undefined (isa_pc s) insn)).
Proof.
  unfold logical_operands, isa_logical.
  destruct (Instruction.form insn); cbn [form_ok] in Hform;
    try (right; split; reflexivity); left; destruct Hform as (? & ? & Hop).
  - exists rd, rn, imm. split; [assumption |]. split; [assumption |]. split; [| split; reflexivity].
    destruct (Instruction.width insn); cbn in Hop; split; lia.
  - rewrite shifted_refines by exact Hop. exists rd, rn. eexists.
    split; [assumption |]. split; [assumption |]. split; [| split; reflexivity].
    apply in_range_weaken with (RegWidth.bits (Instruction.width insn)); [apply width_bits_le |].
    apply shift_value_range; [apply uval_range | apply Hop].
Qed.

Definition code_logic (l v : Z) : Z :=
  match Instruction.op insn with
  | Op.And => Z.land l v
  | Op.Bic => Z.land l (wnot 64 v)
  | Op.Orr => Z.lor l v
  | Op.Orn => Z.lor l (wnot 64 v)
  | Op.Eor => Z.lxor l v
  | _ => Z.lxor l (wnot 64 v)
  end.

Lemma code_logic_range (l v : Z) : in_range 64 l -> in_range 64 v -> in_range 64 (code_logic l v).
Proof.
  intros Hl Hv. assert (in_range 64 (wnot 64 v)) as Hn by (apply wnot_range; lia).
  unfold code_logic. destruct (Instruction.op insn);
    first [ apply in_range_land; [lia | exact Hl | first [apply Hv | apply Hn]]
          | apply in_range_lor; [lia | exact Hl | first [exact Hv | exact Hn]]
          | apply in_range_lxor; [lia | exact Hl | first [exact Hv | exact Hn]] ].
Qed.

Lemma code_logic_value (w : RegWidth) (x v : Z) :
  uval w (code_logic (uval w x) v) = uval w (logic_value (Instruction.op insn) x v).
Proof.
  apply Z.bits_inj'. intros i Hi. rewrite !uval_testbit.
  destruct (Z.ltb_spec i (RegWidth.bits w)) as [Hw |]; [| reflexivity]. cbn [andb].
  pose proof (width_bits_le w).
  assert (Z.testbit (uval w x) i = Z.testbit x i) as Hx.
  { rewrite uval_testbit. destruct (Z.ltb_spec i (RegWidth.bits w)); [reflexivity | lia]. }
  assert (Z.testbit (wnot 64 v) i = negb (Z.testbit v i)) as Hn.
  { rewrite wnot_testbit by lia. destruct (Z.ltb_spec i 64); [reflexivity | lia]. }
  unfold code_logic, logic_value. destruct (Instruction.op insn);
    rewrite ?Z.land_spec, ?Z.lor_spec, ?Z.lxor_spec, ?Z.lnot_spec, ?Hx, ?Hn by exact Hi; reflexivity.
Qed.

Lemma logical_refines : returns (logical cpu insn) (arm_ok cpu pc (isa_logical s insn)).
Proof.
  unfold logical. cbv zeta.
  destruct logical_operands_refine as [(rd & rn & v & Hrd & Hrn & Hv & -> & ->) | [-> ->]];
    cbn [mbind may_panic_bind].
  - rewrite gpr_refines by exact Hrn. cbn [mbind may_panic_bind]. set (w := Instruction.width insn) in *.
    fold (code_logic (uval w (isa_reg s rn)) v).
    rewrite logical_flags_correct, (sval_congr w _ _ (eq_sym (uval_uval w (code_logic _ v)))).
    rewrite code_logic_value.
    apply (finish_result cpu s insn rd (code_logic (uval w (isa_reg s rn)) v)
             (logic_result (Instruction.op insn) w (isa_reg s rn) v)); try assumption.
    + apply code_logic_range; [apply uval_in_range | exact Hv].
    + apply code_logic_value.
  - rewrite (rep_pc _ _ _ Hrep). apply raise_refines.
Qed.

(** ** Branches *)

Lemma link_refines (b : bool) :
  exists r', (if b then RegFile.write_x (Cpu.regs cpu) (Gpr.X 30) (wadd 64 pc INSN_BYTES)
              else mret (Cpu.regs cpu)) = Done r' /\
    represents r' (Cpu.memory cpu) (isa_link s b).
Proof.
  destruct b; [| exists (Cpu.regs cpu); split; [reflexivity | exact Hrep]].
  destruct (write_x_value (Cpu.regs cpu) (Gpr.X 30) (wadd 64 pc INSN_BYTES)) as (r' & Hw & Hok & Hs & Hv).
  - exact Hr.
  - cbn. unfold NUM_GPR. lia.
  - apply wadd_range. lia.
  - exists r'. split; [exact Hw |]. unfold isa_link. eapply represents_write; eassumption.
Qed.

Lemma jump_arm_ok (r' : RegFile) (s' : isa_state) (target : Z) :
  represents r' (Cpu.memory cpu) s' -> in_range 64 target ->
  arm_ok cpu pc (Continue (isa_jump s' target))
    (Cpu.set_regs cpu (RegFile.set_pc r' target), Ok Flow.Branched).
Proof.
  intros Hrep' Ht. exists (RegFile.set_pc r' target), (Cpu.memory cpu).
  split; [destruct cpu; reflexivity |]. apply represents_jump; assumption.
Qed.

Lemma branch_immediate_refines :
  returns (branch_immediate cpu insn pc) (arm_ok cpu pc (isa_branch s insn)).
Proof.
  unfold branch_immediate, isa_branch.
  destruct (Instruction.form insn); try apply raise_refines.
  destruct (link_refines (match Instruction.op insn with Op.Bl => true | _ => false end))
    as (r' & Hw & Hrep').
  assert ((match Instruction.op insn with
           | Op.Bl => RegFile.write_x (Cpu.regs cpu) (Gpr.X 30) (wadd 64 pc INSN_BYTES)
           | _ => mret (Cpu.regs cpu) end) = Done r') as ->
    by (rewrite <- Hw; destruct (Instruction.op insn); reflexivity).
  cbn [mbind may_panic_bind]. rewrite wadd_as_u64. apply returns_ret.
  apply jump_arm_ok; [exact Hrep' | apply as_u64_range].
Qed.

Lemma branch_register_refines :
  returns (branch_register cpu insn pc) (arm_ok cpu pc (isa_branch_register s insn)).
Proof.
  unfold branch_register, isa_branch_register.
  destruct (Instruction.form insn) eqn:Ef; try apply raise_refines. cbn [form_ok] in Hform.
  destruct (read_x_value (Cpu.regs cpu) rn Hr Hform) as [-> Hrange].
  rewrite (rep_reg _ _ _ Hrep) in * by exact Hform. cbn [mbind may_panic_bind].
  destruct (link_refines (match Instruction.op insn with Op.Blr => true | _ => false end))
    as (r' & Hw & Hrep').
  assert ((match Instruction.op insn with
           | Op.Blr => RegFile.write_x (Cpu.regs cpu) (Gpr.X 30) (wadd 64 pc INSN_BYTES)
           | _ => mret (Cpu.regs cpu) end) = Done r') as ->
    by (rewrite <- Hw; destruct (Instruction.op insn); reflexivity).
  cbn [mbind may_panic_bind]. apply returns_ret. apply jump_arm_ok; assumption.
Qed.

(** ** Loads and stores *)

Lemma mode_offset_ext (f g : Gpr -> Z) (addr : AddrMode) :
  addr_ok addr -> (forall reg, gpr_ok reg -> f reg = g reg) -> mode_offset f addr = mode_offset g addr.
Proof.
  intros Ha Hfg. destruct addr; try reflexivity. cbn in *. destruct Ha as [_ [Hi _]].
  rewrite Hfg by exact Hi. reflexivity.
Qed.

Lemma spec_effective_address_ext (f g : Gpr -> Z) (addr : AddrMode) (a : Z) :
  addr_ok addr -> (forall reg, gpr_ok reg -> f reg = g reg) ->
  spec_effective_address f addr a = spec_effective_address g addr a.
Proof.
  intros Ha Hfg. unfold spec_effective_address. rewrite (mode_offset_ext f g addr Ha Hfg).
  destruct addr; cbn in Ha; rewrite ?Hfg by apply Ha; reflexivity.
Qed.

(** The address and the written-back value are machine words, and the base is a
    register. *)
Definition writeback_ok (wb : option (Gpr * Z)) : Prop :=
  match wb with Some (base, v) => gpr_ok base /\ in_range 64 v | None => True end.

Lemma isa_reg_range (reg : Gpr) : gpr_ok reg -> in_range 64 (isa_reg s reg).
Proof.
  intros Hok. destruct (read_x_value (Cpu.regs cpu) reg Hr Hok) as [_ Hrange].
  rewrite (rep_reg _ _ _ Hrep) in Hrange by exact Hok. exact Hrange.
Qed.

Lemma effective_address_range (addr : AddrMode) :
  addr_ok addr ->
  in_range 64 (EffectiveAddress.address (spec_effective_address (isa_reg s) addr pc)) /\
  writeback_ok (EffectiveAddress.writeback (spec_effective_address (isa_reg s) addr pc)).
Proof.
  intros Ha. destruct addr as [base offset wb | base idx wb | offset | base]; cbn in Ha.
  1, 2: destruct Ha as [Hb _]; destruct wb; cbn;
    auto using as_u64_range, isa_reg_range.
  - cbn. auto using as_u64_range.
  - cbn. auto using isa_reg_range.
Qed.

Lemma writeback_refines (r : RegFile) (m : M) (s' : isa_state) (wb : option (Gpr * Z)) :
  represents r m s' -> writeback_ok wb ->
  exists r', (match wb with Some (base, v) => RegFile.write_x r base v | None => mret r end) = Done r' /\
    represents r' m (isa_writeback s' wb).
Proof.
  intros Hrep' Hwb. destruct wb as [[base v] |]; [| exists r; split; [reflexivity | exact Hrep']].
  destruct Hwb as [Hb Hv].
  destruct (write_x_value r base v (rep_regfile _ _ _ Hrep') Hb Hv) as (r' & Hw & Hok & Hs & Hx).
  exists r'. split; [exact Hw |]. eapply represents_write; eassumption.
Qed.

Lemma size_width_ok (size : AccessSize) : size_ok size -> width_ok (AccessSize.bytes size).
Proof. unfold size_ok, width_ok. lia. Qed.

Lemma store_refines (rt : Gpr) (a : Z) (size : AccessSize) :
  gpr_ok rt -> in_range 64 a -> size_ok size ->
  let n := Z.to_nat (AccessSize.bytes size) in
  match bytes_at (isa_mem s) a n with
  | Some _ => exists m', transfer cpu (rt, a, true) insn size = Done (Cpu.set_memory cpu m', Ok tt) /\
      represents (Cpu.regs cpu) m'
        (isa_store s a (to_le_bytes n (uval (Instruction.width insn) (isa_reg s rt))))
  | None => exists e, transfer cpu (rt, a, true) insn size = Done (cpu, Err e)
  end.
Proof.
  intros Hrt Ha Hsize n. unfold transfer. rewrite gpr_refines by exact Hrt. cbn [mbind may_panic_bind].
  pose proof (write_uint_law (Cpu.memory cpu) a (AccessSize.bytes size)
    (uval (Instruction.width insn) (isa_reg s rt)) (rep_memory _ _ _ Hrep) Ha (size_width_ok size Hsize)) as L.
  fold n in L. rewrite (bytes_at_mem _ _ _ _ _ Hrep) in L. destruct (bytes_at (isa_mem s) a n).
  - destruct L as (m' & -> & Hm' & Hx). exists m'. split; [reflexivity |].
    eapply represents_store; eassumption.
  - rewrite L. eexists. cbn. unfold mret, may_panic_ret. destruct cpu; reflexivity.
Qed.

(** The loaded integer, extended to the register. *)
Definition loaded_value (size : AccessSize) (raw : Z) : Z :=
  if AccessSize.is_signed size then to_signed (8 * AccessSize.bytes size) raw else raw.

Lemma load_refines (rt : Gpr) (a : Z) (size : AccessSize) :
  gpr_ok rt -> in_range 64 a -> size_ok size ->
  match bytes_at (isa_mem s) a (Z.to_nat (AccessSize.bytes size)) with
  | Some bs => exists r', transfer cpu (rt, a, false) insn size = Done (Cpu.set_regs cpu r', Ok tt) /\
      represents r' (Cpu.memory cpu)
        (isa_write s rt (uval (Instruction.width insn) (loaded_value size (from_le_bytes bs))))
  | None => exists e, transfer cpu (rt, a, false) insn size = Done (cpu, Err e)
  end.
Proof.
  intros Hrt Ha Hsize. unfold transfer. pose proof (size_width_ok size Hsize) as Hw.
  rewrite read_uint_law by (try apply (rep_memory _ _ _ Hrep); assumption).
  cbn [mbind may_panic_bind]. rewrite (bytes_at_mem _ _ _ _ _ Hrep).
  destruct (bytes_at (isa_mem s) a (Z.to_nat (AccessSize.bytes size))) as [bs |] eqn:E;
    [| eexists; reflexivity].
  assert (in_range 64 (from_le_bytes bs)) as Hraw.
  { assert (Forall is_byte bs) as Hb.
    { eapply bytes_at_Forall; [| exact E]. intros x b Hx. rewrite <- (rep_mem _ _ _ Hrep) in Hx.
      eapply byte_at_is_byte; [apply (rep_memory _ _ _ Hrep) | exact Hx]. }
    apply bytes_at_length in E. pose proof (from_le_bytes_range bs Hb) as Hrange.
    unfold width_ok in Hw. rewrite E, Z2Nat.id, pow_256 in Hrange by lia.
    apply in_range_weaken with (8 * AccessSize.bytes size); [lia | exact Hrange]. }
  set (raw := from_le_bytes bs) in *.
  set (value := if AccessSize.is_signed size then _ else raw).
  assert (in_range 64 value /\
          uval (Instruction.width insn) value =
          uval (Instruction.width insn) (loaded_value size raw)) as [Hv Hu].
  { unfold value, loaded_value. destruct (AccessSize.is_signed size); [| split; [exact Hraw | reflexivity]].
    unfold width_ok in Hw.
    assert (wmul 32 (AccessSize.bytes size) 8 = 8 * AccessSize.bytes size) as ->
      by (unfold wmul; rewrite wrap_small by (split; lia); lia).
    change sign_extend with sign_extend_to_64. rewrite sign_extend_to_64_signed by (assumption || lia).
    split; [apply as_u64_range | apply uval_as_u64]. }
  clearbody value. destruct (write_result_refines cpu s rt value (Instruction.width insn) Hrep Hrt Hv) as (r' & -> & Hrep').
  rewrite Hu in Hrep'. exists r'. split; [reflexivity | exact Hrep'].
Qed.

(** After the transfer: write-back and the next instruction. *)
Lemma finish_transfer (cpu' : Cpu M S) (r : RegFile) (m : M) (s' : isa_state) (wb : option (Gpr * Z)) :
  cpu' = with_state cpu r m -> represents r m s' -> isa_pc s' = pc -> writeback_ok wb ->
  returns
    (regs ← (match wb with
             | Some (base, value) => RegFile.write_x (Cpu.regs cpu') base value
             | None => mret (Cpu.regs cpu')
             end);
     mret (Cpu.set_regs cpu' regs, Ok Flow.Next))
    (arm_ok cpu pc (Continue (isa_next (isa_writeback s' wb)))).
Proof.
  intros -> Hrep' Hpc Hwb. destruct (writeback_refines r m s' wb Hrep' Hwb) as (r' & Hw & Hrep'').
  change (Cpu.regs (with_state cpu r m)) with r. rewrite Hw. apply returns_ret.
  exists r', m. split; [reflexivity |].
  apply represents_next; [exact Hrep'' |]. destruct wb as [[? ?] |]; exact Hpc.
Qed.

Lemma load_store_refines : returns (load_store cpu insn pc) (arm_ok cpu pc (isa_load_store s insn)).
Proof.
  unfold load_store, isa_load_store.
  destruct (Instruction.form insn) as [ | | | | | | | | | | | | | |rt [rt2 |] rs addr size ordering
    | | | | | | | | | | |]; try apply raise_refines.
  cbn [form_ok] in Hform. destruct Hform as (Hrt & _ & _ & Haddr & Hsize).
  rewrite effective_address_correct by assumption.
  rewrite (spec_effective_address_ext _ (isa_reg s)) by (apply Haddr || apply (rep_reg _ _ _ Hrep)).
  cbn [mbind may_panic_bind]. destruct (effective_address_range addr Haddr) as [Ha Hwb].
  fold pc. set (ea := spec_effective_address (isa_reg s) addr pc) in *. clearbody ea.
  destruct (match Instruction.op insn with Op.Str => true | _ => false end) eqn:Eop; cbv zeta.
  - pose proof (store_refines rt (EffectiveAddress.address ea) size Hrt Ha Hsize) as L.
    cbv zeta in L. destruct (bytes_at _ _ _).
    + destruct L as (m' & -> & Hrep'). cbn [mbind may_panic_bind map_err].
      eapply finish_transfer; [| exact Hrep' | reflexivity | exact Hwb]. destruct cpu; reflexivity.
    + destruct L as (e & ->). cbn [mbind may_panic_bind map_err]. apply raise_refines.
  - pose proof (load_refines rt (EffectiveAddress.address ea) size Hrt Ha Hsize) as L.
    destruct (bytes_at _ _ _).
    + destruct L as (r' & -> & Hrep'). cbn [mbind may_panic_bind map_err].
      eapply finish_transfer; [| exact Hrep' | reflexivity | exact Hwb]. destruct cpu; reflexivity.
    + destruct L as (e & ->). cbn [mbind may_panic_bind map_err]. apply raise_refines.
Qed.

(** ** Every opcode *)

Lemma imm_u16 (imm : Z) : in_range 16 imm -> as_u16 imm = imm.
Proof. apply wrap_small. Qed.

Lemma nop_refines :
  returns (mret (cpu, Ok Flow.Next)) (arm_ok cpu pc (Continue (isa_next s))).
Proof.
  apply returns_ret. exists (Cpu.regs cpu), (Cpu.memory cpu). split; [destruct cpu; reflexivity |].
  apply represents_next; [exact Hrep | reflexivity].
Qed.

Lemma execute_refines : returns (execute cpu insn pc) (arm_ok cpu pc (isa_exec s insn)).
Proof.
  unfold execute, isa_exec, supervisor_call, breakpoint.
  destruct (Instruction.op insn);
    first [ apply arithmetic_refines | apply logical_refines | apply branch_immediate_refines
          | apply branch_register_refines | apply nop_refines | apply load_store_refines
          | apply raise_refines | idtac ];
    destruct (Instruction.form insn) eqn:Ef; try apply raise_refines;
    cbn [form_ok] in Hform; rewrite imm_u16 by exact Hform; apply raise_refines.
Qed.

End Arms.

End Refinement.
