(* ===== verification/Run.v ===== *)
(** The interpreter loop refines the architecture: a step, a run, and what the
    cache and the trace may not change: two vCPUs over the same memory type that
    differ in sinks, caches and trace state only run in lockstep. *)

From stdpp Require Import base numbers list option.
From S2P Require Import Prelude Reg Pstate RegFile Operand Op Instruction Decode Flags Fetch.
From S2P Require Import Memory Trap Cache TraceFormat TraceSink Cpu Interp Isa Refine.

#[local] Open Scope Z_scope.

Section Run.

Context {M S : Type} `{MemoryLaws M} `{TotalSink S}.

(** The parts of a CPU the architecture does not see. *)
Record cpu_ok (cpu : Cpu M S) : Prop := {
  cpu_cache : cache_ok (Cpu.cache cpu);
  cpu_log : log_ok (Cpu.trap_log cpu);
  cpu_deltas : buffer_ok (Cpu.deltas cpu);
  cpu_previous : forall p, Cpu.previous cpu = Some p -> regfile_ok p
}.

Definition models (cpu : Cpu M S) (s : isa_state) : Prop :=
  cpu_ok cpu /\ represents (Cpu.regs cpu) (Cpu.memory cpu) s.

Lemma with_sink_models (m : M) (sink : S) :
  mem_ok m -> models (Cpu.with_sink m sink)
    {| isa_reg := reg_value RegFile.new; isa_pc := 0; isa_nzcv := Nzcv.mk false false false false;
       isa_mem := byte_at m |}.
Proof.
  intros Hm. split; split; cbn.
  - apply cache_new_ok.
  - apply log_new_ok.
  - apply buffer_new_ok.
  - discriminate.
  - apply regfile_new_ok.
  - exact Hm.
  - reflexivity.
  - reflexivity.
  - reflexivity.
  - reflexivity.
Qed.

(** The fetch is the architecture's. *)
Lemma fetch_refines (cpu : Cpu M S) (s : isa_state) :
  represents (Cpu.regs cpu) (Cpu.memory cpu) s ->
  fetch cpu (isa_pc s) = Done (match bytes_at (isa_mem s) (isa_pc s) 4 with
    | None => Err (Trap.InstructionAbort (isa_pc s))
    | Some word => Ok (from_le_bytes word)
    end).
Proof.
  intros Hrep. unfold fetch.
  rewrite <- (bytes_at_mem _ _ _ _ _ Hrep).
  rewrite mem_read_law
    by first [apply (rep_memory _ _ _ Hrep) | apply (rep_pc_range _ _ _ Hrep) | discriminate].
  cbn [mbind may_panic_bind]. change (length (replicate 4 0)) with 4%nat.
  rewrite (bytes_at_mem _ _ _ _ _ Hrep). destruct (bytes_at _ _ _); reflexivity.
Qed.

(** The trace work touches neither the registers nor the memory. *)
Definition same_machine (cpu cpu' : Cpu M S) : Prop :=
  Cpu.regs cpu' = Cpu.regs cpu /\ Cpu.memory cpu' = Cpu.memory cpu /\
  Cpu.trap_log cpu' = Cpu.trap_log cpu /\ Cpu.icount cpu' = Cpu.icount cpu /\
  Cpu.cache cpu' = Cpu.cache cpu.

Lemma emit_block_ok (cpu : Cpu M S) (pc : Z) :
  cpu_ok cpu -> regfile_ok (Cpu.regs cpu) ->
  returns (emit_block cpu pc) (fun cpu' => cpu_ok cpu' /\ same_machine cpu cpu').
Proof.
  intros Hcpu Hr. unfold emit_block. destruct ENABLED.
  2: { apply returns_ret. split; [exact Hcpu |]. repeat split. }
  destruct Hcpu as [Hc Hl Hd Hp].
  eapply returns_bind; [apply deltas_between_target; eassumption |].
  intros d [Hd' _]. rewrite as_slice_contents by exact Hd'. cbn [mbind may_panic_bind].
  eapply returns_bind; [apply on_block_total; rewrite buffer_length by exact Hd'; apply Hd' |]. intros sink _. apply returns_ret.
  split; [| repeat split]. split; cbn; try assumption. intros p [= <-]. exact Hr.
Qed.

(** From the fetched word to the decoded instruction, with the trace work: a
    well-formed CPU over the same machine, and the continuation run on it. *)
Lemma prepare_ok (cpu : Cpu M S) (pc e : Z) :
  cpu_ok cpu -> regfile_ok (Cpu.regs cpu) ->
  exists cpu', cpu_ok cpu' /\
    (Cpu.regs cpu' = Cpu.regs cpu /\ Cpu.memory cpu' = Cpu.memory cpu /\
     Cpu.trap_log cpu' = Cpu.trap_log cpu /\ Cpu.icount cpu' = Cpu.icount cpu) /\
    (forall A (k : Cpu M S -> Instruction -> may_panic A),
       ('(cache, insn) ← DecodeCache.decoded (Cpu.cache cpu) pc e;
        cpu ← emit_block (Cpu.set_cache cpu cache) pc; k cpu insn) = k cpu' (decode_word e)).
Proof.
  intros Hcpu Hr. destruct (decoded_returns _ pc e (cpu_cache _ Hcpu)) as ([c insn] & Ed & Hc & Hd & _).
  cbn [fst snd] in *. rewrite decode_word_eq in Hd. injection Hd as <-.
  assert (cpu_ok (Cpu.set_cache cpu c)) as Hcpu1 by (destruct Hcpu; split; assumption).
  destruct (emit_block_ok (Cpu.set_cache cpu c) pc Hcpu1 Hr) as (cpu2 & Ee & Hcpu2 & Hsame).
  exists cpu2. split; [exact Hcpu2 |]. split; [destruct Hsame as (? & ? & ? & ? & _); repeat split; assumption |].
  intros A k. rewrite Ed. cbn [mbind may_panic_bind]. rewrite Ee. reflexivity.
Qed.

(** ** One step *)

Definition step_ok (cpu : Cpu M S) (s : isa_state) (p : Cpu M S * result unit Trap) : Prop :=
  match isa_step s, p.2 with
  | Continue s', Ok _ =>
      models p.1 s' /\ Cpu.icount p.1 = wadd 64 (Cpu.icount cpu) 1 /\
      Cpu.trap_log p.1 = Cpu.trap_log cpu
  | Raise t, Err t' =>
      t' = t /\ models p.1 s /\
      Cpu.regs p.1 = Cpu.regs cpu /\ Cpu.memory p.1 = Cpu.memory cpu /\
      Cpu.icount p.1 = Cpu.icount cpu /\
      TrapLog.record_trap (Cpu.trap_log cpu) t = Done (Cpu.trap_log p.1)
  | _, _ => False
  end.

Lemma step_simulates (cpu : Cpu M S) (s : isa_state) :
  models cpu s -> returns (step cpu) (step_ok cpu s).
Proof.
  intros [Hcpu Hrep]. unfold step, step_ok, isa_step. cbv zeta.
  rewrite (rep_pc _ _ _ Hrep), (fetch_refines cpu s Hrep). cbn [mbind may_panic_bind].
  destruct (bytes_at (isa_mem s) (isa_pc s) 4) as [word |].
  2: { apply returns_ret. split; [reflexivity |]. split; [split; assumption |]. repeat split. }
  set (e := from_le_bytes word).
  destruct (prepare_ok cpu (isa_pc s) e Hcpu (rep_regfile _ _ _ Hrep))
    as (cpu2 & Hcpu2 & (Er & Em & El & Ei) & ->).
  assert (represents (Cpu.regs cpu2) (Cpu.memory cpu2) s) as Hrep2 by (rewrite Er, Em; exact Hrep).
  eapply returns_bind;
    [apply (execute_refines cpu2 s _ Hrep2); apply (decode_word_ok e) |].
  intros [cpu3 [flow | t]]; unfold arm_ok; cbn [fst snd];
    destruct (isa_exec s (decode_word e)) as [s' | t']; try contradiction.
  - intros (r & m & -> & Hrep3). apply returns_ret. cbn [fst snd].
    destruct Hcpu2. destruct flow; cbn [advance] in Hrep3; cbn; rewrite El, Ei;
      (split; [split; [split; assumption | exact Hrep3] | split; reflexivity]).
  - intros [-> ->]. rewrite El.
    destruct (record_trap_returns _ t' (cpu_log _ Hcpu)) as (log & Hlog & Hok). rewrite Hlog.
    cbn [mbind may_panic_bind]. apply returns_ret. cbn. rewrite Er, Em, Ei.
    destruct Hcpu2. split; [reflexivity |]. split; [split; [split; assumption |] | repeat split].
    cbn. rewrite Er, Em. exact Hrep.
Qed.

(** ** A run *)

Definition stop_of (t : option Trap) : Stop :=
  match t with Some t => Stop.Trapped t | None => Stop.BudgetExhausted end.

Lemma run_simulates (n : nat) (cpu : Cpu M S) (s : isa_state) :
  models cpu s ->
  returns (run n cpu)
    (fun p => let '(s', k, t) := isa_run n s in
       models p.1 s' /\ p.2 = stop_of t /\
       as_u64 (Cpu.icount p.1) = as_u64 (Cpu.icount cpu + Z.of_nat k)).
Proof.
  revert cpu s. induction n as [| n IH]; intros cpu s Hm; cbn [run isa_run].
  { apply returns_ret. split; [exact Hm |]. split; [reflexivity |]. cbn [fst]. rewrite Z.add_0_r. reflexivity. }
  eapply returns_bind; [apply step_simulates, Hm |].
  intros [cpu' o]. unfold step_ok. cbn [fst snd].
  destruct (isa_step s) as [s1 | t], o as [u | t']; try contradiction.
  - intros (Hm' & Hi & _). eapply returns_mono; [apply IH, Hm' |].
    intros p. destruct (isa_run n s1) as [[s' k] t]. intros (Hp & Hs & Hk).
    split; [exact Hp |]. split; [exact Hs |]. rewrite Hk, Hi. unfold as_u64, wadd, wrap.
    rewrite Zplus_mod_idemp_l, Nat2Z.inj_succ. f_equal. lia.
  - intros (-> & Hm' & _ & _ & Hi & _). apply returns_ret. split; [exact Hm' |].
    split; [reflexivity |]. cbn [fst]. rewrite Hi, Z.add_0_r. reflexivity.
Qed.

(** The retired count is at most the budget, and smaller only on a trap. *)
Lemma isa_run_count (n : nat) (s : isa_state) :
  let '(_, k, t) := isa_run n s in (k <= n)%nat /\ (t = None <-> k = n).
Proof.
  revert s. induction n as [| n IH]; intros s; cbn [isa_run]; [split; [lia | tauto] |].
  destruct (isa_step s) as [s1 |]; [| split; [lia | split; [discriminate | lia]]].
  specialize (IH s1). destruct (isa_run n s1) as [[s' k] t]. destruct IH as [Hk Ht].
  split; [lia |]. rewrite Ht. lia.
Qed.

End Run.

(** Re-entering resumes: a run of [a + b] is a run of [a], continued for [b]
    unless it trapped. *)
Lemma run_plus {M S} `{Memory M} `{TraceSink S} (a b : nat) (cpu : Cpu M S) :
  run (a + b) cpu =
  ('(cpu, stop) ← run a cpu;
   match stop with
   | Stop.BudgetExhausted => run b cpu
   | Stop.Trapped t => mret (cpu, Stop.Trapped t)
   end).
Proof.
  revert cpu. induction a as [| a IH]; intros cpu; [reflexivity |]. cbn [run Nat.add].
  destruct (step cpu) as [[cpu' [u | t]] |]; cbn [mbind may_panic_bind]; [apply IH | reflexivity..].
Qed.

(** ** Two vCPUs *)

Section Observe.

Context {M S T : Type} `{Memory M} `{TraceSink S} `{TraceSink T}.

(** The machine a program can observe. *)
Record agree (c : Cpu M S) (d : Cpu M T) : Prop := {
  agree_regs : Cpu.regs d = Cpu.regs c;
  agree_memory : Cpu.memory d = Cpu.memory c;
  agree_log : Cpu.trap_log d = Cpu.trap_log c;
  agree_icount : Cpu.icount d = Cpu.icount c
}.

(** The same effect, on another CPU. *)
Definition redo {A} (d : Cpu M T) (m : may_panic (Cpu M S * A)) : may_panic (Cpu M T * A) :=
  '(c, a) ← m; mret (with_state d (Cpu.regs c) (Cpu.memory c), a).

Lemma write_result_redo (c : Cpu M S) (d : Cpu M T) (rd : Gpr) (v : Z) (w : RegWidth) :
  agree c d ->
  write_result d rd v w =
  (c ← write_result c rd v w; mret (with_state d (Cpu.regs c) (Cpu.memory c))).
Proof.
  intros [Hr Hm _ _]. unfold write_result. rewrite Hr.
  destruct w; (destruct (RegFile.write_w _ _ _) || destruct (RegFile.write_x _ _ _));
    cbn; rewrite <- ?Hm; destruct d; reflexivity.
Qed.

Section Arms.

Context (c : Cpu M S) (d : Cpu M T).

Hypothesis Hagree : agree c d.

Lemma redo_ret {A} (a : A) : mret (d, a) = redo d (mret (c, a)).
Proof. destruct Hagree as [Hr Hm _ _]. destruct d. cbn in *. subst. reflexivity. Qed.

(** The register write and the flags of a data-processing arm. *)
Lemma finish_redo (rd : Gpr) (v : Z) (w : RegWidth) (b : bool) (f : Nzcv) :
  (d ← write_result d rd v w; mret (if b then set_nzcv d f else d, Ok (E:=Trap) Flow.Next)) =
  redo d (c ← write_result c rd v w; mret (if b then set_nzcv c f else c, Ok Flow.Next)).
Proof.
  rewrite (write_result_redo c d) by exact Hagree.
  destruct (write_result c rd v w) as [c' |]; [| reflexivity]. destruct b; destruct d; reflexivity.
Qed.

Ltac operands :=
  match goal with
  | |- (_ ← ?o; _) = redo _ (_ ← ?o; _) => destruct o as [[[[rd rn] operand] |] |]; [| | reflexivity]
  end; cbn [mbind may_panic_bind];
  rewrite (agree_regs _ _ Hagree); [| apply redo_ret];
  match goal with
  | |- (_ ← ?o; _) = redo _ (_ ← ?o; _) => destruct o; [| reflexivity]
  end; apply finish_redo.

Lemma arithmetic_redo (insn : Instruction) : arithmetic d insn = redo d (arithmetic c insn).
Proof.
  unfold arithmetic. assert (arithmetic_operands d insn = arithmetic_operands c insn) as ->
    by (unfold arithmetic_operands; rewrite (agree_regs _ _ Hagree); reflexivity).
  operands.
Qed.

Lemma logical_redo (insn : Instruction) : logical d insn = redo d (logical c insn).
Proof.
  unfold logical. assert (logical_operands d insn = logical_operands c insn) as ->
    by (unfold logical_operands; rewrite (agree_regs _ _ Hagree); reflexivity).
  operands.
Qed.

(** A register update followed by an answer. *)
Lemma regs_redo {A} (m : may_panic RegFile) (f : RegFile -> RegFile) (a : A) :
  (r ← m; mret (Cpu.set_regs d (f r), a)) = redo d (r ← m; mret (Cpu.set_regs c (f r), a)).
Proof.
  destruct m as [r |]; [| reflexivity]. destruct Hagree as [_ Hm _ _]. cbn. rewrite <- Hm.
  destruct d. reflexivity.
Qed.

Lemma branch_immediate_redo (insn : Instruction) (pc : Z) :
  branch_immediate d insn pc = redo d (branch_immediate c insn pc).
Proof.
  unfold branch_immediate. rewrite (agree_regs _ _ Hagree).
  destruct (Instruction.form insn); try apply redo_ret.
  apply (regs_redo _ (fun r => RegFile.set_pc r _)).
Qed.

Lemma branch_register_redo (insn : Instruction) (pc : Z) :
  branch_register d insn pc = redo d (branch_register c insn pc).
Proof.
  unfold branch_register. rewrite (agree_regs _ _ Hagree).
  destruct (Instruction.form insn); try apply redo_ret.
  destruct (RegFile.read_x (Cpu.regs c) rn); [| reflexivity]. cbn [mbind may_panic_bind].
  apply (regs_redo _ (fun r => RegFile.set_pc r _)).
Qed.

Lemma transfer_redo (access : Gpr * Z * bool) (insn : Instruction) (size : AccessSize) :
  transfer d access insn size = redo d (transfer c access insn size).
Proof.
  unfold transfer. destruct access as [[rt a] []];
    rewrite ?(agree_regs _ _ Hagree), ?(agree_memory _ _ Hagree).
  - destruct (read_gpr _ _ _); [| reflexivity]. cbn [mbind may_panic_bind].
    destruct (write_uint _ _ _ _) as [[m' o] |]; [| reflexivity].
    destruct Hagree as [Hr _ _ _]. destruct d. cbn in *. subst. reflexivity.
  - destruct (read_uint _ _ _) as [[raw | e] |]; [| apply redo_ret | reflexivity].
    cbn [mbind may_panic_bind]. rewrite (write_result_redo c d) by exact Hagree.
    destruct (write_result c _ _ _); [| reflexivity]. reflexivity.
Qed.

End Arms.

Lemma load_store_redo (c : Cpu M S) (d : Cpu M T) (insn : Instruction) (pc : Z) :
  agree c d -> load_store d insn pc = redo d (load_store c insn pc).
Proof.
  intros Hagree. unfold load_store. rewrite (agree_regs _ _ Hagree).
  destruct (Instruction.form insn) as [ | | | | | | | | | | | | | |rt [rt2 |] rs addr size ordering
    | | | | | | | | | | |]; try (apply redo_ret; exact Hagree).
  destruct (effective_address _ _ _) as [ea |]; [| reflexivity]. cbn [mbind may_panic_bind]. cbv zeta.
  rewrite (transfer_redo c d Hagree).
  destruct (transfer c _ _ _) as [[c' [u | e]] |] eqn:Et; [| reflexivity | reflexivity].
  cbn. destruct (EffectiveAddress.writeback ea) as [[base value] |].
  - destruct (RegFile.write_x _ _ _); [| reflexivity]. destruct d. reflexivity.
  - destruct d. reflexivity.
Qed.

Lemma execute_redo (c : Cpu M S) (d : Cpu M T) (insn : Instruction) (pc : Z) :
  agree c d -> execute d insn pc = redo d (execute c insn pc).
Proof.
  intros Hagree. unfold execute.
  destruct (Instruction.op insn);
    first [ apply arithmetic_redo | apply logical_redo | apply branch_immediate_redo
          | apply branch_register_redo | apply load_store_redo | apply redo_ret ]; exact Hagree.
Qed.

End Observe.

Arguments agree {M S T}.

(** No arm touches the log or the count: an arm redone on its own CPU is itself. *)
Lemma execute_frame {M S} `{Memory M} `{TraceSink S} (c c' : Cpu M S) insn pc o :
  execute c insn pc = Done (c', o) ->
  Cpu.trap_log c' = Cpu.trap_log c /\ Cpu.icount c' = Cpu.icount c.
Proof.
  rewrite (execute_redo c c) by (split; reflexivity). unfold redo.
  destruct (execute c insn pc) as [[c1 o1] |]; [| discriminate].
  intros [= <- <-]. split; reflexivity.
Qed.

(** ** Lockstep *)

Section Lockstep.

Context {M S T : Type} `{MemoryLaws M} `{TotalSink S} `{TotalSink T}.

(** Two vCPUs in agreement, both well formed, over the same machine. *)
Record lockstep (c : Cpu M S) (d : Cpu M T) (s : isa_state) : Prop := {
  lock_left : models c s;
  lock_right : cpu_ok d;
  lock_agree : agree c d
}.

Definition both {A} (P : Cpu M S -> Cpu M T -> A -> Prop)
    (m : may_panic (Cpu M S * A)) (n : may_panic (Cpu M T * A)) : Prop :=
  exists c d a, m = Done (c, a) /\ n = Done (d, a) /\ P c d a.

Lemma models_agree (c : Cpu M S) (d : Cpu M T) (s : isa_state) :
  lockstep c d s -> models d s.
Proof.
  intros [[_ Hrep] Hd [Hr Hm _ _]]. split; [exact Hd |]. rewrite Hr, Hm. exact Hrep.
Qed.

(** The cached decoding and the trace work of the two sides. *)
Lemma prepare_agree (c : Cpu M S) (d : Cpu M T) (s : isa_state) (e : Z) :
  lockstep c d s ->
  exists c1 d1, lockstep c1 d1 s /\
    (forall A (k : Cpu M S -> Instruction -> may_panic A),
       ('(cache, insn) ← DecodeCache.decoded (Cpu.cache c) (isa_pc s) e;
        c ← emit_block (Cpu.set_cache c cache) (isa_pc s); k c insn) = k c1 (decode_word e)) /\
    (forall A (k : Cpu M T -> Instruction -> may_panic A),
       ('(cache, insn) ← DecodeCache.decoded (Cpu.cache d) (isa_pc s) e;
        d ← emit_block (Cpu.set_cache d cache) (isa_pc s); k d insn) = k d1 (decode_word e)).
Proof.
  intros Hlock. pose proof (models_agree _ _ _ Hlock) as [Hd Hrepd].
  destruct Hlock as [[Hc Hrepc] _ [Er Em El Ei]].
  destruct (prepare_ok c (isa_pc s) e Hc (rep_regfile _ _ _ Hrepc)) as (c1 & Hc1 & Hm1 & Hk1).
  destruct (prepare_ok d (isa_pc s) e Hd (rep_regfile _ _ _ Hrepd)) as (d1 & Hd1 & Hm2 & Hk2).
  exists c1, d1. split; [| split; assumption].
  destruct Hm1 as (Er1 & Em1 & El1 & Ei1), Hm2 as (Er2 & Em2 & El2 & Ei2).
  split; [split; [exact Hc1 | rewrite Er1, Em1; exact Hrepc] | exact Hd1 | split; congruence].
Qed.

Lemma step_lockstep (c : Cpu M S) (d : Cpu M T) (s : isa_state) :
  lockstep c d s ->
  both (fun c' d' o => exists s', lockstep c' d' s' /\
          s' = match isa_step s with Continue s' => s' | Raise _ => s end)
    (step c) (step d).
Proof.
  intros Hlock. destruct (step_simulates c s (lock_left _ _ _ Hlock)) as ([c' o] & Hc & Hok).
  destruct (step_simulates d s (models_agree _ _ _ Hlock)) as ([d' o'] & Hd & Hok').
  assert (o' = o /\ agree c' d') as [-> Ha].
  2: { exists c', d', o. split; [exact Hc |]. split; [exact Hd |]. eexists. split; [| reflexivity].
       unfold step_ok in Hok, Hok'. cbn [fst snd] in Hok, Hok'.
       split; [| | exact Ha]; destruct (isa_step s), o; try contradiction;
         first [apply Hok | apply Hok']. }
  clear Hok Hok'. revert Hc Hd. unfold step. cbv zeta.
  pose proof (lock_left _ _ _ Hlock) as [_ Hrepc].
  pose proof (models_agree _ _ _ Hlock) as [_ Hrepd].
  rewrite (rep_pc _ _ _ Hrepc), (rep_pc _ _ _ Hrepd), (fetch_refines c s Hrepc),
    (fetch_refines d s Hrepd). cbn [mbind may_panic_bind].
  destruct (bytes_at (isa_mem s) (isa_pc s) 4) as [word |].
  2: { intros [= <- <-] [= <- <-]. split; [reflexivity | apply Hlock]. }
  destruct (prepare_agree c d s (from_le_bytes word) Hlock) as (c1 & d1 & Hlock1 & Hk1 & Hk2).
  rewrite Hk1, Hk2. rewrite (execute_redo c1 d1) by apply Hlock1.
  destruct (execute c1 _ _) as [[c2 o2] |] eqn:Ee; [| discriminate].
  apply execute_frame in Ee as [Hl Hi]. destruct Hlock1 as [_ _ [Er Em El Ei]].
  unfold redo. cbn [mbind may_panic_bind]. destruct o2 as [[] | t].
  - intros [= <- <-] [= <- <-]. split; [reflexivity |]. split; cbn; congruence.
  - intros [= <- <-] [= <- <-]. split; [reflexivity |]. split; cbn; congruence.
  - rewrite bind_ret. change (Cpu.trap_log (with_state d1 _ _)) with (Cpu.trap_log d1).
    rewrite El, <- Hl.
    destruct (TrapLog.record_trap _ _); [| discriminate].
    intros [= <- <-] [= <- <-]. split; [reflexivity |]. split; cbn; congruence.
Qed.

Lemma run_lockstep (n : nat) (c : Cpu M S) (d : Cpu M T) (s : isa_state) :
  lockstep c d s -> both (fun c' d' _ => agree c' d') (run n c) (run n d).
Proof.
  revert c d s. induction n as [| n IH]; intros c d s Hlock.
  { exists c, d. eexists. split; [reflexivity |]. split; [reflexivity | apply Hlock]. }
  destruct (step_lockstep c d s Hlock) as (c' & d' & o & Hc & Hd & s' & Hlock' & _).
  cbn [run]. rewrite Hc, Hd. cbn [mbind may_panic_bind].
  destruct o; [apply (IH _ _ _ Hlock') |].
  eexists _, _, _. split; [reflexivity |]. split; [reflexivity | apply Hlock'].
Qed.

End Lockstep.
