(* ===== verification/MachineTheorems.v ===== *)
(** What the interpreter does ([crates/core/src/interp/mod.rs],
    [crates/core/src/interp/dispatch.rs]): the theorems, and a four-instruction
    program they are instantiated with. *)

From stdpp Require Import base numbers list option.
From S2P Require Import Prelude Reg Pstate RegFile Operand Op Instruction Decode Flags Fetch.
From S2P Require Import Memory Trap Cache TraceFormat TraceSink Cpu Interp Isa Refine Run.

#[local] Open Scope Z_scope.

(** ** A program *)

(** [ORR X1, XZR, #0x40000000; ADD X0, X0, #3; STR X0, [X1, #16]; SVC #5],
    and eight zero bytes, at the base of the board's RAM. *)
Definition demo_words : list Z := [0xB26203E1; 0x91000C00; 0xF9000820; 0xD40000A1; 0; 0].

Definition demo_memory : FlatMemory :=
  FlatMemory.mk 0x40000000 (concat (to_le_bytes 4 <$> demo_words)).

Definition demo_cpu {S} (sink : S) : Cpu FlatMemory S :=
  let cpu := Cpu.with_sink demo_memory sink in
  Cpu.set_regs cpu (RegFile.set_pc (Cpu.regs cpu) 0x40000000).

Definition demo_state : isa_state :=
  {| isa_reg := reg_value RegFile.new; isa_pc := 0x40000000;
     isa_nzcv := Nzcv.mk false false false false; isa_mem := byte_at demo_memory |}.

(** A sink that records the blocks it is told of. *)
Definition BlockLog : Type := list (Z * Z * list RegDelta).

#[export] Instance BlockLog_TraceSink : TraceSink BlockLog := {
  ENABLED := true;
  on_marker := fun s _ _ _ => mret s;
  on_block := fun s pc icount deltas => mret (s ++ [(pc, icount, deltas)]);
  on_exception := fun s _ => mret s;
  finish := fun s _ _ => mret s
}.

#[export] Instance BlockLog_total : TotalSink BlockLog.
Proof. split; intros; apply returns_ret; exact I. Qed.

Lemma demo_memory_ok : mem_ok demo_memory.
Proof.
  split; [| split].
  - cbn. split; lia.
  - change (FlatMemory.bytes demo_memory) with (concat (to_le_bytes 4 <$> demo_words)).
    apply Forall_concat, Forall_fmap, Forall_forall. intros x _. apply to_le_bytes_is_byte.
  - vm_compute. reflexivity.
Qed.

Lemma demo_models {S} `{TotalSink S} (sink : S) : models (demo_cpu sink) demo_state.
Proof.
  destruct (with_sink_models demo_memory sink demo_memory_ok) as [[Hc Hl Hd Hp] Hrep].
  split; [split; assumption |].
  apply (represents_jump _ _ _ 0x40000000) in Hrep; [exact Hrep | split; lia].
Qed.

(** ** The theorems *)

(** C1: the interpreter refines the architecture.  On any memory that keeps the
    memory laws and with any sink that does not panic, a vCPU that models an
    architectural state [s] runs, for every budget, without panicking; the state
    it reaches models the one [isa_run] reaches from [s], it stops for the same
    reason (budget, or the same trap), and its counter has advanced by the number
    of instructions the architecture retired. *)
Theorem run_refines_architecture {M S} `{MemoryLaws M} `{TotalSink S} (n : nat) (cpu : Cpu M S)
    (s : isa_state) :
  models cpu s ->
  returns (run n cpu)
    (fun p => let '(s', k, t) := isa_run n s in
       models p.1 s' /\ p.2 = stop_of t /\
       as_u64 (Cpu.icount p.1) = as_u64 (Cpu.icount cpu + Z.of_nat k)).
Proof. apply run_simulates. Qed.

Lemma run_refines_architecture_witness :
  returns (run 10 (demo_cpu NullSink.mk))
    (fun p => let '(s', k, t) := isa_run 10 demo_state in
       models p.1 s' /\ p.2 = stop_of t /\
       as_u64 (Cpu.icount p.1) = as_u64 (0 + Z.of_nat k)).
Proof. apply (run_refines_architecture 10 (demo_cpu NullSink.mk)), demo_models. Defined.

(** C2: one step, and precise traps.  A step of a vCPU that models [s] returns.
    When the architecture continues with [s'] the vCPU models [s'], has retired
    one more instruction and has logged nothing; when it raises [t], the step
    reports [t] with the registers (the PC included), the memory and the retired
    count untouched, and the trap log is the old one with [t] recorded. *)
Theorem step_refines_architecture {M S} `{MemoryLaws M} `{TotalSink S} (cpu : Cpu M S)
    (s : isa_state) :
  models cpu s ->
  returns (step cpu) (fun p =>
    match isa_step s, p.2 with
    | Continue s', Ok _ =>
        models p.1 s' /\ Cpu.icount p.1 = wadd 64 (Cpu.icount cpu) 1 /\
        Cpu.trap_log p.1 = Cpu.trap_log cpu
    | Raise t, Err t' =>
        t' = t /\ models p.1 s /\
        Cpu.regs p.1 = Cpu.regs cpu /\ Cpu.memory p.1 = Cpu.memory cpu /\
        Cpu.icount p.1 = Cpu.icount cpu /\
        TrapLog.record_trap (Cpu.trap_log cpu) t = Done (Cpu.trap_log p.1)
    | _, _ => False
    end).
Proof. apply step_simulates. Qed.

Lemma step_refines_architecture_witness :
  returns (step (demo_cpu NullSink.mk)) (step_ok (demo_cpu NullSink.mk) demo_state).
Proof. apply step_refines_architecture, demo_models. Defined.

(** C15: tracing and caching are invisible.  Two vCPUs with different sinks,
    decode caches and trace shadows that agree on registers, memory, trap log and
    count run in lockstep: for every budget both return, with the same stop
    reason and again in agreement. *)
Theorem run_unobservable_trace_and_cache {M S T} `{MemoryLaws M} `{TotalSink S} `{TotalSink T}
    (n : nat) (c : Cpu M S) (d : Cpu M T) (s : isa_state) :
  models c s -> cpu_ok d -> agree c d ->
  exists c' d' stop, run n c = Done (c', stop) /\ run n d = Done (d', stop) /\ agree c' d'.
Proof. intros Hc Hd Ha. apply (run_lockstep n c d s). split; assumption. Qed.

Lemma run_unobservable_trace_and_cache_witness :
  exists c' d' stop, run 10 (demo_cpu NullSink.mk) = Done (c', stop) /\
    run 10 (demo_cpu ([] : BlockLog)) = Done (d', stop) /\ agree c' d'.
Proof.
  apply (run_unobservable_trace_and_cache 10 _ _ demo_state).
  - apply demo_models.
  - apply (demo_models ([] : BlockLog)).
  - split; reflexivity.
Defined.

(** Re-entering resumes.  Running with budget [a + b] is running with
    budget [a] and, unless that trapped, going on with budget [b]. *)
Theorem run_resumes {M S} `{Memory M} `{TraceSink S} (a b : nat) (cpu : Cpu M S) :
  run (a + b) cpu =
  ('(cpu, stop) ← run a cpu;
   match stop with
   | Stop.BudgetExhausted => run b cpu
   | Stop.Trapped t => mret (cpu, Stop.Trapped t)
   end).
Proof. apply run_plus. Qed.

(** The program runs to its system call, having stored its sum. *)
Example demo_runs :
  (match run 10 (demo_cpu NullSink.mk) with
   | Done (cpu, Stop.Trapped t) =>
       Some (t, Cpu.icount cpu, take 8 (drop 16 (FlatMemory.bytes (Cpu.memory cpu))))
   | _ => None
   end) = Some (Trap.SupervisorCall 0x4000000C 5, 3, [3; 0; 0; 0; 0; 0; 0; 0]).
Proof. vm_compute. reflexivity. Qed.
