(* ===== verification/TraceRun.v ===== *)
(** What the trace of a run records: the file a traced vCPU writes, replayed by the
    differ, is the sequence of architectural states the run went through. *)

From stdpp Require Import base numbers list option gmap strings.
From S2P Require Import Prelude Reg Pstate RegFile Operand Op Instruction Decode Flags Fetch.
From S2P Require Import Memory Trap Cache TraceFormat TraceSink TraceWriter TraceReader Differ.
From S2P Require Import Verdict Cpu Interp Isa Refine Run.

#[local] Open Scope Z_scope.

(** ** What an instruction leaves alone *)

(** The registers no implemented instruction writes. *)
Definition untouched (r r' : RegFile) : Prop :=
  RegFile.v r' = RegFile.v r /\ RegFile.fpcr r' = RegFile.fpcr r /\
  RegFile.fpsr r' = RegFile.fpsr r /\
  RegFile.pstate r' = with_nzcv (RegFile.pstate r) (Pstate.nzcv (RegFile.pstate r')).

Lemma untouched_refl (r : RegFile) : untouched r r.
Proof. repeat split. destruct r as [? ? ? ? [] ? ?]. reflexivity. Qed.

Lemma untouched_trans (r r' r'' : RegFile) : untouched r r' -> untouched r' r'' -> untouched r r''.
Proof.
  intros (Hv & Hc & Hs & Hp) (Hv' & Hc' & Hs' & Hp').
  split; [congruence |]. split; [congruence |]. split; [congruence |].
  rewrite Hp', Hp. reflexivity.
Qed.

Lemma untouched_set_pc (r r' : RegFile) (pc : Z) : untouched r r' -> untouched r (RegFile.set_pc r' pc).
Proof. exact id. Qed.

Lemma untouched_write_x (r r' : RegFile) (rd : Gpr) (v : Z) :
  RegFile.write_x r rd v = Done r' -> untouched r r'.
Proof.
  destruct rd; cbn; [| intros [= <-]; apply (untouched_refl r)..].
  intros (l & _ & [= <-])%bind_done_inv. apply (untouched_refl r).
Qed.

#[local] Hint Resolve untouched_refl untouched_set_pc untouched_write_x : coracle.

Section Frame.

Context {M S : Type} `{Memory M} `{TraceSink S}.

(** An arm that, when it returns, has left them alone. *)
Definition leaves {A} (cpu : Cpu M S) (m : may_panic (Cpu M S * A)) : Prop :=
  forall p, m = Done p -> untouched (Cpu.regs cpu) (Cpu.regs p.1).

Lemma leaves_ret {A} (cpu : Cpu M S) (a : A) : leaves cpu (mret (cpu, a)).
Proof. intros p [= <-]. apply untouched_refl. Qed.

Lemma leaves_bind {A B} (cpu : Cpu M S) (m : may_panic B) (f : B -> may_panic (Cpu M S * A)) :
  (forall b, m = Done b -> leaves cpu (f b)) -> leaves cpu (m ≫= f).
Proof. intros Hf p (b & Hb & Hp)%bind_done_inv. apply (Hf b Hb p Hp). Qed.

Lemma write_result_untouched (cpu cpu' : Cpu M S) (rd : Gpr) (v : Z) (w : RegWidth) :
  write_result cpu rd v w = Done cpu' -> untouched (Cpu.regs cpu) (Cpu.regs cpu').
Proof.
  unfold write_result. intros (r & Hr & [= <-])%bind_done_inv.
  destruct w; eapply untouched_write_x, Hr.
Qed.

Lemma set_nzcv_untouched (r : RegFile) (cpu : Cpu M S) (f : Nzcv) (b : bool) :
  untouched r (Cpu.regs cpu) -> untouched r (Cpu.regs (if b then set_nzcv cpu f else cpu)).
Proof.
  destruct b; [| exact id]. intros (Hv & Hc & Hs & Hp). repeat split; cbn; try assumption.
  rewrite Hp. reflexivity.
Qed.

Ltac leave :=
  repeat first
    [ apply leaves_ret
    | apply leaves_bind; intros
    | match goal with |- leaves _ (match ?x with _ => _ end) => destruct x end ].

Lemma transfer_untouched (cpu : Cpu M S) access insn size : leaves cpu (transfer cpu access insn size).
Proof.
  unfold transfer. destruct access as [[rt a] []]; leave; intros p [= <-]; cbn.
  - apply untouched_refl.
  - eapply write_result_untouched. eassumption.
Qed.


Lemma finish_untouched (cpu : Cpu M S) (rd : Gpr) (v : Z) (w : RegWidth) (b : bool) (f : Nzcv) :
  leaves cpu (cpu ← write_result cpu rd v w;
              mret (if b then set_nzcv cpu f else cpu, Ok (E:=Trap) Flow.Next)).
Proof.
  apply leaves_bind. intros cpu' Hw p [= <-]. apply set_nzcv_untouched.
  eapply write_result_untouched, Hw.
Qed.

Lemma arithmetic_untouched (cpu : Cpu M S) insn : leaves cpu (arithmetic cpu insn).
Proof.
  unfold arithmetic. cbv zeta. apply leaves_bind. intros [[[rd rn] v] |] _; [| apply leaves_ret].
  apply leaves_bind. intros l _. apply finish_untouched.
Qed.

Lemma logical_untouched (cpu : Cpu M S) insn : leaves cpu (logical cpu insn).
Proof.
  unfold logical. cbv zeta. apply leaves_bind. intros [[[rd rn] v] |] _; [| apply leaves_ret].
  apply leaves_bind. intros l _. apply finish_untouched.
Qed.

(** The optional link write of a branch. *)
Lemma jump_untouched (cpu : Cpu M S) (m : may_panic RegFile) (v pc target : Z) :
  m = mret (Cpu.regs cpu) \/ m = RegFile.write_x (Cpu.regs cpu) (Gpr.X 30) v ->
  leaves cpu (regs ← m; mret (Cpu.set_regs cpu (RegFile.set_pc regs target), Ok (E:=Trap) Flow.Branched)).
Proof.
  intros Hm. apply leaves_bind. intros r Hr p [= <-]. apply untouched_set_pc.
  destruct Hm as [-> | ->]; [injection Hr as <-; apply untouched_refl | eapply untouched_write_x, Hr].
Qed.

Lemma branch_immediate_untouched (cpu : Cpu M S) insn pc : leaves cpu (branch_immediate cpu insn pc).
Proof.
  unfold branch_immediate. destruct (Instruction.form insn); try apply leaves_ret.
  eapply jump_untouched; [exact 0 |]. destruct (Instruction.op insn); eauto.
Qed.

Lemma branch_register_untouched (cpu : Cpu M S) insn pc : leaves cpu (branch_register cpu insn pc).
Proof.
  unfold branch_register. destruct (Instruction.form insn); try apply leaves_ret.
  apply leaves_bind. intros target _. eapply jump_untouched; [exact 0 |].
  destruct (Instruction.op insn); eauto.
Qed.

Lemma load_store_untouched (cpu : Cpu M S) insn pc : leaves cpu (load_store cpu insn pc).
Proof.
  unfold load_store.
  destruct (Instruction.form insn) as [ | | | | | | | | | | | | | |rt [rt2 |] rs addr size ordering
    | | | | | | | | | | |]; try apply leaves_ret.
  apply leaves_bind. intros ea _. cbv zeta. apply leaves_bind. intros [cpu' o] Ht.
  pose proof (transfer_untouched _ _ _ _ _ Ht) as Hu. cbn [fst] in Hu.
  destruct (map_err _ o); [| intros p [= <-]; exact Hu].
  apply leaves_bind. intros r Hr p [= <-]. cbn. eapply untouched_trans; [exact Hu |].
  destruct (EffectiveAddress.writeback ea) as [[base v] |];
    [eapply untouched_write_x, Hr | injection Hr as <-; apply untouched_refl].
Qed.

Lemma execute_untouched (cpu : Cpu M S) insn pc : leaves cpu (execute cpu insn pc).
Proof.
  unfold execute. destruct (Instruction.op insn);
    first [ apply arithmetic_untouched | apply logical_untouched | apply branch_immediate_untouched
          | apply branch_register_untouched | apply load_store_untouched | apply leaves_ret ].
Qed.

End Frame.

(** ** A traced vCPU *)

(** A moment the trace reports: the count of retired instructions, the registers,
    and the exception being entered, if any. *)
Record snapshot : Type := {
  snap_count : Z;
  snap_regs : RegFile;
  snap_exception : option (Z * Z * DisconType)
}.

(** [logs p evs sns q]: these events report these snapshots, when the reader
    knows the registers [p] before them and [q] after. *)
Inductive logs : option RegFile -> list trace_event -> list snapshot -> option RegFile -> Prop :=
| logs_nil p : logs p [] [] p
| logs_block p ic r ds evs sns q :
    regfile_ok r -> in_range 64 ic -> deltas_ok p r trace_id 100 ds -> logs (Some r) evs sns q ->
    logs p (EBlock (RegFile.pc r) ic ds :: evs)
      ({| snap_count := ic; snap_regs := r; snap_exception := None |} :: sns) q
| logs_exception p ic r from to discon evs sns q :
    regfile_ok r -> in_range 64 ic -> in_range 64 from -> in_range 64 to -> logs None evs sns q ->
    logs p (EException (ExceptionEvent.mk ic from to discon r) :: evs)
      ({| snap_count := ic; snap_regs := r; snap_exception := Some (from, to, discon) |} :: sns) q.

Lemma logs_app p evs sns q evs' sns' t :
  logs p evs sns q -> logs q evs' sns' t -> logs p (evs ++ evs') (sns ++ sns') t.
Proof. induction 1; intros Hl; [exact Hl | constructor; auto..]. Qed.

Lemma stream_bytes_app (evs evs' : list trace_event) :
  stream_bytes (evs ++ evs') = stream_bytes evs ++ stream_bytes evs'.
Proof. unfold stream_bytes. rewrite fmap_app. apply join_app. Qed.

Section Traced.

Context {M : Type} `{MemoryLaws M} `{DebugAssertions}.

Lemma emit_block_logs (cpu : Cpu M CdtWriter) (pc : Z) :
  buffer_ok (Cpu.deltas cpu) -> (forall p, Cpu.previous cpu = Some p -> regfile_ok p) ->
  regfile_ok (Cpu.regs cpu) ->
  returns (emit_block cpu pc) (fun cpu' => exists ds,
    deltas_ok (Cpu.previous cpu) (Cpu.regs cpu) trace_id 100 ds /\
    Cpu.sink cpu' = CdtWriter.extend (Cpu.sink cpu) (event_bytes (EBlock pc (Cpu.icount cpu) ds)) /\
    Cpu.previous cpu' = Some (Cpu.regs cpu) /\ Cpu.regs cpu' = Cpu.regs cpu).
Proof.
  intros Hd Hp Hr. unfold emit_block. cbn [ENABLED CdtWriter_TraceSink].
  eapply returns_bind; [apply deltas_between_target; eassumption |].
  intros d [Hd' Hds]. rewrite as_slice_contents by exact Hd'. cbn [mbind may_panic_bind].
  cbn [on_block CdtWriter_TraceSink]. rewrite on_block_bytes
    by (right; rewrite buffer_length by exact Hd'; apply Hd').
  cbn [mbind may_panic_bind].
  apply returns_ret. exists (buffer_contents d). split; [exact Hds | repeat split].
Qed.

(** What an arm does to the parts of the CPU that are not the machine: nothing. *)
Lemma execute_sink (cpu cpu' : Cpu M CdtWriter) insn pc o :
  execute cpu insn pc = Done (cpu', o) ->
  Cpu.sink cpu' = Cpu.sink cpu /\ Cpu.previous cpu' = Cpu.previous cpu.
Proof.
  rewrite (execute_redo cpu cpu) by (split; reflexivity). unfold redo.
  destruct (execute cpu insn pc) as [[c1 o1] |]; [| discriminate].
  intros [= <- <-]. split; reflexivity.
Qed.

(** A step either fetches nothing and changes nothing, or logs its block. *)
Lemma step_inv (cpu cpu' : Cpu M CdtWriter) (o : result unit Trap) :
  step cpu = Done (cpu', o) ->
  (exists t, fetch cpu (RegFile.pc (Cpu.regs cpu)) = Done (Err t) /\ cpu' = cpu /\ o = Err t) \/
  (exists e cache cpu1,
     fetch cpu (RegFile.pc (Cpu.regs cpu)) = Done (Ok e) /\
     emit_block (Cpu.set_cache cpu cache) (RegFile.pc (Cpu.regs cpu)) = Done cpu1 /\
     Cpu.sink cpu' = Cpu.sink cpu1 /\ Cpu.previous cpu' = Cpu.previous cpu1 /\
     untouched (Cpu.regs cpu1) (Cpu.regs cpu')).
Proof.
  unfold step. cbv zeta. intros (f & Hf & Hs)%bind_done_inv. destruct f as [e | t].
  2: { injection Hs as <- <-. left. eauto. }
  right. apply bind_done_inv in Hs as ([cache insn] & _ & Hs).
  apply bind_done_inv in Hs as (cpu1 & He & Hs).
  apply bind_done_inv in Hs as ([cpu2 out] & Hx & Hs).
  exists e, cache, cpu1. split; [exact Hf |]. split; [exact He |].
  pose proof (execute_sink _ _ _ _ _ Hx) as [Hsink Hprev].
  pose proof (execute_untouched _ _ _ _ Hx) as Hu. cbn [fst] in Hu.
  destruct out as [flow | t].
  - injection Hs as <- _. destruct flow; cbn; auto.
  - apply bind_done_inv in Hs as (log & _ & [= <- _]). auto.
Qed.

(** A vCPU whose file so far is [w]. *)
Record traced (cpu : Cpu M CdtWriter) (s : isa_state) (w : CdtWriter) : Prop := {
  traced_models : models cpu s;
  traced_count : in_range 64 (Cpu.icount cpu);
  traced_sink : Cpu.sink cpu = w
}.

(** What has been written since, and how the vCPU's trace shadow has moved. *)
Definition wrote (cpu cpu' : Cpu M CdtWriter) (evs : list trace_event) (sns : list snapshot) : Prop :=
  Cpu.sink cpu' = CdtWriter.extend (Cpu.sink cpu) (stream_bytes evs) /\
  logs (Cpu.previous cpu) evs sns (Cpu.previous cpu') /\
  untouched (Cpu.regs cpu) (Cpu.regs cpu').

Lemma wrote_nothing (cpu : Cpu M CdtWriter) : wrote cpu cpu [] [].
Proof.
  split; [| split; [constructor | apply untouched_refl]].
  unfold CdtWriter.extend. cbn. rewrite app_nil_r. destruct (Cpu.sink cpu). reflexivity.
Qed.

Lemma wrote_trans (c1 c2 c3 : Cpu M CdtWriter) evs evs' sns sns' :
  wrote c1 c2 evs sns -> wrote c2 c3 evs' sns' -> wrote c1 c3 (evs ++ evs') (sns ++ sns').
Proof.
  intros (Hs & Hl & Hu) (Hs' & Hl' & Hu'). split; [| split].
  - rewrite Hs', Hs, stream_bytes_app. unfold CdtWriter.extend. cbn. rewrite app_assoc. reflexivity.
  - eapply logs_app; eassumption.
  - eapply untouched_trans; eassumption.
Qed.

Definition block_snapshot (cpu : Cpu M CdtWriter) : snapshot :=
  {| snap_count := Cpu.icount cpu; snap_regs := Cpu.regs cpu; snap_exception := None |}.

(** A step reports the state it starts in, unless nothing could be fetched. *)
Lemma step_logs (cpu : Cpu M CdtWriter) (s : isa_state) (p : Cpu M CdtWriter * result unit Trap) :
  models cpu s -> in_range 64 (Cpu.icount cpu) -> step cpu = Done p ->
  exists evs, wrote cpu p.1 evs
    (match bytes_at (isa_mem s) (isa_pc s) 4 with Some _ => [block_snapshot cpu] | None => [] end).
Proof.
  intros [Hcpu Hrep] Hic Hstep. destruct p as [cpu' o]. cbn [fst].
  pose proof (rep_regfile _ _ _ Hrep) as Hr.
  pose proof (fetch_refines cpu s Hrep) as Hfetch. rewrite <- (rep_pc _ _ _ Hrep) in Hfetch.
  rewrite <- (rep_pc _ _ _ Hrep).
  apply step_inv in Hstep as [(t & Hf & -> & _) | (e & cache & cpu1 & Hf & He & Hs & Hp & Hu)];
    rewrite Hf in Hfetch; destruct (bytes_at _ _ 4) as [word |]; try discriminate.
  { exists []. apply wrote_nothing. }
  destruct (emit_block_logs (Cpu.set_cache cpu cache) (RegFile.pc (Cpu.regs cpu))
    (cpu_deltas _ Hcpu) (cpu_previous _ Hcpu) Hr) as (cpu2 & He' & ds & Hds & Hs1 & Hp1 & Hr1).
  rewrite He in He'. injection He' as <-. cbn in Hds, Hs1, Hp1, Hr1.
  exists [EBlock (RegFile.pc (Cpu.regs cpu)) (Cpu.icount cpu) ds]. split; [| split].
  - rewrite Hs, Hs1. unfold stream_bytes. cbn [fmap list_fmap mjoin list_join]. rewrite app_nil_r. reflexivity.
  - rewrite Hp, Hp1. constructor; try assumption. constructor.
  - rewrite <- Hr1. exact Hu.
Qed.


(** ** What the architecture says the trace should report *)

Record point : Type := {
  at_count : Z;
  at_state : isa_state;
  at_exception : option (Z * Z * DisconType)
}.

(** The states a run of at most [n] steps fetches an instruction in. *)
Fixpoint isa_blocks (n : nat) (count : Z) (s : isa_state) : list point :=
  match n with
  | O => []
  | S n =>
      match bytes_at (isa_mem s) (isa_pc s) 4 with
      | None => []
      | Some _ =>
          {| at_count := count; at_state := s; at_exception := None |} ::
          match isa_step s with
          | Continue s' => isa_blocks n (wadd 64 count 1) s'
          | Raise _ => []
          end
      end
  end.

(** What an embedder does with a traced vCPU: runs it, and reports the exceptions
    it injects. *)
Inductive action : Type :=
| ARun (budget : nat)
| AException (from_pc to_pc : Z) (discon : DisconType).

Definition action_ok (a : action) : Prop :=
  match a with ARun _ => True | AException from to _ => in_range 64 from /\ in_range 64 to end.

Definition act {S} `{TraceSink S} (cpu : Cpu M S) (a : action) : may_panic (Cpu M S) :=
  match a with
  | ARun budget => '(cpu, _) ← run budget cpu; mret cpu
  | AException from to discon => on_exception_entry cpu from to discon
  end.

Fixpoint session {S} `{TraceSink S} (l : list action) (cpu : Cpu M S) : may_panic (Cpu M S) :=
  match l with
  | [] => mret cpu
  | a :: l => cpu ← act cpu a; session l cpu
  end.

Definition isa_act (a : action) (count : Z) (s : isa_state) : list point * Z * isa_state :=
  match a with
  | ARun n => let '(s', k, _) := isa_run n s in
      (isa_blocks n count s, wrap 64 (count + Z.of_nat k), s')
  | AException from to discon =>
      ([{| at_count := count; at_state := s; at_exception := Some (from, to, discon) |}], count, s)
  end.

Fixpoint isa_session (l : list action) (count : Z) (s : isa_state) : list point :=
  match l with
  | [] => []
  | a :: l => let '(ps, count, s) := isa_act a count s in ps ++ isa_session l count s
  end.

(** A snapshot shows an architectural state; the registers no instruction writes
    are those of [r0]. *)
Record shows (r0 : RegFile) (p : point) (sn : snapshot) : Prop := {
  shows_count : snap_count sn = at_count p;
  shows_exception : snap_exception sn = at_exception p;
  shows_regfile : regfile_ok (snap_regs sn);
  shows_reg : forall reg, gpr_ok reg -> reg_value (snap_regs sn) reg = isa_reg (at_state p) reg;
  shows_pc : RegFile.pc (snap_regs sn) = isa_pc (at_state p);
  shows_nzcv : Pstate.nzcv (RegFile.pstate (snap_regs sn)) = isa_nzcv (at_state p);
  shows_rest : untouched r0 (snap_regs sn)
}.

Lemma represents_shows (r0 : RegFile) (cpu : Cpu M CdtWriter) (s : isa_state) x :
  models cpu s -> untouched r0 (Cpu.regs cpu) ->
  shows r0 {| at_count := Cpu.icount cpu; at_state := s; at_exception := x |}
    {| snap_count := Cpu.icount cpu; snap_regs := Cpu.regs cpu; snap_exception := x |}.
Proof. intros [_ [Hr _ Hreg Hpc Hf _]] Hu. split; auto. Qed.

Lemma run_logs (n : nat) (r0 : RegFile) (cpu : Cpu M CdtWriter) (s : isa_state) :
  models cpu s -> in_range 64 (Cpu.icount cpu) -> untouched r0 (Cpu.regs cpu) ->
  returns (run n cpu) (fun p => in_range 64 (Cpu.icount p.1) /\ exists evs sns,
    wrote cpu p.1 evs sns /\ Forall2 (shows r0) (isa_blocks n (Cpu.icount cpu) s) sns).
Proof.
  revert cpu s. induction n as [| n IH]; intros cpu s Hm Hic Hu; cbn [run isa_blocks].
  { apply returns_ret. split; [exact Hic |]. exists [], []. split; [apply wrote_nothing | constructor]. }
  destruct (step_simulates cpu s Hm) as ([cpu' o] & Hstep & Hok).
  destruct (step_logs cpu s _ Hm Hic Hstep) as (evs & Hw). rewrite Hstep. cbn [mbind may_panic_bind].
  cbn [fst] in Hw. pose proof Hw as (_ & _ & Hu').
  unfold step_ok in Hok. cbn [fst snd] in Hok.
  destruct (bytes_at (isa_mem s) (isa_pc s) 4) as [word |] eqn:Ew.
  - pose proof (represents_shows r0 cpu s None Hm Hu) as Hshow.
    destruct (isa_step s) as [s1 | t], o as [[] | t']; try contradiction.
    + destruct Hok as (Hm' & Hi & _). rewrite <- Hi.
      eapply returns_mono.
      * apply IH; [exact Hm' | rewrite Hi; apply wrap_range; lia | eapply untouched_trans; eassumption].
      * intros q (Hq & evs' & sns' & Hw' & Hf). split; [exact Hq |]. exists (evs ++ evs'), (block_snapshot cpu :: sns').
        split; [apply (wrote_trans _ _ _ _ _ _ _ Hw Hw') | constructor; assumption].
    + apply returns_ret. destruct Hok as (_ & _ & _ & _ & Hi & _). cbn [fst]. rewrite Hi.
      split; [exact Hic |]. exists evs, [block_snapshot cpu]. split; [exact Hw |].
      constructor; [exact Hshow | constructor].
  - unfold isa_step in Hok. rewrite Ew in Hok. destruct o as [| t]; [contradiction |].
    destruct Hok as (_ & _ & _ & _ & Hi & _). apply returns_ret. cbn [fst]. rewrite Hi.
    split; [exact Hic |]. exists evs, []. split; [exact Hw | constructor].
Qed.

(** One action: what it writes, and the state it leaves. *)
Lemma act_logs (r0 : RegFile) (a : action) (cpu : Cpu M CdtWriter) (s : isa_state) :
  models cpu s -> in_range 64 (Cpu.icount cpu) -> untouched r0 (Cpu.regs cpu) -> action_ok a ->
  returns (act cpu a) (fun cpu' =>
    let '(ps, count, s') := isa_act a (Cpu.icount cpu) s in
    models cpu' s' /\ in_range 64 count /\ Cpu.icount cpu' = count /\ untouched r0 (Cpu.regs cpu') /\
    exists evs sns, wrote cpu cpu' evs sns /\ Forall2 (shows r0) ps sns).
Proof.
  intros Hm Hic Hu Ha. destruct a as [n | from to discon]; cbn [act isa_act].
  - destruct (run_simulates n cpu s Hm) as ([cpu' stop] & Hrun & Hsim).
    destruct (run_logs n r0 cpu s Hm Hic Hu) as (p & Hrun' & Hi & evs & sns & Hw & Hf).
    rewrite Hrun in Hrun'. injection Hrun' as <-. rewrite Hrun. cbn [mbind may_panic_bind].
    apply returns_ret. destruct (isa_run n s) as [[s' k] t]. cbn [fst] in *.
    destruct Hsim as (Hm' & _ & Hk). split; [exact Hm' |]. split; [apply wrap_range; lia |].
    split; [| split; [eapply untouched_trans; [exact Hu | apply Hw] | eauto]].
    unfold as_u64 in Hk. rewrite (wrap_small _ _ Hi) in Hk. exact Hk.
  - destruct Ha as [Hfrom Hto]. pose proof Hm as [Hcpu Hrep].
    pose proof (rep_regfile _ _ _ Hrep) as Hr. unfold on_exception_entry.
    cbn [ENABLED on_exception CdtWriter_TraceSink]. rewrite on_exception_bytes by exact Hr.
    cbn [mbind may_panic_bind]. apply returns_ret.
    split; [split; [destruct Hcpu; split; try assumption; discriminate | exact Hrep] |].
    split; [exact Hic |]. split; [reflexivity |]. split; [exact Hu |].
    exists [EException (ExceptionEvent.mk (Cpu.icount cpu) from to discon (Cpu.regs cpu))],
      [{| snap_count := Cpu.icount cpu; snap_regs := Cpu.regs cpu;
          snap_exception := Some (from, to, discon) |}].
    split; [| constructor; [apply represents_shows; assumption | constructor]].
    split; [| split; [repeat (constructor; try assumption) | apply untouched_refl]].
    unfold stream_bytes. cbn [fmap list_fmap mjoin list_join event_bytes]. rewrite app_nil_r. reflexivity.
Qed.

Lemma session_logs (r0 : RegFile) (l : list action) (cpu : Cpu M CdtWriter) (s : isa_state) :
  models cpu s -> in_range 64 (Cpu.icount cpu) -> untouched r0 (Cpu.regs cpu) ->
  Forall action_ok l ->
  returns (session l cpu) (fun cpu' => exists evs sns,
    wrote cpu cpu' evs sns /\ Forall2 (shows r0) (isa_session l (Cpu.icount cpu) s) sns).
Proof.
  intros Hm Hic Hu Hl. revert cpu s Hm Hic Hu.
  induction Hl as [| a l Ha Hl IH]; intros cpu s Hm Hic Hu; cbn [session isa_session].
  { apply returns_ret. exists [], []. split; [apply wrote_nothing | constructor]. }
  eapply returns_bind; [apply (act_logs r0); eassumption |]. intros cpu1.
  destruct (isa_act a (Cpu.icount cpu) s) as [[ps count] s'].
  intros (Hm1 & Hc & <- & Hu1 & evs & sns & Hw & Hf).
  eapply returns_mono; [apply (IH cpu1 s'); assumption |].
  intros cpu2 (evs' & sns' & Hw' & Hf'). exists (evs ++ evs'), (sns ++ sns').
  split; [eapply wrote_trans; eassumption | apply Forall2_app; assumption].
Qed.

End Traced.

(** ** The differ's replay *)

Import reader compare.

(** ** The register file as the differ sees it *)

Lemma reg_at_some (r : RegFile) (id : Z) :
  regfile_ok r -> trace_id id -> exists v, reg_at r id = Some v /\ word v.
Proof.
  intros Hr Hid. unfold reg_at, trace_reg_id.SP, trace_reg_id.PC, trace_reg_id.PSTATE,
    trace_reg_id.FPCR, trace_reg_id.FPSR.
  destruct (Z.leb_spec 0 id), (Z.ltb_spec id 31); cbn [andb];
    try (destruct (lookup_lt_is_Some_2 (RegFile.x r) (Z.to_nat id)) as [v Hv];
         [rewrite (ok_x_length _ Hr); lia |]; exists v; split; [exact Hv |];
         eapply Forall_lookup_1; [apply (ok_x _ Hr) | exact Hv]);
    (repeat match goal with |- context [id =? ?b] => destruct (Z.eqb_spec id b) end);
    try (eexists; split; [reflexivity |]; first [apply Hr | apply to_trace_word_range]);
    (destruct Hid as [Hid | Hid]; [lia |]);
    destruct (Z.leb_spec 64 id), (Z.ltb_spec id 128); try lia; cbn [andb];
    (destruct (lookup_lt_is_Some_2 (RegFile.v r) (vec_of_id id)) as [v Hv];
      [rewrite (ok_v_length _ Hr); unfold vec_of_id; pose proof (Z.div_lt_upper_bound (id - 64) 2 32); lia |]);
    rewrite Hv; eexists; (split; [reflexivity |]); destruct (id mod 2 =? 0); apply wrap_range; lia.
Qed.

Lemma reg_at_none (r : RegFile) (id : Z) : ~ trace_id id -> reg_at r id = None.
Proof.
  intros Hid. unfold trace_id in Hid. unfold reg_at, trace_reg_id.SP, trace_reg_id.PC,
    trace_reg_id.PSTATE, trace_reg_id.FPCR, trace_reg_id.FPSR.
  repeat match goal with
  | |- context [id <? ?b] => destruct (Z.ltb_spec id b)
  | |- context [?b <=? id] => destruct (Z.leb_spec b id)
  | |- context [id =? ?b] => destruct (Z.eqb_spec id b)
  end; try lia; reflexivity.
Qed.

Lemma trace_id_dec (id : Z) : trace_id id \/ ~ trace_id id.
Proof. unfold trace_id. lia. Qed.

(** The halves of a vector register determine it. *)
Lemma vec_halves_inj (a b : Z) :
  in_range 128 a -> in_range 128 b -> as_u64 a = as_u64 b ->
  as_u64 (wshr 128 a 64) = as_u64 (wshr 128 b 64) -> a = b.
Proof.
  intros Ha Hb Hlo Hhi. unfold as_u64, wshr, wrap in *. change (64 mod 128) with 64 in *.
  rewrite !Z.shiftr_div_pow2 in Hhi by lia. unfold in_range in *.
  assert (forall x, 0 <= x < 2 ^ 128 -> 0 <= x / 2 ^ 64 < 2 ^ 64) as Hdiv.
  { intros x Hx. split; [apply Z.div_pos; lia | apply Z.div_lt_upper_bound; lia]. }
  rewrite !Z.mod_small in Hhi by (apply Hdiv; assumption).
  rewrite (Z.div_mod a (2 ^ 64)), (Z.div_mod b (2 ^ 64)) by lia. congruence.
Qed.

(** What the differ compares determines the register file. *)
Lemma reg_at_inj (r r' : RegFile) :
  regfile_ok r -> regfile_ok r' -> (forall id, reg_at r id = reg_at r' id) -> r = r'.
Proof.
  intros Hr Hr' H.
  assert (RegFile.x r = RegFile.x r') as Hx.
  { apply list_eq_same_length with 31%nat; [apply (ok_x_length _ Hr') | apply (ok_x_length _ Hr) |].
    intros i a b Hi Ha Hb. pose proof (H (Z.of_nat i)) as E. rewrite !reg_at_gpr in E by lia.
    rewrite !Nat2Z.id in E. congruence. }
  assert (RegFile.v r = RegFile.v r') as Hv.
  { apply list_eq_same_length with 32%nat; [apply (ok_v_length _ Hr') | apply (ok_v_length _ Hr) |].
    intros i a b Hi Ha Hb.
    assert (0 <= Z.of_nat i < 32) as Hi' by lia.
    destruct (reg_at_vec r (Z.of_nat i) a Hi') as [Elo Ehi]; [rewrite Nat2Z.id; exact Ha |].
    destruct (reg_at_vec r' (Z.of_nat i) b Hi') as [Elo' Ehi']; [rewrite Nat2Z.id; exact Hb |].
    rewrite H in Elo, Ehi. apply vec_halves_inj; try congruence.
    - eapply Forall_lookup_1; [apply (ok_v _ Hr) | exact Ha].
    - eapply Forall_lookup_1; [apply (ok_v _ Hr') | exact Hb]. }
  pose proof (H 31) as Hsp. pose proof (H 32) as Hpc. pose proof (H 33) as Hps.
  pose proof (H 34) as Hfc. pose proof (H 35) as Hfs.
  unfold reg_at in Hsp, Hpc, Hps, Hfc, Hfs. cbn in Hsp, Hpc, Hps, Hfc, Hfs.
  assert (RegFile.pstate r = RegFile.pstate r') as Hp by (apply to_trace_word_inj; congruence).
  destruct r, r'. cbn in *. congruence.
Qed.

(** ** The file *)

Lemma deltas_wf (p : option RegFile) (r : RegFile) (n : nat) (ds : list RegDelta) :
  regfile_ok r -> deltas_ok p r trace_id n ds -> Forall delta_wf ds.
Proof.
  intros Hr [Hv Hi _]. apply Forall_forall. intros d Hd.
  assert (trace_id (RegDelta.reg_id d)) as Hid
    by (apply Hi; unfold reg_ids; apply list_elem_of_fmap; eauto).
  destruct (reg_at_some r _ Hr Hid) as (v & Hv' & Hw). rewrite (Hv d Hd) in Hv'.
  injection Hv' as <-. split; [| exact Hw]. unfold trace_id in Hid. split; lia.
Qed.

Lemma logs_wf p evs sns q : logs p evs sns q -> Forall event_wf evs.
Proof.
  induction 1 as [p | p ic r ds evs sns q Hr Hic Hds Hl IH | p ic r from to discon evs sns q Hr Hic Hf Ht Hl IH];
    [constructor | constructor; [| exact IH]..].
  - split; [apply (ok_pc _ Hr) | split; [exact Hic | eapply deltas_wf; eassumption]].
  - repeat split; cbn; first [apply Hic | apply Hf | apply Ht | apply Hr].
Qed.

(** Every record of such a file is one the differ compares. *)
Lemma logs_significant p evs sns q :
  logs p evs sns q -> significantRecords (event_record <$> evs) = event_record <$> evs.
Proof.
  unfold significantRecords.
  induction 1; cbn [fmap list_fmap]; [reflexivity | rewrite filter_cons_True by reflexivity..];
    f_equal; assumption.
Qed.

(** ** The replay *)

(** The differ's state is a register file. *)
Definition holds (s : RegisterState) (r : RegFile) : Prop :=
  forall id, trace_id id -> RegisterState.values s !! id = reg_at r id.

(** Ids that are not registers of the trace read as zero. *)
Definition clean (s : RegisterState) : Prop :=
  forall id, ~ trace_id id -> RegisterState.get s id = 0.

Lemma applyDeltas_lookup (s : RegisterState) (ds : list RegDelta) (id : Z) :
  RegisterState.values (RegisterState.applyDeltas s ds) !! id =
  apply_deltas (fun id => RegisterState.values s !! id) ds id.
Proof.
  unfold RegisterState.applyDeltas, apply_deltas. cbn.
  induction ds as [| d ds IH] using rev_ind; [reflexivity |]. rewrite !foldl_app. cbn.
  rewrite lookup_insert, <- IH.
  destruct (Z.eqb_spec id (RegDelta.reg_id d)); case_decide; congruence.
Qed.

Lemma deltas_hold (p : option RegFile) (r : RegFile) (n : nat) (ds : list RegDelta) (s : RegisterState) :
  regfile_ok r -> deltas_ok p r trace_id n ds -> clean s -> (forall q, p = Some q -> holds s q) ->
  holds (RegisterState.applyDeltas s ds) r /\ clean (RegisterState.applyDeltas s ds).
Proof.
  intros Hr [Hv Hi Hl] Hc Hp. split.
  - intros id Hid. rewrite applyDeltas_lookup, (apply_deltas_lookup r) by exact Hv.
    case_bool_decide as E; [reflexivity |]. rewrite Hi in E.
    assert (~ changed p r id) as Hch by tauto.
    rewrite <- (unchanged_known p r id Hr Hid Hch).
    destruct p as [q |]; [apply Hp; [reflexivity | exact Hid] |].
    exfalso. apply Hch. unfold changed. cbn.
    destruct (reg_at_some r id Hr Hid) as (v & Ev & _). destruct (Z.ltb_spec id 64); [congruence |].
    destruct (lookup_lt_is_Some_2 (RegFile.v r) (vec_of_id id)) as [x ->]; [| discriminate].
    rewrite (ok_v_length _ Hr). unfold vec_of_id. pose proof (Z.div_lt_upper_bound (id - 64) 2 32).
    unfold trace_id in Hid. lia.
  - intros id Hid. unfold RegisterState.get. rewrite applyDeltas_lookup, (apply_deltas_lookup r) by exact Hv.
    rewrite bool_decide_false; [apply (Hc id Hid) |]. rewrite Hi. tauto.
Qed.

Lemma vec_words_lookup (l : list Z) (k : nat) :
  mjoin (vec_words <$> l) !! k =
  (value ← l !! (k / 2)%nat;
   Some (if (k mod 2 =? 0)%nat then as_u64 value else as_u64 (wshr 128 value 64))).
Proof.
  revert k. induction l as [| v l IH]; intros k; [reflexivity |].
  change (mjoin (vec_words <$> v :: l)) with (vec_words v ++ mjoin (vec_words <$> l)).
  destruct k as [| [| k]]; [reflexivity | reflexivity |].
  change (vec_words v ++ mjoin (vec_words <$> l)) with
    (as_u64 v :: as_u64 (wshr 128 v 64) :: mjoin (vec_words <$> l)). cbn [lookup list_lookup].
  etransitivity; [apply IH |].
  replace (S (S k)) with (k + 1 * 2)%nat by lia. rewrite Nat.div_add, Nat.Div0.mod_add by lia.
  rewrite Nat.add_1_r. reflexivity.
Qed.

Lemma reg_at_half (r : RegFile) (k : nat) :
  (k < 64)%nat -> reg_at r (64 + Z.of_nat k) = mjoin (vec_words <$> RegFile.v r) !! k.
Proof.
  intros Hk. rewrite vec_words_lookup. unfold reg_at, trace_reg_id.SP, trace_reg_id.PC,
    trace_reg_id.PSTATE, trace_reg_id.FPCR, trace_reg_id.FPSR, vec_of_id.
  repeat match goal with
  | |- context [64 + Z.of_nat k <? ?b] => destruct (Z.ltb_spec (64 + Z.of_nat k) b); try lia
  | |- context [?b <=? 64 + Z.of_nat k] => destruct (Z.leb_spec b (64 + Z.of_nat k)); try lia
  | |- context [64 + Z.of_nat k =? ?b] => destruct (Z.eqb_spec (64 + Z.of_nat k) b); try lia
  end. cbn [andb].
  replace (Z.to_nat ((64 + Z.of_nat k - 64) / 2)) with (k / 2)%nat
    by (replace (64 + Z.of_nat k - 64) with (Z.of_nat k) by lia;
        rewrite <- (Nat2Z.id (k / 2)), Nat2Z.inj_div; reflexivity).
  destruct (RegFile.v r !! (k / 2)%nat); [| reflexivity]. cbn [mbind option_bind]. f_equal.
  replace ((64 + Z.of_nat k) mod 2) with (Z.of_nat (k mod 2))
    by (rewrite Nat2Z.inj_mod, Z.add_comm; change 64 with (32 * 2); rewrite Z.mod_add by lia;
        reflexivity).
  destruct (Nat.eqb_spec (k mod 2) 0), (Z.eqb_spec (Z.of_nat (k mod 2)) 0);
    first [reflexivity | lia].
Qed.

(** An exception record holds every register. *)
Lemma exception_holds (e : ExceptionEvent) (s : RegisterState) :
  regfile_ok (ExceptionEvent.regs e) -> clean s ->
  holds (apply s (event_record (EException e))) (ExceptionEvent.regs e) /\
  clean (apply s (event_record (EException e))).
Proof.
  intros Hr Hc. set (r := ExceptionEvent.regs e) in *.
  cbn [event_record apply]. fold r. unfold RegisterState.applyException. cbv zeta.
  cbn [reader.x reader.pc reader.pstate reader.fpcr reader.fpsr reader.v reader.sysreg].
  pose proof (ok_x_length _ Hr) as Hx. pose proof (ok_v_length _ Hr) as Hv.
  split; intros id Hid; unfold RegisterState.get; cbn [RegisterState.values];
    rewrite set_words_lookup; unfold RegId.SYS_BASE, NUM_SYSREG.
  - unfold trace_id in Hid. rewrite decide_False by lia. rewrite set_words_lookup.
    unfold RegId.V_BASE, NUM_VREG. destruct (decide (64 <= id < _)) as [Hin |].
    { rewrite <- (reg_at_half r) by lia. f_equal. lia. }
    rewrite !lookup_insert. unfold RegId.FPSR, RegId.FPCR, RegId.PSTATE, RegId.PC, RegId.SP.
    repeat (case_decide; [subst id; reflexivity |]).
    destruct (decide (id = 31)) as [-> | Hsp].
    { rewrite lookup_partial_alter_eq, lookup_app_r, Hx by lia. reflexivity. }
    rewrite lookup_partial_alter_ne by congruence. rewrite set_words_lookup, decide_True by lia.
    rewrite Z.sub_0_r, lookup_app_l, reg_at_gpr by lia. reflexivity.
  - unfold trace_id in Hid. destruct (decide (256 <= id < _)) as [Hin |].
    { rewrite lookup_replicate_2 by lia. reflexivity. }
    rewrite set_words_lookup. unfold RegId.V_BASE, NUM_VREG. rewrite decide_False by lia.
    rewrite !lookup_insert. unfold RegId.FPSR, RegId.FPCR, RegId.PSTATE, RegId.PC, RegId.SP.
    rewrite !decide_False by lia. rewrite lookup_partial_alter_ne by lia.
    rewrite set_words_lookup, decide_False by lia. apply Hc. exact Hid.
Qed.

Lemma block_holds (p : option RegFile) (ic : Z) (r : RegFile) (ds : list RegDelta) (s : RegisterState) :
  regfile_ok r -> deltas_ok p r trace_id 100 ds -> clean s -> (forall q, p = Some q -> holds s q) ->
  holds (apply s (event_record (EBlock (RegFile.pc r) ic ds))) r /\
  clean (apply s (event_record (EBlock (RegFile.pc r) ic ds))).
Proof.
  intros Hr Hds Hc Hp. cbn [event_record apply]. rewrite take_ge; [eapply deltas_hold; eassumption |].
  pose proof (deltas_length _ _ _ _ _ Hds). unfold MAX_DELTAS_PER_BLOCK. lia.
Qed.

(** Replaying the records gives the snapshots back. *)
Lemma logs_replay p evs sns q (s : RegisterState) :
  logs p evs sns q -> clean s -> (forall r, p = Some r -> holds s r) ->
  Forall2 (fun st sn => holds st (snap_regs sn) /\ clean st) (states s (event_record <$> evs)) sns.
Proof.
  intros Hl. revert s.
  induction Hl as [p | p ic r ds evs sns q Hr Hic Hds Hl IH | p ic r from to discon evs sns q Hr Hic Hf Ht Hl IH];
    intros s Hc Hp; cbn [fmap list_fmap states].
  - constructor.
  - pose proof (block_holds p ic r ds s Hr Hds Hc Hp) as [Hh Hc'].
    constructor; [split; assumption |]. apply IH; [exact Hc' |]. intros r' [= <-]. exact Hh.
  - pose proof (exception_holds (ExceptionEvent.mk ic from to discon r) s Hr Hc) as [Hh Hc'].
    constructor; [split; assumption |]. apply IH; [exact Hc' | discriminate].
Qed.

(** What a state reads at any id. *)
Lemma holds_get (s : RegisterState) (r : RegFile) (id : Z) :
  holds s r -> clean s -> RegisterState.get s id = default 0 (reg_at r id).
Proof.
  intros Hh Hc. destruct (trace_id_dec id) as [Hid | Hid].
  - unfold RegisterState.get. rewrite (Hh id Hid). reflexivity.
  - rewrite (Hc id Hid), (reg_at_none r id Hid). reflexivity.
Qed.

(** ** Two files *)

Lemma holds_agree (s t : RegisterState) (r r' : RegFile) :
  regfile_ok r -> regfile_ok r' -> holds s r -> clean s -> holds t r' -> clean t ->
  agrees (fp_policy.areEqual "bitwise"%string) s t <-> r = r'.
Proof.
  intros Hr Hr' Hs Hcs Ht Hct. rewrite bitwise_agrees. split.
  - intros H. apply reg_at_inj; [assumption.. |]. intros id. specialize (H id).
    destruct (trace_id_dec id) as [Hid | Hid]; [| rewrite !reg_at_none by exact Hid; reflexivity].
    rewrite (holds_get s r), (holds_get t r') in H by assumption.
    destruct (reg_at_some r id Hr Hid) as (v & Hv & _), (reg_at_some r' id Hr' Hid) as (v' & Hv' & _).
    rewrite Hv, Hv' in *. cbn in H. congruence.
  - intros <- id. rewrite (holds_get s r), (holds_get t r) by assumption. reflexivity.
Qed.

Lemma logs_regfiles p evs sns q : logs p evs sns q -> Forall (fun sn => regfile_ok (snap_regs sn)) sns.
Proof. induction 1; constructor; assumption. Qed.

(** The structural comparison of two reports. *)
Lemma logs_same_step p evs sns q p' evs' sns' q' :
  logs p evs sns q -> logs p' evs' sns' q' ->
  Forall2 same_step (event_record <$> evs) (event_record <$> evs') <->
  Forall2 (fun a b => snap_count a = snap_count b /\ snap_exception a = snap_exception b /\
                      (snap_exception a = None -> RegFile.pc (snap_regs a) = RegFile.pc (snap_regs b)))
    sns sns'.
Proof.
  intros Hl. revert p' evs' sns' q'.
  assert (forall d d', DisconType.as_Z d = DisconType.as_Z d' -> d = d') as Hinj
    by (intros [] []; cbn; congruence).
  induction Hl as [p | p ic r ds evs sns q Hr Hic Hds Hl IH | p ic r from to discon evs sns q Hr Hic Hf Ht Hl IH];
    intros p' evs' sns' q' Hl'; destruct Hl' as [p' | p' ic' r' ds' evs' sns' q' Hr' Hic' Hds' Hl'
      | p' ic' r' from' to' discon' evs' sns' q' Hr' Hic' Hf' Ht' Hl']; cbn [fmap list_fmap].
  1: split; constructor.
  1, 2, 3, 6: split; intros H; inversion H.
  all: rewrite !Forall2_cons, <- (IH _ _ _ _ Hl'); cbn [snap_count snap_exception snap_regs].
  all: apply and_iff_compat_r; unfold same_step; cbn.
  - split; [intros (_ & [= ->] & -> & _); auto | intros (-> & _ & Hpc); rewrite Hpc; auto].
  - split; [intros [E _]; discriminate | intros (_ & E & _); discriminate].
  - split; [intros [E _]; discriminate | intros (_ & E & _); discriminate].
  - split.
    + intros (_ & [= ->] & -> & -> & ->%Hinj). split; [reflexivity |]. split; [reflexivity | discriminate].
    + intros (-> & [= -> -> ->] & _). auto.
Qed.

Lemma new_clean : clean RegisterState.new.
Proof. intros id _. reflexivity. Qed.

(** Bitwise, two files agree exactly when they report the same snapshots. *)
Lemma logs_aligned evs sns q evs' sns' q' :
  logs None evs sns q -> logs None evs' sns' q' ->
  aligned (fp_policy.areEqual "bitwise"%string) RegisterState.new RegisterState.new
    (event_record <$> evs) (event_record <$> evs') <-> sns = sns'.
Proof.
  intros Hl Hl'. unfold aligned. rewrite (logs_same_step _ _ _ _ _ _ _ _ Hl Hl').
  pose proof (logs_replay _ _ _ _ _ Hl new_clean ltac:(discriminate)) as Hs.
  pose proof (logs_replay _ _ _ _ _ Hl' new_clean ltac:(discriminate)) as Ht.
  pose proof (logs_regfiles _ _ _ _ Hl) as Hr. pose proof (logs_regfiles _ _ _ _ Hl') as Hr'.
  revert Hs Ht Hr Hr'. clear Hl Hl'. generalize (states RegisterState.new (event_record <$> evs)) as ss.
  generalize (states RegisterState.new (event_record <$> evs')) as ts. revert sns'.
  induction sns as [| a sns IH]; intros sns' ts ss Hs Ht Hr Hr'.
  - inversion Hs; subst. destruct Ht as [| t b ts sns' Ht Hts];
      (split; [intros [H1 H2]; inversion H1; reflexivity | intros E; try discriminate; split; constructor]).
  - apply Forall2_cons_inv_r in Hs as (s & ss' & [Hh Hc] & Hs & ->).
    destruct Ht as [| t b ts sns' [Hh' Hc'] Hts];
      [split; [intros [H _]; inversion H | discriminate] |].
    apply Forall_cons in Hr as [Hr Hrs]. apply Forall_cons in Hr' as [Hr' Hrs'].
    specialize (IH sns' ts ss' Hs Hts Hrs Hrs'). rewrite !Forall2_cons.
    rewrite (holds_agree s t _ _ Hr Hr' Hh Hc Hh' Hc').
    destruct a as [ic r x], b as [ic' r' x']. cbn in *. split.
    + intros [[(-> & -> & _) H1] [-> H2]]. f_equal. tauto.
    + intros [= -> -> -> ->]. split; [split; [auto |]; apply IH; reflexivity | split; [reflexivity |]; apply IH; reflexivity].
Qed.

(** ** What a file says of the architecture *)

(** The value the differ should hold for an id in the state [s], when the
    registers no instruction writes are those of [r0]. *)
Definition architectural (r0 : RegFile) (s : isa_state) (id : Z) : Z :=
  if (0 <=? id) && (id <? 31) then isa_reg s (Gpr.X id)
  else if id =? RegId.SP then isa_reg s Gpr.SP
  else if id =? RegId.PC then isa_pc s
  else if id =? RegId.PSTATE then
    Pstate.to_trace_word (with_nzcv (RegFile.pstate r0) (isa_nzcv s))
  else default 0 (reg_at r0 id).

(** The record of a point, its registers aside. *)
Definition reports (p : point) (record : Record_) : Prop :=
  match at_exception p, record with
  | None, Block pc icount n _ => pc = isa_pc (at_state p) /\ icount = at_count p /\ n = 1
  | Some (from, to, discon), Exception e =>
      reader.icount e = at_count p /\ fromPc e = from /\ toPc e = to /\
      disconType e = DisconType.as_Z discon
  | _, _ => False
  end.

Lemma reg_value_x (r : RegFile) (n : Z) :
  regfile_ok r -> 0 <= n < 31 -> RegFile.x r !! Z.to_nat n = Some (reg_value r (Gpr.X n)).
Proof.
  intros Hr Hn. destruct (read_x_value r (Gpr.X n) Hr Hn) as [E _]. cbn in E. unfold index in E.
  destruct (Z.ltb_spec n 0); [lia |]. destruct (RegFile.x r !! Z.to_nat n); congruence.
Qed.

Lemma shows_architectural (r0 : RegFile) (p : point) (sn : snapshot) (id : Z) :
  shows r0 p sn -> default 0 (reg_at (snap_regs sn) id) = architectural r0 (at_state p) id.
Proof.
  intros [_ _ Hr Hreg Hpc Hf (Hv & Hfc & Hfs & Hps)]. set (r := snap_regs sn) in *.
  unfold architectural, RegId.SP, RegId.PC, RegId.PSTATE.
  destruct (decide (0 <= id < 31)) as [Hid | Hid].
  { rewrite reg_at_gpr, reg_value_x by assumption. cbn [default].
    destruct (Z.leb_spec 0 id), (Z.ltb_spec id 31); try lia. cbn. apply Hreg. exact Hid. }
  unfold reg_at, trace_reg_id.SP, trace_reg_id.PC, trace_reg_id.PSTATE, trace_reg_id.FPCR,
    trace_reg_id.FPSR.
  destruct ((0 <=? id) && (id <? 31)) eqn:E; [lia |].
  destruct (id =? 31); [apply (Hreg Gpr.SP); exact I |].
  destruct (id =? 32); [exact Hpc |].
  destruct (id =? 33); [cbn; rewrite Hps, Hf; reflexivity |].
  destruct (id =? 34); [cbn; congruence |]. destruct (id =? 35); [cbn; congruence |].
  rewrite Hv. reflexivity.
Qed.

Lemma logs_reports (r0 : RegFile) p evs sns q (ps : list point) :
  logs p evs sns q -> Forall2 (shows r0) ps sns -> Forall2 reports ps (event_record <$> evs).
Proof.
  intros Hl. revert ps.
  induction Hl; intros ps Hps; cbn [fmap list_fmap];
    [apply Forall2_nil_inv_r in Hps as ->; constructor |
     apply Forall2_cons_inv_r in Hps as (a & ps' & [Hc Hx _ _ Hpc _ _] & Hps & ->)..];
    (constructor; [| apply IHHl, Hps]); unfold reports; cbn in Hc, Hx, Hpc |- *; rewrite <- Hx; auto.
Qed.

(** ** A fresh vCPU writing a file *)

Record fresh {M} `{DebugAssertions} (name : list Z) (mode : FpMode) (cpu : Cpu M CdtWriter) : Prop := {
  fresh_sink : CdtWriter.new name mode = Done (Cpu.sink cpu);
  fresh_previous : Cpu.previous cpu = None;
  fresh_count : in_range 64 (Cpu.icount cpu)
}.

Lemma load_stream (name : list Z) (m : FpMode) (evs : list trace_event) :
  Forall event_wf evs ->
  loadTrace (header_bytes name m ++ stream_bytes evs) = Ok (header_of name m, event_record <$> evs).
Proof.
  intros Hev.
  destruct (@stream_roundtrip false name m evs Hev (or_introl eq_refl)) as (w & Hw & Hload).
  rewrite write_stream_bytes in Hw by auto. injection Hw as <-. exact Hload.
Qed.

Lemma session_file {M} `{MemoryLaws M} `{DebugAssertions} (name : list Z) (mode : FpMode) (l : list action)
    (cpu : Cpu M CdtWriter) (s : isa_state) :
  models cpu s -> fresh name mode cpu -> Forall action_ok l ->
  returns (session l cpu) (fun cpu' => exists evs sns q,
    loadTrace (CdtWriter.bytes (Cpu.sink cpu')) = Ok (header_of name mode, event_record <$> evs) /\
    logs None evs sns q /\
    Forall2 (shows (Cpu.regs cpu)) (isa_session l (Cpu.icount cpu) s) sns).
Proof.
  intros Hm [Hs Hp Hi] Hl.
  eapply returns_mono; [apply (session_logs (Cpu.regs cpu)); try eassumption; apply untouched_refl |].
  intros cpu' (evs & sns & (Hw & Hlog & _) & Hf). exists evs, sns, (Cpu.previous cpu').
  rewrite Hp in Hlog. split; [| split; assumption].
  rewrite new_bytes in Hs. injection Hs as Hs. rewrite Hw, <- Hs.
  apply load_stream. eapply logs_wf, Hlog.
Qed.

(** Two points the trace cannot tell apart. *)
Definition same_point (p q : point) : Prop :=
  at_count p = at_count q /\ at_exception p = at_exception q /\
  (forall reg, gpr_ok reg -> isa_reg (at_state p) reg = isa_reg (at_state q) reg) /\
  isa_pc (at_state p) = isa_pc (at_state q) /\ isa_nzcv (at_state p) = isa_nzcv (at_state q).

Lemma shows_same (r0 r1 : RegFile) (p q : point) (a b : snapshot) :
  untouched r0 r1 -> shows r0 p a -> shows r1 q b -> a = b <-> same_point p q.
Proof.
  intros (Hv & Hfc & Hfs & Hps) [Hc Hx Hr Hreg Hpc Hf (Hv1 & Hfc1 & Hfs1 & Hps1)]
    [Hc' Hx' Hr' Hreg' Hpc' Hf' (Hv2 & Hfc2 & Hfs2 & Hps2)].
  unfold same_point. rewrite <- Hc, <- Hc', <- Hx, <- Hx', <- Hpc, <- Hpc', <- Hf, <- Hf'. split.
  { intros <-. split; [reflexivity |]. split; [reflexivity |]. split; [| split; reflexivity].
    intros reg Hg. rewrite <- Hreg, <- Hreg' by exact Hg. reflexivity. }
  intros (E1 & E2 & E3 & E4 & E5).
  assert (snap_regs a = snap_regs b) as E6.
  2: { destruct a, b. cbn in *. congruence. }
  assert (forall reg, gpr_ok reg -> reg_value (snap_regs a) reg = reg_value (snap_regs b) reg) as E
    by (intros reg Hg; rewrite Hreg, Hreg' by exact Hg; apply E3, Hg).
  assert (RegFile.x (snap_regs a) = RegFile.x (snap_regs b)) as Ex.
  { apply list_eq_same_length with 31%nat; [apply (ok_x_length _ Hr') | apply (ok_x_length _ Hr) |].
    intros i u w Hi Hu Hw.
    pose proof (reg_value_x _ (Z.of_nat i) Hr ltac:(lia)) as Eu.
    pose proof (reg_value_x _ (Z.of_nat i) Hr' ltac:(lia)) as Ew.
    rewrite Nat2Z.id in Eu, Ew. rewrite (E (Gpr.X (Z.of_nat i))) in Eu by (cbn; unfold NUM_GPR; lia).
    congruence. }
  pose proof (E Gpr.SP I) as Esp. unfold reg_value in Esp. cbn in Esp.
  assert (RegFile.pstate (snap_regs a) = RegFile.pstate (snap_regs b)) as Ep
    by (rewrite Hps1, Hps2, Hps, E5; reflexivity).
  destruct (snap_regs a), (snap_regs b). cbn in *. congruence.
Qed.

Lemma shows_all_same (r0 r1 : RegFile) (ps qs : list point) (sns sns' : list snapshot) :
  untouched r0 r1 -> Forall2 (shows r0) ps sns -> Forall2 (shows r1) qs sns' ->
  sns = sns' <-> Forall2 same_point ps qs.
Proof.
  intros Hu Hp. revert qs sns'. induction Hp as [| p a ps sns Ha Hp IH]; intros qs sns' Hq.
  - destruct Hq as [| q b qs sns' Hb Hq]; [split; [constructor | reflexivity] |].
    split; [discriminate | intros H; inversion H].
  - destruct Hq as [| q b qs sns' Hb Hq]; [split; [discriminate | intros H; inversion H] |].
    rewrite Forall2_cons, <- (shows_same _ _ _ _ _ _ Hu Ha Hb), <- (IH _ _ Hq).
    split; [intros [= -> ->]; tauto | intros [-> ->]; reflexivity].
Qed.

(** The verdict on two files of one CPU, asked for bitwise. *)
Lemma main_bitwise (f g : list Z) (h : Header) (rs rs' : list Record_) (options : diff.Options) :
  loadTrace f = Ok (h, rs) -> loadTrace g = Ok (h, rs') ->
  diff.fpPolicy options = Some "bitwise"%string ->
  diff.main f g options =
  Ok (compareTraces rs rs' (fp_policy.areEqual "bitwise"%string) (diff.history options), false).
Proof.
  intros Hf Hg Ho. unfold diff.main. rewrite Hf, Hg. unfold diff.assertComparable. cbv zeta.
  cbn [fst]. rewrite Z.eqb_refl, Ho. cbn [orb]. unfold diff.choosePolicy, diff.isPrecise. cbn [fst].
  rewrite (bool_decide_true ("bitwise"%string ∈ _)) by (vm_compute; constructor). cbn [negb].
  rewrite bool_decide_true by reflexivity. rewrite andb_false_r. reflexivity.
Qed.

(** And by default, in precise mode. *)
Lemma main_precise (f g : list Z) (name name' : list Z) (rs rs' : list Record_)
    (options : diff.Options) :
  loadTrace f = Ok (header_of name FpMode.Precise, rs) ->
  loadTrace g = Ok (header_of name' FpMode.Precise, rs') ->
  diff.fpPolicy options = None \/ diff.fpPolicy options = Some "bitwise"%string ->
  diff.main f g options =
  Ok (compareTraces rs rs' (fp_policy.areEqual "bitwise"%string) (diff.history options), false).
Proof.
  intros Hf Hg Ho. unfold diff.main. rewrite Hf, Hg. unfold diff.assertComparable. cbv zeta.
  cbn [fst cpuFeatureId header_of]. rewrite Z.eqb_refl. cbn [orb].
  destruct Ho as [-> | ->]; reflexivity.
Qed.

Lemma shows_replay (r0 : RegFile) (ps : list point) (sns : list snapshot) (sts : list RegisterState) :
  Forall2 (shows r0) ps sns -> Forall2 (fun st sn => holds st (snap_regs sn) /\ clean st) sts sns ->
  Forall2 (fun p st => forall id, RegisterState.get st id = architectural r0 (at_state p) id) ps sts.
Proof.
  intros Hs. revert sts. induction Hs as [| p sn ps sns Hp Hs IH]; intros sts Hr.
  - apply Forall2_nil_inv_r in Hr as ->. constructor.
  - apply Forall2_cons_inv_r in Hr as (st & sts' & [Hh Hc] & Hr & ->). constructor; [| apply IH, Hr].
    intros id. rewrite (holds_get st (snap_regs sn)) by assumption. apply shows_architectural, Hp.
Qed.
