(* ===== verification/DifferTheorems.v ===== *)
(** What the differ decides ([tests/differ/]): the verdict on two traces, the
    divergence it reports, its policies, and what a traced run's file and a match
    between two files say about the runs. *)

From stdpp Require Import base numbers list option gmap strings.
From S2P Require Import Prelude Reg Pstate RegFile Operand Op Instruction Decode Flags Fetch.
From S2P Require Import Memory Trap Cache TraceFormat TraceSink TraceWriter TraceReader.
From S2P Require Import TraceTheorems Differ Verdict Perturb Cpu Interp Isa Refine Run.
From S2P Require Import MachineTheorems TraceRun.

#[local] Open Scope Z_scope.

Import reader compare.

(** ** The verdict *)

(** C17: the differ says [ok] exactly when the traces agree.  For any two lists of
    records, any comparator of floating-point registers and any history depth,
    [compareTraces] matches iff the block and exception records of the two agree
    pairwise in type, count, PC and length (or source, target and kind of the
    exception), there are as many of them, and after each pair the two replayed
    register states agree on every id (or, for a floating-point id, the comparator
    accepts the two values). *)
Theorem verdict_sound_and_complete (eq : Z -> Z -> Z -> bool) (depth : Z) (left right : list Record_) :
  Verdict.ok (compareTraces left right eq depth) = true <->
  let l := significantRecords left in
  let r := significantRecords right in
  Forall2 same_step l r /\
  Forall2 (fun s t => forall id, RegisterState.get s id = RegisterState.get t id \/
             isFpReg id = true /\
             eq id (RegisterState.get s id) (RegisterState.get t id) = true)
    (states RegisterState.new l) (states RegisterState.new r).
Proof. apply verdict_ok. Qed.

(** C18: the reported divergence is the first.  When [compareTraces] answers that
    two traces diverge at step [k], their first [k] significant records agree, and
    either one trace ends there ([LENGTH]), or the two records of step [k] disagree,
    or they agree and the reported register is the least id on which the states
    after them differ, with its two values; the history is the last [depth] steps
    before. *)
Theorem first_divergence (eq : Z -> Z -> Z -> bool) (depth : Z) (left right : list Record_)
    (d : Divergence) (history : list Entry) :
  0 <= depth -> compareTraces left right eq depth = Verdict.Diverged d history ->
  let l := significantRecords left in
  let r := significantRecords right in
  let k := Divergence.index d in
  aligned eq RegisterState.new RegisterState.new (take k l) (take k r) /\
  history = drop (k - Z.to_nat depth) (entries 0 (take k l)) /\
  ((Divergence.kind d = KIND.LENGTH /\ k = Nat.min (length l) (length r) /\ length l <> length r) \/
   exists a b, l !! k = Some a /\ r !! k = Some b /\
     diverges eq (replay RegisterState.new (take (S k) l)) (replay RegisterState.new (take (S k) r)) a b d).
Proof. apply diverged_first. Qed.

Lemma first_divergence_witness :
  let d := Divergence.mk KIND.REGISTER 0 (Some 0) (Some 0x1000) (Some 5) None 7 8 in
  compareTraces [Block 0x1000 0 1 [RegDelta.mk 5 7]] [Block 0x1000 0 1 [RegDelta.mk 5 8]]
    (fp_policy.areEqual "bitwise"%string) 8 = Verdict.Diverged d [] /\
  [] = drop (0 - Z.to_nat 8) (entries 0 []).
Proof.
  cbv zeta. assert (compareTraces [Block 0x1000 0 1 [RegDelta.mk 5 7]] [Block 0x1000 0 1 [RegDelta.mk 5 8]]
    (fp_policy.areEqual "bitwise"%string) 8 =
    Verdict.Diverged (Divergence.mk KIND.REGISTER 0 (Some 0) (Some 0x1000) (Some 5) None 7 8) []) as E
    by (vm_compute; reflexivity).
  split; [exact E |]. apply (first_divergence _ 8 _ _ _ _ ltac:(lia) E).
Defined.

(** ** Runs *)

(** C3: the trace of a run is the architecture's execution.  A fresh vCPU that
    models [s] and writes a file is driven by any list of runs and injected
    exceptions.  That returns, and the file it leaves is one [loadTrace] accepts:
    one record for each instruction the architecture fetches and each exception, in
    order, with its count of retired instructions, its PC or its source, target and
    kind; and a differ that replays the file holds after each record, at every id,
    the value that register has in that architectural state. *)
Theorem trace_of_run {M} `{MemoryLaws M} `{DebugAssertions} (name : list Z) (mode : FpMode) (l : list action)
    (cpu : Cpu M CdtWriter) (s : isa_state) :
  models cpu s -> fresh name mode cpu -> Forall action_ok l ->
  returns (session l cpu) (fun cpu' => exists records,
    loadTrace (CdtWriter.bytes (Cpu.sink cpu')) = Ok (header_of name mode, records) /\
    significantRecords records = records /\
    let points := isa_session l (Cpu.icount cpu) s in
    Forall2 reports points records /\
    Forall2 (fun p st => forall id,
        RegisterState.get st id = architectural (Cpu.regs cpu) (at_state p) id)
      points (states RegisterState.new records)).
Proof.
  intros Hm Hf Hl. eapply returns_mono; [apply (session_file name mode); eassumption |].
  intros cpu' (evs & sns & q & Hload & Hlog & Hshow). exists (event_record <$> evs).
  split; [exact Hload |]. split; [eapply logs_significant, Hlog |]. cbv zeta.
  split; [eapply logs_reports; eassumption |].
  pose proof (logs_replay _ _ _ _ _ Hlog new_clean ltac:(discriminate)) as Hr.
  eapply shows_replay; eassumption.
Qed.

(** C4: a match certifies the runs.  Two fresh vCPUs, over any two memories, that
    start with the same vector and control registers write their files in precise
    mode, each driven by its own list of runs and exceptions.  The differ, under the
    default policy or an explicit [bitwise], answers on the two files with no error:
    it exits with 0 if the architectural executions agree point by point in count,
    exception, general-purpose registers, SP, PC and flags, and with 1 if they do
    not. *)
Theorem differ_certifies {M N} `{MemoryLaws M} `{MemoryLaws N} `{DebugAssertions}
    (name name' : list Z) (l k : list action) (c : Cpu M CdtWriter) (d : Cpu N CdtWriter) (s t : isa_state)
    (options : diff.Options) :
  models c s -> models d t -> fresh name FpMode.Precise c -> fresh name' FpMode.Precise d ->
  untouched (Cpu.regs c) (Cpu.regs d) -> Forall action_ok l -> Forall action_ok k ->
  diff.fpPolicy options = None \/ diff.fpPolicy options = Some "bitwise"%string ->
  exists c' d', session l c = Done c' /\ session k d = Done d' /\
    let code := diff.exit_code (diff.main (CdtWriter.bytes (Cpu.sink c'))
                                          (CdtWriter.bytes (Cpu.sink d')) options) in
    let agree := Forall2 same_point (isa_session l (Cpu.icount c) s) (isa_session k (Cpu.icount d) t) in
    (agree /\ code = diff.EXIT_MATCH) \/ (~ agree /\ code = diff.EXIT_DIVERGED).
Proof.
  intros Hc Hd Hfc Hfd Hu Hl Hk Ho.
  destruct (session_file name FpMode.Precise l c s Hc Hfc Hl)
    as (c' & Ec & evs & sns & q & Hload & Hlog & Hshow).
  destruct (session_file name' FpMode.Precise k d t Hd Hfd Hk)
    as (d' & Ed & evs' & sns' & q' & Hload' & Hlog' & Hshow').
  exists c', d'. split; [exact Ec |]. split; [exact Ed |]. cbv zeta.
  rewrite (main_precise _ _ _ _ _ _ _ Hload Hload' Ho).
  rewrite <- (shows_all_same _ _ _ _ _ _ Hu Hshow Hshow').
  pose proof (verdict_ok (fp_policy.areEqual "bitwise"%string) (diff.history options)
    (event_record <$> evs) (event_record <$> evs')) as Hok.
  rewrite (logs_significant _ _ _ _ Hlog), (logs_significant _ _ _ _ Hlog') in Hok.
  rewrite (logs_aligned _ _ _ _ _ _ Hlog Hlog') in Hok.
  destruct (compareTraces _ _ _ _); cbn in *; [left | right]; intuition discriminate.
Qed.

(** ** A run of the sample program, traced, with the debug assertions on *)

#[local] Instance demo_assertions : DebugAssertions := true.

Definition traced_demo : Cpu FlatMemory CdtWriter :=
  demo_cpu (CdtWriter.mk (header_bytes [100; 101; 109; 111] FpMode.Precise)).

Definition demo_actions : list action :=
  [ARun 2; ARun 10; AException 0x4000000C 0x200 DisconType.HostCall].

Lemma demo_fresh `{DebugAssertions} : fresh [100; 101; 109; 111] FpMode.Precise traced_demo.
Proof. split; [apply new_bytes | reflexivity | split; cbn; lia]. Qed.

Lemma demo_actions_ok : Forall action_ok demo_actions.
Proof. repeat constructor; cbn; lia. Qed.

Lemma trace_of_run_witness :
  returns (session demo_actions traced_demo) (fun cpu' => exists records,
    loadTrace (CdtWriter.bytes (Cpu.sink cpu')) =
      Ok (header_of [100; 101; 109; 111] FpMode.Precise, records) /\
    significantRecords records = records /\
    Forall2 reports (isa_session demo_actions 0 demo_state) records).
Proof.
  eapply returns_mono.
  - apply (trace_of_run [100; 101; 109; 111] FpMode.Precise demo_actions traced_demo demo_state);
      [apply (demo_models (S := CdtWriter)) | exact demo_fresh | exact demo_actions_ok].
  - intros cpu' (records & Hload & Hsig & Hrep & _). exists records.
    split; [exact Hload |]. split; [exact Hsig | exact Hrep].
Defined.

Lemma differ_certifies_witness :
  exists c' d', session demo_actions traced_demo = Done c' /\
    session [ARun 1] traced_demo = Done d' /\
    let code := diff.exit_code (diff.main (CdtWriter.bytes (Cpu.sink c')) (CdtWriter.bytes (Cpu.sink d'))
      {| diff.fpPolicy := None; diff.history := 8; diff.allowFeatureMismatch := false |}) in
    code = diff.EXIT_MATCH \/ code = diff.EXIT_DIVERGED.
Proof.
  destruct (differ_certifies [100; 101; 109; 111] [100; 101; 109; 111] demo_actions [ARun 1]
    traced_demo traced_demo demo_state demo_state
    {| diff.fpPolicy := None; diff.history := 8; diff.allowFeatureMismatch := false |})
    as (c' & d' & Hc & Hd & Hcode).
  - apply (demo_models (S := CdtWriter)).
  - apply (demo_models (S := CdtWriter)).
  - exact demo_fresh.
  - exact demo_fresh.
  - apply untouched_refl.
  - exact demo_actions_ok.
  - repeat constructor.
  - left. reflexivity.
  - exists c', d'. split; [exact Hc |]. split; [exact Hd |]. cbv zeta. destruct Hcode as [[_ E] | [_ E]];
      [left | right]; exact E.
Defined.

(** The exit codes on these files: against itself, a shorter run, and the same
    run over another memory. *)
Definition code_of (l k : list action) (c d : Cpu FlatMemory CdtWriter) : Z :=
  match session l c, session k d with
  | Done c', Done d' =>
      diff.exit_code (diff.main (CdtWriter.bytes (Cpu.sink c')) (CdtWriter.bytes (Cpu.sink d'))
        {| diff.fpPolicy := None; diff.history := 8; diff.allowFeatureMismatch := false |})
  | _, _ => diff.EXIT_ERROR
  end.

Example demo_codes :
  (code_of demo_actions demo_actions traced_demo traced_demo,
   code_of [ARun 10] [ARun 2] traced_demo traced_demo,
   code_of [ARun 10] [ARun 3; ARun 7] traced_demo traced_demo) = (0, 1, 0).
Proof. vm_compute. reflexivity. Qed.

(** ** Policies *)

(** C36: what each policy accepts.  [bitwise] accepts equal values only.
    [nan-insensitive] also accepts, in the ids of the vector registers, two NaNs of
    the same signalling class read as binary64, or whose low words are two NaNs of
    the same class read as binary32, whatever the high words are.  [ignore-fpsr]
    also accepts two FPSR values that differ in cumulative exception bits only.  A
    trace that matches under a policy matches under each weaker one. *)
Theorem policies_accept (left right : list Record_) (depth : Z) (id l r : Z) :
  (fp_policy.areEqual "bitwise"%string id l r = true <-> l = r) /\
  (fp_policy.areEqual "nan-insensitive"%string id l r = true <->
     l = r \/ (64 <= id < 128 /\ (same_nan 52 11 l r \/ same_nan 23 8 l r))) /\
  (fp_policy.areEqual "ignore-fpsr"%string id l r = true <->
     l = r \/ (64 <= id < 128 /\ (same_nan 52 11 l r \/ same_nan 23 8 l r)) \/
     (id = 35 /\ same_but_cumulative l r)) /\
  (let matches policy := Verdict.ok (compareTraces left right (fp_policy.areEqual policy) depth) in
   (matches "bitwise"%string = true -> matches "nan-insensitive"%string = true) /\
   (matches "nan-insensitive"%string = true -> matches "ignore-fpsr"%string = true)).
Proof.
  split; [apply bitwise_spec |]. split; [apply nan_insensitive_spec |]. split; [apply ignore_fpsr_spec |].
  cbv zeta. rewrite !verdict_ok. split; apply aligned_mono; intros i x y.
  - rewrite bitwise_spec, nan_insensitive_spec. tauto.
  - rewrite nan_insensitive_spec, ignore_fpsr_spec. tauto.
Qed.

(** Lanes 1.0 and 2.0 above the same quiet NaN: a divergence that is accepted. *)
Example high_lane_ignored :
  fp_policy.areEqual "nan-insensitive"%string RegId.V_BASE 0x3F8000007FC00000 0x400000007FC00000 = true.
Proof. vm_compute. reflexivity. Qed.

(** The source's own checks of the policies ([tests/differ/fp_policy_test.mjs]). *)
Definition fp_policy_test : bool :=
  let V0 := RegId.V_BASE in
  let QNAN_64 := 0x7ff8000000000000 in
  let QNAN_64_OTHER_PAYLOAD := 0x7ff8000000abcdef in
  let SNAN_64 := 0x7ff4000000000000 in
  let INF_64 := 0x7ff0000000000000 in
  let ONE_64 := 0x3ff0000000000000 in
  let bitwise := fp_policy.areEqual "bitwise"%string in
  let nanInsensitive := fp_policy.areEqual "nan-insensitive"%string in
  let ignoreFpsr := fp_policy.areEqual "ignore-fpsr"%string in
  bitwise V0 ONE_64 ONE_64 && negb (bitwise V0 QNAN_64 QNAN_64_OTHER_PAYLOAD) &&
  nanInsensitive V0 QNAN_64 QNAN_64_OTHER_PAYLOAD && negb (nanInsensitive V0 QNAN_64 SNAN_64) &&
  negb (nanInsensitive V0 QNAN_64 INF_64) && negb (nanInsensitive V0 ONE_64 INF_64) &&
  negb (nanInsensitive RegId.FPCR 0 1) && negb (nanInsensitive RegId.FPSR 0 0x10) &&
  ignoreFpsr RegId.FPSR 0 0x1f && negb (ignoreFpsr RegId.FPSR 0 0x8000000) &&
  ignoreFpsr V0 QNAN_64 QNAN_64_OTHER_PAYLOAD.

Example fp_policy_tests_pass : fp_policy_test = true.
Proof. vm_compute. reflexivity. Qed.

(** ** The differ's own test *)

(** C19: an injected fault is found, and found where it is.  Take any trace file made
    of whole records, a block or exception record of it that carries a register (in
    a block, among deltas that name no register twice) and a non-zero mask.  Then
    [perturb] succeeds and reports the old value and the new one, and the differ,
    run bitwise on the two files, exits with 1 and reports that register at that
    step with those two values. *)
Theorem fault_found (file : list Z) (h : Header) (records : list Record_) (step : nat)
    (regId mask value : Z) (r : Record_) (options : diff.Options) :
  file_of file h records -> significantRecords records !! step = Some r ->
  value_of r regId = Some value ->
  (forall pc icount n ds, r = Block pc icount n ds -> NoDup (RegDelta.reg_id <$> ds)) ->
  0 <= regId -> word mask -> mask <> 0 -> 0 <= diff.history options ->
  diff.fpPolicy options = Some "bitwise"%string ->
  exists out d history,
    perturb.perturb file regId step mask = Ok out /\ perturb.before out = value /\
    perturb.after out = Z.lxor value mask /\
    diff.main file (perturb.bytes out) options = Ok (Verdict.Diverged d history, false) /\
    Divergence.kind d = KIND.REGISTER /\ Divergence.index d = step /\
    Divergence.regId d = Some regId /\ Divergence.expected d = value /\
    Divergence.actual d = Z.lxor value mask.
Proof.
  intros Hfile Hr Hv Hnd Hid Hmask Hnz Hh Hp.
  destruct (perturb_spec file h records step regId mask value r Hfile Hid Hmask Hr Hv)
    as (file' & Hout & Hfile').
  assert (Z.lxor value mask <> value) as Hne.
  { intros E. apply Hnz.
    rewrite <- (Z.lxor_0_l mask), <- (Z.lxor_nilpotent value), Z.lxor_assoc at 1.
    rewrite E. apply Z.lxor_nilpotent. }
  destruct (change_detected records step regId value _ (diff.history options) r Hh Hr
    (file_shape _ _ _ _ _ Hfile Hr Hnd) Hv Hne) as (d & hist & E & Hd).
  eexists _, d, hist. split; [exact Hout |]. split; [reflexivity |]. split; [reflexivity |].
  cbn [perturb.bytes]. split; [| exact Hd].
  rewrite (main_bitwise _ _ _ _ _ _ (file_loads _ _ _ Hfile) (file_loads _ _ _ Hfile') Hp).
  rewrite E. reflexivity.
Qed.

Lemma fault_found_witness :
  exists out d history,
    perturb.perturb (header_bytes [] FpMode.Native ++ stream_bytes sample_events) 30 1 0x40 = Ok out /\
    perturb.before out = 0 /\ perturb.after out = 0x40 /\
    diff.main (header_bytes [] FpMode.Native ++ stream_bytes sample_events) (perturb.bytes out)
      {| diff.fpPolicy := Some "bitwise"%string; diff.history := 8; diff.allowFeatureMismatch := false |} =
      Ok (Verdict.Diverged d history, false) /\
    Divergence.kind d = KIND.REGISTER /\ Divergence.index d = 1%nat /\
    Divergence.regId d = Some 30 /\ Divergence.expected d = 0 /\ Divergence.actual d = 0x40.
Proof.
  apply (fault_found _ (header_of [] FpMode.Native) (event_record <$> sample_events) 1 30 0x40 0
    (event_record (EException (ExceptionEvent.mk 1 0x40000004 0x200 DisconType.HostCall RegFile.new)))).
  - apply stream_file, sample_events_wf.
  - reflexivity.
  - reflexivity.
  - discriminate.
  - lia.
  - split; lia.
  - lia.
  - cbn. lia.
  - reflexivity.
Defined.
