(* ===== verification/QemuPlugin.v ===== *)
(** The QEMU plugin that writes the reference stream ([tests/qemu-plugin]): the
    layout of its structures ([cdt_format.h]), the map from QEMU's registers to
    trace ids ([regmap.c]), the buffered writer ([trace_writer.c]) and the
    callbacks ([coracle_trace.c]).

    What QEMU shows is a parameter: a register handle is any type, the registers
    it lists are an argument of [regmap_build], and what the handles read is an
    argument of each callback, a [view].  So are GLib and the count [fwrite]
    returns.  An [abort] is a panic.  A C string is a string with no NUL in it. *)

From stdpp Require Import base numbers list option pretty strings.
From S2P Require Import Prelude TraceFormat TraceSink TraceWriter.

#[local] Open Scope Z_scope.

(** ** The wire format ([cdt_format.h]) *)

Module cdt_format.

Definition CDT_FORMAT_VERSION : Z := 1.
Definition CDT_PRODUCER_QEMU : Z := 1.

Definition CDT_FLAG_PRECISE_FP : Z := Z.shiftl 1 0.
Definition CDT_FLAG_HAS_VREGS : Z := Z.shiftl 1 1.
Definition CDT_FLAG_HAS_SYSREGS : Z := Z.shiftl 1 2.
Definition CDT_FLAG_BLOCK_DELTAS : Z := Z.shiftl 1 3.

Definition CDT_REC_BLOCK : Z := 1.
Definition CDT_REC_EXCEPTION : Z := 2.
Definition CDT_REC_MARKER : Z := 3.
Definition CDT_REC_END : Z := 4.

Definition CDT_REG_X0 : Z := 0.
Definition CDT_REG_SP : Z := 31.
Definition CDT_REG_PC : Z := 32.
Definition CDT_REG_PSTATE : Z := 33.
Definition CDT_REG_FPCR : Z := 34.
Definition CDT_REG_FPSR : Z := 35.
Definition CDT_REG_V_BASE : Z := 64.
Definition CDT_REG_SYS_BASE : Z := 256.

Definition CDT_NUM_GPR : nat := 31.
Definition CDT_NUM_VREG : nat := 32.
Definition CDT_NUM_SYSREG : nat := 20.

Definition CDT_MARKER_TRACE_START : Z := 1.

Definition CDT_END_NORMAL : Z := 0.
Definition CDT_END_LIMIT : Z := 1.

Definition CDT_PSTATE_NZCV_SHIFT : Z := 28.
Definition CDT_PSTATE_DAIF_SHIFT : Z := 6.
Definition CDT_PSTATE_EL_SHIFT : Z := 2.
Definition CDT_PSTATE_SPSEL_MASK : Z := 1.

Definition CDT_FNV_OFFSET_BASIS : Z := 0xcbf29ce484222325.
Definition CDT_FNV_PRIME : Z := 0x100000001b3.

(** The loop of [cdt_fnv1a], over the bytes of an array: it stops at the first
    NUL. *)
Fixpoint cdt_fnv1a_from (hash : Z) (text : list Z) : Z :=
  match text with
  | [] => hash
  | byte :: text =>
      if byte =? 0 then hash
      else cdt_fnv1a_from (wmul 64 (Z.lxor hash (as_u8 byte)) CDT_FNV_PRIME) text
  end.

Definition cdt_fnv1a (text : list Z) : Z := cdt_fnv1a_from CDT_FNV_OFFSET_BASIS text.

(** The packed structures, as the bytes they are in memory. *)
Record cdt_file_header : Type := {
  producer : Z;
  flags : Z;
  cpu_feature_id : Z;
  producer_name : list Z
}.

Definition header_image (h : cdt_file_header) : list Z :=
  MAGIC ++ to_le_bytes 4 CDT_FORMAT_VERSION ++ to_le_bytes 4 (producer h) ++
  to_le_bytes 8 (flags h) ++ to_le_bytes 8 (cpu_feature_id h) ++ producer_name h ++
  replicate 16 0.

(** A block record is followed by its deltas. *)
Record cdt_block_record : Type := {
  block_flags : Z;
  block_length : Z;
  block_pc : Z;
  block_icount : Z;
  block_n_insns : Z;
  block_deltas : list RegDelta
}.

Definition block_image (r : cdt_block_record) : list Z :=
  record_header CDT_REC_BLOCK (block_flags r) (block_length r) ++
  to_le_bytes 8 (block_pc r) ++ to_le_bytes 8 (block_icount r) ++
  to_le_bytes 2 (block_n_insns r) ++ replicate 6 0 ++ mjoin (delta_bytes <$> block_deltas r).

Record cdt_exception_record : Type := {
  icount : Z;
  from_pc : Z;
  to_pc : Z;
  discon_type : Z;
  x : list Z;
  pc : Z;
  pstate : Z;
  sysreg : list Z;
  fpcr : Z;
  fpsr : Z;
  v : list Z
}.

Definition exception_image (r : cdt_exception_record) : list Z :=
  record_header CDT_REC_EXCEPTION 0 1000 ++
  to_le_bytes 8 (icount r) ++ to_le_bytes 8 (from_pc r) ++ to_le_bytes 8 (to_pc r) ++
  to_le_bytes 4 (discon_type r) ++ to_le_bytes 4 0 ++ words_bytes (x r) ++
  to_le_bytes 8 (pc r) ++ to_le_bytes 8 (pstate r) ++ words_bytes (sysreg r) ++
  to_le_bytes 8 (fpcr r) ++ to_le_bytes 8 (fpsr r) ++ words_bytes (v r).

Definition marker_image (icount kind value : Z) : list Z :=
  record_header CDT_REC_MARKER 0 32 ++ words_bytes [icount; kind; value].

Definition end_image (icount reason : Z) : list Z :=
  record_header CDT_REC_END 0 24 ++ words_bytes [icount; reason].

End cdt_format.

Import cdt_format.

(** ** The register map ([regmap.c]) *)

Module regmap.

Definition REGMAP_MAX_SLOTS : nat := 512.

Inductive regmap_scope : Type := SCOPE_CORE | SCOPE_FP | SCOPE_ALL.

Definition scope_Z (s : regmap_scope) : Z :=
  match s with SCOPE_CORE => 0 | SCOPE_FP => 1 | SCOPE_ALL => 2 end.

Definition sysreg_names : list string :=
  ["SCTLR_EL1"; "TTBR0_EL1"; "TTBR1_EL1"; "TCR_EL1";
   "MAIR_EL1"; "VBAR_EL1"; "ESR_EL1"; "FAR_EL1";
   "ELR_EL1"; "SPSR_EL1"; "SP_EL0"; "SP_EL1";
   "TPIDR_EL0"; "TPIDR_EL1"; "TPIDRRO_EL0"; "CONTEXTIDR_EL1";
   "CPACR_EL1"; "AMAIR_EL1"; "PAR_EL1"; "CNTKCTL_EL1"]%string.

Definition regmap_sysreg_name (index : nat) : string :=
  if (index <? CDT_NUM_SYSREG)%nat then default "?"%string (sysreg_names !! index) else "?"%string.

Definition regmap_normalise_pstate (raw_cpsr : Z) : Z :=
  let nzcv := Z.land (wshr 64 raw_cpsr 28) 0xf in
  let daif := Z.land (wshr 64 raw_cpsr 6) 0xf in
  let mode := Z.land raw_cpsr 0xf in
  let el := Z.land (wshr 64 mode 2) 0x3 in
  let spsel := Z.land mode CDT_PSTATE_SPSEL_MASK in
  Z.lor (Z.lor (Z.lor (wshl 64 nzcv CDT_PSTATE_NZCV_SHIFT) (wshl 64 daif CDT_PSTATE_DAIF_SHIFT))
               (wshl 64 el CDT_PSTATE_EL_SHIFT)) spsel.

(** [qemu_plugin_reg_descriptor], of what the plugin reads of it. *)
Record reg_descriptor {H : Type} : Type := desc { desc_handle : H; desc_name : string }.
#[global] Arguments reg_descriptor : clear implicits.

Record regmap_slot {H : Type} : Type := slot {
  handle : H;
  reg_id : Z;
  byte_width : Z;
  is_vector : bool
}.
#[global] Arguments regmap_slot : clear implicits.

(** [slots] is the part of the array in use: [n_slots] is its length. *)
Record regmap {H : Type} : Type := mk {
  slots : list (regmap_slot H);
  n_block_slots : nat;
  gpr : list Z;
  sp : Z;
  pc : Z;
  pstate : Z;
  fpcr : Z;
  fpsr : Z;
  vreg : list Z;
  sysreg : list Z;
  has_vregs : bool;
  has_sysregs : bool
}.
#[global] Arguments regmap : clear implicits.

(** What [qemu_plugin_read_register] leaves in the buffer, if it succeeds. *)
Definition view (H : Type) : Type := H -> option (list Z).

Section Regmap.

Context {H : Type}.

Implicit Types (map : regmap H) (d : reg_descriptor H) (s : regmap_slot H).

Definition set_slots map (l : list (regmap_slot H)) : regmap H :=
  mk H l (n_block_slots map) (gpr map) (sp map) (pc map) (pstate map) (fpcr map) (fpsr map)
    (vreg map) (sysreg map) (has_vregs map) (has_sysregs map).

Definition set_block_slots map (n : nat) : regmap H :=
  mk H (slots map) n (gpr map) (sp map) (pc map) (pstate map) (fpcr map) (fpsr map)
    (vreg map) (sysreg map) (has_vregs map) (has_sysregs map).

Definition set_gpr map (n : nat) (index : Z) : regmap H :=
  mk H (slots map) (n_block_slots map) (<[n := index]> (gpr map)) (sp map) (pc map) (pstate map)
    (fpcr map) (fpsr map) (vreg map) (sysreg map) (has_vregs map) (has_sysregs map).

Definition set_sp map (index : Z) : regmap H :=
  mk H (slots map) (n_block_slots map) (gpr map) index (pc map) (pstate map) (fpcr map) (fpsr map)
    (vreg map) (sysreg map) (has_vregs map) (has_sysregs map).

Definition set_pc map (index : Z) : regmap H :=
  mk H (slots map) (n_block_slots map) (gpr map) (sp map) index (pstate map) (fpcr map) (fpsr map)
    (vreg map) (sysreg map) (has_vregs map) (has_sysregs map).

Definition set_pstate map (index : Z) : regmap H :=
  mk H (slots map) (n_block_slots map) (gpr map) (sp map) (pc map) index (fpcr map) (fpsr map)
    (vreg map) (sysreg map) (has_vregs map) (has_sysregs map).

Definition set_fpcr map (index : Z) : regmap H :=
  mk H (slots map) (n_block_slots map) (gpr map) (sp map) (pc map) (pstate map) index (fpsr map)
    (vreg map) (sysreg map) (has_vregs map) (has_sysregs map).

Definition set_fpsr map (index : Z) : regmap H :=
  mk H (slots map) (n_block_slots map) (gpr map) (sp map) (pc map) (pstate map) (fpcr map) index
    (vreg map) (sysreg map) (has_vregs map) (has_sysregs map).

Definition set_vreg map (n : nat) (index : Z) : regmap H :=
  mk H (slots map) (n_block_slots map) (gpr map) (sp map) (pc map) (pstate map) (fpcr map)
    (fpsr map) (<[n := index]> (vreg map)) (sysreg map) (has_vregs map) (has_sysregs map).

Definition set_sysreg map (n : nat) (index : Z) : regmap H :=
  mk H (slots map) (n_block_slots map) (gpr map) (sp map) (pc map) (pstate map) (fpcr map)
    (fpsr map) (vreg map) (<[n := index]> (sysreg map)) (has_vregs map) (has_sysregs map).

Definition set_has map (vregs sysregs : bool) : regmap H :=
  mk H (slots map) (n_block_slots map) (gpr map) (sp map) (pc map) (pstate map) (fpcr map)
    (fpsr map) (vreg map) (sysreg map) vregs sysregs.

Definition add_slot map d (reg_id width : Z) (is_vector : bool) : regmap H * Z :=
  if (REGMAP_MAX_SLOTS <=? length (slots map))%nat then (map, -1)
  else
    let index := Z.of_nat (length (slots map)) in
    (set_slots map (slots map ++ [slot H (desc_handle d) reg_id width is_vector]), index).

(** [snprintf(want, 8, "x%u", n)], which fits. *)
Definition numbered (prefix : string) (n : nat) : string := (prefix +:+ pretty (N.of_nat n))%string.

Definition match_gpr map d : regmap H * bool :=
  match list_find (fun n => desc_name d = numbered "x" n) (seq 0 CDT_NUM_GPR) with
  | Some (_, n) =>
      let '(map, index) := add_slot map d (as_u16 (CDT_REG_X0 + Z.of_nat n)) 8 false in
      (set_gpr map n index, true)
  | None => (map, false)
  end.

Definition match_vreg map d : regmap H * bool :=
  match list_find (fun n => desc_name d = numbered "v" n) (seq 0 CDT_NUM_VREG) with
  | Some (_, n) =>
      let id := as_u16 (CDT_REG_V_BASE + 2 * Z.of_nat n) in
      let '(map, index) := add_slot map d id 16 true in
      (set_has (set_vreg map n index) true (has_sysregs map), true)
  | None => (map, false)
  end.

Definition match_sysreg map d : regmap H * bool :=
  match list_find (fun name => desc_name d = name) sysreg_names with
  | Some (n, _) =>
      let id := as_u16 (CDT_REG_SYS_BASE + Z.of_nat n) in
      let '(map, index) := add_slot map d id 8 false in
      (set_has (set_sysreg map n index) (has_vregs map) true, true)
  | None => (map, false)
  end.

(** An entry of the local [table]; [dest] is a pointer to a field. *)
Record named_entry : Type := entry {
  name : string;
  id : Z;
  width : Z;
  dest : regmap H -> Z;
  set_dest : regmap H -> Z -> regmap H
}.

Definition table : list named_entry :=
  [entry "sp" CDT_REG_SP 8 sp set_sp;
   entry "pc" CDT_REG_PC 8 pc set_pc;
   entry "cpsr" CDT_REG_PSTATE 4 pstate set_pstate;
   entry "fpcr" CDT_REG_FPCR 4 fpcr set_fpcr;
   entry "fpsr" CDT_REG_FPSR 4 fpsr set_fpsr].

Definition match_named map d : regmap H * bool :=
  match list_find (fun e => desc_name d = name e /\ dest e map < 0) table with
  | Some (_, e) =>
      let '(map, index) := add_slot map d (id e) (width e) false in
      (set_dest e map index, true)
  | None => (map, false)
  end.

Definition reset_indices : regmap H :=
  mk H [] 0 (replicate CDT_NUM_GPR (-1)) (-1) (-1) (-1) (-1) (-1)
    (replicate CDT_NUM_VREG (-1)) (replicate CDT_NUM_SYSREG (-1)) false false.

Definition slot_scope s : regmap_scope :=
  if CDT_REG_SYS_BASE <=? reg_id s then SCOPE_ALL
  else if CDT_REG_V_BASE <=? reg_id s then SCOPE_FP
  else if (reg_id s =? CDT_REG_FPCR) || (reg_id s =? CDT_REG_FPSR) then SCOPE_FP
  else SCOPE_CORE.

Definition partition_by_scope map (scope : regmap_scope) : regmap H :=
  let ordered :=
    foldl (fun ordered s =>
             if scope_Z (slot_scope s) <=? scope_Z scope then ordered ++ [s] else ordered)
      [] (slots map) in
  let map' := set_block_slots map (length ordered) in
  let ordered :=
    foldl (fun ordered s =>
             if scope_Z scope <? scope_Z (slot_scope s) then ordered ++ [s] else ordered)
      ordered (slots map) in
  set_slots map' ordered.

(** One iteration of the second loop of [reindex]. *)
Definition index_slot map (entry : nat * regmap_slot H) : regmap H :=
  let id := reg_id entry.2 in
  let index := Z.of_nat entry.1 in
  if id <? Z.of_nat CDT_NUM_GPR then set_gpr map (Z.to_nat id) index
  else if id =? CDT_REG_SP then set_sp map index
  else if id =? CDT_REG_PC then set_pc map index
  else if id =? CDT_REG_PSTATE then set_pstate map index
  else if id =? CDT_REG_FPCR then set_fpcr map index
  else if id =? CDT_REG_FPSR then set_fpsr map index
  else if (CDT_REG_SYS_BASE <=? id) && (id <? CDT_REG_SYS_BASE + Z.of_nat CDT_NUM_SYSREG) then
    set_sysreg map (Z.to_nat (id - CDT_REG_SYS_BASE)) index
  else if CDT_REG_V_BASE <=? id then set_vreg map (Z.to_nat ((id - CDT_REG_V_BASE) / 2)) index
  else map.

Definition reindex map : regmap H :=
  let cleared :=
    mk H (slots map) (n_block_slots map) (replicate CDT_NUM_GPR (-1)) (-1) (-1) (-1) (-1) (-1)
      (replicate CDT_NUM_VREG (-1)) (replicate CDT_NUM_SYSREG (-1))
      (has_vregs map) (has_sysregs map) in
  foldl index_slot cleared (imap pair (slots map)).

(** The body of the loop of [regmap_build]. *)
Definition match_register map d : regmap H :=
  let '(map, found) := match_gpr map d in
  if found then map
  else
    let '(map, found) := match_named map d in
    if found then map
    else
      let '(map, found) := match_vreg map d in
      if found then map else (match_sysreg map d).1.

Definition regmap_build (regs : list (reg_descriptor H)) (scope : regmap_scope) : regmap H :=
  let map := foldl match_register reset_indices regs in
  reindex (partition_by_scope map scope).

Definition regmap_parse_scope (text : string) : option regmap_scope :=
  if decide (text = "core"%string) then Some SCOPE_CORE
  else if decide (text = "fp"%string) then Some SCOPE_FP
  else if decide (text = "all"%string) then Some SCOPE_ALL
  else None.

Definition regmap_scope_name (scope : regmap_scope) : string :=
  match scope with SCOPE_CORE => "core" | SCOPE_FP => "fp" | SCOPE_ALL => "all" end.

(** The bytes [lo, hi) of the buffer, those there are, from the low end up. *)
Definition gather (data : list Z) (lo hi : nat) : Z :=
  foldl (fun word i => Z.lor word (wshl 64 (data !!! i) (8 * Z.of_nat (i - lo))))
    0 (seq lo (Nat.min hi (length data) - lo)).

Definition regmap_read s (q : view H) : option (Z * Z) :=
  match q (handle s) with
  | None => None
  | Some data => Some (gather data 0 8, gather data 8 16)
  end.

End Regmap.

End regmap.

(** ** The writer ([trace_writer.c]) *)

Module trace_writer.

Definition TRACE_WRITER_BUFFER : Z := 262144.

(** [file] is null or open; [contents] is what has been written to it so far, and
    stays on disk when it is closed; [buffer] is the part in use. *)
Record trace_writer : Type := mk {
  is_open : bool;
  contents : list Z;
  buffer : list Z
}.

Definition used (w : trace_writer) : Z := Z.of_nat (length (buffer w)).

Section Writer.

(** [fwrite(data, 1, length, file)], on a file of these contents. *)
Context (fwrite : list Z -> list Z -> nat).

Definition flush (w : trace_writer) : may_panic trace_writer :=
  if used w =? 0 then mret w
  else if negb (Z.of_nat (fwrite (contents w) (buffer w)) =? used w) then Panic
  else mret (mk (is_open w) (contents w ++ buffer w) []).

(** [opened] says whether [fopen] succeeds. *)
Definition trace_writer_open (opened : bool) (header : list Z) : option trace_writer :=
  if negb opened then None
  else if negb (fwrite [] header =? length header)%nat then None
  else Some (mk true header []).

Definition trace_writer_emit (w : trace_writer) (record : list Z) : may_panic trace_writer :=
  if negb (is_open w) then mret w
  else
    let length_ := Z.of_nat (length record) in
    w ← (if TRACE_WRITER_BUFFER <? used w + length_ then flush w else mret w);
    if TRACE_WRITER_BUFFER <? length_ then
      if negb (fwrite (contents w) record =? length record)%nat then Panic
      else mret (mk (is_open w) (contents w ++ record) (buffer w))
    else mret (mk (is_open w) (contents w) (buffer w ++ record)).

Definition trace_writer_close (w : trace_writer) : may_panic trace_writer :=
  if negb (is_open w) then mret w
  else
    w ← flush w;
    mret (mk false (contents w) (buffer w)).

End Writer.

End trace_writer.

Import regmap trace_writer.

(** ** The callbacks ([coracle_trace.c]) *)

Module coracle_trace.

Definition MAX_DELTAS : nat := 256.

Record shadow : Type := mk_shadow { lo : list Z; hi : list Z; valid : bool }.

Record state {H : Type} : Type := mk {
  writer : trace_writer;
  map : regmap H;
  shadow_ : shadow;
  icount : Z;
  limit : Z;
  is_started : bool;
  is_finished : bool;
  feature_id : string;
  qemu_version : string;
  scope : regmap_scope
}.
#[global] Arguments state : clear implicits.

Record block_info : Type := info { info_pc : Z; info_n_insns : Z }.

(** [qemu_plugin_tb]: what the plugin asks of a translation block. *)
Record qemu_tb : Type := tb { vaddr : Z; tb_n_insns : Z }.

Section Plugin.

Context {H : Type} (fwrite : list Z -> list Z -> nat).

Implicit Types (st : state H) (m : regmap H) (q : view H).

Definition set_writer st (w : trace_writer) : state H :=
  mk H w (map st) (shadow_ st) (icount st) (limit st) (is_started st) (is_finished st)
    (feature_id st) (qemu_version st) (scope st).

Definition set_shadow st (s : shadow) : state H :=
  mk H (writer st) (map st) s (icount st) (limit st) (is_started st) (is_finished st)
    (feature_id st) (qemu_version st) (scope st).

Definition set_icount st (n : Z) : state H :=
  mk H (writer st) (map st) (shadow_ st) n (limit st) (is_started st) (is_finished st)
    (feature_id st) (qemu_version st) (scope st).

Definition set_finished st : state H :=
  mk H (writer st) (map st) (shadow_ st) (icount st) (limit st) (is_started st) true
    (feature_id st) (qemu_version st) (scope st).

Definition set_started st m : state H :=
  mk H (writer st) m (shadow_ st) (icount st) (limit st) true (is_finished st)
    (feature_id st) (qemu_version st) (scope st).

Definition emit_end st (reason : Z) : may_panic (state H) :=
  if is_finished st then mret st
  else
    let st := set_finished st in
    w ← trace_writer_emit fwrite (writer st) (end_image (icount st) reason);
    w ← trace_writer_close fwrite w;
    mret (set_writer st w).

(** The two halves; the indices the plugin uses are those of filled slots. *)
Definition slot_value m q (index : nat) : Z * Z :=
  match slots m !! index with
  | None => (0, 0)
  | Some s =>
      let '(low, high) := default (0, 0) (regmap_read s q) in
      (if reg_id s =? CDT_REG_PSTATE then regmap_normalise_pstate low else low, high)
  end.

(** The loop of [collect_deltas] over the slots [i, ...] that are left. *)
Fixpoint collect_from m q (capacity : nat) (l : list (regmap_slot H)) (i : nat)
    (out : list RegDelta) (sh : shadow) : list RegDelta * shadow :=
  match l with
  | [] => (out, sh)
  | s :: l =>
      if (length out + 1 <? capacity)%nat then
        let '(low, high) := slot_value m q i in
        let is_new := negb (valid sh) in
        let out :=
          if is_new || negb (low =? lo sh !!! i) then out ++ [RegDelta.mk (reg_id s) low] else out in
        let out :=
          if is_vector s && (is_new || negb (high =? hi sh !!! i))
          then out ++ [RegDelta.mk (as_u16 (reg_id s + 1)) high] else out in
        collect_from m q capacity l (S i) out
          (mk_shadow (<[i := low]> (lo sh)) (<[i := high]> (hi sh)) (valid sh))
      else (out, sh)
  end.

Definition collect_deltas m q (sh : shadow) (capacity : nat) : list RegDelta * shadow :=
  let '(out, sh) := collect_from m q capacity (take (n_block_slots m) (slots m)) 0 [] sh in
  (out, mk_shadow (lo sh) (hi sh) true).

Definition on_block_exec st (b : block_info) q : may_panic (state H) :=
  if is_finished st then mret st
  else
    let '(deltas, sh) := collect_deltas (map st) q (shadow_ st) MAX_DELTAS in
    let st := set_shadow st sh in
    let count := Z.of_nat (length deltas) in
    let record := {|
      block_flags := as_u8 count;
      block_length := as_u16 (32 + count * 16);
      block_pc := info_pc b;
      block_icount := icount st;
      block_n_insns := info_n_insns b;
      block_deltas := deltas |} in
    w ← trace_writer_emit fwrite (writer st) (block_image record);
    let st := set_writer st w in
    let st := set_icount st (wadd 64 (icount st) (info_n_insns b)) in
    if negb (limit st =? 0) && (limit st <=? icount st) then emit_end st CDT_END_LIMIT
    else mret st.

(** [index >= 0 ? slot_value(index, NULL) : 0]. *)
Definition value_at m q (index : Z) : Z :=
  if 0 <=? index then (slot_value m q (Z.to_nat index)).1 else 0.

Definition vector_at m q (index : Z) : list Z :=
  if 0 <=? index then let '(low, high) := slot_value m q (Z.to_nat index) in [low; high] else [0; 0].

Definition fill_exception_state m q (icount from_pc to_pc discon_type : Z) : cdt_exception_record := {|
  cdt_format.icount := icount;
  cdt_format.from_pc := from_pc;
  cdt_format.to_pc := to_pc;
  cdt_format.discon_type := discon_type;
  cdt_format.x := (value_at m q <$> gpr m) ++ [value_at m q (sp m)];
  cdt_format.pc := value_at m q (pc m);
  cdt_format.pstate := value_at m q (pstate m);
  cdt_format.sysreg := value_at m q <$> sysreg m;
  cdt_format.fpcr := value_at m q (fpcr m);
  cdt_format.fpsr := value_at m q (fpsr m);
  cdt_format.v := mjoin (vector_at m q <$> vreg m) |}.

Definition on_discon st (type from_pc to_pc : Z) q : may_panic (state H) :=
  if is_finished st then mret st
  else
    let record := fill_exception_state (map st) q (icount st) from_pc to_pc (as_u32 type) in
    w ← trace_writer_emit fwrite (writer st) (exception_image record);
    let st := set_writer st w in
    mret (set_shadow st (mk_shadow (lo (shadow_ st)) (hi (shadow_ st)) false)).

(** The argument [on_block_exec] is registered with. *)
Definition on_tb_trans (b : qemu_tb) : block_info := info (vaddr b) (as_u16 (tb_n_insns b)).

Definition emit_start_marker st : may_panic (state H) :=
  w ← trace_writer_emit fwrite (writer st) (marker_image 0 CDT_MARKER_TRACE_START 0);
  mret (set_writer st w).

(** [regs] is what [qemu_plugin_get_registers] lists. *)
Definition on_vcpu_init st (regs : list (reg_descriptor H)) : may_panic (state H) :=
  if is_started st then mret st
  else emit_start_marker (set_started st (regmap_build regs (scope st))).

Definition on_exit st : may_panic (state H) := emit_end st CDT_END_NORMAL.

(** What QEMU calls, with what it shows at the time. *)
Inductive callback : Type :=
| VcpuInit (regs : list (reg_descriptor H))
| TbExec (b : qemu_tb) (q : view H)
| Discon (type from_pc to_pc : Z) (q : view H)
| AtExit.

Definition dispatch (c : callback) st : may_panic (state H) :=
  match c with
  | VcpuInit regs => on_vcpu_init st regs
  | TbExec b q => on_block_exec st (on_tb_trans b) q
  | Discon type from_pc to_pc q => on_discon st type from_pc to_pc q
  | AtExit => on_exit st
  end.

End Plugin.

(** The operations of GLib that the arguments are parsed with. *)
Class GLib : Type := {
  g_str_has_prefix : string -> string -> bool;
  g_ascii_strtoull : string -> Z;
  g_strlcpy : string -> nat -> string
}.

Section Install.

Context {H : Type} `{GLib}.

(** The parts of [state] that arguments set, and the path. *)
Record arguments : Type := args {
  arg_path : string;
  arg_limit : Z;
  arg_feature_id : string;
  arg_qemu_version : string;
  arg_scope : regmap_scope
}.

(** [argv[i] + n]. *)
Definition skip (n : nat) (s : string) : string := String.substring n (String.length s - n) s.

Fixpoint parse_args (argv : list string) (a : arguments) : option arguments :=
  match argv with
  | [] => Some a
  | arg :: argv =>
      if g_str_has_prefix arg "out=" then
        parse_args argv (args (skip 4 arg) (arg_limit a) (arg_feature_id a) (arg_qemu_version a) (arg_scope a))
      else if g_str_has_prefix arg "limit=" then
        parse_args argv (args (arg_path a) (g_ascii_strtoull (skip 6 arg)) (arg_feature_id a)
                           (arg_qemu_version a) (arg_scope a))
      else if g_str_has_prefix arg "cpu=" then
        parse_args argv (args (arg_path a) (arg_limit a) (g_strlcpy (skip 4 arg) 128)
                           (arg_qemu_version a) (arg_scope a))
      else if g_str_has_prefix arg "scope=" then
        match regmap_parse_scope (skip 6 arg) with
        | Some scope =>
            parse_args argv (args (arg_path a) (arg_limit a) (arg_feature_id a) (arg_qemu_version a) scope)
        | None => None
        end
      else if g_str_has_prefix arg "qemu=" then
        parse_args argv (args (arg_path a) (arg_limit a) (arg_feature_id a)
                           (g_strlcpy (skip 5 arg) 32) (arg_scope a))
      else None
  end.

(** [snprintf] into a field that [memset] has cleared: at most 31 bytes and a
    NUL. *)
Definition snprintf_name (text : string) : list Z :=
  let bytes := take 31 (as_bytes text) in
  bytes ++ replicate (32 - length bytes) 0.

Definition build_header (a : arguments) : cdt_file_header :=
  let flags := Z.lor CDT_FLAG_PRECISE_FP CDT_FLAG_BLOCK_DELTAS in
  let flags := if 1 <=? scope_Z (arg_scope a) then Z.lor flags CDT_FLAG_HAS_VREGS else flags in
  let flags := if 2 <=? scope_Z (arg_scope a) then Z.lor flags CDT_FLAG_HAS_SYSREGS else flags in
  {| producer := CDT_PRODUCER_QEMU;
     flags := flags;
     cpu_feature_id := cdt_fnv1a (as_bytes (arg_feature_id a));
     producer_name :=
       snprintf_name ("qemu-" +:+ arg_qemu_version a +:+ "-" +:+ regmap_scope_name (arg_scope a)
                      +:+ "-" +:+ arg_feature_id a) |}.

(** The static storage, all zero. *)
Definition zeroed : regmap H :=
  regmap.mk H [] 0 (replicate CDT_NUM_GPR 0) 0 0 0 0 0 (replicate CDT_NUM_VREG 0)
    (replicate CDT_NUM_SYSREG 0) false false.

Definition zeroed_shadow : shadow :=
  mk_shadow (replicate REGMAP_MAX_SLOTS 0) (replicate REGMAP_MAX_SLOTS 0) false.

(** [None] is a return of -1; [fopen] answers [opened] for a path. *)
Definition qemu_plugin_install (fwrite : list Z -> list Z -> nat) (fopen : string -> bool)
    (argv : list string) : option (state H) :=
  let a := args "trace.cdt" 0 (g_strlcpy "unspecified" 128) (g_strlcpy "unknown" 32) SCOPE_ALL in
  match parse_args argv a with
  | None => None
  | Some a =>
      match trace_writer_open fwrite (fopen (arg_path a)) (header_image (build_header a)) with
      | None => None
      | Some w =>
          Some (mk H w zeroed zeroed_shadow 0 (arg_limit a) false false (arg_feature_id a)
                  (arg_qemu_version a) (arg_scope a))
      end
  end.

End Install.

End coracle_trace.

(** ** The same hash in the differ's tool ([tests/differ/feature_id.mjs]) *)

Module feature_id.

Definition OFFSET_BASIS : Z := 0xcbf29ce484222325.
Definition PRIME : Z := 0x100000001b3.
Definition MASK : Z := Z.shiftl 1 64 - 1.

(** [text] is the bytes of [Buffer.from(text, "latin1")]; a [BigInt] is not
    bounded. *)
Definition featureId (text : list Z) : Z :=
  foldl (fun hash byte => Z.land (Z.lxor hash byte * PRIME) MASK) OFFSET_BASIS text.

End feature_id.

(** ** The writer keeps every byte, in order *)

(** What has been given to the writer: what is on disk, then what is not yet. *)
Definition given (w : trace_writer) : list Z := contents w ++ buffer w.

Definition writer_ok (w : trace_writer) : Prop := used w <= TRACE_WRITER_BUFFER.

(** A property of what an operation leaves, if it does not abort. *)
Definition unless_abort {A} (m : may_panic A) (P : A -> Prop) : Prop :=
  match m with Done a => P a | Panic => True end.

Lemma unless_abort_bind {A B} (m : may_panic A) (f : A -> may_panic B) (P : A -> Prop) (Q : B -> Prop) :
  unless_abort m P -> (forall a, P a -> unless_abort (f a) Q) -> unless_abort (m ≫= f) Q.
Proof. destruct m as [a |]; [intros Ha Hf; apply Hf, Ha | intros _ _; exact I]. Qed.

Lemma unless_abort_returns {A} (m : may_panic A) (P : A -> Prop) :
  unless_abort m P -> returns m (fun _ => True) -> returns m P.
Proof. intros Hp (a & -> & _). apply returns_done, Hp. Qed.

Section Written.

Context (fwrite : list Z -> list Z -> nat).

(** Whatever the disk does, a write that does not abort the process loses
    nothing. *)
Lemma flush_kept (w : trace_writer) :
  unless_abort (flush fwrite w) (fun w' =>
    is_open w' = is_open w /\ contents w' = given w /\ buffer w' = []).
Proof.
  unfold flush, given, used. destruct (Z.eqb_spec (Z.of_nat (length (buffer w))) 0) as [E | E].
  - destruct (buffer w) as [| b l] eqn:Eb; [| cbn in E; lia]. cbn. rewrite app_nil_r. auto.
  - destruct (negb _); cbn; auto.
Qed.

Lemma emit_kept (w : trace_writer) (record : list Z) :
  is_open w = true -> writer_ok w ->
  unless_abort (trace_writer_emit fwrite w record) (fun w' =>
    is_open w' = true /\ writer_ok w' /\ given w' = given w ++ record).
Proof.
  intros Ho Hu. unfold trace_writer_emit. rewrite Ho. cbn [negb]. cbv zeta.
  set (n := Z.of_nat (length record)).
  eapply unless_abort_bind with (P := fun w1 => is_open w1 = true /\ given w1 = given w /\
    (TRACE_WRITER_BUFFER < n -> buffer w1 = []) /\ used w1 + n <= Z.max n TRACE_WRITER_BUFFER).
  { destruct (Z.ltb_spec TRACE_WRITER_BUFFER (used w + n)).
    - pose proof (flush_kept w) as Hf. destruct (flush fwrite w) as [w1 |]; [| exact I].
      destruct Hf as (Ho1 & Hc & Hb). cbn. unfold given at 1, used. rewrite Ho1, Hc, Hb, app_nil_r. cbn [length].
      split; [exact Ho |]. split; [reflexivity |]. split; [reflexivity | lia].
    - cbn. split; [exact Ho |]. split; [reflexivity |]. unfold used in *. split; lia. }
  intros w1 (Ho1 & Hg & Hb & Hl). destruct (Z.ltb_spec TRACE_WRITER_BUFFER n).
  - destruct (negb _); [exact I |].
    cbn. unfold writer_ok, given, used in *. cbn [is_open contents buffer].
    rewrite <- Hg, Hb, !app_nil_r by assumption. cbn. unfold TRACE_WRITER_BUFFER. auto with lia.
  - cbn. unfold writer_ok, given, used in *. cbn [is_open contents buffer].
    rewrite app_assoc, Hg, length_app. split; [exact Ho1 |]. split; [| reflexivity].
    fold n. lia.
Qed.

Lemma close_kept (w : trace_writer) :
  is_open w = true ->
  unless_abort (trace_writer_close fwrite w) (fun w' => is_open w' = false /\ contents w' = given w).
Proof.
  intros Ho. unfold trace_writer_close. rewrite Ho. cbn [negb].
  eapply unless_abort_bind; [apply flush_kept |]. intros w1 (_ & Hc & _). cbn. auto.
Qed.

(** A closed writer ignores what it is given. *)
Lemma emit_closed (w : trace_writer) (record : list Z) :
  is_open w = false -> trace_writer_emit fwrite w record = Done w.
Proof. intros Ho. unfold trace_writer_emit. rewrite Ho. reflexivity. Qed.

(** Every write to the disk succeeds. *)
Hypothesis fwrite_all : forall c d, fwrite c d = length d.

Lemma flush_total (w : trace_writer) : returns (flush fwrite w) (fun _ => True).
Proof.
  unfold flush, used. rewrite fwrite_all, Z.eqb_refl.
  destruct (_ =? 0); apply returns_ret; exact I.
Qed.

Lemma emit_spec (w : trace_writer) (record : list Z) :
  is_open w = true -> writer_ok w ->
  returns (trace_writer_emit fwrite w record) (fun w' =>
    is_open w' = true /\ writer_ok w' /\ given w' = given w ++ record).
Proof.
  intros Ho Hu. apply unless_abort_returns; [apply emit_kept; assumption |].
  unfold trace_writer_emit. rewrite Ho. cbn [negb]. cbv zeta. eapply returns_bind.
  - instantiate (1 := fun _ => True). destruct (_ <? _); [apply flush_total | apply returns_ret; exact I].
  - intros w1 _. rewrite fwrite_all, Nat.eqb_refl. destruct (_ <? _); apply returns_ret; exact I.
Qed.

Lemma close_spec (w : trace_writer) :
  is_open w = true ->
  returns (trace_writer_close fwrite w) (fun w' => is_open w' = false /\ contents w' = given w).
Proof.
  intros Ho. apply unless_abort_returns; [apply close_kept, Ho |].
  unfold trace_writer_close. rewrite Ho. cbn [negb].
  eapply returns_bind; [apply flush_total |]. intros w1 _. apply returns_ret. exact I.
Qed.

End Written.

(** ** What a register reads as *)

Lemma gather_snoc (data : list Z) (lo hi : nat) :
  (lo <= hi < length data)%nat ->
  gather data lo (S hi) =
  Z.lor (gather data lo hi) (wshl 64 (data !!! hi) (8 * Z.of_nat (hi - lo))).
Proof.
  intros Hh. unfold gather. rewrite !Nat.min_l, Nat.sub_succ_l, seq_S, foldl_app by lia.
  cbn [foldl]. do 3 f_equal; lia.
Qed.

(** A byte placed above a word. *)
Lemma lor_byte (a b k : Z) :
  0 <= k < 64 -> k mod 8 = 0 -> in_range k a -> is_byte b -> Z.lor a (wshl 64 b k) = a + 2 ^ k * b.
Proof.
  intros Hk H8 Ha Hb.
  assert (wshl 64 b k = Z.shiftl b k) as ->.
  { unfold wshl. rewrite (Z.mod_small k), wrap_small; [reflexivity | | lia].
    unfold in_range, is_byte in *. rewrite Z.shiftl_mul_pow2 by lia.
    assert (0 < 2 ^ k) by lia. split; [nia |].
    assert (k <= 56) by (pose proof (Z.div_mod k 8); lia).
    replace (2 ^ 64) with (2 ^ (64 - k) * 2 ^ k) by (rewrite <- Z.pow_add_r by lia; f_equal; lia).
    assert (2 ^ 8 <= 2 ^ (64 - k)) by (apply Z.pow_le_mono_r; lia). nia. }
  assert (Z.land a (Z.shiftl b k) = 0) as E.
  { apply Z.bits_inj'. intros i Hi. rewrite Z.land_spec, Z.bits_0.
    destruct (Z.ltb_spec i k); [rewrite Z.shiftl_spec_low, andb_false_r by lia; reflexivity |].
    rewrite (in_range_testbit_high k) by (assumption || lia). reflexivity. }
  pose proof (Z.add_lor_land a (Z.shiftl b k)) as L.
  rewrite E, Z.shiftl_mul_pow2 in L by lia. rewrite Z.shiftl_mul_pow2 by lia. lia.
Qed.

(** The buffer is read as little-endian words. *)
Lemma gather_le (data : list Z) (lo n : nat) :
  Forall is_byte data -> (n <= 8)%nat ->
  gather data lo (lo + n) = from_le_bytes (take n (drop lo data)).
Proof.
  intros Hd. induction n as [| n IH]; intros Hn.
  { unfold gather. replace (lo + 0)%nat with lo by lia.
    replace (Nat.min lo (length data) - lo)%nat with 0%nat by lia. reflexivity. }
  destruct (decide (lo + n < length data)%nat) as [Hl | Hl].
  - rewrite Nat.add_succ_r, gather_snoc, IH by lia.
    assert (data !! (lo + n)%nat = Some (data !!! (lo + n)%nat)) as Hb
      by (apply list_lookup_lookup_total_lt; exact Hl).
    rewrite <- lookup_drop in Hb. rewrite (take_S_r _ _ _ Hb), from_le_bytes_app.
    assert (length (take n (drop lo data)) = n) as Hlen by (rewrite length_take, length_drop; lia).
    rewrite Hlen. cbn [from_le_bytes]. rewrite Z.mul_0_r, Z.add_0_r, pow_256 by lia.
    replace (lo + n - lo)%nat with n by lia. apply lor_byte.
    + lia.
    + rewrite Z.mul_comm. apply Z.mod_mul. lia.
    + unfold in_range. rewrite <- Hlen at 3. rewrite <- pow_256 by lia.
      apply from_le_bytes_range, Forall_take, Forall_drop, Hd.
    + rewrite lookup_drop in Hb. eapply Forall_lookup_1; [exact Hd | exact Hb].
  - assert (gather data lo (lo + S n) = gather data lo (lo + n)) as ->.
    { unfold gather. do 2 f_equal. lia. }
    rewrite IH, !take_ge by (rewrite ?length_drop; lia). reflexivity.
Qed.
