(* ===== verification/QemuMap.v ===== *)
(** The register map of the QEMU plugin ([tests/qemu-plugin/regmap.c]): which of
    QEMU's registers get a slot, under which id, and what the index tables say. *)

From stdpp Require Import base numbers list option pretty strings.
From S2P Require Import Prelude TraceFormat TraceSink TraceWriter QemuPlugin.

Import cdt_format regmap.

#[local] Open Scope Z_scope.

(** ** Names and ids *)

(** The name QEMU gives the register whose id is [id], the even one of a pair. *)
Definition name_of_id (id : Z) : option string :=
  if (0 <=? id) && (id <? 31) then Some (numbered "x" (Z.to_nat id))
  else if id =? 31 then Some "sp"%string
  else if id =? 32 then Some "pc"%string
  else if id =? 33 then Some "cpsr"%string
  else if id =? 34 then Some "fpcr"%string
  else if id =? 35 then Some "fpsr"%string
  else if (64 <=? id) && (id <? 128) && (id mod 2 =? 0) then
    Some (numbered "v" (Z.to_nat ((id - 64) / 2)))
  else if 256 <=? id then sysreg_names !! Z.to_nat (id - 256)
  else None.

Definition base_ids : list Z :=
  zrange 36 ++ ((fun n => 64 + 2 * n) <$> zrange 32) ++ ((fun n => 256 + n) <$> zrange 20).

Definition is_vector_id (id : Z) : bool := (64 <=? id) && (id <? 256).

Definition width_of_id (id : Z) : Z :=
  if is_vector_id id then 16 else if (33 <=? id) && (id <=? 35) then 4 else 8.

(** The id the matchers find for a name, without their state. *)
Definition id_of_name (name : string) : option Z :=
  list_find (fun id => name_of_id id = Some name) base_ids ≫= fun p => Some p.2.

Lemma names_NoDup : NoDup (omap name_of_id base_ids).
Proof. apply (bool_decide_unpack _). vm_compute. exact I. Qed.

Lemma base_ids_NoDup : NoDup base_ids.
Proof. apply (bool_decide_unpack _). vm_compute. exact I. Qed.

Lemma base_ids_named : Forall (fun id => is_Some (name_of_id id)) base_ids.
Proof. apply (bool_decide_unpack _). vm_compute. exact I. Qed.

(** Distinct ids have distinct names. *)
Lemma NoDup_omap_inj {A B} (f : A -> option B) (l : list A) (a a' : A) (b : B) :
  NoDup (omap f l) -> a ∈ l -> a' ∈ l -> f a = Some b -> f a' = Some b -> a = a'.
Proof.
  induction l as [| c l IH]; [intros _ Hin; inversion Hin |].
  cbn [omap list_omap]. intros Hn Ha Ha' Hb Hb'.
  apply elem_of_cons in Ha as [-> | Ha], Ha' as [-> | Ha'].
  - reflexivity.
  - exfalso. rewrite Hb in Hn. apply NoDup_cons in Hn as [Hn _]. apply Hn.
    apply list_elem_of_omap. eauto.
  - exfalso. rewrite Hb' in Hn. apply NoDup_cons in Hn as [Hn _]. apply Hn.
    apply list_elem_of_omap. eauto.
  - apply IH; try assumption. destruct (f c); [| exact Hn]. apply NoDup_cons in Hn. apply Hn.
Qed.

Lemma id_of_name_some (name : string) (id : Z) :
  id_of_name name = Some id <-> id ∈ base_ids /\ name_of_id id = Some name.
Proof.
  unfold id_of_name. split.
  - destruct (list_find _ _) as [[i x] |] eqn:E; [| discriminate]. intros [= ->].
    apply list_find_Some in E as (Hx & Hn & _). split; [eapply list_elem_of_lookup_2, Hx | exact Hn].
  - intros [Hin Hn].
    destruct (list_find (fun id => name_of_id id = Some name) base_ids) as [[i x] |] eqn:E.
    + apply list_find_Some in E as (Hx & Hn' & _). cbn. f_equal.
      exact (NoDup_omap_inj name_of_id base_ids x id name names_NoDup
        (list_elem_of_lookup_2 _ _ _ Hx) Hin Hn' Hn).
    + apply list_find_None in E. rewrite Forall_forall in E. destruct (E id Hin Hn).
Qed.

Lemma id_of_name_inj (a b : string) (id : Z) :
  id_of_name a = Some id -> id_of_name b = Some id -> a = b.
Proof. rewrite !id_of_name_some. intros [_ Ha] [_ Hb]. congruence. Qed.

Lemma name_of_id_inj (id id' : Z) (a : string) :
  id ∈ base_ids -> id' ∈ base_ids -> name_of_id id = Some a -> name_of_id id' = Some a -> id = id'.
Proof. apply (NoDup_omap_inj name_of_id base_ids), names_NoDup. Qed.

Lemma elem_of_base_ids (id : Z) :
  id ∈ base_ids <->
  0 <= id < 36 \/ (64 <= id < 128 /\ id mod 2 = 0) \/ 256 <= id < 276.
Proof.
  unfold base_ids. rewrite !elem_of_app, !list_elem_of_fmap. setoid_rewrite elem_of_zrange.
  split.
  - intros [H | [(n & -> & H) | (n & -> & H)]]; [left; lia | | right; right; lia].
    right. left. split; [lia |]. rewrite Z.mul_comm, Z.mod_add by lia. reflexivity.
  - intros [H | [[H E] | H]]; [left; lia | right; left | right; right].
    + exists ((id - 64) / 2). pose proof (Z.div_mod id 2).
      replace ((id - 64) / 2) with (id / 2 - 32) by
        (replace (id - 64) with (id + (-32) * 2) by lia; rewrite Z.div_add by lia; lia). lia.
    + exists (id - 256). lia.
Qed.

Lemma gpr_id (n : nat) : (n < 31)%nat -> name_of_id (Z.of_nat n) = Some (numbered "x" n).
Proof.
  intros Hn. unfold name_of_id.
  destruct (Z.leb_spec 0 (Z.of_nat n)), (Z.ltb_spec (Z.of_nat n) 31); try lia.
  rewrite Nat2Z.id. reflexivity.
Qed.

Lemma vreg_id (n : nat) : (n < 32)%nat -> name_of_id (64 + 2 * Z.of_nat n) = Some (numbered "v" n).
Proof.
  intros Hn. unfold name_of_id. set (id := 64 + 2 * Z.of_nat n).
  assert (id mod 2 = 0) as -> by (unfold id; rewrite Z.add_comm, Z.mul_comm;
    change 64 with (32 * 2); rewrite <- Z.mul_add_distr_r, Z.mod_mul by lia; reflexivity).
  replace (Z.to_nat ((id - 64) / 2)) with n
    by (unfold id; replace (64 + 2 * Z.of_nat n - 64) with (Z.of_nat n * 2) by lia;
        rewrite Z.div_mul by lia; lia).
  repeat match goal with
  | |- context [id =? ?b] => destruct (Z.eqb_spec id b); [unfold id in *; lia |]
  | |- context [id <? ?b] => destruct (Z.ltb_spec id b); try (unfold id in *; lia)
  | |- context [?b <=? id] => destruct (Z.leb_spec b id); try (unfold id in *; lia)
  end; reflexivity.
Qed.

Lemma sysreg_id (n : nat) : name_of_id (256 + Z.of_nat n) = sysreg_names !! n.
Proof.
  unfold name_of_id. set (id := 256 + Z.of_nat n).
  replace (Z.to_nat (id - 256)) with n by (unfold id; lia).
  repeat match goal with
  | |- context [id =? ?b] => destruct (Z.eqb_spec id b); [unfold id in *; lia |]
  | |- context [id <? ?b] => destruct (Z.ltb_spec id b); try (unfold id in *; lia)
  | |- context [?b <=? id] => destruct (Z.leb_spec b id); try (unfold id in *; lia)
  end; rewrite ?andb_false_r; reflexivity.
Qed.

(** A search for the one element of a list with a property. *)
Lemma list_find_unique {A} (P : A -> Prop) `{forall a, Decision (P a)} (l : list A) (i : nat) (a : A) :
  l !! i = Some a -> P a -> (forall j b, l !! j = Some b -> P b -> j = i) -> list_find P l = Some (i, a).
Proof.
  intros Hi Ha Hu. apply list_find_Some. split; [exact Hi |]. split; [exact Ha |].
  intros j b Hj Hlt Hb. specialize (Hu j b Hj Hb). lia.
Qed.

Lemma find_numbered (p : string) (base k : Z) (count : nat) (name : string) :
  0 < k -> (forall n, (n < count)%nat -> name_of_id (base + k * Z.of_nat n) = Some (numbered p n) /\
                      base + k * Z.of_nat n ∈ base_ids) ->
  list_find (fun n => name = numbered p n) (seq 0 count) =
  match id_of_name name with
  | Some id => if decide (base <= id < base + k * Z.of_nat count /\ (id - base) mod k = 0)
               then Some (Z.to_nat ((id - base) / k), Z.to_nat ((id - base) / k)) else None
  | None => None
  end.
Proof.
  intros Hk Hp. destruct (id_of_name name) as [id |] eqn:E.
  - apply id_of_name_some in E as [Hin Hn].
    case_decide as Hd.
    + assert (exists n, (n < count)%nat /\ id = base + k * Z.of_nat n) as (n & Hs & ->).
      { exists (Z.to_nat ((id - base) / k)). destruct Hd as [Hr Hm].
        pose proof (Z.div_mod (id - base) k). pose proof (Z.div_pos (id - base) k).
        assert ((id - base) / k < Z.of_nat count) by (apply Z.div_lt_upper_bound; lia). lia. }
      destruct (Hp n) as [Hnm Hb]; [lia |].
      replace ((base + k * Z.of_nat n - base) / k) with (Z.of_nat n)
        by (replace (base + k * Z.of_nat n - base) with (Z.of_nat n * k) by lia;
            rewrite Z.div_mul by lia; reflexivity).
      rewrite Nat2Z.id. apply list_find_unique.
      * apply lookup_seq. lia.
      * congruence.
      * intros j b (-> & Hj)%lookup_seq Hb'. destruct (Hp j) as [Hnm' Hb'']; [lia |].
        cbn in Hb'. assert (base + k * Z.of_nat j = base + k * Z.of_nat n); [| nia].
        apply (name_of_id_inj _ _ name Hb'' Hin); [rewrite Hnm', <- Hb'; reflexivity | exact Hn].
    + apply list_find_None, Forall_forall. intros n Hs ->. apply Hd.
      apply elem_of_seq in Hs. destruct (Hp n) as [Hnm Hb]; [lia |].
      rewrite (name_of_id_inj _ _ _ Hin Hb Hn Hnm). split; [nia |].
      replace (base + k * Z.of_nat n - base) with (Z.of_nat n * k) by lia. apply Z.mod_mul. lia.
  - apply list_find_None, Forall_forall. intros n Hs ->. apply elem_of_seq in Hs.
    destruct (Hp n) as [Hnm Hb]; [lia |].
    assert (id_of_name (numbered p n) = Some (base + k * Z.of_nat n)) by (apply id_of_name_some; auto).
    congruence.
Qed.

Lemma find_gpr (name : string) :
  list_find (fun n => name = numbered "x" n) (seq 0 CDT_NUM_GPR) =
  match id_of_name name with
  | Some id => if decide (0 <= id < 31) then Some (Z.to_nat id, Z.to_nat id) else None
  | None => None
  end.
Proof.
  unfold CDT_NUM_GPR. rewrite (find_numbered "x" 0 1).
  - destruct (id_of_name name); [| reflexivity]. rewrite Z.sub_0_r, Z.div_1_r, Z.mod_1_r.
    destruct (decide (0 <= z < 31)); [rewrite decide_True by lia | rewrite decide_False by lia]; reflexivity.
  - lia.
  - intros n Hn. rewrite Z.mul_1_l, Z.add_0_l. split; [apply gpr_id, Hn | apply elem_of_base_ids; lia].
Qed.

Lemma find_vreg (name : string) :
  list_find (fun n => name = numbered "v" n) (seq 0 CDT_NUM_VREG) =
  match id_of_name name with
  | Some id => if decide (64 <= id < 128) then Some (Z.to_nat ((id - 64) / 2), Z.to_nat ((id - 64) / 2)) else None
  | None => None
  end.
Proof.
  unfold CDT_NUM_VREG. rewrite (find_numbered "v" 64 2).
  - destruct (id_of_name name) as [id |] eqn:E; [| reflexivity].
    apply id_of_name_some in E as [Hin _]. apply elem_of_base_ids in Hin.
    destruct (decide (64 <= id < 128)) as [H | H]; [| rewrite decide_False by lia; reflexivity].
    rewrite decide_True; [reflexivity |]. split; [lia |].
    replace (id - 64) with (id + (-32) * 2) by lia. rewrite Z.mod_add by lia. lia.
  - lia.
  - intros n Hn. split; [apply vreg_id, Hn |]. apply elem_of_base_ids. right. left. split; [lia |].
    replace (64 + 2 * Z.of_nat n) with ((32 + Z.of_nat n) * 2) by lia. apply Z.mod_mul. lia.
Qed.

Lemma find_sysreg (name : string) :
  list_find (fun n => name = n) sysreg_names =
  match id_of_name name with
  | Some id => if decide (256 <= id) then Some (Z.to_nat (id - 256), name) else None
  | None => None
  end.
Proof.
  assert (forall n nm, sysreg_names !! n = Some nm -> 256 + Z.of_nat n ∈ base_ids) as Hb.
  { intros n nm Hn. apply lookup_lt_Some in Hn. cbn in Hn. apply elem_of_base_ids. lia. }
  destruct (id_of_name name) as [id |] eqn:E.
  - apply id_of_name_some in E as [Hin Hn]. destruct (decide (256 <= id)) as [H | H].
    + apply list_find_unique; [| reflexivity |].
      * rewrite <- sysreg_id. replace (256 + Z.of_nat (Z.to_nat (id - 256))) with id by lia. exact Hn.
      * intros j b Hj <-. rewrite <- sysreg_id in Hj.
        assert (256 + Z.of_nat j = id); [| lia].
        refine (name_of_id_inj _ _ _ _ Hin Hj Hn). eapply Hb. rewrite <- sysreg_id. exact Hj.
    + apply list_find_None, Forall_forall. intros nm Hs <-. apply H.
      apply list_elem_of_lookup in Hs as (j & Hj). pose proof Hj as Hj'. rewrite <- sysreg_id in Hj'.
      rewrite (name_of_id_inj _ _ _ Hin (Hb _ _ Hj) Hn Hj'). lia.
  - apply list_find_None, Forall_forall. intros nm Hs <-.
    apply list_elem_of_lookup in Hs as (j & Hj). pose proof Hj as Hj'. rewrite <- sysreg_id in Hj'.
    assert (id_of_name name = Some (256 + Z.of_nat j)) by (apply id_of_name_some; eauto). congruence.
Qed.

(** ** Building the map *)

Section Build.

Context {H : Type}.

Implicit Types (map : regmap H) (d : reg_descriptor H) (s : regmap_slot H).

Definition slot_for d : option (regmap_slot H) :=
  (fun id => slot H (desc_handle d) id (width_of_id id) (is_vector_id id)) <$> id_of_name (desc_name d).

(** The field [match_named] looks at, for one of the ids 31 to 35. *)
Definition named_dest map (id : Z) : Z :=
  if id =? 31 then sp map else if id =? 32 then regmap.pc map else if id =? 33 then regmap.pstate map
  else if id =? 34 then regmap.fpcr map else regmap.fpsr map.

Lemma find_table map (name : string) :
  match id_of_name name with
  | Some id =>
      if decide (31 <= id <= 35 /\ named_dest map id < 0)
      then exists e, list_find (fun e => name = regmap.name e /\ dest e map < 0) table =
                       Some (Z.to_nat (id - 31), e) /\
             regmap.id e = id /\ width e = width_of_id id /\
             (forall m i, slots (set_dest e m i) = slots m) /\
             (forall m i id', 31 <= id' <= 35 -> id' <> id ->
                named_dest (set_dest e m i) id' = named_dest m id')
      else list_find (fun e => name = regmap.name e /\ dest e map < 0) table = None
  | None => list_find (fun e => name = regmap.name e /\ dest e map < 0) table = None
  end.
Proof.
  assert (forall e, e ∈ table (H := H) -> 31 <= regmap.id e <= 35 /\
    id_of_name (regmap.name e) = Some (regmap.id e) /\
    named_dest map (regmap.id e) = dest e map) as Ht.
  { intros e He. unfold table in He. repeat (apply elem_of_cons in He as [-> | He]; [split; [split; vm_compute; discriminate | split; [vm_compute; reflexivity | reflexivity]] |]). inversion He. }
  destruct (id_of_name name) as [id |] eqn:E.
  - case_decide as Hd.
    + destruct Hd as [Hr Hd].
      assert (id = 31 \/ id = 32 \/ id = 33 \/ id = 34 \/ id = 35) as Hc by lia.
      apply id_of_name_some in E as [_ Hn].
      destruct Hc as [-> | [-> | [-> | [-> | ->]]]]; injection Hn as <-;
        (eexists; split; [apply list_find_unique; [reflexivity | split; [reflexivity | exact Hd] |] |]);
        try (intros [| [| [| [| [| j]]]]] b Hb [Hnm _]; cbn in Hb; try discriminate;
             injection Hb as <-; first [reflexivity | discriminate Hnm]);
        (split; [reflexivity |]; split; [reflexivity |]; split; [reflexivity |];
         intros m i id' Hid' Hne;
         assert (id' = 31 \/ id' = 32 \/ id' = 33 \/ id' = 34 \/ id' = 35)
           as [-> | [-> | [-> | [-> | ->]]]] by lia; try lia; reflexivity).
    + apply list_find_None, Forall_forall. intros e He [-> Hlt]. apply Hd.
      destruct (Ht e He) as (Hr & Hi & Hn). rewrite Hi in E. injection E as <-. rewrite Hn. auto.
  - apply list_find_None, Forall_forall. intros e He [-> _]. destruct (Ht e He) as (_ & Hi & _). congruence.
Qed.

Lemma match_register_some map d (id : Z) :
  id_of_name (desc_name d) = Some id -> (length (slots map) < REGMAP_MAX_SLOTS)%nat ->
  (31 <= id <= 35 -> named_dest map id < 0) ->
  slots (match_register map d) =
    slots map ++ [slot H (desc_handle d) id (width_of_id id) (is_vector_id id)] /\
  (forall id', 31 <= id' <= 35 -> id' <> id ->
     named_dest (match_register map d) id' = named_dest map id').
Proof.
  intros Hid Hlen Hfree. unfold match_register, match_gpr, match_named, match_vreg, match_sysreg.
  assert (forall id w v, add_slot map d id w v =
    (set_slots map (slots map ++ [slot H (desc_handle d) id w v]), Z.of_nat (length (slots map)))) as Hadd.
  { intros i w v. unfold add_slot. destruct (Nat.leb_spec REGMAP_MAX_SLOTS (length (slots map))); [lia |].
    reflexivity. }
  pose proof (find_table map (desc_name d)) as Htab. rewrite Hid in Htab.
  pose proof Hid as Hid'. apply id_of_name_some in Hid' as [Hin _]. apply elem_of_base_ids in Hin.
  rewrite find_gpr, Hid. destruct (decide (0 <= id < 31)) as [H0 | H0].
  { rewrite Hadd. unfold as_u16, CDT_REG_X0. rewrite wrap_small by (split; lia).
    replace (0 + Z.of_nat (Z.to_nat id)) with id by lia.
    assert (width_of_id id = 8 /\ is_vector_id id = false) as [-> ->].
    { unfold width_of_id, is_vector_id. destruct (Z.leb_spec 64 id), (Z.leb_spec 33 id); try lia. auto. }
    split; [reflexivity | auto]. }
  destruct (decide (31 <= id <= 35)) as [H1 | H1].
  { rewrite decide_True in Htab by auto. destruct Htab as (e & -> & <- & <- & Hs & Hd).
    rewrite Hadd. rewrite Hs.
    assert (is_vector_id (regmap.id e) = false) as ->
      by (unfold is_vector_id; destruct (Z.leb_spec 64 (regmap.id e)); [lia | reflexivity]).
    split; [reflexivity |]. intros id' Hr Hne. rewrite Hd by assumption. reflexivity. }
  rewrite decide_False in Htab by tauto. rewrite Htab, find_vreg, Hid.
  destruct (decide (64 <= id < 128)) as [H2 | H2].
  { rewrite Hadd. unfold as_u16, CDT_REG_V_BASE.
    assert (64 + 2 * Z.of_nat (Z.to_nat ((id - 64) / 2)) = id) as ->.
    { destruct Hin as [? | [[_ E] | ?]]; [lia | | lia].
      pose proof (Z.div_mod (id - 64) 2). pose proof (Z.div_pos (id - 64) 2).
      replace (id - 64) with (id + (-32) * 2) in * by lia.
      rewrite Z.mod_add in * by lia. lia. }
    rewrite wrap_small by (split; lia).
    assert (width_of_id id = 16 /\ is_vector_id id = true) as [-> ->].
    { unfold width_of_id, is_vector_id. destruct (Z.leb_spec 64 id), (Z.ltb_spec id 256); try lia. auto. }
    split; [reflexivity | auto]. }
  rewrite find_sysreg, Hid, decide_True by lia. rewrite Hadd. unfold as_u16, CDT_REG_SYS_BASE.
  replace (256 + Z.of_nat (Z.to_nat (id - 256))) with id by lia. rewrite wrap_small by (split; lia).
  assert (width_of_id id = 8 /\ is_vector_id id = false) as [-> ->].
  { unfold width_of_id, is_vector_id.
    destruct (Z.leb_spec 64 id), (Z.ltb_spec id 256), (Z.leb_spec 33 id), (Z.leb_spec id 35); try lia. auto. }
  split; [reflexivity | auto].
Qed.

Lemma match_register_none map d :
  id_of_name (desc_name d) = None -> match_register map d = map.
Proof.
  intros Hid. unfold match_register, match_gpr, match_named, match_vreg, match_sysreg.
  pose proof (find_table map (desc_name d)) as Htab. rewrite Hid in Htab.
  rewrite find_gpr, Hid, Htab, find_vreg, Hid, find_sysreg, Hid. reflexivity.
Qed.

(** The ids of the slots of a list of registers, in the order they are listed. *)
Definition listed (regs : list (reg_descriptor H)) : list Z := omap (fun d => id_of_name (desc_name d)) regs.

Lemma elem_of_listed (regs : list (reg_descriptor H)) (id : Z) :
  id ∈ listed regs <-> id ∈ base_ids /\ exists d, d ∈ regs /\ name_of_id id = Some (desc_name d).
Proof.
  unfold listed. rewrite list_elem_of_omap. setoid_rewrite id_of_name_some. split.
  - intros (d & Hd & Hb & Hn). eauto.
  - intros (Hb & d & Hd & Hn). eauto.
Qed.

Lemma listed_NoDup (regs : list (reg_descriptor H)) :
  NoDup (desc_name <$> regs) -> NoDup (listed regs).
Proof.
  induction regs as [| d regs IH]; cbn [listed omap list_omap fmap list_fmap]; [constructor |].
  intros [Hd Hn]%NoDup_cons. specialize (IH Hn). fold (listed regs).
  destruct (id_of_name (desc_name d)) as [id |] eqn:E; [| exact IH]. constructor; [| exact IH].
  intros Hin. apply Hd. unfold listed in Hin. apply list_elem_of_omap in Hin as (d' & Hd' & E').
  rewrite (id_of_name_inj _ _ _ E E'). apply list_elem_of_fmap. eauto.
Qed.

Lemma listed_length (regs : list (reg_descriptor H)) :
  NoDup (desc_name <$> regs) -> (length (listed regs) <= 88)%nat.
Proof.
  intros Hn. change 88%nat with (length base_ids). apply submseteq_length, NoDup_submseteq.
  - apply listed_NoDup, Hn.
  - intros id Hid. apply elem_of_listed in Hid. apply Hid.
Qed.

Lemma omap_slot_ids (regs : list (reg_descriptor H)) :
  reg_id <$> omap slot_for regs = listed regs.
Proof.
  unfold listed. induction regs as [| d regs IH]; [reflexivity |]. cbn [omap list_omap].
  unfold slot_for at 1. destruct (id_of_name (desc_name d)); cbn; [f_equal |]; exact IH.
Qed.

(** Every register with a trace id gets a slot, in QEMU's order. *)
Lemma matched_slots (regs : list (reg_descriptor H)) :
  NoDup (desc_name <$> regs) ->
  let map := foldl match_register reset_indices regs in
  slots map = omap slot_for regs /\
  (forall id, 31 <= id <= 35 -> id ∉ listed regs -> named_dest map id < 0).
Proof.
  induction regs as [| d regs IH] using rev_ind.
  { intros _. split; [reflexivity |]. intros id Hid _. unfold named_dest. cbn.
    destruct (id =? 31), (id =? 32), (id =? 33), (id =? 34); lia. }
  intros Hn. rewrite fmap_app in Hn. apply NoDup_app in Hn as (Hn & Hd & _).
  specialize (IH Hn) as [IHs IHf]. cbv zeta. rewrite foldl_app. cbn [foldl].
  set (map := foldl match_register reset_indices regs) in *.
  unfold listed. rewrite !omap_app. fold (listed regs). cbn [omap list_omap]. unfold slot_for at 2.
  destruct (id_of_name (desc_name d)) as [id |] eqn:E; cbn [fmap option_fmap option_map].
  - assert (id ∉ listed regs) as Hnew.
    { unfold listed. intros (d' & Hd' & E')%list_elem_of_omap. refine (Hd _ _ (list_elem_of_here _ _)).
      rewrite (id_of_name_inj _ _ _ E E'). apply list_elem_of_fmap. eauto. }
    assert (length (slots map) < REGMAP_MAX_SLOTS)%nat as Hlen.
    { rewrite IHs, <- (length_fmap reg_id), omap_slot_ids. pose proof (listed_length regs Hn).
      unfold REGMAP_MAX_SLOTS. lia. }
    destruct (match_register_some map d id E Hlen) as [Hs Hf]; [intros Hr; apply IHf; assumption |].
    split; [rewrite Hs, IHs; reflexivity |]. intros id' Hr Hni.
    rewrite elem_of_app, list_elem_of_singleton in Hni. rewrite Hf by tauto. apply IHf; tauto.
  - rewrite match_register_none, !app_nil_r by exact E. split; [exact IHs |]. intros id' Hr Hni.
    apply IHf; assumption.
Qed.

(** ** Partition and index tables *)

Definition in_scope (scope : regmap_scope) s : Prop := scope_Z (slot_scope s) <= scope_Z scope.

#[export] Instance in_scope_dec (scope : regmap_scope) s : Decision (in_scope scope s).
Proof. unfold in_scope. apply _. Defined.

Lemma foldl_append_filter {A} (P : A -> Prop) `{forall a, Decision (P a)} (f : A -> bool) (l acc : list A) :
  (forall a, f a = true <-> P a) ->
  foldl (fun acc a => if f a then acc ++ [a] else acc) acc l = acc ++ filter P l.
Proof.
  intros Hf. revert acc. induction l as [| a l IH]; intros acc; cbn [foldl]; [rewrite app_nil_r; reflexivity |].
  rewrite IH. destruct (f a) eqn:E.
  - apply Hf in E. rewrite filter_cons_True, <- app_assoc by exact E. reflexivity.
  - rewrite filter_cons_False; [reflexivity |]. rewrite <- Hf, E. discriminate.
Qed.

(** The scanned slots first, each part in the order it was in. *)
Lemma partition_slots map (scope : regmap_scope) :
  let m := partition_by_scope map scope in
  slots m = filter (in_scope scope) (slots map) ++ filter (fun s => ~ in_scope scope s) (slots map) /\
  n_block_slots m = length (filter (in_scope scope) (slots map)).
Proof.
  unfold partition_by_scope. cbv zeta. cbn [slots set_slots set_block_slots n_block_slots].
  rewrite (foldl_append_filter (fun s => ~ in_scope scope s))
    by (intros s; unfold in_scope; rewrite Z.ltb_lt; lia).
  rewrite (foldl_append_filter (in_scope scope)) by (intros s; apply Z.leb_le).
  split; reflexivity.
Qed.

Lemma partition_permutation map (scope : regmap_scope) :
  slots (partition_by_scope map scope) ≡ₚ slots map.
Proof.
  destruct (partition_slots map scope) as [-> _]. induction (slots map) as [| s l IH]; [reflexivity |].
  destruct (decide (in_scope scope s)).
  - rewrite filter_cons_True, filter_cons_False by tauto. cbn. f_equiv. exact IH.
  - rewrite filter_cons_False, filter_cons_True by tauto. rewrite <- Permutation_middle. f_equiv. exact IH.
Qed.

(** The entry of the index tables for an id. *)
Definition table_at map (id : Z) : Z :=
  if id <? 31 then regmap.gpr map !!! Z.to_nat id
  else if id <? 36 then named_dest map id
  else if id <? 256 then regmap.vreg map !!! Z.to_nat ((id - 64) / 2)
  else regmap.sysreg map !!! Z.to_nat (id - 256).

Definition tables_ok map : Prop :=
  length (regmap.gpr map) = 31%nat /\ length (regmap.vreg map) = 32%nat /\
  length (regmap.sysreg map) = 20%nat.

Lemma half_inj (a b : Z) : a mod 2 = 0 -> b mod 2 = 0 -> 64 <= a -> 64 <= b ->
  Z.to_nat ((a - 64) / 2) = Z.to_nat ((b - 64) / 2) -> a = b.
Proof.
  intros Ha Hb H1 H2 E. pose proof (Z.div_pos (a - 64) 2). pose proof (Z.div_pos (b - 64) 2).
  assert ((a - 64) / 2 = (b - 64) / 2) as E' by lia.
  replace (a - 64) with (a + (-32) * 2) in E' by lia. replace (b - 64) with (b + (-32) * 2) in E' by lia.
  rewrite !Z.div_add in E' by lia. pose proof (Z.div_mod a 2). pose proof (Z.div_mod b 2). lia.
Qed.

Lemma index_slot_spec map (j : nat) s (id : Z) :
  tables_ok map -> reg_id s ∈ base_ids -> id ∈ base_ids ->
  tables_ok (index_slot map (j, s)) /\ slots (index_slot map (j, s)) = slots map /\
  n_block_slots (index_slot map (j, s)) = n_block_slots map /\
  table_at (index_slot map (j, s)) id =
    if decide (id = reg_id s) then Z.of_nat j else table_at map id.
Proof.
  intros (Hg & Hv & Hs) Hr%elem_of_base_ids Hid%elem_of_base_ids. unfold index_slot. cbn [fst snd].
  set (r := reg_id s) in *. unfold CDT_NUM_GPR, CDT_REG_SP, CDT_REG_PC, CDT_REG_PSTATE, CDT_REG_FPCR,
    CDT_REG_FPSR, CDT_REG_SYS_BASE, CDT_NUM_SYSREG, CDT_REG_V_BASE. change (Z.of_nat 31) with 31.
  change (256 + Z.of_nat 20) with 276. clearbody r.
  assert (64 <= r < 128 -> 0 <= (r - 64) / 2 < 32) as Hrv
    by (intros; split; [apply Z.div_pos; lia | apply Z.div_lt_upper_bound; lia]).
  unfold tables_ok, table_at.
  destruct (Z.ltb_spec r 31).
  { cbn. rewrite length_insert. do 3 (split; [auto |]).
    destruct (Z.ltb_spec id 31); [| rewrite decide_False by lia; reflexivity].
    case_decide as E; [subst; apply list_lookup_total_insert_eq; lia |].
    apply list_lookup_total_insert_ne. lia. }
  destruct (decide (31 <= r <= 35)) as [Hn |].
  { assert (r = 31 \/ r = 32 \/ r = 33 \/ r = 34 \/ r = 35) as [-> | [-> | [-> | [-> | ->]]]] by lia;
      cbn; do 3 (split; [auto |]); unfold named_dest; cbn;
      (destruct (Z.ltb_spec id 31); [rewrite decide_False by lia; reflexivity |]);
      (destruct (Z.ltb_spec id 36); [| rewrite decide_False by lia; reflexivity]);
      (assert (id = 31 \/ id = 32 \/ id = 33 \/ id = 34 \/ id = 35) as [-> | [-> | [-> | [-> | ->]]]] by lia);
      reflexivity. }
  destruct (Z.eqb_spec r 31), (Z.eqb_spec r 32), (Z.eqb_spec r 33), (Z.eqb_spec r 34), (Z.eqb_spec r 35);
    try lia.
  destruct (Z.leb_spec 256 r), (Z.ltb_spec r 276); cbn [andb]; try lia.
  { cbn. rewrite length_insert. do 3 (split; [auto |]).
    destruct (Z.ltb_spec id 31); [rewrite decide_False by lia; reflexivity |].
    destruct (Z.ltb_spec id 36); [rewrite decide_False by lia; reflexivity |].
    destruct (Z.ltb_spec id 256); [rewrite decide_False by lia; reflexivity |].
    case_decide as E; [subst; apply list_lookup_total_insert_eq; lia |].
    apply list_lookup_total_insert_ne. lia. }
  destruct (Z.leb_spec 64 r); [| lia].
  cbn. rewrite length_insert. do 3 (split; [auto |]).
  destruct (Z.ltb_spec id 31); [rewrite decide_False by lia; reflexivity |].
  destruct (Z.ltb_spec id 36); [rewrite decide_False by lia; reflexivity |].
  destruct (Z.ltb_spec id 256); [| rewrite decide_False by lia; reflexivity].
  case_decide as E; [subst; apply list_lookup_total_insert_eq; lia |].
  apply list_lookup_total_insert_ne. intros E'. apply E. symmetry. apply half_inj; lia || exact E'.
Qed.

Definition index_of (id : Z) (l : list (regmap_slot H)) : Z :=
  match list_find (fun s => reg_id s = id) l with Some (j, _) => Z.of_nat j | None => -1 end.

Lemma index_of_snoc (id : Z) (l : list (regmap_slot H)) s :
  reg_id s ∉ (reg_id <$> l) ->
  index_of id (l ++ [s]) = if decide (id = reg_id s) then Z.of_nat (length l) else index_of id l.
Proof.
  intros Hn. unfold index_of. case_decide as E.
  - subst id. rewrite list_find_app_r.
    + cbn. rewrite decide_True by reflexivity. reflexivity.
    + apply list_find_None, Forall_forall. intros s' Hs' E. apply Hn. rewrite <- E.
      apply list_elem_of_fmap_2, Hs'.
  - destruct (list_find (fun s => reg_id s = id) l) as [[j s'] |] eqn:Ef.
    + erewrite list_find_app_l by exact Ef. reflexivity.
    + rewrite list_find_app_r by exact Ef. cbn. rewrite decide_False by congruence. reflexivity.
Qed.

Lemma reindex_fold (l : list (regmap_slot H)) map :
  tables_ok map -> NoDup (reg_id <$> l) -> Forall (fun s => reg_id s ∈ base_ids) l ->
  (forall id, id ∈ base_ids -> table_at map id = -1) ->
  let m := foldl index_slot map (imap pair l) in
  tables_ok m /\ slots m = slots map /\ n_block_slots m = n_block_slots map /\
  (forall id, id ∈ base_ids -> table_at m id = index_of id l).
Proof.
  intros Ht Hn Hb H1. induction l as [| s l IH] using rev_ind; cbv zeta.
  { cbn. auto. }
  rewrite fmap_app in Hn. apply NoDup_app in Hn as (Hn & Hd & _).
  apply Forall_app in Hb as [Hb [Hs _]%Forall_cons]. specialize (IH Hn Hb). cbv zeta in IH.
  rewrite imap_app, foldl_app. cbn [imap foldl]. rewrite Nat.add_0_r.
  set (m := foldl index_slot map (imap pair l)) in *. destruct IH as (IHt & IHs & IHn & IHi).
  assert (reg_id s ∉ (reg_id <$> l)) as Hnew by (intros Hin; apply (Hd _ Hin), list_elem_of_here).
  pose proof (fun id => index_slot_spec m (length l) s id IHt Hs) as Hspec.
  destruct (Hspec (reg_id s) Hs) as (A & B & C & _).
  split; [exact A |]. split; [congruence |]. split; [congruence |].
  intros id Hid. destruct (Hspec id Hid) as (_ & _ & _ & ->). rewrite index_of_snoc by exact Hnew.
  case_decide; [reflexivity | apply IHi, Hid].
Qed.

(** A map whose tables name its slots, one for each register. *)
Record map_ok map : Prop := {
  map_nodup : NoDup (reg_id <$> slots map);
  map_ids : Forall (fun s => reg_id s ∈ base_ids /\ is_vector s = is_vector_id (reg_id s)) (slots map);
  map_tables : tables_ok map;
  map_index : forall id, id ∈ base_ids -> table_at map id = index_of id (slots map);
  map_scanned : (n_block_slots map <= length (slots map))%nat
}.

Lemma reindex_ok map :
  NoDup (reg_id <$> slots map) ->
  Forall (fun s => reg_id s ∈ base_ids /\ is_vector s = is_vector_id (reg_id s)) (slots map) ->
  (n_block_slots map <= length (slots map))%nat ->
  map_ok (reindex map) /\ slots (reindex map) = slots map /\
  n_block_slots (reindex map) = n_block_slots map.
Proof.
  intros Hn Hb Hl. unfold reindex.
  match goal with |- context [foldl index_slot ?c _] => set (cleared := c) end.
  destruct (reindex_fold (slots map) cleared) as (Ht & Hs & Hk & Hi).
  - repeat split.
  - exact Hn.
  - eapply Forall_impl; [exact Hb |]. intros s [Hs _]. exact Hs.
  - intros id Hid%elem_of_base_ids. unfold table_at, cleared. cbn [regmap.gpr regmap.vreg regmap.sysreg].
    assert (forall k n, (k < n)%nat -> replicate n (-1) !!! k = -1) as Hrep
      by (intros k n Hk; apply lookup_total_replicate_2, Hk).
    assert (64 <= id < 128 -> 0 <= (id - 64) / 2 < 32) as Hdiv
      by (intros; split; [apply Z.div_pos; lia | apply Z.div_lt_upper_bound; lia]).
    unfold CDT_NUM_GPR, CDT_NUM_VREG, CDT_NUM_SYSREG.
    destruct (Z.ltb_spec id 31); [apply Hrep; lia |].
    destruct (Z.ltb_spec id 36).
    { unfold named_dest. cbn. destruct (id =? 31), (id =? 32), (id =? 33), (id =? 34); reflexivity. }
    destruct (Z.ltb_spec id 256); apply Hrep; lia.
  - cbv zeta in *. split; [| auto]. split; rewrite ?Hs, ?Hk; try assumption.
Qed.

(** The map QEMU's registers build: a slot for each that has a trace id, those
    of the scope in a prefix. *)
Lemma regmap_build_spec (regs : list (reg_descriptor H)) (scope : regmap_scope) :
  NoDup (desc_name <$> regs) ->
  let m := regmap_build regs scope in
  map_ok m /\ slots m ≡ₚ omap slot_for regs /\
  take (n_block_slots m) (slots m) = filter (in_scope scope) (omap slot_for regs).
Proof.
  intros Hn. cbv zeta. unfold regmap_build. destruct (matched_slots regs Hn) as [Hs _].
  set (map := foldl match_register reset_indices regs) in *.
  pose proof (partition_permutation map scope) as Hperm.
  destruct (partition_slots map scope) as [Hp Hk]. rewrite Hs in Hperm.
  destruct (reindex_ok (partition_by_scope map scope)) as (Hok & Hs' & Hk').
  - rewrite Hperm, omap_slot_ids. apply listed_NoDup, Hn.
  - apply Forall_forall. intros s. rewrite Hperm. intros (d & Hd & E)%list_elem_of_omap.
    unfold slot_for in E. destruct (id_of_name (desc_name d)) as [id |] eqn:Eid; [| discriminate].
    injection E as <-. apply id_of_name_some in Eid as [Hb _]. split; [exact Hb | reflexivity].
  - rewrite Hk, Hp, length_app. lia.
  - split; [exact Hok |]. rewrite Hs', Hk'. split; [exact Hperm |].
    rewrite Hk, Hp, take_app_length, Hs. reflexivity.
Qed.

Lemma map_length map : map_ok map -> (length (slots map) <= 88)%nat.
Proof.
  intros [Hn Hb _ _ _]. rewrite <- (length_fmap reg_id). change 88%nat with (length base_ids).
  apply submseteq_length, NoDup_submseteq; [exact Hn |]. intros id (s & -> & Hs)%list_elem_of_fmap.
  rewrite Forall_forall in Hb. apply (Hb s Hs).
Qed.

End Build.
