(* ===== verification/QemuTrace.v ===== *)
(** The stream of the QEMU plugin ([tests/qemu-plugin]), read and replayed by the
    differ: a block's deltas bring the differ up to date on the scanned registers,
    an exception record on all of them, and the file of a whole session is its
    start marker, one record for each block and each discontinuity, and its end. *)

From stdpp Require Import base numbers list option gmap pretty strings.
From S2P Require Import Prelude TraceFormat TraceSink TraceWriter TraceReader Differ Verdict Perturb.
From S2P Require Import TraceRun QemuPlugin QemuMap.

Import regmap trace_writer coracle_trace.

#[local] Open Scope Z_scope.

(** ** What QEMU shows *)

(** The low and high words of what a register reads as. *)
Definition low_word (data : list Z) : Z := from_le_bytes (take 8 data).
Definition high_word (data : list Z) : Z := from_le_bytes (take 8 (drop 8 data)).

(** The id of the register an id belongs to. *)
Definition base_id (id : Z) : Z := if (64 <=? id) && (id <? 128) then id - id mod 2 else id.

Section Shown.

Context {H : Type}.

Implicit Types (regs : list (reg_descriptor H)) (q : view H) (s : regmap_slot H) (m : regmap H).

(** The value of an id in a view: of the register QEMU lists under its name;
    zero if there is none, or if it cannot be read. *)
Definition qemu_reg regs q (id : Z) : Z :=
  match list_find (fun d => name_of_id (base_id id) = Some (desc_name d)) regs with
  | None => 0
  | Some (_, d) =>
      match q (desc_handle d) with
      | None => 0
      | Some data =>
          if id =? base_id id then
            if id =? RegId.PSTATE then regmap_normalise_pstate (low_word data) else low_word data
          else high_word data
      end
  end.

(** A view is of bytes. *)
Definition view_ok q : Prop := forall h data, q h = Some data -> Forall is_byte data.

(** What a slot reads as. *)
Definition slot_read q s : Z * Z :=
  let '(low, high) := default (0, 0) (regmap_read s q) in
  (if reg_id s =? RegId.PSTATE then regmap_normalise_pstate low else low, high).

Lemma slot_value_lookup m q (i : nat) s : slots m !! i = Some s -> slot_value m q i = slot_read q s.
Proof. intros Hi. unfold slot_value. rewrite Hi. reflexivity. Qed.

Lemma low_word_range (data : list Z) : Forall is_byte data -> word (low_word data).
Proof.
  intros Hd. unfold low_word. pose proof (from_le_bytes_range (take 8 data) (Forall_take _ _ _ Hd)) as Hr.
  assert (length (take 8 data) <= 8)%nat by (rewrite length_take; lia).
  assert (256 ^ Z.of_nat (length (take 8 data)) <= 256 ^ 8) by (apply Z.pow_le_mono_r; lia).
  unfold word, in_range. change (2 ^ 64) with (256 ^ 8). lia.
Qed.

Lemma high_word_range (data : list Z) : Forall is_byte data -> word (high_word data).
Proof. intros Hd. apply (low_word_range (drop 8 data)), Forall_drop, Hd. Qed.

(** A field masked where it is. *)
Lemma field_in_place (x mask k : Z) :
  0 <= x -> 0 <= k < 64 -> 0 <= mask -> in_range 64 (Z.shiftl mask k) ->
  wshl 64 (Z.land (wshr 64 x k) mask) k = Z.land x (Z.shiftl mask k).
Proof.
  intros Hx Hk Hm Hr. unfold wshl, wshr. rewrite !(Z.mod_small k) by exact Hk.
  assert (Z.shiftl (Z.land (Z.shiftr x k) mask) k = Z.land x (Z.shiftl mask k)) as ->.
  { apply Z.bits_inj'. intros i Hi. rewrite Z.land_spec. destruct (Z.ltb_spec i k).
    - rewrite !Z.shiftl_spec_low, andb_false_r by assumption. reflexivity.
    - rewrite !Z.shiftl_spec, Z.land_spec, Z.shiftr_spec, Z.sub_add by lia. reflexivity. }
  apply wrap_small. rewrite Z.land_comm. apply in_range_land; [lia | exact Hr | exact Hx].
Qed.

(** The normalised word keeps NZCV, DAIF, the exception level and SPSel where
    they are, and nothing else. *)
Lemma normalise_land (raw : Z) :
  0 <= raw -> regmap_normalise_pstate raw = Z.land raw 0xF00003CD.
Proof.
  intros Hr. unfold regmap_normalise_pstate. cbv zeta.
  rewrite !field_in_place by first [assumption | lia | split; vm_compute; congruence | apply Z.land_nonneg; lia].
  rewrite <- !Z.land_assoc, <- !Z.land_lor_distr_r. reflexivity.
Qed.

Lemma normalise_range (raw : Z) : word raw -> word (regmap_normalise_pstate raw).
Proof.
  intros Hr. rewrite normalise_land by apply Hr. apply in_range_land; [lia | exact Hr | lia].
Qed.

Lemma regmap_read_words s q :
  view_ok q ->
  regmap_read s q = (fun data => (low_word data, high_word data)) <$> q (handle s).
Proof.
  intros Hq. unfold regmap_read. destruct (q (handle s)) as [data |] eqn:E; [| reflexivity].
  pose proof (Hq _ _ E) as Hd. cbn [fmap option_fmap option_map].
  rewrite (gather_le data 0 8 Hd ltac:(lia) : gather data 0 8 = _).
  rewrite (gather_le data 8 8 Hd ltac:(lia) : gather data 8 16 = _). rewrite drop_0. reflexivity.
Qed.

Lemma slot_read_words s q : view_ok q -> word (slot_read q s).1 /\ word (slot_read q s).2.
Proof.
  intros Hq. unfold slot_read. rewrite regmap_read_words by exact Hq.
  assert (word 0) as H0 by (split; lia).
  destruct (q (handle s)) as [data |] eqn:E; cbn [fmap option_fmap option_map default].
  - pose proof (Hq _ _ E) as Hd. pose proof (low_word_range _ Hd). pose proof (high_word_range _ Hd).
    cbn. destruct (reg_id s =? RegId.PSTATE); split; try assumption. apply normalise_range. assumption.
  - cbn. destruct (reg_id s =? RegId.PSTATE); split; exact H0.
Qed.

(** ** Collecting a block's deltas *)

(** The ids a slot reports. *)
Definition slot_ids s : list Z := reg_id s :: (if is_vector s then [reg_id s + 1] else []).

Definition ids (l : list (regmap_slot H)) : list Z := l ≫= slot_ids.

(** What is known of a slot's ids. *)
Definition knows (f : Z -> option Z) s (low high : Z) : Prop :=
  f (reg_id s) = Some low /\ (is_vector s = true -> f (reg_id s + 1) = Some high).

Definition slot_deltas (new : bool) s (low high shown_low shown_high : Z) : list RegDelta :=
  (if new || negb (low =? shown_low) then [RegDelta.mk (reg_id s) low] else []) ++
  (if is_vector s && (new || negb (high =? shown_high)) then [RegDelta.mk (reg_id s + 1) high] else []).

(** Decides which id is meant. *)
Ltac case_ids :=
  repeat match goal with |- context [?a =? ?b] => destruct (Z.eqb_spec a b); [try lia; try tauto | try lia] end.

Lemma slot_deltas_spec (f : Z -> option Z) (new : bool) s (low high shown_low shown_high : Z) :
  (new = false -> knows f s shown_low shown_high) ->
  let ds := slot_deltas new s low high shown_low shown_high in
  knows (apply_deltas f ds) s low high /\
  (forall id, id ∉ slot_ids s -> apply_deltas f ds id = f id) /\
  (length ds <= length (slot_ids s))%nat.
Proof.
  intros Hk. cbv zeta. unfold slot_deltas, slot_ids, knows, apply_deltas in *.
  destruct (Z.eqb_spec low shown_low) as [El | El], (Z.eqb_spec high shown_high) as [Eh | Eh],
    (is_vector s), new; cbn;
    (split; [split; intros; case_ids; first [reflexivity | discriminate | subst; apply Hk; reflexivity] |]);
    (split; [| lia]); intros id Hid; repeat rewrite not_elem_of_cons in Hid; case_ids; reflexivity.
Qed.

Lemma slot_deltas_wf (new : bool) s (low high shown_low shown_high : Z) :
  0 <= reg_id s < 2 ^ 15 -> word low -> word high ->
  Forall delta_wf (slot_deltas new s low high shown_low shown_high).
Proof.
  intros Hr Hl Hh. unfold slot_deltas.
  apply Forall_app_2; [destruct (new || _) | destruct (is_vector s && _)]; repeat constructor; cbn;
    first [lia | apply Hl | apply Hh].
Qed.

(** One iteration appends the deltas of a slot. *)
Lemma collect_from_cons m q s (l : list (regmap_slot H)) (i : nat) (out : list RegDelta) (sh : shadow) :
  slots m !! i = Some s -> 0 <= reg_id s < 2 ^ 15 -> (length out <= 254)%nat ->
  collect_from m q MAX_DELTAS (s :: l) i out sh =
  collect_from m q MAX_DELTAS l (S i)
    (out ++ slot_deltas (negb (valid sh)) s (slot_read q s).1 (slot_read q s).2 (lo sh !!! i) (hi sh !!! i))
    (mk_shadow (<[i := (slot_read q s).1]> (lo sh)) (<[i := (slot_read q s).2]> (hi sh)) (valid sh)).
Proof.
  intros Hi Hr Ho. cbn [collect_from]. unfold MAX_DELTAS.
  destruct (Nat.ltb_spec (length out + 1) 256); [| lia].
  rewrite (slot_value_lookup m q i s Hi). destruct (slot_read q s) as [low high]. cbv zeta. cbn [fst snd].
  unfold as_u16. rewrite (wrap_small 16 (reg_id s + 1)) by (split; lia). f_equal. unfold slot_deltas.
  destruct (negb (valid sh) || negb (low =? lo sh !!! i)), (is_vector s && _);
    rewrite ?app_nil_l, ?app_nil_r, <- ?app_assoc; reflexivity.
Qed.

(** What the shadow holds of the slots [i, ...] agrees with what is known. *)
Definition shadowed (f : Z -> option Z) (sh : shadow) (i : nat) (l : list (regmap_slot H)) : Prop :=
  forall k s, l !! k = Some s -> knows f s (lo sh !!! (i + k)%nat) (hi sh !!! (i + k)%nat).

Definition shadow_wf (sh : shadow) : Prop :=
  length (lo sh) = REGMAP_MAX_SLOTS /\ length (hi sh) = REGMAP_MAX_SLOTS.

Record collected q (l : list (regmap_slot H)) (i : nat) (f : Z -> option Z) (sh : shadow)
    (n : nat) (out : list RegDelta) (sh' : shadow) : Prop := {
  collected_wf : shadow_wf sh';
  collected_valid : valid sh' = valid sh;
  collected_before : forall j, (j < i)%nat -> lo sh' !!! j = lo sh !!! j /\ hi sh' !!! j = hi sh !!! j;
  collected_length : (length out <= n + length (ids l))%nat;
  collected_deltas : Forall delta_wf out;
  collected_shadow : shadowed (apply_deltas f out) sh' i l;
  collected_known : forall s, s ∈ l -> knows (apply_deltas f out) s (slot_read q s).1 (slot_read q s).2
}.

Lemma apply_deltas_app (f : Z -> option Z) (ds ds' : list RegDelta) :
  apply_deltas f (ds ++ ds') = apply_deltas (apply_deltas f ds) ds'.
Proof. apply foldl_app. Qed.

Lemma ids_cons s (l : list (regmap_slot H)) : ids (s :: l) = slot_ids s ++ ids l.
Proof. reflexivity. Qed.

Lemma elem_of_ids (l : list (regmap_slot H)) (id : Z) : id ∈ ids l <-> exists s, s ∈ l /\ id ∈ slot_ids s.
Proof. unfold ids. rewrite list_elem_of_bind. split; intros (s & ? & ?); eauto. Qed.

Lemma knows_ext (f g : Z -> option Z) s (low high : Z) :
  (forall id, id ∈ slot_ids s -> g id = f id) -> knows f s low high -> knows g s low high.
Proof.
  intros E [Hl Hh]. split.
  - rewrite E; [exact Hl | constructor].
  - intros Hv. rewrite E; [exact (Hh Hv) |]. unfold slot_ids. rewrite Hv. right. constructor.
Qed.

Lemma collect_from_spec m q (l : list (regmap_slot H)) (i : nat) (out : list RegDelta) (sh : shadow)
    (f : Z -> option Z) :
  view_ok q -> (forall k s, l !! k = Some s -> slots m !! (i + k)%nat = Some s) ->
  NoDup (ids l) -> Forall (fun s => 0 <= reg_id s < 2 ^ 15) l ->
  (length out + length (ids l) <= 254)%nat -> shadow_wf sh -> (i + length l <= REGMAP_MAX_SLOTS)%nat ->
  Forall delta_wf out -> (valid sh = true -> shadowed (apply_deltas f out) sh i l) ->
  let '(out', sh') := collect_from m q MAX_DELTAS l i out sh in
  collected q l i f sh (length out) out' sh' /\
  (forall id, id ∉ ids l -> apply_deltas f out' id = apply_deltas f out id).
Proof.
  intros Hq. revert i out sh. induction l as [| s l IH]; intros i out sh Hm Hnd Hr Hlen Hsh Hi Hwf Hk.
  { cbn. split; [| reflexivity]. split; try assumption; try reflexivity; try lia.
    - intros k s Hs. discriminate.
    - intros s Hs. inversion Hs. }
  rewrite ids_cons in Hnd, Hlen. apply NoDup_app in Hnd as (_ & Hdisj & Hnd).
  apply Forall_cons in Hr as [Hrs Hr]. rewrite length_app in Hlen. cbn [length] in Hi.
  assert (slots m !! i = Some s) as Hs by (rewrite <- (Nat.add_0_r i); apply Hm; reflexivity).
  rewrite collect_from_cons by (assumption || lia).
  destruct (slot_read_words s q Hq) as [Hlw Hhw]. set (low := (slot_read q s).1) in *.
  set (high := (slot_read q s).2) in *.
  set (ds := slot_deltas _ _ _ _ _ _). destruct Hsh as [Hlo Hhi].
  destruct (slot_deltas_spec (apply_deltas f out) (negb (valid sh)) s low high (lo sh !!! i) (hi sh !!! i))
    as (Hknow & Hrest & Hds).
  { intros Hv. apply negb_false_iff in Hv. pose proof (Hk Hv 0%nat s eq_refl) as K.
    rewrite Nat.add_0_r in K. exact K. }
  fold ds in Hknow, Hrest, Hds. rewrite <- apply_deltas_app in Hknow, Hrest.
  assert (knows (apply_deltas f (out ++ ds)) s low high /\
    (valid sh = true -> shadowed (apply_deltas f (out ++ ds))
       (mk_shadow (<[i := low]> (lo sh)) (<[i := high]> (hi sh)) (valid sh)) (S i) l)) as [Hs0 Hsl].
  { split; [exact Hknow |]. intros Hv k s' Hs'. cbn [lo hi].
    rewrite !list_lookup_total_insert_ne by lia. replace (S i + k)%nat with (i + S k)%nat by lia.
    apply (knows_ext (apply_deltas f out)); [| apply (Hk Hv (S k)), Hs'].
    intros id Hid. apply Hrest. intros Hin. apply (Hdisj id Hin), elem_of_ids.
    exists s'. split; [eapply list_elem_of_lookup_2, Hs' | exact Hid]. }
  specialize (IH (S i) (out ++ ds) (mk_shadow (<[i := low]> (lo sh)) (<[i := high]> (hi sh)) (valid sh))).
  destruct (collect_from _ _ _ _ _ _ _) as [out' sh'].
  destruct IH as [[Cwf Cv Cb Cl Cd Cs Ck] Cr].
  - intros k s' Hs'. replace (S i + k)%nat with (i + S k)%nat by lia. apply Hm, Hs'.
  - exact Hnd.
  - exact Hr.
  - rewrite length_app. lia.
  - split; cbn; rewrite length_insert; assumption.
  - lia.
  - apply Forall_app_2; [exact Hwf | apply slot_deltas_wf; assumption].
  - exact Hsl.
  - assert (knows (apply_deltas f out') s low high) as Hs1.
    { apply (knows_ext (apply_deltas f (out ++ ds))); [| exact Hs0].
      intros id Hid. apply Cr. intros Hin. exact (Hdisj id Hid Hin). }
    destruct (Cb i ltac:(lia)) as [Ei Ei']. cbn [lo hi] in Ei, Ei'.
    rewrite list_lookup_total_insert_eq in Ei, Ei' by lia.
    split; [split |].
    + exact Cwf.
    + exact Cv.
    + intros j Hj. destruct (Cb j ltac:(lia)) as [-> ->]. cbn [lo hi].
      rewrite !list_lookup_total_insert_ne by lia. split; reflexivity.
    + rewrite ids_cons, length_app. rewrite length_app in Cl. lia.
    + exact Cd.
    + intros [| k] s' Hs'; cbn in Hs'; [injection Hs' as <- |].
      * rewrite Nat.add_0_r, Ei, Ei'. exact Hs1.
      * replace (i + S k)%nat with (S i + k)%nat by lia. apply Cs, Hs'.
    + intros s' [-> | Hs']%elem_of_cons; [exact Hs1 | apply Ck, Hs'].
    + intros id Hid. rewrite ids_cons, elem_of_app in Hid. rewrite Cr, Hrest by tauto. reflexivity.
Qed.

(** ** The slots and the registers they stand for *)

Definition id_scope (id : Z) : regmap_scope :=
  if 256 <=? id then SCOPE_ALL
  else if 64 <=? id then SCOPE_FP
  else if (id =? 34) || (id =? 35) then SCOPE_FP
  else SCOPE_CORE.

(** Whether a block reports an id. *)
Definition scanned regs (scope : regmap_scope) (id : Z) : Prop :=
  base_id id ∈ listed regs /\ scope_Z (id_scope (base_id id)) <= scope_Z scope.

#[export] Instance scanned_dec regs scope id : Decision (scanned regs scope id).
Proof. unfold scanned. apply _. Defined.

Lemma name_of_id_base (id : Z) (a : string) : name_of_id id = Some a -> id ∈ base_ids.
Proof.
  intros Hn. apply elem_of_base_ids. unfold name_of_id in Hn.
  destruct (Z.leb_spec 0 id), (Z.ltb_spec id 31); cbn [andb] in Hn; try (left; lia);
    (destruct (Z.eqb_spec id 31); [left; lia |]; destruct (Z.eqb_spec id 32); [left; lia |];
     destruct (Z.eqb_spec id 33); [left; lia |]; destruct (Z.eqb_spec id 34); [left; lia |];
     destruct (Z.eqb_spec id 35); [left; lia |]);
    destruct (Z.leb_spec 64 id), (Z.ltb_spec id 128); cbn [andb] in Hn; try lia;
    try (destruct (Z.eqb_spec (id mod 2) 0); cbn [andb] in Hn; [right; left; lia |]);
    (destruct (Z.leb_spec 256 id); [| discriminate]); try lia;
    right; right; apply lookup_lt_Some in Hn; cbn in Hn; lia.
Qed.

Lemma base_id_even (id : Z) : 64 <= id < 128 -> base_id id mod 2 = 0.
Proof.
  intros Hid. unfold base_id. destruct (Z.leb_spec 64 id), (Z.ltb_spec id 128); try lia. cbn [andb].
  pose proof (Z.div_mod id 2). replace (id - id mod 2) with (id / 2 * 2) by lia. apply Z.mod_mul. lia.
Qed.

(** The ids of a slot are those of its register. *)
Lemma elem_of_slot_ids s (id : Z) :
  reg_id s ∈ base_ids -> is_vector s = is_vector_id (reg_id s) ->
  id ∈ slot_ids s <-> base_id id = reg_id s.
Proof.
  intros Hb%elem_of_base_ids Hv. unfold slot_ids. rewrite Hv, elem_of_cons. clear Hv.
  unfold is_vector_id, base_id. set (r := reg_id s) in *. clearbody r.
  pose proof (Z.mod_pos_bound id 2 ltac:(lia)) as Hm.
  pose proof (Z.div_mod id 2 ltac:(lia)) as Hdiv.
  destruct Hb as [Hb | [[Hb He] | Hb]].
  - destruct (Z.leb_spec 64 r); [lia |]. cbn [andb]. rewrite elem_of_nil.
    destruct (Z.leb_spec 64 id), (Z.ltb_spec id 128); cbn [andb]; lia.
  - destruct (Z.leb_spec 64 r), (Z.ltb_spec r 256); try lia. cbn [andb].
    rewrite list_elem_of_singleton. pose proof (Z.div_mod r 2 ltac:(lia)) as Hr.
    destruct (Z.leb_spec 64 id), (Z.ltb_spec id 128); cbn [andb]; lia.
  - destruct (Z.leb_spec 64 r), (Z.ltb_spec r 256); try lia. cbn [andb]. rewrite elem_of_nil.
    destruct (Z.leb_spec 64 id), (Z.ltb_spec id 128); cbn [andb]; lia.
Qed.

Lemma slot_for_inv d s :
  slot_for d = Some s ->
  id_of_name (desc_name d) = Some (reg_id s) /\ handle s = desc_handle d /\
  reg_id s ∈ base_ids /\ is_vector s = is_vector_id (reg_id s).
Proof.
  unfold slot_for. destruct (id_of_name (desc_name d)) as [id |] eqn:E; [| discriminate]. intros [= <-].
  cbn. pose proof E as E'. apply id_of_name_some in E' as [Hb _]. auto.
Qed.

(** A slot reads the value of its register. *)
Lemma qemu_reg_slot regs q d s (id : Z) :
  NoDup (desc_name <$> regs) -> view_ok q -> d ∈ regs -> slot_for d = Some s -> base_id id = reg_id s ->
  qemu_reg regs q id = if id =? reg_id s then (slot_read q s).1 else (slot_read q s).2.
Proof.
  intros Hn Hq Hd Hs Hid. apply slot_for_inv in Hs as (Hi & Hh & _ & _).
  apply id_of_name_some in Hi as [_ Hname].
  apply list_elem_of_lookup in Hd as (i & Hd). unfold qemu_reg. rewrite Hid.
  rewrite (list_find_unique _ regs i d Hd).
  - unfold slot_read. rewrite regmap_read_words, Hh by exact Hq.
    destruct (q (desc_handle d)); cbn; [| destruct (id =? reg_id s), (reg_id s =? RegId.PSTATE); reflexivity].
    destruct (Z.eqb_spec id (reg_id s)) as [-> |]; reflexivity.
  - congruence.
  - intros j d' Hd' Hname'. assert (desc_name d' = desc_name d) as E by congruence.
    eapply NoDup_lookup; [exact Hn | |]; rewrite list_lookup_fmap;
      [rewrite Hd'; reflexivity | rewrite Hd; cbn; congruence].
Qed.

Lemma qemu_reg_unlisted regs q (id : Z) : base_id id ∉ listed regs -> qemu_reg regs q id = 0.
Proof.
  intros Hid. unfold qemu_reg. destruct (list_find _ regs) as [[i d] |] eqn:E; [| reflexivity].
  apply list_find_Some in E as (Hd & Hn & _). exfalso. apply Hid, elem_of_listed.
  split; [eapply name_of_id_base, Hn |]. exists d. split; [eapply list_elem_of_lookup_2, Hd | exact Hn].
Qed.

Lemma qemu_reg_word regs q (id : Z) : view_ok q -> word (qemu_reg regs q id).
Proof.
  intros Hq. assert (word 0) by (split; lia). unfold qemu_reg.
  destruct (list_find _ regs) as [[i d] |]; [| assumption].
  destruct (q (desc_handle d)) as [data |] eqn:E; [| assumption]. specialize (Hq _ _ E).
  destruct (id =? base_id id); [| apply high_word_range, Hq].
  destruct (id =? RegId.PSTATE); [apply normalise_range |]; apply low_word_range, Hq.
Qed.

(** ** A map built from QEMU's registers *)

Record built regs (scope : regmap_scope) m : Prop := {
  built_names : NoDup (desc_name <$> regs);
  built_ok : map_ok m;
  built_slots : slots m ≡ₚ omap slot_for regs;
  built_block : take (n_block_slots m) (slots m) = filter (in_scope scope) (omap slot_for regs)
}.

Lemma build_built regs (scope : regmap_scope) :
  NoDup (desc_name <$> regs) -> built regs scope (regmap_build regs scope).
Proof. intros Hn. destruct (regmap_build_spec regs scope Hn) as (A & B & C). split; assumption. Qed.

Definition block_slots m : list (regmap_slot H) := take (n_block_slots m) (slots m).

Section Built.

Context {regs : list (reg_descriptor H)} {scope : regmap_scope} {m : regmap H}.
Hypothesis Hm : built regs scope m.

Lemma elem_of_slots s : s ∈ slots m <-> exists d, d ∈ regs /\ slot_for d = Some s.
Proof. rewrite (built_slots _ _ _ Hm). apply list_elem_of_omap. Qed.

Lemma elem_of_block_slots s : s ∈ block_slots m <-> s ∈ slots m /\ in_scope scope s.
Proof.
  unfold block_slots. rewrite (built_block _ _ _ Hm), list_elem_of_filter, (built_slots _ _ _ Hm). tauto.
Qed.

Lemma slots_ids_ok s : s ∈ slots m -> reg_id s ∈ base_ids /\ is_vector s = is_vector_id (reg_id s).
Proof. pose proof (map_ids _ (built_ok _ _ _ Hm)) as Hf. rewrite Forall_forall in Hf. apply Hf. Qed.

Lemma block_ids (id : Z) : id ∈ ids (block_slots m) <-> scanned regs scope id.
Proof.
  rewrite elem_of_ids. split.
  - intros (s & Hs & Hid). apply elem_of_block_slots in Hs as [Hs Hsc].
    destruct (slots_ids_ok s Hs) as [Hb Hv]. apply elem_of_slot_ids in Hid; [| assumption..].
    apply elem_of_slots in Hs as (d & Hd & E). apply slot_for_inv in E as (Hi & _ & _ & _).
    split; [| rewrite Hid; exact Hsc].
    unfold listed. apply list_elem_of_omap. exists d. rewrite Hid. auto.
  - intros [Hl Hsc]. unfold listed in Hl. apply list_elem_of_omap in Hl as (d & Hd & E).
    set (s := slot H (desc_handle d) (base_id id) (width_of_id (base_id id)) (is_vector_id (base_id id))).
    assert (slot_for d = Some s) as Es by (unfold slot_for; rewrite E; reflexivity).
    exists s. split; [apply elem_of_block_slots; split; [apply elem_of_slots; eauto | exact Hsc] |].
    destruct (slot_for_inv d s Es) as (_ & _ & Hb & Hv). apply elem_of_slot_ids; [exact Hb | exact Hv | reflexivity].
Qed.

Lemma slot_ids_NoDup s : NoDup (slot_ids s).
Proof.
  unfold slot_ids. destruct (is_vector s); [| apply NoDup_singleton].
  apply NoDup_cons. split; [| apply NoDup_singleton]. rewrite list_elem_of_singleton. lia.
Qed.

Lemma block_ids_NoDup : NoDup (ids (block_slots m)).
Proof.
  pose proof (map_nodup _ (built_ok _ _ _ Hm)) as Hn.
  unfold ids. apply NoDup_bind.
  - intros s s' id Hs Hs' Hid Hid'.
    apply elem_of_block_slots in Hs as [Hs _], Hs' as [Hs' _].
    destruct (slots_ids_ok s Hs) as [Hb Hv], (slots_ids_ok s' Hs') as [Hb' Hv'].
    apply elem_of_slot_ids in Hid; [| assumption..]. apply elem_of_slot_ids in Hid'; [| assumption..].
    apply list_elem_of_lookup in Hs as (i & Hi), Hs' as (j & Hj).
    assert (i = j) as ->; [| congruence].
    eapply NoDup_lookup; [exact Hn | |]; rewrite list_lookup_fmap;
      [rewrite Hi; reflexivity | rewrite Hj; cbn; congruence].
  - intros s _. apply slot_ids_NoDup.
  - unfold block_slots. apply NoDup_fmap_1 in Hn. eapply sublist_NoDup; [exact Hn | apply sublist_take].
Qed.

Lemma ids_length (l : list (regmap_slot H)) : (length (ids l) <= 2 * length l)%nat.
Proof.
  induction l as [| s l IH]; [reflexivity |]. rewrite ids_cons, length_app. cbn [length].
  assert (length (slot_ids s) <= 2)%nat by (unfold slot_ids; destruct (is_vector s); cbn; lia). lia.
Qed.

Lemma block_slots_lookup (k : nat) s : block_slots m !! k = Some s -> slots m !! k = Some s.
Proof. unfold block_slots. intros Hk. apply lookup_take_Some in Hk. apply Hk. Qed.

(** A block's deltas bring what is known up to date on the ids it scans. *)
Lemma collect_deltas_spec q (sh : shadow) (f : Z -> option Z) :
  view_ok q -> shadow_wf sh -> (valid sh = true -> shadowed f sh 0 (block_slots m)) ->
  let '(ds, sh') := collect_deltas m q sh MAX_DELTAS in
  shadow_wf sh' /\ valid sh' = true /\ shadowed (apply_deltas f ds) sh' 0 (block_slots m) /\
  (length ds <= 255)%nat /\ Forall delta_wf ds /\
  (forall id, apply_deltas f ds id = if decide (scanned regs scope id) then Some (qemu_reg regs q id) else f id).
Proof.
  intros Hq Hsh Hk. unfold collect_deltas. fold (block_slots m).
  pose proof (map_length _ (built_ok _ _ _ Hm)) as Hlen.
  assert (length (block_slots m) <= 88)%nat as Hl by (unfold block_slots; rewrite length_take; lia).
  pose proof (ids_length (block_slots m)) as Hil.
  pose proof (collect_from_spec m q (block_slots m) 0 [] sh f Hq) as Hc.
  destruct (collect_from _ _ _ _ _ _ _) as [ds sh'].
  destruct Hc as [[Cwf Cv Cb Cl Cd Cs Ck] Cr].
  - intros k s. apply block_slots_lookup.
  - exact block_ids_NoDup.
  - apply Forall_forall. intros s Hs. apply elem_of_block_slots in Hs as [Hs _].
    apply slots_ids_ok in Hs as [Hb%elem_of_base_ids _]. lia.
  - cbn [length]. lia.
  - exact Hsh.
  - unfold REGMAP_MAX_SLOTS. lia.
  - constructor.
  - exact Hk.
  - split; [exact Cwf |]. split; [reflexivity |]. split; [exact Cs |]. split; [cbn in Cl; lia |].
    split; [exact Cd |]. intros id. case_decide as Hsc; [| apply Cr; rewrite block_ids; exact Hsc].
    apply block_ids, elem_of_ids in Hsc as (s & Hs & Hid). destruct (Ck s Hs) as [Kl Kh].
    apply elem_of_block_slots in Hs as [Hs _]. destruct (slots_ids_ok s Hs) as [Hb Hv].
    pose proof Hid as Hbase. apply elem_of_slot_ids in Hbase; [| assumption..].
    apply elem_of_slots in Hs as (d & Hd & E).
    rewrite (qemu_reg_slot regs q d s id (built_names _ _ _ Hm) Hq Hd E Hbase).
    unfold slot_ids in Hid. apply elem_of_cons in Hid as [-> | Hid]; [rewrite Z.eqb_refl; exact Kl |].
    destruct (is_vector s); [| inversion Hid]. apply list_elem_of_singleton in Hid as ->.
    destruct (Z.eqb_spec (reg_id s + 1) (reg_id s)); [lia |]. apply Kh. reflexivity.
Qed.

(** ** The state an exception record carries *)

Lemma value_at_reg q (id : Z) :
  view_ok q -> id ∈ base_ids -> base_id id = id -> value_at m q (table_at m id) = qemu_reg regs q id.
Proof.
  intros Hq Hid Hb. rewrite (map_index _ (built_ok _ _ _ Hm) id Hid). unfold index_of, value_at.
  destruct (list_find _ (slots m)) as [[j s] |] eqn:E.
  - apply list_find_Some in E as (Hj & <- & _).
    destruct (Z.leb_spec 0 (Z.of_nat j)); [| lia]. rewrite Nat2Z.id, (slot_value_lookup m q j s Hj).
    apply list_elem_of_lookup_2, elem_of_slots in Hj as (d & Hd & Es).
    rewrite (qemu_reg_slot regs q d s _ (built_names _ _ _ Hm) Hq Hd Es Hb), Z.eqb_refl. reflexivity.
  - change (0 <=? -1) with false. cbv iota. symmetry. apply qemu_reg_unlisted. rewrite Hb.
    intros Hl. unfold listed in Hl. apply list_elem_of_omap in Hl as (d & Hd & Ed).
    apply list_find_None in E. rewrite Forall_forall in E.
    set (s := slot H (desc_handle d) id (width_of_id id) (is_vector_id id)).
    apply (E s); [| reflexivity]. apply elem_of_slots. exists d.
    split; [exact Hd | unfold slot_for; rewrite Ed; reflexivity].
Qed.

Lemma vector_at_reg q (id : Z) :
  view_ok q -> 64 <= id < 128 -> id mod 2 = 0 ->
  vector_at m q (table_at m id) = [qemu_reg regs q id; qemu_reg regs q (id + 1)].
Proof.
  intros Hq Hr He.
  assert (id ∈ base_ids) as Hid by (apply elem_of_base_ids; lia).
  assert (base_id id = id /\ base_id (id + 1) = id) as [Hb Hb1].
  { unfold base_id. destruct (Z.leb_spec 64 id), (Z.ltb_spec id 128), (Z.leb_spec 64 (id + 1)); try lia.
    pose proof (Z.div_mod id 2 ltac:(lia)).
    destruct (Z.ltb_spec (id + 1) 128); [| lia]. cbn [andb].
    replace (id + 1) with (1 + id / 2 * 2) at 2 by lia. rewrite Z.mod_add by lia.
    change (1 mod 2) with 1. split; lia. }
  rewrite (map_index _ (built_ok _ _ _ Hm) id Hid). unfold index_of, vector_at.
  destruct (list_find _ (slots m)) as [[j s] |] eqn:E.
  - apply list_find_Some in E as (Hj & <- & _).
    destruct (Z.leb_spec 0 (Z.of_nat j)); [| lia]. rewrite Nat2Z.id, (slot_value_lookup m q j s Hj).
    apply list_elem_of_lookup_2, elem_of_slots in Hj as (d & Hd & Es).
    rewrite (qemu_reg_slot regs q d s _ (built_names _ _ _ Hm) Hq Hd Es Hb), Z.eqb_refl.
    rewrite (qemu_reg_slot regs q d s _ (built_names _ _ _ Hm) Hq Hd Es Hb1).
    destruct (Z.eqb_spec (reg_id s + 1) (reg_id s)); [lia |]. destruct (slot_read q s). reflexivity.
  - change (0 <=? -1) with false. cbv iota.
    assert (id ∉ listed regs) as Hn.
    { intros Hl. unfold listed in Hl. apply list_elem_of_omap in Hl as (d & Hd & Ed).
      apply list_find_None in E. rewrite Forall_forall in E.
      set (s := slot H (desc_handle d) id (width_of_id id) (is_vector_id id)).
      apply (E s); [| reflexivity]. apply elem_of_slots. exists d.
      split; [exact Hd | unfold slot_for; rewrite Ed; reflexivity]. }
    rewrite !qemu_reg_unlisted by congruence. reflexivity.
Qed.

(** The structure, as the differ reads it. *)
Definition exception_of (r : cdt_format.cdt_exception_record) : reader.Exception_ := {|
  reader.icount := cdt_format.icount r;
  reader.fromPc := cdt_format.from_pc r;
  reader.toPc := cdt_format.to_pc r;
  reader.disconType := cdt_format.discon_type r;
  reader.x := cdt_format.x r;
  reader.pc := cdt_format.pc r;
  reader.pstate := cdt_format.pstate r;
  reader.sysreg := cdt_format.sysreg r;
  reader.fpcr := cdt_format.fpcr r;
  reader.fpsr := cdt_format.fpsr r;
  reader.v := cdt_format.v r |}.

Lemma exception_image_record (r : cdt_format.cdt_exception_record) :
  cdt_format.exception_image r = record_bytes (reader.Exception (exception_of r)).
Proof.
  cbn [record_bytes]. unfold cdt_format.exception_image. rewrite !words_bytes_app.
  cbn [exception_of reader.icount reader.fromPc reader.toPc reader.disconType reader.x reader.pc
    reader.pstate reader.sysreg reader.fpcr reader.fpsr reader.v].
  unfold words_bytes at 3 6. cbn. rewrite ?app_nil_r, <- ?app_assoc. reflexivity.
Qed.

(** Pairs of words, one after the other. *)
Lemma join_pairs_lookup {A} (g : A -> list Z) (l : list A) (k : nat) :
  (forall a, length (g a) = 2%nat) ->
  mjoin (g <$> l) !! k = (a ← l !! (k / 2)%nat; g a !! (k mod 2)%nat).
Proof.
  intros Hg. revert k. induction l as [| a l IH]; intros k; [reflexivity |].
  change (mjoin (g <$> a :: l)) with (g a ++ mjoin (g <$> l)).
  destruct (decide (k < 2)%nat).
  - rewrite lookup_app_l by (rewrite Hg; exact l0).
    rewrite Nat.div_small, Nat.mod_small by exact l0. reflexivity.
  - rewrite lookup_app_r, Hg, IH by (rewrite Hg; lia).
    assert (k / 2 = S ((k - 2) / 2) /\ k mod 2 = (k - 2) mod 2)%nat as [-> ->]; [| reflexivity].
    replace k with (k - 2 + 1 * 2)%nat by lia.
    rewrite Nat.div_add, Nat.Div0.mod_add by lia. rewrite Nat.add_sub. lia.
Qed.

Lemma length_join_pairs {A} (g : A -> list Z) (l : list A) :
  (forall a, length (g a) = 2%nat) -> length (mjoin (g <$> l)) = (length l * 2)%nat.
Proof.
  intros Hg. induction l as [| a l IH]; [reflexivity |].
  change (mjoin (g <$> a :: l)) with (g a ++ mjoin (g <$> l)). rewrite length_app, Hg, IH. reflexivity.
Qed.

Lemma length_vector_at q (i : Z) : length (vector_at m q i) = 2%nat.
Proof. unfold vector_at. destruct (0 <=? i); [destruct (slot_value _ _ _) |]; reflexivity. Qed.

Lemma value_at_word q (i : Z) : view_ok q -> word (value_at m q i).
Proof.
  intros Hq. assert (word 0) by (split; lia). unfold value_at, slot_value.
  destruct (0 <=? i); [| assumption]. destruct (slots m !! _) as [s |]; [| assumption].
  apply (slot_read_words s q Hq).
Qed.

Lemma vector_at_words q (i : Z) : view_ok q -> Forall word (vector_at m q i).
Proof.
  intros Hq. assert (Forall word [0; 0]) by (do 2 (constructor; [split; lia |]); constructor).
  unfold vector_at, slot_value. destruct (0 <=? i); [| assumption].
  destruct (slots m !! _) as [s |]; [| assumption].
  destruct (slot_read_words s q Hq) as [Hl Hh]. unfold slot_read in Hl, Hh.
  destruct (default (0, 0) (regmap_read s q)).
  constructor; [exact Hl |]. constructor; [exact Hh | constructor].
Qed.

Lemma filled_wf q (ic from to discon : Z) :
  view_ok q -> word ic -> word from -> word to -> in_range 32 discon ->
  exception_wf (exception_of (fill_exception_state m q ic from to discon)).
Proof.
  intros Hq Hic Hf Ht Hd. destruct (map_tables _ (built_ok _ _ _ Hm)) as (Hg & Hv & Hs).
  split; cbn; try assumption; try (apply value_at_word, Hq).
  - apply Forall_app_2; [apply Forall_fmap, Forall_forall; intros i _; apply value_at_word, Hq |].
    constructor; [apply value_at_word, Hq | constructor].
  - rewrite length_app, length_fmap, Hg. reflexivity.
  - apply Forall_fmap, Forall_forall. intros i _. apply value_at_word, Hq.
  - rewrite length_fmap. exact Hs.
  - apply Forall_join, Forall_fmap, Forall_forall. intros i _. apply vector_at_words, Hq.
  - rewrite length_join_pairs, Hv by apply length_vector_at. reflexivity.
Qed.

(** The record carries the value of every id it has a place for. *)
Lemma filled_get q (ic from to discon : Z) (id : Z) sl :
  view_ok q -> slot_of id = Some sl ->
  slot_get (exception_of (fill_exception_state m q ic from to discon)) sl = Some (qemu_reg regs q id).
Proof.
  intros Hq. destruct (map_tables _ (built_ok _ _ _ Hm)) as (Hg & Hv & Hs).
  assert (forall n, 0 <= n < 36 \/ 256 <= n < 276 ->
    value_at m q (table_at m n) = qemu_reg regs q n) as Hval.
  { intros n Hn. apply value_at_reg; [exact Hq | apply elem_of_base_ids; lia |].
    unfold base_id. destruct (Z.leb_spec 64 n), (Z.ltb_spec n 128); cbn [andb]; lia || reflexivity. }
  assert (forall (l : list Z) i, (i < length l)%nat -> l !! i = Some (l !!! i)) as Hl
    by (intros l i Hi; apply list_lookup_lookup_total_lt, Hi).
  unfold slot_of. repeat case_decide; intros [= <-]; cbn.
  - rewrite <- Hval by lia. unfold table_at. destruct (Z.ltb_spec id 31).
    + rewrite lookup_app_l by (rewrite length_fmap; lia). rewrite list_lookup_fmap, Hl by lia. reflexivity.
    + replace id with 31 by lia. rewrite lookup_app_r by (rewrite length_fmap; lia).
      rewrite length_fmap, Hg. reflexivity.
  - subst id. rewrite <- Hval by lia. reflexivity.
  - subst id. rewrite <- Hval by lia. reflexivity.
  - rewrite <- Hval by lia. unfold table_at.
    destruct (Z.ltb_spec id 31), (Z.ltb_spec id 36), (Z.ltb_spec id 256); try lia.
    rewrite list_lookup_fmap, Hl by lia. reflexivity.
  - subst id. rewrite <- Hval by lia. reflexivity.
  - subst id. rewrite <- Hval by lia. reflexivity.
  - rewrite join_pairs_lookup by apply length_vector_at. set (k := Z.to_nat (id - 64)).
    pose proof (Nat.div_mod k 2 ltac:(lia)) as Hk. pose proof (Nat.mod_upper_bound k 2 ltac:(lia)).
    rewrite Hl by (rewrite Hv; apply Nat.Div0.div_lt_upper_bound; lia). cbn [mbind option_bind].
    pose proof (vector_at_reg q (64 + 2 * Z.of_nat (k / 2)) Hq ltac:(lia)) as Hvec.
    unfold table_at in Hvec.
    destruct (Z.ltb_spec (64 + 2 * Z.of_nat (k / 2)) 31), (Z.ltb_spec (64 + 2 * Z.of_nat (k / 2)) 36),
      (Z.ltb_spec (64 + 2 * Z.of_nat (k / 2)) 256); try lia.
    replace (64 + 2 * Z.of_nat (k / 2) - 64) with (Z.of_nat (k / 2) * 2) in Hvec by lia.
    rewrite Z.div_mul, Nat2Z.id in Hvec by lia. rewrite Hvec.
    + assert (k mod 2 = 0 \/ k mod 2 = 1)%nat as [E | E] by lia; rewrite E;
        cbn [lookup list_lookup]; do 2 f_equal; lia.
    + replace (64 + 2 * Z.of_nat (k / 2)) with ((32 + Z.of_nat (k / 2)) * 2) by lia. apply Z.mod_mul. lia.
Qed.

(** ** What QEMU runs, as the plugin is told *)

Inductive qevent : Type :=
| QBlock (pc n_insns : Z)
| QDiscon (type from_pc to_pc : Z).

(** A moment the stream reports: the instructions before it, and what QEMU
    shows. *)
Record qpoint : Type := { q_count : Z; q_event : qevent; q_view : view H }.

(** The moments of a sequence of callbacks, up to the first that ends the stream,
    with the final count and the reason. *)
Fixpoint qemu_points (limit count : Z) (l : list (callback (H := H))) : list qpoint * option (Z * Z) :=
  match l with
  | [] => ([], None)
  | VcpuInit _ :: l => qemu_points limit count l
  | TbExec b q :: l =>
      let n := as_u16 (tb_n_insns b) in
      let p := {| q_count := count; q_event := QBlock (vaddr b) n; q_view := q |} in
      let count := wadd 64 count n in
      if negb (limit =? 0) && (limit <=? count) then ([p], Some (count, 1))
      else let '(ps, e) := qemu_points limit count l in (p :: ps, e)
  | Discon type from_pc to_pc q :: l =>
      let p := {| q_count := count; q_event := QDiscon (as_u32 type) from_pc to_pc; q_view := q |} in
      let '(ps, e) := qemu_points limit count l in (p :: ps, e)
  | AtExit :: _ => ([], Some (count, 0))
  end.

(** The record of a moment, its registers aside. *)
Definition qreports (p : qpoint) (r : reader.Record_) : Prop :=
  match q_event p, r with
  | QBlock pc n, reader.Block pc' ic n' _ => pc' = pc /\ ic = q_count p /\ n' = n
  | QDiscon type from to, reader.Exception e =>
      reader.icount e = q_count p /\ reader.fromPc e = from /\ reader.toPc e = to /\
      reader.disconType e = type
  | _, _ => False
  end.

(** The ids the record of a moment carries, and what a reader then knows. *)
Definition carried (p : qpoint) (id : Z) : Prop :=
  match q_event p with QBlock _ _ => scanned regs scope id | QDiscon _ _ _ => is_Some (slot_of id) end.

#[export] Instance carried_dec (p : qpoint) (id : Z) : Decision (carried p id).
Proof. unfold carried. destruct (q_event p); apply _. Defined.

Definition learn (f : Z -> option Z) (p : qpoint) (id : Z) : option Z :=
  if decide (carried p id) then Some (qemu_reg regs (q_view p) id) else f id.

(** The differ's state is what is known. *)
Definition matches_ (s : RegisterState) (f : Z -> option Z) : Prop :=
  forall id, RegisterState.values s !! id = f id.

Record writes (f : Z -> option Z) (p : qpoint) (r : reader.Record_) : Prop := {
  writes_reports : qreports p r;
  writes_wf : record_wf r;
  writes_learn : forall s : RegisterState, matches_ s f -> matches_ (compare.apply s r) (learn f p)
}.

Inductive writes_all : (Z -> option Z) -> list qpoint -> list reader.Record_ -> Prop :=
| writes_nil f : writes_all f [] []
| writes_cons f p r ps rs :
    writes f p r -> writes_all (learn f p) ps rs -> writes_all f (p :: ps) (r :: rs).

(** ** The plugin, running *)

Context (fwrite : list Z -> list Z -> nat).
Hypothesis fwrite_all : forall c d, fwrite c d = length d.

Record running (st : state H) (f : Z -> option Z) : Prop := {
  running_map : map st = m;
  running_started : is_started st = true;
  running_finished : is_finished st = false;
  running_open : is_open (writer st) = true;
  running_writer : writer_ok (writer st);
  running_count : in_range 64 (icount st);
  running_shadow : shadow_wf (shadow_ st);
  running_known : valid (shadow_ st) = true -> shadowed f (shadow_ st) 0 (block_slots m)
}.

(** A stream that has ended: the file is closed, and nothing more happens. *)
Record ended (st : state H) : Prop := {
  ended_started : is_started st = true;
  ended_finished : is_finished st = true
}.

Lemma ended_dispatch (st : state H) (c : callback) : ended st -> dispatch fwrite c st = Done st.
Proof.
  intros [Hs Hf]. destruct c; cbn; unfold on_vcpu_init, on_block_exec, on_discon, on_exit, emit_end;
    rewrite ?Hs, ?Hf; reflexivity.
Qed.

Fixpoint plugin_run (l : list (callback (H := H))) (st : state H) : may_panic (state H) :=
  match l with
  | [] => mret st
  | c :: l => st ← dispatch fwrite c st; plugin_run l st
  end.

Lemma ended_run (l : list callback) (st : state H) : ended st -> plugin_run l st = Done st.
Proof.
  intros He. induction l as [| c l IH]; [reflexivity |]. cbn [plugin_run].
  rewrite ended_dispatch by exact He. exact IH.
Qed.

(** The end record, and the close. *)
Lemma emit_end_spec (st : state H) (f : Z -> option Z) (reason : Z) :
  running st f ->
  returns (emit_end fwrite st reason) (fun st' =>
    ended st' /\ contents (writer st') =
      given (writer st) ++ record_bytes (reader.End_ (icount st) reason)).
Proof.
  intros [_ Hs Hf Ho Hw _ _ _]. unfold emit_end. rewrite Hf. cbv zeta. cbn [writer set_finished icount].
  eapply returns_bind; [apply (emit_spec fwrite fwrite_all); assumption |]. intros w (Ho' & _ & Hg).
  eapply returns_bind; [apply (close_spec fwrite fwrite_all); exact Ho' |]. intros w' (_ & Hc).
  apply returns_ret. cbn. split; [split; [exact Hs | reflexivity] |]. rewrite Hc, Hg. reflexivity.
Qed.

(** A block, before the limit is looked at. *)
Definition block_record (st : state H) (b : block_info) q : reader.Record_ :=
  reader.Block (info_pc b) (icount st) (info_n_insns b)
    (collect_deltas (map st) q (shadow_ st) MAX_DELTAS).1.

Definition after_block (st : state H) (b : block_info) q (w : trace_writer) : state H :=
  set_icount (set_writer (set_shadow st (collect_deltas (map st) q (shadow_ st) MAX_DELTAS).2) w)
    (wadd 64 (icount st) (info_n_insns b)).

Lemma block_image_record (pc ic n : Z) (ds : list RegDelta) :
  (length ds <= 255)%nat ->
  cdt_format.block_image {| cdt_format.block_flags := as_u8 (Z.of_nat (length ds));
    cdt_format.block_length := as_u16 (32 + Z.of_nat (length ds) * 16);
    cdt_format.block_pc := pc; cdt_format.block_icount := ic; cdt_format.block_n_insns := n;
    cdt_format.block_deltas := ds |} = record_bytes (reader.Block pc ic n ds).
Proof.
  intros Hl. unfold cdt_format.block_image. cbn [cdt_format.block_flags cdt_format.block_length
    cdt_format.block_pc cdt_format.block_icount cdt_format.block_n_insns cdt_format.block_deltas record_bytes].
  cbv zeta. unfold as_u8, as_u16, BLOCK_PREFIX_BYTES, REG_DELTA_BYTES. rewrite !wrap_small by (split; lia).
  unfold words_bytes. cbn [fmap list_fmap mjoin list_join]. rewrite app_nil_r, <- !app_assoc. reflexivity.
Qed.

Lemma on_block_exec_unfold (st : state H) (f : Z -> option Z) (b : block_info) q :
  running st f -> view_ok q ->
  on_block_exec fwrite st b q =
  (w ← trace_writer_emit fwrite (writer st) (record_bytes (block_record st b q));
   let st := after_block st b q w in
   if negb (limit st =? 0) && (limit st <=? icount st) then emit_end fwrite st 1 else mret st).
Proof.
  intros [Hmap _ Hf _ _ _ Hsh Hk] Hq. unfold on_block_exec, block_record, after_block. rewrite Hf, Hmap.
  pose proof (collect_deltas_spec q (shadow_ st) f Hq Hsh Hk) as Hc.
  destruct (collect_deltas _ _ _ _) as [ds sh']. cbn [fst snd]. cbv zeta.
  rewrite block_image_record by tauto. reflexivity.
Qed.

Lemma apply_deltas_ext (f g : Z -> option Z) (ds : list RegDelta) (id : Z) :
  (forall id, f id = g id) -> apply_deltas f ds id = apply_deltas g ds id.
Proof.
  intros E. induction ds as [| d ds IH] using rev_ind; [apply E |].
  rewrite !apply_deltas_app. cbn. rewrite IH. reflexivity.
Qed.

(** What a block writes, and the state it leaves. *)
Lemma block_step (st : state H) (f : Z -> option Z) (b : qemu_tb) q :
  running st f -> word (vaddr b) -> view_ok q ->
  let p := {| q_count := icount st; q_event := QBlock (vaddr b) (as_u16 (tb_n_insns b)); q_view := q |} in
  writes f p (block_record st (on_tb_trans b) q) /\
  returns (trace_writer_emit fwrite (writer st) (record_bytes (block_record st (on_tb_trans b) q))) (fun w =>
    running (after_block st (on_tb_trans b) q w) (learn f p) /\
    given w = given (writer st) ++ record_bytes (block_record st (on_tb_trans b) q)).
Proof.
  intros [Hmap Hs Hf Ho Hw Hc Hsh Hk] Hv Hq. cbv zeta. unfold block_record, after_block. rewrite Hmap.
  pose proof (collect_deltas_spec q (shadow_ st) f Hq Hsh Hk) as Hd.
  destruct (collect_deltas _ _ _ _) as [ds sh']. destruct Hd as (Hsh' & Hval & Hk' & Hlen & Hwf & Hlearn).
  cbn [fst snd]. split.
  - split; [cbn; auto | |].
    + split; [exact Hv |]. split; [exact Hc |]. split; [apply wrap_range; lia | auto].
    + intros s Hmt id. cbn [compare.apply]. rewrite applyDeltas_lookup. unfold learn, carried. cbn [q_event q_view].
      rewrite <- Hlearn. apply apply_deltas_ext, Hmt.
  - eapply returns_mono; [apply (emit_spec fwrite fwrite_all); assumption |]. intros w (Ho' & Hw' & Hg).
    split; [| exact Hg]. split; cbn; try assumption; [apply wadd_range; lia |].
    intros _. intros k s Hk0. apply (knows_ext (apply_deltas f ds)); [| apply Hk', Hk0].
    intros id _. symmetry. apply Hlearn.
Qed.

(** An exception record, and the state it leaves. *)
Definition discon_record (st : state H) (type from to : Z) q : reader.Record_ :=
  reader.Exception (exception_of (fill_exception_state (map st) q (icount st) from to (as_u32 type))).

Lemma discon_step (st : state H) (f : Z -> option Z) (type from to : Z) q :
  running st f -> word from -> word to -> view_ok q ->
  let p := {| q_count := icount st; q_event := QDiscon (as_u32 type) from to; q_view := q |} in
  writes f p (discon_record st type from to q) /\
  returns (on_discon fwrite st type from to q) (fun st' =>
    running st' (learn f p) /\ limit st' = limit st /\ icount st' = icount st /\
    given (writer st') = given (writer st) ++ record_bytes (discon_record st type from to q)).
Proof.
  intros [Hmap Hs Hf Ho Hw Hc Hsh Hk] Hfrom Hto Hq. cbv zeta. unfold discon_record. rewrite Hmap. split.
  - assert (in_range 32 (as_u32 type)) as Ht by (apply wrap_range; lia).
    pose proof (filled_wf q (icount st) from to (as_u32 type) Hq Hc Hfrom Hto Ht) as He.
    split; [cbn; auto | exact He |]. intros s Hmt id. cbn [compare.apply].
    rewrite applyException_lookup by (split; [apply He | split; apply He]).
    unfold learn. cbn [q_view]. destruct (decide (carried _ id)) as [[sl E] | E].
    + rewrite E. apply filled_get; assumption.
    + destruct (slot_of id) as [sl |] eqn:E'; [| apply Hmt].
      destruct E. unfold carried. cbn [q_event]. eauto.
  - unfold on_discon. rewrite Hf, Hmap, exception_image_record. cbv zeta.
    eapply returns_bind; [apply (emit_spec fwrite fwrite_all); assumption |]. intros w (Ho' & Hw' & Hg).
    apply returns_ret. split; [| split; [reflexivity | split; [reflexivity | exact Hg]]].
    split; cbn; try assumption. discriminate.
Qed.

(** ** A whole run *)

Definition callback_ok (c : callback (H := H)) : Prop :=
  match c with
  | TbExec b q => word (vaddr b) /\ view_ok q
  | Discon _ from to q => word from /\ word to /\ view_ok q
  | _ => True
  end.

(** The bytes of the records of a run, with the end record if it ended. *)
Definition run_bytes (rs : list reader.Record_) (e : option (Z * Z)) : list Z :=
  mjoin (record_bytes <$> rs) ++
  match e with Some (count, reason) => record_bytes (reader.End_ count reason) | None => [] end.

Definition run_outcome (st st' : state H) (bytes : list Z) (e : option (Z * Z)) : Prop :=
  match e with
  | Some (count, _) => ended st' /\ contents (writer st') = given (writer st) ++ bytes /\ word count
  | None => given (writer st') = given (writer st) ++ bytes
  end.

Lemma run_bytes_cons (r : reader.Record_) (rs : list reader.Record_) (e : option (Z * Z)) :
  run_bytes (r :: rs) e = record_bytes r ++ run_bytes rs e.
Proof. unfold run_bytes. cbn [fmap list_fmap mjoin list_join]. rewrite app_assoc. reflexivity. Qed.

Lemma run_outcome_cons (st st1 st' : state H) (r : reader.Record_) (rs : list reader.Record_)
    (e : option (Z * Z)) :
  given (writer st1) = given (writer st) ++ record_bytes r ->
  run_outcome st1 st' (run_bytes rs e) e -> run_outcome st st' (run_bytes (r :: rs) e) e.
Proof.
  intros Hg. unfold run_outcome. rewrite run_bytes_cons, app_assoc, <- Hg. destruct e as [[c ?] |]; exact (fun h => h).
Qed.

Lemma plugin_run_spec (l : list callback) (st : state H) (f : Z -> option Z) :
  running st f -> Forall callback_ok l ->
  let '(ps, e) := qemu_points (limit st) (icount st) l in
  returns (plugin_run l st) (fun st' => exists rs,
    writes_all f ps rs /\ run_outcome st st' (run_bytes rs e) e).
Proof.
  intros Hr Hl. revert st f Hr. induction Hl as [| c l Hc Hl IH]; intros st f Hr; cbn [qemu_points plugin_run].
  { apply returns_ret. exists []. split; [constructor |]. cbn. rewrite app_nil_r. reflexivity. }
  destruct c as [rs0 | b q | type from to q |]; cbn [dispatch callback_ok] in *.
  - unfold on_vcpu_init. rewrite (running_started _ _ Hr). cbn [mbind may_panic_bind mret may_panic_ret].
    apply (IH st f Hr).
  - destruct Hc as [Hv Hq]. destruct (block_step st f b q Hr Hv Hq) as [Hwr Hstep].
    rewrite (on_block_exec_unfold st f _ q Hr Hq). cbv zeta in *.
    set (p := {| q_count := icount st; q_event := _; q_view := q |}) in *.
    destruct Hstep as (w & -> & Hr' & Hg). cbn [mbind may_panic_bind].
    set (st1 := after_block st (on_tb_trans b) q w) in *.
    change (limit st1) with (limit st).
    change (icount st1) with (wadd 64 (icount st) (as_u16 (tb_n_insns b))).
    destruct (negb (limit st =? 0) && _).
    + destruct (emit_end_spec st1 _ 1 Hr') as (st' & -> & He & Hcon). cbn [mbind may_panic_bind].
      rewrite ended_run by exact He. apply returns_done.
      exists [block_record st (on_tb_trans b) q]. split; [constructor; [exact Hwr | constructor] |].
      apply (run_outcome_cons st st1); [exact Hg |]. split; [exact He |].
      split; [exact Hcon | apply (running_count _ _ Hr')].
    + specialize (IH st1 _ Hr'). change (limit st1) with (limit st) in IH.
      change (icount st1) with (wadd 64 (icount st) (as_u16 (tb_n_insns b))) in IH.
      destruct (qemu_points _ _ l) as [ps e]. eapply returns_mono; [exact IH |].
      intros st' (rs & Hws & Hout). exists (block_record st (on_tb_trans b) q :: rs).
      split; [constructor; assumption | apply (run_outcome_cons st st1); assumption].
  - destruct Hc as (Hf & Ht & Hq). destruct (discon_step st f type from to q Hr Hf Ht Hq) as [Hwr Hstep].
    cbv zeta in *. set (p := {| q_count := icount st; q_event := _; q_view := q |}) in *.
    destruct Hstep as (st1 & -> & Hr' & Hlim & Hic & Hg). cbn [mbind may_panic_bind].
    specialize (IH st1 _ Hr'). rewrite Hlim, Hic in IH.
    destruct (qemu_points _ _ l) as [ps e]. eapply returns_mono; [exact IH |].
    intros st' (rs & Hws & Hout). exists (discon_record st type from to q :: rs).
    split; [constructor; assumption | apply (run_outcome_cons st st1); assumption].
  - destruct (emit_end_spec st f 0 Hr) as (st' & He & Hend & Hcon). unfold on_exit.
    unfold cdt_format.CDT_END_NORMAL. rewrite He. cbn [mbind may_panic_bind].
    rewrite ended_run by exact Hend. apply returns_done. exists [].
    split; [constructor |]. split; [exact Hend |]. split; [exact Hcon | apply (running_count _ _ Hr)].
Qed.

(** The sequence ends if QEMU exits. *)
Lemma points_end (limit count : Z) (l : list callback) :
  exists ps c reason, qemu_points limit count (l ++ [AtExit]) = (ps, Some (c, reason)) /\
    (reason = 0 \/ reason = 1).
Proof.
  revert count. induction l as [| c l IH]; intros count; cbn [qemu_points app]; [eauto 6 |].
  destruct c as [rs0 | b q | type from to q |]; [apply IH | | | eauto 6].
  - destruct (negb (limit =? 0) && _); [eauto 6 |].
    destruct (IH (wadd 64 count (as_u16 (tb_n_insns b)))) as (ps & c & r & -> & Hr). eauto 6.
  - destruct (IH count) as (ps & c & r & -> & Hr). eauto 6.
Qed.

Lemma writes_all_wf f (ps : list qpoint) (rs : list reader.Record_) :
  writes_all f ps rs ->
  Forall record_wf rs /\ Forall2 qreports ps rs /\ compare.significantRecords rs = rs.
Proof.
  induction 1 as [f | f p r ps rs [Hrep Hwf _] _ (IH1 & IH2 & IH3)]; [repeat constructor |].
  split; [constructor; assumption |]. split; [constructor; assumption |].
  unfold compare.significantRecords in *. rewrite filter_cons_True; [f_equal; exact IH3 |].
  unfold qreports in Hrep. destruct (q_event p), r; try contradiction; reflexivity.
Qed.

(** What the differ holds after each record. *)
Fixpoint known_along (f : Z -> option Z) (ps : list qpoint) : list (Z -> option Z) :=
  match ps with [] => [] | p :: ps => learn f p :: known_along (learn f p) ps end.

Lemma writes_all_states f (ps : list qpoint) (rs : list reader.Record_) (s : RegisterState) :
  writes_all f ps rs -> matches_ s f -> Forall2 matches_ (states s rs) (known_along f ps).
Proof.
  intros Hw. revert s. induction Hw as [f | f p r ps rs [_ _ Hl] _ IH]; intros s Hs; cbn [states known_along];
    constructor; [apply Hl, Hs | apply IH, Hl, Hs].
Qed.

End Built.

End Shown.

#[global] Arguments carried {H} regs scope p id.
#[global] Arguments learn {H} regs scope f p id.
#[global] Arguments known_along {H} regs scope f ps.
#[global] Arguments writes_all {H} regs scope f ps rs.
#[global] Arguments running {H} m st f.

(** ** The file *)

Lemma fnv_range (hash : Z) (text : list Z) :
  word hash -> word (cdt_format.cdt_fnv1a_from hash text).
Proof.
  revert hash. induction text as [| b text IH]; intros hash Hh; cbn; [exact Hh |].
  destruct (b =? 0); [exact Hh |]. apply IH, wrap_range. lia.
Qed.

(** The three implementations of the hash agree, up to the first NUL. *)
Lemma fnv_until_nul (hash : Z) (text : list Z) :
  Forall is_byte text ->
  cdt_format.cdt_fnv1a_from hash text =
  foldl (fun hash byte => wmul 64 (Z.lxor hash byte) FNV_PRIME) hash (reader.until_nul text).
Proof.
  intros Ht. revert hash. induction Ht as [| b text Hb Ht IH]; intros hash; [reflexivity |]. cbn.
  destruct (b =? 0); [reflexivity |]. cbn [foldl]. rewrite IH. unfold as_u8.
  rewrite wrap_small by exact Hb. reflexivity.
Qed.

Section File.

Context {H : Type} `{GLib}.

Definition plugin_header (a : arguments) : reader.Header :=
  let h := build_header a in
  {| reader.producer := cdt_format.producer h;
     reader.flags := cdt_format.flags h;
     reader.cpuFeatureId := cdt_format.cpu_feature_id h;
     reader.producerName := reader.until_nul (cdt_format.producer_name h) |}.

Lemma length_snprintf_name (text : string) : length (snprintf_name text) = 32%nat.
Proof. unfold snprintf_name. cbv zeta. rewrite length_app, length_replicate, length_take. lia. Qed.

Lemma length_plugin_header (a : arguments) :
  length (cdt_format.header_image (build_header a)) = 80%nat.
Proof.
  unfold cdt_format.header_image. rewrite !length_app, !length_to_le_bytes, length_replicate.
  cbn [cdt_format.producer_name build_header]. rewrite length_snprintf_name. reflexivity.
Qed.

Lemma plugin_header_reads (a : arguments) (rest : list Z) :
  reader.readHeader (cdt_format.header_image (build_header a) ++ rest) = Ok (plugin_header a).
Proof.
  unfold reader.readHeader, cdt_format.header_image. rewrite <- !app_assoc.
  cbn [build_header cdt_format.producer cdt_format.flags cdt_format.cpu_feature_id cdt_format.producer_name].
  set (flags := if 2 <=? scope_Z (arg_scope a) then _ else _).
  set (id := cdt_format.cdt_fnv1a _). set (name := snprintf_name _).
  set (tail := name ++ replicate 16 0 ++ rest).
  assert (word flags) by (unfold flags; destruct (arg_scope a); split; vm_compute; congruence).
  assert (word id) by (apply fnv_range; split; vm_compute; congruence).
  rewrite bool_decide_true by reflexivity.
  field_at 8%nat 4%nat 1. change (negb (1 =? FORMAT_VERSION)) with false. cbv iota.
  field_at 12%nat 4%nat 1. field_at 16%nat 8%nat flags. field_at 24%nat 8%nat id.
  unfold plugin_header. do 2 f_equal.
  match goal with |- reader.until_nul (take 32 (drop 32 ?view)) = _ => change (drop 32 view) with tail end.
  unfold tail. rewrite take_app_length' by (symmetry; apply length_snprintf_name). reflexivity.
Qed.

Context (fwrite : list Z -> list Z -> nat) (fopen : string -> bool).
Hypothesis fwrite_all : forall c d, fwrite c d = length d.

Definition default_arguments : arguments :=
  args "trace.cdt" 0 (g_strlcpy "unspecified" 128) (g_strlcpy "unknown" 32) SCOPE_ALL.

(** Installed, and told of its vCPU: the header and the start marker. *)
Lemma install_start (argv : list string) (a : arguments) (regs : list (reg_descriptor H)) :
  parse_args argv default_arguments = Some a -> fopen (arg_path a) = true ->
  NoDup (desc_name <$> regs) ->
  let m := regmap_build regs (arg_scope a) in
  exists st, qemu_plugin_install fwrite fopen argv = Some st /\
    returns (dispatch fwrite (VcpuInit regs) st) (fun st' =>
      running m st' (fun _ => None) /\ limit st' = arg_limit a /\ icount st' = 0 /\
      given (writer st') = cdt_format.header_image (build_header a) ++ record_bytes (reader.Marker 0 1 0)).
Proof.
  intros Ha Ho Hn. unfold qemu_plugin_install. fold default_arguments. rewrite Ha.
  unfold trace_writer_open. rewrite Ho, fwrite_all, Nat.eqb_refl. cbn [negb].
  eexists. split; [reflexivity |]. cbn [dispatch on_vcpu_init is_started]. unfold emit_start_marker.
  eapply returns_bind; [apply (emit_spec fwrite fwrite_all); [reflexivity | vm_compute; discriminate] |].
  intros w (Hop & Hw & Hg). apply returns_ret. cbn in Hg. split; [| split; [reflexivity |]; split; [reflexivity |]].
  - split; cbn; try reflexivity; try assumption; try discriminate; split; lia || reflexivity.
  - cbn [set_writer writer]. rewrite Hg, app_nil_r. reflexivity.
Qed.

(** What a whole session leaves on disk. *)
Lemma plugin_session (argv : list string) (a : arguments) (regs : list (reg_descriptor H))
    (l : list callback) :
  parse_args argv default_arguments = Some a -> fopen (arg_path a) = true ->
  NoDup (desc_name <$> regs) -> Forall callback_ok l ->
  exists st ps count reason, qemu_plugin_install fwrite fopen argv = Some st /\
    qemu_points (arg_limit a) 0 (l ++ [AtExit]) = (ps, Some (count, reason)) /\
    returns (plugin_run fwrite (VcpuInit regs :: l ++ [AtExit]) st) (fun st' => exists rs,
      writes_all regs (arg_scope a) (fun _ => None) ps rs /\
      file_of (contents (writer st')) (plugin_header a)
        (reader.Marker 0 1 0 :: rs ++ [reader.End_ count reason])).
Proof.
  intros Ha Ho Hn Hl. destruct (install_start argv a regs Ha Ho Hn) as (st & Hst & st1 & Hd & Hr & Hlim & Hic & Hg).
  destruct (points_end (arg_limit a) 0 l) as (ps & count & reason & Hps & Hreason).
  exists st, ps, count, reason. split; [exact Hst |]. split; [exact Hps |].
  cbn [plugin_run]. rewrite Hd. cbn [mbind may_panic_bind].
  assert (Forall callback_ok (l ++ [AtExit])) as Hl' by (apply Forall_app_2; [exact Hl | repeat constructor]).
  pose proof (plugin_run_spec (build_built regs (arg_scope a) Hn) fwrite fwrite_all _ _ _ Hr Hl') as Hrun.
  rewrite Hlim, Hic, Hps in Hrun. eapply returns_mono; [exact Hrun |].
  intros st' (rs & Hws & _ & Hcon & Hcount). exists rs. split; [exact Hws |].
  destruct (writes_all_wf _ _ _ Hws) as (Hwf & _).
  assert (contents (writer st') = cdt_format.header_image (build_header a) ++
    mjoin (record_bytes <$> (reader.Marker 0 1 0 :: rs ++ [reader.End_ count reason]))) as ->.
  { rewrite Hcon, Hg. cbn [fmap list_fmap]. rewrite fmap_app. unfold run_bytes.
    cbn [mjoin list_join fmap list_fmap]. rewrite join_app. cbn [mjoin list_join].
    rewrite app_nil_r, <- app_assoc. reflexivity. }
  apply records_file; [apply length_plugin_header | apply plugin_header_reads |].
  constructor; [repeat split; lia |]. apply Forall_app_2; [exact Hwf |].
  constructor; [split; [exact Hcount | destruct Hreason as [-> | ->]; split; lia] | constructor].
Qed.

End File.
