(* ===== verification/QemuTheorems.v ===== *)
(** What the QEMU plugin and the differ certify together ([tests/qemu-plugin],
    [tests/differ]): the plugin's stream is QEMU's run, a match with a file of the
    emulator is agreement of QEMU with the architecture, the register map and the
    writer the stream rests on, and what the inspection tools say of both files. *)

From stdpp Require Import base numbers list option gmap pretty strings.
From S2P Require Import Prelude Reg Pstate RegFile Trap TraceFormat TraceSink TraceWriter TraceReader.
From S2P Require Import Differ Verdict Perturb Memory Cpu Isa Refine Run MachineTheorems TraceRun.
From S2P Require Import DifferTheorems QemuPlugin QemuMap QemuTrace.

Import regmap trace_writer coracle_trace.

#[local] Open Scope Z_scope.

(** ** Two files *)

(** A moment of QEMU's run and a point of the architecture's, their registers
    aside. *)
Definition same_moment {H} (p : qpoint (H := H)) (a : point) : Prop :=
  q_count p = at_count a /\
  match q_event p, at_exception a with
  | QBlock pc n, None => pc = isa_pc (at_state a) /\ n = 1
  | QDiscon type from to, Some (from', to', discon) =>
      from = from' /\ to = to' /\ type = DisconType.as_Z discon
  | _, _ => False
  end.

(** What is known after a moment is what the architecture has, at every id. *)
Definition same_registers (r0 : RegFile) (known : Z -> option Z) (a : point) : Prop :=
  forall id, default 0 (known id) = architectural r0 (at_state a) id.

(** QEMU's run and the architecture's agree, as far as the stream can say. *)
Definition qemu_agrees {H} (regs : list (reg_descriptor H)) (scope : regmap_scope) (r0 : RegFile)
    (ps : list qpoint) (points : list point) : Prop :=
  Forall2 same_moment ps points /\
  Forall2 (same_registers r0) (known_along regs scope (fun _ => None) ps) points.

(** Pointwise relations carried along two others. *)
Lemma Forall2_transport {A B C D} (P : A -> C -> Prop) (Q : B -> D -> Prop) (R : A -> B -> Prop)
    (S : C -> D -> Prop) (la : list A) (lb : list B) (lc : list C) (ld : list D) :
  (forall a b c d, P a c -> Q b d -> R a b <-> S c d) ->
  Forall2 P la lc -> Forall2 Q lb ld -> Forall2 R la lb <-> Forall2 S lc ld.
Proof.
  intros Hs Ha. revert lb ld. induction Ha as [| a c la lc Hac Ha IH]; intros lb ld Hb;
    destruct Hb as [| b d lb ld Hbd Hb].
  - split; constructor.
  - split; intros X; inversion X.
  - split; intros X; inversion X.
  - rewrite !Forall2_cons, (Hs a b c d Hac Hbd), (IH lb ld Hb). reflexivity.
Qed.

Lemma same_step_moment {H} (p : qpoint (H := H)) (a : point) (r r' : reader.Record_) :
  qreports p r -> reports a r' -> same_step r r' <-> same_moment p a.
Proof.
  unfold qreports, reports, same_step, same_moment.
  destruct (q_event p) as [pc n | type from to], r as [pc1 ic1 n1 ds1 | e1 | | |]; try contradiction;
    destruct (at_exception a) as [[[from' to'] discon] |], r' as [pc2 ic2 n2 ds2 | e2 | | |];
    try contradiction; cbn.
  - intros (-> & -> & ->) (? & ? & ?). split; [intros (E & _); discriminate | intros (_ & [])].
  - intros (-> & -> & ->) (-> & -> & ->). split; [intros (_ & [= ->] & -> & ->); auto | intros (-> & -> & ->); auto].
  - intros (-> & <- & <- & <-) (-> & <- & <- & E). rewrite E.
    split; [intros (_ & [= ->] & -> & -> & ->); auto | intros (-> & -> & -> & ->); auto].
  - intros _ _. split; [intros (E & _); discriminate | intros (_ & [])].
Qed.

(** The plugin always declares precise floating point. *)
Lemma main_qemu `{GLib} (f g : list Z) (a : arguments) (name : list Z) (rs rs' : list reader.Record_)
    (options : diff.Options) :
  reader.loadTrace f = Ok (plugin_header a, rs) ->
  reader.loadTrace g = Ok (header_of name FpMode.Precise, rs') ->
  cdt_format.cdt_fnv1a (as_bytes (arg_feature_id a)) = CPU_FEATURE_ID \/
    diff.allowFeatureMismatch options = true ->
  diff.fpPolicy options = None \/ diff.fpPolicy options = Some "bitwise"%string ->
  diff.main f g options =
  Ok (compare.compareTraces rs rs' (fp_policy.areEqual "bitwise"%string) (diff.history options), false).
Proof.
  intros Hf Hg Hid Ho. unfold diff.main. rewrite Hf, Hg. unfold diff.assertComparable. cbv zeta.
  cbn [fst reader.cpuFeatureId header_of plugin_header build_header cdt_format.cpu_feature_id].
  assert ((cdt_format.cdt_fnv1a (as_bytes (arg_feature_id a)) =? CPU_FEATURE_ID) ||
    diff.allowFeatureMismatch options = true) as ->.
  { destruct Hid as [-> | ->]; [rewrite Z.eqb_refl; reflexivity | apply orb_true_r]. }
  assert (diff.isPrecise (plugin_header a, rs) = true) as Hp.
  { unfold diff.isPrecise, plugin_header. cbn. destruct (arg_scope a); reflexivity. }
  assert (diff.isPrecise (header_of name FpMode.Precise, rs') = true) as Hp' by reflexivity.
  unfold diff.choosePolicy. rewrite Hp, Hp'. destruct Ho as [-> | ->]; reflexivity.
Qed.

Lemma significant_stream (rs : list reader.Record_) (ic kind value count reason : Z) :
  compare.significantRecords rs = rs ->
  compare.significantRecords (reader.Marker ic kind value :: rs ++ [reader.End_ count reason]) = rs.
Proof.
  intros Hrs. unfold compare.significantRecords in *. rewrite filter_cons_False by discriminate.
  rewrite filter_app, Hrs, filter_cons_False, filter_nil by discriminate. apply app_nil_r.
Qed.

(** A plugin file against a file of the emulator, bitwise. *)
Lemma qemu_aligned {H} (regs : list (reg_descriptor H)) (scope : regmap_scope) (r0 : RegFile)
    (ps : list qpoint) (rs : list reader.Record_) (points : list point) (evs : list trace_event)
    (sns : list snapshot) q :
  writes_all regs scope (fun _ => None) ps rs ->
  logs None evs sns q -> Forall2 (shows r0) points sns ->
  aligned (fp_policy.areEqual "bitwise"%string) RegisterState.new RegisterState.new
    rs (event_record <$> evs) <-> qemu_agrees regs scope r0 ps points.
Proof.
  intros Hw Hlog Hshow. destruct (writes_all_wf _ _ _ Hw) as (_ & Hrep & _).
  unfold aligned, qemu_agrees.
  rewrite (Forall2_transport (fun r p => qreports p r) (fun r' a => reports a r') same_step same_moment
    rs (event_record <$> evs) ps points).
  - apply and_iff_compat_l.
    apply (Forall2_transport matches_ (fun st a => forall id,
      RegisterState.get st id = architectural r0 (at_state a) id)).
    + intros s t known a Hs Ht. rewrite bitwise_agrees. unfold same_registers.
      split; intros E id; specialize (E id); unfold RegisterState.get at 1 in E || unfold RegisterState.get at 1;
        rewrite (Hs id), ?Ht in *; exact E.
    + apply (writes_all_states _ _ _ _ Hw). intros id. reflexivity.
    + apply Forall2_flip. eapply shows_replay; [exact Hshow |].
      apply (logs_replay _ _ _ _ _ Hlog new_clean). discriminate.
  - intros r r' p a Hr Hr'. apply same_step_moment; assumption.
  - apply Forall2_flip. exact Hrep.
  - apply Forall2_flip. eapply logs_reports; eassumption.
Qed.

(** What the differ answers on a file of the plugin and one of the emulator. *)
Lemma qemu_verdict {H M} `{GLib} `{MemoryLaws M} `{DebugAssertions}
    (fwrite : list Z -> list Z -> nat)
    (fopen : string -> bool) (argv : list string) (a : arguments) (regs : list (reg_descriptor H))
    (l : list callback) (name : list Z) (actions : list action) (c : Cpu M CdtWriter) (s : isa_state)
    (options : diff.Options) :
  (forall contents data, fwrite contents data = length data) ->
  parse_args argv default_arguments = Some a -> fopen (arg_path a) = true ->
  NoDup (desc_name <$> regs) -> Forall callback_ok l ->
  models c s -> fresh name FpMode.Precise c -> Forall action_ok actions ->
  cdt_format.cdt_fnv1a (as_bytes (arg_feature_id a)) = CPU_FEATURE_ID \/
    diff.allowFeatureMismatch options = true ->
  diff.fpPolicy options = None \/ diff.fpPolicy options = Some "bitwise"%string ->
  exists st st' c' verdict,
    qemu_plugin_install fwrite fopen argv = Some st /\
    plugin_run fwrite (VcpuInit regs :: l ++ [AtExit]) st = Done st' /\ session actions c = Done c' /\
    diff.main (contents (writer st')) (CdtWriter.bytes (Cpu.sink c')) options = Ok (verdict, false) /\
    (Verdict.ok verdict = true <->
     qemu_agrees regs (arg_scope a) (Cpu.regs c)
       (qemu_points (arg_limit a) 0 (l ++ [AtExit])).1 (isa_session actions (Cpu.icount c) s)).
Proof.
  intros Hw Ha Ho Hn Hl Hm Hf Hact Hid Hopt.
  destruct (plugin_session fwrite fopen Hw argv a regs l Ha Ho Hn Hl)
    as (st & ps & count & reason & Hst & Hps & st' & Hrun & rs & Hws & Hfile).
  destruct (session_file name FpMode.Precise actions c s Hm Hf Hact)
    as (c' & Ec & evs & sns & q & Hload & Hlog & Hshow).
  exists st, st', c', (compare.compareTraces (reader.Marker 0 1 0 :: rs ++ [reader.End_ count reason])
    (event_record <$> evs) (fp_policy.areEqual "bitwise"%string) (diff.history options)).
  split; [exact Hst |]. split; [exact Hrun |]. split; [exact Ec |].
  rewrite (main_qemu _ _ _ _ _ _ _ (file_loads _ _ _ Hfile) Hload Hid Hopt). split; [reflexivity |].
  rewrite Hps. cbn [fst]. rewrite <- (qemu_aligned _ _ _ _ _ _ _ _ _ Hws Hlog Hshow), verdict_ok.
  destruct (writes_all_wf _ _ _ Hws) as (_ & _ & Hsig).
  rewrite significant_stream, (logs_significant _ _ _ _ Hlog) by exact Hsig. reflexivity.
Qed.

(** ** Theorems *)

(** C6: the plugin's stream is QEMU's run.  Install the plugin with arguments it
    accepts, on a disk that takes every write, and let QEMU report its vCPU, then
    any blocks, discontinuities and exits, then its own exit.  Nothing aborts, and
    the file is one [loadTrace] accepts: the start marker, one record for each
    block and discontinuity up to the instruction limit, in order, with its count
    of retired instructions and its PC and length or its source, target and type,
    and the end record with the final count and the reason.  A differ that replays
    it holds after each record, at every id, the value QEMU shows in that callback
    for the register of that id, if the record carries it, and otherwise what it
    held before. *)
Theorem plugin_stream {H} `{GLib} (fwrite : list Z -> list Z -> nat) (fopen : string -> bool)
    (argv : list string) (a : arguments) (regs : list (reg_descriptor H)) (l : list callback) :
  (forall contents data, fwrite contents data = length data) ->
  parse_args argv default_arguments = Some a -> fopen (arg_path a) = true ->
  NoDup (desc_name <$> regs) -> Forall callback_ok l ->
  exists st points count reason,
    qemu_plugin_install fwrite fopen argv = Some st /\
    qemu_points (arg_limit a) 0 (l ++ [AtExit]) = (points, Some (count, reason)) /\
    returns (plugin_run fwrite (VcpuInit regs :: l ++ [AtExit]) st) (fun st' => exists records,
      reader.loadTrace (contents (writer st')) =
        Ok (plugin_header a, reader.Marker 0 1 0 :: records ++ [reader.End_ count reason]) /\
      Forall2 qreports points records /\
      Forall2 (fun s known => forall id, RegisterState.values s !! id = known id)
        (states RegisterState.new records)
        (known_along regs (arg_scope a) (fun _ => None) points)).
Proof.
  intros Hw Ha Ho Hn Hl.
  destruct (plugin_session fwrite fopen Hw argv a regs l Ha Ho Hn Hl)
    as (st & ps & count & reason & Hst & Hps & Hrun).
  exists st, ps, count, reason. split; [exact Hst |]. split; [exact Hps |].
  eapply returns_mono; [exact Hrun |]. intros st' (rs & Hws & Hfile). exists rs.
  split; [apply file_loads, Hfile |]. destruct (writes_all_wf _ _ _ Hws) as (_ & Hrep & _).
  split; [exact Hrep |]. apply (writes_all_states _ _ _ _ Hws). intros id. reflexivity.
Qed.

(** C5: a match with QEMU certifies the emulator's run.  Take a plugin session as
    above, and a fresh vCPU that models an architectural state and writes its file
    in precise mode under any list of runs and injected exceptions.  If the plugin
    was told the emulator's feature mask (or the mismatch is allowed), the differ,
    under the default policy or [bitwise], answers on the two files with no error:
    it exits with 0 if QEMU's moments and the architectural execution agree one by
    one, in count, PC, block length or exception and, at every id, in the value
    the stream shows, and with 1 if they do not. *)
Theorem qemu_certifies {H M} `{GLib} `{MemoryLaws M} `{DebugAssertions}
    (fwrite : list Z -> list Z -> nat)
    (fopen : string -> bool) (argv : list string) (a : arguments) (regs : list (reg_descriptor H))
    (l : list callback) (name : list Z) (actions : list action) (c : Cpu M CdtWriter) (s : isa_state)
    (options : diff.Options) :
  (forall contents data, fwrite contents data = length data) ->
  parse_args argv default_arguments = Some a -> fopen (arg_path a) = true ->
  NoDup (desc_name <$> regs) -> Forall callback_ok l ->
  models c s -> fresh name FpMode.Precise c -> Forall action_ok actions ->
  cdt_format.cdt_fnv1a (as_bytes (arg_feature_id a)) = CPU_FEATURE_ID \/
    diff.allowFeatureMismatch options = true ->
  diff.fpPolicy options = None \/ diff.fpPolicy options = Some "bitwise"%string ->
  exists st st' c',
    qemu_plugin_install fwrite fopen argv = Some st /\
    plugin_run fwrite (VcpuInit regs :: l ++ [AtExit]) st = Done st' /\ session actions c = Done c' /\
    let code := diff.exit_code (diff.main (contents (writer st')) (CdtWriter.bytes (Cpu.sink c')) options) in
    let agree := qemu_agrees regs (arg_scope a) (Cpu.regs c)
      (qemu_points (arg_limit a) 0 (l ++ [AtExit])).1 (isa_session actions (Cpu.icount c) s) in
    (agree /\ code = diff.EXIT_MATCH) \/ (~ agree /\ code = diff.EXIT_DIVERGED).
Proof.
  intros Hw Ha Ho Hn Hl Hm Hf Hact Hid Hopt.
  destruct (qemu_verdict fwrite fopen argv a regs l name actions c s options
    Hw Ha Ho Hn Hl Hm Hf Hact Hid Hopt) as (st & st' & c' & verdict & Hst & Hrun & Hc & Hmain & Hok).
  exists st, st', c'. split; [exact Hst |]. split; [exact Hrun |]. split; [exact Hc |]. cbv zeta.
  rewrite Hmain, <- Hok. destruct verdict; cbn; [left | right]; auto.
Qed.

(** C20: the register map.  If QEMU lists no name twice, [regmap_build] gives every
    listed register with a trace id one slot, with its handle, id, width and kind,
    which the index tables name and which is among the slots scanned per block
    exactly when the scope includes it; a register that is not listed has index -1;
    and there are no other slots, so that the 512 are never used up. *)
Theorem regmap_build_correct {H} (regs : list (reg_descriptor H)) (scope : regmap_scope) :
  NoDup (desc_name <$> regs) ->
  let m := regmap_build regs scope in
  (forall id d, d ∈ regs -> name_of_id id = Some (desc_name d) ->
     exists j, table_at m id = Z.of_nat j /\
       slots m !! j = Some (slot H (desc_handle d) id (width_of_id id) (is_vector_id id)) /\
       ((j < n_block_slots m)%nat <-> scope_Z (id_scope id) <= scope_Z scope)) /\
  (forall id, id ∈ base_ids -> (forall d, d ∈ regs -> name_of_id id <> Some (desc_name d)) ->
     table_at m id = -1) /\
  (forall s, s ∈ slots m -> exists d, d ∈ regs /\ slot_for d = Some s) /\
  (length (slots m) <= 88)%nat.
Proof.
  intros Hn m. pose proof (build_built regs scope Hn) as Hb. fold m in Hb.
  pose proof (built_ok _ _ _ Hb) as Hok. repeat split.
  - intros id d Hd Hname. pose proof (name_of_id_base _ _ Hname) as Hid.
    set (s := slot H (desc_handle d) id (width_of_id id) (is_vector_id id)).
    assert (slot_for d = Some s) as Hs.
    { unfold slot_for. rewrite (proj2 (id_of_name_some _ id)) by auto. reflexivity. }
    assert (s ∈ slots m) as Hin by (apply (elem_of_slots Hb); eauto).
    apply list_elem_of_lookup in Hin as (j & Hj). exists j.
    assert (forall k, slots m !! k = Some s -> k = j) as Hu.
    { intros k Hk. eapply NoDup_lookup; [apply (map_nodup _ Hok) | |];
        rewrite list_lookup_fmap; [rewrite Hk | rewrite Hj]; reflexivity. }
    rewrite (map_index _ Hok id Hid). unfold index_of.
    erewrite list_find_unique; [| exact Hj | reflexivity |].
    + split; [reflexivity |]. split; [exact Hj |].
      assert (s ∈ block_slots m <-> (j < n_block_slots m)%nat) as <-.
      { unfold block_slots. rewrite list_elem_of_lookup. split.
        - intros (k & Hk). apply lookup_take_Some in Hk as [Hk Hlt]. rewrite <- (Hu k Hk). exact Hlt.
        - intros Hlt. exists j. apply lookup_take_Some. auto. }
      rewrite (elem_of_block_slots Hb). split; [intros [_ Hsc]; exact Hsc | intros Hsc].
      split; [apply (elem_of_slots Hb); eauto | exact Hsc].
    + intros k s' Hk Hs'. eapply NoDup_lookup; [apply (map_nodup _ Hok) | |];
        rewrite list_lookup_fmap; [rewrite Hk; reflexivity | rewrite Hj; cbn; congruence].
  - intros id Hid Hnone. rewrite (map_index _ Hok id Hid). unfold index_of.
    destruct (list_find _ (slots m)) as [[j s] |] eqn:E; [| reflexivity].
    apply list_find_Some in E as (Hj & <- & _). exfalso.
    apply list_elem_of_lookup_2, (elem_of_slots Hb) in Hj as (d & Hd & Hs).
    apply slot_for_inv in Hs as (Hi & _). apply id_of_name_some in Hi as [_ Hi]. exact (Hnone d Hd Hi).
  - intros s. apply (elem_of_slots Hb).
  - apply map_length, Hok.
Qed.

(** Appends records one after the other. *)
Fixpoint emit_all (fwrite : list Z -> list Z -> nat) (w : trace_writer) (records : list (list Z)) :
    may_panic trace_writer :=
  match records with
  | [] => mret w
  | record :: records => w ← trace_writer_emit fwrite w record; emit_all fwrite w records
  end.

Lemma emit_all_kept (fwrite : list Z -> list Z -> nat) (records : list (list Z)) (w : trace_writer) :
  is_open w = true -> writer_ok w ->
  unless_abort (emit_all fwrite w records) (fun w' =>
    is_open w' = true /\ writer_ok w' /\ given w' = given w ++ mjoin records).
Proof.
  revert w. induction records as [| r records IH]; intros w Ho Hw; cbn [emit_all].
  - cbn. rewrite app_nil_r. auto.
  - eapply unless_abort_bind; [apply emit_kept; assumption |]. intros w1 (Ho1 & Hw1 & Hg).
    pose proof (IH w1 Ho1 Hw1) as H1. destruct (emit_all fwrite w1 records) as [w' |]; [| exact I].
    cbn in *. rewrite Hg, <- app_assoc in H1. exact H1.
Qed.

Lemma emit_all_total (fwrite : list Z -> list Z -> nat) (records : list (list Z)) (w : trace_writer) :
  (forall contents data, fwrite contents data = length data) -> is_open w = true -> writer_ok w ->
  returns (emit_all fwrite w records) (fun w' => is_open w' = true).
Proof.
  intros Hf. revert w. induction records as [| r records IH]; intros w Ho Hw; cbn [emit_all].
  - apply returns_ret, Ho.
  - eapply returns_bind; [apply (emit_spec fwrite Hf); assumption |]. intros w1 (Ho1 & Hw1 & _). auto.
Qed.

(** C21: the buffered writer loses nothing.  After the header is written, and
    any records are emitted, of any length: the buffer is within its capacity, and
    the bytes on disk followed by those in the buffer are the header and the
    records, in order; closing leaves exactly these on disk.  A short write, which
    [fwrite] may return at any time, aborts the process instead; if there is none,
    the whole returns. *)
Theorem writer_keeps_records (fwrite : list Z -> list Z -> nat) (header : list Z)
    (records : list (list Z)) (w : trace_writer) :
  trace_writer_open fwrite true header = Some w ->
  let all := header ++ mjoin records in
  let closed := w' ← emit_all fwrite w records; trace_writer_close fwrite w' in
  unless_abort (emit_all fwrite w records) (fun w' =>
    used w' <= TRACE_WRITER_BUFFER /\ contents w' ++ buffer w' = all) /\
  unless_abort closed (fun w' => is_open w' = false /\ contents w' = all) /\
  ((forall contents data, fwrite contents data = length data) ->
   returns closed (fun w' => contents w' = all)).
Proof.
  intros Hopen. cbv zeta. unfold trace_writer_open in Hopen. cbn [negb] in Hopen.
  destruct (negb _); [discriminate |]. injection Hopen as <-. set (w := trace_writer.mk true header []).
  assert (is_open w = true) as Ho by reflexivity.
  assert (writer_ok w) as Hw by (vm_compute; discriminate).
  pose proof (emit_all_kept fwrite records w Ho Hw) as Hk.
  assert (given w = header) as Hg by apply app_nil_r.
  assert (unless_abort (w' ← emit_all fwrite w records; trace_writer_close fwrite w')
    (fun w' => is_open w' = false /\ contents w' = header ++ mjoin records)) as Hc.
  { eapply unless_abort_bind; [exact Hk |]. intros w1 (Ho1 & _ & Hg1).
    pose proof (close_kept fwrite w1 Ho1) as Hcl. rewrite Hg1, Hg in Hcl. exact Hcl. }
  split; [| split; [exact Hc |]].
  - destruct (emit_all fwrite w records) as [w1 |]; [| exact I]. destruct Hk as (_ & Hu & E).
    cbn. rewrite Hg in E. auto.
  - intros Hf. eapply returns_mono; [apply unless_abort_returns; [exact Hc |] | intros w' [_ E]; exact E].
    eapply returns_bind; [apply emit_all_total; assumption |]. intros w1 Ho1.
    eapply returns_mono; [apply (close_spec fwrite Hf); exact Ho1 | auto].
Qed.

(** The three implementations of the feature id agree: the emulator's, the
    differ's tool and the plugin's, which stops at the first NUL. *)
Theorem feature_ids_agree (text : string) :
  feature_id.featureId (as_bytes text) = fnv1a text /\
  cdt_format.cdt_fnv1a (as_bytes text) = feature_id.featureId (reader.until_nul (as_bytes text)) /\
  cdt_format.cdt_fnv1a (as_bytes FEATURE_MASK) = CPU_FEATURE_ID.
Proof.
  assert (forall l h, foldl (fun hash byte => Z.land (Z.lxor hash byte * feature_id.PRIME) feature_id.MASK) h l =
    foldl (fun hash byte => wmul 64 (Z.lxor hash byte) FNV_PRIME) h l) as E.
  { induction l as [| b l IH]; intros h; [reflexivity |]. cbn [foldl]. rewrite IH. f_equal.
    unfold wmul. rewrite wrap_land_ones by lia. reflexivity. }
  split; [apply E |]. split; [| vm_compute; reflexivity].
  unfold cdt_format.cdt_fnv1a. rewrite fnv_until_nul by apply as_bytes_is_byte. symmetry. apply E.
Qed.

(** The normalised PSTATE: of a raw word, the bits of NZCV, DAIF, the exception
    level and SPSel, in place; which leaves an architectural trace word alone. *)
Theorem pstate_normalised (raw : Z) (p : Pstate) :
  0 <= raw ->
  regmap_normalise_pstate raw = Z.land raw 0xF00003CD /\
  of_trace_word (regmap_normalise_pstate raw) = of_trace_word raw /\
  regmap_normalise_pstate (Pstate.to_trace_word p) = Pstate.to_trace_word p.
Proof.
  intros Hr. split; [apply normalise_land, Hr |]. split.
  - rewrite normalise_land by exact Hr. unfold of_trace_word. rewrite !Z.shiftr_land, <- !Z.land_assoc.
    reflexivity.
  - destruct p as [[[] [] [] []] [[] [] [] []] [] []]; vm_compute; reflexivity.
Qed.

(** ** Which runs can match *)

Section Known.

Context {H : Type} (regs : list (reg_descriptor H)) (scope : regmap_scope).

Lemma known_along_lookup f (ps : list qpoint) (i : nat) (p : qpoint) :
  ps !! i = Some p ->
  exists g, known_along regs scope f ps !! i = Some (learn regs scope g p).
Proof.
  revert f i. induction ps as [| p0 ps IH]; intros f [| i]; cbn; try discriminate.
  - intros [= ->]. eauto.
  - apply IH.
Qed.

(** At a discontinuity the stream shows every register, whatever the scope. *)
Lemma known_at_discon f (ps : list qpoint) (i : nat) (p : qpoint) (type from to id : Z) :
  ps !! i = Some p -> q_event p = QDiscon type from to -> is_Some (slot_of id) ->
  exists known, known_along regs scope f ps !! i = Some known /\
    known id = Some (qemu_reg regs (q_view p) id).
Proof.
  intros Hp He Hid. destruct (known_along_lookup f ps i p Hp) as (g & Hg).
  exists (learn regs scope g p). split; [exact Hg |]. unfold learn.
  rewrite decide_True; [reflexivity |]. unfold carried. rewrite He. exact Hid.
Qed.

(** The emulator has no system registers and reports zero for them; the plugin
    reports QEMU's at every discontinuity, and the differ compares them whatever
    the flags of the two headers say.  So no run matches in which one of the
    twenty is not zero at an exception. *)
Theorem match_needs_zero_sysregs (r0 : RegFile) (ps : list qpoint) (points : list point) (i : nat)
    (p : qpoint) (type from to id : Z) :
  qemu_agrees regs scope r0 ps points -> ps !! i = Some p -> q_event p = QDiscon type from to ->
  256 <= id < 276 -> qemu_reg regs (q_view p) id = 0.
Proof.
  intros [_ Hk] Hp He Hid.
  destruct (known_at_discon (fun _ => None) ps i p type from to id Hp He) as (known & Hi & Hv).
  { unfold slot_of. repeat case_decide; eauto; lia. }
  destruct (Forall2_lookup_l _ _ _ _ _ Hk Hi) as (a & _ & Ha).
  specialize (Ha id). rewrite Hv in Ha.
  change (qemu_reg regs (q_view p) id = architectural r0 (at_state a) id) in Ha. rewrite Ha.
  unfold architectural, RegId.SP, RegId.PC, RegId.PSTATE. rewrite reg_at_none by (unfold trace_id; lia).
  destruct (Z.leb_spec 0 id), (Z.ltb_spec id 31), (Z.eqb_spec id 31), (Z.eqb_spec id 32), (Z.eqb_spec id 33);
    try lia; reflexivity.
Qed.

(** QEMU lists every register below the system registers. *)
Definition complete : Prop := forall id, id ∈ base_ids -> id < 256 -> id ∈ listed regs.

Lemma base_id_trace (id : Z) : trace_id id -> base_id id ∈ base_ids /\ base_id id < 256.
Proof.
  intros Hid. unfold trace_id in Hid.
  assert (0 <= id < 36 \/ 64 <= id < 128) as [Hr | Hr] by lia.
  - assert (base_id id = id) as ->
      by (unfold base_id; destruct (Z.leb_spec 64 id), (Z.ltb_spec id 128); cbn [andb]; lia || reflexivity).
    split; [apply elem_of_base_ids; lia | lia].
  - pose proof (base_id_even id Hr) as He. pose proof (Z.mod_pos_bound id 2 ltac:(lia)).
    pose proof (Z.div_mod id 2 ltac:(lia)).
    assert (base_id id = id - id mod 2) as E
      by (unfold base_id; destruct (Z.leb_spec 64 id), (Z.ltb_spec id 128); try lia; reflexivity).
    split; [apply elem_of_base_ids; right; left; split; [rewrite E; lia | exact He] | lia].
Qed.

(** Then every record brings every register of the trace up to date. *)
Lemma learn_complete (g : Z -> option Z) (p : qpoint) (id : Z) :
  complete -> scope <> SCOPE_CORE -> trace_id id ->
  learn regs scope g p id = Some (qemu_reg regs (q_view p) id).
Proof.
  intros Hc Hs Hid. unfold learn. rewrite decide_True; [reflexivity |].
  destruct (base_id_trace id Hid) as [Hb Hlt].
  unfold carried. destruct (q_event p).
  - split; [apply Hc; assumption |]. unfold id_scope.
    destruct (Z.leb_spec 256 (base_id id)); [lia |].
    destruct (64 <=? base_id id), ((base_id id =? 34) || (base_id id =? 35)), scope; try congruence; cbn; lia.
  - unfold slot_of. unfold trace_id in Hid. repeat case_decide; eauto; lia.
Qed.

Lemma learn_other (g : Z -> option Z) (p : qpoint) (id : Z) :
  ~ trace_id id -> ~ 256 <= id < 276 -> learn regs scope g p id = g id.
Proof.
  intros Hid Hsys. unfold learn. rewrite decide_False; [reflexivity |]. unfold trace_id in Hid.
  unfold carried. destruct (q_event p).
  - intros [Hl _]. apply elem_of_listed in Hl as [Hb%elem_of_base_ids _].
    unfold base_id in Hb. destruct (Z.leb_spec 64 id), (Z.ltb_spec id 128); cbn [andb] in Hb; lia.
  - unfold slot_of. repeat case_decide; try lia. intros [? ?]; discriminate.
Qed.

(** What agreement is when the stream shows every register. *)
Theorem agreement_complete (r0 : RegFile) (ps : list qpoint) (points : list point) :
  complete -> scope <> SCOPE_CORE ->
  qemu_agrees regs scope r0 ps points <->
  Forall2 (fun p a => same_moment p a /\
    forall id, trace_id id -> qemu_reg regs (q_view p) id = architectural r0 (at_state a) id) ps points /\
  Forall (fun known => forall id, 256 <= id < 276 -> default 0 (known id) = 0)
    (known_along regs scope (fun _ => None) ps).
Proof.
  intros Hc Hs. unfold qemu_agrees.
  assert (forall id, ~ trace_id id -> forall a, architectural r0 a id = 0) as Hnone.
  { intros id Hid a. unfold architectural, RegId.SP, RegId.PC, RegId.PSTATE. rewrite reg_at_none by exact Hid.
    unfold trace_id in Hid.
    destruct (Z.leb_spec 0 id), (Z.ltb_spec id 31), (Z.eqb_spec id 31), (Z.eqb_spec id 32), (Z.eqb_spec id 33);
      try lia; reflexivity. }
  assert (forall f p a, (forall id, ~ trace_id id -> ~ 256 <= id < 276 -> f id = None) ->
    same_registers r0 (learn regs scope f p) a <->
    (forall id, trace_id id -> qemu_reg regs (q_view p) id = architectural r0 (at_state a) id) /\
    (forall id, 256 <= id < 276 -> default 0 (learn regs scope f p id) = 0)) as Hhead.
  { intros f p a Hf. unfold same_registers. split.
    - intros E. split; intros id Hid; specialize (E id).
      + rewrite learn_complete in E by assumption. exact E.
      + rewrite Hnone in E by (unfold trace_id; lia). exact E.
    - intros [E1 E2] id. destruct (trace_id_dec id) as [Hid | Hid].
      + rewrite learn_complete by assumption. apply E1, Hid.
      + rewrite Hnone by exact Hid. destruct (decide (256 <= id < 276)) as [Hsys | Hsys]; [apply E2, Hsys |].
        rewrite learn_other, Hf by assumption. reflexivity. }
  assert (forall id, ~ trace_id id -> ~ 256 <= id < 276 -> (fun _ => None) id = @None Z) as Hf by reflexivity.
  revert Hf. generalize (fun _ : Z => @None Z) as f. revert points.
  induction ps as [| p ps IH]; intros points f Hf; cbn [known_along].
  { split; [intros [H1 _]; inversion H1; repeat constructor | intros [H1 _]; inversion H1; repeat constructor]. }
  destruct points as [| a points]; [split; intros [H1 _]; inversion H1 |].
  rewrite !Forall2_cons, Forall_cons, (Hhead f p a Hf).
  assert (forall id, ~ trace_id id -> ~ 256 <= id < 276 -> learn regs scope f p id = None) as Hf'
    by (intros id Hid Hsys; rewrite learn_other by assumption; apply Hf; assumption).
  specialize (IH points _ Hf'). tauto.
Qed.

End Known.

(** The count of the next moment. *)
Definition next_count {H} (p : qpoint (H := H)) : Z :=
  match q_event p with QBlock _ n => wadd 64 (q_count p) n | QDiscon _ _ _ => q_count p end.

Lemma qemu_points_counts {H} (limit : Z) (l : list (callback (H := H))) (count : Z) (i : nat) (p p' : qpoint) :
  (forall p0, (qemu_points limit count l).1 !! 0%nat = Some p0 -> q_count p0 = count) /\
  ((qemu_points limit count l).1 !! i = Some p -> (qemu_points limit count l).1 !! S i = Some p' ->
   q_count p' = next_count p).
Proof.
  revert count i p p'. induction l as [| c l IH]; intros count i p p'; [split; discriminate |].
  destruct c as [rs0 | b q | type from to q |]; cbn [qemu_points]; [apply IH | | | split; discriminate].
  - set (next := wadd 64 count (as_u16 (tb_n_insns b))).
    destruct (negb (limit =? 0) && _); [split; [intros p0 [= <-]; reflexivity | destruct i; discriminate] |].
    destruct (qemu_points limit next l) as [ps e] eqn:E.
    assert (forall j p p', (forall p0, ps !! 0%nat = Some p0 -> q_count p0 = next) /\
      (ps !! j = Some p -> ps !! S j = Some p' -> q_count p' = next_count p)) as IH'
      by (intros j x y; specialize (IH next j x y); rewrite E in IH; exact IH).
    split; [intros p0 [= <-]; reflexivity |]. destruct i as [| i]; cbn.
    + intros [= <-] Hp'. apply (IH' 0%nat p' p'), Hp'.
    + apply IH'.
  - destruct (qemu_points limit count l) as [ps e] eqn:E.
    assert (forall j p p', (forall p0, ps !! 0%nat = Some p0 -> q_count p0 = count) /\
      (ps !! j = Some p -> ps !! S j = Some p' -> q_count p' = next_count p)) as IH'
      by (intros j x y; specialize (IH count j x y); rewrite E in IH; exact IH).
    split; [intros p0 [= <-]; reflexivity |]. destruct i as [| i]; cbn.
    + intros [= <-] Hp'. apply (IH' 0%nat p' p'), Hp'.
    + apply IH'.
Qed.

(** A moment that QEMU shows after a block has counted it; an exception that the
    architecture reports after a trap does not. *)
Lemma trap_disagrees {H} (regs : list (reg_descriptor H)) (scope : regmap_scope) (r0 : RegFile)
    (limit : Z) (l : list callback) (before : list point) (actions : list action) (n : nat)
    (word_ : list Z) (count from to : Z) (discon : DisconType) (s : isa_state) (t : Trap) :
  bytes_at (isa_mem s) (isa_pc s) 4 = Some word_ -> isa_step s = Raise t -> in_range 64 count ->
  ~ qemu_agrees regs scope r0 (qemu_points limit 0 l).1
      (before ++ isa_session (ARun (S n) :: AException from to discon :: actions) count s).
Proof.
  intros Hw Hs Hc [Hm _]. cbn [isa_session isa_act isa_run isa_blocks] in Hm. rewrite Hw, Hs in Hm.
  cbn [app] in Hm. rewrite Z.add_0_r, wrap_small in Hm by exact Hc.
  assert (forall i b, (before ++ {| at_count := count; at_state := s; at_exception := None |} ::
    {| at_count := count; at_state := s; at_exception := Some (from, to, discon) |} ::
    isa_session actions count s) !! (length before + i)%nat = Some b ->
    exists p, (qemu_points limit 0 l).1 !! (length before + i)%nat = Some p /\ same_moment p b) as Hat.
  { intros i b Hb. destruct (Forall2_lookup_r _ _ _ _ _ Hm Hb) as (p & Hp & Hpb). eauto. }
  destruct (Hat 0%nat {| at_count := count; at_state := s; at_exception := None |}) as (p & Hp & Hpc & Hpe);
    [rewrite lookup_app_r, Nat.add_sub_swap, Nat.sub_diag by lia; reflexivity |].
  destruct (Hat 1%nat {| at_count := count; at_state := s; at_exception := Some (from, to, discon) |})
    as (p' & Hp' & Hpc' & _);
    [rewrite lookup_app_r, Nat.add_sub_swap, Nat.sub_diag by lia; reflexivity |].
  rewrite Nat.add_0_r in Hp. rewrite Nat.add_1_r in Hp'.
  destruct (qemu_points_counts limit l 0 (length before) p p') as [_ Hn].
  specialize (Hn Hp Hp'). unfold next_count in Hn. cbn in Hpc, Hpe, Hpc'.
  destruct (q_event p) as [pc k |]; [| destruct Hpe]. destruct Hpe as [_ ->].
  rewrite Hpc, Hpc' in Hn. unfold wadd, wrap in Hn. unfold in_range in Hc.
  destruct (decide (count + 1 = 2 ^ 64)) as [E | E].
  - rewrite E, Z.mod_same in Hn by lia. lia.
  - rewrite Z.mod_small in Hn by lia. lia.
Qed.

(** The count and the state after a list of actions. *)
Fixpoint isa_after (l : list action) (count : Z) (s : isa_state) : Z * isa_state :=
  match l with
  | [] => (count, s)
  | a :: l => let '(_, count, s) := isa_act a count s in isa_after l count s
  end.

Lemma isa_session_app (l k : list action) (count : Z) (s : isa_state) :
  isa_session (l ++ k) count s =
  isa_session l count s ++ let '(count', s') := isa_after l count s in isa_session k count' s'.
Proof.
  revert count s. induction l as [| a l IH]; intros count s; cbn [app isa_session isa_after].
  - reflexivity.
  - destruct (isa_act a count s) as [[ps count1] s1]. rewrite IH, app_assoc. reflexivity.
Qed.

Lemma isa_after_count (l : list action) (count : Z) (s : isa_state) :
  in_range 64 count -> in_range 64 (isa_after l count s).1.
Proof.
  revert count s. induction l as [| a l IH]; intros count s Hc; cbn [isa_after]; [exact Hc |].
  destruct a as [n | from to discon]; cbn [isa_act].
  - destruct (isa_run n s) as [[s' k] t]. apply IH, wrap_range. lia.
  - apply IH, Hc.
Qed.

(** C22: a trap that is reported never matches.  The plugin counts a block when it
    starts, so that its record of the exception of an instruction that traps
    counts that instruction; the emulator does not count it.  Take a plugin
    session and a run of the emulator as in [qemu_certifies], where after some
    actions the emulator runs into an instruction that traps and the exception is
    then reported, with anything after it.  Whatever QEMU showed, be it the same
    execution, the differ exits with 1. *)
Theorem trap_never_matches {H M} `{GLib} `{MemoryLaws M} `{DebugAssertions}
    (fwrite : list Z -> list Z -> nat)
    (fopen : string -> bool) (argv : list string) (a : arguments) (regs : list (reg_descriptor H))
    (l : list callback) (name : list Z) (before after : list action) (n : nat) (from to : Z)
    (discon : DisconType) (c : Cpu M CdtWriter) (s : isa_state) (word_ : list Z) (t : Trap)
    (options : diff.Options) :
  (forall contents data, fwrite contents data = length data) ->
  parse_args argv default_arguments = Some a -> fopen (arg_path a) = true ->
  NoDup (desc_name <$> regs) -> Forall callback_ok l ->
  models c s -> fresh name FpMode.Precise c ->
  Forall action_ok (before ++ ARun (S n) :: AException from to discon :: after) ->
  cdt_format.cdt_fnv1a (as_bytes (arg_feature_id a)) = CPU_FEATURE_ID \/
    diff.allowFeatureMismatch options = true ->
  diff.fpPolicy options = None \/ diff.fpPolicy options = Some "bitwise"%string ->
  let s' := (isa_after before (Cpu.icount c) s).2 in
  bytes_at (isa_mem s') (isa_pc s') 4 = Some word_ -> isa_step s' = Raise t ->
  exists st st' c',
    qemu_plugin_install fwrite fopen argv = Some st /\
    plugin_run fwrite (VcpuInit regs :: l ++ [AtExit]) st = Done st' /\
    session (before ++ ARun (S n) :: AException from to discon :: after) c = Done c' /\
    diff.exit_code (diff.main (contents (writer st')) (CdtWriter.bytes (Cpu.sink c')) options) =
      diff.EXIT_DIVERGED.
Proof.
  intros Hw Ha Ho Hn Hl Hm Hf Hact Hid Hopt s' Hword Ht.
  destruct (qemu_verdict fwrite fopen argv a regs l name _ c s options
    Hw Ha Ho Hn Hl Hm Hf Hact Hid Hopt) as (st & st' & c' & verdict & Hst & Hrun & Hc & Hmain & Hok).
  exists st, st', c'. split; [exact Hst |]. split; [exact Hrun |]. split; [exact Hc |].
  rewrite Hmain. destruct verdict as [| d h]; [exfalso | reflexivity].
  pose proof (isa_after_count before (Cpu.icount c) s (fresh_count _ _ _ Hf)) as Hr.
  destruct Hok as [Hok _]. specialize (Hok eq_refl). rewrite isa_session_app in Hok.
  unfold s' in *. destruct (isa_after before (Cpu.icount c) s) as [count s1]. cbn [fst snd] in *.
  exact (trap_disagrees _ _ _ _ _ _ _ _ _ _ _ _ _ _ _ Hword Ht Hr Hok).
Qed.

(** ** What the inspection tools say of a file *)

Import cdt.

Section Inspected.

Definition is_discon {H} (p : qpoint (H := H)) : bool :=
  match q_event p with QDiscon _ _ _ => true | QBlock _ _ => false end.

Definition is_block (r : reader.Record_) : bool :=
  match r with reader.Block _ _ _ _ => true | _ => false end.

(** The instructions of a block. *)
Definition insns (r : reader.Record_) : Z :=
  match r with reader.Block _ _ n _ => n | _ => 0 end.

Definition total (l : list Z) : Z := foldr Z.add 0 l.

(** The totals of [commandStats], without the loop. *)
Lemma stats_spec (records : list reader.Record_) (s : Stats) :
  let s' := foldl count_record s records in
  instructions s' = instructions s + total (insns <$> records) /\
  forall type, default 0 (counts s' !! type) =
    default 0 (counts s !! type) +
    Z.of_nat (length (filter (fun r => compare.type r = type) records)).
Proof.
  cbv zeta. revert s. induction records as [| r records IH]; intros s.
  { cbn. split; [lia | intros type; lia]. }
  cbn [foldl fmap list_fmap total foldr]. destruct (IH (count_record s r)) as [E1 E2]. split.
  - rewrite E1. unfold total. destruct r; cbn; lia.
  - intros type. rewrite E2.
    assert (counts (count_record s r) =
      <[compare.type r := default 0 (counts s !! compare.type r) + 1]> (counts s)) as -> by (destruct r; reflexivity).
    destruct (decide (compare.type r = type)) as [<- | Ht].
    + rewrite lookup_insert_eq, filter_cons_True by reflexivity.
      cbn [from_option length]. unfold Datatypes.id. lia.
    + rewrite lookup_insert_ne, filter_cons_False by assumption. reflexivity.
Qed.

(** The four registers the tool asks for are ids 265, 264, 261 and 262. *)
Lemma failures_of_zero (e : reader.Exception_) :
  length (reader.x e) = 32%nat -> length (reader.v e) = 64%nat ->
  assert_exception_state.failures_of e = 0%nat <->
  forall n, n ∈ [9; 8; 5; 6]%nat -> reader.sysreg e !! n <> Some 0.
Proof.
  intros Hx Hv. unfold assert_exception_state.failures_of. rewrite Hx, Hv. cbn [Nat.eqb negb orb].
  rewrite Nat.add_0_r. unfold assert_exception_state.REQUIRED.
  assert (forall P (l : list string) `{forall a, Decision (P a)}, length (filter P l) = 0%nat <-> Forall (fun a => ~ P a) l) as Hf.
  { intros P l HP. induction l as [| a l IH]; [split; [constructor | reflexivity] |].
    rewrite filter_cons, Forall_cons. destruct (decide (P a)); cbn [length]; [split; [lia | tauto] | tauto]. }
  rewrite Hf, !Forall_cons, Forall_nil. clear Hf. split.
  - intros (H1 & H2 & H3 & H4 & _) n Hn. set_unfold in Hn.
    destruct Hn as [-> | [-> | [-> | [-> | []]]]]; assumption.
  - intros Hn. repeat split; apply Hn; set_solver.
Qed.

Lemma failures_of_clear (e : reader.Exception_) :
  reader.sysreg e = replicate 20 0 -> assert_exception_state.failures_of e <> 0%nat.
Proof.
  intros Hs. unfold assert_exception_state.failures_of, assert_exception_state.REQUIRED.
  rewrite filter_cons_True; [discriminate |].
  unfold assert_exception_state.sysreg_named. rewrite Hs. reflexivity.
Qed.

Lemma main_zero (h : reader.Header) (records : list reader.Record_) (file : list Z) :
  reader.loadTrace file = Ok (h, records) ->
  assert_exception_state.main file = 0 <->
  exceptions records <> [] /\
  Forall (fun e => assert_exception_state.failures_of e = 0%nat) (exceptions records).
Proof.
  intros Hl. unfold assert_exception_state.main. rewrite Hl.
  assert (forall es k, foldl (fun n e => n + assert_exception_state.failures_of e)%nat k es = 0%nat <->
    k = 0%nat /\ Forall (fun e => assert_exception_state.failures_of e = 0%nat) es) as Hf.
  { induction es as [| e es IH]; intros k; cbn [foldl]; [rewrite Forall_nil; tauto |].
    rewrite IH, Forall_cons. intuition lia. }
  specialize (Hf (exceptions records) 0%nat).
  destruct (exceptions records) as [| e es]; cbn [length Nat.eqb]; [split; [discriminate | tauto] |].
  destruct (Nat.ltb_spec 0 (foldl (fun n e => n + assert_exception_state.failures_of e)%nat 0%nat (e :: es))) as [E | E].
  - split; [discriminate |]. intros [_ Ha]. destruct Hf as [_ Hf]. specialize (Hf (conj eq_refl Ha)). lia.
  - split; [| reflexivity]. intros _. split; [discriminate |]. apply Hf. lia.
Qed.

Lemma exceptions_app (l k : list reader.Record_) : exceptions (l ++ k) = exceptions l ++ exceptions k.
Proof. apply omap_app. Qed.

(** What holds of one list pointwise, through another. *)
Lemma Forall2_Forall_iff {A B} (R : A -> B -> Prop) (P : A -> Prop) (Q : B -> Prop) (l : list A) (k : list B) :
  Forall2 R l k -> (forall a b, R a b -> Q b <-> P a) -> Forall Q k <-> Forall P l.
Proof.
  intros Hr Hi. induction Hr as [| a b l k Hab Hr IH]; [split; constructor |].
  rewrite !Forall_cons, IH, (Hi a b Hab). reflexivity.
Qed.

(** The exception records of a plugin file show every system register. *)
Lemma exceptions_show {H} (regs : list (reg_descriptor H)) (scope : regmap_scope) f (ps : list qpoint)
    (rs : list reader.Record_) (s : RegisterState) :
  writes_all regs scope f ps rs -> matches_ s f ->
  Forall2 (fun p e =>
    (length (reader.x e) = 32%nat /\ length (reader.v e) = 64%nat) /\
    forall n, (n < 20)%nat -> reader.sysreg e !! n = Some (qemu_reg regs (q_view p) (256 + Z.of_nat n)))
    (filter is_discon ps) (exceptions rs).
Proof.
  intros Hw. revert s. induction Hw as [f | f p r ps rs [Hrep Hwf Hl] Hw IH]; intros s Hs; [constructor |].
  specialize (IH (compare.apply s r) (Hl s Hs)). unfold qreports in Hrep.
  destruct (q_event p) as [pc k | type from to] eqn:Ep; destruct r as [| e | | |]; try contradiction.
  - rewrite filter_cons_False; [exact IH |]. unfold is_discon. rewrite Ep. intros [].
  - rewrite filter_cons_True by (unfold is_discon; rewrite Ep; exact I). constructor; [| exact IH].
    cbn [record_wf] in Hwf. split; [split; apply Hwf |]. intros n Hn.
    assert (slot_of (256 + Z.of_nat n) = Some (SSys n)) as Hid.
    { unfold slot_of. repeat (rewrite decide_False by lia). rewrite decide_True by lia. repeat f_equal. lia. }
    specialize (Hl s Hs (256 + Z.of_nat n)). cbn [compare.apply] in Hl.
    rewrite applyException_lookup, Hid in Hl by (split; [apply Hwf | split; apply Hwf]).
    cbn [slot_get] in Hl. rewrite Hl. unfold learn. rewrite decide_True; [reflexivity |].
    unfold carried. rewrite Ep, Hid. eauto.
Qed.

(** The four registers, of a record that shows QEMU's. *)
Lemma full_state {H} (regs : list (reg_descriptor H)) (p : qpoint) (e : reader.Exception_) :
  (length (reader.x e) = 32%nat /\ length (reader.v e) = 64%nat) /\
  (forall n, (n < 20)%nat -> reader.sysreg e !! n = Some (qemu_reg regs (q_view p) (256 + Z.of_nat n))) ->
  assert_exception_state.failures_of e = 0%nat <->
  forall id, id ∈ [265; 264; 261; 262] -> qemu_reg regs (q_view p) id <> 0.
Proof.
  intros [[Hx Hv] Hs]. rewrite failures_of_zero by assumption. split.
  - intros Hz id Hid E.
    assert (exists n, n ∈ [9; 8; 5; 6]%nat /\ (n < 20)%nat /\ id = 256 + Z.of_nat n) as (n & Hin & Hlt & ->).
    { set_unfold in Hid.
      destruct Hid as [-> | [-> | [-> | [-> | []]]]]; [exists 9%nat | exists 8%nat | exists 5%nat | exists 6%nat];
        (split; [set_solver | split; [lia | reflexivity]]). }
    apply (Hz n Hin). rewrite Hs, E by exact Hlt. reflexivity.
  - intros Hz n Hin.
    assert ((n < 20)%nat /\ 256 + Z.of_nat n ∈ [265; 264; 261; 262]) as [Hlt Hid].
    { set_unfold in Hin. destruct Hin as [-> | [-> | [-> | [-> | []]]]]; (split; [lia | cbn; set_solver]). }
    rewrite Hs by exact Hlt. intros [= E]. exact (Hz _ Hid E).
Qed.

(** The count at the end is the instructions of the blocks. *)
Lemma qemu_points_total {H} (limit : Z) (l : list (callback (H := H))) (count c reason : Z) (ps : list qpoint)
    (rs : list reader.Record_) :
  in_range 64 count -> qemu_points limit count l = (ps, Some (c, reason)) -> Forall2 qreports ps rs ->
  wrap 64 (count + total (insns <$> rs)) = c.
Proof.
  revert count ps rs. induction l as [| a l IH]; intros count ps rs Hc; cbn [qemu_points]; [discriminate |].
  destruct a as [rs0 | b q | type from to q |].
  - apply IH, Hc.
  - set (k := as_u16 (tb_n_insns b)). set (next := wadd 64 count k).
    assert (in_range 64 next) as Hn by (apply wrap_range; lia).
    destruct (negb (limit =? 0) && _).
    + intros [= <- <- <-] Hr. inversion Hr as [| p r ps' rs' Hp Hr']; subst. inversion Hr'; subst.
      destruct r; try contradiction. destruct Hp as (_ & _ & ->). cbn [fmap list_fmap insns total foldr].
      rewrite Z.add_0_r. reflexivity.
    + destruct (qemu_points limit next l) as [ps1 e] eqn:E. intros [= <- ->] Hr.
      inversion Hr as [| p r ps' rs' Hp Hr']; subst. destruct r; try contradiction. destruct Hp as (_ & _ & ->).
      specialize (IH next ps1 rs' Hn E Hr'). rewrite <- IH. cbn [fmap list_fmap insns total foldr].
      unfold next, wadd, wrap. rewrite Z.add_mod_idemp_l by lia. f_equal. fold (total (insns <$> rs')). lia.
  - destruct (qemu_points limit count l) as [ps1 e] eqn:E. intros [= <- ->] Hr.
    inversion Hr as [| p r ps' rs' Hp Hr']; subst. destruct r; try contradiction.
    specialize (IH count ps1 rs' Hc E Hr'). rewrite <- IH. reflexivity.
  - intros [= <- <- <-] Hr. inversion Hr; subst. cbn. rewrite Z.add_0_r. apply wrap_small, Hc.
Qed.

(** The records of a session of the emulator, counted. *)
Lemma reports_counts (ps : list point) (rs : list reader.Record_) :
  Forall2 reports ps rs ->
  length (exceptions rs) = length (filter (fun p => is_Some (at_exception p)) ps) /\
  total (insns <$> rs) = Z.of_nat (length (filter (fun p => at_exception p = None) ps)) /\
  forall ic reason, last rs <> Some (reader.End_ ic reason).
Proof.
  induction 1 as [| p r ps rs Hr Hrs (IH1 & IH2 & IH3)]; [repeat split; discriminate |].
  unfold reports in Hr. destruct (at_exception p) as [[[from to] discon] |] eqn:Ep;
    destruct r as [pc ic n ds | e | | |]; try contradiction.
  - rewrite filter_cons_True by (rewrite Ep; eauto). rewrite filter_cons_False by (rewrite Ep; discriminate).
    split; [cbn; f_equal; exact IH1 |]. split; [cbn [fmap list_fmap total foldr insns]; exact IH2 |].
    intros ic reason. rewrite last_cons. destruct (last rs) eqn:E; [intros [= ->]; eapply IH3; reflexivity | discriminate].
  - rewrite filter_cons_False by (rewrite Ep; intros [? ?]; discriminate). rewrite filter_cons_True by exact Ep.
    split; [exact IH1 |]. split.
    + destruct Hr as (_ & _ & ->). cbn [fmap list_fmap total foldr insns length]. unfold total in IH2. rewrite IH2. lia.
    + intros ic' reason. rewrite last_cons.
      destruct (last rs) eqn:E; [intros [= ->]; eapply IH3; reflexivity | discriminate].
Qed.

End Inspected.

(** What the tools say of a file of the plugin: it is complete, it has as many
    exceptions as QEMU reported discontinuities, its instructions add up to the
    final count, and its exception state is full exactly when there was a
    discontinuity and SPSR_EL1, ELR_EL1, VBAR_EL1 and ESR_EL1 were not zero in
    any, whatever the scope. *)
Theorem plugin_inspected {H} `{GLib} (fwrite : list Z -> list Z -> nat) (fopen : string -> bool)
    (argv : list string) (a : arguments) (regs : list (reg_descriptor H)) (l : list callback) :
  (forall contents data, fwrite contents data = length data) ->
  parse_args argv default_arguments = Some a -> fopen (arg_path a) = true ->
  NoDup (desc_name <$> regs) -> Forall callback_ok l ->
  exists st st' points count reason,
    qemu_plugin_install fwrite fopen argv = Some st /\
    plugin_run fwrite (VcpuInit regs :: l ++ [AtExit]) st = Done st' /\
    qemu_points (arg_limit a) 0 (l ++ [AtExit]) = (points, Some (count, reason)) /\
    let file := contents (writer st') in
    commandIsComplete file = 0 /\
    commandCountExceptions file = Ok (length (filter is_discon points)) /\
    (exists stats, commandStats file = Ok stats /\ wrap 64 (instructions stats) = count) /\
    (assert_exception_state.main file = 0 <->
     filter is_discon points <> [] /\
     Forall (fun p => forall id, id ∈ [265; 264; 261; 262] -> qemu_reg regs (q_view p) id <> 0)
       (filter is_discon points)).
Proof.
  intros Hw Ha Ho Hn Hl.
  destruct (plugin_session fwrite fopen Hw argv a regs l Ha Ho Hn Hl)
    as (st & ps & count & reason & Hst & Hps & st' & Hrun & rs & Hws & Hfile).
  exists st, st', ps, count, reason. split; [exact Hst |]. split; [exact Hrun |]. split; [exact Hps |]. cbv zeta.
  pose proof (file_loads _ _ _ Hfile) as Hload. set (file := contents (writer st')) in *.
  set (records := reader.Marker 0 1 0 :: rs ++ [reader.End_ count reason]) in *.
  destruct (writes_all_wf _ _ _ Hws) as (_ & Hrep & _).
  assert (exceptions records = exceptions rs) as Hex.
  { unfold records. rewrite app_comm_cons, exceptions_app. cbn. apply app_nil_r. }
  pose proof (exceptions_show regs (arg_scope a) _ ps rs RegisterState.new Hws (fun _ => eq_refl)) as Hshow.
  split; [| split; [| split]].
  - unfold commandIsComplete. rewrite Hload. unfold records. rewrite app_comm_cons, last_snoc. reflexivity.
  - unfold commandCountExceptions. rewrite Hload. cbn [mbind read_bind snd].
    rewrite Hex, (Forall2_length _ _ _ Hshow). reflexivity.
  - unfold commandStats. rewrite Hload. cbn [mbind read_bind snd]. eexists. split; [reflexivity |].
    destruct (stats_spec records {| counts := ∅; deltas := 0; instructions := 0 |}) as [-> _].
    cbn [instructions]. assert (in_range 64 0) as Hz by (split; lia).
    rewrite <- (qemu_points_total _ _ _ _ _ _ rs Hz Hps Hrep).
    unfold records. cbn [fmap list_fmap]. rewrite fmap_app. f_equal. f_equal. unfold total.
    cbn [foldr insns]. rewrite Z.add_0_l, foldr_app. reflexivity.
  - rewrite (main_zero _ _ _ Hload), Hex.
    rewrite (Forall2_Forall_iff _ _ _ _ _ Hshow (full_state regs)).
    destruct Hshow; split; intros [Hne ?]; (split; [congruence | assumption]).
Qed.

(** What they say of a file of the emulator, which a session does not finish and
    whose system registers are zero: it is not complete, its exceptions and
    instructions are those of the architecture's execution, a trapping instruction
    included, and its exception state is never full. *)
Theorem emulator_inspected {M} `{MemoryLaws M} `{DebugAssertions} (name : list Z) (mode : FpMode)
    (actions : list action) (c : Cpu M CdtWriter) (s : isa_state) :
  models c s -> fresh name mode c -> Forall action_ok actions ->
  returns (session actions c) (fun c' =>
    let file := CdtWriter.bytes (Cpu.sink c') in
    let points := isa_session actions (Cpu.icount c) s in
    commandIsComplete file = 1 /\
    commandCountExceptions file = Ok (length (filter (fun p => is_Some (at_exception p)) points)) /\
    (exists stats, commandStats file = Ok stats /\
       instructions stats = Z.of_nat (length (filter (fun p => at_exception p = None) points))) /\
    assert_exception_state.main file = 1).
Proof.
  intros Hm Hf Hact. eapply returns_mono; [apply (session_file name mode); eassumption |].
  intros c' (evs & sns & q & Hload & Hlog & Hshow). cbv zeta.
  pose proof (logs_reports _ _ _ _ _ _ Hlog Hshow) as Hrep.
  set (points := isa_session actions (Cpu.icount c) s) in *.
  destruct (reports_counts _ _ Hrep) as (Hn & Hi & Hlast).
  split; [| split; [| split]].
  - unfold commandIsComplete. rewrite Hload. destruct (last _) as [[] |] eqn:E; try reflexivity.
    destruct (Hlast _ _ eq_refl).
  - unfold commandCountExceptions. rewrite Hload. cbn [mbind read_bind snd]. rewrite Hn. reflexivity.
  - unfold commandStats. rewrite Hload. cbn [mbind read_bind snd]. eexists. split; [reflexivity |].
    destruct (stats_spec (event_record <$> evs) {| counts := ∅; deltas := 0; instructions := 0 |}) as [-> _].
    exact Hi.
  - destruct (decide (assert_exception_state.main (CdtWriter.bytes (Cpu.sink c')) = 0)) as [E | E].
    + exfalso. apply (main_zero _ _ _ Hload) in E as [Hne Hz].
      destruct (exceptions (event_record <$> evs)) as [| e es] eqn:Ee; [congruence |].
      assert (e ∈ exceptions (event_record <$> evs)) as He by (rewrite Ee; left).
      apply Forall_cons in Hz as [Hz _]. unfold exceptions in He.
      apply list_elem_of_omap in He as (r & Hr & Hre). apply list_elem_of_fmap in Hr as (ev & -> & Hev).
      destruct ev; try discriminate. injection Hre as <-. revert Hz. apply failures_of_clear. reflexivity.
    + unfold assert_exception_state.main in *. rewrite Hload in *.
      destruct (_ =? 0)%nat; [reflexivity |]. destruct (_ <? _)%nat; [reflexivity | congruence].
Qed.

(** ** A session of both, with the debug assertions on *)

#[local] Instance demo_assertions : DebugAssertions := true.

(** A disk that takes every write. *)
Definition whole_write (contents data : list Z) : nat := length data.

(** GLib's functions on the arguments below: prefixes, decimal digits, and a copy
    that is cut at the size. *)
#[local] Instance demo_glib : GLib := {
  g_str_has_prefix s prefix := String.prefix prefix s;
  g_ascii_strtoull s := foldl (fun n d => 10 * n + (d - 48)) 0 (as_bytes s);
  g_strlcpy s size := String.substring 0 (size - 1) s
}.

(** A QEMU whose handles are trace ids, which lists the registers of the first
    [n] ids of the catalogue and shows a register file. *)
Definition demo_regs (n : nat) : list (reg_descriptor Z) :=
  omap (fun id => (fun name => desc Z id name) <$> name_of_id id) (take n base_ids).

Definition demo_view (sysreg : Z) (r : RegFile) : view Z := fun id =>
  Some (if id <? 256
        then to_le_bytes 8 (default 0 (reg_at r id)) ++ to_le_bytes 8 (default 0 (reg_at r (id + 1)))
        else to_le_bytes 8 sysreg).

Definition demo_argv : list string :=
  ["out=qemu.cdt"; "limit=100"; "cpu=" +:+ FEATURE_MASK; "scope=fp"; "qemu=11.1.1"]%string.

Definition demo_arguments : arguments :=
  args "qemu.cdt" 100 FEATURE_MASK "11.1.1" SCOPE_FP.

(** The registers of the sample program after [n] instructions. *)
Definition demo_registers (n : nat) : RegFile :=
  match session [ARun n] traced_demo with Done c => Cpu.regs c | Panic => RegFile.new end.

(** Its run under QEMU, a block for each instruction, as callbacks: the first two
    instructions, an interrupt, and two more. *)
Definition demo_block (sysreg : Z) (n : nat) : callback (H := Z) :=
  TbExec (tb (RegFile.pc (demo_registers n)) 1) (demo_view sysreg (demo_registers n)).

Definition demo_callbacks (sysreg : Z) : list (callback (H := Z)) :=
  [demo_block sysreg 0; demo_block sysreg 1;
   Discon 1 0x40000008 0x200 (demo_view sysreg (demo_registers 2));
   demo_block sysreg 2; demo_block sysreg 3].

(** The same on the emulator. *)
Definition interrupted_actions : list action :=
  [ARun 2; AException 0x40000008 0x200 DisconType.Interrupt; ARun 2].

(** All four instructions, the last a supervisor call that is taken. *)
Definition call_callbacks : list (callback (H := Z)) :=
  (demo_block 0 <$> seq 0 4) ++ [Discon 4 0x4000000C 0x200 (demo_view 0 (demo_registers 3))].

Definition demo_file (n : nat) (l : list (callback (H := Z))) : list Z :=
  match qemu_plugin_install whole_write (fun _ => true) demo_argv with
  | None => []
  | Some st =>
      match plugin_run whole_write (VcpuInit (demo_regs n) :: l ++ [AtExit]) st with
      | Done st => contents (writer st)
      | Panic => []
      end
  end.

Definition demo_options : diff.Options :=
  {| diff.fpPolicy := None; diff.history := 8; diff.allowFeatureMismatch := false |}.

Definition demo_code (n : nat) (l : list (callback (H := Z))) (actions : list action) : Z :=
  match session actions traced_demo with
  | Done c => diff.exit_code (diff.main (demo_file n l) (CdtWriter.bytes (Cpu.sink c)) demo_options)
  | Panic => diff.EXIT_ERROR
  end.

(** The exit codes: with the registers of the trace, and with the system
    registers too, zero and not; and for the run that ends in a call, whose
    exception QEMU's stream counts one instruction later. *)
Example qemu_demo_codes :
  (demo_code 68 (demo_callbacks 0) interrupted_actions,
   demo_code 88 (demo_callbacks 0) interrupted_actions,
   demo_code 88 (demo_callbacks 5) interrupted_actions,
   demo_code 68 call_callbacks demo_actions) = (0, 0, 1, 1).
Proof. vm_compute. reflexivity. Qed.

(** What the inspection tools say of these files: completeness, exceptions,
    instructions, and whether the exception state is full with the system registers
    zero and not. *)
Example qemu_demo_inspected :
  let file := demo_file 88 (demo_callbacks 0) in
  (commandIsComplete file, commandCountExceptions file,
   match commandStats file with Ok stats => instructions stats | Err _ => 0 end,
   assert_exception_state.main file,
   assert_exception_state.main (demo_file 88 (demo_callbacks 5)),
   commandIsComplete (take 100 file)) = (0, Ok 1%nat, 4, 1, 0, 1).
Proof. vm_compute. reflexivity. Qed.

Lemma demo_view_ok (sysreg : Z) (r : RegFile) : view_ok (demo_view sysreg r).
Proof.
  intros id data. unfold demo_view. destruct (id <? 256); intros E; apply (inj Some) in E as <-;
    [apply Forall_app_2 |]; apply to_le_bytes_is_byte.
Qed.

Lemma demo_callbacks_ok : Forall callback_ok (demo_callbacks 0).
Proof.
  assert (forall n, word (RegFile.pc (demo_registers n)) -> callback_ok (demo_block 0 n)) as Hb
    by (intros n Hn; split; [exact Hn | apply demo_view_ok]).
  repeat first [apply Forall_nil_2 | apply Forall_cons; split]; try (apply Hb; split; vm_compute; congruence).
  repeat split; try apply demo_view_ok; vm_compute; congruence.
Qed.

Lemma demo_names : NoDup (desc_name <$> demo_regs 88).
Proof. apply (bool_decide_unpack _). vm_compute. exact I. Qed.

Lemma demo_parse : parse_args demo_argv default_arguments = Some demo_arguments.
Proof. vm_compute. reflexivity. Qed.

Lemma demo_feature_id : cdt_format.cdt_fnv1a (as_bytes (arg_feature_id demo_arguments)) = CPU_FEATURE_ID.
Proof. vm_compute. reflexivity. Qed.

Lemma interrupted_ok : Forall action_ok interrupted_actions.
Proof. repeat constructor; cbn; lia. Qed.

Lemma plugin_stream_witness :
  exists st points count reason,
    qemu_plugin_install whole_write (fun _ => true) demo_argv = Some st /\
    qemu_points 100 0 (demo_callbacks 0 ++ [AtExit]) = (points, Some (count, reason)) /\
    returns (plugin_run whole_write (VcpuInit (demo_regs 88) :: demo_callbacks 0 ++ [AtExit]) st)
      (fun st' => exists records,
        reader.loadTrace (contents (writer st')) =
          Ok (plugin_header demo_arguments,
              reader.Marker 0 1 0 :: records ++ [reader.End_ count reason]) /\
        Forall2 qreports points records).
Proof.
  destruct (plugin_stream whole_write (fun _ => true) demo_argv demo_arguments (demo_regs 88)
    (demo_callbacks 0) (fun _ _ => eq_refl) demo_parse eq_refl demo_names demo_callbacks_ok)
    as (st & points & count & reason & Hst & Hps & Hrun).
  exists st, points, count, reason. split; [exact Hst |]. split; [exact Hps |].
  eapply returns_mono; [exact Hrun |]. intros st' (records & Hl & Hr & _). eauto.
Defined.

Lemma qemu_certifies_witness :
  exists st st' c',
    qemu_plugin_install whole_write (fun _ => true) demo_argv = Some st /\
    plugin_run whole_write (VcpuInit (demo_regs 88) :: demo_callbacks 0 ++ [AtExit]) st = Done st' /\
    session interrupted_actions traced_demo = Done c' /\
    let code := diff.exit_code
      (diff.main (contents (writer st')) (CdtWriter.bytes (Cpu.sink c')) demo_options) in
    code = diff.EXIT_MATCH \/ code = diff.EXIT_DIVERGED.
Proof.
  destruct (qemu_certifies whole_write (fun _ => true) demo_argv demo_arguments (demo_regs 88)
    (demo_callbacks 0) [100; 101; 109; 111] interrupted_actions traced_demo demo_state demo_options
    (fun _ _ => eq_refl) demo_parse eq_refl demo_names demo_callbacks_ok
    (demo_models _) demo_fresh interrupted_ok
    (or_introl demo_feature_id) (or_introl eq_refl))
    as (st & st' & c' & Hst & Hrun & Hc & Hcode).
  exists st, st', c'. split; [exact Hst |]. split; [exact Hrun |]. split; [exact Hc |].
  destruct Hcode as [[_ E] | [_ E]]; [left | right]; exact E.
Defined.

Lemma regmap_build_correct_witness :
  let m := regmap_build (demo_regs 88) SCOPE_FP in
  (forall id, id ∈ base_ids ->
     (forall d, d ∈ demo_regs 88 -> name_of_id id <> Some (desc_name d)) -> table_at m id = -1) /\
  (length (slots m) <= 88)%nat.
Proof.
  destruct (regmap_build_correct (demo_regs 88) SCOPE_FP demo_names) as (_ & Hnone & _ & Hlen).
  split; [exact Hnone | exact Hlen].
Defined.

Lemma writer_keeps_records_witness :
  returns (w' ← emit_all whole_write (trace_writer.mk true [1; 2] []) [[3]; [4; 5]];
           trace_writer_close whole_write w') (fun w' => contents w' = [1; 2; 3; 4; 5]).
Proof.
  destruct (writer_keeps_records whole_write [1; 2] [[3]; [4; 5]] (trace_writer.mk true [1; 2] []) eq_refl)
    as (_ & _ & Hall).
  apply Hall. reflexivity.
Defined.

Lemma demo_call_ok :
  Forall action_ok ([ARun 3] ++ ARun 1 :: AException 0x4000000C 0x200 DisconType.HostCall :: []).
Proof. repeat constructor; cbn; lia. Qed.

Lemma call_callbacks_ok : Forall callback_ok call_callbacks.
Proof.
  apply Forall_app_2; [| repeat constructor; try apply demo_view_ok; vm_compute; congruence].
  apply Forall_fmap. repeat first [apply Forall_nil_2 | apply Forall_cons; split];
    (split; [split; vm_compute; congruence | apply demo_view_ok]).
Qed.

Lemma trap_never_matches_witness :
  exists st st' c',
    qemu_plugin_install whole_write (fun _ => true) demo_argv = Some st /\
    plugin_run whole_write (VcpuInit (demo_regs 68) :: call_callbacks ++ [AtExit]) st = Done st' /\
    session [ARun 3; ARun 1; AException 0x4000000C 0x200 DisconType.HostCall] traced_demo = Done c' /\
    diff.exit_code (diff.main (contents (writer st')) (CdtWriter.bytes (Cpu.sink c')) demo_options) =
      diff.EXIT_DIVERGED.
Proof.
  eapply (trap_never_matches whole_write (fun _ => true) demo_argv demo_arguments (demo_regs 68)
    call_callbacks [100; 101; 109; 111] [ARun 3] [] 0 0x4000000C 0x200 DisconType.HostCall
    traced_demo demo_state).
  - reflexivity.
  - exact demo_parse.
  - reflexivity.
  - apply (bool_decide_unpack _). vm_compute. exact I.
  - exact call_callbacks_ok.
  - exact (demo_models _).
  - exact demo_fresh.
  - exact demo_call_ok.
  - left. exact demo_feature_id.
  - left. reflexivity.
  - vm_compute. reflexivity.
  - vm_compute. reflexivity.
Defined.
