(* ===== verification/Machine.v ===== *)
(** The build's two configurations and the machine around the core
    ([crates/core/src/lib.rs], [crates/core/src/threading.rs],
    [crates/devices/src/lib.rs], [crates/machine/src/lib.rs] and
    [crates/wasm/src/lib.rs]). *)

From stdpp Require Import base numbers list option.
From S2P Require Import Prelude GuestMemory.

#[local] Open Scope Z_scope.

(** [cfg!(feature = "threads")]. *)
Class ThreadedBuild : Type := IS_THREADED_BUILD : bool.

Module IdleStrategy.

Inductive IdleStrategy : Type := BlockOnAtomic | YieldToHost.

End IdleStrategy.

Abbreviation IdleStrategy := IdleStrategy.IdleStrategy.

Module WakeMechanism.

Inductive WakeMechanism : Type := NotifyAtomic | SetPendingFlag.

End WakeMechanism.

Abbreviation WakeMechanism := WakeMechanism.WakeMechanism.

Module MachineConfig.

Record MachineConfig : Type := mk { ram_bytes : Z }.

Definition default : MachineConfig := mk guest_memory.DEFAULT_RAM_BYTES.

Definition validate (usize : Z) (self : MachineConfig) :
    result (Z * Z) guest_memory.LayoutError.LayoutError :=
  guest_memory.reserve usize (ram_bytes self).

End MachineConfig.

Abbreviation MachineConfig := MachineConfig.MachineConfig.

Module BuildInfo.

Record BuildInfo : Type := mk {
  threaded : bool;
  requires_cross_origin_isolation : bool;
  guest_ram_base : Z;
  default_guest_ram_bytes : Z;
  max_guest_ram_bytes : Z
}.

End BuildInfo.

Abbreviation BuildInfo := BuildInfo.BuildInfo.

Section Build.

Context `{ThreadedBuild}.

Definition IDLE_STRATEGY : IdleStrategy :=
  if IS_THREADED_BUILD then IdleStrategy.BlockOnAtomic else IdleStrategy.YieldToHost.

Definition REQUIRES_CROSS_ORIGIN_ISOLATION : bool := IS_THREADED_BUILD.

Definition WAKE_MECHANISM : WakeMechanism :=
  if IS_THREADED_BUILD then WakeMechanism.NotifyAtomic else WakeMechanism.SetPendingFlag.

Definition build_info : BuildInfo :=
  BuildInfo.mk IS_THREADED_BUILD REQUIRES_CROSS_ORIGIN_ISOLATION
    (as_u32 guest_memory.RAM_BASE) (as_u32 guest_memory.DEFAULT_RAM_BYTES)
    (as_u32 guest_memory.MAX_RAM_BYTES).

(** The error handed to JavaScript is the binding's, made of what it names. *)
Context {JsError : Type} (js_error : Z -> guest_memory.LayoutError.LayoutError -> JsError).

Definition reserve_guest_ram (usize ram_bytes : Z) : result Z JsError :=
  let config := MachineConfig.mk ram_bytes in
  match MachineConfig.validate usize config with
  | Ok (start, _) => Ok (as_u32 start)
  | Err error => Err (js_error ram_bytes error)
  end.

(** What the handshake reports is what the machine does: the sizes that are
    accepted are the non-zero whole pages up to the reported maximum, and the
    window starts at the reported base. *)
Lemma reserve_matches_build_info (usize ram_bytes : Z) :
  in_range 32 ram_bytes ->
  match reserve_guest_ram usize ram_bytes with
  | Ok start =>
      start = BuildInfo.guest_ram_base build_info /\
      0 < ram_bytes <= BuildInfo.max_guest_ram_bytes build_info /\
      ram_bytes mod guest_memory.PAGE_SIZE = 0
  | Err _ =>
      ram_bytes = 0 \/ ram_bytes mod guest_memory.PAGE_SIZE <> 0 \/
      BuildInfo.max_guest_ram_bytes build_info < ram_bytes
  end.
Proof.
  intros [Hlo Hhi]. unfold reserve_guest_ram, MachineConfig.validate, guest_memory.reserve.
  cbn [MachineConfig.ram_bytes]. change (BuildInfo.max_guest_ram_bytes build_info) with guest_memory.MAX_RAM_BYTES.
  destruct (Z.eqb_spec ram_bytes 0); [left; assumption |].
  destruct (Z.eqb_spec (ram_bytes mod guest_memory.PAGE_SIZE) 0); cbn [negb]; [| right; left; assumption].
  destruct (Z.ltb_spec guest_memory.MAX_RAM_BYTES ram_bytes); [right; right; assumption |].
  split; [reflexivity |]. lia.
Qed.

(** A device wakes the CPU the way the CPU idles, in either build. *)
Lemma wake_matches_idle :
  (WAKE_MECHANISM = WakeMechanism.NotifyAtomic <-> IDLE_STRATEGY = IdleStrategy.BlockOnAtomic) /\
  (BuildInfo.requires_cross_origin_isolation build_info = true <->
   IDLE_STRATEGY = IdleStrategy.BlockOnAtomic).
Proof.
  unfold WAKE_MECHANISM, IDLE_STRATEGY, build_info, REQUIRES_CROSS_ORIGIN_ISOLATION.
  cbn [BuildInfo.requires_cross_origin_isolation].
  destruct IS_THREADED_BUILD; repeat split; intros; discriminate || reflexivity.
Qed.

End Build.
