(* ===== verification/ShimHost.v ===== *)
(** What the syscall shim needs from outside the guest
    ([crates/core/src/shim/host.rs]): the trait [HostIo] as a class with the
    laws the shim relies on, and the capturing host as an instance. *)

From stdpp Require Import base numbers list option.
From S2P Require Import Prelude.

#[local] Open Scope Z_scope.

Module Errno.

Inductive Errno : Type :=
| Perm | NoEnt | BadFd | Again | NoMem | Fault | Inval | MFile | NoTty | NoSys.

(** [self as i64]: the discriminants are given in the source. *)
Definition as_Z (e : Errno) : Z :=
  match e with
  | Perm => 1 | NoEnt => 2 | BadFd => 9 | Again => 11 | NoMem => 12
  | Fault => 14 | Inval => 22 | MFile => 24 | NoTty => 25 | NoSys => 38
  end.

Definition to_return_value (self : Errno) : Z := as_u64 (- as_Z self).

#[global] Instance Errno_eq_dec : EqDecision Errno.
Proof. solve_decision. Defined.

End Errno.

Abbreviation Errno := Errno.Errno.

Definition SysResult : Type := result Z Errno.

(** A method returns the host it leaves, and what it answers; [read] and
    [random] also return the buffer they were given a reference to. *)
Class HostIo (H : Type) : Type := {
  host_write : H -> Z -> list Z -> may_panic (H * SysResult);
  host_read : H -> Z -> list Z -> may_panic (H * list Z * SysResult);
  host_open : H -> list Z -> Z -> may_panic (H * SysResult);
  host_close : H -> Z -> may_panic (H * SysResult);
  host_size_of : H -> Z -> may_panic (H * SysResult);
  host_is_terminal : H -> Z -> may_panic (H * bool);
  host_random : H -> list Z -> may_panic (H * list Z);
  host_monotonic_nanos : H -> may_panic (H * Z);
  host_exit : H -> Z -> may_panic H
}.

(** ** What the shim relies on *)

(** A count or a descriptor is a [u64]. *)
Definition value_ok (r : SysResult) : Prop := forall n, r = Ok n -> in_range 64 n.

(** At most [n] bytes were transferred. *)
Definition count_ok (n : nat) (r : SysResult) : Prop := forall c, r = Ok c -> 0 <= c <= Z.of_nat n.

(** A buffer passed by reference keeps its length and holds bytes. *)
Definition filled (buffer buffer' : list Z) : Prop :=
  length buffer' = length buffer /\ Forall is_byte buffer'.

(** A host does not panic, transfers no more than it was asked to, and stays
    well formed. *)
Class HostLaws (H : Type) `{HostIo H} : Type := {
  host_ok : H -> Prop;
  host_write_law : forall h fd bs, host_ok h ->
    returns (host_write h fd bs) (fun p => host_ok p.1 /\ count_ok (length bs) p.2);
  host_read_law : forall h fd buf, host_ok h -> Forall is_byte buf ->
    returns (host_read h fd buf)
      (fun p => host_ok p.1.1 /\ filled buf p.1.2 /\ count_ok (length buf) p.2);
  host_open_law : forall h path flags, host_ok h ->
    returns (host_open h path flags) (fun p => host_ok p.1 /\ value_ok p.2);
  host_close_law : forall h fd, host_ok h ->
    returns (host_close h fd) (fun p => host_ok p.1 /\ value_ok p.2);
  host_size_law : forall h fd, host_ok h ->
    returns (host_size_of h fd) (fun p => host_ok p.1 /\ value_ok p.2);
  host_terminal_law : forall h fd, host_ok h ->
    returns (host_is_terminal h fd) (fun p => host_ok p.1);
  host_random_law : forall h buf, host_ok h -> Forall is_byte buf ->
    returns (host_random h buf) (fun p => host_ok p.1 /\ filled buf p.2);
  host_nanos_law : forall h, host_ok h ->
    returns (host_monotonic_nanos h) (fun p => host_ok p.1 /\ in_range 64 p.2);
  host_exit_law : forall h status, host_ok h -> returns (host_exit h status) host_ok
}.

(** ** The capturing host *)

Module CapturingHost.

Record CapturingHost : Type := mk {
  stdout : list Z;
  stderr : list Z;
  exit_status : option Z;
  seed : Z;
  nanos : Z
}.

Definition new : CapturingHost := mk [] [] None 0x2545f4914f6cdd1d 0.

Definition next_random (self : CapturingHost) : CapturingHost * Z :=
  let s := seed self in
  let s := Z.lxor s (wshl 64 s 13) in
  let s := Z.lxor s (wshr 64 s 7) in
  let s := Z.lxor s (wshl 64 s 17) in
  (mk (stdout self) (stderr self) (exit_status self) s (nanos self), s).

Definition write (self : CapturingHost) (fd : Z) (bytes : list Z) :
    may_panic (CapturingHost * SysResult) :=
  match fd with
  | 1 => mret (mk (stdout self ++ bytes) (stderr self) (exit_status self) (seed self) (nanos self),
               Ok (Z.of_nat (length bytes)))
  | 2 => mret (mk (stdout self) (stderr self ++ bytes) (exit_status self) (seed self) (nanos self),
               Ok (Z.of_nat (length bytes)))
  | _ => mret (self, Err Errno.BadFd)
  end.

Definition read (self : CapturingHost) (fd : Z) (buffer : list Z) :
    may_panic (CapturingHost * list Z * SysResult) :=
  mret (self, buffer, if fd =? 0 then Ok 0 else Err Errno.BadFd).

Definition open (self : CapturingHost) (_path : list Z) (_flags : Z) :
    may_panic (CapturingHost * SysResult) := mret (self, Err Errno.NoEnt).

Definition standard (fd : Z) : bool := (0 <=? fd) && (fd <=? 2).

Definition close (self : CapturingHost) (fd : Z) : may_panic (CapturingHost * SysResult) :=
  mret (self, if standard fd then Ok 0 else Err Errno.BadFd).

Definition size_of (self : CapturingHost) (fd : Z) : may_panic (CapturingHost * SysResult) :=
  mret (self, if standard fd then Ok 0 else Err Errno.BadFd).

Definition is_terminal (self : CapturingHost) (fd : Z) : may_panic (CapturingHost * bool) :=
  mret (self, standard fd).

(** One byte of the generator for every byte of the buffer, in order. *)
Fixpoint fill (self : CapturingHost) (buffer : list Z) : CapturingHost * list Z :=
  match buffer with
  | [] => (self, [])
  | _ :: buffer =>
      let '(self, r) := next_random self in
      let '(self, rest) := fill self buffer in
      (self, as_u8 r :: rest)
  end.

Definition random (self : CapturingHost) (buffer : list Z) :
    may_panic (CapturingHost * list Z) := mret (fill self buffer).

Definition monotonic_nanos (self : CapturingHost) : may_panic (CapturingHost * Z) :=
  let n := wadd 64 (nanos self) 1000 in
  mret (mk (stdout self) (stderr self) (exit_status self) (seed self) n, n).

Definition exit (self : CapturingHost) (status : Z) : may_panic CapturingHost :=
  mret (mk (stdout self) (stderr self) (Some status) (seed self) (nanos self)).

End CapturingHost.

Abbreviation CapturingHost := CapturingHost.CapturingHost.

#[export] Instance CapturingHost_HostIo : HostIo CapturingHost := {
  host_write := CapturingHost.write;
  host_read := CapturingHost.read;
  host_open := CapturingHost.open;
  host_close := CapturingHost.close;
  host_size_of := CapturingHost.size_of;
  host_is_terminal := CapturingHost.is_terminal;
  host_random := CapturingHost.random;
  host_monotonic_nanos := CapturingHost.monotonic_nanos;
  host_exit := CapturingHost.exit
}.

(** The capturing host keeps the laws in every state. *)

Lemma fill_filled (h : CapturingHost) (buf : list Z) : filled buf (CapturingHost.fill h buf).2.
Proof.
  revert h. induction buf as [| b buf IH]; intros h; cbn [CapturingHost.fill];
    [split; [reflexivity | constructor] |].
  destruct (CapturingHost.next_random h) as [h1 r]. specialize (IH h1).
  destruct (CapturingHost.fill h1 buf) as [h2 rest]. destruct IH as [Hl Hb].
  split; [cbn; f_equal; exact Hl |]. constructor; [| exact Hb].
  apply (wrap_range 8). lia.
Qed.

Lemma in_range_0 (w : Z) : 0 <= w -> in_range w 0.
Proof. intros Hw. pose proof (pow2_pos w Hw). split; lia. Qed.

Lemma standard_value_ok (b : bool) : value_ok (if b then Ok 0 else Err Errno.BadFd).
Proof. intros n Hn. destruct b; [injection Hn as <-; apply in_range_0; lia | discriminate]. Qed.

#[export] Program Instance CapturingHost_laws : HostLaws CapturingHost := {
  host_ok := fun _ => True
}.
Next Obligation.
  intros h fd bs _. cbn. unfold CapturingHost.write.
  assert (count_ok (length bs) (Ok (Z.of_nat (length bs)))) by (intros c [= <-]; lia).
  assert (count_ok (length bs) (Err Errno.BadFd)) by discriminate.
  destruct fd as [| [p | [p | p |] |] | p]; apply returns_ret; split; trivial.
Qed.
Next Obligation.
  intros h fd buf _ Hb. apply returns_ret. split; [exact I |]. split; [split; trivial |].
  intros c Hc. cbn in Hc. destruct (fd =? 0); [injection Hc as <-; lia | discriminate].
Qed.
Next Obligation. intros h path flags _. apply returns_ret. split; [exact I | discriminate]. Qed.
Next Obligation. intros h fd _. apply returns_ret. split; [exact I | apply standard_value_ok]. Qed.
Next Obligation. intros h fd _. apply returns_ret. split; [exact I | apply standard_value_ok]. Qed.
Next Obligation. intros h fd _. apply returns_ret. exact I. Qed.
Next Obligation. intros h buf _ _. apply returns_ret. split; [exact I | apply fill_filled]. Qed.
Next Obligation. intros h _. apply returns_ret. split; [exact I | apply wadd_range; lia]. Qed.
Next Obligation. intros h status _. apply returns_ret. exact I. Qed.
