(* ===== verification/MemoryMap.v ===== *)
(** The guest's [brk] heap and [mmap] arena
    ([crates/core/src/shim/memory_map.rs]). *)

From stdpp Require Import base numbers list option.
From S2P Require Import Prelude GuestMemory.

#[local] Open Scope Z_scope.

Module ArenaLayout.

Record ArenaLayout : Type := mk {
  heap_base : Z;
  heap_limit : Z;
  mmap_base : Z;
  mmap_limit : Z
}.

End ArenaLayout.

Abbreviation ArenaLayout := ArenaLayout.ArenaLayout.

Module MemoryMap.

Record MemoryMap : Type := mk { layout : ArenaLayout; brk : Z; mmap_next : Z }.

Definition new (layout : ArenaLayout) : MemoryMap :=
  mk layout (ArenaLayout.heap_base layout) (ArenaLayout.mmap_base layout).

Definition set_brk (self : MemoryMap) (requested : Z) : MemoryMap * Z :=
  let is_in_window :=
    (ArenaLayout.heap_base (layout self) <=? requested) &&
    (requested <=? ArenaLayout.heap_limit (layout self)) in
  let self := if is_in_window then mk (layout self) requested (mmap_next self) else self in
  (self, brk self).

Definition map (self : MemoryMap) (length : Z) : MemoryMap * option Z :=
  if length =? 0 then (self, None) else
  let pages := div_ceil length guest_memory.PAGE_SIZE in
  match checked_mul64 pages guest_memory.PAGE_SIZE with
  | None => (self, None)
  | Some size =>
      match checked_add64 (mmap_next self) size with
      | None => (self, None)
      | Some end_ =>
          if ArenaLayout.mmap_limit (layout self) <? end_ then (self, None)
          else (mk (layout self) (brk self) end_, Some (mmap_next self))
      end
  end.

End MemoryMap.

Abbreviation MemoryMap := MemoryMap.MemoryMap.

(** ** One request *)

(** The windows are ordered and the heap lies below the arena. *)
Record layout_ok (l : ArenaLayout) : Prop := {
  layout_heap : 0 <= ArenaLayout.heap_base l <= ArenaLayout.heap_limit l;
  layout_apart : ArenaLayout.heap_limit l <= ArenaLayout.mmap_base l;
  layout_mmap : ArenaLayout.mmap_base l <= ArenaLayout.mmap_limit l < 2 ^ 64
}.

(** A map over a layout keeps the break and the next mapping in their windows. *)
Record map_ok (m : MemoryMap) : Prop := {
  map_layout : layout_ok (MemoryMap.layout m);
  map_brk : ArenaLayout.heap_base (MemoryMap.layout m) <= MemoryMap.brk m
            <= ArenaLayout.heap_limit (MemoryMap.layout m);
  map_next : ArenaLayout.mmap_base (MemoryMap.layout m) <= MemoryMap.mmap_next m
             <= ArenaLayout.mmap_limit (MemoryMap.layout m)
}.

Lemma map_new_ok (l : ArenaLayout) : layout_ok l -> map_ok (MemoryMap.new l).
Proof. intros [Hh Ha Hm]. split; cbn; [split; assumption | lia | lia]. Qed.

(** A length in whole pages. *)
Definition page_round (length : Z) : Z := (length + 4095) / 4096 * 4096.

Lemma page_round_bounds (n : Z) : 0 < n -> n <= page_round n < n + 4096 /\ 0 < page_round n.
Proof. intros Hn. unfold page_round. Z.to_euclidean_division_equations. lia. Qed.

Lemma div_ceil_pages (n : Z) : div_ceil n guest_memory.PAGE_SIZE * 4096 = page_round n.
Proof.
  unfold div_ceil, page_round. change guest_memory.PAGE_SIZE with 4096.
  destruct (Z.eqb_spec (n mod 4096) 0); Z.to_euclidean_division_equations; lia.
Qed.

(** [map] hands out the next whole pages while they fit, and otherwise
    refuses and changes nothing. *)
Lemma map_result (m : MemoryMap) (n : Z) :
  map_ok m -> in_range 64 n ->
  MemoryMap.map m n =
  if (0 <? n) && (MemoryMap.mmap_next m + page_round n <=? ArenaLayout.mmap_limit (MemoryMap.layout m))
  then (MemoryMap.mk (MemoryMap.layout m) (MemoryMap.brk m) (MemoryMap.mmap_next m + page_round n),
        Some (MemoryMap.mmap_next m))
  else (m, None).
Proof.
  intros [[Hh Ha Hm] Hb Hn] Hr. unfold MemoryMap.map, checked_mul64, checked_add64.
  change (_ * guest_memory.PAGE_SIZE) with (div_ceil n guest_memory.PAGE_SIZE * 4096).
  rewrite div_ceil_pages. unfold in_range in Hr.
  destruct (Z.eqb_spec n 0) as [-> |]; [reflexivity |].
  pose proof (page_round_bounds n ltac:(lia)).
  destruct (Z.ltb_spec 0 n); [| lia]. cbn [andb].
  destruct (Z.leb_spec (MemoryMap.mmap_next m + page_round n)
              (ArenaLayout.mmap_limit (MemoryMap.layout m))).
  - destruct (Z.ltb_spec (page_round n) (2 ^ 64)); [| lia].
    destruct (Z.ltb_spec (MemoryMap.mmap_next m + page_round n) (2 ^ 64)); [| lia].
    destruct (Z.ltb_spec (ArenaLayout.mmap_limit (MemoryMap.layout m))
                (MemoryMap.mmap_next m + page_round n)); [lia | reflexivity].
  - destruct (page_round n <? 2 ^ 64); [| reflexivity].
    destruct (MemoryMap.mmap_next m + page_round n <? 2 ^ 64); [| reflexivity].
    destruct (Z.ltb_spec (ArenaLayout.mmap_limit (MemoryMap.layout m))
                (MemoryMap.mmap_next m + page_round n)); [reflexivity | lia].
Qed.

(** ** A sequence of requests *)

Inductive request : Type :=
| Brk (address : Z)
| Map (length : Z).

Definition request_ok (r : request) : Prop :=
  match r with Brk a => in_range 64 a | Map n => in_range 64 n end.

(** What a request is answered: the break, or a mapping of so many bytes. *)
Inductive answer : Type :=
| Break (address : Z)
| Mapped (base length : Z)
| Refused (length : Z).

Definition serve (m : MemoryMap) (r : request) : MemoryMap * answer :=
  match r with
  | Brk a => let '(m, b) := MemoryMap.set_brk m a in (m, Break b)
  | Map n =>
      match MemoryMap.map m n with
      | (m, Some base) => (m, Mapped base n)
      | (m, None) => (m, Refused n)
      end
  end.

Fixpoint serve_all (m : MemoryMap) (rs : list request) : MemoryMap * list answer :=
  match rs with
  | [] => (m, [])
  | r :: rs =>
      let '(m, a) := serve m r in
      let '(m, l) := serve_all m rs in
      (m, a :: l)
  end.

(** What a single answer promises of the layout. *)
Definition answer_ok (l : ArenaLayout) (next : Z) (r : request) (a : answer) (next' : Z) : Prop :=
  match a with
  | Break b =>
      ArenaLayout.heap_base l <= b <= ArenaLayout.heap_limit l /\ next' = next /\
      (forall q, r = Brk q -> ArenaLayout.heap_base l <= q <= ArenaLayout.heap_limit l -> b = q)
  | Mapped base n =>
      r = Map n /\ 0 < n /\ base = next /\ next' = next + page_round n /\
      next' <= ArenaLayout.mmap_limit l
  | Refused n =>
      r = Map n /\ next' = next /\
      (n = 0 \/ ArenaLayout.mmap_limit l < next + page_round n)
  end.

Lemma serve_ok (m : MemoryMap) (r : request) :
  map_ok m -> request_ok r ->
  map_ok (serve m r).1 /\ MemoryMap.layout (serve m r).1 = MemoryMap.layout m /\
  answer_ok (MemoryMap.layout m) (MemoryMap.mmap_next m) r (serve m r).2
    (MemoryMap.mmap_next (serve m r).1).
Proof.
  intros Hm Hr. pose proof Hm as [Hl Hb Hn]. destruct r as [a | n]; cbn [request_ok serve] in *.
  - unfold MemoryMap.set_brk.
    destruct (Z.leb_spec (ArenaLayout.heap_base (MemoryMap.layout m)) a),
      (Z.leb_spec a (ArenaLayout.heap_limit (MemoryMap.layout m))); cbn;
      (split; [first [assumption | split; cbn; (assumption || lia)] |]);
      (split; [reflexivity |]); (split; [lia |]); (split; [reflexivity |]);
      intros q [= <-] ?; lia.
  - rewrite map_result by assumption. unfold in_range in Hr.
    destruct (Z.ltb_spec 0 n); cbn [andb].
    + pose proof (page_round_bounds n ltac:(lia)).
      destruct (Z.leb_spec (MemoryMap.mmap_next m + page_round n)
                  (ArenaLayout.mmap_limit (MemoryMap.layout m))); cbn.
      * split; [split; cbn; (assumption || lia) |]. repeat split; lia.
      * split; [assumption |]. repeat split. right. lia.
    + cbn. split; [assumption |]. repeat split. left. lia.
Qed.

(** Every mapping answered lies in the arena from [next] on, above the earlier
    ones, and at a whole number of pages from [next]. *)
Definition mapped_ok (l : ArenaLayout) (next : Z) (answers : list answer) : Prop :=
  forall i base n, answers !! i = Some (Mapped base n) ->
    next <= base /\ 0 < n /\ base + n <= ArenaLayout.mmap_limit l /\ (base - next) mod 4096 = 0 /\
    forall j base' n', (i < j)%nat -> answers !! j = Some (Mapped base' n') -> base + n <= base'.

Lemma mapped_ok_cons (l : ArenaLayout) (next next' : Z) (r : request) (a : answer)
    (answers : list answer) :
  answer_ok l next r a next' -> mapped_ok l next' answers -> mapped_ok l next (a :: answers).
Proof.
  intros Ha Hrest. intros [| i] base n Hi; cbn in Hi.
  - injection Hi as ->. destruct Ha as (_ & Hn & -> & -> & Hlim).
    pose proof (page_round_bounds n Hn). rewrite Z.sub_diag.
    split; [lia |]. split; [exact Hn |]. split; [lia |]. split; [reflexivity |].
    intros [| j] base' n' Hj Hl; [lia |]. cbn in Hl. apply Hrest in Hl. lia.
  - destruct (Hrest i base n Hi) as (Hb & Hn & Hlim & Hmod & Hlater).
    assert (next <= next' /\ (next' - next) mod 4096 = 0) as [Hle Hpage].
    { destruct a as [b | b k | k]; cbn in Ha; [| | destruct Ha as (_ & -> & _)].
      - destruct Ha as (_ & -> & _). rewrite Z.sub_diag. split; [lia | reflexivity].
      - destruct Ha as (_ & Hk & _ & -> & _). pose proof (page_round_bounds k Hk).
        split; [lia |]. replace (next + page_round k - next) with (page_round k) by lia.
        apply Z.mod_mul. lia.
      - rewrite Z.sub_diag. split; [lia | reflexivity]. }
    split; [lia |]. split; [exact Hn |]. split; [exact Hlim |].
    split; [Z.to_euclidean_division_equations; lia |].
    intros [| j] base' n' Hj Hl; [lia |]. cbn in Hl. apply (Hlater j base' n'); [lia | exact Hl].
Qed.

Lemma serve_all_ok (m : MemoryMap) (rs : list request) :
  map_ok m -> Forall request_ok rs ->
  map_ok (serve_all m rs).1 /\ MemoryMap.layout (serve_all m rs).1 = MemoryMap.layout m /\
  length (serve_all m rs).2 = length rs /\
  mapped_ok (MemoryMap.layout m) (MemoryMap.mmap_next m) (serve_all m rs).2.
Proof.
  revert m. induction rs as [| r rs IH]; intros m Hm Hrs; cbn [serve_all].
  { split; [exact Hm |]. split; [reflexivity |]. split; [reflexivity |]. intros i base n Hi. discriminate. }
  apply Forall_cons_1 in Hrs as [Hr Hrs].
  destruct (serve_ok m r Hm Hr) as (Hm1 & Hl1 & Ha). destruct (serve m r) as [m1 a].
  cbn [fst snd] in *. destruct (IH m1 Hm1 Hrs) as (Hm2 & Hl2 & Hlen & Hrest).
  destruct (serve_all m1 rs) as [m2 l]. cbn [fst snd] in *. rewrite Hl1 in *.
  split; [exact Hm2 |]. split; [exact Hl2 |]. split; [cbn; f_equal; exact Hlen |].
  eapply mapped_ok_cons; eassumption.
Qed.
