(* ===== verification/Shim.v ===== *)
(** The kernel structures the shim writes into guest memory
    ([crates/core/src/shim/structs.rs]); its numbers and its state
    ([crates/core/src/shim/number.rs], [crates/core/src/shim/mod.rs] without
    [service] and [run]). *)

From stdpp Require Import base numbers list option.
From S2P Require Import Prelude GuestMemory Memory ShimHost MemoryMap.

#[local] Open Scope Z_scope.

(** [buffer[lo..hi].copy_from_slice(src)]. *)
Definition copy_from_slice (buffer : list Z) (lo hi : Z) (src : list Z) : may_panic (list Z) :=
  target ← slice buffer lo hi;
  _ ← rust_assert (length target =? length src)%nat;
  mret (take (Z.to_nat lo) buffer ++ src ++ drop (Z.to_nat hi) buffer).

(** [memory.write(address, bytes).map_err(|_| Errno::Fault)]. *)
Definition write_or_fault {M} `{Memory M} (memory : M) (address : Z) (bytes : list Z) :
    may_panic (M * result unit Errno) :=
  '(memory, outcome) ← mem_write memory address bytes;
  mret (memory, map_err (fun _ => Errno.Fault) outcome).

Module structs.

Definition STAT_BYTES : Z := 128.
Definition UTSNAME_BYTES : Z := 390.
Definition IOVEC_BYTES : Z := 16.
Definition UTSNAME_FIELD_BYTES : Z := 65.
Definition MODE_CHARACTER_DEVICE : Z := 0x21B6.
Definition MODE_REGULAR_FILE : Z := 0x81A4.

Module IoVec.

Record IoVec : Type := mk { base : Z; len : Z }.

End IoVec.

Abbreviation IoVec := IoVec.IoVec.

(** The six fields, in ASCII: Linux, coracle, 6.12.0, #1 SMP coracle,
    aarch64, (none). *)
Definition utsname_fields : list (list Z) :=
  [[76; 105; 110; 117; 120];
   [99; 111; 114; 97; 99; 108; 101];
   [54; 46; 49; 50; 46; 48];
   [35; 49; 32; 83; 77; 80; 32; 99; 111; 114; 97; 99; 108; 101];
   [97; 97; 114; 99; 104; 54; 52];
   [40; 110; 111; 110; 101; 41]].

Section Structs.

Context {M : Type} `{Memory M}.

(** The 128 bytes of the structure. *)
Definition stat_buffer (file : bool * Z) : may_panic (list Z) :=
  let '(is_terminal, size) := file in
  let buffer := replicate (Z.to_nat STAT_BYTES) 0 in
  let mode := if is_terminal then MODE_CHARACTER_DEVICE else MODE_REGULAR_FILE in
  buffer ← copy_from_slice buffer 16 20 (to_le_bytes 4 (as_u32 mode));
  buffer ← copy_from_slice buffer 48 56 (to_le_bytes 8 size);
  buffer ← copy_from_slice buffer 56 60 (to_le_bytes 4 4096);
  copy_from_slice buffer 64 72 (to_le_bytes 8 (div_ceil size 512)).

Definition write_stat (memory : M) (address : Z) (file : bool * Z) :
    may_panic (M * result unit Errno) :=
  buffer ← stat_buffer file;
  write_or_fault memory address buffer.

(** The loop over the fields, which a fault leaves. *)
Fixpoint write_fields (memory : M) (address index : Z) (fields : list (list Z)) :
    may_panic (M * result unit Errno) :=
  match fields with
  | [] => mret (memory, Ok tt)
  | field :: fields =>
      padded ← copy_from_slice (replicate (Z.to_nat UTSNAME_FIELD_BYTES) 0) 0
                 (Z.of_nat (length field)) field;
      let offset := wadd 64 address (wmul 64 index UTSNAME_FIELD_BYTES) in
      '(memory, outcome) ← write_or_fault memory offset padded;
      match outcome with
      | Err e => mret (memory, Err e)
      | Ok _ => write_fields memory address (index + 1) fields
      end
  end.

Definition write_utsname (memory : M) (address : Z) : may_panic (M * result unit Errno) :=
  '(memory, outcome) ← write_or_fault memory address (replicate (Z.to_nat UTSNAME_BYTES) 0);
  match outcome with
  | Err e => mret (memory, Err e)
  | Ok _ => write_fields memory address 0 utsname_fields
  end.

Definition read_iovec (memory : M) (address index : Z) : may_panic (result IoVec Errno) :=
  let entry := wadd 64 address (wmul 64 index IOVEC_BYTES) in
  base ← read_uint memory entry 8;
  match base with
  | Err _ => mret (Err Errno.Fault)
  | Ok base =>
      len ← read_uint memory (wadd 64 entry 8) 8;
      match len with
      | Err _ => mret (Err Errno.Fault)
      | Ok len => mret (Ok (IoVec.mk base len))
      end
  end.

Definition write_timespec (memory : M) (address nanos : Z) : may_panic (M * SysResult) :=
  '(memory, outcome) ← write_uint memory address 8 (nanos / 1000000000);
  match outcome with
  | Err _ => mret (memory, Err Errno.Fault)
  | Ok _ =>
      '(memory, outcome) ← write_uint memory (wadd 64 address 8) 8 (nanos mod 1000000000);
      match outcome with
      | Err _ => mret (memory, Err Errno.Fault)
      | Ok _ => mret (memory, Ok 0)
      end
  end.

End Structs.

End structs.

(** ** Numbers and state *)

Module number.

Definition GETCWD : Z := 17.
Definition FCNTL : Z := 25.
Definition IOCTL : Z := 29.
Definition FACCESSAT : Z := 48.
Definition OPENAT : Z := 56.
Definition CLOSE : Z := 57.
Definition LSEEK : Z := 62.
Definition READ : Z := 63.
Definition WRITE : Z := 64.
Definition READV : Z := 65.
Definition WRITEV : Z := 66.
Definition PREAD64 : Z := 67.
Definition READLINKAT : Z := 78.
Definition NEWFSTATAT : Z := 79.
Definition FSTAT : Z := 80.
Definition EXIT : Z := 93.
Definition EXIT_GROUP : Z := 94.
Definition SET_TID_ADDRESS : Z := 96.
Definition FUTEX : Z := 98.
Definition SET_ROBUST_LIST : Z := 99.
Definition CLOCK_GETTIME : Z := 113.
Definition SCHED_GETAFFINITY : Z := 123.
Definition TGKILL : Z := 131.
Definition RT_SIGACTION : Z := 134.
Definition RT_SIGPROCMASK : Z := 135.
Definition UNAME : Z := 160.
Definition GETPID : Z := 172.
Definition GETPPID : Z := 173.
Definition GETUID : Z := 174.
Definition GETEUID : Z := 175.
Definition GETGID : Z := 176.
Definition GETEGID : Z := 177.
Definition GETTID : Z := 178.
Definition BRK : Z := 214.
Definition MUNMAP : Z := 215.
Definition CLONE : Z := 220.
Definition EXECVE : Z := 221.
Definition MMAP : Z := 222.
Definition MPROTECT : Z := 226.
Definition MADVISE : Z := 233.
Definition WAIT4 : Z := 260.
Definition PRLIMIT64 : Z := 261.
Definition GETRANDOM : Z := 278.
Definition RSEQ : Z := 293.

End number.

Definition UNHANDLED_CAPACITY : Z := 32.

Module Shim.

Record Shim (H : Type) : Type := mk {
  host : H;
  map : MemoryMap;
  unhandled_ : list (option Z);
  unhandled_count : Z
}.

Arguments mk {H}.
Arguments host {H}.
Arguments map {H}.
Arguments unhandled_ {H}.
Arguments unhandled_count {H}.

Section Operations.

Context {H : Type}.

Definition new (host : H) (layout : ArenaLayout) : Shim H :=
  mk host (MemoryMap.new layout) (replicate (Z.to_nat UNHANDLED_CAPACITY) None) 0.

Definition set_host (self : Shim H) (h : H) : Shim H :=
  mk h (map self) (unhandled_ self) (unhandled_count self).
Definition set_map (self : Shim H) (m : MemoryMap) : Shim H :=
  mk (host self) m (unhandled_ self) (unhandled_count self).

(** [unhandled()]: [flatten] over the slots in use. *)
Definition unhandled (self : Shim H) : may_panic (list Z) :=
  seen ← slice (unhandled_ self) 0 (unhandled_count self);
  mret (omap (M := list) id seen).

Definition record_unhandled (self : Shim H) (number : Z) : may_panic (Shim H) :=
  seen ← unhandled self;
  if existsb (fun s => s =? number) seen then mret self
  else if unhandled_count self <? UNHANDLED_CAPACITY then
    slots ← index_set (unhandled_ self) (unhandled_count self) (Some number);
    mret (mk (host self) (map self) slots (unhandled_count self + 1))
  else mret self.

End Operations.

End Shim.

Abbreviation Shim := Shim.Shim.

(** The arena layout of the harnesses. *)
Definition default_layout (ram_base ram_bytes : Z) : ArenaLayout :=
  let heap_base := wadd 64 ram_base (ram_bytes / 4) in
  let mmap_base := wadd 64 ram_base (ram_bytes / 2) in
  ArenaLayout.mk heap_base mmap_base mmap_base (wadd 64 ram_base ram_bytes).

Lemma default_layout_ok (base bytes : Z) :
  0 <= base -> 0 <= bytes -> base + bytes < 2 ^ 64 -> layout_ok (default_layout base bytes).
Proof.
  intros Hb Hn Hs. unfold default_layout, wadd.
  assert (bytes / 4 <= bytes / 2 <= bytes /\ 0 <= bytes / 4)
    by (Z.to_euclidean_division_equations; lia).
  rewrite !wrap_small by (split; lia). split; cbn; lia.
Qed.

(** ** The log of unhandled numbers *)

Section Unhandled.

Context {H : Type}.

(** The slots in use hold the distinct numbers [seen], in the order they came. *)
Record unhandled_holds (shim : Shim H) (seen : list Z) : Prop := {
  holds_slots : Shim.unhandled_ shim =
    (Some <$> seen) ++ replicate (Z.to_nat UNHANDLED_CAPACITY - length seen) None;
  holds_count : Shim.unhandled_count shim = Z.of_nat (length seen);
  holds_room : (length seen <= Z.to_nat UNHANDLED_CAPACITY)%nat;
  holds_distinct : NoDup seen
}.

Lemma new_holds (host : H) (l : ArenaLayout) : unhandled_holds (Shim.new host l) [].
Proof. split; [reflexivity | reflexivity | cbn; lia | constructor]. Qed.

Lemma unhandled_returns (shim : Shim H) (seen : list Z) :
  unhandled_holds shim seen -> Shim.unhandled shim = Done seen.
Proof.
  intros [Hs Hc Hr _]. unfold Shim.unhandled. rewrite Hs, Hc.
  rewrite slice_done by (rewrite ?length_app, ?length_fmap, ?length_replicate; lia).
  cbn [mbind may_panic_bind]. change (Z.to_nat 0) with 0%nat. rewrite Z.sub_0_r, drop_0, Nat2Z.id.
  rewrite take_app_le, take_ge by (rewrite length_fmap; lia). unfold mret, may_panic_ret. f_equal.
  clear. induction seen as [| x l IH]; [reflexivity |]. cbn. f_equal. exact IH.
Qed.

(** The numbers logged after one more was asked for. *)
Definition logged_after (seen : list Z) (number : Z) : list Z :=
  if bool_decide (number ∈ seen) then seen
  else if bool_decide (length seen < Z.to_nat UNHANDLED_CAPACITY)%nat then seen ++ [number]
  else seen.

Lemma record_unhandled_holds (shim : Shim H) (seen : list Z) (number : Z) :
  unhandled_holds shim seen ->
  returns (Shim.record_unhandled shim number) (fun shim' =>
    unhandled_holds shim' (logged_after seen number) /\
    Shim.host shim' = Shim.host shim /\ Shim.map shim' = Shim.map shim).
Proof.
  intros Hh. pose proof Hh as [Hs Hc Hr Hd]. unfold Shim.record_unhandled, logged_after.
  rewrite (unhandled_returns _ _ Hh). cbn [mbind may_panic_bind].
  assert (existsb (fun s => s =? number) seen = bool_decide (number ∈ seen)) as ->.
  { apply eq_true_iff_eq. rewrite existsb_exists, bool_decide_eq_true, list_elem_of_In. split.
    - intros (x & Hx & ->%Z.eqb_eq). exact Hx.
    - intros Hx. exists number. split; [exact Hx | apply Z.eqb_refl]. }
  case_bool_decide as Hin; [apply returns_ret; split; [exact Hh | split; reflexivity] |].
  assert ((Shim.unhandled_count shim <? UNHANDLED_CAPACITY) =
          bool_decide (length seen < Z.to_nat UNHANDLED_CAPACITY)%nat) as ->.
  { rewrite Hc. unfold UNHANDLED_CAPACITY. case_bool_decide; [apply Z.ltb_lt | apply Z.ltb_ge]; lia. }
  case_bool_decide as Hlt; [| apply returns_ret; split; [exact Hh | split; reflexivity]].
  rewrite index_set_done
    by (rewrite Hs, Hc, length_app, length_fmap, length_replicate; lia).
  cbn [mbind may_panic_bind]. apply returns_ret. split; [| split; reflexivity]. split; cbn.
  - rewrite Hs, Hc, Nat2Z.id. rewrite insert_app_r_alt by (rewrite length_fmap; lia).
    rewrite length_fmap, Nat.sub_diag, fmap_app, length_app. cbn [length fmap list_fmap].
    destruct (Z.to_nat UNHANDLED_CAPACITY - length seen)%nat as [| k] eqn:E; [lia |].
    replace (Z.to_nat UNHANDLED_CAPACITY - (length seen + 1))%nat with k by lia.
    cbn. rewrite <- app_assoc. reflexivity.
  - rewrite Hc, length_app. cbn. lia.
  - rewrite length_app. cbn. lia.
  - apply list.NoDup_app. split; [exact Hd |]. split; [| apply NoDup_singleton].
    intros x Hx Hx'. apply list_elem_of_singleton in Hx' as ->. contradiction.
Qed.

End Unhandled.
