(* ===== verification/ShimDispatch.v ===== *)
(** One match over the syscall number ([crates/core/src/shim/dispatch.rs]). *)

From stdpp Require Import base numbers list option.
From S2P Require Import Prelude GuestMemory Memory TraceSink Cpu MemoryMap ShimHost Shim.

#[local] Open Scope Z_scope.

(** The argument array [[u64; 6]]; its indices in the source are constants. *)
Module Args.

Record Args : Type := mk { a0 : Z; a1 : Z; a2 : Z; a3 : Z; a4 : Z; a5 : Z }.

End Args.

Abbreviation Args := Args.Args.

Module Outcome.

Inductive Outcome : Type :=
| Returned (result : SysResult)
| Exited (status : Z).

End Outcome.

Abbreviation Outcome := Outcome.Outcome.

(** The patterns [A | B | ..] of a [match] over constants. *)
Definition one_of (number : Z) (patterns : list Z) : bool :=
  existsb (fun p => number =? p) patterns.

Module dispatch.

Definition MAX_TRANSFER : Z := 2 ^ 20.
Definition MAX_PATH : Z := 4096.

Section Dispatch.

Context {H M S : Type} `{HostIo H} `{Memory M}.

(** A call changes the shim and the guest's memory through the references it
    is given, and returns [r]. *)
#[local] Abbreviation effect r := (may_panic (Shim H * Cpu M S * r)).

Definition transfer_out (shim : Shim H) (cpu : Cpu M S) (fd : Z) (buffer : Z * Z) :
    effect SysResult :=
  let '(address, len) := buffer in
  let len := Z.min len MAX_TRANSFER in
  let bytes := replicate (Z.to_nat len) 0 in
  outcome ← mem_read (Cpu.memory cpu) address bytes;
  match outcome with
  | Err _ => mret (shim, cpu, Err Errno.Fault)
  | Ok bytes =>
      '(host, result) ← host_write (Shim.host shim) fd bytes;
      mret (Shim.set_host shim host, cpu, result)
  end.

Definition write (shim : Shim H) (cpu : Cpu M S) (args : Args) : effect SysResult :=
  transfer_out shim cpu (as_i32 (Args.a0 args)) (Args.a1 args, Args.a2 args).

(** The loop [for index in 0..iovcnt], [rounds] rounds of which remain. *)
Fixpoint writev_from (shim : Shim H) (cpu : Cpu M S) (args : Args) (rounds : nat)
    (index written : Z) : effect SysResult :=
  match rounds with
  | O => mret (shim, cpu, Ok written)
  | Datatypes.S rounds =>
      vector ← structs.read_iovec (Cpu.memory cpu) (Args.a1 args) index;
      match vector with
      | Err e => mret (shim, cpu, Err e)
      | Ok (structs.IoVec.mk base len) =>
          if len =? 0 then writev_from shim cpu args rounds (index + 1) written else
          '(shim, cpu, count) ← transfer_out shim cpu (as_i32 (Args.a0 args)) (base, len);
          match count with
          | Err e => mret (shim, cpu, Err e)
          | Ok count =>
              let written := wadd 64 written count in
              if count <? len then mret (shim, cpu, Ok written)
              else writev_from shim cpu args rounds (index + 1) written
          end
      end
  end.

Definition writev (shim : Shim H) (cpu : Cpu M S) (args : Args) : effect SysResult :=
  writev_from shim cpu args (Z.to_nat (Args.a2 args)) 0 0.

Definition transfer_in (shim : Shim H) (cpu : Cpu M S) (fd : Z) (buffer : Z * Z) :
    effect SysResult :=
  let '(address, len) := buffer in
  let bytes := replicate (Z.to_nat (Z.min len MAX_TRANSFER)) 0 in
  '(host, bytes, result) ← host_read (Shim.host shim) fd bytes;
  let shim := Shim.set_host shim host in
  match result with
  | Err e => mret (shim, cpu, Err e)
  | Ok count =>
      data ← slice bytes 0 count;
      '(memory, outcome) ← mem_write (Cpu.memory cpu) address data;
      let cpu := Cpu.set_memory cpu memory in
      match outcome with
      | Err _ => mret (shim, cpu, Err Errno.Fault)
      | Ok _ => mret (shim, cpu, Ok count)
      end
  end.

Definition read (shim : Shim H) (cpu : Cpu M S) (args : Args) : effect SysResult :=
  transfer_in shim cpu (as_i32 (Args.a0 args)) (Args.a1 args, Args.a2 args).

Fixpoint readv_from (shim : Shim H) (cpu : Cpu M S) (args : Args) (rounds : nat)
    (index total : Z) : effect SysResult :=
  match rounds with
  | O => mret (shim, cpu, Ok total)
  | Datatypes.S rounds =>
      vector ← structs.read_iovec (Cpu.memory cpu) (Args.a1 args) index;
      match vector with
      | Err e => mret (shim, cpu, Err e)
      | Ok (structs.IoVec.mk base len) =>
          '(shim, cpu, count) ← transfer_in shim cpu (as_i32 (Args.a0 args)) (base, len);
          match count with
          | Err e => mret (shim, cpu, Err e)
          | Ok count =>
              let total := wadd 64 total count in
              if count <? len then mret (shim, cpu, Ok total)
              else readv_from shim cpu args rounds (index + 1) total
          end
      end
  end.

Definition readv (shim : Shim H) (cpu : Cpu M S) (args : Args) : effect SysResult :=
  readv_from shim cpu args (Z.to_nat (Args.a2 args)) 0 0.

(** The loop [for offset in 0..MAX_PATH], [rounds] rounds of which remain, with
    the bytes pushed so far. *)
Fixpoint read_c_string_from (memory : M) (address : Z) (rounds : nat) (offset : Z) (bytes : list Z) :
    may_panic (result (list Z) Errno) :=
  match rounds with
  | O => mret (Err Errno.Inval)
  | Datatypes.S rounds =>
      outcome ← read_uint memory (wadd 64 address offset) 1;
      match outcome with
      | Err _ => mret (Err Errno.Fault)
      | Ok byte =>
          let byte := as_u8 byte in
          if byte =? 0 then mret (Ok bytes)
          else read_c_string_from memory address rounds (offset + 1) (bytes ++ [byte])
      end
  end.

Definition read_c_string (memory : M) (address : Z) : may_panic (result (list Z) Errno) :=
  read_c_string_from memory address (Z.to_nat MAX_PATH) 0 [].

(** A method of the host whose result is the call's. *)
Definition from_host {A} (shim : Shim H) (cpu : Cpu M S) (m : may_panic (H * A)) : effect A :=
  '(host, a) ← m;
  mret (Shim.set_host shim host, cpu, a).

Definition open (shim : Shim H) (cpu : Cpu M S) (args : Args) : effect SysResult :=
  path ← read_c_string (Cpu.memory cpu) (Args.a1 args);
  match path with
  | Err e => mret (shim, cpu, Err e)
  | Ok path => from_host shim cpu (host_open (Shim.host shim) path (Args.a2 args))
  end.

Definition fstat (shim : Shim H) (cpu : Cpu M S) (fd address : Z) : effect SysResult :=
  '(host, size) ← host_size_of (Shim.host shim) fd;
  let shim := Shim.set_host shim host in
  match size with
  | Err e => mret (shim, cpu, Err e)
  | Ok size =>
      '(host, is_terminal) ← host_is_terminal host fd;
      let shim := Shim.set_host shim host in
      '(memory, outcome) ← structs.write_stat (Cpu.memory cpu) address (is_terminal, size);
      let cpu := Cpu.set_memory cpu memory in
      match outcome with
      | Err e => mret (shim, cpu, Err e)
      | Ok _ => mret (shim, cpu, Ok 0)
      end
  end.

Definition getrandom (shim : Shim H) (cpu : Cpu M S) (args : Args) : effect SysResult :=
  let len := Z.min (Args.a1 args) MAX_TRANSFER in
  let bytes := replicate (Z.to_nat len) 0 in
  '(host, bytes) ← host_random (Shim.host shim) bytes;
  let shim := Shim.set_host shim host in
  '(memory, outcome) ← mem_write (Cpu.memory cpu) (Args.a0 args) bytes;
  let cpu := Cpu.set_memory cpu memory in
  match outcome with
  | Err _ => mret (shim, cpu, Err Errno.Fault)
  | Ok _ => mret (shim, cpu, Ok len)
  end.

Definition ioctl (shim : Shim H) (cpu : Cpu M S) (args : Args) : effect SysResult :=
  '(host, is_terminal) ← host_is_terminal (Shim.host shim) (as_i32 (Args.a0 args));
  mret (Shim.set_host shim host, cpu, if is_terminal : bool then Ok 0 else Err Errno.NoTty).

Definition affinity (shim : Shim H) (cpu : Cpu M S) (args : Args) : effect SysResult :=
  if Args.a1 args <? 8 then mret (shim, cpu, Err Errno.Inval) else
  '(memory, outcome) ← write_uint (Cpu.memory cpu) (Args.a2 args) 8 1;
  let cpu := Cpu.set_memory cpu memory in
  match outcome with
  | Err _ => mret (shim, cpu, Err Errno.Fault)
  | Ok _ => mret (shim, cpu, Ok 8)
  end.

(** The arms of [uname] and [clock_gettime]. *)
Definition uname (shim : Shim H) (cpu : Cpu M S) (args : Args) : effect SysResult :=
  '(memory, outcome) ← structs.write_utsname (Cpu.memory cpu) (Args.a0 args);
  mret (shim, Cpu.set_memory cpu memory,
        match outcome with Ok _ => Ok 0 | Err e => Err e end).

Definition clock_gettime (shim : Shim H) (cpu : Cpu M S) (args : Args) : effect SysResult :=
  '(host, nanos) ← host_monotonic_nanos (Shim.host shim);
  '(memory, result) ← structs.write_timespec (Cpu.memory cpu) (Args.a1 args) nanos;
  mret (Shim.set_host shim host, Cpu.set_memory cpu memory, result).

Import number.

Definition other (shim : Shim H) (cpu : Cpu M S) (number : Z) (args : Args) : effect SysResult :=
  let value v := mret (shim, cpu, Ok v) in
  let refusal e := mret (shim, cpu, Err e) in
  if number =? BRK then
    let '(map, brk) := MemoryMap.set_brk (Shim.map shim) (Args.a0 args) in
    mret (Shim.set_map shim map, cpu, Ok brk)
  else if number =? MMAP then
    let '(map, base) := MemoryMap.map (Shim.map shim) (Args.a1 args) in
    mret (Shim.set_map shim map, cpu, from_option Ok (Err Errno.NoMem) base)
  else if one_of number [MUNMAP; MPROTECT; MADVISE] then value 0
  else if number =? OPENAT then open shim cpu args
  else if number =? CLOSE then
    from_host shim cpu (host_close (Shim.host shim) (as_i32 (Args.a0 args)))
  else if number =? FSTAT then fstat shim cpu (as_i32 (Args.a0 args)) (Args.a1 args)
  else if number =? NEWFSTATAT then fstat shim cpu (as_i32 (Args.a0 args)) (Args.a2 args)
  else if number =? UNAME then uname shim cpu args
  else if number =? CLOCK_GETTIME then clock_gettime shim cpu args
  else if number =? GETRANDOM then getrandom shim cpu args
  else if number =? IOCTL then ioctl shim cpu args
  else if number =? LSEEK then value 0
  else if one_of number [FACCESSAT; READLINKAT; GETCWD] then refusal Errno.NoEnt
  else if one_of number [SET_TID_ADDRESS; GETTID; GETPID] then value 1
  else if one_of number [SET_ROBUST_LIST; RSEQ; PRLIMIT64] then value 0
  else if one_of number [RT_SIGACTION; RT_SIGPROCMASK; FCNTL] then value 0
  else if number =? GETPPID then value 0
  else if one_of number [GETUID; GETEUID; GETGID; GETEGID] then value 0
  else if number =? SCHED_GETAFFINITY then affinity shim cpu args
  else if one_of number [CLONE; FUTEX] then refusal Errno.NoSys
  else if one_of number [EXECVE; WAIT4; TGKILL] then refusal Errno.NoSys
  else
    shim ← Shim.record_unhandled shim number;
    mret (shim, cpu, Err Errno.NoSys).

Definition call (shim : Shim H) (cpu : Cpu M S) (number : Z) (args : Args) : effect Outcome :=
  let returned (m : effect SysResult) : effect Outcome :=
    '(shim, cpu, result) ← m; mret (shim, cpu, Outcome.Returned result) in
  if one_of number [EXIT; EXIT_GROUP] then
    mret (shim, cpu, Outcome.Exited (as_i32 (Args.a0 args)))
  else if number =? WRITE then returned (write shim cpu args)
  else if number =? WRITEV then returned (writev shim cpu args)
  else if number =? READ then returned (read shim cpu args)
  else if number =? READV then returned (readv shim cpu args)
  else returned (other shim cpu number args).

End Dispatch.

End dispatch.
