(* ===== verification/ShimEffects.v ===== *)
(** What a syscall may do: the bytes it may change, the state it keeps well
    formed, and that it does not panic.  [service_effect] is the lemma the
    theorems on the shim are proved from. *)

From stdpp Require Import base numbers list option.
From S2P Require Import Prelude Reg RegFile GuestMemory Memory TraceSink Cpu MemoryMap ShimHost.
From S2P Require Import Shim ShimDispatch.

#[local] Open Scope Z_scope.

(** ** Changing a region of memory *)

Section Touched.

Context {M : Type} `{MemoryLaws M}.

(** [m'] is [m] but for mapped bytes in [P]. *)
Definition touched (P : Z -> Prop) (m m' : M) : Prop :=
  mem_ok m' /\
  forall x, byte_at m' x = byte_at m x \/
            (P x /\ is_Some (byte_at m x) /\ is_Some (byte_at m' x)).

(** Nothing is mapped from [limit] on. *)
Definition mapped_below (limit : Z) (m : M) : Prop :=
  forall x, limit <= x -> byte_at m x = None.

Definition range (a n : Z) (x : Z) : Prop := a <= x < a + n.

(** [m'] is [m] with [bs] stored at [a], where they were mapped. *)
Definition stored (m : M) (a : Z) (bs : list Z) (m' : M) : Prop :=
  mem_ok m' /\ (forall x, byte_at m' x = store_bytes (byte_at m) a bs x) /\
  is_Some (bytes_at (byte_at m) a (length bs)).

Lemma touched_refl (P : Z -> Prop) (m : M) : mem_ok m -> touched P m m.
Proof. intros Hm. split; [exact Hm |]. intros x. left. reflexivity. Qed.

Lemma touched_trans (P : Z -> Prop) (m1 m2 m3 : M) :
  touched P m1 m2 -> touched P m2 m3 -> touched P m1 m3.
Proof.
  intros [_ H12] [Hok H23]. split; [exact Hok |]. intros x.
  destruct (H23 x) as [E23 | (Hp & Hs2 & Hs3)], (H12 x) as [E12 | (Hp' & Hs1 & Hs2')].
  - left. congruence.
  - right. rewrite E23. auto.
  - right. rewrite <- E12. auto.
  - right. auto.
Qed.

Lemma touched_mono (P Q : Z -> Prop) (m m' : M) :
  (forall x, P x -> Q x) -> touched P m m' -> touched Q m m'.
Proof. intros HPQ [Hok Hx]. split; [exact Hok |]. intros x. destruct (Hx x); intuition. Qed.

Lemma touched_mapped (P : Z -> Prop) (m m' : M) (x : Z) :
  touched P m m' -> byte_at m' x = None <-> byte_at m x = None.
Proof.
  intros [_ Hx]. destruct (Hx x) as [-> | (_ & [b Hb] & [b' Hb'])]; [tauto |].
  rewrite Hb, Hb'. split; discriminate.
Qed.

Lemma touched_below (P : Z -> Prop) (limit : Z) (m m' : M) :
  touched P m m' -> mapped_below limit m -> mapped_below limit m'.
Proof. intros Ht Hb x Hx. apply (touched_mapped _ _ _ _ Ht), Hb, Hx. Qed.

Lemma bytes_at_mapped (f : Z -> option Z) (a : Z) (n : nat) (bs : list Z) (x : Z) :
  bytes_at f a n = Some bs -> a <= x < a + Z.of_nat n -> f x = bs !! Z.to_nat (x - a).
Proof.
  intros Hb Hx. apply bytes_at_lookup in Hb as [_ Hf].
  rewrite <- Hf by lia. f_equal. lia.
Qed.

Lemma stored_touched (m m' : M) (a : Z) (bs : list Z) :
  stored m a bs m' -> touched (range a (Z.of_nat (length bs))) m m'.
Proof.
  intros (Hok & Hx & [old Hold]). split; [exact Hok |]. intros x. rewrite Hx. unfold store_bytes.
  destruct (Z.leb_spec a x); cbn [andb]; [| left; reflexivity].
  destruct (Z.ltb_spec x (a + Z.of_nat (length bs))); [| left; reflexivity]. right.
  split; [unfold range; lia |]. split.
  - rewrite (bytes_at_mapped _ _ _ _ _ Hold) by lia. apply bytes_at_length in Hold.
    apply lookup_lt_is_Some. lia.
  - apply lookup_lt_is_Some. lia.
Qed.

Lemma stored_below (limit : Z) (m m' : M) (a : Z) (bs : list Z) :
  stored m a bs m' -> mapped_below limit m -> bs <> [] -> a + Z.of_nat (length bs) <= limit.
Proof.
  intros (_ & _ & [old Hold]) Hb Hne. destruct (Z.le_gt_cases (a + Z.of_nat (length bs)) limit);
    [assumption |]. exfalso.
  assert (0 < length bs)%nat by (destruct bs; [congruence | cbn; lia]).
  pose proof (bytes_at_mapped _ _ _ _ (a + Z.of_nat (length bs) - 1) Hold ltac:(lia)) as E.
  rewrite Hb in E by lia. symmetry in E. apply lookup_ge_None in E.
  apply bytes_at_length in Hold. lia.
Qed.

(** A write either stores its bytes or changes nothing. *)
Lemma mem_write_effect (m : M) (a : Z) (bs : list Z) :
  mem_ok m -> in_range 64 a -> Forall is_byte bs ->
  returns (mem_write m a bs) (fun p =>
    match p.2 with Ok _ => stored m a bs p.1 | Err _ => p.1 = m end).
Proof.
  intros Hm Ha Hbs. destruct bs as [| b bs].
  { destruct (mem_write_empty m a Hm Ha) as [-> | ->]; apply returns_done; [| reflexivity].
    split; [exact Hm |]. split; [| eexists; reflexivity].
    intros x. cbn [fst]. unfold store_bytes. cbn [length Z.of_nat].
    destruct (Z.leb_spec a x), (Z.ltb_spec x (a + Z.of_nat 0)); reflexivity || lia. }
  pose proof (mem_write_law m a (b :: bs) Hm Ha ltac:(discriminate) Hbs) as L.
  destruct (bytes_at (byte_at m) a (length (b :: bs))) eqn:E.
  - destruct L as (m' & -> & Hm' & Hx). apply returns_done. split; [exact Hm' |].
    split; [exact Hx |]. rewrite E. eexists; reflexivity.
  - rewrite L. apply returns_done. reflexivity.
Qed.

Lemma write_uint_effect (m : M) (a width value : Z) :
  mem_ok m -> in_range 64 a -> width_ok width ->
  returns (write_uint m a width value) (fun p =>
    match p.2 with
    | Ok _ => stored m a (to_le_bytes (Z.to_nat width) value) p.1
    | Err _ => p.1 = m
    end).
Proof.
  intros Hm Ha Hw. pose proof (write_uint_law m a width value Hm Ha Hw) as L.
  destruct (bytes_at (byte_at m) a (Z.to_nat width)) eqn:E.
  - destruct L as (m' & -> & Hm' & Hx). apply returns_done. split; [exact Hm' |].
    split; [exact Hx |]. rewrite length_to_le_bytes, E. eexists; reflexivity.
  - rewrite L. apply returns_done. reflexivity.
Qed.

(** A read does not panic, and fills the buffer with the bytes of the memory. *)
Lemma mem_read_effect (m : M) (a : Z) (buf : list Z) :
  mem_ok m -> in_range 64 a ->
  returns (mem_read m a buf) (fun o =>
    forall bs, o = Ok bs -> bytes_at (byte_at m) a (length buf) = Some bs /\ Forall is_byte bs).
Proof.
  intros Hm Ha. destruct buf as [| b buf].
  { destruct (mem_read_empty m a Hm Ha) as [-> | ->]; apply returns_done; intros bs [= <-].
    split; [reflexivity | constructor]. }
  rewrite mem_read_law by (assumption || discriminate). apply returns_done. intros bs.
  destruct (bytes_at (byte_at m) a (length (b :: buf))) as [bs' |] eqn:E; intros [= <-].
  split; [reflexivity |]. eapply bytes_at_Forall; [| exact E]. intros x c. apply byte_at_is_byte, Hm.
Qed.

Lemma read_uint_effect (m : M) (a width : Z) :
  mem_ok m -> in_range 64 a -> width_ok width ->
  returns (read_uint m a width) (fun o => forall x, o = Ok x -> in_range (8 * width) x).
Proof.
  intros Hm Ha Hw. rewrite read_uint_law by assumption. apply returns_done. intros x.
  destruct (bytes_at (byte_at m) a (Z.to_nat width)) as [bs |] eqn:E; intros [= <-].
  assert (Forall is_byte bs) as Hbs
    by (eapply bytes_at_Forall; [| exact E]; intros y c; apply byte_at_is_byte, Hm).
  pose proof (from_le_bytes_range bs Hbs) as Hr. apply bytes_at_length in E.
  unfold width_ok in Hw. rewrite E in Hr. split; [lia |].
  rewrite <- pow_256 by lia. rewrite Z2Nat.id in Hr by lia. lia.
Qed.

End Touched.

(** ** Stores in sequence *)

Section Stored.

Context {M : Type} `{MemoryLaws M}.

Lemma stored_empty (m : M) (a : Z) : mem_ok m -> stored m a [] m.
Proof.
  intros Hm. split; [exact Hm |]. split; [| eexists; reflexivity].
  intros x. unfold store_bytes. cbn [length Z.of_nat].
  destruct (Z.leb_spec a x), (Z.ltb_spec x (a + Z.of_nat 0)); reflexivity || lia.
Qed.

Lemma bytes_at_is_Some (f g : Z -> option Z) (a : Z) (n : nat) :
  (forall x, is_Some (f x) -> is_Some (g x)) ->
  is_Some (bytes_at f a n) -> is_Some (bytes_at g a n).
Proof.
  intros Hfg. revert a. induction n as [| n IH]; intros a [l Hl]; cbn in *; [eexists; reflexivity |].
  destruct (f a) as [b |] eqn:Ea; [| discriminate]. cbn in Hl.
  destruct (bytes_at f (a + 1) n) as [bs |] eqn:E; [| discriminate].
  destruct (Hfg a) as [b' ->]; [rewrite Ea; eexists; reflexivity |]. cbn.
  destruct (IH (a + 1)) as [bs' ->]; [rewrite E; eexists; reflexivity |]. eexists; reflexivity.
Qed.

Lemma bytes_at_app (f : Z -> option Z) (a : Z) (n k : nat) :
  bytes_at f a (n + k) =
  (l ← bytes_at f a n; r ← bytes_at f (a + Z.of_nat n) k; Some (l ++ r)).
Proof.
  revert a. induction n as [| n IH]; intros a; cbn [bytes_at Nat.add].
  - rewrite Z.add_0_r. cbn. destruct (bytes_at f a k); reflexivity.
  - destruct (f a); [| reflexivity]. cbn. rewrite IH.
    replace (a + 1 + Z.of_nat n) with (a + Z.of_nat (S n)) by lia.
    destruct (bytes_at f (a + 1) n); [| reflexivity]. cbn.
    destruct (bytes_at f (a + Z.of_nat (S n)) k); reflexivity.
Qed.

Lemma stored_mapped (m m' : M) (a : Z) (bs : list Z) (x : Z) :
  stored m a bs m' -> is_Some (byte_at m x) <-> is_Some (byte_at m' x).
Proof.
  intros Hs. pose proof (touched_mapped _ _ _ x (stored_touched _ _ _ _ Hs)) as E.
  rewrite <- !not_eq_None_Some, E. tauto.
Qed.

(** Two adjacent stores are one. *)
Lemma stored_app (m m1 m2 : M) (a : Z) (l r : list Z) :
  stored m a l m1 -> stored m1 (a + Z.of_nat (length l)) r m2 -> stored m a (l ++ r) m2.
Proof.
  intros H1 H2. pose proof H1 as (_ & Hx1 & [o1 Ho1]). pose proof H2 as (Hok & Hx2 & Ho2).
  split; [exact Hok |]. split.
  - intros x. rewrite Hx2. unfold store_bytes at 1. rewrite Hx1. unfold store_bytes.
    rewrite length_app, Nat2Z.inj_add.
    destruct (Z.leb_spec (a + Z.of_nat (length l)) x); cbn [andb].
    + destruct (Z.ltb_spec x (a + Z.of_nat (length l) + Z.of_nat (length r))).
      * destruct (Z.leb_spec a x); [| lia].
        destruct (Z.ltb_spec x (a + (Z.of_nat (length l) + Z.of_nat (length r)))); [| lia].
        cbn. rewrite lookup_app_r by lia. f_equal. lia.
      * destruct (Z.leb_spec a x), (Z.ltb_spec x (a + Z.of_nat (length l))),
          (Z.ltb_spec x (a + (Z.of_nat (length l) + Z.of_nat (length r)))); reflexivity || lia.
    + destruct (Z.leb_spec a x); cbn [andb]; [| reflexivity].
      destruct (Z.ltb_spec x (a + Z.of_nat (length l))); [| lia].
      destruct (Z.ltb_spec x (a + (Z.of_nat (length l) + Z.of_nat (length r)))); [| lia].
      cbn. rewrite lookup_app_l by lia. reflexivity.
  - rewrite length_app, bytes_at_app, Ho1. cbn.
    apply (bytes_at_is_Some _ (byte_at m)) in Ho2 as [o2 ->]; [eexists; reflexivity |].
    intros x. apply (stored_mapped _ _ _ _ _ H1).
Qed.

(** A store over a store of the same length is the last one. *)
Lemma stored_over (m m1 m2 : M) (a : Z) (l r : list Z) :
  length l = length r -> stored m a l m1 -> stored m1 a r m2 -> stored m a r m2.
Proof.
  intros Hlen H1 H2. pose proof H1 as (_ & Hx1 & Ho1). pose proof H2 as (Hok & Hx2 & _).
  split; [exact Hok |]. split; [| rewrite <- Hlen; exact Ho1].
  intros x. rewrite Hx2. unfold store_bytes at 1. rewrite Hx1. unfold store_bytes. rewrite Hlen.
  destruct (_ && _); reflexivity.
Qed.

(** What was stored is what is read. *)
Lemma stored_read (m m' : M) (a k w : Z) (bs : list Z) :
  stored m a bs m' -> 0 <= k -> width_ok w -> k + w <= Z.of_nat (length bs) ->
  in_range 64 (a + k) ->
  read_uint m' (a + k) w =
  Done (Ok (from_le_bytes (take (Z.to_nat w) (drop (Z.to_nat k) bs)))).
Proof.
  intros (Hok & Hx & _) Hk Hw Hlen Ha. rewrite read_uint_law by assumption. unfold width_ok in Hw.
  assert (bytes_at (byte_at m') (a + k) (Z.to_nat w) =
          Some (take (Z.to_nat w) (drop (Z.to_nat k) bs))) as ->; [| reflexivity].
  apply bytes_at_lookup. split; [rewrite length_take, length_drop; lia |].
  intros i Hi. rewrite lookup_take_lt, lookup_drop by exact Hi. rewrite Hx. unfold store_bytes.
  destruct (Z.leb_spec a (a + k + Z.of_nat i)); [| lia].
  destruct (Z.ltb_spec (a + k + Z.of_nat i) (a + Z.of_nat (length bs))); [| lia].
  cbn. f_equal. lia.
Qed.

End Stored.

(** ** The structures *)

(** The bytes of the [struct stat] the shim writes. *)
Definition stat_bytes (is_terminal : bool) (size : Z) : list Z :=
  replicate 16 0 ++
  to_le_bytes 4 (if is_terminal then structs.MODE_CHARACTER_DEVICE else structs.MODE_REGULAR_FILE) ++
  replicate 28 0 ++ to_le_bytes 8 size ++ to_le_bytes 4 4096 ++ replicate 4 0 ++
  to_le_bytes 8 (div_ceil size 512) ++ replicate 56 0.

Lemma stat_buffer_bytes (is_terminal : bool) (size : Z) :
  structs.stat_buffer (is_terminal, size) = Done (stat_bytes is_terminal size).
Proof. destruct is_terminal; reflexivity. Qed.

Lemma stat_bytes_is_byte (is_terminal : bool) (size : Z) : Forall is_byte (stat_bytes is_terminal size).
Proof.
  unfold stat_bytes. repeat apply Forall_app_2;
    first [apply to_le_bytes_is_byte | apply Forall_replicate; unfold is_byte; lia].
Qed.

(** A field of [utsname] in its slot of 65 bytes. *)
Definition padded (field : list Z) : list Z := field ++ replicate (65 - length field) 0.

Definition utsname_bytes : list Z := concat (padded <$> structs.utsname_fields).

Definition field_ok (field : list Z) : Prop := (length field <= 65)%nat /\ Forall is_byte field.

Lemma padded_ok (field : list Z) :
  field_ok field -> length (padded field) = 65%nat /\ Forall is_byte (padded field).
Proof.
  intros [Hlen Hb]. split.
  - unfold padded. rewrite length_app, length_replicate. lia.
  - apply Forall_app_2; [exact Hb |]. apply Forall_replicate. unfold is_byte. lia.
Qed.

Lemma pad_field (field : list Z) :
  field_ok field ->
  copy_from_slice (replicate (Z.to_nat structs.UTSNAME_FIELD_BYTES) 0) 0
    (Z.of_nat (length field)) field = Done (padded field).
Proof.
  intros [Hlen _]. unfold copy_from_slice. change (Z.to_nat structs.UTSNAME_FIELD_BYTES) with 65%nat.
  rewrite slice_done by (rewrite ?length_replicate; lia). cbn [mbind may_panic_bind].
  change (Z.to_nat 0) with 0%nat. rewrite Z.sub_0_r, Nat2Z.id, drop_0, take_0.
  rewrite length_take, length_replicate, Nat.min_l, Nat.eqb_refl by lia.
  cbn [rust_assert mbind may_panic_bind]. rewrite drop_replicate. reflexivity.
Qed.

Lemma utsname_fields_ok : Forall field_ok structs.utsname_fields.
Proof. repeat constructor; cbn; unfold is_byte; lia. Qed.

Section Structs.

Context {M : Type} `{MemoryLaws M}.

Lemma write_or_fault_effect (m : M) (a : Z) (bs : list Z) :
  mem_ok m -> in_range 64 a -> Forall is_byte bs ->
  returns (write_or_fault m a bs) (fun p =>
    match p.2 with Ok _ => stored m a bs p.1 | Err _ => p.1 = m end).
Proof.
  intros Hm Ha Hbs. unfold write_or_fault.
  eapply returns_bind; [apply mem_write_effect; eassumption |].
  intros [m' [u | e]] Hw; apply returns_ret; exact Hw.
Qed.

Lemma write_stat_effect (m : M) (a : Z) (is_terminal : bool) (size : Z) :
  mem_ok m -> in_range 64 a ->
  returns (structs.write_stat m a (is_terminal, size)) (fun p =>
    match p.2 with Ok _ => stored m a (stat_bytes is_terminal size) p.1 | Err _ => p.1 = m end).
Proof.
  intros Hm Ha. unfold structs.write_stat. rewrite stat_buffer_bytes. cbn [mbind may_panic_bind].
  apply write_or_fault_effect; [assumption.. | apply stat_bytes_is_byte].
Qed.

(** What a structure written in parts leaves: all of it, or mapped bytes of
    its range changed. *)
Definition wrote (m : M) (a : Z) (bs : list Z) (p : M * result unit Errno) : Prop :=
  match p.2 with
  | Ok _ => stored m a bs p.1
  | Err _ => touched (range a (Z.of_nat (length bs))) m p.1
  end.

Lemma write_fields_effect (fields : list (list Z)) (m : M) (a i : Z) :
  mem_ok m -> 0 <= a -> 0 <= i -> Forall field_ok fields ->
  a + 65 * (i + Z.of_nat (length fields)) < 2 ^ 64 ->
  returns (structs.write_fields m a i fields)
    (wrote m (a + 65 * i) (concat (padded <$> fields))).
Proof.
  revert m i. induction fields as [| field fields IH]; intros m i Hm Ha Hi Hf Hend.
  { apply returns_ret. apply stored_empty, Hm. }
  apply Forall_cons_1 in Hf as [Hfield Hf]. cbn [structs.write_fields].
  rewrite pad_field by exact Hfield. cbn [mbind may_panic_bind].
  destruct (padded_ok field Hfield) as [Hlen Hbytes]. cbn [length] in Hend.
  assert (wadd 64 a (wmul 64 i structs.UTSNAME_FIELD_BYTES) = a + 65 * i) as ->.
  { unfold wadd, wmul, structs.UTSNAME_FIELD_BYTES. rewrite !wrap_small; unfold in_range;
      rewrite ?wrap_small; unfold in_range; lia. }
  eapply returns_bind; [apply write_or_fault_effect; [assumption | split; lia | exact Hbytes] |].
  intros [m1 [u | e]]; cbn [fst snd].
  2: { intros ->. apply returns_ret. apply touched_refl, Hm. }
  intros Hs. eapply returns_mono; [apply IH; try assumption; try lia; apply Hs |].
  intros [m2 [v | e]]; unfold wrote; cbn [fst snd fmap list_fmap concat].
  - intros Hs2. eapply stored_app; [exact Hs |]. rewrite Hlen.
    replace (a + 65 * i + Z.of_nat 65) with (a + 65 * (i + 1)) by lia. exact Hs2.
  - intros Ht. rewrite length_app, Hlen. eapply touched_trans.
    + eapply touched_mono; [| apply stored_touched, Hs]. unfold range. rewrite Hlen. lia.
    + eapply touched_mono; [| exact Ht]. unfold range. lia.
Qed.

Lemma write_utsname_effect (m : M) (a limit : Z) :
  mem_ok m -> in_range 64 a -> mapped_below limit m -> limit < 2 ^ 64 ->
  returns (structs.write_utsname m a) (wrote m a utsname_bytes).
Proof.
  intros Hm Ha Hb Hl. unfold structs.write_utsname.
  eapply returns_bind; [apply write_or_fault_effect; [assumption.. |] |].
  { apply Forall_replicate. unfold is_byte. lia. }
  intros [m1 [u | e]]; cbn [fst snd].
  2: { intros ->. apply returns_ret. apply touched_refl, Hm. }
  intros Hs. assert (a + 390 <= limit) by exact (stored_below _ _ _ _ _ Hs Hb ltac:(discriminate)).
  eapply returns_mono; [apply (write_fields_effect _ m1 a 0) |].
  - apply Hs.
  - apply Ha.
  - lia.
  - apply utsname_fields_ok.
  - cbn. lia.
  - rewrite Z.mul_0_r, Z.add_0_r. intros [m2 [v | e]]; unfold wrote; cbn [fst snd].
    + intros Hs2. eapply stored_over; [| exact Hs | exact Hs2]. reflexivity.
    + intros Ht. eapply touched_trans; [| exact Ht]. exact (stored_touched _ _ _ _ Hs).
Qed.

Lemma write_timespec_effect (m : M) (a limit nanos : Z) :
  mem_ok m -> in_range 64 a -> mapped_below limit m -> limit < 2 ^ 64 ->
  returns (structs.write_timespec m a nanos) (fun p =>
    value_ok p.2 /\
    match p.2 with
    | Ok v => v = 0 /\ stored m a (to_le_bytes 8 (nanos / 1000000000) ++
                                   to_le_bytes 8 (nanos mod 1000000000)) p.1
    | Err _ => touched (range a 16) m p.1
    end).
Proof.
  intros Hm Ha Hb Hl. unfold structs.write_timespec.
  eapply returns_bind; [apply write_uint_effect; [assumption.. | unfold width_ok; lia] |].
  intros [m1 [u | e]]; cbn [fst snd].
  2: { intros ->. apply returns_ret. split; [discriminate |]. apply touched_refl, Hm. }
  intros Hs. assert (a + 8 <= limit)
    by exact (stored_below _ _ _ _ _ Hs Hb ltac:(discriminate)).
  unfold in_range in Ha. assert (wadd 64 a 8 = a + 8) as -> by (apply wrap_small; split; lia).
  eapply returns_bind;
    [apply (write_uint_effect m1); [apply Hs | split; lia | unfold width_ok; lia] |].
  intros [m2 [u2 | e]]; cbn [fst snd].
  - intros Hs2. apply returns_ret. split; [intros n [= <-]; apply in_range_0; lia |].
    split; [reflexivity |]. eapply stored_app; [exact Hs | exact Hs2].
  - intros ->. apply returns_ret. split; [discriminate |]. cbn [fst snd].
    eapply touched_mono; [| apply stored_touched, Hs]. unfold range.
    change (length _) with 8%nat. lia.
Qed.

Lemma read_iovec_effect (m : M) (a index : Z) :
  mem_ok m ->
  returns (structs.read_iovec m a index) (fun o => forall v, o = Ok v ->
    in_range 64 (structs.IoVec.base v) /\ in_range 64 (structs.IoVec.len v)).
Proof.
  intros Hm. unfold structs.read_iovec. cbv zeta.
  eapply returns_bind; [apply read_uint_effect; [assumption | apply wadd_range; lia | unfold width_ok; lia] |].
  intros [base | e] Hbase; [| apply returns_ret; discriminate].
  eapply returns_bind; [apply read_uint_effect; [assumption | apply wadd_range; lia | unfold width_ok; lia] |].
  intros [len | e] Hlen; [| apply returns_ret; discriminate]. apply returns_ret.
  intros v [= <-]. split; [apply Hbase | apply Hlen]; reflexivity.
Qed.

Lemma read_c_string_effect (m : M) (a offset : Z) (rounds : nat) (bytes : list Z) :
  mem_ok m ->
  returns (dispatch.read_c_string_from m a rounds offset bytes) (fun _ => True).
Proof.
  intros Hm. revert offset bytes. induction rounds as [| n IH]; intros offset bytes;
    cbn [dispatch.read_c_string_from]; [apply returns_ret; exact I |].
  eapply returns_bind; [apply read_uint_effect; [assumption | apply wadd_range; lia | unfold width_ok; lia] |].
  intros [b | e] _; [| apply returns_ret; exact I]. cbv zeta.
  destruct (as_u8 b =? 0); [apply returns_ret; exact I | apply IH].
Qed.

End Structs.

(** ** The calls *)

Record args_ok (args : Args) : Prop := {
  args_a0 : in_range 64 (Args.a0 args);
  args_a1 : in_range 64 (Args.a1 args);
  args_a2 : in_range 64 (Args.a2 args)
}.

(** The bytes a call may change: the buffer its arguments name.  The vectors of
    [readv] are in guest memory, so its arguments name none. *)
Definition written_by (number : Z) (args : Args) (x : Z) : Prop :=
  (number = number.READ /\ range (Args.a1 args) (Args.a2 args) x) \/
  (number = number.READV) \/
  (number = number.FSTAT /\ range (Args.a1 args) structs.STAT_BYTES x) \/
  (number = number.NEWFSTATAT /\ range (Args.a2 args) structs.STAT_BYTES x) \/
  (number = number.UNAME /\ range (Args.a0 args) structs.UTSNAME_BYTES x) \/
  (number = number.CLOCK_GETTIME /\ range (Args.a1 args) 16 x) \/
  (number = number.GETRANDOM /\ range (Args.a0 args) (Args.a1 args) x) \/
  (number = number.SCHED_GETAFFINITY /\ range (Args.a2 args) 8 x).

(** The value that a call returns which the shim answers without host or guest. *)
Definition answer_of (number : Z) : option Z :=
  if one_of number [number.EXIT; number.EXIT_GROUP; number.WRITE; number.WRITEV; number.READ;
       number.READV; number.BRK; number.MMAP; number.OPENAT; number.CLOSE; number.FSTAT;
       number.NEWFSTATAT; number.UNAME; number.CLOCK_GETTIME; number.GETRANDOM; number.IOCTL;
       number.SCHED_GETAFFINITY] then None
  else if one_of number [number.SET_TID_ADDRESS; number.GETTID; number.GETPID] then Some 1
  else if one_of number [number.MUNMAP; number.MPROTECT; number.MADVISE; number.LSEEK;
       number.SET_ROBUST_LIST; number.RSEQ; number.PRLIMIT64; number.RT_SIGACTION;
       number.RT_SIGPROCMASK; number.FCNTL; number.GETPPID; number.GETUID; number.GETEUID;
       number.GETGID; number.GETEGID] then Some 0
  else Some (Errno.to_return_value
    (if one_of number [number.FACCESSAT; number.READLINKAT; number.GETCWD] then Errno.NoEnt
     else Errno.NoSys)).

Definition result_value (r : SysResult) : Z :=
  match r with Ok v => v | Err e => Errno.to_return_value e end.

Section Calls.

Context {H M S : Type} `{HostLaws H} `{MemoryLaws M}.

Lemma one_of_false (number : Z) (patterns : list Z) :
  one_of number patterns = false -> Forall (fun p => (number =? p) = false) patterns.
Proof.
  induction patterns as [| p ps IH]; cbn; [constructor |].
  intros [Hp Hps]%orb_false_iff. constructor; [exact Hp | apply IH, Hps].
Qed.

Lemma one_of_true (number : Z) (patterns : list Z) : one_of number patterns = true -> In number patterns.
Proof. intros (p & Hp & ->%Z.eqb_eq)%existsb_exists. exact Hp. Qed.

(** By the arm of each of the numbers. *)
#[local] Ltac each_number E :=
  apply one_of_true in E; cbn [In] in E;
  repeat destruct E as [<- | E]; try contradiction;
  intros Ecall; vm_compute in Ecall; injection Ecall as _ _ <-; eexists; split; reflexivity.

(** The arm of every number is the one [answer_of] has. *)
Lemma call_answers (shim shim' : Shim H) (cpu cpu' : Cpu M S) (number a : Z) (args : Args) (o : Outcome) :
  answer_of number = Some a -> dispatch.call shim cpu number args = Done (shim', cpu', o) ->
  exists r, o = Outcome.Returned r /\ result_value r = a.
Proof.
  unfold answer_of. destruct (one_of number _) eqn:Ehost; [discriminate |].
  destruct (one_of number [number.SET_TID_ADDRESS; _; _]) eqn:Eone.
  { intros [= <-]. each_number Eone. }
  destruct (one_of number (number.MUNMAP :: _)) eqn:Ezero.
  { intros [= <-]. each_number Ezero. }
  destruct (one_of number [number.FACCESSAT; _; _]) eqn:Enoent.
  { intros [= <-]. each_number Enoent. }
  intros [= <-]. apply one_of_false in Ehost, Eone, Ezero, Enoent.
  unfold dispatch.call, dispatch.other, one_of. cbn [existsb].
  repeat match goal with HF : Forall _ (_ :: _) |- _ =>
    let E := fresh in let HF2 := fresh in
    destruct (proj1 (Forall_cons_iff _ _ _) HF) as [E HF2]; clear HF; rewrite ?E; clear E end.
  cbn [orb]. rewrite !orb_false_r.
  destruct (_ || _); [intros E; cbn in E; injection E as _ _ <-; eexists; split; reflexivity |].
  destruct (_ || _); [intros E; cbn in E; injection E as _ _ <-; eexists; split; reflexivity |].
  destruct (Shim.record_unhandled shim number) as [shim1 |]; [| discriminate].
  intros E. cbn in E. injection E as _ _ <-. eexists. split; reflexivity.
Qed.

Record shim_ok (shim : Shim H) : Prop := {
  shim_host : host_ok (Shim.host shim);
  shim_map : map_ok (Shim.map shim);
  shim_unhandled : exists seen, unhandled_holds shim seen
}.

Lemma shim_new_ok (h : H) (l : ArenaLayout) :
  host_ok h -> layout_ok l -> shim_ok (Shim.new h l).
Proof. intros Hh Hl. split; [exact Hh | apply map_new_ok, Hl |]. eexists. apply new_holds. Qed.

Lemma shim_ok_host (shim : Shim H) (h : H) :
  shim_ok shim -> host_ok h -> shim_ok (Shim.set_host shim h).
Proof.
  intros [_ Hm (seen & [Hs Hc Hr Hd])] Hh. split; [exact Hh | exact Hm |].
  exists seen. split; assumption.
Qed.

Lemma shim_ok_map (shim : Shim H) (m : MemoryMap) :
  shim_ok shim -> map_ok m -> shim_ok (Shim.set_map shim m).
Proof.
  intros [Hh _ (seen & [Hs Hc Hr Hd])] Hm. split; [exact Hh | exact Hm |].
  exists seen. split; assumption.
Qed.

(** What every call leaves: a well-formed shim, the CPU with only memory in
    [P] changed, and a [u64] or an error. *)
Definition called {R} (good : R -> Prop) (P : Z -> Prop) (cpu : Cpu M S)
    (p : Shim H * Cpu M S * R) : Prop :=
  shim_ok p.1.1 /\
  (exists m, p.1.2 = Cpu.set_memory cpu m /\ touched P (Cpu.memory cpu) m) /\ good p.2.

Lemma called_stay {R} (good : R -> Prop) (P : Z -> Prop) (shim : Shim H) (cpu : Cpu M S) (r : R) :
  shim_ok shim -> mem_ok (Cpu.memory cpu) -> good r -> called good P cpu (shim, cpu, r).
Proof.
  intros Hs Hm Hr. split; [exact Hs |]. split; [| exact Hr].
  exists (Cpu.memory cpu). split; [destruct cpu; reflexivity | apply touched_refl, Hm].
Qed.

Lemma called_write {R} (good : R -> Prop) (P : Z -> Prop) (shim : Shim H) (cpu : Cpu M S) (m : M)
    (r : R) :
  shim_ok shim -> touched P (Cpu.memory cpu) m -> good r ->
  called good P cpu (shim, Cpu.set_memory cpu m, r).
Proof. intros Hs Ht Hr. split; [exact Hs |]. split; [exists m; split; [reflexivity | exact Ht] | exact Hr]. Qed.

Lemma called_mono {R} (good good' : R -> Prop) (P Q : Z -> Prop) (cpu : Cpu M S)
    (p : Shim H * Cpu M S * R) :
  called good P cpu p -> (forall x, P x -> Q x) -> (forall r, good r -> good' r) ->
  called good' Q cpu p.
Proof.
  intros (Hs & (m & Hm & Ht) & Hr) HPQ Hg. split; [exact Hs |]. split; [| apply Hg, Hr].
  exists m. split; [exact Hm |]. eapply touched_mono; [exact HPQ | exact Ht].
Qed.

Lemma called_trans {R R'} (good : R -> Prop) (good' : R' -> Prop) (P : Z -> Prop)
    (cpu cpu1 : Cpu M S) (shim1 : Shim H) (r1 : R) (p : Shim H * Cpu M S * R') :
  called good P cpu (shim1, cpu1, r1) -> called good' P cpu1 p -> called good' P cpu p.
Proof.
  intros (_ & (m1 & E1 & T1) & _) (Hs & (m2 & E2 & T2) & Hr). cbn [fst snd] in E1. subst cpu1.
  split; [exact Hs |]. split; [| exact Hr]. exists m2. split; [exact E2 |].
  eapply touched_trans; [exact T1 | exact T2].
Qed.

Lemma called_memory {R} (good : R -> Prop) (P : Z -> Prop) (cpu cpu1 : Cpu M S) (shim1 : Shim H)
    (r1 : R) :
  called good P cpu (shim1, cpu1, r1) -> mem_ok (Cpu.memory cpu1).
Proof. intros (_ & (m & E & T) & _). cbn in E. subst cpu1. apply T. Qed.

(** A count no larger than what was asked for. *)
Definition count_of (len : Z) (r : SysResult) : Prop := forall c, r = Ok c -> 0 <= c <= len.

Lemma count_value (len : Z) (r : SysResult) : len < 2 ^ 64 -> count_of len r -> value_ok r.
Proof. intros Hl Hc n Hn. specialize (Hc n Hn). split; lia. Qed.

Lemma transfer_len (len : Z) :
  0 <= len -> 0 <= Z.min len dispatch.MAX_TRANSFER <= len /\ Z.min len dispatch.MAX_TRANSFER < 2 ^ 64.
Proof. intros Hl. unfold dispatch.MAX_TRANSFER. lia. Qed.

Lemma transfer_out_effect (P : Z -> Prop) (shim : Shim H) (cpu : Cpu M S) (fd a len : Z) :
  shim_ok shim -> mem_ok (Cpu.memory cpu) -> in_range 64 a -> 0 <= len ->
  returns (dispatch.transfer_out shim cpu fd (a, len)) (called (count_of len) P cpu).
Proof.
  intros Hs Hm Ha Hl. unfold dispatch.transfer_out. cbv zeta. pose proof (transfer_len len Hl).
  eapply returns_bind; [apply mem_read_effect; assumption |].
  intros [bs | e] Hbs; [| apply returns_ret, called_stay; [assumption.. | discriminate]].
  destruct (Hbs bs eq_refl) as [Hb _]. apply bytes_at_length in Hb. rewrite length_replicate in Hb.
  eapply returns_bind; [apply host_write_law, Hs |]. intros [h r] [Hh Hr]. apply returns_ret.
  apply called_stay; [apply shim_ok_host; assumption | assumption |].
  cbn [snd fst] in *. intros c Hc. specialize (Hr c Hc). lia.
Qed.

Lemma transfer_in_effect (shim : Shim H) (cpu : Cpu M S) (fd a len : Z) :
  shim_ok shim -> mem_ok (Cpu.memory cpu) -> in_range 64 a -> 0 <= len ->
  returns (dispatch.transfer_in shim cpu fd (a, len)) (called (count_of len) (range a len) cpu).
Proof.
  intros Hs Hm Ha Hl. unfold dispatch.transfer_in. cbv zeta. pose proof (transfer_len len Hl).
  eapply returns_bind; [apply host_read_law; [apply Hs |] |].
  { apply Forall_replicate. unfold is_byte. lia. }
  intros [[h bs] r] (Hh & [Hlen Hbytes] & Hr). cbn [fst snd] in *. rewrite length_replicate in *.
  assert (shim_ok (Shim.set_host shim h)) as Hs' by (apply shim_ok_host; assumption).
  destruct r as [c | e]; [| apply returns_ret, called_stay; [assumption.. | discriminate]].
  specialize (Hr c eq_refl). rewrite slice_done by lia.
  cbn [mbind may_panic_bind]. rewrite Z.sub_0_r. change (Z.to_nat 0) with 0%nat. rewrite drop_0.
  eapply returns_bind; [apply mem_write_effect; [assumption.. | apply Forall_take, Hbytes] |].
  intros [m [u | e]]; cbn [fst snd]; intros Hw; apply returns_ret.
  - apply called_write; [assumption | | intros c' [= <-]; lia].
    eapply touched_mono; [| apply stored_touched, Hw]. unfold range. rewrite length_take. lia.
  - subst m. apply called_write; [assumption | apply touched_refl, Hm | discriminate].
Qed.

Lemma writev_effect (P : Z -> Prop) (args : Args) (rounds : nat) (shim : Shim H) (cpu : Cpu M S)
    (index written : Z) :
  shim_ok shim -> mem_ok (Cpu.memory cpu) -> in_range 64 written ->
  returns (dispatch.writev_from shim cpu args rounds index written) (called value_ok P cpu).
Proof.
  revert shim cpu index written.
  induction rounds as [| n IH]; intros shim cpu index written Hs Hm Hw; cbn [dispatch.writev_from].
  { apply returns_ret, called_stay; [assumption.. |]. intros v [= <-]. exact Hw. }
  eapply returns_bind; [apply read_iovec_effect, Hm |].
  intros [[base len] | e] Hv; [| apply returns_ret, called_stay; [assumption.. | discriminate]].
  destruct (Hv _ eq_refl) as [Hbase Hlen]. cbn in Hbase, Hlen.
  destruct (len =? 0); [apply IH; assumption |].
  eapply returns_bind; [apply (transfer_out_effect P); [assumption.. | apply Hlen] |].
  intros [[shim1 cpu1] r1] Hc. pose proof Hc as (Hs1 & _ & Hr1).
  pose proof (called_memory _ _ _ _ _ _ Hc) as Hm1.
  assert (in_range 64 (wadd 64 written len)) by (apply wadd_range; lia).
  destruct r1 as [count | e]; cbv zeta.
  2: { apply returns_ret. eapply called_trans; [exact Hc |]. apply called_stay; [assumption.. | discriminate]. }
  assert (in_range 64 (wadd 64 written count)) as Hsum by (apply wadd_range; lia).
  destruct (count <? len).
  - apply returns_ret. eapply called_trans; [exact Hc |].
    apply called_stay; [assumption.. |]. intros v [= <-]. exact Hsum.
  - eapply returns_mono; [apply IH; assumption |]. intros p Hp. eapply called_trans; eassumption.
Qed.

Lemma readv_effect (args : Args) (rounds : nat) (shim : Shim H) (cpu : Cpu M S) (index total : Z) :
  shim_ok shim -> mem_ok (Cpu.memory cpu) -> in_range 64 total ->
  returns (dispatch.readv_from shim cpu args rounds index total)
    (called value_ok (fun _ => True) cpu).
Proof.
  revert shim cpu index total.
  induction rounds as [| n IH]; intros shim cpu index total Hs Hm Hw; cbn [dispatch.readv_from].
  { apply returns_ret, called_stay; [assumption.. |]. intros v [= <-]. exact Hw. }
  eapply returns_bind; [apply read_iovec_effect, Hm |].
  intros [[base len] | e] Hv; [| apply returns_ret, called_stay; [assumption.. | discriminate]].
  destruct (Hv _ eq_refl) as [Hbase Hlen]. cbn in Hbase, Hlen.
  eapply returns_bind; [apply transfer_in_effect; [assumption.. | apply Hlen] |].
  intros [[shim1 cpu1] r1] Hc.
  apply (called_mono _ (count_of len) _ (fun _ => True)) in Hc; [| trivial..].
  pose proof Hc as (Hs1 & _ & Hr1). pose proof (called_memory _ _ _ _ _ _ Hc) as Hm1.
  destruct r1 as [count | e]; cbv zeta.
  2: { apply returns_ret. eapply called_trans; [exact Hc |]. apply called_stay; [assumption.. | discriminate]. }
  assert (in_range 64 (wadd 64 total count)) as Hsum by (apply wadd_range; lia).
  destruct (count <? len).
  - apply returns_ret. eapply called_trans; [exact Hc |].
    apply called_stay; [assumption.. |]. intros v [= <-]. exact Hsum.
  - eapply returns_mono; [apply IH; assumption |]. intros p Hp. eapply called_trans; eassumption.
Qed.

End Calls.
