(* ===== verification/ShimRun.v ===== *)
(** The shim around the interpreter ([crates/core/src/shim/mod.rs], [service]
    and [run]). *)

From stdpp Require Import base numbers list option.
From S2P Require Import Prelude Reg RegFile Memory Trap TraceSink Cpu Interp MemoryMap ShimHost.
From S2P Require Import Decode Shim ShimDispatch.

#[local] Open Scope Z_scope.

Module ShimExit.

Inductive ShimExit : Type :=
| Exited (status : Z)
| Trapped (trap : Trap)
| BudgetExhausted.

End ShimExit.

Abbreviation ShimExit := ShimExit.ShimExit.

(** [u64::saturating_add]. *)
Definition saturating_add64 (x y : Z) : Z := Z.min (x + y) (2 ^ 64 - 1).

Module shim.

Section Shim.

Context {H M S : Type} `{HostIo H} `{Memory M} `{TraceSink S}.

Definition service (self : Shim H) (cpu : Cpu M S) :
    may_panic (Shim H * Cpu M S * option Z) :=
  number ← RegFile.read_x (Cpu.regs cpu) (Gpr.X 8);
  a0 ← RegFile.read_x (Cpu.regs cpu) (Gpr.X 0);
  a1 ← RegFile.read_x (Cpu.regs cpu) (Gpr.X 1);
  a2 ← RegFile.read_x (Cpu.regs cpu) (Gpr.X 2);
  a3 ← RegFile.read_x (Cpu.regs cpu) (Gpr.X 3);
  a4 ← RegFile.read_x (Cpu.regs cpu) (Gpr.X 4);
  a5 ← RegFile.read_x (Cpu.regs cpu) (Gpr.X 5);
  '(self, cpu, outcome) ← dispatch.call self cpu number (Args.mk a0 a1 a2 a3 a4 a5);
  match outcome with
  | Outcome.Returned result =>
      let value := match result with Ok v => v | Err e => Errno.to_return_value e end in
      regs ← RegFile.write_x (Cpu.regs cpu) (Gpr.X 0) value;
      mret (self, Cpu.set_regs cpu regs, None)
  | Outcome.Exited status =>
      host ← host_exit (Shim.host self) status;
      mret (Shim.set_host self host, cpu, Some status)
  end.

(** [fuel] rounds of the loop; [None] when they do not reach a [return]. *)
Fixpoint run_loop (fuel : nat) (self : Shim H) (cpu : Cpu M S) (deadline : Z) :
    may_panic (option (Shim H * Cpu M S * ShimExit)) :=
  match fuel with
  | O => mret None
  | Datatypes.S fuel =>
      if Cpu.icount cpu <? deadline then
        '(cpu, stop) ← run (Z.to_nat (wsub 64 deadline (Cpu.icount cpu))) cpu;
        match stop with
        | Stop.BudgetExhausted => mret (Some (self, cpu, ShimExit.BudgetExhausted))
        | Stop.Trapped (Trap.SupervisorCall pc _) =>
            '(self, cpu, exited) ← service self cpu;
            match exited with
            | Some status => mret (Some (self, cpu, ShimExit.Exited status))
            | None =>
                let cpu := Cpu.set_regs cpu
                             (RegFile.set_pc (Cpu.regs cpu) (wadd 64 pc INSN_BYTES)) in
                run_loop fuel self cpu deadline
            end
        | Stop.Trapped trap => mret (Some (self, cpu, ShimExit.Trapped trap))
        end
      else mret (Some (self, cpu, ShimExit.BudgetExhausted))
  end.

Definition run (fuel : nat) (self : Shim H) (cpu : Cpu M S) (budget : Z) :
    may_panic (option (Shim H * Cpu M S * ShimExit)) :=
  run_loop fuel self cpu (saturating_add64 (Cpu.icount cpu) budget).

End Shim.

End shim.
