(* ===== verification/ShimService.v ===== *)
(** Servicing a supervisor call: what the capturing host is told, that every
    syscall returns, and what it may change ([crates/core/src/shim/dispatch.rs],
    [structs.rs], [mod.rs]). *)

From stdpp Require Import base numbers list option.
From S2P Require Import Prelude Reg Pstate RegFile Flags Fetch GuestMemory Memory Trap TraceSink.
From S2P Require Import Cpu Isa Refine Run ShimHost MemoryMap Shim ShimDispatch.
From S2P Require Import ShimEffects ShimRun.

#[local] Open Scope Z_scope.

(** ** The vectors of an array in a partial byte map *)

(** The little-endian [u64] at an address. *)
Definition word_at (f : Z -> option Z) (a : Z) : option Z :=
  bs ← bytes_at f a 8; Some (from_le_bytes bs).

(** The [index]th [struct iovec]: where the data is, and how much. *)
Definition vector_at (f : Z -> option Z) (a index : Z) : option (Z * Z) :=
  base ← word_at f (as_u64 (a + 16 * index));
  len ← word_at f (as_u64 (a + 16 * index + 8));
  Some (base, len).

(** The data of [n] vectors from [index] on, none longer than a transfer. *)
Fixpoint gather (f : Z -> option Z) (a index : Z) (n : nat) : option (list Z) :=
  match n with
  | O => Some []
  | S n =>
      '(base, len) ← vector_at f a index;
      data ← (if len <=? dispatch.MAX_TRANSFER then bytes_at f base (Z.to_nat len) else None);
      rest ← gather f a (index + 1) n;
      Some (data ++ rest)
  end.

(** ** The capturing host *)

(** The host once [bytes] were written to its standard output. *)
Definition captured (h : CapturingHost) (bytes : list Z) : CapturingHost :=
  CapturingHost.mk (CapturingHost.stdout h ++ bytes) (CapturingHost.stderr h)
    (CapturingHost.exit_status h) (CapturingHost.seed h) (CapturingHost.nanos h).

Definition shim_captured (shim : Shim CapturingHost) (bytes : list Z) : Shim CapturingHost :=
  Shim.set_host shim (captured (Shim.host shim) bytes).

Lemma shim_captured_nil (shim : Shim CapturingHost) : shim_captured shim [] = shim.
Proof.
  unfold shim_captured, captured. rewrite app_nil_r. destruct shim as [[] ? ? ?]. reflexivity.
Qed.

Lemma shim_captured_app (shim : Shim CapturingHost) (l r : list Z) :
  shim_captured (shim_captured shim l) r = shim_captured shim (l ++ r).
Proof. unfold shim_captured, captured. cbn. rewrite app_assoc. reflexivity. Qed.

Section Io.

Context {M S : Type} `{MemoryLaws M}.

Lemma read_u64 (m : M) (a : Z) :
  mem_ok m -> in_range 64 a ->
  read_uint m a 8 =
  Done (match word_at (byte_at m) a with
        | Some x => Ok x | None => Err (AccessFault.mk a false) end).
Proof.
  intros Hm Ha. rewrite read_uint_law by (assumption || (unfold width_ok; lia)).
  unfold word_at. change (Z.to_nat 8) with 8%nat. destruct (bytes_at (byte_at m) a 8); reflexivity.
Qed.

Lemma wadd_wmul16 (a index : Z) :
  wadd 64 a (wmul 64 index structs.IOVEC_BYTES) = as_u64 (a + 16 * index) /\
  wadd 64 (wadd 64 a (wmul 64 index structs.IOVEC_BYTES)) 8 = as_u64 (a + 16 * index + 8).
Proof.
  unfold wadd, wmul, as_u64, wrap, structs.IOVEC_BYTES.
  rewrite Zplus_mod_idemp_l, <- Z.add_assoc, (Z.add_comm (_ mod _)), Z.add_assoc.
  rewrite !Zplus_mod_idemp_r. split; f_equal; lia.
Qed.

Lemma read_iovec_value (m : M) (a index : Z) :
  mem_ok m ->
  structs.read_iovec m a index =
  Done (match vector_at (byte_at m) a index with
        | Some (base, len) => Ok (structs.IoVec.mk base len)
        | None => Err Errno.Fault end).
Proof.
  intros Hm. unfold structs.read_iovec, vector_at. cbv zeta.
  destruct (wadd_wmul16 a index) as [-> ->].
  rewrite !read_u64 by (assumption || (apply wrap_range; lia)). cbn [mbind may_panic_bind].
  destruct (word_at (byte_at m) (as_u64 (a + 16 * index))); [| reflexivity].
  cbn [mbind option_bind]. destruct (word_at (byte_at m) _); reflexivity.
Qed.

Lemma word_at_range (m : M) (a x : Z) :
  mem_ok m -> word_at (byte_at m) a = Some x -> in_range 64 x.
Proof.
  intros Hm. unfold word_at. destruct (bytes_at (byte_at m) a 8) as [bs |] eqn:E; [| discriminate].
  intros [= <-]. assert (Forall is_byte bs) as Hbs
    by (eapply bytes_at_Forall; [| exact E]; intros y c; apply byte_at_is_byte, Hm).
  pose proof (from_le_bytes_range bs Hbs) as Hr. apply bytes_at_length in E. rewrite E in Hr. exact Hr.
Qed.

Lemma vector_at_range (m : M) (a index base len : Z) :
  mem_ok m -> vector_at (byte_at m) a index = Some (base, len) -> in_range 64 base /\ in_range 64 len.
Proof.
  intros Hm. unfold vector_at. destruct (word_at (byte_at m) (as_u64 (a + 16 * index))) as [b |] eqn:Eb;
    [| discriminate]. cbn [mbind option_bind].
  destruct (word_at (byte_at m) (as_u64 (a + 16 * index + 8))) as [l |] eqn:El; [| discriminate].
  cbn. intros [= <- <-]. split; eapply word_at_range; eassumption.
Qed.

(** Mapped data of at most a transfer's length is written in full. *)
Lemma transfer_out_captures (shim : Shim CapturingHost) (cpu : Cpu M S) (a len : Z)
    (data : list Z) :
  mem_ok (Cpu.memory cpu) -> in_range 64 a -> 0 < len <= dispatch.MAX_TRANSFER ->
  bytes_at (byte_at (Cpu.memory cpu)) a (Z.to_nat len) = Some data ->
  dispatch.transfer_out shim cpu 1 (a, len) = Done (shim_captured shim data, cpu, Ok len).
Proof.
  intros Hm Ha Hlen Hdata. unfold dispatch.transfer_out. rewrite Z.min_l by lia.
  rewrite mem_read_law; [| assumption.. | destruct (Z.to_nat len) eqn:E; [lia | discriminate]].
  rewrite length_replicate, Hdata. cbn. apply bytes_at_length in Hdata. rewrite Hdata.
  rewrite Z2Nat.id by lia. reflexivity.
Qed.

(** The loop over the first [n] vectors, when their data is there. *)
Lemma writev_prefix (args : Args) (cpu : Cpu M S) (n k : nat) (index written : Z)
    (shim : Shim CapturingHost) (data : list Z) :
  mem_ok (Cpu.memory cpu) -> as_i32 (Args.a0 args) = 1 ->
  gather (byte_at (Cpu.memory cpu)) (Args.a1 args) index n = Some data ->
  dispatch.writev_from shim cpu args (n + k) index (as_u64 written) =
  dispatch.writev_from (shim_captured shim data) cpu args k (index + Z.of_nat n)
    (as_u64 (written + Z.of_nat (length data))).
Proof.
  intros Hm Hfd. revert shim index written data.
  induction n as [| n IH]; intros shim index written data Hg; cbn [gather] in Hg.
  { injection Hg as <-. rewrite shim_captured_nil, !Z.add_0_r. reflexivity. }
  destruct (vector_at _ _ _) as [[base len] |] eqn:Ev; [| discriminate]. cbn in Hg.
  destruct (Z.leb_spec len dispatch.MAX_TRANSFER) as [Hmax |]; [| discriminate].
  destruct (bytes_at _ base _) as [bs |] eqn:Eb; [| discriminate]. cbn in Hg.
  destruct (gather _ _ _ _) as [rest |] eqn:Eg; [| discriminate]. injection Hg as <-.
  cbn [Nat.add dispatch.writev_from]. rewrite read_iovec_value, Ev by exact Hm.
  cbn [mbind may_panic_bind]. destruct (vector_at_range _ _ _ _ _ Hm Ev) as [Hbase Hlen].
  replace (index + Z.of_nat (Datatypes.S n)) with (index + 1 + Z.of_nat n) by lia.
  pose proof (bytes_at_length _ _ _ _ Eb) as Hbs. unfold in_range in Hlen.
  destruct (Z.eqb_spec len 0) as [-> |].
  { destruct bs; [| discriminate]. apply IH, Eg. }
  rewrite Hfd, (transfer_out_captures shim cpu base len bs) by (assumption || lia).
  cbn [mbind may_panic_bind]. cbv zeta. rewrite Z.ltb_irrefl.
  assert (wadd 64 (as_u64 written) len = as_u64 (written + len)) as ->
    by (unfold wadd, as_u64, wrap; apply Zplus_mod_idemp_l).
  rewrite (IH _ _ _ rest Eg), shim_captured_app, length_app.
  do 2 f_equal. lia.
Qed.

(** ** The path *)

(** The byte at an offset of the path. *)
Definition path_byte (f : Z -> option Z) (a i : Z) : option Z := f (as_u64 (a + i)).

Lemma read_path_byte (m : M) (a i : Z) :
  mem_ok m ->
  read_uint m (wadd 64 a i) 1 =
  Done (match path_byte (byte_at m) a i with
        | Some b => Ok b | None => Err (AccessFault.mk (as_u64 (a + i)) false) end).
Proof.
  intros Hm. unfold path_byte. rewrite read_uint_law; [| assumption | apply wadd_range; lia | unfold width_ok; lia].
  change (Z.to_nat 1) with 1%nat. cbn [bytes_at]. change (wadd 64 a i) with (as_u64 (a + i)).
  destruct (byte_at m (as_u64 (a + i))); [| reflexivity]. cbn. repeat f_equal. lia.
Qed.

(** The loop over bytes that are not NUL. *)
Lemma read_c_string_prefix (m : M) (a : Z) (bs acc : list Z) (k : nat) (offset : Z) :
  mem_ok m -> Forall (fun b => 0 < b < 256) bs ->
  (forall i, (i < length bs)%nat -> path_byte (byte_at m) a (offset + Z.of_nat i) = bs !! i) ->
  dispatch.read_c_string_from m a (length bs + k) offset acc =
  dispatch.read_c_string_from m a k (offset + Z.of_nat (length bs)) (acc ++ bs).
Proof.
  intros Hm. revert offset acc. induction bs as [| b bs IH]; intros offset acc Hbs Hat.
  { cbn. rewrite Z.add_0_r, app_nil_r. reflexivity. }
  apply Forall_cons_1 in Hbs as [Hb Hbs]. cbn [length Nat.add dispatch.read_c_string_from].
  rewrite read_path_byte by exact Hm. pose proof (Hat 0%nat ltac:(cbn; lia)) as H0'.
  rewrite Z.add_0_r in H0'. rewrite H0'. cbn [lookup list_lookup mbind may_panic_bind]. cbv zeta.
  unfold as_u8. rewrite wrap_small by (split; lia). destruct (Z.eqb_spec b 0); [lia |].
  rewrite IH; [| exact Hbs |].
  - rewrite <- app_assoc. cbn. f_equal. lia.
  - intros i Hi. change (bs !! i) with ((b :: bs) !! Datatypes.S i).
    rewrite <- Hat by (cbn; lia). f_equal. lia.
Qed.

End Io.

(** ** Calls *)

Section Calls.

Context {H M S : Type} `{HostLaws H} `{MemoryLaws M}.

Context (shim : Shim H) (cpu : Cpu M S) (args : Args) (limit : Z).
Context (Hshim : shim_ok shim) (Hmem : mem_ok (Cpu.memory cpu)) (Hargs : args_ok args).
Context (Hbelow : mapped_below limit (Cpu.memory cpu)) (Hlimit : limit < 2 ^ 64).

Let stays := fun (P : Z -> Prop) (r : SysResult) (Hr : value_ok r) =>
  called_stay value_ok P shim cpu r Hshim Hmem Hr.

Lemma value_ok_small (n : Z) : 0 <= n < 2 ^ 64 -> value_ok (Ok n).
Proof. intros Hn v [= <-]. exact Hn. Qed.

Lemma value_ok_err (e : Errno) : value_ok (Err e).
Proof. discriminate. Qed.

Lemma from_host_effect (P : Z -> Prop) (m : may_panic (H * SysResult)) :
  returns m (fun p => host_ok p.1 /\ value_ok p.2) ->
  returns (dispatch.from_host shim cpu m) (called value_ok P cpu).
Proof.
  intros Hm. unfold dispatch.from_host. eapply returns_bind; [exact Hm |].
  intros [h r] [Hh Hr]. apply returns_ret, called_stay; [apply shim_ok_host | |]; assumption.
Qed.

Lemma open_effect (P : Z -> Prop) : returns (dispatch.open shim cpu args) (called value_ok P cpu).
Proof.
  unfold dispatch.open, dispatch.read_c_string.
  eapply returns_bind; [apply read_c_string_effect, Hmem |].
  intros [path | e] _; [| apply returns_ret, stays, value_ok_err].
  apply from_host_effect, host_open_law, Hshim.
Qed.

Lemma fstat_effect (fd a : Z) :
  in_range 64 a ->
  returns (dispatch.fstat shim cpu fd a) (called value_ok (range a structs.STAT_BYTES) cpu).
Proof.
  intros Ha. unfold dispatch.fstat. eapply returns_bind; [apply host_size_law, Hshim |].
  intros [h [size | e]] [Hh Hsize]; cbn [fst snd] in *; cbv zeta.
  2: { apply returns_ret, called_stay; [apply shim_ok_host; assumption | exact Hmem | apply value_ok_err]. }
  eapply returns_bind; [apply host_terminal_law, Hh |]. intros [h1 t] Hh1. cbn [fst] in Hh1.
  eapply returns_bind; [apply write_stat_effect; assumption |].
  intros [m [u | e]]; cbn [fst snd]; intros Hw; apply returns_ret, called_write;
    try (apply shim_ok_host; [apply shim_ok_host; assumption | assumption]).
  - apply (stored_touched _ _ _ _ Hw).
  - apply value_ok_small. lia.
  - subst m. apply touched_refl, Hmem.
  - apply value_ok_err.
Qed.

Lemma getrandom_effect :
  returns (dispatch.getrandom shim cpu args)
    (called value_ok (range (Args.a0 args) (Args.a1 args)) cpu).
Proof.
  destruct Hargs as [Ha0 [Ha1 Ha1'] _]. unfold dispatch.getrandom. cbv zeta.
  pose proof (transfer_len _ Ha1).
  eapply returns_bind; [apply host_random_law; [apply Hshim |] |].
  { apply Forall_replicate. unfold is_byte. lia. }
  intros [h bs] [Hh [Hlen Hb]]. cbn [fst snd] in *. rewrite length_replicate in Hlen.
  eapply returns_bind; [apply mem_write_effect; assumption |].
  intros [m [u | e]]; cbn [fst snd]; intros Hw; apply returns_ret, called_write;
    try (apply shim_ok_host; assumption).
  - eapply touched_mono; [| apply stored_touched, Hw]. unfold range. lia.
  - apply value_ok_small. lia.
  - subst m. apply touched_refl, Hmem.
  - apply value_ok_err.
Qed.

Lemma ioctl_effect (P : Z -> Prop) : returns (dispatch.ioctl shim cpu args) (called value_ok P cpu).
Proof.
  unfold dispatch.ioctl. eapply returns_bind; [apply host_terminal_law, Hshim |].
  intros [h t] Hh. apply returns_ret, called_stay; [apply shim_ok_host; assumption | assumption |].
  destruct t; [apply value_ok_small; lia | apply value_ok_err].
Qed.

Lemma affinity_effect :
  returns (dispatch.affinity shim cpu args) (called value_ok (range (Args.a2 args) 8) cpu).
Proof.
  unfold dispatch.affinity. destruct (_ <? 8); [apply returns_ret, stays, value_ok_err |].
  eapply returns_bind; [apply write_uint_effect; [assumption | apply Hargs | unfold width_ok; lia] |].
  intros [m [u | e]]; cbn [fst snd]; intros Hw; apply returns_ret, called_write; try assumption.
  - apply (stored_touched _ _ _ _ Hw).
  - apply value_ok_small. lia.
  - subst m. apply touched_refl, Hmem.
  - apply value_ok_err.
Qed.

Lemma uname_effect :
  returns (dispatch.uname shim cpu args)
    (called value_ok (range (Args.a0 args) structs.UTSNAME_BYTES) cpu).
Proof.
  unfold dispatch.uname.
  eapply returns_bind; [eapply write_utsname_effect; [assumption | apply Hargs | eassumption..] |].
  intros [m [u | e]]; unfold wrote; cbn [fst snd]; intros Hw; apply returns_ret, called_write;
    try assumption.
  - exact (stored_touched _ _ _ _ Hw).
  - apply value_ok_small. lia.
  - apply value_ok_err.
Qed.

Lemma clock_gettime_effect :
  returns (dispatch.clock_gettime shim cpu args) (called value_ok (range (Args.a1 args) 16) cpu).
Proof.
  unfold dispatch.clock_gettime. eapply returns_bind; [apply host_nanos_law, Hshim |].
  intros [h n] [Hh _]. cbn [fst] in Hh.
  eapply returns_bind; [eapply write_timespec_effect; [assumption | apply Hargs | eassumption..] |].
  intros [m r]; cbn [fst snd]; intros [Hv Hw]; apply returns_ret, called_write;
    [apply shim_ok_host; assumption | | exact Hv].
  destruct r; [destruct Hw as [_ Hw]; exact (stored_touched _ _ _ _ Hw) | exact Hw].
Qed.

Lemma brk_effect (P : Z -> Prop) (m : MemoryMap) (b : Z) :
  MemoryMap.set_brk (Shim.map shim) (Args.a0 args) = (m, b) ->
  called value_ok P cpu (Shim.set_map shim m, cpu, Ok b).
Proof.
  intros E. destruct (serve_ok (Shim.map shim) (Brk (Args.a0 args))) as (Hm & _ & Ha);
    [apply Hshim | apply Hargs |].
  cbn [serve] in *. rewrite E in *. cbn [fst snd answer_ok] in *.
  apply called_stay; [apply shim_ok_map; assumption | assumption |].
  destruct (map_layout _ (shim_map _ Hshim)). apply value_ok_small. lia.
Qed.

Lemma mmap_effect (P : Z -> Prop) (m : MemoryMap) (b : option Z) :
  MemoryMap.map (Shim.map shim) (Args.a1 args) = (m, b) ->
  called value_ok P cpu (Shim.set_map shim m, cpu, from_option Ok (Err Errno.NoMem) b).
Proof.
  intros E. pose proof (shim_map _ Hshim) as Hm.
  destruct (serve_ok (Shim.map shim) (Map (Args.a1 args)) Hm) as (Hm' & _ & Ha); [apply Hargs |].
  cbn [serve] in *. rewrite E in *. destruct Hm as [[] _ []].
  destruct b as [b |]; cbn [fst snd answer_ok from_option] in *;
    (apply called_stay; [apply shim_ok_map; assumption | assumption |]).
  - apply value_ok_small. destruct Ha as (_ & _ & -> & _). lia.
  - apply value_ok_err.
Qed.

End Calls.

Section Service.

Context {H M S : Type} `{HostLaws H} `{MemoryLaws M}.

(** The effect of the arm of [number], given what it may change. *)
Tactic Notation "arm" uconstr(eff) :=
  eapply returns_mono; [eapply eff; eassumption |];
  let p := fresh in let Hp := fresh in
  intros p Hp; eapply called_mono; [exact Hp | unfold written_by; tauto | trivial].

Lemma other_effect (shim : Shim H) (cpu : Cpu M S) (number limit : Z) (args : Args) :
  shim_ok shim -> mem_ok (Cpu.memory cpu) -> args_ok args ->
  mapped_below limit (Cpu.memory cpu) -> limit < 2 ^ 64 ->
  returns (dispatch.other shim cpu number args) (called value_ok (written_by number args) cpu).
Proof.
  intros Hs Hm Ha Hb Hl. unfold dispatch.other. pose proof Ha as [Ha0 Ha1 Ha2].
  assert (forall n, 0 <= n < 2 ^ 64 ->
    returns (mret (shim, cpu, Ok n)) (called value_ok (written_by number args) cpu)) as Hvalue.
  { intros n Hn. apply returns_ret, called_stay; [assumption.. | apply value_ok_small, Hn]. }
  assert (forall e, returns (mret (shim, cpu, Err e)) (called value_ok (written_by number args) cpu))
    as Hrefuse by (intros e; apply returns_ret, called_stay; [assumption.. | apply value_ok_err]).
  destruct (number =? number.BRK).
  { destruct (MemoryMap.set_brk _ _) eqn:E. apply returns_ret. eapply brk_effect; eassumption. }
  destruct (number =? number.MMAP).
  { destruct (MemoryMap.map _ _) eqn:E. apply returns_ret. eapply mmap_effect; eassumption. }
  destruct (one_of number _); [apply Hvalue; lia |].
  destruct (number =? number.OPENAT); [eapply open_effect; eassumption |].
  destruct (number =? number.CLOSE).
  { eapply from_host_effect; [eassumption.. |]. apply host_close_law, Hs. }
  destruct (Z.eqb_spec number number.FSTAT); [arm fstat_effect |].
  destruct (Z.eqb_spec number number.NEWFSTATAT); [arm fstat_effect |].
  destruct (Z.eqb_spec number number.UNAME); [arm uname_effect |].
  destruct (Z.eqb_spec number number.CLOCK_GETTIME); [arm clock_gettime_effect |].
  destruct (Z.eqb_spec number number.GETRANDOM); [arm getrandom_effect |].
  destruct (number =? number.IOCTL); [eapply ioctl_effect; eassumption |].
  destruct (number =? number.LSEEK); [apply Hvalue; lia |].
  destruct (one_of number _); [apply Hrefuse |].
  do 3 (destruct (one_of number _); [apply Hvalue; lia |]).
  destruct (number =? number.GETPPID); [apply Hvalue; lia |].
  destruct (one_of number _); [apply Hvalue; lia |].
  destruct (Z.eqb_spec number number.SCHED_GETAFFINITY); [arm affinity_effect |].
  do 2 (destruct (one_of number _); [apply Hrefuse |]).
  destruct (shim_unhandled _ Hs) as [seen Hseen].
  eapply returns_bind; [apply record_unhandled_holds, Hseen |].
  intros shim' (Hseen' & Eh & Em). apply returns_ret, called_stay; [| assumption | apply value_ok_err].
  split; [rewrite Eh; apply Hs | rewrite Em; apply Hs | eexists; exact Hseen'].
Qed.

(** An outcome holds a [u64]. *)
Definition outcome_ok (o : Outcome) : Prop :=
  match o with Outcome.Returned r => value_ok r | Outcome.Exited _ => True end.

Lemma call_effect (shim : Shim H) (cpu : Cpu M S) (number limit : Z) (args : Args) :
  shim_ok shim -> mem_ok (Cpu.memory cpu) -> args_ok args ->
  mapped_below limit (Cpu.memory cpu) -> limit < 2 ^ 64 ->
  returns (dispatch.call shim cpu number args) (fun p =>
    called outcome_ok (written_by number args) cpu p /\
    (one_of number [number.EXIT; number.EXIT_GROUP] = true ->
     p = (shim, cpu, Outcome.Exited (as_i32 (Args.a0 args)))) /\
    (one_of number [number.EXIT; number.EXIT_GROUP] = false ->
     exists r, p.2 = Outcome.Returned r)).
Proof.
  intros Hs Hm Ha Hb Hl. unfold dispatch.call. cbv zeta. pose proof Ha as [Ha0 Ha1 Ha2].
  destruct (one_of number _).
  { apply returns_ret. split; [apply called_stay; [assumption.. | exact I] |].
    split; [reflexivity | discriminate]. }
  assert (forall (P : Z -> Prop) m, (forall x, P x -> written_by number args x) ->
    returns m (called value_ok P cpu) ->
    returns ('(shim, cpu, result) ← m; mret (shim, cpu, Outcome.Returned result)) (fun p =>
      called outcome_ok (written_by number args) cpu p /\
      (false = true -> p = (shim, cpu, Outcome.Exited (as_i32 (Args.a0 args)))) /\
      (false = false -> exists r, p.2 = Outcome.Returned r))) as Hreturned.
  { intros P m HP Hret. eapply returns_bind; [exact Hret |].
    intros [[shim1 cpu1] r] (Hs1 & (m1 & E1 & T1) & Hr). apply returns_ret.
    split; [| split; [discriminate | eexists; reflexivity]].
    split; [exact Hs1 |]. split; [| exact Hr]. exists m1. split; [exact E1 |].
    eapply touched_mono; [exact HP | exact T1]. }
  destruct (number =? number.WRITE).
  { apply (Hreturned (fun _ => False)); [tauto |]. unfold dispatch.write.
    eapply returns_mono; [apply (transfer_out_effect (fun _ => False)); [assumption.. | apply Ha2] |].
    intros p Hp. eapply called_mono; [exact Hp | trivial |]. intros r. exact (count_value _ r (proj2 Ha2)). }
  destruct (number =? number.WRITEV).
  { apply (Hreturned (fun _ => False)); [tauto |]. apply writev_effect; [assumption.. |].
    apply in_range_0. lia. }
  destruct (Z.eqb_spec number number.READ).
  { apply (Hreturned (range (Args.a1 args) (Args.a2 args))); [unfold written_by; tauto |].
    eapply returns_mono; [apply transfer_in_effect; [assumption.. | apply Ha2] |].
    intros p Hp. eapply called_mono; [exact Hp | trivial |]. intros r. exact (count_value _ r (proj2 Ha2)). }
  destruct (Z.eqb_spec number number.READV).
  { apply (Hreturned (fun _ => True)); [unfold written_by; tauto |].
    apply readv_effect; [assumption.. |]. apply in_range_0. lia. }
  eapply (Hreturned (written_by number args)); [trivial |]. eapply other_effect; eassumption.
Qed.

(** The number and the arguments the registers hold. *)
Definition call_number (r : RegFile) : Z := reg_value r (Gpr.X 8).
Definition call_args (r : RegFile) : Args :=
  Args.mk (reg_value r (Gpr.X 0)) (reg_value r (Gpr.X 1)) (reg_value r (Gpr.X 2))
    (reg_value r (Gpr.X 3)) (reg_value r (Gpr.X 4)) (reg_value r (Gpr.X 5)).

Lemma read_x_call (r : RegFile) (n : Z) :
  regfile_ok r -> 0 <= n < 31 ->
  RegFile.read_x r (Gpr.X n) = Done (reg_value r (Gpr.X n)) /\ in_range 64 (reg_value r (Gpr.X n)).
Proof.
  intros Hr Hn. destruct (read_x_returns r (Gpr.X n) Hr) as (x & E & Hx); [cbn; unfold NUM_GPR; lia |].
  rewrite (reg_value_done _ _ _ E). split; assumption.
Qed.

Lemma call_args_ok (r : RegFile) : regfile_ok r -> args_ok (call_args r).
Proof. intros Hr. split; cbn; apply read_x_call; (assumption || lia). Qed.

(** What servicing a call does to the machine: X0 holds a [u64], the answer of a
    call the shim answers alone, memory has changed where the call may, and nothing
    else has; an exit changes nothing. *)
Definition serviced (cpu : Cpu M S) (p : Shim H * Cpu M S * option Z) : Prop :=
  let number := call_number (Cpu.regs cpu) in
  let args := call_args (Cpu.regs cpu) in
  shim_ok p.1.1 /\
  match p.2 with
  | Some status =>
      one_of number [number.EXIT; number.EXIT_GROUP] = true /\
      status = as_i32 (Args.a0 args) /\ p.1.2 = cpu
  | None =>
      one_of number [number.EXIT; number.EXIT_GROUP] = false /\
      exists v regs m, in_range 64 v /\ (forall a, answer_of number = Some a -> v = a) /\
        RegFile.write_x (Cpu.regs cpu) (Gpr.X 0) v = Done regs /\
        touched (written_by number args) (Cpu.memory cpu) m /\
        p.1.2 = Cpu.set_regs (Cpu.set_memory cpu m) regs
  end.

Lemma service_effect (shim : Shim H) (cpu : Cpu M S) (limit : Z) :
  shim_ok shim -> regfile_ok (Cpu.regs cpu) -> mem_ok (Cpu.memory cpu) ->
  mapped_below limit (Cpu.memory cpu) -> limit < 2 ^ 64 ->
  returns (shim.service shim cpu) (serviced cpu).
Proof.
  intros Hs Hr Hm Hb Hl. unfold shim.service.
  rewrite !(fun n Hn => proj1 (read_x_call (Cpu.regs cpu) n Hr Hn)) by lia.
  cbn [mbind may_panic_bind]. fold (call_args (Cpu.regs cpu)) (call_number (Cpu.regs cpu)).
  pose proof (call_args_ok _ Hr) as Hargs.
  destruct (call_effect shim cpu (call_number (Cpu.regs cpu)) limit (call_args (Cpu.regs cpu)))
    as ([[shim1 cpu1] o] & Ecall & (Hs1 & (m1 & E1 & T1) & Ho) & Hexit & Hret); [assumption.. |].
  rewrite Ecall. cbn [mbind may_panic_bind fst snd] in *.
  unfold serviced. destruct (one_of _ _) eqn:Ex.
  - injection (Hexit eq_refl) as -> -> ->. eapply returns_bind; [apply host_exit_law, Hs |].
    intros h Hh. apply returns_ret. split; [apply shim_ok_host; assumption |].
    split; [reflexivity |]. split; reflexivity.
  - destruct (Hret eq_refl) as [r ->]. subst cpu1.
    assert (in_range 64 (match r with Ok v => v | Err e => Errno.to_return_value e end)) as Hv.
    { destruct r as [v | e]; [apply Ho; reflexivity | apply wrap_range; lia]. }
    assert (gpr_ok (Gpr.X 0)) as Hx0 by (cbn; unfold NUM_GPR; lia).
    destruct (write_x_returns (Cpu.regs cpu) (Gpr.X 0) _ Hr Hx0 Hv) as (regs & E & _).
    cbv zeta. cbn [Cpu.regs Cpu.set_memory] in *. rewrite E. cbn [mbind may_panic_bind].
    apply returns_ret. split; [exact Hs1 |]. split; [reflexivity |].
    exists (match r with Ok v => v | Err e => Errno.to_return_value e end), regs, m1.
    split; [exact Hv |]. split.
    { intros a Ha. destruct (call_answers _ _ _ _ _ _ _ _ Ha Ecall) as (r' & [= <-] & Hr'). exact Hr'. }
    split; [exact E |]. split; [exact T1 | reflexivity].
Qed.

End Service.
