(* ===== verification/ShimLoop.v ===== *)
(** The shim's loop around the interpreter comes to an end
    ([crates/core/src/shim/mod.rs], [run]). *)

From stdpp Require Import base numbers list option.
From S2P Require Import Prelude Reg Pstate RegFile Instruction Decode Flags Fetch GuestMemory Memory.
From S2P Require Import Trap TraceSink Cpu Interp MemoryMap ShimHost Shim ShimDispatch.
From S2P Require Import ShimEffects ShimRun ShimService Isa Refine Run.

#[local] Open Scope Z_scope.

(** ** What the architecture keeps *)

Lemma store_bytes_mapped (f : Z -> option Z) (a : Z) (bs : list Z) (x : Z) :
  is_Some (bytes_at f a (length bs)) -> store_bytes f a bs x = None <-> f x = None.
Proof.
  intros [old Hold]. unfold store_bytes.
  destruct (Z.leb_spec a x); cbn [andb]; [| reflexivity].
  destruct (Z.ltb_spec x (a + Z.of_nat (length bs))); [| reflexivity].
  rewrite (bytes_at_mapped _ _ _ _ x Hold) by lia. apply bytes_at_length in Hold.
  rewrite !lookup_ge_None, Hold. reflexivity.
Qed.

(** An instruction maps and unmaps nothing. *)
Lemma isa_exec_mapped (s s' : isa_state) (insn : Instruction) (x : Z) :
  isa_exec s insn = Continue s' -> isa_mem s' x = None <-> isa_mem s x = None.
Proof.
  assert (forall s1 rd v, isa_mem (isa_write s1 rd v) x = isa_mem s1 x) as Hwrite by reflexivity.
  assert (forall i rd res, isa_result s i rd res = Continue s' -> isa_mem s' x = isa_mem s x) as Hres.
  { intros i rd res [= <-]. destruct (Instruction.sets_flags i); reflexivity. }
  assert (forall b p, isa_mem (isa_jump (isa_link s b) p) x = isa_mem s x) as Hlink
    by (intros []; reflexivity).
  unfold isa_exec. intros H. destruct (Instruction.op insn) eqn:Eop; try discriminate;
    unfold isa_arithmetic, isa_logical, isa_branch, isa_branch_register in H; cbv zeta in H;
    try solve [destruct (Instruction.form insn); try discriminate;
               first [apply Hres in H as ->; reflexivity | injection H as <-; rewrite Hlink; reflexivity]];
    try (injection H as <-; reflexivity).
  all: unfold isa_load_store in H; cbv zeta in H; rewrite Eop in H.
  all: destruct (Instruction.form insn); try discriminate.
  all: match goal with H : match ?o with _ => _ end = _ |- _ => destruct o; try discriminate end.
  all: destruct (bytes_at (isa_mem s) _ _) as [old |] eqn:Eb; [| discriminate].
  all: injection H as <-.
  - destruct (EffectiveAddress.writeback _) as [[? ?] |]; reflexivity.
  - assert (forall s1 wb, isa_mem (isa_next (isa_writeback s1 wb)) x = isa_mem s1 x) as ->
      by (intros s1 [[? ?] |]; reflexivity).
    apply store_bytes_mapped. rewrite length_to_le_bytes, Eb. eexists; reflexivity.
Qed.

Lemma isa_step_mapped (s s' : isa_state) (x : Z) :
  isa_step s = Continue s' -> isa_mem s' x = None <-> isa_mem s x = None.
Proof.
  unfold isa_step. destruct (bytes_at _ _ _); [| discriminate]. apply isa_exec_mapped.
Qed.

(** A run that traps ends in a state whose next step raises that trap; one
    that retired nothing is where it was. *)
Lemma isa_run_end (n : nat) (s : isa_state) :
  let '(s', k, t) := isa_run n s in
  (forall x, isa_mem s' x = None <-> isa_mem s x = None) /\
  (forall t', t = Some t' -> isa_step s' = Raise t') /\
  (k = O -> s' = s).
Proof.
  revert s. induction n as [| n IH]; intros s; cbn [isa_run].
  { split; [reflexivity |]. split; [discriminate | reflexivity]. }
  destruct (isa_step s) as [s1 | t1] eqn:E1.
  - specialize (IH s1). destruct (isa_run n s1) as [[s' k] t]. destruct IH as (Hm & Ht & _).
    split; [| split; [exact Ht | discriminate]].
    intros x. rewrite Hm. apply (isa_step_mapped _ _ _ E1).
  - split; [reflexivity |]. split; [| reflexivity]. intros t' [= <-]. exact E1.
Qed.

(** A supervisor call is raised by the instruction at PC, which is mapped. *)
Lemma isa_step_svc (s : isa_state) (pc imm : Z) :
  isa_step s = Raise (Trap.SupervisorCall pc imm) ->
  pc = isa_pc s /\ is_Some (bytes_at (isa_mem s) (isa_pc s) 4).
Proof.
  unfold isa_step. destruct (bytes_at _ _ _) as [word |]; [| discriminate].
  intros H. split; [| eexists; reflexivity].
  unfold isa_exec in H. destruct (Instruction.op _) eqn:Eop in H; try discriminate;
    unfold isa_arithmetic, isa_logical, isa_branch, isa_branch_register, isa_load_store in H;
    cbv zeta in H; destruct (Instruction.form _) in H; try discriminate;
    try solve [injection H; intros; congruence];
    try (match goal with H : match ?o with _ => _ end = _ |- _ => destruct o; try discriminate end);
    destruct (bytes_at _ _ _) in H; discriminate.
Qed.

(** ** A process

    What a program under the shim does: the architecture's steps, and at a
    supervisor call what the shim does for it. *)

Definition state_number (s : isa_state) : Z := isa_reg s (Gpr.X 8).
Definition state_args (s : isa_state) : Args :=
  Args.mk (isa_reg s (Gpr.X 0)) (isa_reg s (Gpr.X 1)) (isa_reg s (Gpr.X 2)) (isa_reg s (Gpr.X 3))
    (isa_reg s (Gpr.X 4)) (isa_reg s (Gpr.X 5)).

Definition exits (number : Z) : bool := one_of number [number.EXIT; number.EXIT_GROUP].

(** The state is at a supervisor call. *)
Definition at_call (s : isa_state) : Prop :=
  exists imm, isa_step s = Raise (Trap.SupervisorCall (isa_pc s) imm).

(** The call returns [v] in X0 and goes on after the instruction.  It may change
    mapped bytes of the buffer its arguments name, and nothing else; a call that
    the shim answers alone gives that answer. *)
Record call_returns (s : isa_state) (v : Z) (s' : isa_state) : Prop := {
  call_at : at_call s;
  call_number_not_exit : exits (state_number s) = false;
  call_value : in_range 64 v;
  call_answer : forall a, answer_of (state_number s) = Some a -> v = a;
  call_reg : forall reg, isa_reg s' reg = if decide (reg = Gpr.X 0) then v else isa_reg s reg;
  call_pc : isa_pc s' = isa_pc s + 4;
  call_nzcv : isa_nzcv s' = isa_nzcv s;
  call_mapped : forall x, isa_mem s' x = None <-> isa_mem s x = None;
  call_frame : forall x, ~ written_by (state_number s) (state_args s) x -> isa_mem s' x = isa_mem s x
}.

(** The number, the arguments and the answer of a call. *)
Definition syscall : Type := Z * Args * Z.

(** [s'] is reached from [s] in [n] instructions and by the [calls], in order. *)
Inductive process : isa_state -> nat -> list syscall -> isa_state -> Prop :=
| process_here (s : isa_state) : process s 0 [] s
| process_step (s s1 s' : isa_state) (n : nat) (calls : list syscall) :
    isa_step s = Continue s1 -> process s1 n calls s' -> process s (S n) calls s'
| process_call (s s1 s' : isa_state) (v : Z) (n : nat) (calls : list syscall) :
    call_returns s v s1 -> process s1 n calls s' ->
    process s n ((state_number s, state_args s, v) :: calls) s'.

Lemma process_app (s s1 s' : isa_state) (n n' : nat) (calls calls' : list syscall) :
  process s n calls s1 -> process s1 n' calls' s' -> process s (n + n') (calls ++ calls') s'.
Proof.
  intros Hp. revert n' calls'. induction Hp; intros n' calls' Hq; cbn [Nat.add app].
  - exact Hq.
  - eapply process_step; [eassumption |]. apply IHHp, Hq.
  - eapply process_call; [eassumption |]. apply IHHp, Hq.
Qed.

Lemma isa_run_process (n : nat) (s : isa_state) :
  let '(s', k, _) := isa_run n s in process s k [] s'.
Proof.
  revert s. induction n as [| n IH]; intros s; cbn [isa_run]; [apply process_here |].
  destruct (isa_step s) as [s1 | t1] eqn:E1; [| apply process_here].
  specialize (IH s1). destruct (isa_run n s1) as [[s' k] t]. eapply process_step; eassumption.
Qed.

(** ** The retired count stays a [u64] *)

Section Loop.

Context {H M S : Type} `{HostLaws H} `{MemoryLaws M} `{TotalSink S}.

Lemma run_icount (n : nat) (cpu : Cpu M S) (s : isa_state) :
  models cpu s -> in_range 64 (Cpu.icount cpu) ->
  returns (run n cpu) (fun p => in_range 64 (Cpu.icount p.1)).
Proof.
  revert cpu s. induction n as [| n IH]; intros cpu s Hm Hi; cbn [run]; [apply returns_ret, Hi |].
  eapply returns_bind; [apply step_simulates, Hm |]. intros [cpu' o]. unfold step_ok. cbn [fst snd].
  destruct (isa_step s) as [s1 | t], o as [u | t']; try contradiction.
  - intros (Hm' & E & _). apply (IH _ _ Hm'). rewrite E. apply wadd_range. lia.
  - intros (_ & _ & _ & _ & E & _). apply returns_ret. cbn [fst]. rewrite E. exact Hi.
Qed.

(** A run within its budget: the state, the count, and why it stopped. *)
Lemma run_within (n : nat) (cpu : Cpu M S) (s : isa_state) :
  models cpu s -> in_range 64 (Cpu.icount cpu) -> Cpu.icount cpu + Z.of_nat n < 2 ^ 64 ->
  returns (run n cpu) (fun p => let '(s', k, t) := isa_run n s in
    models p.1 s' /\ p.2 = stop_of t /\ Cpu.icount p.1 = Cpu.icount cpu + Z.of_nat k).
Proof.
  intros Hm Hi Hn. destruct (run_simulates n cpu s Hm) as (p & E & Hp).
  destruct (run_icount n cpu s Hm Hi) as (p' & E' & Hi'). rewrite E in E'. injection E' as <-.
  exists p. split; [exact E |]. pose proof (isa_run_count n s) as Hk.
  destruct (isa_run n s) as [[s' k] t]. destruct Hp as (Hm' & Hs & Hc), Hk as [Hk _].
  split; [exact Hm' |]. split; [exact Hs |]. unfold as_u64 in Hc.
  unfold in_range in *. rewrite !wrap_small in Hc; unfold in_range; lia.
Qed.

Lemma represents_memory (r : RegFile) (m m' : M) (s : isa_state) :
  represents r m s -> mem_ok m' ->
  represents r m' {| isa_reg := isa_reg s; isa_pc := isa_pc s; isa_nzcv := isa_nzcv s;
                     isa_mem := byte_at m' |}.
Proof. intros [Hr _ Hreg Hpc Hf _] Hm'. split; cbn; try assumption. reflexivity. Qed.

(** The call the registers hold is the state's. *)
Lemma state_call (cpu : Cpu M S) (s : isa_state) :
  models cpu s ->
  call_number (Cpu.regs cpu) = state_number s /\ call_args (Cpu.regs cpu) = state_args s.
Proof.
  intros [_ Hrep]. unfold call_number, call_args, state_number, state_args.
  rewrite !(rep_reg _ _ _ Hrep) by (cbn; unfold NUM_GPR; lia). split; reflexivity.
Qed.

(** A serviced call leaves a machine that models a state after the call. *)
Lemma serviced_models (cpu : Cpu M S) (s : isa_state) (shim' : Shim H) (cpu' : Cpu M S) :
  models cpu s -> isa_pc s + 4 < 2 ^ 64 -> at_call s ->
  serviced cpu (shim', cpu', None) ->
  exists v s', models (Cpu.set_regs cpu' (RegFile.set_pc (Cpu.regs cpu') (isa_pc s + 4))) s' /\
    call_returns s v s' /\ Cpu.icount cpu' = Cpu.icount cpu.
Proof.
  intros Hmodels Hpc Hat (_ & Hexit & v & regs & m & Hv & Ha & Hw & Ht & E). cbn [fst snd] in E. subst cpu'.
  destruct (state_call cpu s Hmodels) as [En Ea]. rewrite En, Ea in *. destruct Hmodels as [Hcpu Hrep].
  pose proof (represents_memory _ _ m _ Hrep (proj1 Ht)) as Hrep1.
  assert (gpr_ok (Gpr.X 0)) as Hx0 by (cbn; unfold NUM_GPR; lia).
  destruct (write_x_value (Cpu.regs cpu) (Gpr.X 0) v (rep_regfile _ _ _ Hrep) Hx0 Hv)
    as (regs' & Hw' & Hok & Hsame & Hval). rewrite Hw in Hw'. injection Hw' as <-.
  pose proof (represents_write _ _ _ _ _ _ Hrep1 Hok Hsame Hval) as Hrep2.
  assert (in_range 64 (isa_pc s + 4)) as Hr
    by (pose proof (rep_pc_range _ _ _ Hrep) as [? ?]; split; lia).
  pose proof (represents_jump _ _ _ _ Hrep2 Hr) as Hrep3.
  exists v. eexists. split; [split; [destruct Hcpu; split; assumption | exact Hrep3] |].
  split; [| reflexivity]. split; cbn; try assumption; try reflexivity.
  - intros x. rewrite (touched_mapped _ _ _ x Ht), (rep_mem _ _ _ Hrep). reflexivity.
  - intros x Hx. destruct (proj2 Ht x) as [-> | (Hin & _)]; [apply (rep_mem _ _ _ Hrep) | contradiction].
Qed.

(** How a run under the shim may end: in a state the process reaches. *)
Definition finished (cpu : Cpu M S) (s : isa_state) (deadline : Z) (p : Shim H * Cpu M S * ShimExit) :
    Prop :=
  let '(shim', cpu', exit) := p in
  shim_ok shim' /\ Cpu.icount cpu' <= deadline /\
  exists n calls s',
  process s n calls s' /\ models cpu' s' /\ Cpu.icount cpu' = Cpu.icount cpu + Z.of_nat n /\
  match exit with
  | ShimExit.BudgetExhausted => Cpu.icount cpu' = deadline
  | ShimExit.Trapped t => isa_step s' = Raise t /\ forall pc imm, t <> Trap.SupervisorCall pc imm
  | ShimExit.Exited status =>
      at_call s' /\ exits (state_number s') = true /\ status = as_i32 (Args.a0 (state_args s'))
  end.

Lemma finished_later (cpu cpu1 : Cpu M S) (s s1 : isa_state) (n : nat) (calls : list syscall)
    (deadline : Z) (p : Shim H * Cpu M S * ShimExit) :
  process s n calls s1 -> Cpu.icount cpu1 = Cpu.icount cpu + Z.of_nat n ->
  finished cpu1 s1 deadline p -> finished cpu s deadline p.
Proof.
  destruct p as [[shim' cpu'] e]. intros Hp Hi (Hs & Hc & n' & calls' & s' & Hp' & Hm & Hi' & He).
  split; [exact Hs |]. split; [exact Hc |]. exists (n + n')%nat, (calls ++ calls'), s'.
  split; [eapply process_app; eassumption |]. split; [exact Hm |]. split; [lia | exact He].
Qed.

(** What enough rounds of the loop return. *)
Definition loop_ends (shim : Shim H) (cpu : Cpu M S) (s : isa_state) (deadline : Z) : Prop :=
  exists fuel p, (forall k, shim.run_loop (fuel + k) shim cpu deadline = Done (Some p)) /\
    finished cpu s deadline p.

(** What follows the interpreter's return in a round. *)
Definition after_stop (resume : Shim H -> Cpu M S -> may_panic (option (Shim H * Cpu M S * ShimExit)))
    (shim : Shim H) (cpu : Cpu M S) (stop : Stop) :
    may_panic (option (Shim H * Cpu M S * ShimExit)) :=
  match stop with
  | Stop.BudgetExhausted => mret (Some (shim, cpu, ShimExit.BudgetExhausted))
  | Stop.Trapped (Trap.SupervisorCall pc _) =>
      '(shim, cpu, exited) ← shim.service shim cpu;
      match exited with
      | Some status => mret (Some (shim, cpu, ShimExit.Exited status))
      | None => resume shim
                  (Cpu.set_regs cpu (RegFile.set_pc (Cpu.regs cpu) (wadd 64 pc INSN_BYTES)))
      end
  | Stop.Trapped trap => mret (Some (shim, cpu, ShimExit.Trapped trap))
  end.

Lemma run_loop_round (fuel : nat) (shim : Shim H) (cpu cpu1 : Cpu M S) (deadline : Z) (stop : Stop) :
  Cpu.icount cpu < deadline ->
  run (Z.to_nat (wsub 64 deadline (Cpu.icount cpu))) cpu = Done (cpu1, stop) ->
  shim.run_loop (Datatypes.S fuel) shim cpu deadline =
  after_stop (fun shim cpu => shim.run_loop fuel shim cpu deadline) shim cpu1 stop.
Proof.
  intros Hlt Erun. cbn [shim.run_loop].
  destruct (Z.ltb_spec (Cpu.icount cpu) deadline); [| lia]. rewrite Erun. reflexivity.
Qed.

Lemma run_loop_over (fuel : nat) (shim : Shim H) (cpu : Cpu M S) (deadline : Z) :
  deadline <= Cpu.icount cpu ->
  shim.run_loop (Datatypes.S fuel) shim cpu deadline =
  Done (Some (shim, cpu, ShimExit.BudgetExhausted)).
Proof.
  intros Hge. cbn [shim.run_loop]. destruct (Z.ltb_spec (Cpu.icount cpu) deadline); [lia | reflexivity].
Qed.

(** A state from which the loop has to end for [round_ends] to go on. *)
Definition resumable (limit deadline : Z) (shim : Shim H) (cpu : Cpu M S) (s : isa_state) : Prop :=
  shim_ok shim /\ models cpu s /\ (forall x, limit <= x -> isa_mem s x = None) /\
  0 <= Cpu.icount cpu <= deadline.

(** What follows a stop returns, or resumes after the call. *)
Lemma after_stop_ends (shim : Shim H) (cpu : Cpu M S) (s : isa_state) (t : option Trap)
    (deadline limit : Z) :
  resumable limit deadline shim cpu s -> limit <= 2 ^ 64 - 4 ->
  (forall t', t = Some t' -> isa_step s = Raise t') -> (t = None -> Cpu.icount cpu = deadline) ->
  (exists p, finished cpu s deadline p /\
     forall resume, after_stop resume shim cpu (stop_of t) = Done (Some p)) \/
  (exists shim1 cpu1 v s1, resumable limit deadline shim1 cpu1 s1 /\
     Cpu.icount cpu1 = Cpu.icount cpu /\ call_returns s v s1 /\
     forall resume, after_stop resume shim cpu (stop_of t) = resume shim1 cpu1).
Proof.
  intros (Hs & Hm & Hb & Hi) Hl Ht Hd.
  assert (forall e, match e with
    | ShimExit.BudgetExhausted => Cpu.icount cpu = deadline
    | ShimExit.Trapped t => isa_step s = Raise t /\ forall pc imm, t <> Trap.SupervisorCall pc imm
    | ShimExit.Exited status =>
        at_call s /\ exits (state_number s) = true /\ status = as_i32 (Args.a0 (state_args s))
    end -> forall shim', shim_ok shim' -> finished cpu s deadline (shim', cpu, e)) as Hhere.
  { intros e He shim' Hs'. split; [exact Hs' |]. split; [lia |]. exists 0%nat, [], s.
    split; [apply process_here |]. split; [exact Hm |]. split; [lia | exact He]. }
  destruct t as [t |].
  2: { left. eexists. split; [apply (Hhere ShimExit.BudgetExhausted); [exact (Hd eq_refl) | exact Hs] | reflexivity]. }
  specialize (Ht t eq_refl).
  assert ((forall pc imm, t <> Trap.SupervisorCall pc imm) ->
    finished cpu s deadline (shim, cpu, ShimExit.Trapped t)) as Htrap
    by (intros Hne; apply (Hhere (ShimExit.Trapped t)); [split; assumption | exact Hs]).
  destruct t as [| pc imm | | |]; try (left; eexists; split; [apply Htrap; discriminate | reflexivity]).
  destruct (isa_step_svc _ _ _ Ht) as [-> [word Hword]]. pose proof Hm as [_ Hrep].
  assert (at_call s) as Hat by (exists imm; exact Ht).
  pose proof (rep_pc_range _ _ _ Hrep) as [Hpc0 _].
  assert (isa_pc s + 4 < 2 ^ 64) as Hpc.
  { destruct (Z.le_gt_cases limit (isa_pc s)) as [Hle |]; [| lia]. exfalso.
    cbn in Hword. rewrite (Hb (isa_pc s) Hle) in Hword. discriminate. }
  destruct (service_effect shim cpu limit Hs (rep_regfile _ _ _ Hrep) (rep_memory _ _ _ Hrep))
    as ([[shim1 cpu1] [status |]] & Eserv & Hserv); [| lia | |].
  { intros x Hx. rewrite (rep_mem _ _ _ Hrep). apply Hb, Hx. }
  - left. destruct Hserv as (Hs1 & Hnum & -> & Ecpu). cbn [fst snd] in *. subst cpu1.
    destruct (state_call cpu s Hm) as [En Ea]. rewrite En, Ea in *.
    exists (shim1, cpu, ShimExit.Exited (as_i32 (Args.a0 (state_args s)))).
    split; [| intros resume; cbn [stop_of after_stop]; rewrite Eserv; reflexivity].
    apply Hhere; [| exact Hs1]. split; [exact Hat |]. split; [exact Hnum | reflexivity].
  - right. destruct (serviced_models cpu s shim1 cpu1 Hm Hpc Hat Hserv) as (v & s1 & Hm1 & Hcall & Ei).
    exists shim1, (Cpu.set_regs cpu1 (RegFile.set_pc (Cpu.regs cpu1) (isa_pc s + 4))), v, s1.
    split; [| split; [exact Ei |]; split; [exact Hcall |]].
    + split; [apply Hserv |]. split; [exact Hm1 |].
      split; [intros x Hx; apply (call_mapped _ _ _ Hcall), Hb, Hx | cbn; rewrite Ei; exact Hi].
    + intros resume. cbn [stop_of after_stop]. rewrite Eserv. cbn [mbind may_panic_bind].
      unfold wadd, INSN_BYTES. rewrite wrap_small by (split; lia). reflexivity.
Qed.

(** One round returns, or goes on from a state further on in the count or, at
    the same count, in PC. *)
Lemma round_ends (shim : Shim H) (cpu : Cpu M S) (s : isa_state) (deadline limit : Z) :
  resumable limit deadline shim cpu s -> limit <= 2 ^ 64 - 4 -> deadline < 2 ^ 64 ->
  (forall shim1 cpu1 s1, resumable limit deadline shim1 cpu1 s1 ->
     Cpu.icount cpu < Cpu.icount cpu1 \/
     (Cpu.icount cpu1 = Cpu.icount cpu /\ isa_pc s < isa_pc s1) ->
     loop_ends shim1 cpu1 s1 deadline) ->
  loop_ends shim cpu s deadline.
Proof.
  intros (Hs & Hm & Hb & Hi) Hl Hd Hnext.
  destruct (Z.ltb_spec (Cpu.icount cpu) deadline) as [Hlt | Hge].
  2: { exists 1%nat, (shim, cpu, ShimExit.BudgetExhausted).
       split; [intros k; apply run_loop_over, Hge |].
       split; [exact Hs |]. split; [lia |]. exists 0%nat, [], s.
       split; [apply process_here |]. split; [exact Hm | lia]. }
  remember (Z.to_nat (wsub 64 deadline (Cpu.icount cpu))) as n eqn:En.
  assert (Z.of_nat n = deadline - Cpu.icount cpu) as Hn.
  { subst n. unfold wsub. rewrite wrap_small by (split; lia). lia. }
  destruct (run_within n cpu s Hm) as ([cpu1 stop] & Erun & Hend); [split; lia | lia |].
  pose proof (isa_run_end n s) as Hisa. pose proof (isa_run_count n s) as Hcount.
  pose proof (isa_run_process n s) as Hprocess.
  destruct (isa_run n s) as [[s1 k] t].
  destruct Hend as (Hm1 & Hstop & Hk), Hisa as (Hmem1 & Htrap & Hzero), Hcount as [Hkn Hnone].
  cbn [fst snd] in Hm1, Hstop, Hk. subst stop.
  assert (forall fuel, shim.run_loop (Datatypes.S fuel) shim cpu deadline =
    after_stop (fun shim cpu => shim.run_loop fuel shim cpu deadline) shim cpu1 (stop_of t)) as Hround
    by (intros fuel; apply run_loop_round; [exact Hlt | subst n; exact Erun]).
  destruct (after_stop_ends shim cpu1 s1 t deadline limit) as
    [(p & Hp & Hafter) | (shim2 & cpu2 & v & s2 & Hres & Ei & Hcall & Hafter)].
  - split; [exact Hs |]. split; [exact Hm1 |]. split; [intros x Hx; apply Hmem1, Hb, Hx | lia].
  - exact Hl.
  - exact Htrap.
  - intros Hnt. apply Hnone in Hnt. lia.
  - exists 1%nat, p. split; [| exact (finished_later _ _ _ _ _ _ _ _ Hprocess Hk Hp)].
    intros j. cbn [Nat.add]. rewrite Hround. apply Hafter.
  - pose proof (call_pc _ _ _ Hcall) as Epc. destruct (Hnext shim2 cpu2 s2 Hres) as (fuel & p & Hfuel & Hp).
    { destruct k as [| k]; [right | left; lia]. rewrite Hzero in Epc by reflexivity. lia. }
    exists (Datatypes.S fuel), p. split; [intros j; cbn [Nat.add]; rewrite Hround, Hafter; apply Hfuel |].
    apply (finished_later cpu cpu2 s s2 k [(state_number s1, state_args s1, v)]); [| lia | exact Hp].
    rewrite <- (Nat.add_0_r k). apply (process_app s s1 s2 k 0 [] _ Hprocess).
    eapply process_call; [exact Hcall | apply process_here].
Qed.

(** More rounds give the same result. *)
Lemma run_loop_more (fuel k : nat) (shim : Shim H) (cpu : Cpu M S) (deadline : Z) p :
  shim.run_loop fuel shim cpu deadline = Done (Some p) ->
  shim.run_loop (fuel + k) shim cpu deadline = Done (Some p).
Proof.
  revert shim cpu. induction fuel as [| fuel IH]; intros shim cpu; [discriminate |].
  cbn [shim.run_loop Nat.add]. destruct (_ <? deadline); [| exact id].
  destruct (run _ cpu) as [[cpu1 [| [| pc imm | | |]]] |]; try exact id. cbn [mbind may_panic_bind].
  destruct (shim.service shim cpu1) as [[[shim2 cpu2] [status |]] |]; try exact id. apply IH.
Qed.

(** Induction on the retirements left and, within them, on the addresses left. *)
Lemma run_loop_ends (limit deadline : Z) :
  limit <= 2 ^ 64 - 4 -> deadline < 2 ^ 64 ->
  forall (r d : nat) (shim : Shim H) (cpu : Cpu M S) (s : isa_state),
    resumable limit deadline shim cpu s ->
    deadline - Cpu.icount cpu <= Z.of_nat r -> 2 ^ 64 - isa_pc s <= Z.of_nat d ->
    loop_ends shim cpu s deadline.
Proof.
  intros Hl Hd. induction r as [r IHr] using lt_wf_ind. induction d as [d IHd] using lt_wf_ind.
  intros shim cpu s Hres Hr Hpc. eapply round_ends; [eassumption.. |].
  intros shim1 cpu1 s1 Hres1 Hprogress.
  pose proof (rep_pc_range _ _ _ (proj2 (proj1 (proj2 Hres)))) as [_ Hpc_max].
  pose proof (rep_pc_range _ _ _ (proj2 (proj1 (proj2 Hres1)))) as [_ Hpc1_max].
  destruct Hprogress as [Hmore | [Ei Hfurther]].
  - pose proof (proj2 (proj2 (proj2 Hres1))).
    apply (IHr (Z.to_nat (deadline - Cpu.icount cpu1)) ltac:(lia) (Z.to_nat (2 ^ 64 - isa_pc s1)) _ _ s1);
      [exact Hres1 | lia | lia].
  - apply (IHd (Z.to_nat (2 ^ 64 - isa_pc s1)) ltac:(lia) _ _ s1); [exact Hres1 | lia | lia].
Qed.

End Loop.
