(* ===== verification/ShimTheorems.v ===== *)
(** What the syscall shim promises ([crates/core/src/shim/]). *)

From stdpp Require Import base numbers list option.
From S2P Require Import Prelude Reg Pstate RegFile Instruction Decode Flags Fetch GuestMemory.
From S2P Require Import Memory Trap Cache TraceSink Cpu Interp Isa Refine Run ShimHost MemoryMap.
From S2P Require Import Shim ShimDispatch ShimEffects ShimRun ShimService ShimLoop.

#[local] Open Scope Z_scope.

(** ** A guest *)

(** Four [SVC #0] at 0x1000, and their data after them: an array of two vectors
    at 0x1010, the first naming the two bytes at 0x1030. *)
Definition guest_bytes : list Z :=
  concat (to_le_bytes 4 <$> replicate 4 0xD4000001) ++
  to_le_bytes 8 0x1030 ++ to_le_bytes 8 2 ++ to_le_bytes 8 0x1032 ++ to_le_bytes 8 3 ++
  [72; 105; 46; 46; 10] ++ replicate 11 0.

Definition guest_memory : FlatMemory := FlatMemory.mk 0x1000 guest_bytes.

(** The guest about to make call [number]. *)
Definition guest_cpu (number a0 a1 a2 : Z) : Cpu FlatMemory NullSink :=
  let cpu := Cpu.with_sink guest_memory NullSink.mk in
  Cpu.set_regs cpu
    (RegFile.set_pc (RegFile.with_x (Cpu.regs cpu)
       ([a0; a1; a2; 0; 0; 0; 0; 0; number] ++ replicate 22 0)) 0x1000).

Definition guest_shim : Shim CapturingHost :=
  Shim.new CapturingHost.new (default_layout 0x40000000 0x100000).

Lemma guest_memory_ok : mem_ok guest_memory.
Proof.
  split; [cbn; split; lia |]. split; [| vm_compute; reflexivity].
  let l := eval vm_compute in guest_bytes in change (Forall is_byte l).
  repeat (constructor; [unfold is_byte; lia |]). constructor.
Qed.

Lemma guest_memory_below : mapped_below 0x1040 guest_memory.
Proof.
  intros x Hx. cbn. unfold flat_byte_at. destruct (x <? _); [reflexivity |].
  apply lookup_ge_None. change (length (FlatMemory.bytes guest_memory)) with 64%nat. cbn. lia.
Qed.

Lemma guest_shim_ok : shim_ok guest_shim.
Proof. apply shim_new_ok; [exact I |]. apply default_layout_ok; lia. Qed.

Lemma guest_regs_ok (number a0 a1 a2 : Z) :
  in_range 64 number -> in_range 64 a0 -> in_range 64 a1 -> in_range 64 a2 ->
  regfile_ok (Cpu.regs (guest_cpu number a0 a1 a2)).
Proof.
  intros Hn H0 H1 H2. destruct regfile_new_ok.
  split; cbn; try assumption; try reflexivity; [| split; lia].
  repeat (constructor; [first [assumption | split; lia] |]). constructor.
Qed.

Definition guest_state (number a0 a1 a2 : Z) : isa_state :=
  {| isa_reg := reg_value (Cpu.regs (guest_cpu number a0 a1 a2)); isa_pc := 0x1000;
     isa_nzcv := Nzcv.mk false false false false; isa_mem := byte_at guest_memory |}.

Lemma guest_models (number a0 a1 a2 : Z) :
  in_range 64 number -> in_range 64 a0 -> in_range 64 a1 -> in_range 64 a2 ->
  models (guest_cpu number a0 a1 a2) (guest_state number a0 a1 a2).
Proof.
  intros. split.
  - split; cbn; [apply cache_new_ok | apply log_new_ok | apply buffer_new_ok | discriminate].
  - split; cbn; try reflexivity; [apply guest_regs_ok; assumption | apply guest_memory_ok].
Qed.

(** ** The theorems *)

Lemma shim_loop_ends {H M S} `{HostLaws H} `{MemoryLaws M} `{TotalSink S} (shim : Shim H)
    (cpu : Cpu M S) (s : isa_state) (limit budget : Z) :
  shim_ok shim -> models cpu s -> mapped_below limit (Cpu.memory cpu) -> limit <= 2 ^ 64 - 4 ->
  in_range 64 (Cpu.icount cpu) -> in_range 64 budget ->
  loop_ends shim cpu s (saturating_add64 (Cpu.icount cpu) budget).
Proof.
  intros Hs Hm Hb Hl Hi Hbudget. unfold saturating_add64, in_range in *.
  set (deadline := Z.min (Cpu.icount cpu + budget) (2 ^ 64 - 1)).
  assert (exists r d : nat, deadline - Cpu.icount cpu <= Z.of_nat r /\ 2 ^ 64 - isa_pc s <= Z.of_nat d)
    as (r & d & Hr & Hd).
  { exists (Z.to_nat (deadline - Cpu.icount cpu)), (Z.to_nat (2 ^ 64 - isa_pc s)). lia. }
  assert (deadline < 2 ^ 64) as Hdl by lia.
  refine (run_loop_ends limit deadline Hl Hdl r d shim cpu s _ Hr Hd).
  split; [exact Hs |]. split; [exact Hm |]. split; [| lia].
  intros x Hx. rewrite <- (rep_mem _ _ _ (proj2 Hm)). apply Hb, Hx.
Qed.

(** Two numbers of rounds that return agree. *)
Lemma run_loop_unique {H M S} `{HostIo H} `{Memory M} `{TraceSink S} (f g : nat) (shim : Shim H)
    (cpu : Cpu M S) (deadline : Z) p q :
  shim.run_loop f shim cpu deadline = Done (Some p) ->
  shim.run_loop g shim cpu deadline = Done (Some q) -> p = q.
Proof.
  intros Hp%(run_loop_more _ g) Hq%(run_loop_more _ f). rewrite Nat.add_comm in Hq. congruence.
Qed.

(** C24: the shim returns control.  A run under a well-formed shim, from a vCPU
    that models an architectural state and whose memory ends at least four bytes
    below the top of the address space, returns for every budget and does not
    panic: enough rounds of the loop give a result, more give the same, and none
    gives another. *)
Theorem shim_run_ends {H M S} `{HostLaws H} `{MemoryLaws M} `{TotalSink S} (shim : Shim H)
    (cpu : Cpu M S) (s : isa_state) (limit budget : Z) :
  shim_ok shim -> models cpu s -> mapped_below limit (Cpu.memory cpu) -> limit <= 2 ^ 64 - 4 ->
  in_range 64 (Cpu.icount cpu) -> in_range 64 budget ->
  exists fuel p, (forall k, shim.run (fuel + k) shim cpu budget = Done (Some p)) /\
    forall f q, shim.run f shim cpu budget = Done (Some q) -> q = p.
Proof.
  intros Hs Hm Hb Hl Hi Hbudget.
  destruct (shim_loop_ends shim cpu s limit budget Hs Hm Hb Hl Hi Hbudget) as (fuel & p & Hp & _).
  exists fuel, p. split; [exact Hp |]. intros f q Hq. exact (run_loop_unique _ _ _ _ _ _ _ Hq (Hp O)).
Qed.

Lemma shim_run_ends_witness :
  exists fuel p,
    (forall k, shim.run (fuel + k) guest_shim (guest_cpu number.EXIT 7 0 0) 5 = Done (Some p)) /\
    forall f q, shim.run f guest_shim (guest_cpu number.EXIT 7 0 0) 5 = Done (Some q) -> q = p.
Proof.
  apply (shim_run_ends guest_shim (guest_cpu number.EXIT 7 0 0) (guest_state number.EXIT 7 0 0)
           0x1040 5).
  - exact guest_shim_ok.
  - apply guest_models; split; vm_compute; congruence.
  - exact guest_memory_below.
  - lia.
  - split; vm_compute; congruence.
  - split; lia.
Defined.

(** C23: the shim and the interpreter together refine a process.  Whatever a run
    returns, its vCPU models a state that the process reaches from the one it
    began in: by [n] steps of the architecture, and a list of calls, each from a
    supervisor call that is not an exit, putting a [u64] in X0 (the fixed answer of
    the calls that have one), changing mapped bytes that its arguments name and
    nothing else, and going on after the instruction.  The retired count has
    advanced by [n], within the deadline, and the exit tells the truth: the
    status of an exiting call the state is at, a trap the architecture raises
    there that is no supervisor call, or a budget used up to the last
    instruction. *)
Theorem shim_run_refines_process {H M S} `{HostLaws H} `{MemoryLaws M} `{TotalSink S} (shim : Shim H)
    (cpu : Cpu M S) (s : isa_state) (limit budget : Z) (fuel : nat) p :
  shim_ok shim -> models cpu s -> mapped_below limit (Cpu.memory cpu) -> limit <= 2 ^ 64 - 4 ->
  in_range 64 (Cpu.icount cpu) -> in_range 64 budget ->
  shim.run fuel shim cpu budget = Done (Some p) ->
  finished cpu s (saturating_add64 (Cpu.icount cpu) budget) p.
Proof.
  intros Hs Hm Hb Hl Hi Hbudget Hrun.
  destruct (shim_loop_ends shim cpu s limit budget Hs Hm Hb Hl Hi Hbudget) as (fuel' & q & Hq & Hf).
  assert (p = q) as -> by exact (run_loop_unique _ _ _ _ _ _ _ Hrun (Hq O)). exact Hf.
Qed.

(** Four calls of [getpid], and the undefined instruction after them. *)
Definition getpid_cpu : Cpu FlatMemory NullSink := guest_cpu number.GETPID 0 0 0.

Definition getpid_run : option (Shim CapturingHost * Cpu FlatMemory NullSink * ShimExit) :=
  match shim.run 10 guest_shim getpid_cpu 5 with Done o => o | Panic => None end.

Lemma shim_run_refines_process_witness :
  match getpid_run with
  | Some p => p.2 = ShimExit.Trapped (Trap.UndefinedInstruction 0x1010 0x1030) /\
      finished getpid_cpu (guest_state number.GETPID 0 0 0) 5 p
  | None => False
  end.
Proof.
  assert (forall p, getpid_run = Some p -> finished getpid_cpu (guest_state number.GETPID 0 0 0) 5 p) as Hp.
  { intros p Hp. apply (shim_run_refines_process guest_shim getpid_cpu (guest_state number.GETPID 0 0 0)
      0x1040 5 10 p).
    - exact guest_shim_ok.
    - apply guest_models; split; vm_compute; congruence.
    - exact guest_memory_below.
    - lia.
    - split; vm_compute; congruence.
    - split; lia.
    - unfold getpid_run in Hp. destruct (shim.run _ _ _ _) as [o |]; [rewrite Hp; reflexivity | discriminate]. }
  assert (snd <$> getpid_run = Some (ShimExit.Trapped (Trap.UndefinedInstruction 0x1010 0x1030)))
    as Hexit by (vm_compute; reflexivity).
  destruct getpid_run as [p |]; [| discriminate Hexit].
  split; [injection Hexit; auto | apply Hp; reflexivity].
Defined.

(** C25: a call changes what it names.  On a well-formed shim and machine,
    servicing a supervisor call never panics.  An exit leaves the machine as it is
    and answers the low half of X0; any other call puts a [u64] in X0, the
    fixed answer of the calls that have one ([answer_of]), and may change mapped
    bytes of the buffer its arguments name ([written_by]); the other registers, PC, the flags, the retired count, the trap log, the cache and the
    trace state are untouched, and nothing is mapped or unmapped. *)
Theorem service_frame {H M S} `{HostLaws H} `{MemoryLaws M} (shim : Shim H) (cpu : Cpu M S)
    (limit : Z) :
  shim_ok shim -> regfile_ok (Cpu.regs cpu) -> mem_ok (Cpu.memory cpu) ->
  mapped_below limit (Cpu.memory cpu) -> limit < 2 ^ 64 ->
  returns (shim.service shim cpu) (fun p =>
    shim_ok p.1.1 /\
    match p.2 with
    | Some status => p.1.2 = cpu /\ status = as_i32 (reg_value (Cpu.regs cpu) (Gpr.X 0))
    | None => exists v regs m,
        in_range 64 v /\ (forall a, answer_of (call_number (Cpu.regs cpu)) = Some a -> v = a) /\
        RegFile.write_x (Cpu.regs cpu) (Gpr.X 0) v = Done regs /\
        p.1.2 = Cpu.set_regs (Cpu.set_memory cpu m) regs /\
        forall x, (byte_at m x = None <-> byte_at (Cpu.memory cpu) x = None) /\
          (~ written_by (call_number (Cpu.regs cpu)) (call_args (Cpu.regs cpu)) x ->
           byte_at m x = byte_at (Cpu.memory cpu) x)
    end).
Proof.
  intros Hs Hr Hm Hb Hl. eapply returns_mono; [eapply service_effect; eassumption |].
  intros [[shim1 cpu1] [status |]] [Hs1 Hp]; cbn [fst snd] in *; (split; [exact Hs1 |]).
  - destruct Hp as (_ & -> & ->). split; reflexivity.
  - destruct Hp as (_ & v & regs & m & Hv & Ha & Hw & Ht & ->). exists v, regs, m.
    split; [exact Hv |]. split; [exact Ha |]. split; [exact Hw |]. split; [reflexivity |]. intros x.
    split; [exact (touched_mapped _ _ _ x Ht) |].
    intros Hx. destruct (proj2 Ht x) as [E | (Hin & _)]; [exact E | contradiction].
Qed.

Lemma service_frame_witness :
  let cpu := guest_cpu number.GETPID 0 0 0 in
  returns (shim.service guest_shim cpu) (fun p => shim_ok p.1.1).
Proof.
  eapply returns_mono.
  - apply (service_frame guest_shim (guest_cpu number.GETPID 0 0 0) 0x1040).
    + exact guest_shim_ok.
    + apply guest_regs_ok; split; vm_compute; congruence.
    + exact guest_memory_ok.
    + exact guest_memory_below.
    + lia.
  - intros p Hp. apply Hp.
Defined.

(** C26: the arena.  Over an ordered layout, any sequence of [brk] and [mmap]
    requests of [u64]s is answered as follows: a mapping lies in the mmap window, is
    as long as was asked for, disjoint from every other one, and at a whole number of
    pages from the start of the window; the break stays in the heap window, which no
    mapping reaches. *)
Theorem arena_regions (l : ArenaLayout) (requests : list request) :
  layout_ok l -> Forall request_ok requests ->
  let '(m, answers) := serve_all (MemoryMap.new l) requests in
  length answers = length requests /\
  ArenaLayout.heap_base l <= MemoryMap.brk m <= ArenaLayout.heap_limit l /\
  forall i base n, answers !! i = Some (Mapped base n) ->
    0 < n /\ ArenaLayout.heap_limit l <= base /\
    ArenaLayout.mmap_base l <= base /\ base + n <= ArenaLayout.mmap_limit l /\
    (base - ArenaLayout.mmap_base l) mod guest_memory.PAGE_SIZE = 0 /\
    forall j base' n', (i < j)%nat -> answers !! j = Some (Mapped base' n') -> base + n <= base'.
Proof.
  intros Hl Hr. pose proof (serve_all_ok (MemoryMap.new l) requests (map_new_ok l Hl) Hr) as Hs.
  destruct (serve_all _ _) as [m answers]. cbn [fst snd] in Hs.
  destruct Hs as ([_ Hbrk _] & Elayout & Hlen & Hmapped). cbn in Elayout. rewrite Elayout in Hbrk.
  split; [exact Hlen |]. split; [exact Hbrk |]. intros i base n Hi.
  destruct (Hmapped i base n Hi) as (Hb & Hn & Hlim & Hpage & Hlater). cbn in Hb, Hpage, Hlim.
  pose proof (layout_apart _ Hl). split; [exact Hn |]. split; [lia |]. auto.
Qed.

Lemma arena_regions_witness :
  let answers := (serve_all (MemoryMap.new (default_layout 0x40000000 0x100000))
                    [Map 1; Brk 0x40050000; Map 5000]).2 in
  answers = [Mapped 0x40080000 1; Break 0x40050000; Mapped 0x40081000 5000] /\
  0x40080000 + 1 <= 0x40081000.
Proof.
  pose proof (arena_regions (default_layout 0x40000000 0x100000) [Map 1; Brk 0x40050000; Map 5000])
    as H.
  destruct H as (_ & _ & H).
  - apply default_layout_ok; lia.
  - repeat constructor; cbn; lia.
  - split; [reflexivity |].
    destruct (H 0%nat 0x40080000 1 eq_refl) as (_ & _ & _ & _ & _ & Hlater).
    exact (Hlater 2%nat 0x40081000 5000 ltac:(lia) eq_refl).
Defined.

(** C27: [writev] gathers.  When the data of the first [n] vectors of the array is
    mapped and no vector is longer than a transfer, [writev] to the capturing host's
    standard output appends exactly those bytes in order; with [iovcnt = n] it
    returns their number, and when a further vector cannot be read it returns
    [EFAULT], although the bytes before it were written. *)
Theorem writev_gathers {M S} `{MemoryLaws M} (shim : Shim CapturingHost) (cpu : Cpu M S)
    (args : Args) (n : nat) (data : list Z) :
  mem_ok (Cpu.memory cpu) -> as_i32 (Args.a0 args) = 1 ->
  gather (byte_at (Cpu.memory cpu)) (Args.a1 args) 0 n = Some data ->
  (Args.a2 args = Z.of_nat n ->
   dispatch.writev shim cpu args =
   Done (shim_captured shim data, cpu, Ok (as_u64 (Z.of_nat (length data))))) /\
  (Z.of_nat n < Args.a2 args ->
   vector_at (byte_at (Cpu.memory cpu)) (Args.a1 args) (Z.of_nat n) = None ->
   dispatch.writev shim cpu args = Done (shim_captured shim data, cpu, Err Errno.Fault)).
Proof.
  intros Hm Hfd Hg. unfold dispatch.writev.
  assert (forall k, Z.to_nat (Args.a2 args) = (n + k)%nat ->
    dispatch.writev_from shim cpu args (Z.to_nat (Args.a2 args)) 0 0 =
    dispatch.writev_from (shim_captured shim data) cpu args k (Z.of_nat n)
      (as_u64 (Z.of_nat (length data)))) as Hprefix.
  { intros k ->. exact (writev_prefix args cpu n k 0 0 shim data Hm Hfd Hg). }
  split; [intros Hn | intros Hn Hv].
  - rewrite (Hprefix 0%nat) by lia. reflexivity.
  - rewrite (Hprefix (Z.to_nat (Args.a2 args) - n)%nat) by lia.
    destruct (Z.to_nat (Args.a2 args) - n)%nat eqn:E; [lia |].
    cbn [dispatch.writev_from]. rewrite read_iovec_value, Hv by exact Hm. reflexivity.
Qed.

Lemma writev_gathers_witness :
  let cpu := guest_cpu number.WRITEV 1 0x1010 2 in
  dispatch.writev guest_shim cpu (Args.mk 1 0x1010 2 0 0 0) =
  Done (shim_captured guest_shim [72; 105; 46; 46; 10], cpu, Ok 5).
Proof.
  apply (writev_gathers guest_shim (guest_cpu number.WRITEV 1 0x1010 2)
           (Args.mk 1 0x1010 2 0 0 0) 2 [72; 105; 46; 46; 10]);
    [exact guest_memory_ok | reflexivity | reflexivity | reflexivity].
Defined.

(** A path ends at its NUL.  For bytes that are not NUL at successive
    addresses (which wrap at [2^64]), [read_c_string] returns exactly them when fewer
    than 4096 of them are followed by a NUL, [EFAULT] when they are followed by an
    unmapped byte, and [EINVAL] when there are 4096. *)
Theorem read_c_string_spec {M} `{MemoryLaws M} (m : M) (a : Z) (path : list Z) :
  mem_ok m -> Forall (fun b => 0 < b < 256) path ->
  (forall i, (i < length path)%nat -> byte_at m (as_u64 (a + Z.of_nat i)) = path !! i) ->
  let next := byte_at m (as_u64 (a + Z.of_nat (length path))) in
  (Z.of_nat (length path) < 4096 -> next = Some 0 ->
   dispatch.read_c_string m a = Done (Ok path)) /\
  (Z.of_nat (length path) < 4096 -> next = None ->
   dispatch.read_c_string m a = Done (Err Errno.Fault)) /\
  (Z.of_nat (length path) = 4096 -> dispatch.read_c_string m a = Done (Err Errno.Inval)).
Proof.
  intros Hm Hpath Hat next. unfold dispatch.read_c_string.
  assert (forall k, Z.to_nat dispatch.MAX_PATH = (length path + k)%nat ->
    dispatch.read_c_string_from m a (Z.to_nat dispatch.MAX_PATH) 0 [] =
    dispatch.read_c_string_from m a k (Z.of_nat (length path)) path) as Hprefix.
  { intros k ->. exact (read_c_string_prefix m a path [] k 0 Hm Hpath Hat). }
  assert (Z.to_nat dispatch.MAX_PATH = 4096%nat) as Emax by reflexivity. rewrite Emax in *.
  assert (forall b, next = b -> Z.of_nat (length path) < 4096 ->
    dispatch.read_c_string_from m a 4096 0 [] =
    match b with
    | Some b =>
        if as_u8 b =? 0 then Done (Ok path)
        else dispatch.read_c_string_from m a (4095 - length path) (Z.of_nat (length path) + 1)
               (path ++ [as_u8 b])
    | None => Done (Err Errno.Fault)
    end) as Hnext.
  { intros b Hb Hlt. rewrite (Hprefix (Datatypes.S (4095 - length path))) by lia.
    cbn [dispatch.read_c_string_from]. rewrite read_path_byte by exact Hm.
    unfold path_byte. fold next. rewrite Hb. destruct b; reflexivity. }
  split; [| split].
  - intros Hlt Hb. rewrite (Hnext _ Hb Hlt). reflexivity.
  - intros Hlt Hb. exact (Hnext _ Hb Hlt).
  - intros Hlen. rewrite (Hprefix 0%nat) by lia. reflexivity.
Qed.

Lemma read_c_string_spec_witness :
  dispatch.read_c_string guest_memory 0x1030 = Done (Ok [72; 105; 46; 46; 10]).
Proof.
  apply (read_c_string_spec guest_memory 0x1030 [72; 105; 46; 46; 10]).
  - exact guest_memory_ok.
  - repeat (constructor; [lia |]). constructor.
  - intros i Hi. do 5 (destruct i as [| i]; [reflexivity |]). cbn in Hi. lia.
  - cbn. lia.
  - reflexivity.
Defined.

(** What the shim stored is read back, field by field. *)
Lemma read_field {M} `{MemoryLaws M} (m m' : M) (a limit k w x : Z) (bs : list Z) :
  stored m a bs m' -> mapped_below limit m -> limit < 2 ^ 64 -> in_range 64 a -> bs <> [] ->
  0 <= k -> width_ok w -> k + w <= Z.of_nat (length bs) ->
  take (Z.to_nat w) (drop (Z.to_nat k) bs) = to_le_bytes (Z.to_nat w) x ->
  in_range (8 * w) x ->
  read_uint m' (a + k) w = Done (Ok x).
Proof.
  intros Hs Hb Hl Ha Hne Hk Hw Hlen Hfield Hx. unfold width_ok, in_range in *.
  pose proof (stored_below _ _ _ _ _ Hs Hb Hne).
  rewrite (stored_read m m' a k w bs Hs Hk Hw Hlen) by (split; lia).
  rewrite Hfield, from_to_le_bytes, Z2Nat.id, pow_256 by lia. rewrite Z.mod_small by lia. reflexivity.
Qed.

Lemma stored_frame {M} `{MemoryLaws M} (m m' : M) (a n : Z) (bs : list Z) (x : Z) :
  stored m a bs m' -> Z.of_nat (length bs) = n -> ~ range a n x -> byte_at m' x = byte_at m x.
Proof.
  intros Hs <- Hx. destruct (proj2 (stored_touched _ _ _ _ Hs) x) as [E | (Hin & _)];
    [exact E | contradiction].
Qed.

(** The structures are laid out as Linux reads them.  A [struct stat] that was
    written holds the mode at offset 16, the size at 48, the block size 4096 at 56 and
    the number of 512-byte blocks, rounded up, at 64; a [struct timespec] holds
    seconds at 0 and nanoseconds below [10^9] at 8, which make up the reading; and
    every byte outside either structure is as it was. *)
Theorem structures_layout {M} `{MemoryLaws M} (m : M) (a limit size nanos : Z) (terminal : bool) :
  mem_ok m -> in_range 64 a -> mapped_below limit m -> limit < 2 ^ 64 ->
  in_range 64 size -> in_range 64 nanos ->
  returns (structs.write_stat m a (terminal, size)) (fun p => p.2 = Ok tt ->
    read_uint p.1 (a + 16) 4 = Done (Ok (if terminal then 0x21B6 else 0x81A4)) /\
    read_uint p.1 (a + 48) 8 = Done (Ok size) /\
    read_uint p.1 (a + 56) 4 = Done (Ok 4096) /\
    read_uint p.1 (a + 64) 8 = Done (Ok ((size + 511) / 512)) /\
    forall x, ~ range a 128 x -> byte_at p.1 x = byte_at m x) /\
  returns (structs.write_timespec m a nanos) (fun p => p.2 = Ok 0 ->
    exists secs frac, read_uint p.1 a 8 = Done (Ok secs) /\ read_uint p.1 (a + 8) 8 = Done (Ok frac) /\
      secs * 10 ^ 9 + frac = nanos /\ 0 <= frac < 10 ^ 9 /\
      forall x, ~ range a 16 x -> byte_at p.1 x = byte_at m x).
Proof.
  intros Hm Ha Hb Hl Hsize Hnanos. unfold in_range in Hsize, Hnanos.
  assert (div_ceil size 512 = (size + 511) / 512) as Hblocks.
  { unfold div_ceil. destruct (Z.eqb_spec (size mod 512) 0); Z.to_euclidean_division_equations; lia. }
  split.
  - eapply returns_mono; [apply write_stat_effect; assumption |].
    intros [m' o] Hs Ho. cbn [fst snd] in *. subst o. cbn in Hs.
    repeat split; try (eapply read_field; [exact Hs | exact Hb | exact Hl | exact Ha | discriminate | lia
      | unfold width_ok; lia | cbn; lia | reflexivity | ]).
    + unfold in_range. destruct terminal; cbn; lia.
    + unfold in_range. cbn. lia.
    + unfold in_range. cbn. lia.
    + rewrite <- Hblocks. eapply read_field; [exact Hs | exact Hb | exact Hl | exact Ha | discriminate
        | lia | unfold width_ok; lia | cbn; lia | reflexivity |].
      rewrite Hblocks. split; [apply Z.div_pos; lia | apply Z.div_lt_upper_bound; lia].
    + intros x. apply (stored_frame _ _ _ 128 _ _ Hs). reflexivity.
  - eapply returns_mono; [eapply write_timespec_effect; eassumption |].
    intros [m' o] [_ Hs] Ho. cbn [fst snd] in *. subst o. destruct Hs as [_ Hs].
    exists (nanos / 1000000000), (nanos mod 1000000000).
    pose proof (Z.div_mod nanos 1000000000 ltac:(lia)). pose proof (Z.mod_pos_bound nanos 1000000000 ltac:(lia)).
    assert (nanos / 1000000000 < 2 ^ 64) by (apply Z.div_lt_upper_bound; lia).
    assert (0 <= nanos / 1000000000) by (apply Z.div_pos; lia).
    split; [| split; [| split; [lia | split; [lia |]]]].
    + replace a with (a + 0) at 1 by lia.
      eapply read_field; [exact Hs | exact Hb | exact Hl | exact Ha | discriminate | lia
        | unfold width_ok; lia | cbn; lia | reflexivity | split; cbn; lia].
    + eapply read_field; [exact Hs | exact Hb | exact Hl | exact Ha | discriminate | lia
        | unfold width_ok; lia | cbn; lia | reflexivity | split; cbn; lia].
    + intros x. apply (stored_frame _ _ _ 16 _ _ Hs). reflexivity.
Qed.

Lemma structures_layout_witness :
  returns (structs.write_timespec guest_memory 0x1010 5000000007) (fun p => p.2 = Ok 0 /\
    exists secs frac, read_uint p.1 0x1010 8 = Done (Ok secs) /\
      read_uint p.1 0x1018 8 = Done (Ok frac) /\ secs * 10 ^ 9 + frac = 5000000007).
Proof.
  destruct (structures_layout guest_memory 0x1010 0x1040 0 5000000007 true) as [_ (p & E & Hp)].
  - exact guest_memory_ok.
  - split; lia.
  - exact guest_memory_below.
  - lia.
  - split; lia.
  - split; lia.
  - exists p. split; [exact E |]. assert (p.2 = Ok 0) as Ho.
    { vm_compute in E. injection E as <-. reflexivity. }
    split; [exact Ho |]. destruct (Hp Ho) as (secs & frac & H1 & H2 & H3 & _).
    exists secs, frac. split; [exact H1 |]. split; [exact H2 | exact H3].
Defined.

(** The requests for numbers the shim does not implement, in order. *)
Definition record_all {H} (shim : Shim H) (numbers : list Z) : may_panic (Shim H) :=
  for_each numbers (fun n shim => Shim.record_unhandled shim n) shim.

Lemma record_all_holds {H} (shim : Shim H) (seen numbers : list Z) :
  unhandled_holds shim seen ->
  returns (record_all shim numbers) (fun shim' =>
    unhandled_holds shim' (foldl logged_after seen numbers)).
Proof.
  intros Hs. induction numbers as [| n numbers IH] using rev_ind; [apply returns_ret, Hs |].
  unfold record_all. rewrite for_each_snoc, foldl_app. cbn [foldl].
  eapply returns_bind; [exact IH |]. intros shim' Hs'.
  eapply returns_mono; [apply record_unhandled_holds, Hs' |]. intros shim'' H'. apply H'.
Qed.

Lemma logged_after_first_seen (numbers : list Z) :
  foldl logged_after [] numbers = take 32 (first_seen numbers).
Proof.
  induction numbers as [| n l IH] using rev_ind; [reflexivity |].
  rewrite foldl_app, first_seen_snoc. cbn [foldl]. rewrite IH. unfold logged_after.
  change (Z.to_nat UNHANDLED_CAPACITY) with 32%nat. rewrite length_take.
  case_decide as Hin.
  - case_bool_decide as Ht; [reflexivity |]. case_bool_decide as Hlt; [| reflexivity].
    exfalso. apply Ht. rewrite take_ge by lia. exact Hin.
  - assert (n ∉ take 32 (first_seen l)) as Ht.
    { intros Ht. apply Hin. rewrite <- (take_drop 32 (first_seen l)). apply elem_of_app. left. exact Ht. }
    rewrite bool_decide_eq_false_2 by exact Ht. case_bool_decide as Hlt.
    + rewrite (take_ge (first_seen l)), take_ge by (rewrite ?length_app; cbn; lia). reflexivity.
    + rewrite take_app_le by lia. reflexivity.
Qed.

(** The missing syscalls are found.  Whatever numbers without an
    implementation a guest asks for, and however often, [unhandled] of the shim
    reports the first 32 distinct ones in the order they were first asked for; nothing
    panics. *)
Theorem unhandled_reported {H} (host : H) (l : ArenaLayout) (numbers : list Z) :
  (shim ← record_all (Shim.new host l) numbers; Shim.unhandled shim) =
  Done (take 32 (first_seen numbers)).
Proof.
  destruct (record_all_holds (Shim.new host l) [] numbers (new_holds host l)) as (shim & -> & Hs).
  cbn [mbind may_panic_bind]. rewrite (unhandled_returns _ _ Hs), logged_after_first_seen. reflexivity.
Qed.

(** Supervisor calls are free.  The budget of [Shim::run] counts retired
    instructions, and a supervisor call retires none: under a budget of one
    instruction the guest of four calls gets all four serviced, and stops by running
    off its code with the budget unspent. *)
Theorem calls_not_charged :
  match shim.run 5 guest_shim
          (Cpu.set_memory (guest_cpu number.GETPID 0 0 0)
             (FlatMemory.mk 0x1000 (concat (to_le_bytes 4 <$> replicate 4 0xD4000001)))) 1 with
  | Done (Some (_, cpu, exit)) =>
      exit = ShimExit.Trapped (Trap.InstructionAbort 0x1010) /\ Cpu.icount cpu = 0
  | _ => False
  end.
Proof. vm_compute. split; reflexivity. Qed.
