(* ===== verification/FpOperand.v ===== *)
(** The value vocabulary of the floating-point backends
    ([crates/core/src/fp/operand.rs]); FPCR and FPSR, interpreted
    ([crates/core/src/fp/control.rs]), and the result type of the backends. *)

From stdpp Require Import base numbers list option.
From S2P Require Import Prelude.

#[local] Open Scope Z_scope.

Module FpRounding.

Inductive FpRounding : Type := Nearest | Plus | Minus | Zero | NearestAway | Odd.

Definition from_rmode (rmode : Z) : FpRounding :=
  match Z.land rmode 3 with
  | 0 => Nearest
  | 1 => Plus
  | 2 => Minus
  | _ => Zero
  end.

#[global] Instance FpRounding_eq_dec : EqDecision FpRounding.
Proof. solve_decision. Defined.

End FpRounding.

Abbreviation FpRounding := FpRounding.FpRounding.

Module FpFormat.

Inductive FpFormat : Type := Half | Single | Double.

#[global] Instance FpFormat_eq_dec : EqDecision FpFormat.
Proof. solve_decision. Defined.

Definition bits (self : FpFormat) : Z :=
  match self with Half => 16 | Single => 32 | Double => 64 end.

Definition mantissa_bits (self : FpFormat) : Z :=
  match self with Half => 10 | Single => 23 | Double => 52 end.

Definition exponent_bits (self : FpFormat) : Z := bits self - mantissa_bits self - 1.

Definition max_exponent (self : FpFormat) : Z := wshl 32 1 (exponent_bits self) - 1.

Definition exponent_bias (self : FpFormat) : Z := wshl 32 1 (exponent_bits self - 1) - 1.

Definition mask (self : FpFormat) : Z :=
  match self with Half => 0xffff | Single => 0xffffffff | Double => 2 ^ 64 - 1 end.

Definition sign_shift (self : FpFormat) : Z := bits self - 1.

Definition mantissa_mask (self : FpFormat) : Z := wshl 64 1 (mantissa_bits self) - 1.

Definition quiet_bit (self : FpFormat) : Z := wshl 64 1 (mantissa_bits self - 1).

Definition infinity (self : FpFormat) : Z := wshl 64 (max_exponent self) (mantissa_bits self).

Definition default_nan (self : FpFormat) : Z := Z.lor (infinity self) (quiet_bit self).

Definition max_finite (self : FpFormat) : Z := infinity self - 1.

Definition is_nan (self : FpFormat) (bits : Z) : bool :=
  let exponent := Z.land (wshr 64 bits (mantissa_bits self)) (max_exponent self) in
  (exponent =? max_exponent self) && negb (Z.land bits (mantissa_mask self) =? 0).

Definition is_signalling_nan (self : FpFormat) (bits : Z) : bool :=
  is_nan self bits && (Z.land bits (quiet_bit self) =? 0).

Definition is_infinite (self : FpFormat) (bits : Z) : bool :=
  let exponent := Z.land (wshr 64 bits (mantissa_bits self)) (max_exponent self) in
  (exponent =? max_exponent self) && (Z.land bits (mantissa_mask self) =? 0).

Definition is_zero (self : FpFormat) (bits : Z) : bool :=
  Z.land bits (wnot 64 (wshl 64 1 (sign_shift self))) =? 0.

Definition is_subnormal (self : FpFormat) (bits : Z) : bool :=
  (Z.land (wshr 64 bits (mantissa_bits self)) (max_exponent self) =? 0) &&
  negb (Z.land bits (mantissa_mask self) =? 0).

Definition is_negative (self : FpFormat) (bits : Z) : bool :=
  Z.land (wshr 64 bits (sign_shift self)) 1 =? 1.

Definition quieten (self : FpFormat) (bits : Z) : Z :=
  if is_signalling_nan self bits then Z.lor bits (quiet_bit self) else bits.

Definition zero (self : FpFormat) (is_negative : bool) : Z :=
  wshl 64 (b2z is_negative) (sign_shift self).

Definition signed_infinity (self : FpFormat) (is_negative : bool) : Z :=
  Z.lor (infinity self) (zero self is_negative).

End FpFormat.

Abbreviation FpFormat := FpFormat.FpFormat.

Module FpComparison.

Inductive FpComparison : Type := Less | Equal | Greater | Unordered.

Definition to_nzcv (self : FpComparison) : Z :=
  match self with
  | Less => 8
  | Equal => 6
  | Greater => 2
  | Unordered => 3
  end.

End FpComparison.

Abbreviation FpComparison := FpComparison.FpComparison.

(** ** Control and status *)

Module fpcr_bit.

Definition FZ : Z := 24.
Definition DN : Z := 25.
Definition AHP : Z := 26.
Definition FZ16 : Z := 19.
Definition RMODE_LSB : Z := 22.

End fpcr_bit.

Definition MEANINGFUL_BITS : Z :=
  Z.lor (Z.lor (Z.lor (Z.lor (wshl 64 3 fpcr_bit.RMODE_LSB) (wshl 64 1 fpcr_bit.FZ))
    (wshl 64 1 fpcr_bit.DN)) (wshl 64 1 fpcr_bit.AHP)) (wshl 64 1 fpcr_bit.FZ16).

Module FpControl.

Record FpControl : Type := mk {
  rounding : FpRounding;
  is_flush_to_zero : bool;
  is_flush_to_zero_fp16 : bool;
  is_default_nan : bool;
  is_alternative_fp16 : bool
}.

Definition DEFAULT : FpControl := mk FpRounding.Nearest false false false false.

(** [fpcr & (1 << bit) != 0]. *)
Definition has_bit (fpcr bit : Z) : bool := negb (Z.land fpcr (wshl 64 1 bit) =? 0).

Definition from_bits (fpcr : Z) : FpControl :=
  mk (FpRounding.from_rmode (as_u8 (Z.land (wshr 64 fpcr fpcr_bit.RMODE_LSB) 3)))
    (has_bit fpcr fpcr_bit.FZ) (has_bit fpcr fpcr_bit.FZ16) (has_bit fpcr fpcr_bit.DN)
    (has_bit fpcr fpcr_bit.AHP).

Definition is_default_mode (self : FpControl) : bool :=
  (match rounding self with FpRounding.Nearest => true | _ => false end) &&
  negb (is_flush_to_zero self) && negb (is_flush_to_zero_fp16 self) &&
  negb (is_default_nan self) && negb (is_alternative_fp16 self).

End FpControl.

Abbreviation FpControl := FpControl.FpControl.

Definition is_default_mode_bits (fpcr : Z) : bool := Z.land fpcr MEANINGFUL_BITS =? 0.

Module fpsr_bit.

Definition IOC : Z := 0.
Definition DZC : Z := 1.
Definition OFC : Z := 2.
Definition UFC : Z := 3.
Definition IXC : Z := 4.
Definition IDC : Z := 7.

End fpsr_bit.

(** The newtype over [u8]. *)
Module FpExceptions.

Record FpExceptions : Type := mk { flags : Z }.

Definition NONE : FpExceptions := mk 0.
Definition INVALID : FpExceptions := mk (wshl 8 1 fpsr_bit.IOC).
Definition DIVIDE_BY_ZERO : FpExceptions := mk (wshl 8 1 fpsr_bit.DZC).
Definition OVERFLOW : FpExceptions := mk (wshl 8 1 fpsr_bit.OFC).
Definition UNDERFLOW : FpExceptions := mk (wshl 8 1 fpsr_bit.UFC).
Definition INEXACT : FpExceptions := mk (wshl 8 1 fpsr_bit.IXC).
Definition INPUT_DENORMAL : FpExceptions := mk (wshl 8 1 fpsr_bit.IDC).

Definition is_empty (self : FpExceptions) : bool := flags self =? 0.

Definition union (self other : FpExceptions) : FpExceptions :=
  mk (Z.lor (flags self) (flags other)).

Definition contains (self other : FpExceptions) : bool :=
  Z.land (flags self) (flags other) =? flags other.

Definition to_bits (self : FpExceptions) : Z := flags self.

End FpExceptions.

Abbreviation FpExceptions := FpExceptions.FpExceptions.

Definition accumulate (fpsr : Z) (raised : FpExceptions) : Z :=
  Z.lor fpsr (FpExceptions.to_bits raised).

Module FpResult.

Record FpResult : Type := mk { bits : Z; raised : FpExceptions }.

Definition exact (bits : Z) : FpResult := mk bits FpExceptions.NONE.

Definition raising (bits : Z) (raised : FpExceptions) : FpResult := mk bits raised.

End FpResult.

Abbreviation FpResult := FpResult.FpResult.
