(* ===== verification/FpDecompose.v ===== *)
(** Unpacking a value, and rounding and packing a result
    ([crates/core/src/fp/softfloat/decompose.rs]).

    The [i32] exponents are integers here: those of unpacked values and of
    results stay within a few thousands of zero. *)

From stdpp Require Import base numbers list option.
From S2P Require Import Prelude FpOperand.

#[local] Open Scope Z_scope.

Definition GUARD_BITS : Z := 3.

Module Unpacked.

Record Unpacked : Type := mk { is_negative : bool; exponent : Z; significand : Z }.

Definition zero (is_negative : bool) : Unpacked := mk is_negative 0 0.

Definition is_zero (self : Unpacked) : bool := significand self =? 0.

End Unpacked.

Abbreviation Unpacked := Unpacked.Unpacked.

Module RoundingContext.

Record RoundingContext : Type := mk {
  rounding : FpRounding;
  is_sticky : bool;
  control : FpControl
}.

End RoundingContext.

Abbreviation RoundingContext := RoundingContext.RoundingContext.

Module decompose.

Import FpFormat.

Definition significand_mask (format : FpFormat) : Z :=
  wsub 64 (wshl 64 1 (mantissa_bits format + 1 + GUARD_BITS)) 1.

Definition implicit_bit (format : FpFormat) : Z :=
  wshl 64 1 (mantissa_bits format + GUARD_BITS).

Definition unpack (bits : Z) (format : FpFormat) : Unpacked :=
  let is_negative := is_negative format bits in
  let raw_exponent := Z.land (wshr 64 bits (mantissa_bits format)) (max_exponent format) in
  let mantissa := Z.land bits (mantissa_mask format) in
  if raw_exponent =? 0 then
    if mantissa =? 0 then Unpacked.zero is_negative else
    let shift := leading_zeros 64 mantissa - (64 - (mantissa_bits format + 1)) in
    Unpacked.mk is_negative (1 - exponent_bias format - shift)
      (Z.land (wshl 64 mantissa (shift + GUARD_BITS)) (significand_mask format))
  else
    Unpacked.mk is_negative (raw_exponent - exponent_bias format)
      (wshl 64 (Z.lor mantissa (wshl 64 1 (mantissa_bits format))) GUARD_BITS).

(** [while significand >= target << 1]: a [u64] has at most 64 bits to shift
    out, so 64 rounds end the loop; likewise the loop that shifts up. *)
Fixpoint shift_down (fuel : nat) (value : Unpacked) (is_sticky : bool) (target : Z) :
    Unpacked * bool :=
  match fuel with
  | O => (value, is_sticky)
  | S fuel =>
      if wshl 64 target 1 <=? Unpacked.significand value then
        shift_down fuel
          (Unpacked.mk (Unpacked.is_negative value) (Unpacked.exponent value + 1)
             (wshr 64 (Unpacked.significand value) 1))
          (is_sticky || negb (Z.land (Unpacked.significand value) 1 =? 0)) target
      else (value, is_sticky)
  end.

Fixpoint shift_up (fuel : nat) (value : Unpacked) (target : Z) : Unpacked :=
  match fuel with
  | O => value
  | S fuel =>
      if (Unpacked.significand value <? target) && negb (Unpacked.significand value =? 0) then
        shift_up fuel
          (Unpacked.mk (Unpacked.is_negative value) (Unpacked.exponent value - 1)
             (wshl 64 (Unpacked.significand value) 1)) target
      else value
  end.

Definition normalise (value : Unpacked) (is_sticky : bool) (format : FpFormat) :
    Unpacked * bool :=
  let target := implicit_bit format in
  let '(value, is_sticky) := shift_down 64 value is_sticky target in
  (shift_up 64 value target, is_sticky).

Definition should_round_up (discarded : Z) (is_sticky : bool) (significand : Z)
    (rounding : FpRounding) (is_negative : bool) : bool :=
  let half := wshl 64 1 (GUARD_BITS - 1) in
  let is_above_half := (half <? discarded) || ((discarded =? half) && is_sticky) in
  let is_exactly_half := (discarded =? half) && negb is_sticky in
  match rounding with
  | FpRounding.Nearest =>
      is_above_half ||
      (is_exactly_half && negb (Z.land significand (wshl 64 1 GUARD_BITS) =? 0))
  | FpRounding.NearestAway => half <=? discarded
  | FpRounding.Zero => false
  | FpRounding.Plus => negb is_negative
  | FpRounding.Minus => is_negative
  | FpRounding.Odd => false
  end.

Definition round_significand (significand exponent : Z) (is_sticky : bool)
    (rounding : FpRounding) (is_negative : bool) : Z * Z * FpExceptions :=
  let discarded := Z.land significand (wsub 64 (wshl 64 1 GUARD_BITS) 1) in
  let is_inexact := negb (discarded =? 0) || is_sticky in
  if negb is_inexact then (significand, exponent, FpExceptions.NONE) else
  let increment := should_round_up discarded is_sticky significand rounding is_negative in
  let rounded := wadd 64 significand (if increment then wshl 64 1 GUARD_BITS else 0) in
  let rounded := Z.land rounded (wnot 64 (wsub 64 (wshl 64 1 GUARD_BITS) 1)) in
  if leading_zeros 64 rounded <? leading_zeros 64 significand
  then (wshr 64 rounded 1, exponent + 1, FpExceptions.INEXACT)
  else (rounded, exponent, FpExceptions.INEXACT).

Definition round_to_zero_or_minimum (is_negative : bool) (format : FpFormat)
    (rounding : FpRounding) : Z :=
  let is_away :=
    match rounding with
    | FpRounding.Plus => negb is_negative
    | FpRounding.Minus => is_negative
    | _ => false
    end in
  Z.lor (zero format is_negative) (b2z is_away).

Definition overflow (is_negative : bool) (format : FpFormat) (rounding : FpRounding) : FpResult :=
  let goes_to_infinity :=
    match rounding with
    | FpRounding.Nearest | FpRounding.NearestAway => true
    | FpRounding.Zero => false
    | FpRounding.Plus => negb is_negative
    | FpRounding.Minus => is_negative
    | FpRounding.Odd => false
    end in
  let bits :=
    if goes_to_infinity then signed_infinity format is_negative
    else Z.lor (max_finite format) (zero format is_negative) in
  FpResult.raising bits (FpExceptions.union FpExceptions.OVERFLOW FpExceptions.INEXACT).

Definition pack_subnormal (value : Unpacked) (is_sticky : bool) (format : FpFormat)
    (context : RoundingContext) : FpResult :=
  let rounding := RoundingContext.rounding context in
  let is_negative := Unpacked.is_negative value in
  let minimum_exponent := 1 - exponent_bias format in
  let shift := as_u32 (minimum_exponent - Unpacked.exponent value) in
  let width := mantissa_bits format + 1 + GUARD_BITS in
  if width <=? shift then
    FpResult.raising (round_to_zero_or_minimum is_negative format rounding)
      (FpExceptions.union FpExceptions.UNDERFLOW FpExceptions.INEXACT)
  else
    let is_sticky :=
      is_sticky ||
      negb (Z.land (Unpacked.significand value) (wsub 64 (wshl 64 1 shift) 1) =? 0) in
    let shifted := wshr 64 (Unpacked.significand value) shift in
    let '(significand, _, inexact) :=
      round_significand shifted minimum_exponent is_sticky rounding is_negative in
    let mantissa := wshr 64 significand GUARD_BITS in
    let bits := Z.lor (wshl 64 (b2z is_negative) (sign_shift format)) mantissa in
    let raised :=
      if FpExceptions.is_empty inexact then FpExceptions.NONE
      else FpExceptions.union inexact FpExceptions.UNDERFLOW in
    FpResult.raising bits raised.

Definition pack_normalised (normalised : Unpacked * bool) (format : FpFormat)
    (context : RoundingContext) : FpResult :=
  let '(value, is_sticky) := normalised in
  let minimum_exponent := 1 - exponent_bias format in
  if Unpacked.exponent value <? minimum_exponent
  then pack_subnormal value is_sticky format context else
  let '(significand, exponent, raised) :=
    round_significand (Unpacked.significand value) (Unpacked.exponent value) is_sticky
      (RoundingContext.rounding context) (Unpacked.is_negative value) in
  if exponent_bias format <? exponent
  then overflow (Unpacked.is_negative value) format (RoundingContext.rounding context) else
  let biased := as_u64 (exponent + exponent_bias format) in
  let bits :=
    Z.lor (Z.lor (wshl 64 (b2z (Unpacked.is_negative value)) (sign_shift format))
             (wshl 64 biased (mantissa_bits format)))
      (Z.land (wshr 64 significand GUARD_BITS) (mantissa_mask format)) in
  FpResult.raising bits raised.

Definition apply_flush_to_zero (result : FpResult) (format : FpFormat) (control : FpControl) :
    FpResult :=
  let is_flushing :=
    match format with
    | Half => FpControl.is_flush_to_zero_fp16 control
    | Single | Double => FpControl.is_flush_to_zero control
    end in
  if negb is_flushing || negb (is_subnormal format (FpResult.bits result)) then result else
  FpResult.raising (zero format (FpFormat.is_negative format (FpResult.bits result)))
    (FpExceptions.union (FpExceptions.union (FpResult.raised result) FpExceptions.UNDERFLOW)
       FpExceptions.INEXACT).

Definition round_and_pack (value : Unpacked) (format : FpFormat) (context : RoundingContext) :
    FpResult :=
  if Unpacked.is_zero value
  then FpResult.exact (zero format (Unpacked.is_negative value)) else
  let normalised := normalise value (RoundingContext.is_sticky context) format in
  let overflowed := pack_normalised normalised format context in
  apply_flush_to_zero overflowed format (RoundingContext.control context).

End decompose.
