(* ===== verification/FpCompare.v ===== *)
(** NaN propagation ([crates/core/src/fp/softfloat/nan.rs]); comparison, and the
    minimum and maximum families ([crates/core/src/fp/softfloat/compare.rs]). *)

From stdpp Require Import base numbers list option.
From S2P Require Import Prelude FpOperand.

#[local] Open Scope Z_scope.

Module nan.

Import FpFormat.

Definition quiet_result (bits : Z) (format : FpFormat) (control : FpControl) : Z :=
  if FpControl.is_default_nan control then default_nan format else quieten format bits.

Definition propagate (operands : list Z) (format : FpFormat) (control : FpControl) :
    option FpResult :=
  let has_signalling := existsb (is_signalling_nan format) operands in
  first_nan ← List.find (is_nan format) operands;
  let raised := if has_signalling then FpExceptions.INVALID else FpExceptions.NONE in
  Some (FpResult.raising (quiet_result first_nan format control) raised).

Definition invalid_operation (format : FpFormat) : FpResult :=
  FpResult.raising (default_nan format) FpExceptions.INVALID.

Definition signalling_among (operands : list Z) (format : FpFormat) : bool :=
  existsb (is_signalling_nan format) operands.

Definition any_nan (operands : list Z) (format : FpFormat) : bool :=
  existsb (is_nan format) operands.

End nan.

(** ** Comparison *)

Module Extremum.

Inductive Extremum : Type := Max | Min | MaxNum | MinNum.

Definition is_maximum (self : Extremum) : bool :=
  match self with Max | MaxNum => true | _ => false end.

Definition ignores_quiet_nan (self : Extremum) : bool :=
  match self with MaxNum | MinNum => true | _ => false end.

End Extremum.

Abbreviation Extremum := Extremum.Extremum.

Module compare.

Import FpFormat.

(** The closure of [ordering]. *)
Definition magnitude (format : FpFormat) (bits : Z) : Z :=
  Z.land bits (wnot 64 (wshl 64 1 (sign_shift format))).

Definition ordering (lhs rhs : Z) (format : FpFormat) : FpComparison :=
  if is_zero format lhs && is_zero format rhs then FpComparison.Equal else
  if lhs =? rhs then FpComparison.Equal else
  let is_lhs_negative := is_negative format lhs in
  let is_rhs_negative := is_negative format rhs in
  if xorb is_lhs_negative is_rhs_negative then
    if is_lhs_negative then FpComparison.Less else FpComparison.Greater
  else
    let is_less :=
      if is_lhs_negative then magnitude format rhs <? magnitude format lhs
      else magnitude format lhs <? magnitude format rhs in
    if is_less then FpComparison.Less else FpComparison.Greater.

Definition compare (lhs rhs : Z) (format : FpFormat) (is_signalling : bool) :
    FpComparison * FpExceptions :=
  let operands := [lhs; rhs] in
  if nan.any_nan operands format then
    let is_invalid := is_signalling || nan.signalling_among operands format in
    let raised := if is_invalid then FpExceptions.INVALID else FpExceptions.NONE in
    (FpComparison.Unordered, raised)
  else (ordering lhs rhs format, FpExceptions.NONE).

Definition numeric_nan_case (lhs rhs : Z) (which : Extremum) (format : FpFormat) :
    option FpResult :=
  if negb (Extremum.ignores_quiet_nan which) then None else
  if nan.signalling_among [lhs; rhs] format then None else
  match is_nan format lhs, is_nan format rhs with
  | true, false => Some (FpResult.exact rhs)
  | false, true => Some (FpResult.exact lhs)
  | _, _ => None
  end.

Definition extremum (lhs rhs : Z) (which : Extremum) (format : FpFormat) (control : FpControl) :
    FpResult :=
  match numeric_nan_case lhs rhs which format with
  | Some result => result
  | None =>
  match nan.propagate [lhs; rhs] format control with
  | Some result => result
  | None =>
      if is_zero format lhs && is_zero format rhs then
        let is_negative :=
          if Extremum.is_maximum which
          then is_negative format lhs && is_negative format rhs
          else is_negative format lhs || is_negative format rhs in
        FpResult.exact (zero format is_negative)
      else
        let is_lhs_greater :=
          match ordering lhs rhs format with FpComparison.Greater => true | _ => false end in
        let takes_lhs := eqb is_lhs_greater (Extremum.is_maximum which) in
        FpResult.exact (if takes_lhs then lhs else rhs)
  end end.

End compare.
