(* ===== verification/FpArithmetic.v ===== *)
(** Add, subtract, multiply, divide and square root over unpacked significands
    ([crates/core/src/fp/softfloat/arithmetic.rs]). *)

From stdpp Require Import base numbers list option.
From S2P Require Import Prelude FpOperand FpDecompose FpCompare.

#[local] Open Scope Z_scope.

Module Context.

Record Context : Type := mk { format : FpFormat; rounding : FpRounding; control : FpControl }.

Definition rounding_context (self : Context) (is_sticky : bool) : RoundingContext :=
  RoundingContext.mk (rounding self) is_sticky (control self).

Definition pack (self : Context) (value : Unpacked) (is_sticky : bool) : FpResult :=
  decompose.round_and_pack value (format self) (rounding_context self is_sticky).

End Context.

Abbreviation Context := Context.Context.

Module arithmetic.

Import FpFormat decompose.

Definition flush_input (bits : Z) (context : Context) : Z * FpExceptions :=
  let is_flushing :=
    match Context.format context with
    | Half => FpControl.is_flush_to_zero_fp16 (Context.control context)
    | Single | Double => FpControl.is_flush_to_zero (Context.control context)
    end in
  if negb is_flushing || negb (is_subnormal (Context.format context) bits)
  then (bits, FpExceptions.NONE)
  else (zero (Context.format context) (is_negative (Context.format context) bits),
        FpExceptions.INPUT_DENORMAL).

Definition flush_pair (lhs rhs : Z) (context : Context) : Z * Z * FpExceptions :=
  let '(lhs, from_lhs) := flush_input lhs context in
  let '(rhs, from_rhs) := flush_input rhs context in
  (lhs, rhs, FpExceptions.union from_lhs from_rhs).

Definition with_flags (result : FpResult) (raised : FpExceptions) : FpResult :=
  FpResult.raising (FpResult.bits result) (FpExceptions.union (FpResult.raised result) raised).

(** [matches!(rounding, FpRounding::Minus)]. *)
Definition is_minus (rounding : FpRounding) : bool :=
  match rounding with FpRounding.Minus => true | _ => false end.

Definition add_infinities (lhs rhs : Z) (context : Context) : option FpResult :=
  let format := Context.format context in
  let is_lhs_infinite := is_infinite format lhs in
  let is_rhs_infinite := is_infinite format rhs in
  if negb is_lhs_infinite && negb is_rhs_infinite then None else
  if is_lhs_infinite && is_rhs_infinite then
    if xorb (is_negative format lhs) (is_negative format rhs)
    then Some (nan.invalid_operation format)
    else Some (FpResult.exact lhs)
  else Some (FpResult.exact (if is_lhs_infinite then lhs else rhs)).

Definition subtract_aligned (larger : Unpacked) (aligned : Z) (is_sticky : bool)
    (context : Context) : Unpacked * bool :=
  let '(significand, is_sticky) :=
    if is_sticky then (wsub 64 (wsub 64 (Unpacked.significand larger) aligned) 1, true)
    else (wsub 64 (Unpacked.significand larger) aligned, false) in
  if (significand =? 0) && negb is_sticky
  then (Unpacked.zero (is_minus (Context.rounding context)), false)
  else (Unpacked.mk (Unpacked.is_negative larger) (Unpacked.exponent larger) significand, is_sticky).

(** The lexicographic order of the pairs of exponent and significand. *)
Definition is_larger (lhs rhs : Unpacked) : bool :=
  (Unpacked.exponent rhs <? Unpacked.exponent lhs) ||
  ((Unpacked.exponent lhs =? Unpacked.exponent rhs) &&
   (Unpacked.significand rhs <=? Unpacked.significand lhs)).

Definition align (significand shift : Z) : Z * bool :=
  if 64 <=? shift then (0, negb (significand =? 0)) else
  let discarded := Z.land significand (wsub 64 (wshl 64 1 shift) 1) in
  (wshr 64 significand shift, negb (discarded =? 0)).

Definition add_finite (lhs rhs : Unpacked) (context : Context) : Unpacked * bool :=
  if Unpacked.is_zero lhs && Unpacked.is_zero rhs then
    let is_negative :=
      if eqb (Unpacked.is_negative lhs) (Unpacked.is_negative rhs)
      then Unpacked.is_negative lhs else is_minus (Context.rounding context) in
    (Unpacked.zero is_negative, false)
  else if Unpacked.is_zero lhs then (rhs, false)
  else if Unpacked.is_zero rhs then (lhs, false)
  else
    let '(larger, smaller) := if is_larger lhs rhs then (lhs, rhs) else (rhs, lhs) in
    let shift := as_u32 (Unpacked.exponent larger - Unpacked.exponent smaller) in
    let '(aligned, is_sticky) := align (Unpacked.significand smaller) shift in
    if eqb (Unpacked.is_negative larger) (Unpacked.is_negative smaller) then
      (Unpacked.mk (Unpacked.is_negative larger) (Unpacked.exponent larger)
         (wadd 64 (Unpacked.significand larger) aligned), is_sticky)
    else subtract_aligned larger aligned is_sticky context.

Definition add (lhs rhs : Z) (is_subtracting : bool) (context : Context) : FpResult :=
  let '(lhs, rhs, denormal) := flush_pair lhs rhs context in
  let format := Context.format context in
  let rhs := if is_subtracting then Z.lxor rhs (wshl 64 1 (sign_shift format)) else rhs in
  match nan.propagate [lhs; rhs] format (Context.control context) with
  | Some result => with_flags result denormal
  | None =>
  match add_infinities lhs rhs context with
  | Some result => with_flags result denormal
  | None =>
      let '(value, is_sticky) := add_finite (unpack lhs format) (unpack rhs format) context in
      with_flags (Context.pack context value is_sticky) denormal
  end end.

Definition multiply_specials (lhs rhs : Z) (is_negative : bool) (context : Context) :
    option FpResult :=
  let format := Context.format context in
  let is_lhs_infinite := is_infinite format lhs in
  let is_rhs_infinite := is_infinite format rhs in
  let is_lhs_zero := is_zero format lhs in
  let is_rhs_zero := is_zero format rhs in
  if (is_lhs_infinite && is_rhs_zero) || (is_lhs_zero && is_rhs_infinite)
  then Some (nan.invalid_operation format)
  else if is_lhs_infinite || is_rhs_infinite
  then Some (FpResult.exact (signed_infinity format is_negative))
  else if is_lhs_zero || is_rhs_zero
  then Some (FpResult.exact (zero format is_negative))
  else None.

Definition significand_scale (format : FpFormat) : Z := mantissa_bits format + GUARD_BITS.

Definition narrow (product shift : Z) : Z * bool :=
  let discarded := Z.land product (wsub 128 (wshl 128 1 shift) 1) in
  (as_u64 (wshr 128 product shift), negb (discarded =? 0)).

Definition multiply (lhs rhs : Z) (context : Context) : FpResult :=
  let '(lhs, rhs, denormal) := flush_pair lhs rhs context in
  let format := Context.format context in
  match nan.propagate [lhs; rhs] format (Context.control context) with
  | Some result => with_flags result denormal
  | None =>
  let is_negative := xorb (is_negative format lhs) (is_negative format rhs) in
  match multiply_specials lhs rhs is_negative context with
  | Some result => with_flags result denormal
  | None =>
      let left := unpack lhs format in
      let right := unpack rhs format in
      let product := wmul 128 (Unpacked.significand left) (Unpacked.significand right) in
      let '(significand, is_sticky) := narrow product (significand_scale format) in
      let value :=
        Unpacked.mk is_negative (Unpacked.exponent left + Unpacked.exponent right) significand in
      with_flags (Context.pack context value is_sticky) denormal
  end end.

Definition divide_specials (lhs rhs : Z) (is_negative : bool) (context : Context) :
    option FpResult :=
  let format := Context.format context in
  let is_lhs_infinite := is_infinite format lhs in
  let is_rhs_infinite := is_infinite format rhs in
  let is_lhs_zero := is_zero format lhs in
  let is_rhs_zero := is_zero format rhs in
  if (is_lhs_infinite && is_rhs_infinite) || (is_lhs_zero && is_rhs_zero)
  then Some (nan.invalid_operation format)
  else if is_lhs_infinite then Some (FpResult.exact (signed_infinity format is_negative))
  else if is_rhs_infinite then Some (FpResult.exact (zero format is_negative))
  else if is_rhs_zero then
    Some (FpResult.raising (signed_infinity format is_negative) FpExceptions.DIVIDE_BY_ZERO)
  else if is_lhs_zero then Some (FpResult.exact (zero format is_negative))
  else None.

(** Dividing by a zero significand panics. *)
Definition divide (lhs rhs : Z) (context : Context) : may_panic FpResult :=
  let '(lhs, rhs, denormal) := flush_pair lhs rhs context in
  let format := Context.format context in
  match nan.propagate [lhs; rhs] format (Context.control context) with
  | Some result => mret (with_flags result denormal)
  | None =>
  let is_negative := xorb (is_negative format lhs) (is_negative format rhs) in
  match divide_specials lhs rhs is_negative context with
  | Some result => mret (with_flags result denormal)
  | None =>
      let left := unpack lhs format in
      let right := unpack rhs format in
      let numerator := wshl 128 (Unpacked.significand left) (significand_scale format) in
      rust_assert (negb (Unpacked.significand right =? 0));;
      let quotient := numerator / Unpacked.significand right in
      let is_sticky := negb (numerator mod Unpacked.significand right =? 0) in
      let value :=
        Unpacked.mk is_negative (Unpacked.exponent left - Unpacked.exponent right)
          (as_u64 quotient) in
      mret (with_flags (Context.pack context value is_sticky) denormal)
  end end.

(** [while bit != 0]: two places fewer each time, so 64 rounds clear a [u128]. *)
Fixpoint isqrt_loop (fuel : nat) (remainder root bit : Z) : Z :=
  match fuel with
  | O => root
  | S fuel =>
      if bit =? 0 then root else
      if wadd 128 root bit <=? remainder
      then isqrt_loop fuel (wsub 128 remainder (wadd 128 root bit))
             (wadd 128 (wshr 128 root 1) bit) (wshr 128 bit 2)
      else isqrt_loop fuel remainder (wshr 128 root 1) (wshr 128 bit 2)
  end.

Definition isqrt_u128 (value : Z) : Z :=
  if value =? 0 then 0 else
  isqrt_loop 64 value 0 (wshl 128 1 (Z.land (127 - leading_zeros 128 value) (wnot 32 1))).

Definition integer_square_root (value : Unpacked) (format : FpFormat) : Z * bool :=
  let scaled := Unpacked.significand value in
  let scaled := if Unpacked.exponent value mod 2 =? 0 then scaled else wshl 128 scaled 1 in
  let scaled := wshl 128 scaled (significand_scale format) in
  let root := isqrt_u128 scaled in
  (as_u64 root, negb (wmul 128 root root =? scaled)).

Definition square_root (value : Z) (context : Context) : FpResult :=
  let '(value, denormal) := flush_input value context in
  let format := Context.format context in
  match nan.propagate [value] format (Context.control context) with
  | Some result => with_flags result denormal
  | None =>
      if is_zero format value then with_flags (FpResult.exact value) denormal
      else if is_negative format value then with_flags (nan.invalid_operation format) denormal
      else if is_infinite format value then with_flags (FpResult.exact value) denormal
      else
        let unpacked := unpack value format in
        let '(significand, is_sticky) := integer_square_root unpacked format in
        let value := Unpacked.mk false (Unpacked.exponent unpacked / 2) significand in
        with_flags (Context.pack context value is_sticky) denormal
  end.

End arithmetic.
