(* ===== verification/FpFused.v ===== *)
(** Fused multiply-add ([crates/core/src/fp/softfloat/fused.rs]). *)

From stdpp Require Import base numbers list option.
From S2P Require Import Prelude FpOperand FpDecompose FpCompare FpArithmetic.

#[local] Open Scope Z_scope.

Module FusedOperands.

Record FusedOperands : Type := mk {
  multiplicand : Z;
  multiplier : Z;
  addend : Z;
  is_product_negated : bool;
  is_addend_negated : bool
}.

End FusedOperands.

Abbreviation FusedOperands := FusedOperands.FusedOperands.

Module ExactProduct.

Record ExactProduct : Type := mk { is_negative : bool; exponent : Z; significand : Z }.

End ExactProduct.

Abbreviation ExactProduct := ExactProduct.ExactProduct.

Module fused.

Import FpFormat decompose arithmetic.

Definition signed_addend (operands : FusedOperands) (format : FpFormat) : Z :=
  if FusedOperands.is_addend_negated operands
  then Z.lxor (FusedOperands.addend operands) (wshl 64 1 (sign_shift format))
  else FusedOperands.addend operands.

Definition zero_product (addend : Z) (is_product_negative : bool) (context : Context) : FpResult :=
  let format := Context.format context in
  if negb (is_zero format addend) then FpResult.exact addend else
  let is_negative :=
    if eqb (is_negative format addend) is_product_negative then is_product_negative
    else is_minus (Context.rounding context) in
  FpResult.exact (zero format is_negative).

Definition special_cases (operands : FusedOperands) (context : Context) : option FpResult :=
  let format := Context.format context in
  let multiplicand := FusedOperands.multiplicand operands in
  let multiplier := FusedOperands.multiplier operands in
  let addend := signed_addend operands format in
  let is_product_infinite := is_infinite format multiplicand || is_infinite format multiplier in
  let is_product_invalid :=
    (is_infinite format multiplicand && is_zero format multiplier) ||
    (is_zero format multiplicand && is_infinite format multiplier) in
  if is_product_invalid then Some (nan.invalid_operation format) else
  let is_product_negative :=
    xorb (is_negative format multiplicand) (is_negative format multiplier) in
  let is_product_negative :=
    if FusedOperands.is_product_negated operands
    then negb is_product_negative else is_product_negative in
  if is_product_infinite then
    if is_infinite format addend && xorb (is_negative format addend) is_product_negative
    then Some (nan.invalid_operation format)
    else Some (FpResult.exact (signed_infinity format is_product_negative))
  else if is_infinite format addend then Some (FpResult.exact addend)
  else if is_zero format multiplicand || is_zero format multiplier
  then Some (zero_product addend is_product_negative context)
  else None.

Definition exact_product (operands : FusedOperands) (context : Context) : ExactProduct :=
  let format := Context.format context in
  let left := unpack (FusedOperands.multiplicand operands) format in
  let right := unpack (FusedOperands.multiplier operands) format in
  let is_negative := xorb (Unpacked.is_negative left) (Unpacked.is_negative right) in
  let is_negative :=
    if FusedOperands.is_product_negated operands then negb is_negative else is_negative in
  ExactProduct.mk is_negative (Unpacked.exponent left + Unpacked.exponent right)
    (wmul 128 (Unpacked.significand left) (Unpacked.significand right)).

Definition shift_right_sticky (value shift : Z) : Z * bool :=
  if 128 <=? shift then (0, negb (value =? 0)) else
  let discarded := Z.land value (wsub 128 (wshl 128 1 shift) 1) in
  (wshr 128 value shift, negb (discarded =? 0)).

Definition align (product product_exponent addend addend_exponent : Z) : Z * Z * Z * bool :=
  if addend_exponent <=? product_exponent then
    let shift := as_u32 (product_exponent - addend_exponent) in
    let '(shifted, is_sticky) := shift_right_sticky addend shift in
    (product, shifted, product_exponent, is_sticky)
  else
    let shift := as_u32 (addend_exponent - product_exponent) in
    let '(shifted, is_sticky) := shift_right_sticky product shift in
    (shifted, addend, addend_exponent, is_sticky).

Definition round_wide (value : ExactProduct) (is_sticky : bool) (context : Context) : FpResult :=
  let format := Context.format context in
  let significand := ExactProduct.significand value in
  let exponent := ExactProduct.exponent value in
  if significand =? 0 then FpResult.exact (zero format (ExactProduct.is_negative value)) else
  let scale := mantissa_bits format + GUARD_BITS in
  let target := 2 * scale in
  let leading := 127 - leading_zeros 128 significand in
  let '(significand, is_sticky, exponent) :=
    if target <? leading then
      let shift := leading - target in
      let '(shifted, discarded) := shift_right_sticky significand shift in
      (shifted, is_sticky || discarded, exponent + shift)
    else
      let shift := target - leading in
      (wshl 128 significand shift, is_sticky, exponent - shift) in
  let '(narrowed, discarded) := shift_right_sticky significand scale in
  round_and_pack
    (Unpacked.mk (ExactProduct.is_negative value) exponent (as_u64 narrowed)) format
    (RoundingContext.mk (Context.rounding context) (is_sticky || discarded)
       (Context.control context)).

Definition accumulate (product : ExactProduct) (addend : Z) (context : Context) : FpResult :=
  let format := Context.format context in
  let scale := mantissa_bits format + GUARD_BITS in
  if is_zero format addend then round_wide product false context else
  let unpacked := unpack addend format in
  let addend_significand := wshl 128 (Unpacked.significand unpacked) scale in
  let addend_exponent := Unpacked.exponent unpacked in
  let '(aligned_product, aligned_addend, exponent, is_sticky) :=
    align (ExactProduct.significand product) (ExactProduct.exponent product)
      addend_significand addend_exponent in
  let '(significand, is_negative) :=
    if eqb (ExactProduct.is_negative product) (Unpacked.is_negative unpacked)
    then (wadd 128 aligned_product aligned_addend, ExactProduct.is_negative product)
    else if aligned_addend <=? aligned_product
    then (wsub 128 aligned_product aligned_addend, ExactProduct.is_negative product)
    else (wsub 128 aligned_addend aligned_product, Unpacked.is_negative unpacked) in
  if (significand =? 0) && negb is_sticky
  then FpResult.exact (zero format (is_minus (Context.rounding context)))
  else
    let is_sticky := is_sticky && negb (significand =? 0) in
    round_wide (ExactProduct.mk is_negative exponent significand) is_sticky context.

Definition multiply_add (operands : FusedOperands) (context : Context) : FpResult :=
  let format := Context.format context in
  let inputs := [FusedOperands.multiplicand operands; FusedOperands.multiplier operands;
                 FusedOperands.addend operands] in
  match nan.propagate inputs format (Context.control context) with
  | Some result => result
  | None =>
  match special_cases operands context with
  | Some result => result
  | None =>
      accumulate (exact_product operands context) (signed_addend operands format) context
  end end.

End fused.
