(* ===== verification/FpBackend.v ===== *)
(** The operand types and the trait both floating-point backends implement
    ([crates/core/src/fp/backend.rs]). *)

From stdpp Require Import base numbers list option.
From S2P Require Import Prelude FpOperand.

#[local] Open Scope Z_scope.

Module FpBinaryOp.

Inductive FpBinaryOp : Type := Add | Sub | Mul | Div | Max | Min | MaxNum | MinNum.

End FpBinaryOp.

Abbreviation FpBinaryOp := FpBinaryOp.FpBinaryOp.

Module FpUnaryOp.

Inductive FpUnaryOp : Type := Sqrt | RoundToIntegral.

End FpUnaryOp.

Abbreviation FpUnaryOp := FpUnaryOp.FpUnaryOp.

Module IntFormat.

Record IntFormat : Type := mk { bits : Z; is_signed : bool }.

Definition S32 : IntFormat := mk 32 true.
Definition U32 : IntFormat := mk 32 false.
Definition S64 : IntFormat := mk 64 true.
Definition U64 : IntFormat := mk 64 false.

End IntFormat.

Abbreviation IntFormat := IntFormat.IntFormat.

Module FpSignOp.

Inductive FpSignOp : Type := Negate | Absolute.

End FpSignOp.

Abbreviation FpSignOp := FpSignOp.FpSignOp.

Module FpValue.

Record FpValue : Type := mk { bits : Z; format : FpFormat }.

Definition new (bits : Z) (format : FpFormat) : FpValue :=
  mk (Z.land bits (FpFormat.mask format)) format.

End FpValue.

Abbreviation FpValue := FpValue.FpValue.

Module FpOperands.

Record FpOperands : Type := mk { lhs : Z; rhs : Z; format : FpFormat; rounding : FpRounding }.

Definition new (lhs rhs : Z) (format : FpFormat) (rounding : FpRounding) : FpOperands :=
  mk lhs rhs format rounding.

Definition lhs_value (self : FpOperands) : FpValue := FpValue.new (lhs self) (format self).

Definition rhs_value (self : FpOperands) : FpValue := FpValue.new (rhs self) (format self).

End FpOperands.

Abbreviation FpOperands := FpOperands.FpOperands.

Module FpFmaOperands.

Record FpFmaOperands : Type := mk {
  multiplicand : Z;
  multiplier : Z;
  addend : Z;
  format : FpFormat;
  rounding : FpRounding;
  is_product_negated : bool;
  is_addend_negated : bool
}.

End FpFmaOperands.

Abbreviation FpFmaOperands := FpFmaOperands.FpFmaOperands.

Module ToIntegerTarget.

Record ToIntegerTarget : Type := mk {
  format : IntFormat;
  rounding : FpRounding;
  fractional_bits : Z
}.

End ToIntegerTarget.

Abbreviation ToIntegerTarget := ToIntegerTarget.ToIntegerTarget.

Module FromIntegerSource.

Record FromIntegerSource : Type := mk {
  format : IntFormat;
  target : FpFormat;
  rounding : FpRounding;
  fractional_bits : Z
}.

End FromIntegerSource.

Abbreviation FromIntegerSource := FromIntegerSource.FromIntegerSource.

(** The default method of the trait. *)
Definition copy_sign (value : FpValue) (op : FpSignOp) : Z :=
  let sign := wshl 64 1 (FpFormat.sign_shift (FpValue.format value)) in
  match op with
  | FpSignOp.Negate => Z.lxor (FpValue.bits value) sign
  | FpSignOp.Absolute => Z.land (FpValue.bits value) (wnot 64 sign)
  end.

(** The trait, for a stateless backend [B].  Only the two-operand arithmetic can
    panic, in an integer division. *)
Class FpBackend (B : Type) : Type := {
  tracks_exceptions : B -> bool;
  binary : B -> FpBinaryOp -> FpOperands -> FpControl -> may_panic FpResult;
  unary : B -> FpUnaryOp -> FpValue -> FpRounding -> FpControl -> FpResult;
  fused_multiply_add : B -> FpFmaOperands -> FpControl -> FpResult;
  compare : B -> FpOperands -> bool -> FpComparison * FpExceptions;
  convert_format : B -> FpValue -> FpFormat -> FpControl -> FpResult;
  to_integer : B -> FpValue -> ToIntegerTarget -> FpControl -> FpResult;
  convert_from_integer : B -> Z -> FromIntegerSource -> FpControl -> FpResult
}.
