(* ===== verification/FpConvert.v ===== *)
(** Conversions: FP to integer, integer to FP, between FP formats, and rounding
    to an integral value ([crates/core/src/fp/softfloat/convert.rs]). *)

From stdpp Require Import base numbers list option.
From S2P Require Import Prelude FpOperand FpDecompose FpCompare FpBackend.

#[local] Open Scope Z_scope.

Module convert.

Import FpFormat decompose.

Definition rescale (significand : Z) (source target : FpFormat) : Z * bool :=
  let source_scale := mantissa_bits source + GUARD_BITS in
  let target_scale := mantissa_bits target + GUARD_BITS in
  if source_scale <=? target_scale
  then (wshl 64 significand (target_scale - source_scale), false)
  else
    let shift := source_scale - target_scale in
    let discarded := Z.land significand (wsub 64 (wshl 64 1 shift) 1) in
    (wshr 64 significand shift, negb (discarded =? 0)).

Definition convert_nan (bits : Z) (source target : FpFormat) (control : FpControl) : FpResult :=
  let raised :=
    if is_signalling_nan source bits then FpExceptions.INVALID else FpExceptions.NONE in
  if FpControl.is_default_nan control then FpResult.raising (default_nan target) raised else
  let payload := Z.land bits (mantissa_mask source) in
  let source_bits := mantissa_bits source in
  let target_bits := mantissa_bits target in
  let moved :=
    if source_bits <=? target_bits then wshl 64 payload (target_bits - source_bits)
    else wshr 64 payload (source_bits - target_bits) in
  let sign := wshl 64 (b2z (is_negative source bits)) (sign_shift target) in
  FpResult.raising
    (Z.lor (Z.lor (Z.lor sign (infinity target)) (quiet_bit target))
       (Z.land moved (wsub 64 (quiet_bit target) 1)))
    raised.

Definition convert_format (bits : Z) (source target : FpFormat) (control : FpControl)
    (rounding : FpRounding) : FpResult :=
  if is_nan source bits then convert_nan bits source target control
  else if is_infinite source bits
  then FpResult.exact (signed_infinity target (is_negative source bits))
  else if is_zero source bits then FpResult.exact (zero target (is_negative source bits))
  else
    let value := unpack bits source in
    let significand := rescale (Unpacked.significand value) source target in
    round_and_pack
      (Unpacked.mk (Unpacked.is_negative value) (Unpacked.exponent value) (fst significand))
      target (RoundingContext.mk rounding (snd significand) control).

Definition rounds_away (truncated remainder shift : Z) (rounding : FpRounding) (value : Unpacked) :
    bool :=
  let half := wshl 64 1 (shift - 1) in
  match rounding with
  | FpRounding.Nearest =>
      (half <? remainder) || ((remainder =? half) && (Z.land truncated 1 =? 1))
  | FpRounding.NearestAway => half <=? remainder
  | FpRounding.Zero => false
  | FpRounding.Plus => negb (Unpacked.is_negative value)
  | FpRounding.Minus => Unpacked.is_negative value
  | FpRounding.Odd => Z.land truncated 1 =? 0
  end.

(** The directed modes that leave zero for a value of this sign. *)
Definition points_away (rounding : FpRounding) (is_negative : bool) : bool :=
  match rounding, is_negative with
  | FpRounding.Plus, false | FpRounding.Minus, true => true
  | _, _ => false
  end.

Definition round_significand_to_integer (value : Unpacked) (scale : Z) (rounding : FpRounding) :
    option Unpacked :=
  let shift := as_u32 (scale - Unpacked.exponent value) in
  if 64 <=? shift then
    if points_away rounding (Unpacked.is_negative value)
    then Some (Unpacked.mk (Unpacked.is_negative value) 0 (wshl 64 1 scale))
    else None
  else
    let truncated := wshr 64 (Unpacked.significand value) shift in
    let remainder := Z.land (Unpacked.significand value) (wsub 64 (wshl 64 1 shift) 1) in
    let is_away :=
      negb (remainder =? 0) && rounds_away truncated remainder shift rounding value in
    let integral := wadd 64 truncated (b2z is_away) in
    if integral =? 0 then None else
    Some (Unpacked.mk (Unpacked.is_negative value) (Unpacked.exponent value)
            (wshl 64 integral shift)).

Definition round_to_integral (bits : Z) (format : FpFormat) (rounding : FpRounding)
    (control : FpControl) : FpResult :=
  match nan.propagate [bits] format control with
  | Some result => result
  | None =>
  if is_infinite format bits || is_zero format bits then FpResult.exact bits else
  let value := unpack bits format in
  let scale := mantissa_bits format + GUARD_BITS in
  if scale <=? Unpacked.exponent value then FpResult.exact bits else
  match round_significand_to_integer value scale rounding with
  | None => FpResult.exact (zero format (Unpacked.is_negative value))
  | Some integral =>
      round_and_pack
        (Unpacked.mk (Unpacked.is_negative value) (Unpacked.exponent integral)
           (Unpacked.significand integral))
        format (RoundingContext.mk rounding false control)
  end end.

Definition mask_to_width (value : Z) (target : IntFormat) : Z :=
  if 64 <=? IntFormat.bits target then value
  else Z.land value (wsub 64 (wshl 64 1 (IntFormat.bits target)) 1).

Definition saturate (is_negative : bool) (target : IntFormat) : Z :=
  let width := IntFormat.bits target in
  let value :=
    if negb (IntFormat.is_signed target) then if is_negative then 0 else 2 ^ 64 - 1
    else if is_negative then wshl 64 1 (width - 1)
    else wsub 64 (wshl 64 1 (width - 1)) 1 in
  mask_to_width value target.

Definition magnitude_limit (is_negative : bool) (target : IntFormat) : Z :=
  let width := IntFormat.bits target in
  if negb (IntFormat.is_signed target) then wsub 128 (wshl 128 1 width) 1
  else if is_negative then wshl 128 1 (width - 1)
  else wsub 128 (wshl 128 1 (width - 1)) 1.

(** The result is a [u128]; the significand is shifted up in one. *)
Definition integral_magnitude (value : Unpacked) (scale : Z) (rounding : FpRounding) : Z * bool :=
  let shift := Unpacked.exponent value - scale in
  if 0 <=? shift then
    if 128 <=? shift then (2 ^ 128 - 1, false)
    else (wshl 128 (Unpacked.significand value) shift, false)
  else
    let shift := as_u32 (- shift) in
    if 64 <=? shift then (b2z (points_away rounding (Unpacked.is_negative value)), true) else
    let truncated := wshr 64 (Unpacked.significand value) shift in
    let remainder := Z.land (Unpacked.significand value) (wsub 64 (wshl 64 1 shift) 1) in
    if remainder =? 0 then (truncated, false) else
    let half := wshl 64 1 (shift - 1) in
    let is_away :=
      match rounding with
      | FpRounding.Nearest =>
          (half <? remainder) || ((remainder =? half) && (Z.land truncated 1 =? 1))
      | FpRounding.NearestAway => half <=? remainder
      | FpRounding.Zero => false
      | FpRounding.Plus => negb (Unpacked.is_negative value)
      | FpRounding.Minus => Unpacked.is_negative value
      | FpRounding.Odd => Z.land truncated 1 =? 0
      end in
    (wadd 64 truncated (b2z is_away), true).

Definition encode_integer (magnitude : Z) (is_negative is_inexact : bool) (target : IntFormat) :
    FpResult :=
  let inexact := if is_inexact then FpExceptions.INEXACT else FpExceptions.NONE in
  if negb (IntFormat.is_signed target) && is_negative
  then FpResult.raising 0 FpExceptions.INVALID else
  let limit := magnitude_limit is_negative target in
  if limit <? magnitude
  then FpResult.raising (saturate is_negative target) FpExceptions.INVALID else
  let value := if is_negative then wsub 64 0 (as_u64 magnitude) else as_u64 magnitude in
  FpResult.raising (mask_to_width value target) inexact.

Definition to_integer (bits : Z) (format : FpFormat) (target : IntFormat) (rounding : FpRounding) :
    FpResult :=
  if is_nan format bits then FpResult.raising 0 FpExceptions.INVALID else
  let is_negative := is_negative format bits in
  if is_infinite format bits
  then FpResult.raising (saturate is_negative target) FpExceptions.INVALID
  else if is_zero format bits then FpResult.exact 0
  else
    let value := unpack bits format in
    let scale := mantissa_bits format + GUARD_BITS in
    let '(magnitude, is_inexact) := integral_magnitude value scale rounding in
    encode_integer magnitude is_negative is_inexact target.

Definition magnitude_of (value : Z) (source : IntFormat) : Z * bool :=
  let value := mask_to_width value source in
  if negb (IntFormat.is_signed source) then (value, false) else
  let sign_bit := wshl 64 1 (IntFormat.bits source - 1) in
  if Z.land value sign_bit =? 0 then (value, false)
  else (mask_to_width (wsub 64 0 value) source, true).

Definition from_integer (value : Z) (source : IntFormat) (target : FpFormat)
    (rounding : FpRounding) (control : FpControl) : FpResult :=
  let '(magnitude, is_negative) := magnitude_of value source in
  if magnitude =? 0 then FpResult.exact (zero target false) else
  let scale := mantissa_bits target + GUARD_BITS in
  let leading := 63 - leading_zeros 64 magnitude in
  let '(significand, is_sticky) :=
    if leading <=? scale then (wshl 64 magnitude (scale - leading), false)
    else
      let shift := leading - scale in
      let discarded := Z.land magnitude (wsub 64 (wshl 64 1 shift) 1) in
      (wshr 64 magnitude shift, negb (discarded =? 0)) in
  round_and_pack (Unpacked.mk is_negative leading significand) target
    (RoundingContext.mk rounding is_sticky control).

End convert.
