(* ===== verification/FpSoftfloat.v ===== *)
(** The bit-exact backend ([crates/core/src/fp/softfloat/mod.rs]). *)

From stdpp Require Import base numbers list option.
From S2P Require Import Prelude FpOperand FpCompare FpArithmetic FpFused FpBackend FpConvert.

#[local] Open Scope Z_scope.

Module Softfloat.

Record Softfloat : Type := new {}.

Definition context (format : FpFormat) (rounding : FpRounding) (control : FpControl) : Context :=
  Context.mk format rounding control.

Definition tracks_exceptions (self : Softfloat) : bool := true.

Definition binary (self : Softfloat) (op : FpBinaryOp) (operands : FpOperands)
    (control : FpControl) : may_panic FpResult :=
  let format := FpOperands.format operands in
  let context := context format (FpOperands.rounding operands) control in
  let lhs := FpOperands.lhs operands in
  let rhs := FpOperands.rhs operands in
  match op with
  | FpBinaryOp.Add => mret (arithmetic.add lhs rhs false context)
  | FpBinaryOp.Sub => mret (arithmetic.add lhs rhs true context)
  | FpBinaryOp.Mul => mret (arithmetic.multiply lhs rhs context)
  | FpBinaryOp.Div => arithmetic.divide lhs rhs context
  | FpBinaryOp.Max => mret (compare.extremum lhs rhs Extremum.Max format control)
  | FpBinaryOp.Min => mret (compare.extremum lhs rhs Extremum.Min format control)
  | FpBinaryOp.MaxNum => mret (compare.extremum lhs rhs Extremum.MaxNum format control)
  | FpBinaryOp.MinNum => mret (compare.extremum lhs rhs Extremum.MinNum format control)
  end.

Definition unary (self : Softfloat) (op : FpUnaryOp) (operand : FpValue) (rounding : FpRounding)
    (control : FpControl) : FpResult :=
  match op with
  | FpUnaryOp.Sqrt =>
      arithmetic.square_root (FpValue.bits operand)
        (context (FpValue.format operand) rounding control)
  | FpUnaryOp.RoundToIntegral =>
      convert.round_to_integral (FpValue.bits operand) (FpValue.format operand) rounding control
  end.

Definition fused_multiply_add (self : Softfloat) (operands : FpFmaOperands)
    (control : FpControl) : FpResult :=
  fused.multiply_add
    (FusedOperands.mk (FpFmaOperands.multiplicand operands) (FpFmaOperands.multiplier operands)
       (FpFmaOperands.addend operands) (FpFmaOperands.is_product_negated operands)
       (FpFmaOperands.is_addend_negated operands))
    (context (FpFmaOperands.format operands) (FpFmaOperands.rounding operands) control).

Definition compare (self : Softfloat) (operands : FpOperands) (is_signalling : bool) :
    FpComparison * FpExceptions :=
  compare.compare (FpOperands.lhs operands) (FpOperands.rhs operands)
    (FpOperands.format operands) is_signalling.

Definition convert_format (self : Softfloat) (value : FpValue) (target : FpFormat)
    (control : FpControl) : FpResult :=
  convert.convert_format (FpValue.bits value) (FpValue.format value) target control
    (FpControl.rounding control).

Definition to_integer (self : Softfloat) (value : FpValue) (target : ToIntegerTarget)
    (control : FpControl) : FpResult :=
  convert.to_integer (FpValue.bits value) (FpValue.format value)
    (ToIntegerTarget.format target) (ToIntegerTarget.rounding target).

Definition convert_from_integer (self : Softfloat) (value : Z) (source : FromIntegerSource)
    (control : FpControl) : FpResult :=
  convert.from_integer value (FromIntegerSource.format source) (FromIntegerSource.target source)
    (FromIntegerSource.rounding source) control.

End Softfloat.

Abbreviation Softfloat := Softfloat.Softfloat.

#[global] Instance softfloat_backend : FpBackend Softfloat := {
  tracks_exceptions := Softfloat.tracks_exceptions;
  binary := Softfloat.binary;
  unary := Softfloat.unary;
  fused_multiply_add := Softfloat.fused_multiply_add;
  compare := Softfloat.compare;
  convert_format := Softfloat.convert_format;
  to_integer := Softfloat.to_integer;
  convert_from_integer := Softfloat.convert_from_integer
}.
