(* ===== verification/FpNative.v ===== *)
(** The backend that uses the host's own float operations
    ([crates/core/src/fp/native.rs]).

    The operators of [f32] and [f64] are the host's: a parameter, on the bits of
    the operands. *)

From stdpp Require Import base numbers list option.
From S2P Require Import Prelude FpOperand FpBackend FpSoftfloat.

#[local] Open Scope Z_scope.

(** The operators of one host float type. *)
Record host_ops : Type := {
  host_add : Z -> Z -> Z;
  host_sub : Z -> Z -> Z;
  host_mul : Z -> Z -> Z;
  host_div : Z -> Z -> Z;
  host_lt : Z -> Z -> bool;
  host_eq : Z -> Z -> bool
}.

Class HostFloat : Type := {
  f32 : host_ops;
  f64 : host_ops;
  f32_as_f64 : Z -> Z;
  f64_as_f32 : Z -> Z
}.

Module Native.

Section Native.

Context `{HostFloat}.

Record Native : Type := mk { fallback : Softfloat }.

Definition new : Native := mk Softfloat.new.

Definition can_serve (format : FpFormat) (rounding : FpRounding) : bool :=
  match rounding with FpRounding.Nearest => true | _ => false end &&
  match format with FpFormat.Single | FpFormat.Double => true | _ => false end.

Definition dispatch_binary (format : FpFormat) (operands : Z * Z) (single double : Z -> Z -> Z) :
    Z :=
  match format with
  | FpFormat.Single => single (as_u32 (fst operands)) (as_u32 (snd operands))
  | _ => double (fst operands) (snd operands)
  end.

Definition partial_order (T : host_ops) (lhs rhs : Z) : FpComparison :=
  if host_lt T lhs rhs then FpComparison.Less
  else if host_lt T rhs lhs then FpComparison.Greater
  else if host_eq T lhs rhs then FpComparison.Equal
  else FpComparison.Unordered.

Definition tracks_exceptions (self : Native) : bool := false.

Definition binary (self : Native) (op : FpBinaryOp) (operands : FpOperands)
    (control : FpControl) : may_panic FpResult :=
  if negb (can_serve (FpOperands.format operands) (FpOperands.rounding operands))
  then FpBackend.binary (fallback self) op operands control else
  let pair := (FpOperands.lhs operands, FpOperands.rhs operands) in
  let format := FpOperands.format operands in
  match op with
  | FpBinaryOp.Add =>
      mret (FpResult.exact (dispatch_binary format pair (host_add f32) (host_add f64)))
  | FpBinaryOp.Sub =>
      mret (FpResult.exact (dispatch_binary format pair (host_sub f32) (host_sub f64)))
  | FpBinaryOp.Mul =>
      mret (FpResult.exact (dispatch_binary format pair (host_mul f32) (host_mul f64)))
  | FpBinaryOp.Div =>
      mret (FpResult.exact (dispatch_binary format pair (host_div f32) (host_div f64)))
  | FpBinaryOp.Max | FpBinaryOp.Min | FpBinaryOp.MaxNum | FpBinaryOp.MinNum =>
      FpBackend.binary (fallback self) op operands control
  end.

Definition unary (self : Native) (op : FpUnaryOp) (operand : FpValue) (rounding : FpRounding)
    (control : FpControl) : FpResult :=
  FpBackend.unary (fallback self) op operand rounding control.

Definition fused_multiply_add (self : Native) (operands : FpFmaOperands) (control : FpControl) :
    FpResult :=
  FpBackend.fused_multiply_add (fallback self) operands control.

Definition compare (self : Native) (operands : FpOperands) (is_signalling : bool) :
    FpComparison * FpExceptions :=
  match FpOperands.format operands with
  | FpFormat.Half => FpBackend.compare (fallback self) operands is_signalling
  | FpFormat.Single =>
      (partial_order f32 (as_u32 (FpOperands.lhs operands)) (as_u32 (FpOperands.rhs operands)),
       FpExceptions.NONE)
  | FpFormat.Double =>
      (partial_order f64 (FpOperands.lhs operands) (FpOperands.rhs operands), FpExceptions.NONE)
  end.

Definition convert_format (self : Native) (value : FpValue) (target : FpFormat)
    (control : FpControl) : FpResult :=
  match FpValue.format value, target with
  | FpFormat.Single, FpFormat.Double =>
      FpResult.exact (f32_as_f64 (as_u32 (FpValue.bits value)))
  | FpFormat.Double, FpFormat.Single => FpResult.exact (f64_as_f32 (FpValue.bits value))
  | _, _ => FpBackend.convert_format (fallback self) value target control
  end.

Definition to_integer (self : Native) (value : FpValue) (target : ToIntegerTarget)
    (control : FpControl) : FpResult :=
  FpBackend.to_integer (fallback self) value target control.

Definition convert_from_integer (self : Native) (value : Z) (source : FromIntegerSource)
    (control : FpControl) : FpResult :=
  FpBackend.convert_from_integer (fallback self) value source control.

End Native.

End Native.

Abbreviation Native := Native.Native.

#[global] Instance native_backend `{HostFloat} : FpBackend Native := {
  tracks_exceptions := Native.tracks_exceptions;
  binary := Native.binary;
  unary := Native.unary;
  fused_multiply_add := Native.fused_multiply_add;
  compare := Native.compare;
  convert_format := Native.convert_format;
  to_integer := Native.to_integer;
  convert_from_integer := Native.convert_from_integer
}.
