(* ===== verification/FpEngine.v ===== *)
(** Backend selection and the FPSR bookkeeping
    ([crates/core/src/fp/engine.rs]). *)

From stdpp Require Import base numbers list option.
From S2P Require Import Prelude FpOperand FpBackend FpSoftfloat FpNative.

#[local] Open Scope Z_scope.

(** [cfg!(feature = "fp-precise")]. *)
Class PreciseBuild : Type := IS_PRECISE_BUILD : bool.

(** A [&dyn FpBackend]. *)
Record dyn_backend : Type := dyn {
  backend_type : Type;
  backend_methods :: FpBackend backend_type;
  backend_value : backend_type
}.

Arguments dyn {_ _} _.

Module Selected.

Inductive Selected : Type := Native (backend : Native) | Reference (backend : Softfloat).

End Selected.

Abbreviation Selected := Selected.Selected.

Module FpEngine.

Record FpEngine : Type := mk { selected : Selected; control : FpControl; exceptions : Z }.

Section Engine.

Context `{HostFloat} `{PreciseBuild}.

Definition select (fpcr : Z) : Selected :=
  if IS_PRECISE_BUILD || negb (is_default_mode_bits fpcr)
  then Selected.Reference Softfloat.new
  else Selected.Native Native.new.

Definition selects_native_backend (fpcr : Z) : bool :=
  match select fpcr with Selected.Native _ => true | _ => false end.

Definition with_fpcr (fpcr : Z) : FpEngine := mk (select fpcr) (FpControl.from_bits fpcr) 0.

Definition new : FpEngine := with_fpcr 0.

Definition set_fpcr (self : FpEngine) (fpcr : Z) : FpEngine :=
  mk (select fpcr) (FpControl.from_bits fpcr) (exceptions self).

Definition set_exceptions (self : FpEngine) (fpsr : Z) : FpEngine :=
  mk (selected self) (control self) fpsr.

Definition backend (self : FpEngine) : dyn_backend :=
  match selected self with
  | Selected.Native backend => dyn backend
  | Selected.Reference backend => dyn backend
  end.

Definition tracks_exceptions (self : FpEngine) : bool :=
  FpBackend.tracks_exceptions (backend_value (backend self)).

Definition default_rounding (self : FpEngine) : FpRounding := FpControl.rounding (control self).

(** The [self.exceptions = accumulate(..)] of [record] and the comparisons. *)
Definition raise (self : FpEngine) (raised : FpExceptions) : FpEngine :=
  set_exceptions self (accumulate (exceptions self) raised).

Definition record (self : FpEngine) (result : FpResult) : Z * FpEngine :=
  (FpResult.bits result, raise self (FpResult.raised result)).

Definition binary (self : FpEngine) (op : FpBinaryOp) (operands : FpOperands) :
    may_panic (Z * FpEngine) :=
  result ← FpBackend.binary (backend_value (backend self)) op operands (control self);
  mret (record self result).

Definition unary (self : FpEngine) (op : FpUnaryOp) (operand : FpValue) (rounding : FpRounding) :
    Z * FpEngine :=
  record self (FpBackend.unary (backend_value (backend self)) op operand rounding (control self)).

Definition fused_multiply_add (self : FpEngine) (operands : FpFmaOperands) : Z * FpEngine :=
  record self
    (FpBackend.fused_multiply_add (backend_value (backend self)) operands (control self)).

Definition copy_sign (self : FpEngine) (value : FpValue) (op : FpSignOp) : Z :=
  FpBackend.copy_sign value op.

Definition compare (self : FpEngine) (operands : FpOperands) (is_signalling : bool) :
    Z * FpEngine :=
  let '(ordering, raised) :=
    FpBackend.compare (backend_value (backend self)) operands is_signalling in
  (FpComparison.to_nzcv ordering, raise self raised).

Definition compare_ordering (self : FpEngine) (operands : FpOperands) :
    FpComparison * FpEngine :=
  let '(ordering, raised) := FpBackend.compare (backend_value (backend self)) operands false in
  (ordering, raise self raised).

Definition convert_format (self : FpEngine) (value : FpValue) (target : FpFormat) :
    Z * FpEngine :=
  record self
    (FpBackend.convert_format (backend_value (backend self)) value target (control self)).

Definition to_integer (self : FpEngine) (value : FpValue) (target : ToIntegerTarget) :
    Z * FpEngine :=
  record self (FpBackend.to_integer (backend_value (backend self)) value target (control self)).

Definition convert_from_integer (self : FpEngine) (value : Z) (source : FromIntegerSource) :
    Z * FpEngine :=
  record self
    (FpBackend.convert_from_integer (backend_value (backend self)) value source (control self)).

End Engine.

End FpEngine.

Abbreviation FpEngine := FpEngine.FpEngine.
