(* ===== verification/FpMagnitude.v ===== *)
(** Exact magnitudes and what it is to round one: the reference the softfloat
    results are measured against.

    A magnitude is a non-negative real number known by its integer part at every
    binary scale and by whether it is a whole number of units there.  That
    covers the exact sums, products, quotients and square roots, and is all that
    rounding looks at. *)

From stdpp Require Import base numbers list option.
From S2P Require Import Prelude FpOperand.

#[local] Open Scope Z_scope.

(** [floor_at x k] is the integer part of [x / 2^k]; [exact_at x k] says that
    [x] is a multiple of [2^k]. *)
Record magnitude : Type := { floor_at : Z -> Z; exact_at : Z -> bool }.

Record magnitude_ok (x : magnitude) : Prop := {
  floor_nonneg : forall k, 0 <= floor_at x k;
  floor_step : forall k, floor_at x (k + 1) = floor_at x k / 2;
  exact_step : forall k, exact_at x (k + 1) = exact_at x k && Z.even (floor_at x k)
}.

(** ** Quotients and roots *)

(** [n / d * 2^e]. *)
Definition ratio_num (n e k : Z) : Z := n * 2 ^ Z.max 0 (e - k).
Definition ratio_den (d e k : Z) : Z := d * 2 ^ Z.max 0 (k - e).

Definition ratio (n d e : Z) : magnitude :=
  {| floor_at := fun k => ratio_num n e k / ratio_den d e k;
     exact_at := fun k => ratio_num n e k mod ratio_den d e k =? 0 |}.

(** [sqrt n * 2^e]. *)
Definition root (n e : Z) : magnitude :=
  {| floor_at := fun k => Z.sqrt (ratio_num n (2 * e) (2 * k) / ratio_den 1 (2 * e) (2 * k));
     exact_at := fun k =>
       Z.sqrt (ratio_num n (2 * e) (2 * k) / ratio_den 1 (2 * e) (2 * k)) ^ 2 *
       ratio_den 1 (2 * e) (2 * k) =? ratio_num n (2 * e) (2 * k) |}.

(** Going up one scale halves the numerator or doubles the denominator. *)
Lemma ratio_up (n d e k : Z) :
  (ratio_num n e k = 2 * ratio_num n e (k + 1) /\ ratio_den d e (k + 1) = ratio_den d e k) \/
  (ratio_num n e (k + 1) = ratio_num n e k /\ ratio_den d e (k + 1) = 2 * ratio_den d e k).
Proof.
  unfold ratio_num, ratio_den. destruct (Z.lt_ge_cases k e) as [Hlt | Hge]; [left | right].
  - rewrite (Z.max_r 0 (e - k)), (Z.max_r 0 (e - (k + 1))), !Z.max_l by lia.
    replace (e - k) with (Z.succ (e - (k + 1))) by lia. rewrite Z.pow_succ_r by lia. lia.
  - rewrite (Z.max_l 0 (e - k)), (Z.max_l 0 (e - (k + 1))) by lia.
    rewrite (Z.max_r 0 (k - e)), (Z.max_r 0 (k + 1 - e)) by lia.
    replace (k + 1 - e) with (Z.succ (k - e)) by lia. rewrite Z.pow_succ_r by lia. lia.
Qed.

Lemma ratio_num_nonneg (n e k : Z) : 0 <= n -> 0 <= ratio_num n e k.
Proof. intros Hn. unfold ratio_num. pose proof (pow2_pos (Z.max 0 (e - k))). nia. Qed.

Lemma ratio_den_pos (d e k : Z) : 0 < d -> 0 < ratio_den d e k.
Proof. intros Hd. unfold ratio_den. pose proof (pow2_pos (Z.max 0 (k - e)) ltac:(lia)). nia. Qed.

Lemma even_mod (n : Z) : Z.even n = (n mod 2 =? 0).
Proof. rewrite Zeven_mod. destruct (n mod 2); reflexivity. Qed.

Lemma multiple_double_num (n d : Z) :
  0 < d -> n mod d = 0 <-> (2 * n) mod d = 0 /\ (2 * n / d) mod 2 = 0.
Proof.
  intros Hd. rewrite !Z.mod_divide by lia. split.
  - intros [q ->]. split; [exists (2 * q); lia |]. exists q.
    replace (2 * (q * d)) with (2 * q * d) by lia. rewrite Z.div_mul by lia. lia.
  - intros [[q Hq] [p Hp]]. rewrite Hq, Z.div_mul in Hp by lia. exists p. nia.
Qed.

Lemma multiple_double_den (n d : Z) :
  0 < d -> n mod (2 * d) = 0 <-> n mod d = 0 /\ (n / d) mod 2 = 0.
Proof.
  intros Hd. rewrite !Z.mod_divide by lia. split.
  - intros [q ->]. split; [exists (2 * q); lia |]. exists q.
    replace (q * (2 * d)) with (q * 2 * d) by lia. rewrite Z.div_mul by lia. lia.
  - intros [[q ->] [p Hp]]. rewrite Z.div_mul in Hp by lia. exists p. nia.
Qed.

Lemma ratio_ok (n d e : Z) : 0 <= n -> 0 < d -> magnitude_ok (ratio n d e).
Proof.
  intros Hn Hd. split; intros k; cbn [floor_at exact_at ratio].
  - apply Z.div_pos; [apply ratio_num_nonneg | apply ratio_den_pos]; assumption.
  - pose proof (ratio_den_pos d e k Hd).
    destruct (ratio_up n d e k) as [[-> ->] | [-> ->]].
    + rewrite Z.div_div, (Z.mul_comm _ 2), Z.div_mul_cancel_l by lia. reflexivity.
    + rewrite Z.div_div, (Z.mul_comm _ 2) by lia. reflexivity.
  - pose proof (ratio_den_pos d e k Hd) as HD.
    rewrite even_mod. apply eq_true_iff_eq. rewrite andb_true_iff, !Z.eqb_eq.
    destruct (ratio_up n d e k) as [[-> ->] | [-> ->]];
      [apply multiple_double_num | apply multiple_double_den]; exact HD.
Qed.

(** The root of a quarter is half the root. *)
Lemma sqrt_quarter (m : Z) : 0 <= m -> Z.sqrt (m / 4) = Z.sqrt m / 2.
Proof.
  intros Hm. apply Z.sqrt_unique. pose proof (Z.sqrt_spec m Hm) as [Hlo Hhi].
  pose proof (Z.sqrt_nonneg m).
  set (t := Z.sqrt m) in *. clearbody t.
  assert (t = 2 * (t / 2) + t mod 2) by (apply Z.div_mod; lia).
  pose proof (Z.mod_pos_bound t 2 ltac:(lia)). pose proof (Z.div_pos t 2 ltac:(lia) ltac:(lia)).
  split; [apply Z.div_le_lower_bound; nia | apply Z.div_lt_upper_bound; nia].
Qed.

Lemma root_scale (n e k : Z) :
  0 <= n ->
  let N := ratio_num n (2 * e) (2 * k) in let D := ratio_den 1 (2 * e) (2 * k) in
  let N' := ratio_num n (2 * e) (2 * (k + 1)) in let D' := ratio_den 1 (2 * e) (2 * (k + 1)) in
  0 <= N /\ 0 < D /\ 0 <= N' /\ 0 < D' /\
  ((N = 4 * N' /\ D' = D /\ D = 1) \/ (N' = N /\ D' = 4 * D)).
Proof.
  intros Hn. cbv zeta. pose proof (ratio_num_nonneg n (2 * e) (2 * k) Hn).
  pose proof (ratio_num_nonneg n (2 * e) (2 * (k + 1)) Hn).
  pose proof (ratio_den_pos 1 (2 * e) (2 * k) ltac:(lia)).
  pose proof (ratio_den_pos 1 (2 * e) (2 * (k + 1)) ltac:(lia)).
  split; [assumption |]. split; [assumption |]. split; [assumption |]. split; [assumption |].
  unfold ratio_num, ratio_den in *. destruct (Z.lt_ge_cases k e) as [Hlt | Hge]; [left | right].
  - rewrite (Z.max_r 0 (2 * e - 2 * k)), (Z.max_r 0 (2 * e - 2 * (k + 1))), !Z.max_l by lia.
    replace (2 * e - 2 * k) with (2 + (2 * e - 2 * (k + 1))) by lia.
    rewrite (Z.pow_add_r 2 2) by lia. change (2 ^ 2) with 4. change (2 ^ 0) with 1. lia.
  - rewrite (Z.max_l 0 (2 * e - 2 * k)), (Z.max_l 0 (2 * e - 2 * (k + 1))) by lia.
    rewrite (Z.max_r 0 (2 * k - 2 * e)), (Z.max_r 0 (2 * (k + 1) - 2 * e)) by lia.
    replace (2 * (k + 1) - 2 * e) with (2 + (2 * k - 2 * e)) by lia.
    rewrite (Z.pow_add_r 2 2) by lia. change (2 ^ 2) with 4. lia.
Qed.

Lemma quarter (N D N' D' : Z) :
  0 < D -> (N = 4 * N' /\ D' = D /\ D = 1) \/ (N' = N /\ D' = 4 * D) -> N' / D' = N / D / 4.
Proof.
  intros HD [(-> & -> & ->) | (-> & ->)].
  - rewrite !Z.div_1_r, Z.mul_comm, Z.div_mul by lia. reflexivity.
  - rewrite Z.div_div, Z.mul_comm by lia. reflexivity.
Qed.

Lemma root_ok (n e : Z) : 0 <= n -> magnitude_ok (root n e).
Proof.
  intros Hn. split; intros k; cbn [floor_at exact_at root]; [apply Z.sqrt_nonneg | |].
  - destruct (root_scale n e k Hn) as (HN & HD & HN' & HD' & Hcase). rewrite <- sqrt_quarter
      by (apply Z.div_pos; assumption).
    f_equal. apply quarter; assumption.
  - destruct (root_scale n e k Hn) as (HN & HD & HN' & HD' & Hcase).
    set (N := ratio_num n (2 * e) (2 * k)) in *. set (D := ratio_den 1 (2 * e) (2 * k)) in *.
    set (N' := ratio_num n (2 * e) (2 * (k + 1))) in *.
    set (D' := ratio_den 1 (2 * e) (2 * (k + 1))) in *. clearbody N D N' D'.
    pose proof (quarter N D N' D' HD Hcase) as Eq.
    rewrite Eq, sqrt_quarter by (apply Z.div_pos; assumption).
    pose proof (Z.sqrt_spec (N / D) (Z.div_pos N D HN HD)) as [Hlo _].
    pose proof (Z.sqrt_nonneg (N / D)).
    set (t := Z.sqrt (N / D)) in *. clearbody t.
    rewrite even_mod. apply eq_true_iff_eq. rewrite andb_true_iff, !Z.eqb_eq, !Z.pow_2_r.
    pose proof (Z.div_mod t 2 ltac:(lia)). pose proof (Z.mod_pos_bound t 2 ltac:(lia)).
    set (h := t / 2) in *. set (r := t mod 2) in *. clearbody h r. clear Eq.
    assert (N / D = 4 * (h * h) -> r = 0) as Hr by (intros E; rewrite E in Hlo; nia).
    destruct Hcase as [(-> & -> & ->) | (-> & ->)].
    + rewrite Z.div_1_r in Hr. split; [intros E | nia]. assert (r = 0) by (apply Hr; lia). nia.
    + split; [intros E | nia].
      assert (r = 0) by (apply Hr; rewrite <- E; replace (h * h * (4 * D)) with (4 * (h * h) * D) by lia;
                         apply Z.div_mul; lia). nia.
Qed.

(** ** Rounding *)

(** The least exponent of a normal value. *)
Definition min_exponent (format : FpFormat) : Z := 1 - FpFormat.exponent_bias format.

(** Whether the magnitude of a value of sign [is_negative], which lies between
    two neighbours [2^k] apart, goes to the upper one. *)
Definition rounds_up (rounding : FpRounding) (is_negative : bool) (x : magnitude) (k : Z) : bool :=
  let at_least_half := Z.odd (floor_at x (k - 1)) in
  let is_inexact := negb (exact_at x k) in
  match rounding with
  | FpRounding.Nearest =>
      at_least_half && (negb (exact_at x (k - 1)) || Z.odd (floor_at x k))
  | FpRounding.NearestAway => at_least_half
  | FpRounding.Zero => false
  | FpRounding.Plus => is_inexact && negb is_negative
  | FpRounding.Minus => is_inexact && is_negative
  | FpRounding.Odd => is_inexact && Z.even (floor_at x k)
  end.

Definition rounded (rounding : FpRounding) (is_negative : bool) (x : magnitude) (k : Z) : Z :=
  floor_at x k + b2z (rounds_up rounding is_negative x k).

(** The spacing of the format's values around a magnitude of exponent [e]. *)
Definition quantum (format : FpFormat) (e : Z) : Z :=
  Z.max e (min_exponent format) - FpFormat.mantissa_bits format.

Definition overflows_to_infinity (rounding : FpRounding) (is_negative : bool) : bool :=
  match rounding with
  | FpRounding.Nearest | FpRounding.NearestAway => true
  | FpRounding.Plus => negb is_negative
  | FpRounding.Minus => is_negative
  | FpRounding.Zero | FpRounding.Odd => false
  end.

(** The format's value nearest to [x] in the rounding's sense, for [x] of
    exponent [e], with the flags.  Consecutive encodings are consecutive
    values, so the encoding is the count of quanta on top of the encodings of
    the smaller binades. *)
Definition ieee_round (format : FpFormat) (rounding : FpRounding) (is_negative : bool)
    (x : magnitude) (e : Z) : FpResult :=
  let m := FpFormat.mantissa_bits format in
  let k := quantum format e in
  let infinity := (2 ^ FpFormat.exponent_bits format - 1) * 2 ^ m in
  let encoded := (k + m - min_exponent format) * 2 ^ m + rounded rounding is_negative x k in
  let sign := b2z is_negative * 2 ^ FpFormat.sign_shift format in
  if infinity <=? encoded then
    FpResult.mk (sign + (if overflows_to_infinity rounding is_negative then infinity else infinity - 1))
      (FpExceptions.union FpExceptions.OVERFLOW FpExceptions.INEXACT)
  else
    FpResult.mk (sign + encoded)
      (if exact_at x k then FpExceptions.NONE
       else if e <? min_exponent format
       then FpExceptions.union FpExceptions.INEXACT FpExceptions.UNDERFLOW
       else FpExceptions.INEXACT).

(** ** What the laws give *)

Section Laws.

Context (x : magnitude) (Hx : magnitude_ok x).

Lemma floor_up (k j : Z) : 0 <= j -> floor_at x (k + j) = floor_at x k / 2 ^ j.
Proof.
  revert j. refine (natlike_ind (fun j => floor_at x (k + j) = floor_at x k / 2 ^ j) _ _);
    [rewrite Z.add_0_r, Z.div_1_r; reflexivity |].
  intros j Hj IH. rewrite Z.pow_succ_r, Z.mul_comm, <- Z.div_div, <- IH by lia.
  replace (k + Z.succ j) with (k + j + 1) by lia. apply (floor_step x Hx).
Qed.

(** A multiple of [2^(k+j)] is one of [2^k]. *)
Lemma exact_up (k j : Z) :
  0 <= j -> exact_at x (k + j) = true ->
  exact_at x k = true /\ floor_at x k = floor_at x (k + j) * 2 ^ j.
Proof.
  revert j.
  refine (natlike_ind (fun j => exact_at x (k + j) = true ->
    exact_at x k = true /\ floor_at x k = floor_at x (k + j) * 2 ^ j) _ _);
    [rewrite Z.add_0_r; intros H; split; [exact H | lia] |].
  intros j Hj IH. replace (k + Z.succ j) with (k + j + 1) by lia.
  rewrite (exact_step x Hx), (floor_step x Hx). intros [He Hf]%andb_true_iff.
  destruct (IH He) as [Hk ->]. split; [exact Hk |]. rewrite Z.pow_succ_r by lia.
  rewrite even_mod, Z.eqb_eq in Hf. pose proof (Z.div_mod (floor_at x (k + j)) 2 ltac:(lia)). nia.
Qed.

(** Nothing below one unit but zero is a whole number of units. *)
Lemma exact_below (e k : Z) :
  0 < floor_at x e -> e <= k -> floor_at x k = 0 -> exact_at x k = false.
Proof.
  intros He Hk H0. destruct (exact_at x k) eqn:E; [| reflexivity]. exfalso.
  destruct (exact_up e (k - e)) as [_ Hf]; [lia | |].
  - replace (e + (k - e)) with k by lia. exact E.
  - replace (e + (k - e)) with k in Hf by lia. rewrite H0 in Hf. lia.
Qed.

(** The significand [q], with [st] for what was lost below it, stands for [x]
    in units of [2^k], up to the last bit. *)
Definition tracks (q : Z) (st : bool) (k : Z) : Prop :=
  0 <= q /\ floor_at x (k + 1) = q / 2 /\ exact_at x (k + 1) = negb st && Z.even q.

(** The same including the last bit. *)
Definition represents_at (q : Z) (st : bool) (k : Z) : Prop :=
  floor_at x k = q /\ exact_at x k = negb st.

Lemma represents_tracks (q : Z) (st : bool) (k : Z) : represents_at q st k -> tracks q st k.
Proof.
  intros [Hf He]. split; [rewrite <- Hf; apply (floor_nonneg x Hx) |].
  rewrite (floor_step x Hx), (exact_step x Hx), Hf, He. split; reflexivity.
Qed.

Lemma represents_shr (q : Z) (st : bool) (k : Z) :
  represents_at q st k -> represents_at (q / 2) (st || Z.odd q) (k + 1).
Proof.
  intros [Hf He]. split; [rewrite (floor_step x Hx), Hf; reflexivity |].
  rewrite (exact_step x Hx), Hf, He, <- Z.negb_odd. destruct st, (Z.odd q); reflexivity.
Qed.

(** An exact significand may be shifted up freely. *)
Lemma represents_shl (q k j : Z) :
  0 <= j -> represents_at q false k -> represents_at (q * 2 ^ j) false (k - j).
Proof.
  intros Hj [Hf He]. destruct (exact_up (k - j) j Hj) as [He' Hf'].
  - replace (k - j + j) with k by lia. exact He.
  - replace (k - j + j) with k in Hf' by lia. split; [rewrite Hf', Hf; reflexivity | exact He'].
Qed.

(** An inexact one by one bit, keeping all but the last. *)
Lemma tracks_shl (q k : Z) : represents_at q true k -> tracks (q * 2) true (k - 1).
Proof.
  intros [Hf He]. split; [rewrite <- Hf; pose proof (floor_nonneg x Hx k); lia |].
  replace (k - 1 + 1) with k by lia. rewrite Hf, He, Z.div_mul by lia. split; reflexivity.
Qed.

Lemma tracks_shr (q : Z) (st : bool) (k j : Z) :
  1 <= j -> tracks q st k ->
  represents_at (q / 2 ^ j) (st || negb (q mod 2 ^ j =? 0)) (k + j).
Proof.
  intros Hj (Hq & Hf & He). pose proof (pow2_pos (j - 1) ltac:(lia)) as Hp.
  assert (represents_at (q / 2) (st || Z.odd q) (k + 1)) as H1.
  { split; [exact Hf |]. rewrite He, <- Z.negb_odd. destruct st, (Z.odd q); reflexivity. }
  assert (forall i, 0 <= i -> represents_at (q / 2 / 2 ^ i)
            (st || Z.odd q || negb ((q / 2) mod 2 ^ i =? 0)) (k + 1 + i)) as Hi.
  { refine (natlike_ind (fun i => represents_at (q / 2 / 2 ^ i)
        (st || Z.odd q || negb ((q / 2) mod 2 ^ i =? 0)) (k + 1 + i)) _ _).
    - rewrite Z.div_1_r, Z.mod_1_r, orb_false_r, Z.add_0_r. exact H1.
    - intros i Hi IH. replace (k + 1 + Z.succ i) with (k + 1 + i + 1) by lia.
      apply represents_shr in IH. rewrite Z.div_div in IH by (pose proof (pow2_pos i Hi); lia).
      replace (2 ^ i * 2) with (2 ^ Z.succ i) in IH by (rewrite Z.pow_succ_r by lia; lia).
      replace (st || Z.odd q || negb ((q / 2) mod 2 ^ Z.succ i =? 0))
        with (st || Z.odd q || negb ((q / 2) mod 2 ^ i =? 0) || Z.odd (q / 2 / 2 ^ i)); [exact IH |].
      rewrite <- !orb_assoc. do 2 f_equal. generalize (q / 2). intros p.
      rewrite <- Z.negb_even, even_mod. pose proof (pow2_pos i Hi).
      rewrite Z.pow_succ_r, (Z.mul_comm 2), Z.rem_mul_r by lia.
      pose proof (Z.mod_pos_bound p (2 ^ i) ltac:(lia)).
      pose proof (Z.mod_pos_bound (p / 2 ^ i) 2 ltac:(lia)).
      destruct (Z.eqb_spec (p mod 2 ^ i) 0), (Z.eqb_spec ((p / 2 ^ i) mod 2) 0),
        (Z.eqb_spec (p mod 2 ^ i + 2 ^ i * ((p / 2 ^ i) mod 2)) 0); cbn; reflexivity || nia. }
  specialize (Hi (j - 1) ltac:(lia)). replace (k + 1 + (j - 1)) with (k + j) in Hi by lia.
  rewrite Z.div_div in Hi by lia. replace (2 * 2 ^ (j - 1)) with (2 ^ j) in Hi
    by (rewrite <- Z.pow_succ_r by lia; f_equal; lia).
  replace (st || negb (q mod 2 ^ j =? 0)) with (st || Z.odd q || negb ((q / 2) mod 2 ^ (j - 1) =? 0));
    [exact Hi |].
  rewrite <- orb_assoc. f_equal. replace (2 ^ j) with (2 * 2 ^ (j - 1))
    by (rewrite <- Z.pow_succ_r by lia; f_equal; lia).
  rewrite Z.rem_mul_r, <- Z.negb_even, even_mod by lia.
  pose proof (Z.mod_pos_bound q 2 ltac:(lia)).
  pose proof (Z.mod_pos_bound (q / 2) (2 ^ (j - 1)) ltac:(lia)).
  destruct (Z.eqb_spec (q mod 2) 0), (Z.eqb_spec ((q / 2) mod 2 ^ (j - 1)) 0),
    (Z.eqb_spec (q mod 2 + 2 * ((q / 2) mod 2 ^ (j - 1))) 0); cbn; reflexivity || lia.
Qed.

End Laws.
