(* ===== verification/FpRound.v ===== *)
(** Rounding a significand, normalising, packing, and the whole of
    [round_and_pack] ([softfloat/decompose.rs]) against the reference
    [ieee_round], for any magnitude the operands stand for: the bits below the
    quantum and the sticky bit decide as the magnitude does. *)

From stdpp Require Import base numbers list option.
From S2P Require Import Prelude FpOperand FpDecompose FpMagnitude.

#[local] Open Scope Z_scope.

Import FpFormat decompose.

(** ** Bits *)

Lemma land_bit (x n : Z) : 0 <= n -> (Z.land x (2 ^ n) =? 0) = negb (Z.testbit x n).
Proof.
  intros Hn. destruct (Z.testbit x n) eqn:E; cbn [negb].
  - apply Z.eqb_neq. intros H. apply (f_equal (fun y => Z.testbit y n)) in H.
    rewrite Z.land_spec, E, Z.pow2_bits_true, Z.bits_0 in H by lia. discriminate H.
  - apply Z.eqb_eq, Z.bits_inj'. intros i Hi. rewrite Z.land_spec, Z.bits_0, Z.pow2_bits_eqb by lia.
    destruct (Z.eqb_spec n i) as [<- |]; [rewrite E; reflexivity | apply andb_false_r].
Qed.

Lemma land_one (x : Z) : (Z.land x 1 =? 0) = negb (Z.odd x).
Proof. rewrite <- Z.bit0_odd. apply (land_bit x 0). lia. Qed.

Lemma land_low (x n : Z) : 0 <= n -> Z.land x (2 ^ n - 1) = x mod 2 ^ n.
Proof. intros Hn. rewrite <- Z.land_ones, Z.ones_equiv by lia. reflexivity. Qed.

(** Clearing the low bits of a [u64]. *)
Lemma land_high (x n : Z) :
  0 <= n < 64 -> in_range 64 x -> Z.land x (wnot 64 (2 ^ n - 1)) = x / 2 ^ n * 2 ^ n.
Proof.
  intros Hn Hx. rewrite <- Z.shiftl_mul_pow2, <- Z.shiftr_div_pow2 by lia.
  apply Z.bits_inj'. intros i Hi. rewrite Z.land_spec, wnot_testbit by lia.
  replace (2 ^ n - 1) with (Z.ones n) by (rewrite Z.ones_equiv; lia).
  rewrite Z.testbit_ones_nonneg by lia.
  destruct (Z.lt_ge_cases i n) as [Hlt | Hge].
  - rewrite Z.shiftl_spec_low by lia. destruct (Z.ltb_spec i n); [| lia]. cbn.
    rewrite andb_false_r, andb_false_r. reflexivity.
  - rewrite Z.shiftl_spec_high, Z.shiftr_spec by lia. replace (i - n + n) with i by lia.
    destruct (Z.ltb_spec i n); [lia |]. cbn. destruct (Z.ltb_spec i 64); [apply andb_true_r |].
    rewrite (in_range_testbit_high 64) by (assumption || lia). reflexivity.
Qed.

Lemma leading_zeros_below (x j : Z) :
  2 ^ j <= x < 2 ^ (j + 1) -> 0 <= j -> leading_zeros 64 x = 63 - j.
Proof.
  intros Hx Hj. pose proof (pow2_pos j Hj). unfold leading_zeros.
  destruct (Z.eqb_spec x 0); [lia |]. rewrite (Z.log2_unique x j) by lia. lia.
Qed.

Lemma leading_zeros_carry (x y j : Z) :
  2 ^ j <= x < 2 ^ (j + 1) -> 0 <= j <= 62 -> 0 <= y ->
  (leading_zeros 64 y <? leading_zeros 64 x) = (2 ^ (j + 1) <=? y).
Proof.
  intros Hx Hj Hy. rewrite (leading_zeros_below x j) by lia. unfold leading_zeros.
  pose proof (pow2_pos (j + 1) ltac:(lia)).
  destruct (Z.eqb_spec y 0) as [-> |].
  - destruct (Z.ltb_spec 64 (63 - j)), (Z.leb_spec (2 ^ (j + 1)) 0); reflexivity || lia.
  - destruct (Z.leb_spec (2 ^ (j + 1)) y) as [Hge | Hlt].
    + apply Z.log2_le_pow2 in Hge; [| lia]. apply Z.ltb_lt. lia.
    + apply Z.log2_lt_pow2 in Hlt; [| lia]. apply Z.ltb_ge. lia.
Qed.

(** ** Rounding a significand *)

(** The low three bits decide as the reference does. *)
Lemma should_round_up_spec (x : magnitude) (q k : Z) (st : bool) (rounding : FpRounding)
    (neg : bool) :
  magnitude_ok x -> tracks x q st k -> rounding <> FpRounding.Odd ->
  exact_at x (k + 3) = false ->
  should_round_up (q mod 8) st q rounding neg = rounds_up rounding neg x (k + 3).
Proof.
  intros Hx Ht Hr Hinexact.
  destruct (tracks_shr x Hx q st k 2 ltac:(lia) Ht) as [Hf2 He2].
  destruct (tracks_shr x Hx q st k 3 ltac:(lia) Ht) as [Hf3 _].
  change (2 ^ 2) with 4 in *. change (2 ^ 3) with 8 in *.
  unfold should_round_up, rounds_up. replace (k + 3 - 1) with (k + 2) by lia.
  rewrite Hf2, Hf3, He2, Hinexact. unfold GUARD_BITS.
  change (wshl 64 1 (3 - 1)) with 4. change (wshl 64 1 3) with (2 ^ 3).
  rewrite land_bit, negb_involutive by lia.
  rewrite Z.testbit_odd, Z.shiftr_div_pow2 by lia. change (2 ^ 3) with 8.
  pose proof (Z.mod_pos_bound q 8 ltac:(lia)) as Hd.
  assert (q / 4 = 2 * (q / 8) + q mod 8 / 4 /\ q mod 4 = q mod 8 mod 4) as [-> ->]
    by (Z.to_euclidean_division_equations; lia).
  rewrite Z.odd_add, Z.odd_mul. cbn [Z.odd andb xorb].
  set (d := q mod 8) in *. clearbody d. set (odd := Z.odd (q / 8)). clearbody odd.
  assert (d = 0 \/ d = 1 \/ d = 2 \/ d = 3 \/ d = 4 \/ d = 5 \/ d = 6 \/ d = 7) as Hcases by lia.
  destruct rounding; [| reflexivity | reflexivity | reflexivity | | congruence];
    destruct Hcases as [-> | [-> | [-> | [-> | [-> | [-> | [-> | ->]]]]]]];
    destruct st, odd; reflexivity.
Qed.

Lemma round_significand_spec (x : magnitude) (q k j e : Z) (st : bool) (rounding : FpRounding)
    (neg : bool) :
  magnitude_ok x -> tracks x q st k -> rounding <> FpRounding.Odd ->
  2 ^ j <= q < 2 ^ (j + 1) -> 0 <= j <= 60 ->
  let r := rounded rounding neg x (k + 3) in
  round_significand q e st rounding neg =
  if exact_at x (k + 3) then (8 * floor_at x (k + 3), e, FpExceptions.NONE)
  else if 2 ^ (j + 1) <=? 8 * r then (4 * r, e + 1, FpExceptions.INEXACT)
  else (8 * r, e, FpExceptions.INEXACT).
Proof.
  intros Hx Ht Hr Hq Hj. cbv zeta. unfold round_significand, GUARD_BITS.
  change (wsub 64 (wshl 64 1 3) 1) with (2 ^ 3 - 1). rewrite land_low by lia.
  change (2 ^ 3) with 8. cbv zeta.
  assert (2 ^ (j + 1) <= 2 ^ 61) as Hmax by (apply Z.pow_le_mono_r; lia).
  destruct (tracks_shr x Hx q st k 3 ltac:(lia) Ht) as [Hf He]. change (2 ^ 3) with 8 in *.
  assert (negb (q mod 8 =? 0) || st = negb (exact_at x (k + 3))) as ->.
  { rewrite He, negb_involutive, orb_comm. reflexivity. }
  rewrite negb_involutive. destruct (exact_at x (k + 3)) eqn:Eex.
  - assert (q mod 8 = 0) as H0.
    { symmetry in He. destruct st; [discriminate |]. cbn in He.
      rewrite negb_involutive in He. apply Z.eqb_eq, He. }
    rewrite Hf. repeat f_equal. pose proof (Z.div_mod q 8 ltac:(lia)). lia.
  - rewrite (should_round_up_spec x q k st rounding neg Hx Ht Hr Eex).
    change (wshl 64 1 3) with 8. unfold rounded. set (up := rounds_up rounding neg x (k + 3)).
    pose proof (pow2_pos j ltac:(lia)).
    assert (wadd 64 q (if up then 8 else 0) = q + 8 * b2z up) as ->.
    { unfold wadd. destruct up; cbn [b2z]; rewrite wrap_small by (split; lia); lia. }
    change (8 - 1) with (2 ^ 3 - 1). change 7 with (2 ^ 3 - 1).
    rewrite land_high by (lia || (split; destruct up; cbn [b2z]; lia)).
    change (2 ^ 3) with 8. rewrite Hf.
    assert ((q + 8 * b2z up) / 8 * 8 = 8 * (q / 8 + b2z up)) as ->.
    { rewrite (Z.mul_comm 8 (b2z up)), Z.div_add by lia. lia. }
    assert (0 <= q / 8 + b2z up) by (pose proof (Z.div_pos q 8); destruct up; cbn [b2z]; lia).
    rewrite (leading_zeros_carry q _ j) by lia.
    destruct (2 ^ (j + 1) <=? 8 * (q / 8 + b2z up)); [| reflexivity].
    rewrite wshr_div by lia. repeat f_equal. change (2 ^ 1) with 2.
    replace (8 * (q / 8 + b2z up)) with (4 * (q / 8 + b2z up) * 2) by lia.
    apply Z.div_mul. lia.
Qed.

(** ** Normalising and packing *)

(** ** The formats *)

Lemma format_bounds (format : FpFormat) :
  10 <= mantissa_bits format <= 52 /\ 5 <= exponent_bits format <= 11 /\
  sign_shift format = exponent_bits format + mantissa_bits format /\
  sign_shift format <= 63 /\
  exponent_bias format = 2 ^ (exponent_bits format - 1) - 1 /\
  2 ^ exponent_bits format = 2 * (exponent_bias format + 1) /\
  15 <= exponent_bias format <= 1023.
Proof. destruct format; vm_compute; repeat split; congruence. Qed.

Lemma implicit_bit_eq (format : FpFormat) : implicit_bit format = 2 ^ (mantissa_bits format + 3).
Proof. destruct format; reflexivity. Qed.

Lemma infinity_eq (format : FpFormat) :
  infinity format = (2 ^ exponent_bits format - 1) * 2 ^ mantissa_bits format.
Proof. destruct format; reflexivity. Qed.

Lemma mantissa_mask_eq (format : FpFormat) : mantissa_mask format = 2 ^ mantissa_bits format - 1.
Proof. destruct format; reflexivity. Qed.

Lemma zero_eq (format : FpFormat) (neg : bool) :
  zero format neg = b2z neg * 2 ^ sign_shift format.
Proof. destruct format, neg; reflexivity. Qed.

(** Disjoint bits: a sign or an exponent over what lies below it. *)
Lemma lor_shifted (a b n : Z) : 0 <= n -> 0 <= b < 2 ^ n -> Z.lor (a * 2 ^ n) b = a * 2 ^ n + b.
Proof.
  intros Hn Hb. assert (Z.land (a * 2 ^ n) b = 0) as Hd.
  { rewrite <- Z.shiftl_mul_pow2 by lia. apply Z.bits_inj'. intros i Hi.
    rewrite Z.land_spec, Z.bits_0. destruct (Z.lt_ge_cases i n).
    - rewrite Z.shiftl_spec_low by lia. reflexivity.
    - rewrite (in_range_testbit_high n b i) by (exact Hb || lia). apply andb_false_r. }
  rewrite Z.add_nocarry_lxor, Z.lxor_lor by exact Hd. reflexivity.
Qed.

(** ** Normalising *)

Section Normalise.

Context (x : magnitude) (Hx : magnitude_ok x) (s : Z) (Hs : 3 <= s <= 60).

(** The shifts down lose only what the sticky bit keeps. *)
Lemma shift_down_spec (neg : bool) (n : nat) (E q : Z) (st : bool) :
  0 <= q < 2 ^ 64 -> q < 2 ^ (s + 1 + Z.of_nat n) -> represents_at x q st (E - s) ->
  exists E' q' st', shift_down n (Unpacked.mk neg E q) st (2 ^ s) = (Unpacked.mk neg E' q', st') /\
    represents_at x q' st' (E' - s) /\ 0 <= q' < 2 ^ (s + 1) /\
    ((E' = E /\ q' = q /\ st' = st) \/ 2 ^ s <= q').
Proof.
  revert E q st. induction n as [| n IH]; intros E q st Hq Hn Hr.
  - exists E, q, st. replace (s + 1 + Z.of_nat 0) with (s + 1) in Hn by lia.
    repeat split; try apply Hr; lia || auto.
  - cbn [shift_down Unpacked.significand Unpacked.exponent Unpacked.is_negative].
    assert (wshl 64 (2 ^ s) 1 = 2 ^ (s + 1)) as ->.
    { rewrite wshl_small; [rewrite Z.pow_add_r; lia | lia |].
      rewrite <- Z.pow_add_r by lia. pose proof (pow2_pos (s + 1)).
      split; [lia | apply Z.pow_lt_mono_r; lia]. }
    destruct (Z.leb_spec (2 ^ (s + 1)) q) as [Hge | Hlt].
    + rewrite wshr_div by lia. change (2 ^ 1) with 2.
      rewrite land_one, negb_involutive.
      destruct (IH (E + 1) (q / 2) (st || Z.odd q)) as (E' & q' & st' & -> & Hr' & Hq' & Hd).
      * split; [apply Z.div_pos; lia | apply Z.div_lt_upper_bound; lia].
      * apply Z.div_lt_upper_bound; [lia |]. rewrite <- Z.pow_succ_r by lia.
        replace (Z.succ (s + 1 + Z.of_nat n)) with (s + 1 + Z.of_nat (S n)) by lia. exact Hn.
      * replace (E + 1 - s) with (E - s + 1) by lia. apply represents_shr; assumption.
      * exists E', q', st'. repeat split; try apply Hr'; try lia. right.
        destruct Hd as [(_ & -> & _) | Hd]; [| exact Hd].
        apply Z.div_le_lower_bound; [lia |]. rewrite <- Z.pow_succ_r by lia. exact Hge.
    + exists E, q, st. repeat split; try apply Hr; lia || auto.
Qed.

Lemma shift_up_spec (neg : bool) (n : nat) (E q : Z) :
  0 < q < 2 ^ (s + 1) -> 2 ^ s <= q * 2 ^ Z.of_nat n ->
  exists i, 0 <= i /\
    shift_up n (Unpacked.mk neg E q) (2 ^ s) = Unpacked.mk neg (E - i) (q * 2 ^ i) /\
    2 ^ s <= q * 2 ^ i < 2 ^ (s + 1) /\ (1 <= i -> q * 2 ^ (i - 1) < 2 ^ s).
Proof.
  revert E q. induction n as [| n IH]; intros E q Hq Hn.
  - exists 0. rewrite Z.sub_0_r, Z.mul_1_r. repeat split; lia || reflexivity.
  - cbn [shift_up Unpacked.significand Unpacked.exponent Unpacked.is_negative].
    destruct (Z.eqb_spec q 0); [lia |]. rewrite andb_true_r.
    destruct (Z.ltb_spec q (2 ^ s)) as [Hlt | Hge].
    + assert (2 ^ (s + 1) <= 2 ^ 61) by (apply Z.pow_le_mono_r; lia).
      assert (2 ^ (s + 1) = 2 * 2 ^ s) by (rewrite <- Z.pow_succ_r by lia; f_equal; lia).
      rewrite wshl_small by (lia || (split; lia)). change (2 ^ 1) with 2.
      destruct (IH (E - 1) (q * 2)) as (i & Hi & -> & Hr & Hm).
      * lia.
      * rewrite Nat2Z.inj_succ, Z.pow_succ_r in Hn by lia. lia.
      * exists (i + 1). rewrite Z.pow_add_r by lia. change (2 ^ 1) with 2.
        split; [lia |]. split; [f_equal; lia |]. split; [lia |]. intros _.
        replace (i + 1 - 1) with i by lia. destruct (Z.eq_dec i 0) as [-> | Hi0]; [lia |].
        specialize (Hm ltac:(lia)). replace i with (1 + (i - 1)) by lia.
        rewrite Z.pow_add_r by lia. lia.
    + exists 0. rewrite Z.sub_0_r, Z.mul_1_r. repeat split; lia || reflexivity.
Qed.

End Normalise.

(** The normalised significand has its leading bit in place, and its value is
    kept but for the last bit of an inexact one shifted up. *)
Lemma normalise_spec (x : magnitude) (format : FpFormat) (neg : bool) (E q : Z) (st : bool) :
  magnitude_ok x ->
  let s := mantissa_bits format + 3 in
  0 < q < 2 ^ 64 -> (st = true -> 2 ^ (s - 1) <= q) -> represents_at x q st (E - s) ->
  exists E' q' st', normalise (Unpacked.mk neg E q) st format = (Unpacked.mk neg E' q', st') /\
    tracks x q' st' (E' - s) /\ 2 ^ s <= q' < 2 ^ (s + 1).
Proof.
  intros Hx s Hq Hst Hr. pose proof (format_bounds format) as Hf. unfold normalise.
  rewrite implicit_bit_eq. fold s.
  destruct (shift_down_spec x Hx s ltac:(lia) neg 64 E q st) as (E' & q' & st' & -> & Hr' & Hq' & Hd);
    [lia | | exact Hr |].
  { apply (Z.lt_le_trans _ (2 ^ 64)); [lia | apply Z.pow_le_mono_r; lia]. }
  assert (0 < q') by (pose proof (pow2_pos s); destruct Hd as [(_ & -> & _) | Hd]; lia).
  destruct (shift_up_spec s ltac:(lia) neg 64 E' q') as (i & Hi & -> & Hb & Hm);
    [lia | |].
  { apply (Z.le_trans _ (1 * 2 ^ 64)); [| apply Z.mul_le_mono_nonneg_r; lia].
    rewrite Z.mul_1_l. apply Z.pow_le_mono_r; lia. }
  exists (E' - i), (q' * 2 ^ i), st'. split; [reflexivity |]. split; [| exact Hb].
  destruct (Z.eq_dec i 0) as [-> | Hi0].
  { rewrite Z.mul_1_r, Z.sub_0_r. apply represents_tracks; assumption. }
  destruct st'.
  - assert (i = 1) as ->.
    { specialize (Hm ltac:(lia)). pose proof (pow2_pos (i - 1)).
      assert (2 ^ (s - 1) <= q') as Hh.
      { destruct Hd as [(_ & -> & Hst') | Hd]; [apply Hst; congruence |].
        apply (Z.le_trans _ (2 ^ s)); [apply Z.pow_le_mono_r; lia | exact Hd]. }
      assert (2 ^ s = 2 * 2 ^ (s - 1)) by (rewrite <- Z.pow_succ_r by lia; f_equal; lia).
      assert (2 ^ (i - 1) < 2) as Hi2 by nia.
      apply (Z.pow_lt_mono_r_iff 2 _ 1) in Hi2; lia. }
    replace (E' - 1 - s) with (E' - s - 1) by lia. apply tracks_shl; assumption.
  - replace (E' - i - s) with (E' - s - i) by lia. apply represents_tracks; [exact Hx |].
    apply represents_shl; assumption || lia.
Qed.

(** ** What the code rounds to *)

(** A subnormal result that rounds up to a power of two of the least quantum
    comes out halved: the significand is renormalised for the carry, and its
    exponent, which [pack_subnormal] drops, no longer accounts for it. *)
Definition halves (format : FpFormat) (rounding : FpRounding) (neg : bool) (x : magnitude)
    (e : Z) : bool :=
  let k := quantum format e in
  (e <? min_exponent format) && (- 3 <=? e - k) && negb (exact_at x k) &&
  (2 ^ Z.max 0 (e + 1 - k) <=? rounded rounding neg x k).

Definition code_round (format : FpFormat) (rounding : FpRounding) (neg : bool) (x : magnitude)
    (e : Z) : FpResult :=
  if halves format rounding neg x e then
    FpResult.mk (b2z neg * 2 ^ sign_shift format + rounded rounding neg x (quantum format e) / 2)
      (FpExceptions.union FpExceptions.INEXACT FpExceptions.UNDERFLOW)
  else ieee_round format rounding neg x e.

Lemma rounds_up_exact (rounding : FpRounding) (neg : bool) (x : magnitude) (k : Z) :
  magnitude_ok x -> exact_at x k = true -> rounds_up rounding neg x k = false.
Proof.
  intros Hx He. unfold rounds_up. rewrite He.
  pose proof (exact_step x Hx (k - 1)) as Hs. replace (k - 1 + 1) with k in Hs by lia.
  rewrite He in Hs. symmetry in Hs. apply andb_true_iff in Hs as [_ Hs].
  rewrite <- Z.negb_even, Hs. destruct rounding; reflexivity.
Qed.

Lemma rounded_bounds (rounding : FpRounding) (neg : bool) (x : magnitude) (k : Z) :
  floor_at x k <= rounded rounding neg x k <= floor_at x k + 1.
Proof. unfold rounded. destruct (rounds_up _ _ _ _); cbn [b2z]; lia. Qed.

Lemma floor_at_lead (x : magnitude) (q E s : Z) (st : bool) :
  magnitude_ok x -> 1 <= s -> tracks x q st (E - s) -> 2 ^ s <= q < 2 ^ (s + 1) ->
  floor_at x E = 1.
Proof.
  intros Hx Hs Ht Hq. destruct (tracks_shr x Hx q st (E - s) s Hs Ht) as [Hf _].
  replace (E - s + s) with E in Hf by lia. rewrite Hf, Z.pow_add_r in * by lia.
  symmetry. apply Z.div_unique with (q - 2 ^ s); lia.
Qed.

Lemma floor_above (x : magnitude) (e k : Z) :
  magnitude_ok x -> floor_at x e = 1 -> e < k -> floor_at x k = 0.
Proof.
  intros Hx He Hk. replace k with (e + (k - e)) by lia.
  rewrite (floor_up x Hx), He by lia. apply Z.div_small.
  split; [lia |]. apply (Z.lt_le_trans _ (2 ^ 1)); [reflexivity | apply Z.pow_le_mono_r; lia].
Qed.

(** The exponent of a magnitude is unique. *)
Lemma exponent_unique (x : magnitude) (e e' : Z) :
  magnitude_ok x -> floor_at x e = 1 -> floor_at x e' = 1 -> e = e'.
Proof.
  intros Hx He He'. destruct (Z.lt_trichotomy e e') as [H | [H | H]]; [| exact H |].
  - rewrite (floor_above x e e') in He' by assumption. discriminate.
  - rewrite (floor_above x e' e) in He by assumption. discriminate.
Qed.

(** Far below the smallest subnormal, only the directed modes leave zero. *)
Lemma round_tiny (format : FpFormat) (rounding : FpRounding) (neg : bool) (x : magnitude) (e : Z) :
  magnitude_ok x -> rounding <> FpRounding.Odd -> floor_at x e = 1 ->
  e <= quantum format e - 4 ->
  FpResult.raising (round_to_zero_or_minimum neg format rounding)
    (FpExceptions.union FpExceptions.UNDERFLOW FpExceptions.INEXACT) =
  code_round format rounding neg x e.
Proof.
  intros Hx Hr He Hlow. pose proof (format_bounds format) as Hf.
  assert (quantum format e = min_exponent format - mantissa_bits format) as Hk
    by (unfold quantum in *; lia).
  assert (rounded rounding neg x (quantum format e) =
          b2z match rounding with FpRounding.Plus => negb neg | FpRounding.Minus => neg
              | _ => false end) as Hrd.
  { unfold rounded, rounds_up. rewrite (floor_above x e (quantum format e)) by lia || assumption.
    rewrite (floor_above x e (quantum format e - 1)) by lia || assumption.
    rewrite (exact_below x Hx e (quantum format e)) by (lia || (apply floor_above with e; lia || assumption)).
    destruct rounding, neg; reflexivity || congruence. }
  unfold code_round, halves, ieee_round. rewrite Hrd.
  destruct (Z.ltb_spec e (min_exponent format)); [| lia].
  destruct (Z.leb_spec (-3) (e - quantum format e)); [lia |].
  rewrite (exact_below x Hx e (quantum format e)) by (lia || (apply floor_above with e; lia || assumption)).
  cbn [andb]. rewrite Hk. replace (min_exponent format - _ + _ - _) with 0 by lia.
  unfold round_to_zero_or_minimum. rewrite zero_eq.
  set (away := match rounding with FpRounding.Plus => negb neg | FpRounding.Minus => neg
              | _ => false end). clearbody away.
  pose proof (pow2_pos (mantissa_bits format) ltac:(lia)).
  destruct (Z.leb_spec ((2 ^ exponent_bits format - 1) * 2 ^ mantissa_bits format)
    (0 * 2 ^ mantissa_bits format + b2z away)) as [Hle |]; [exfalso; destruct away; cbn [b2z] in Hle; nia |].
  rewrite lor_shifted; [reflexivity | lia |].
  assert (2 ^ 1 < 2 ^ sign_shift format) by (apply Z.pow_lt_mono_r; lia).
  destruct away; cbn [b2z]; lia.
Qed.

(** The three ways [round_significand] leaves, as one significand. *)
Lemma wshr_guard (r : Z) : wshr 64 (8 * r) GUARD_BITS = r.
Proof.
  unfold GUARD_BITS. rewrite wshr_div by lia. change (2 ^ 3) with 8.
  rewrite Z.mul_comm. apply Z.div_mul. lia.
Qed.

Lemma wshr_guard_half (r : Z) : wshr 64 (4 * r) GUARD_BITS = r / 2.
Proof.
  unfold GUARD_BITS. rewrite wshr_div by lia. change (2 ^ 3) with (4 * 2).
  rewrite Z.div_mul_cancel_l by lia. reflexivity.
Qed.

Lemma sign_bits (format : FpFormat) (neg : bool) :
  wshl 64 (b2z neg) (sign_shift format) = b2z neg * 2 ^ sign_shift format.
Proof. apply zero_eq. Qed.

Lemma low_mask (shift : Z) : 0 <= shift < 64 -> wsub 64 (wshl 64 1 shift) 1 = 2 ^ shift - 1.
Proof.
  intros Hs. pose proof (pow2_pos shift). assert (2 ^ shift < 2 ^ 64) by (apply Z.pow_lt_mono_r; lia).
  rewrite wshl_small, Z.mul_1_l by (lia || (rewrite Z.mul_1_l; split; lia)).
  unfold wsub. apply wrap_small. split; lia.
Qed.

(** A subnormal magnitude is less than [2^m] quanta. *)
Lemma floor_below_normal (format : FpFormat) (x : magnitude) (e : Z) :
  magnitude_ok x -> floor_at x e = 1 -> e < min_exponent format ->
  0 <= floor_at x (quantum format e) < 2 ^ mantissa_bits format.
Proof.
  intros Hx He Hlt. pose proof (format_bounds format) as Hf.
  split; [apply (floor_nonneg x Hx) |].
  pose proof (floor_above x e (min_exponent format) Hx He Hlt) as H0.
  replace (min_exponent format) with (quantum format e + mantissa_bits format) in H0
    by (unfold quantum; lia).
  rewrite (floor_up x Hx) in H0 by lia. pose proof (pow2_pos (mantissa_bits format) ltac:(lia)).
  pose proof (Z.mul_succ_div_gt (floor_at x (quantum format e)) (2 ^ mantissa_bits format)). lia.
Qed.

(** The carry test on the shifted significand, in quanta. *)
Lemma carry_test (d r : Z) :
  - 2 <= d -> 0 <= r -> (2 ^ (d + 3) <=? 8 * r) = (2 ^ Z.max 0 d <=? r).
Proof.
  intros Hd Hr. apply eq_true_iff_eq. rewrite !Z.leb_le.
  destruct (Z.lt_ge_cases d 0) as [Hneg | Hpos].
  - rewrite Z.max_l by lia. change (2 ^ 0) with 1.
    assert (d + 3 = 1 \/ d + 3 = 2) as [-> | ->] by lia; lia.
  - rewrite Z.max_r, Z.pow_add_r by lia. lia.
Qed.

Lemma div_pow_bounds (q s j : Z) :
  0 <= j <= s -> 2 ^ s <= q < 2 ^ (s + 1) -> 2 ^ (s - j) <= q / 2 ^ j < 2 ^ (s - j + 1).
Proof.
  intros Hj Hq. pose proof (pow2_pos j ltac:(lia)).
  split; [apply Z.div_le_lower_bound | apply Z.div_lt_upper_bound]; try lia;
    rewrite <- Z.pow_add_r by lia.
  - replace (j + (s - j)) with s by lia. lia.
  - replace (j + (s - j + 1)) with (s + 1) by lia. lia.
Qed.

Lemma pack_subnormal_spec (format : FpFormat) (context : RoundingContext) (x : magnitude)
    (neg : bool) (E q : Z) (st : bool) :
  let s := mantissa_bits format + 3 in
  magnitude_ok x -> RoundingContext.rounding context <> FpRounding.Odd ->
  tracks x q st (E - s) -> 2 ^ s <= q < 2 ^ (s + 1) ->
  - 2 ^ 20 <= E < min_exponent format ->
  pack_subnormal (Unpacked.mk neg E q) st format context =
  code_round format (RoundingContext.rounding context) neg x E.
Proof.
  intros s Hx Hr Ht Hq HE. pose proof (format_bounds format) as Hf.
  pose proof (floor_at_lead x q E s st Hx ltac:(lia) Ht Hq) as Hlead.
  unfold pack_subnormal, GUARD_BITS. cbn [Unpacked.is_negative Unpacked.exponent Unpacked.significand].
  fold (min_exponent format). unfold as_u32.
  assert (min_exponent format - E < 2 ^ 32) by (unfold min_exponent; lia).
  rewrite wrap_small by (split; lia). set (shift := min_exponent format - E) in *.
  assert (quantum format E = E - s + shift + 3) as Hk by (unfold quantum; lia).
  destruct (Z.leb_spec (mantissa_bits format + 1 + 3) shift); [apply round_tiny; lia || assumption |].
  rewrite low_mask, land_low, wshr_div by lia.
  pose proof (tracks_shr x Hx q st (E - s) shift ltac:(lia) Ht) as Hrep.
  set (st' := st || _) in *. clearbody st'. apply (represents_tracks x Hx) in Hrep.
  pose proof (div_pow_bounds q s shift ltac:(lia) Hq) as Hq'.
  set (rounding := RoundingContext.rounding context) in *.
  pose proof (round_significand_spec x (q / 2 ^ shift) (E - s + shift) (s - shift)
    (min_exponent format) st' rounding neg Hx Hrep Hr Hq' ltac:(lia)) as ->.
  rewrite <- Hk. pose proof (rounded_bounds rounding neg x (quantum format E)) as Hb.
  pose proof (floor_below_normal format x E Hx Hlead ltac:(lia)) as Hfl.
  assert (2 ^ mantissa_bits format < 2 ^ sign_shift format) by (apply Z.pow_lt_mono_r; lia).
  assert (2 ^ 5 <= 2 ^ exponent_bits format) by (apply Z.pow_le_mono_r; lia).
  unfold code_round, halves, ieee_round.
  destruct (Z.ltb_spec E (min_exponent format)); [| lia].
  destruct (Z.leb_spec (-3) (E - quantum format E)); [| lia].
  replace (quantum format E + mantissa_bits format - min_exponent format) with 0 by lia.
  rewrite Z.mul_0_l, Z.add_0_l. cbv zeta.
  destruct (Z.leb_spec ((2 ^ exponent_bits format - 1) * 2 ^ mantissa_bits format)
    (rounded rounding neg x (quantum format E))) as [Hle |]; [exfalso; nia |].
  replace (s - shift + 1) with (E + 1 - quantum format E + 3) by lia.
  rewrite carry_test by lia.
  destruct (exact_at x (quantum format E)) eqn:Eex; cbn [andb negb].
  - rewrite wshr_guard, sign_bits, lor_shifted by lia.
    unfold rounded. rewrite rounds_up_exact, Z.add_0_r by assumption. reflexivity.
  - destruct (2 ^ _ <=? rounded _ _ _ _); cbn [andb].
    + rewrite wshr_guard_half, sign_bits, lor_shifted; [reflexivity | lia |].
      split; [apply Z.div_pos; lia | apply Z.div_lt_upper_bound; lia].
    + rewrite wshr_guard, sign_bits, lor_shifted by lia. reflexivity.
Qed.

(** *** Normal results *)

(** The sum of sign, exponent and mantissa is their encoding. *)
Lemma encode_normal (format : FpFormat) (neg : bool) (biased f : Z) :
  0 <= biased < 2 ^ exponent_bits format -> 0 <= f < 2 ^ mantissa_bits format ->
  Z.lor (Z.lor (wshl 64 (b2z neg) (sign_shift format)) (wshl 64 biased (mantissa_bits format))) f =
  b2z neg * 2 ^ sign_shift format + (biased * 2 ^ mantissa_bits format + f).
Proof.
  intros Hb Hfr. pose proof (format_bounds format) as (Hm & He & Hs & Hs63 & _).
  pose proof (pow2_pos (mantissa_bits format) ltac:(lia)).
  assert (2 ^ sign_shift format = 2 ^ exponent_bits format * 2 ^ mantissa_bits format) as Hsplit
    by (rewrite Hs, Z.pow_add_r by lia; reflexivity).
  assert (2 ^ sign_shift format <= 2 ^ 63) by (apply Z.pow_le_mono_r; lia).
  assert (0 <= biased * 2 ^ mantissa_bits format <= 2 ^ 63) by nia.
  rewrite sign_bits, wshl_small by (lia || (split; lia)).
  rewrite <- Z.lor_assoc, (lor_shifted biased), lor_shifted by (lia || nia). lia.
Qed.

Lemma pack_normal_spec (format : FpFormat) (neg : bool) (rounding : FpRounding) (E r : Z)
    (raised : FpExceptions) :
  min_exponent format <= E <= 2 ^ 20 ->
  2 ^ mantissa_bits format <= r <= 2 * 2 ^ mantissa_bits format ->
  let carried := 2 ^ (mantissa_bits format + 3 + 1) <=? 8 * r in
  let exponent := if carried then E + 1 else E in
  let significand := if carried then 4 * r else 8 * r in
  (if exponent_bias format <? exponent then overflow neg format rounding
   else FpResult.raising
     (Z.lor (Z.lor (wshl 64 (b2z neg) (sign_shift format))
              (wshl 64 (as_u64 (exponent + exponent_bias format)) (mantissa_bits format)))
        (Z.land (wshr 64 significand GUARD_BITS) (mantissa_mask format))) raised) =
  let encoded := (E - min_exponent format) * 2 ^ mantissa_bits format + r in
  let infinity := (2 ^ exponent_bits format - 1) * 2 ^ mantissa_bits format in
  if infinity <=? encoded then
    FpResult.mk (b2z neg * 2 ^ sign_shift format +
                 (if overflows_to_infinity rounding neg then infinity else infinity - 1))
      (FpExceptions.union FpExceptions.OVERFLOW FpExceptions.INEXACT)
  else FpResult.mk (b2z neg * 2 ^ sign_shift format + encoded) raised.
Proof.
  cbv zeta. intros HE Hr.
  set (carried := _ <=? 8 * r). set (exponent := if carried then E + 1 else E).
  set (significand := if carried then _ else _).
  set (encoded := _ * _ + r). set (infinity := _ * 2 ^ mantissa_bits format).
  pose proof (format_bounds format) as (Hm & He & Hs & Hs63 & _ & Hbias & Hbias').
  pose proof (pow2_pos (mantissa_bits format) ltac:(lia)) as Hp.
  set (m := mantissa_bits format) in *.
  assert (2 ^ (m + 3 + 1) = 8 * (2 * 2 ^ m)) as Hpow
    by (rewrite !Z.pow_add_r by lia; change (2 ^ 3) with 8; lia).
  assert (carried = (2 * 2 ^ m =? r)) as Hc.
  { unfold carried. rewrite Hpow. apply eq_true_iff_eq. rewrite Z.leb_le, Z.eqb_eq. lia. }
  assert (encoded = (exponent + exponent_bias format) * 2 ^ m + (if carried then 0 else r - 2 ^ m))
    as Henc.
  { unfold encoded, exponent, min_exponent. rewrite Hc. destruct (Z.eqb_spec (2 * 2 ^ m) r); lia. }
  assert (0 <= (if carried then 0 else r - 2 ^ m) < 2 ^ m) as Hlow
    by (rewrite Hc; destruct (Z.eqb_spec (2 * 2 ^ m) r); lia).
  assert ((exponent_bias format <? exponent) = (infinity <=? encoded)) as ->.
  { apply eq_true_iff_eq. rewrite Z.ltb_lt, Z.leb_le, Henc. unfold infinity. rewrite Hbias. nia. }
  destruct (Z.leb_spec infinity encoded) as [Hover | Hfits].
  - unfold overflow, overflows_to_infinity. unfold signed_infinity, max_finite.
    rewrite zero_eq, infinity_eq. fold m infinity.
    assert (0 <= infinity - 1 /\ infinity < 2 ^ sign_shift format) as [].
    { rewrite Hs, Z.pow_add_r by lia. fold m. unfold infinity.
      assert (2 ^ 5 <= 2 ^ exponent_bits format) by (apply Z.pow_le_mono_r; lia). nia. }
    unfold FpResult.raising. f_equal. rewrite !(Z.lor_comm _ (b2z neg * _)).
    destruct rounding, neg; cbn [negb]; rewrite lor_shifted by lia; reflexivity.
  - assert (0 <= exponent + exponent_bias format < 2 ^ exponent_bits format) as Hexp.
    { split; [unfold exponent, min_exponent in *; destruct carried; lia |].
      unfold infinity in Hfits. nia. }
    assert (2 ^ exponent_bits format < 2 ^ 64) by (apply Z.pow_lt_mono_r; lia).
    unfold as_u64. rewrite wrap_small by (split; lia).
    assert (Z.land (wshr 64 significand GUARD_BITS) (mantissa_mask format) =
            if carried then 0 else r - 2 ^ m) as ->.
    { rewrite mantissa_mask_eq, land_low by lia. fold m. unfold significand.
      rewrite Hc in *. destruct (Z.eqb_spec (2 * 2 ^ m) r) as [<- |].
      - rewrite wshr_guard_half, Z.mul_comm, Z.div_mul by lia. apply Z.mod_same. lia.
      - rewrite wshr_guard. symmetry. apply Z.mod_unique with 1; lia. }
    rewrite encode_normal by (lia || assumption). fold m. rewrite <- Henc. reflexivity.
Qed.

Lemma pack_normalised_spec (format : FpFormat) (context : RoundingContext) (x : magnitude)
    (neg : bool) (E q : Z) (st : bool) :
  let s := mantissa_bits format + 3 in
  magnitude_ok x -> RoundingContext.rounding context <> FpRounding.Odd ->
  tracks x q st (E - s) -> 2 ^ s <= q < 2 ^ (s + 1) -> - 2 ^ 20 <= E <= 2 ^ 20 ->
  pack_normalised (Unpacked.mk neg E q, st) format context =
  code_round format (RoundingContext.rounding context) neg x E.
Proof.
  intros s Hx Hr Ht Hq HE. pose proof (format_bounds format) as Hf.
  unfold pack_normalised. cbn [Unpacked.is_negative Unpacked.exponent Unpacked.significand].
  fold (min_exponent format).
  destruct (Z.ltb_spec E (min_exponent format)) as [Hsub | Hnorm].
  { apply pack_subnormal_spec; lia || assumption. }
  set (rounding := RoundingContext.rounding context) in *.
  pose proof (round_significand_spec x q (E - s) s E st rounding neg Hx Ht Hr Hq ltac:(lia)) as ->.
  assert (quantum format E = E - s + 3) as <- by (unfold quantum; lia).
  unfold code_round, halves, ieee_round. destruct (Z.ltb_spec E (min_exponent format)); [lia |].
  cbn [andb]. replace (quantum format E + mantissa_bits format - min_exponent format)
    with (E - min_exponent format) by (unfold quantum; lia).
  pose proof (rounded_bounds rounding neg x (quantum format E)) as Hb.
  assert (2 ^ mantissa_bits format <= floor_at x (quantum format E) <
          2 * 2 ^ mantissa_bits format) as Hfl.
  { destruct (tracks_shr x Hx q st (E - s) 3 ltac:(lia) Ht) as [Hf3 _].
    replace (quantum format E) with (E - s + 3) by (unfold quantum; lia). rewrite Hf3.
    pose proof (div_pow_bounds q s 3 ltac:(lia) Hq) as Hd.
    replace (s - 3) with (mantissa_bits format) in Hd by lia.
    rewrite <- Z.pow_succ_r by lia. exact Hd. }
  destruct (exact_at x (quantum format E)) eqn:Eex; cbv zeta.
  - assert (rounded rounding neg x (quantum format E) = floor_at x (quantum format E)) as Hrd
      by (unfold rounded; rewrite rounds_up_exact by assumption; apply Z.add_0_r).
    rewrite <- Hrd in *.
    rewrite <- (pack_normal_spec format neg rounding E _ FpExceptions.NONE) by lia. cbv zeta.
    assert ((2 ^ (mantissa_bits format + 3 + 1) <=? 8 * rounded rounding neg x (quantum format E)) = false)
      as ->; [| reflexivity].
    apply Z.leb_gt. rewrite !Z.pow_add_r by lia. change (2 ^ 3) with 8. change (2 ^ 1) with 2. lia.
  - rewrite <- (pack_normal_spec format neg rounding E _ FpExceptions.INEXACT) by lia. cbv zeta.
    destruct (_ <=? 8 * _); reflexivity.
Qed.

(** Rounding a non-zero significand packs the format's value of the magnitude
    it stands for. *)
Lemma round_and_pack_spec (format : FpFormat) (context : RoundingContext) (x : magnitude)
    (neg : bool) (E q e : Z) :
  let s := mantissa_bits format + 3 in
  let st := RoundingContext.is_sticky context in
  magnitude_ok x -> RoundingContext.rounding context <> FpRounding.Odd ->
  0 < q < 2 ^ 64 -> (st = true -> 2 ^ (s - 1) <= q) -> represents_at x q st (E - s) ->
  floor_at x e = 1 -> - 2 ^ 20 <= e <= 2 ^ 20 ->
  round_and_pack (Unpacked.mk neg E q) format context =
  apply_flush_to_zero (code_round format (RoundingContext.rounding context) neg x e) format
    (RoundingContext.control context).
Proof.
  intros s st Hx Hr Hq Hst Hrep He Hbound. pose proof (format_bounds format) as Hf.
  unfold round_and_pack, Unpacked.is_zero. cbn [Unpacked.significand].
  destruct (Z.eqb_spec q 0); [lia |].
  destruct (normalise_spec x format neg E q st Hx Hq Hst Hrep) as (E' & q' & st' & Hn & Ht & Hq').
  fold st. rewrite Hn. f_equal.
  assert (E' = e) as ->.
  { apply (exponent_unique x); [exact Hx | | exact He].
    apply floor_at_lead with q' s st'; lia || assumption. }
  apply pack_normalised_spec; assumption.
Qed.
