(* ===== verification/FpValues.v ===== *)
(** The numbers the encodings stand for, in units of the smallest subnormal, and
    the classification and unpacking of [FpOperand] and [FpDecompose] in their
    terms; the order of encodings, which is that of their values; and exact sums,
    products, quotients and roots of integers, as the significands that represent
    them. *)

From stdpp Require Import base numbers list option.
From S2P Require Import Prelude FpOperand FpDecompose FpCompare FpArithmetic FpMagnitude FpRound.

#[local] Open Scope Z_scope.

Import FpFormat decompose.

Definition raw_exponent (format : FpFormat) (bits : Z) : Z :=
  bits / 2 ^ mantissa_bits format mod 2 ^ exponent_bits format.

Definition fraction (format : FpFormat) (bits : Z) : Z := bits mod 2 ^ mantissa_bits format.

Definition in_format (format : FpFormat) (bits : Z) : Prop := in_range (FpFormat.bits format) bits.

Definition finite (format : FpFormat) (bits : Z) : bool :=
  raw_exponent format bits <? 2 ^ exponent_bits format - 1.

(** The exponent of one unit, the smallest subnormal. *)
Definition unit_exponent (format : FpFormat) : Z := min_exponent format - mantissa_bits format.

(** The magnitude of a finite encoding, in units. *)
Definition unsigned_units (format : FpFormat) (bits : Z) : Z :=
  if raw_exponent format bits =? 0 then fraction format bits
  else (2 ^ mantissa_bits format + fraction format bits) * 2 ^ (raw_exponent format bits - 1).

Definition units (format : FpFormat) (bits : Z) : Z :=
  if is_negative format bits then - unsigned_units format bits else unsigned_units format bits.

(** ** Classification *)

Section Format.

Context (format : FpFormat).

#[local] Abbreviation m := (mantissa_bits format).
#[local] Abbreviation eb := (exponent_bits format).

Lemma bits_eq : FpFormat.bits format = 1 + eb + m.
Proof. destruct format; reflexivity. Qed.

Lemma max_exponent_eq : max_exponent format = 2 ^ eb - 1.
Proof. destruct format; reflexivity. Qed.

Lemma land_raw (bits : Z) : Z.land (wshr 64 bits m) (max_exponent format) = raw_exponent format bits.
Proof.
  pose proof (format_bounds format). rewrite max_exponent_eq, land_low, wshr_div by lia. reflexivity.
Qed.

Lemma land_fraction (bits : Z) : Z.land bits (mantissa_mask format) = fraction format bits.
Proof. pose proof (format_bounds format). rewrite mantissa_mask_eq, land_low by lia. reflexivity. Qed.

Lemma raw_bounds (bits : Z) : 0 <= raw_exponent format bits < 2 ^ eb.
Proof.
  pose proof (format_bounds format). apply Z.mod_pos_bound. apply pow2_pos. lia.
Qed.

Lemma fraction_bounds (bits : Z) : 0 <= fraction format bits < 2 ^ m.
Proof.
  pose proof (format_bounds format). apply Z.mod_pos_bound. apply pow2_pos. lia.
Qed.

(** Sign, exponent and fraction make up an encoding. *)
Lemma encoding (bits : Z) :
  in_format format bits ->
  bits = b2z (is_negative format bits) * 2 ^ sign_shift format +
         (raw_exponent format bits * 2 ^ m + fraction format bits).
Proof.
  intros Hb. pose proof (format_bounds format) as Hf. unfold in_format, in_range in Hb.
  rewrite bits_eq in Hb. unfold is_negative. rewrite wshr_div by lia.
  change 1 with (2 ^ 1 - 1) at 1. rewrite land_low by lia. change (2 ^ 1) with 2.
  destruct Hf as (Hm & He & Hs & _). rewrite Hs. unfold raw_exponent, fraction.
  pose proof (pow2_pos m ltac:(lia)). pose proof (pow2_pos eb ltac:(lia)).
  replace (2 ^ (1 + eb + m)) with (2 * 2 ^ eb * 2 ^ m) in Hb
    by (rewrite !Z.pow_add_r by lia; reflexivity).
  rewrite Z.pow_add_r, (Z.mul_comm (2 ^ eb)), <- Z.div_div by lia.
  assert (0 <= bits / 2 ^ m < 2 * 2 ^ eb) as Hq
    by (split; [apply Z.div_pos | apply Z.div_lt_upper_bound]; lia).
  pose proof (Z.div_mod bits (2 ^ m) ltac:(lia)).
  pose proof (Z.div_mod (bits / 2 ^ m) (2 ^ eb) ltac:(lia)).
  set (a := bits / 2 ^ m) in *. clearbody a. set (b := a / 2 ^ eb) in *.
  assert (0 <= b < 2) by (split; [apply Z.div_pos | apply Z.div_lt_upper_bound]; lia).
  clearbody b. rewrite (Z.mod_small b) by lia.
  assert (b2z (b =? 1) = b) as -> by (assert (b = 0 \/ b = 1) as [-> | ->] by lia; reflexivity).
  set (r := a mod 2 ^ eb) in *. set (f := bits mod 2 ^ m) in *. clearbody r f. subst bits a. ring.
Qed.

Lemma encoding_small (bits : Z) : raw_exponent format bits * 2 ^ m + fraction format bits < 2 ^ sign_shift format.
Proof.
  pose proof (format_bounds format) as (Hm & He & Hs & _). rewrite Hs, Z.pow_add_r by lia.
  pose proof (raw_bounds bits). pose proof (fraction_bounds bits). nia.
Qed.

Lemma is_nan_spec (bits : Z) :
  is_nan format bits = negb (finite format bits) && negb (fraction format bits =? 0).
Proof.
  unfold is_nan, finite. rewrite land_raw, land_fraction, max_exponent_eq.
  pose proof (raw_bounds bits). f_equal.
  destruct (Z.eqb_spec (raw_exponent format bits) (2 ^ eb - 1)),
    (Z.ltb_spec (raw_exponent format bits) (2 ^ eb - 1)); reflexivity || lia.
Qed.

Lemma is_infinite_spec (bits : Z) :
  is_infinite format bits = negb (finite format bits) && (fraction format bits =? 0).
Proof.
  unfold is_infinite, finite. rewrite land_raw, land_fraction, max_exponent_eq.
  pose proof (raw_bounds bits). f_equal.
  destruct (Z.eqb_spec (raw_exponent format bits) (2 ^ eb - 1)),
    (Z.ltb_spec (raw_exponent format bits) (2 ^ eb - 1)); reflexivity || lia.
Qed.

Lemma finite_not_nan (bits : Z) : finite format bits = true -> is_nan format bits = false.
Proof. intros H. rewrite is_nan_spec, H. reflexivity. Qed.

Lemma finite_not_infinite (bits : Z) : finite format bits = true -> is_infinite format bits = false.
Proof. intros H. rewrite is_infinite_spec, H. reflexivity. Qed.

Lemma finite_not_signalling (bits : Z) :
  finite format bits = true -> is_signalling_nan format bits = false.
Proof. intros H. unfold is_signalling_nan. rewrite finite_not_nan by exact H. reflexivity. Qed.

Lemma unsigned_units_nonneg (bits : Z) : 0 <= unsigned_units format bits.
Proof.
  unfold unsigned_units. pose proof (raw_bounds bits). pose proof (fraction_bounds bits).
  pose proof (format_bounds format). pose proof (pow2_pos m ltac:(lia)).
  destruct (Z.eqb_spec (raw_exponent format bits) 0); [lia |].
  pose proof (pow2_pos (raw_exponent format bits - 1) ltac:(lia)). nia.
Qed.

Lemma abs_units (bits : Z) : Z.abs (units format bits) = unsigned_units format bits.
Proof.
  pose proof (unsigned_units_nonneg bits). unfold units. destruct (is_negative format bits); lia.
Qed.

(** Dropping the sign. *)
Lemma land_unsigned (bits : Z) :
  in_format format bits ->
  Z.land bits (wnot 64 (wshl 64 1 (sign_shift format))) =
  raw_exponent format bits * 2 ^ m + fraction format bits.
Proof.
  intros Hb. pose proof (encoding bits Hb) as He. pose proof (encoding_small bits) as Hs.
  pose proof (raw_bounds bits) as Hr. pose proof (fraction_bounds bits) as Hfr.
  pose proof (format_bounds format) as Hf. pose proof (pow2_pos m ltac:(lia)) as Hp.
  assert (wshl 64 1 (sign_shift format) = 2 ^ sign_shift format) as -> by (destruct format; reflexivity).
  set (ss := sign_shift format) in *. set (low := raw_exponent format bits * 2 ^ m + _) in *.
  assert (0 <= low < 2 ^ ss) as Hlow by (unfold low; nia). clearbody low.
  rewrite He. set (neg := is_negative format bits). clearbody neg.
  rewrite <- lor_shifted by lia.
  apply Z.bits_inj'. intros i Hi. rewrite Z.land_spec, Z.lor_spec, wnot_testbit by lia.
  rewrite Z.pow2_bits_eqb by lia. destruct (Z.eqb_spec ss i) as [<- | Hne].
  - rewrite (in_range_testbit_high ss low) by (exact Hlow || lia). rewrite !andb_false_r. reflexivity.
  - assert (Z.testbit (b2z neg * 2 ^ ss) i = false) as ->.
    { destruct neg; cbn [b2z]; [| rewrite Z.mul_0_l; apply Z.bits_0].
      rewrite Z.mul_1_l, Z.pow2_bits_eqb by lia. apply Z.eqb_neq. exact Hne. }
    destruct (Z.ltb_spec i 64); [apply andb_true_r |].
    rewrite (in_range_testbit_high ss low) by (exact Hlow || lia). reflexivity.
Qed.

Lemma is_zero_spec (bits : Z) :
  in_format format bits -> is_zero format bits = (units format bits =? 0).
Proof.
  intros Hb. unfold is_zero. rewrite land_unsigned by exact Hb.
  pose proof (raw_bounds bits) as Hr. pose proof (fraction_bounds bits) as Hfr.
  pose proof (format_bounds format) as Hf. pose proof (pow2_pos m ltac:(lia)) as Hp.
  pose proof (abs_units bits) as Ha. unfold unsigned_units in Ha.
  apply eq_true_iff_eq. rewrite !Z.eqb_eq.
  destruct (Z.eqb_spec (raw_exponent format bits) 0).
  - split; intros; nia.
  - pose proof (pow2_pos (raw_exponent format bits - 1) ltac:(lia)). split; intros; nia.
Qed.

(** Any sign, exponent and fraction are those of their encoding. *)
Lemma decode_encoding (neg : bool) (raw f : Z) :
  0 <= raw < 2 ^ eb -> 0 <= f < 2 ^ m ->
  let bits := b2z neg * 2 ^ sign_shift format + (raw * 2 ^ m + f) in
  in_format format bits /\ is_negative format bits = neg /\
  raw_exponent format bits = raw /\ fraction format bits = f.
Proof.
  intros Hr Hfr bits. pose proof (format_bounds format) as (Hm & He & Hs & _).
  pose proof (pow2_pos m ltac:(lia)). pose proof (pow2_pos eb ltac:(lia)).
  assert (2 ^ sign_shift format = 2 ^ eb * 2 ^ m) as Hss by (rewrite Hs; apply Z.pow_add_r; lia).
  assert (in_format format bits) as Hin.
  { unfold in_format, in_range. rewrite bits_eq.
    replace (2 ^ (1 + eb + m)) with (2 * (2 ^ eb * 2 ^ m)) by (rewrite !Z.pow_add_r by lia; lia).
    unfold bits. rewrite Hss. destruct neg; cbn [b2z]; nia. }
  assert (bits / 2 ^ m = b2z neg * 2 ^ eb + raw) as Hq.
  { symmetry. apply Z.div_unique with f; [lia |]. unfold bits. rewrite Hss. ring. }
  assert (fraction format bits = f) as Hfrac.
  { symmetry. apply Z.mod_unique with (b2z neg * 2 ^ eb + raw); [lia |]. unfold bits. rewrite Hss. ring. }
  assert (raw_exponent format bits = raw) as Hraw.
  { unfold raw_exponent. rewrite Hq. symmetry. apply Z.mod_unique with (b2z neg); lia. }
  split; [exact Hin |]. split; [| split; assumption].
  pose proof (encoding bits Hin) as Henc. rewrite Hraw, Hfrac in Henc.
  assert (0 < 2 ^ sign_shift format) by nia.
  generalize dependent (is_negative format bits). intros n Henc. unfold bits in Henc.
  destruct n, neg; cbn [b2z] in Henc; reflexivity || lia.
Qed.

(** Flipping the sign bit. *)
Lemma flip_sign (bits : Z) :
  in_format format bits ->
  let flipped := Z.lxor bits (wshl 64 1 (sign_shift format)) in
  in_format format flipped /\ is_negative format flipped = negb (is_negative format bits) /\
  raw_exponent format flipped = raw_exponent format bits /\
  fraction format flipped = fraction format bits.
Proof.
  intros Hb flipped. pose proof (encoding bits Hb) as He. pose proof (encoding_small bits) as Hs.
  pose proof (raw_bounds bits) as Hr. pose proof (fraction_bounds bits) as Hfr.
  pose proof (format_bounds format) as Hf. pose proof (pow2_pos m ltac:(lia)) as Hp.
  assert (flipped = b2z (negb (is_negative format bits)) * 2 ^ sign_shift format +
    (raw_exponent format bits * 2 ^ m + fraction format bits)) as ->; [| apply decode_encoding; assumption].
  unfold flipped. rewrite He at 1.
  assert (wshl 64 1 (sign_shift format) = 2 ^ sign_shift format) as -> by (destruct format; reflexivity).
  set (low := raw_exponent format bits * 2 ^ m + fraction format bits) in *.
  assert (0 <= low) as Hlow by (unfold low; nia). clearbody low.
  assert (Z.lxor (2 ^ sign_shift format) low = 2 ^ sign_shift format + low) as Hx.
  { pose proof (lor_shifted 1 low (sign_shift format) ltac:(lia) ltac:(lia)) as Hl.
    rewrite Z.mul_1_l in Hl. rewrite <- Hl. symmetry. apply Z.bits_inj'. intros i Hi.
    rewrite Z.lor_spec, Z.lxor_spec, Z.pow2_bits_eqb by lia.
    destruct (Z.eqb_spec (sign_shift format) i) as [<- |]; [| destruct (Z.testbit low i); reflexivity].
    rewrite (in_range_testbit_high (sign_shift format) low) by (lia || (split; lia)). reflexivity. }
  destruct (is_negative format bits); cbn [b2z negb].
  - rewrite Z.mul_1_l, <- Hx, Z.lxor_comm, <- Z.lxor_assoc, Z.lxor_nilpotent, Z.lxor_0_l. lia.
  - rewrite Z.mul_0_l, Z.add_0_l, Z.lxor_comm, Hx. lia.
Qed.

(** Its effect on what the encoding stands for. *)
Lemma flip_sign_units (bits : Z) :
  in_format format bits ->
  let flipped := Z.lxor bits (wshl 64 1 (sign_shift format)) in
  finite format flipped = finite format bits /\ units format flipped = - units format bits.
Proof.
  intros Hb flipped. destruct (flip_sign bits Hb) as (_ & Hn & Hr & Hfr). fold flipped in Hn, Hr, Hfr.
  unfold finite, units, unsigned_units. rewrite Hn, Hr, Hfr. split; [reflexivity |].
  destruct (is_negative format bits); cbn [negb]; lia.
Qed.

(** ** Unpacking *)

(** What an unpacked value holds: its leading bit in place, and [u] units. *)
Definition unpacks_to (v : Unpacked) (neg : bool) (u : Z) : Prop :=
  Unpacked.is_negative v = neg /\
  2 ^ (m + 3) <= Unpacked.significand v < 2 ^ (m + 4) /\
  Unpacked.significand v mod 8 = 0 /\
  0 <= Unpacked.exponent v - unit_exponent format /\
  Unpacked.exponent v <= exponent_bias format /\
  u * 2 ^ (m + 3) = Unpacked.significand v * 2 ^ (Unpacked.exponent v - unit_exponent format).

Lemma unpack_spec (bits : Z) :
  in_format format bits -> finite format bits = true -> units format bits <> 0 ->
  unpacks_to (unpack bits format) (is_negative format bits) (unsigned_units format bits).
Proof.
  intros Hb Hfin Hnz. pose proof (raw_bounds bits) as Hr. pose proof (fraction_bounds bits) as Hfr.
  pose proof (format_bounds format) as Hf. pose proof (pow2_pos m ltac:(lia)) as Hp.
  unfold unpack. rewrite land_raw, land_fraction. apply Z.ltb_lt in Hfin.
  assert (unsigned_units format bits <> 0) as Hu by (rewrite <- abs_units; lia).
  unfold unsigned_units in *. unfold unpacks_to, unit_exponent, min_exponent, GUARD_BITS.
  destruct (Z.eqb_spec (raw_exponent format bits) 0) as [H0 | H0].
  - destruct (Z.eqb_spec (fraction format bits) 0); [contradiction |].
    set (f := fraction format bits) in *.
    pose proof (Z.log2_spec f ltac:(lia)) as Hl. pose proof (Z.log2_nonneg f) as Hl0.
    assert (Z.log2 f < m) as Hlm by (apply Z.log2_lt_pow2; lia).
    rewrite (leading_zeros_below f (Z.log2 f)) by (rewrite ?Z.add_1_r; assumption).
    replace (63 - Z.log2 f - (64 - (m + 1))) with (m - Z.log2 f) by lia.
    set (l := Z.log2 f) in *.
    assert (f * 2 ^ (m - l + 3) < 2 ^ (m + 4) /\ 2 ^ (m + 3) <= f * 2 ^ (m - l + 3)) as [Hhi Hlo].
    { pose proof (pow2_pos (m - l + 3) ltac:(lia)).
      assert (2 ^ (m + 4) = 2 ^ Z.succ l * 2 ^ (m - l + 3)) as ->
        by (rewrite <- Z.pow_add_r by lia; f_equal; lia).
      assert (2 ^ (m + 3) = 2 ^ l * 2 ^ (m - l + 3)) as ->
        by (rewrite <- Z.pow_add_r by lia; f_equal; lia). nia. }
    assert (2 ^ (m + 4) <= 2 ^ 63) by (apply Z.pow_le_mono_r; lia).
    assert (significand_mask format = 2 ^ (m + 4) - 1) as -> by (destruct format; reflexivity).
    rewrite wshl_small, land_low, Z.mod_small by (lia || (split; lia)).
    split; [reflexivity |]. cbn [Unpacked.significand Unpacked.exponent].
    repeat apply conj; [lia | lia | | lia | lia |].
    { replace (m - l + 3) with (m - l + Z.of_nat 3) by lia. rewrite Z.pow_add_r, Z.mul_assoc by lia.
      apply Z.mod_mul. discriminate. }
    rewrite <- Z.mul_assoc, <- Z.pow_add_r by lia. do 2 f_equal. lia.
  - assert (wshl 64 1 m = 2 ^ m) as -> by (destruct format; reflexivity).
    set (f := fraction format bits) in *.
    assert (Z.lor f (2 ^ m) = 2 ^ m + f) as ->
      by (rewrite Z.lor_comm; pose proof (lor_shifted 1 f m) as E; rewrite Z.mul_1_l in E; apply E; lia).
    assert (2 ^ (m + 4) = 2 * (2 ^ m * 2 ^ 3) /\ 2 ^ (m + 3) = 2 ^ m * 2 ^ 3) as [E4 E3].
    { split; rewrite <- ?Z.pow_add_r, <- ?Z.pow_succ_r by lia; f_equal; lia. }
    assert (2 ^ (m + 4) <= 2 ^ 63) by (apply Z.pow_le_mono_r; lia). change (2 ^ 3) with 8 in *.
    rewrite wshl_small by (change (2 ^ 3) with 8; lia || (split; lia)). change (2 ^ 3) with 8.
    split; [reflexivity |]. cbn [Unpacked.significand Unpacked.exponent].
    repeat apply conj; [lia | lia | apply Z.mod_mul; discriminate | lia | nia |].
    rewrite E3. replace (raw_exponent format bits - exponent_bias format -
      (1 - exponent_bias format - m)) with (raw_exponent format bits - 1 + m) by lia.
    rewrite Z.pow_add_r by lia. ring.
Qed.

Lemma unpack_zero (bits : Z) :
  in_format format bits -> units format bits = 0 ->
  unpack bits format = Unpacked.zero (is_negative format bits).
Proof.
  intros Hb Hz. apply Z.eqb_eq in Hz. rewrite <- is_zero_spec in Hz by exact Hb.
  unfold is_zero in Hz. rewrite land_unsigned in Hz by exact Hb. apply Z.eqb_eq in Hz.
  pose proof (raw_bounds bits) as Hr. pose proof (fraction_bounds bits) as Hfr.
  pose proof (format_bounds format) as Hf. pose proof (pow2_pos m ltac:(lia)) as Hp.
  unfold unpack. rewrite land_raw, land_fraction.
  assert (raw_exponent format bits = 0 /\ fraction format bits = 0) as [-> ->] by nia. reflexivity.
Qed.

End Format.

(** ** Exact results *)

Import arithmetic.

(** [x / 2^k] over any common denominator. *)
Lemma ratio_at (n d e k t : Z) :
  0 < d -> 0 <= t -> 0 <= t + k - e ->
  floor_at (ratio n d e) k = n * 2 ^ t / (d * 2 ^ (t + k - e)) /\
  exact_at (ratio n d e) k = (n * 2 ^ t mod (d * 2 ^ (t + k - e)) =? 0).
Proof.
  intros Hd Ht Htk. cbn [floor_at exact_at ratio]. unfold ratio_num, ratio_den.
  set (w := t - Z.max 0 (e - k)).
  assert (0 <= w) as Hw by lia. pose proof (pow2_pos w Hw).
  pose proof (pow2_pos (Z.max 0 (k - e)) ltac:(lia)).
  replace t with (Z.max 0 (e - k) + w) at 1 3 by lia.
  replace (t + k - e) with (Z.max 0 (k - e) + w) by lia.
  rewrite !Z.pow_add_r, !Z.mul_assoc by lia.
  rewrite Z.div_mul_cancel_r, Z.mul_mod_distr_r by nia. split; [reflexivity |].
  apply eq_true_iff_eq. rewrite !Z.eqb_eq. nia.
Qed.

Lemma represents_ratio (n d e k t q r : Z) :
  0 < d -> 0 <= t -> 0 <= t + k - e ->
  n * 2 ^ t = q * (d * 2 ^ (t + k - e)) + r -> 0 <= r < d * 2 ^ (t + k - e) ->
  represents_at (ratio n d e) q (negb (r =? 0)) k.
Proof.
  intros Hd Ht Htk Hn Hr. destruct (ratio_at n d e k t Hd Ht Htk) as [Hf He].
  split; [rewrite Hf | rewrite He, negb_involutive].
  - symmetry. apply Z.div_unique with r; lia.
  - f_equal. symmetry. apply Z.mod_unique with q; lia.
Qed.

Lemma ratio_exponent (n e : Z) : 0 < n -> floor_at (ratio n 1 e) (e + Z.log2 n) = 1.
Proof.
  intros Hn. pose proof (Z.log2_nonneg n). pose proof (Z.log2_spec n Hn) as [Hlo Hhi].
  destruct (ratio_at n 1 e (e + Z.log2 n) 0) as [-> _]; [lia | lia | lia |].
  rewrite Z.mul_1_r, Z.mul_1_l. replace (0 + (e + Z.log2 n) - e) with (Z.log2 n) by lia.
  rewrite Z.pow_succ_r in Hhi by lia. symmetry. apply Z.div_unique with (n - 2 ^ Z.log2 n); lia.
Qed.

(** A whole number of units is exact at their scale. *)
Lemma ratio_integer (n e : Z) : exact_at (ratio n 1 e) e = true.
Proof.
  destruct (ratio_at n 1 e e 0) as [_ ->]; [lia | lia | lia |].
  rewrite Z.add_0_l, Z.sub_diag, Z.mul_1_r. change (1 * 2 ^ 0) with 1. rewrite Z.mod_1_r. reflexivity.
Qed.

Section Unpacked.

Context (format : FpFormat).

#[local] Abbreviation m := (FpFormat.mantissa_bits format).

(** The exponent of an unpacked value is its magnitude's. *)
Lemma unpacks_log2 (v : Unpacked) (neg : bool) (u : Z) :
  unpacks_to format v neg u ->
  0 < u /\ Z.log2 u = Unpacked.exponent v - unit_exponent format.
Proof.
  intros (_ & Hq & _ & HE & _ & Hu). pose proof (format_bounds format).
  set (E := Unpacked.exponent v - unit_exponent format) in *.
  pose proof (pow2_pos E HE). pose proof (pow2_pos (m + 3) ltac:(lia)).
  assert (0 < u) by nia. split; [assumption |]. apply Z.log2_unique; [exact HE |].
  replace (m + 4) with (Z.succ (m + 3)) in Hq by lia. rewrite Z.pow_succ_r in Hq by lia.
  rewrite Z.pow_succ_r by lia. nia.
Qed.

Lemma unpacks_bounds (v : Unpacked) (neg : bool) (u : Z) :
  unpacks_to format v neg u ->
  - 1100 <= Unpacked.exponent v <= 1023 /\ 0 < Unpacked.significand v < 2 ^ 56 /\
  - 1100 <= unit_exponent format <= 0.
Proof.
  intros (_ & Hq & _ & HE & HE' & _). pose proof (format_bounds format) as Hf.
  unfold unit_exponent, min_exponent in *. pose proof (pow2_pos (m + 3) ltac:(lia)).
  assert (2 ^ (m + 4) <= 2 ^ 56) by (apply Z.pow_le_mono_r; lia). lia.
Qed.

End Unpacked.

(** ** Sums of unpacked values *)

Lemma align_spec (q shift : Z) :
  0 <= q < 2 ^ 64 -> 0 <= shift ->
  align q shift = (q / 2 ^ shift, negb (q mod 2 ^ shift =? 0)).
Proof.
  intros Hq Hs. unfold align. destruct (Z.leb_spec 64 shift).
  - assert (2 ^ 64 <= 2 ^ shift) by (apply Z.pow_le_mono_r; lia).
    rewrite Z.div_small, Z.mod_small by lia. reflexivity.
  - rewrite low_mask, land_low, wshr_div by lia. reflexivity.
Qed.

Section Sum.

Context (format : FpFormat).

#[local] Abbreviation m := (mantissa_bits format).
#[local] Abbreviation e0 := (unit_exponent format).
#[local] Abbreviation s := (m + 3).

Context (v1 v2 : Unpacked) (n1 n2 : bool) (u1 u2 : Z).
Context (H1 : unpacks_to format v1 n1 u1) (H2 : unpacks_to format v2 n2 u2).

#[local] Abbreviation E1 := (Unpacked.exponent v1).
#[local] Abbreviation E2 := (Unpacked.exponent v2).
#[local] Abbreviation q1 := (Unpacked.significand v1).
#[local] Abbreviation q2 := (Unpacked.significand v2).

Lemma is_larger_spec : is_larger v1 v2 = (u2 <=? u1).
Proof.
  pose proof (unpacks_log2 format v1 n1 u1 H1) as [Hp1 Hl1].
  pose proof (unpacks_log2 format v2 n2 u2 H2) as [Hp2 Hl2].
  destruct H1 as (_ & Hq1 & _ & HE1 & _ & Hu1), H2 as (_ & Hq2 & _ & HE2 & _ & Hu2).
  pose proof (format_bounds format). pose proof (pow2_pos s ltac:(lia)).
  unfold is_larger. apply eq_true_iff_eq.
  rewrite orb_true_iff, andb_true_iff, Z.ltb_lt, Z.eqb_eq, !Z.leb_le. split.
  - intros [Hlt | [Heq Hle]]; [| rewrite Heq in Hu1; pose proof (pow2_pos (E2 - e0) HE2); nia].
    destruct (Z.le_gt_cases u2 u1) as [Hle | Hgt]; [exact Hle |].
    apply Z.lt_le_incl, Z.log2_le_mono in Hgt. lia.
  - intros Hle. destruct (Z.lt_trichotomy E2 E1) as [Hlt | [Heq | Hgt]]; [left; exact Hlt | |].
    + right. split; [lia |]. rewrite Heq in Hu2. pose proof (pow2_pos (E1 - e0) HE1). nia.
    + apply Z.log2_le_mono in Hle. lia.
Qed.

Context (Hle : u2 <= u1).

Lemma exponents_ordered : 0 <= E1 - E2.
Proof.
  pose proof (unpacks_log2 format v1 n1 u1 H1) as [Hp1 Hl1].
  pose proof (unpacks_log2 format v2 n2 u2 H2) as [Hp2 Hl2].
  apply Z.log2_le_mono in Hle. lia.
Qed.

(** Both operands over the larger one's exponent. *)
Lemma common_scale :
  let P2 := 2 ^ (E2 - e0) in let d := 2 ^ (E1 - E2) in
  0 < P2 /\ 0 < d /\ 2 ^ (E1 - e0) = d * P2 /\
  u1 * 2 ^ s = q1 * (d * P2) /\ u2 * 2 ^ s = q2 * P2.
Proof.
  pose proof exponents_ordered as Ho.
  destruct H1 as (_ & Hq1 & _ & HE1 & _ & Hu1), H2 as (_ & Hq2 & _ & HE2 & _ & Hu2).
  assert (2 ^ (E1 - e0) = 2 ^ (E1 - E2) * 2 ^ (E2 - e0)) as Hd
    by (rewrite <- Z.pow_add_r by lia; f_equal; lia).
  cbv zeta. rewrite <- Hd. repeat split; assumption || apply pow2_pos; lia.
Qed.

Lemma add_aligned :
  represents_at (ratio (u1 + u2) 1 e0) (q1 + q2 / 2 ^ (E1 - E2))
    (negb (q2 mod 2 ^ (E1 - E2) =? 0)) (E1 - s).
Proof.
  destruct common_scale as (HP & Hd & HPd & Hu1 & Hu2). pose proof (format_bounds format).
  destruct H1 as (_ & _ & _ & HE1 & _).
  set (d := 2 ^ (E1 - E2)) in *. set (P2 := 2 ^ (E2 - e0)) in *.
  pose proof (Z.mod_pos_bound q2 d ltac:(lia)). pose proof (Z.div_mod q2 d ltac:(lia)).
  replace (q2 mod d =? 0) with (q2 mod d * P2 =? 0)
    by (apply eq_true_iff_eq; rewrite !Z.eqb_eq; nia).
  apply represents_ratio with s; replace (s + (E1 - s) - e0) with (E1 - e0) by lia;
    rewrite ?HPd; nia || lia.
Qed.

(** The borrow for the bits shifted out. *)
Lemma subtract_scaled :
  let st := negb (q2 mod 2 ^ (E1 - E2) =? 0) in
  represents_at (ratio (u1 - u2) 1 e0) (q1 - q2 / 2 ^ (E1 - E2) - b2z st) st (E1 - s).
Proof.
  destruct common_scale as (HP & Hd & HPd & Hu1 & Hu2). pose proof (format_bounds format).
  destruct H1 as (_ & _ & _ & HE1 & _).
  set (d := 2 ^ (E1 - E2)) in *. set (P2 := 2 ^ (E2 - e0)) in *.
  pose proof (Z.mod_pos_bound q2 d ltac:(lia)). pose proof (Z.div_mod q2 d ltac:(lia)).
  cbv zeta. destruct (Z.eqb_spec (q2 mod d) 0) as [Hz | Hz]; cbn [negb b2z].
  - change false with (negb (0 =? 0)).
    apply represents_ratio with s; replace (s + (E1 - s) - e0) with (E1 - e0) by lia;
      rewrite ?HPd; nia || lia.
  - replace true with (negb (d * P2 - q2 mod d * P2 =? 0)) by
      (destruct (Z.eqb_spec (d * P2 - q2 mod d * P2) 0); [nia | reflexivity]).
    apply represents_ratio with s; replace (s + (E1 - s) - e0) with (E1 - e0) by lia;
      rewrite ?HPd; nia || lia.
Qed.

(** Bits are shifted out only past the three guard bits, so the difference then
    loses at most one bit of its lead. *)
Lemma subtract_lead :
  let st := negb (q2 mod 2 ^ (E1 - E2) =? 0) in
  (st = true -> 2 ^ (s - 1) <= q1 - q2 / 2 ^ (E1 - E2) - b2z st) /\
  0 <= q1 - q2 / 2 ^ (E1 - E2) - b2z st < 2 ^ 64.
Proof.
  pose proof exponents_ordered as Ho. pose proof (format_bounds format) as Hf.
  pose proof (unpacks_bounds format v1 n1 u1 H1) as (_ & Hb1 & _).
  pose proof subtract_scaled as [Hrep _]. cbv zeta in *.
  assert (0 <= u1 - u2) as Hnn by lia.
  pose proof (floor_nonneg _ (ratio_ok (u1 - u2) 1 e0 Hnn ltac:(lia)) (E1 - s)) as Hfl.
  rewrite Hrep in Hfl. destruct H1 as (_ & Hq1 & _), H2 as (_ & Hq2 & H8 & _).
  pose proof (Z.div_pos q2 (2 ^ (E1 - E2)) ltac:(pose proof (pow2_pos s); lia) (pow2_pos _ Ho)).
  destruct (Z.eqb_spec (q2 mod 2 ^ (E1 - E2)) 0) as [Hz | Hz]; cbn [negb b2z] in *;
    (split; [| change (2 ^ 64) with (2 ^ 56 * 2 ^ 8); lia]); [discriminate |]. intros _.
  assert (4 <= E1 - E2) as H4.
  { destruct (Z.le_gt_cases 4 (E1 - E2)) as [H4 | H4]; [exact H4 |]. exfalso. apply Hz.
    apply Z.mod_divide; [pose proof (pow2_pos _ Ho); lia |].
    apply (Z.divide_trans _ (2 ^ 3)); [| apply Z.mod_divide; [discriminate | exact H8]].
    exists (2 ^ (3 - (E1 - E2))). rewrite <- Z.pow_add_r by lia. f_equal. lia. }
  assert (q2 / 2 ^ (E1 - E2) < 2 ^ m) as Hsmall.
  { apply Z.div_lt_upper_bound; [apply pow2_pos; lia |].
    apply (Z.lt_le_trans _ (2 ^ (m + 4))); [lia |]. rewrite <- Z.pow_add_r by lia.
    apply Z.pow_le_mono_r; lia. }
  replace (s - 1) with (m + 2) by lia. rewrite Z.pow_add_r in Hq1 |- * by lia.
  change (2 ^ 3) with 8 in *. change (2 ^ 2) with 4. pose proof (pow2_pos m ltac:(lia)). lia.
Qed.

End Sum.

(** ** Order *)

Section Order.

Context (format : FpFormat).

#[local] Abbreviation m := (mantissa_bits format).
#[local] Abbreviation eb := (exponent_bits format).

(** The bits below the sign. *)
Definition magnitude_bits (bits : Z) : Z := raw_exponent format bits * 2 ^ m + fraction format bits.

Lemma unsigned_units_bounds (bits : Z) :
  let r := raw_exponent format bits in
  (r = 0 -> unsigned_units format bits = fraction format bits) /\
  (1 <= r -> 2 ^ m * 2 ^ (r - 1) <= unsigned_units format bits < 2 ^ m * 2 ^ r).
Proof.
  cbv zeta. pose proof (fraction_bounds format bits). unfold unsigned_units.
  destruct (Z.eqb_spec (raw_exponent format bits) 0) as [Hz | Hz]; [lia |]. split; [lia |]. intros Hr.
  replace (2 ^ raw_exponent format bits) with (2 * 2 ^ (raw_exponent format bits - 1))
    by (rewrite <- Z.pow_succ_r by lia; f_equal; lia).
  pose proof (pow2_pos (raw_exponent format bits - 1) ltac:(lia)). nia.
Qed.

(** Consecutive encodings are consecutive values. *)
Lemma unsigned_units_increasing (a b : Z) :
  magnitude_bits a < magnitude_bits b -> unsigned_units format a < unsigned_units format b.
Proof.
  unfold magnitude_bits. intros Hlt. pose proof (format_bounds format).
  pose proof (fraction_bounds format a) as Hfa. pose proof (fraction_bounds format b) as Hfb.
  pose proof (raw_bounds format a) as Hra. pose proof (raw_bounds format b) as Hrb.
  pose proof (pow2_pos m ltac:(lia)).
  destruct (unsigned_units_bounds a) as [Ha0 Ha1], (unsigned_units_bounds b) as [Hb0 Hb1].
  assert (raw_exponent format a <= raw_exponent format b) as Hle by nia.
  destruct (Z.eq_dec (raw_exponent format a) (raw_exponent format b)) as [Heq | Hne].
  - unfold unsigned_units. rewrite Heq in *.
    destruct (Z.eqb_spec (raw_exponent format b) 0) as [Hz | Hz]; [lia |].
    pose proof (pow2_pos (raw_exponent format b - 1) ltac:(lia)). nia.
  - specialize (Hb1 ltac:(lia)).
    assert (2 ^ m * 2 ^ raw_exponent format a <= 2 ^ m * 2 ^ (raw_exponent format b - 1)).
    { apply Z.mul_le_mono_nonneg_l; [lia |]. apply Z.pow_le_mono_r; lia. }
    destruct (Z.eq_dec (raw_exponent format a) 0) as [Hz | Hz]; [| specialize (Ha1 ltac:(lia)); lia].
    rewrite Ha0 by exact Hz. rewrite Hz in *. change (2 ^ 0) with 1 in *. lia.
Qed.

Lemma unsigned_units_compare (a b : Z) :
  (unsigned_units format a ?= unsigned_units format b) = (magnitude_bits a ?= magnitude_bits b).
Proof.
  destruct (Z.compare_spec (magnitude_bits a) (magnitude_bits b)) as [Heq | Hlt | Hgt].
  - apply Z.compare_eq_iff. unfold magnitude_bits in Heq. unfold unsigned_units.
    pose proof (fraction_bounds format a). pose proof (fraction_bounds format b).
    assert (raw_exponent format a = raw_exponent format b) as Hr by nia.
    assert (fraction format a = fraction format b) as Hf by nia. rewrite Hr, Hf. reflexivity.
  - apply Z.compare_lt_iff, unsigned_units_increasing, Hlt.
  - apply Z.compare_gt_iff, unsigned_units_increasing, Hgt.
Qed.

Definition order_of (c : comparison) : FpComparison :=
  match c with Lt => FpComparison.Less | Eq => FpComparison.Equal | Gt => FpComparison.Greater end.

Lemma same_units_same_bits (a b : Z) :
  in_format format a -> in_format format b -> units format a <> 0 ->
  units format a = units format b -> a = b.
Proof.
  intros Ha Hb Hnz Heq. pose proof (unsigned_units_nonneg format a). pose proof (unsigned_units_nonneg format b).
  assert (is_negative format a = is_negative format b /\
          unsigned_units format a = unsigned_units format b) as [Hn Hu].
  { unfold units in *. destruct (is_negative format a), (is_negative format b); split; lia || reflexivity. }
  apply Z.compare_eq_iff in Hu. rewrite unsigned_units_compare in Hu. apply Z.compare_eq_iff in Hu.
  rewrite (encoding format a Ha), (encoding format b Hb), Hn. f_equal. exact Hu.
Qed.

(** The ordering is that of the values; an infinity counts as the value its
    encoding would have, which is past every finite one. *)
Lemma ordering_units (lhs rhs : Z) :
  in_format format lhs -> in_format format rhs ->
  compare.ordering lhs rhs format = order_of (units format lhs ?= units format rhs).
Proof.
  intros Hl Hr. unfold compare.ordering, compare.magnitude.
  rewrite !is_zero_spec, !land_unsigned by assumption.
  fold (magnitude_bits lhs) (magnitude_bits rhs).
  destruct (Z.eqb_spec (units format lhs) 0) as [Hlz | Hlz], (Z.eqb_spec (units format rhs) 0) as [Hrz | Hrz];
    cbn [andb]; [rewrite Hlz, Hrz; reflexivity | | |];
    (destruct (Z.eqb_spec lhs rhs) as [<- | Hne]; [rewrite Z.compare_refl; reflexivity |]);
    assert (units format lhs <> units format rhs) as Hu by
      (first [congruence | intros Hu; apply Hne; apply same_units_same_bits; assumption]);
    pose proof (unsigned_units_compare lhs rhs) as Hc;
    pose proof (unsigned_units_nonneg format lhs); pose proof (unsigned_units_nonneg format rhs);
    clear Hne; unfold units in *;
    destruct (is_negative format lhs), (is_negative format rhs); cbn [xorb];
    repeat match goal with |- context [?x <? ?y] => destruct (Z.ltb_spec x y) end;
    destruct (Z.compare_spec (magnitude_bits lhs) (magnitude_bits rhs));
    destruct (Z.compare_spec (unsigned_units format lhs) (unsigned_units format rhs)); try discriminate Hc;
    try match goal with |- context [?x ?= ?y] => destruct (Z.compare_spec x y) end; reflexivity || lia.
Qed.

(** ** Values the format holds *)

Lemma ieee_round_exact (rounding : FpRounding) (bits : Z) :
  in_format format bits -> finite format bits = true -> units format bits <> 0 ->
  ieee_round format rounding (is_negative format bits)
    (ratio (unsigned_units format bits) 1 (unit_exponent format))
    (unit_exponent format + Z.log2 (unsigned_units format bits)) = FpResult.exact bits.
Proof.
  intros Hb Hfin Hnz. pose proof (format_bounds format) as Hf.
  pose proof (fraction_bounds format bits) as Hfr. pose proof (raw_bounds format bits) as Hr.
  pose proof (unsigned_units_nonneg format bits) as Hnn. pose proof (abs_units format bits) as Habs.
  pose proof (pow2_pos m ltac:(lia)) as Hp. apply Z.ltb_lt in Hfin.
  assert (unsigned_units format bits =
          if raw_exponent format bits =? 0 then fraction format bits
          else (2 ^ m + fraction format bits) * 2 ^ (raw_exponent format bits - 1)) as Hdef by reflexivity.
  set (u := unsigned_units format bits) in *. assert (0 < u) as Hu by lia. clearbody u.
  set (x := ratio u 1 (unit_exponent format)). set (e := unit_exponent format + Z.log2 u).
  set (raw := raw_exponent format bits) in *. set (f := fraction format bits) in *.
  assert (exists j, 0 <= j /\ quantum format e = unit_exponent format + j /\
            j * 2 ^ m + u / 2 ^ j = raw * 2 ^ m + f /\ u mod 2 ^ j = 0) as (j & Hj & Hk & Henc & Hmod).
  { destruct (Z.eqb_spec raw 0) as [Hz | Hz].
    - exists 0. change (2 ^ 0) with 1. rewrite Z.div_1_r, Z.mod_1_r.
      assert (Z.log2 u < m) by (apply Z.log2_lt_pow2; lia).
      unfold quantum, e, unit_exponent in *. rewrite Hz. lia.
    - exists (raw - 1). pose proof (pow2_pos (raw - 1) ltac:(lia)).
      assert (Z.log2 u = m + raw - 1) as Hl.
      { apply Z.log2_unique; [lia |]. rewrite Hdef. replace (Z.succ (m + raw - 1)) with (m + (raw - 1) + 1) by lia.
        replace (m + raw - 1) with (m + (raw - 1)) by lia. rewrite !Z.pow_add_r by lia. nia. }
      rewrite Hdef, Z.div_mul, Z.mod_mul by lia.
      unfold quantum, e, unit_exponent in *. lia. }
  destruct (ratio_at u 1 (unit_exponent format) (quantum format e) 0) as [Hfl Hex]; [lia | lia | lia |].
  fold x in Hfl, Hex. rewrite Z.mul_1_r, Z.mul_1_l in Hfl, Hex.
  replace (0 + quantum format e - unit_exponent format) with j in Hfl, Hex by lia.
  rewrite Hmod in Hex. change (0 =? 0) with true in Hex.
  unfold ieee_round, rounded. rewrite Hex, rounds_up_exact, Hfl by (assumption || apply ratio_ok; lia).
  cbn [b2z]. rewrite Z.add_0_r.
  replace (quantum format e + m - min_exponent format) with j by (unfold unit_exponent in *; lia).
  rewrite Henc. destruct (Z.leb_spec ((2 ^ eb - 1) * 2 ^ m) (raw * 2 ^ m + f)); [nia |].
  unfold FpResult.exact. f_equal. symmetry. apply (encoding format bits Hb).
Qed.

End Order.
