(* ===== verification/FpAddition.v ===== *)
(** Addition and subtraction round the exact sum; products, quotients and roots of
    unpacked values are exact but for the sticky bit, and round as the reference
    does; the restoring square root is [Z.sqrt]. *)

From stdpp Require Import base numbers list option.
From S2P Require Import Prelude FpOperand FpDecompose FpCompare FpArithmetic FpMagnitude FpRound.
From S2P Require Import FpValues.

#[local] Open Scope Z_scope.

Import FpFormat decompose arithmetic.

(** Whether FPCR flushes this format's subnormals. *)
Definition flushing (format : FpFormat) (control : FpControl) : bool :=
  match format with
  | Half => FpControl.is_flush_to_zero_fp16 control
  | Single | Double => FpControl.is_flush_to_zero control
  end.

(** The sum of [a] and [b] units, of the signs [na] and [nb], which decide the
    sign of a zero. *)
Definition ieee_sum (format : FpFormat) (rounding : FpRounding) (na nb : bool) (a b : Z) :
    FpResult :=
  let sum := a + b in
  if sum =? 0
  then FpResult.exact (zero format (if eqb na nb then na else is_minus rounding))
  else
    ieee_round format rounding (sum <? 0) (ratio (Z.abs sum) 1 (unit_exponent format))
      (unit_exponent format + Z.log2 (Z.abs sum)).

(** ** Flushing *)

Lemma no_input_flush (bits : Z) (context : Context) :
  flushing (Context.format context) (Context.control context) = false ->
  flush_input bits context = (bits, FpExceptions.NONE).
Proof. unfold flush_input, flushing. intros H. destruct (Context.format context); rewrite H; reflexivity. Qed.

Lemma no_output_flush (result : FpResult) (format : FpFormat) (control : FpControl) :
  flushing format control = false -> apply_flush_to_zero result format control = result.
Proof. unfold apply_flush_to_zero, flushing. intros H. destruct format; rewrite H; reflexivity. Qed.

Lemma flush_zero (format : FpFormat) (neg : bool) (control : FpControl) :
  apply_flush_to_zero (FpResult.exact (zero format neg)) format control =
  FpResult.exact (zero format neg).
Proof.
  unfold apply_flush_to_zero.
  assert (is_subnormal format (FpResult.bits (FpResult.exact (zero format neg))) = false) as ->
    by (destruct format, neg; reflexivity).
  rewrite orb_true_r. reflexivity.
Qed.

Lemma with_no_flags (result : FpResult) : with_flags result FpExceptions.NONE = result.
Proof.
  destruct result as [b [f]]. unfold with_flags, FpResult.raising, FpExceptions.union. cbn.
  rewrite Z.lor_0_r. reflexivity.
Qed.

Lemma flush_none (result : FpResult) :
  with_flags result (FpExceptions.union FpExceptions.NONE FpExceptions.NONE) = result.
Proof. apply with_no_flags. Qed.

(** ** Packing an exact sum *)

(** What is smaller than a normal value is a whole number of subnormals, so no
    sum is rounded there. *)
Lemma pack_units (context : Context) (neg : bool) (n E q : Z) (st : bool) :
  let format := Context.format context in
  let e := unit_exponent format + Z.log2 n in
  let s := mantissa_bits format + 3 in
  Context.rounding context <> FpRounding.Odd -> 0 < n -> Z.log2 n <= 2 ^ 19 ->
  represents_at (ratio n 1 (unit_exponent format)) q st (E - s) ->
  0 < q < 2 ^ 64 -> (st = true -> 2 ^ (s - 1) <= q) ->
  Context.pack context (Unpacked.mk neg E q) st =
  apply_flush_to_zero
    (ieee_round format (Context.rounding context) neg (ratio n 1 (unit_exponent format)) e)
    format (Context.control context).
Proof.
  intros format e s Hr Hn Hlog Hrep Hq Hst. pose proof (format_bounds format) as Hf.
  pose proof (Z.log2_nonneg n). unfold Context.pack. fold format.
  rewrite (round_and_pack_spec format (Context.rounding_context context st)
    (ratio n 1 (unit_exponent format)) neg E q e).
  - cbn [RoundingContext.rounding RoundingContext.control Context.rounding_context].
    unfold code_round, halves.
    destruct (Z.ltb_spec e (min_exponent format)); [| reflexivity].
    assert (quantum format e = unit_exponent format) as -> by (unfold quantum, unit_exponent; lia).
    rewrite ratio_integer, andb_false_r. reflexivity.
  - apply ratio_ok; lia.
  - exact Hr.
  - exact Hq.
  - exact Hst.
  - exact Hrep.
  - apply ratio_exponent. exact Hn.
  - unfold e, unit_exponent, min_exponent. lia.
Qed.

(** An unpacked value is its own units. *)
Lemma pack_unpacked (context : Context) (v : Unpacked) (neg : bool) (u : Z) :
  let format := Context.format context in
  Context.rounding context <> FpRounding.Odd -> unpacks_to format v neg u ->
  Context.pack context v false =
  apply_flush_to_zero
    (ieee_round format (Context.rounding context) neg (ratio u 1 (unit_exponent format))
       (unit_exponent format + Z.log2 u)) format (Context.control context).
Proof.
  intros format Hr Hv. pose proof (unpacks_log2 format v neg u Hv) as [Hpos Hlog].
  pose proof (unpacks_bounds format v neg u Hv) as (HEb & Hqb & Heb).
  pose proof (format_bounds format) as Hf. destruct v as [nv E q], Hv as (Hneg & _ & _ & HE & _ & Hu).
  cbn [Unpacked.is_negative Unpacked.exponent Unpacked.significand] in *. subst nv.
  apply pack_units; fold format; try assumption; [lia | | | discriminate].
  - change false with (negb (0 =? 0)). apply represents_ratio with (mantissa_bits format + 3); try lia;
      replace (mantissa_bits format + 3 + (E - (mantissa_bits format + 3)) - unit_exponent format)
        with (E - unit_exponent format) by lia; pose proof (pow2_pos (E - unit_exponent format) HE); lia.
  - change (2 ^ 64) with (2 ^ 56 * 2 ^ 8). lia.
Qed.

Lemma pack_zero (context : Context) (neg : bool) :
  Context.pack context (Unpacked.zero neg) false = FpResult.exact (zero (Context.format context) neg).
Proof. reflexivity. Qed.

(** ** The finite sum *)

Lemma represents_zero (n e k t q : Z) (st : bool) :
  0 <= t -> 0 <= t + k - e -> represents_at (ratio n 1 e) q st k ->
  (q =? 0) && negb st = (n =? 0).
Proof.
  intros Ht Htk [Hf He]. destruct (ratio_at n 1 e k t) as [Hf' He']; [lia | lia | lia |].
  rewrite Hf in Hf'. rewrite He in He'. rewrite He'. pose proof (pow2_pos t Ht).
  pose proof (pow2_pos (t + k - e) Htk). apply eq_true_iff_eq.
  rewrite andb_true_iff, !Z.eqb_eq, Hf'. split.
  - intros [Hd Hm]. pose proof (Z.div_mod (n * 2 ^ t) (1 * 2 ^ (t + k - e)) ltac:(lia)). nia.
  - intros ->. rewrite Z.mul_0_l, Z.mod_0_l, Z.div_0_l by lia. split; reflexivity.
Qed.

(** The significand that [subtract_aligned] leaves. *)
Lemma subtract_aligned_spec (v : Unpacked) (aligned : Z) (st : bool) (context : Context) :
  0 <= Unpacked.significand v - aligned - b2z st < 2 ^ 64 ->
  subtract_aligned v aligned st context =
  let q := Unpacked.significand v - aligned - b2z st in
  if (q =? 0) && negb st then (Unpacked.zero (is_minus (Context.rounding context)), false)
  else (Unpacked.mk (Unpacked.is_negative v) (Unpacked.exponent v) q, st).
Proof.
  intros Hq. unfold subtract_aligned, wsub.
  assert ((if st then (wrap 64 (wrap 64 (Unpacked.significand v - aligned) - 1), true)
           else (wrap 64 (Unpacked.significand v - aligned), false)) =
          (Unpacked.significand v - aligned - b2z st, st)) as ->; [| reflexivity].
  destruct st; cbn [b2z] in *; f_equal; [| rewrite Z.sub_0_r in *; apply wrap_small; exact Hq].
  unfold wrap. rewrite Zminus_mod_idemp_l. apply Z.mod_small. exact Hq.
Qed.

Section Add.

Context (context : Context).

#[local] Abbreviation format := (Context.format context).
#[local] Abbreviation rounding := (Context.rounding context).
#[local] Abbreviation e0 := (unit_exponent format).

#[local] Abbreviation flushed result :=
  (apply_flush_to_zero result format (Context.control context)).

Context (Hr : rounding <> FpRounding.Odd).

Lemma add_larger (v1 v2 : Unpacked) (n1 n2 : bool) (u1 u2 : Z) :
  unpacks_to format v1 n1 u1 -> unpacks_to format v2 n2 u2 -> u2 <= u1 ->
  let '(aligned, is_sticky) :=
    align (Unpacked.significand v2) (as_u32 (Unpacked.exponent v1 - Unpacked.exponent v2)) in
  let '(value, is_sticky) :=
    if eqb n1 n2 then
      (Unpacked.mk (Unpacked.is_negative v1) (Unpacked.exponent v1)
         (wadd 64 (Unpacked.significand v1) aligned), is_sticky)
    else subtract_aligned v1 aligned is_sticky context in
  Context.pack context value is_sticky =
  flushed
    (if eqb n1 n2 then
       ieee_round format rounding n1 (ratio (u1 + u2) 1 e0) (e0 + Z.log2 (u1 + u2))
     else if u1 =? u2 then FpResult.exact (zero format (is_minus rounding))
     else ieee_round format rounding n1 (ratio (u1 - u2) 1 e0) (e0 + Z.log2 (u1 - u2))).
Proof.
  intros H1 H2 Hle.
  pose proof (unpacks_log2 format v1 n1 u1 H1) as [Hp1 Hl1].
  pose proof (unpacks_log2 format v2 n2 u2 H2) as [Hp2 Hl2].
  pose proof (unpacks_bounds format v1 n1 u1 H1) as (HE1 & Hq1 & He0).
  pose proof (unpacks_bounds format v2 n2 u2 H2) as (HE2 & Hq2 & _).
  pose proof (exponents_ordered format v1 v2 n1 n2 u1 u2 H1 H2 Hle) as Ho.
  pose proof (format_bounds format) as Hf. pose proof (Z.log2_nonneg u1).
  change (2 ^ 56) with 72057594037927936 in *.
  unfold as_u32. rewrite wrap_small by (split; lia).
  rewrite align_spec by lia.
  set (st := negb (_ =? 0)). set (a := Unpacked.significand v2 / _).
  assert (0 <= a <= Unpacked.significand v2) as Ha.
  { pose proof (pow2_pos _ Ho). split; [apply Z.div_pos; lia |].
    apply Z.div_le_upper_bound; [lia | nia]. }
  assert (Unpacked.is_negative v1 = n1) as Hn1 by apply H1.
  destruct (eqb n1 n2).
  - unfold wadd. rewrite wrap_small by (split; lia). rewrite Hn1.
    apply pack_units; try assumption; try lia.
    + pose proof (Z.log2_double u1 ltac:(lia)).
      assert (Z.log2 (u1 + u2) <= Z.log2 (2 * u1)) by (apply Z.log2_le_mono; lia). lia.
    + apply add_aligned with n1 n2; assumption.
    + intros _. destruct H1 as (_ & Hlead & _).
      apply (Z.le_trans _ (2 ^ (mantissa_bits format + 3))); [apply Z.pow_le_mono_r; lia | lia].
  - pose proof (subtract_scaled format v1 v2 n1 n2 u1 u2 H1 H2 Hle) as Hrep.
    pose proof (subtract_lead format v1 v2 n1 n2 u1 u2 H1 H2 Hle) as [Hlead Hrange].
    cbv zeta in *. fold a in Hrep, Hlead, Hrange. fold st in Hrep, Hlead, Hrange.
    rewrite subtract_aligned_spec by exact Hrange. cbv zeta. rewrite Hn1.
    assert (0 <= mantissa_bits format + 3 +
                 (Unpacked.exponent v1 - (mantissa_bits format + 3)) - e0) as Hscale by lia.
    pose proof (represents_zero _ _ _ (mantissa_bits format + 3) _ _ ltac:(lia) Hscale Hrep) as Hz.
    rewrite Hz.
    replace (u1 - u2 =? 0) with (u1 =? u2) by (apply eq_true_iff_eq; rewrite !Z.eqb_eq; lia).
    destruct (Z.eqb_spec u1 u2) as [Heq | Hne]; [rewrite flush_zero; apply pack_zero |].
    apply pack_units; try assumption; try lia.
    + assert (Z.log2 (u1 - u2) <= Z.log2 u1) by (apply Z.log2_le_mono; lia). lia.
    + enough (Unpacked.significand v1 - a - b2z st <> 0) by lia. intros H0.
      destruct st; [specialize (Hlead eq_refl); pose proof (pow2_pos (mantissa_bits format + 3 - 1)); lia |].
      rewrite H0 in Hz. symmetry in Hz. apply Z.eqb_eq in Hz. lia.
Qed.

(** A zero or a value with its leading bit in place. *)
Definition stands_for (v : Unpacked) (neg : bool) (u : Z) : Prop :=
  (u = 0 /\ v = Unpacked.zero neg) \/ unpacks_to format v neg u.

(** The value of magnitude [u] and sign [neg]. *)
Definition signed (neg : bool) (u : Z) : Z := if neg then - u else u.

Lemma signed_sum_larger (n1 n2 : bool) (u1 u2 : Z) :
  0 < u2 <= u1 ->
  (if eqb n1 n2 then
     ieee_round format rounding n1 (ratio (u1 + u2) 1 e0) (e0 + Z.log2 (u1 + u2))
   else if u1 =? u2 then FpResult.exact (zero format (is_minus rounding))
   else ieee_round format rounding n1 (ratio (u1 - u2) 1 e0) (e0 + Z.log2 (u1 - u2))) =
  ieee_sum format rounding n1 n2 (signed n1 u1) (signed n2 u2).
Proof.
  intros Hu. unfold ieee_sum, signed.
  assert (forall (n : bool) (k a : Z), 0 < k -> a = (if n then - k else k) ->
    ieee_round format rounding n (ratio k 1 e0) (e0 + Z.log2 k) =
    if a =? 0 then FpResult.exact (zero format (if eqb n1 n2 then n1 else is_minus rounding))
    else ieee_round format rounding (a <? 0) (ratio (Z.abs a) 1 e0) (e0 + Z.log2 (Z.abs a))) as HR.
  { intros n k a Hk ->. replace (Z.abs (if n then - k else k)) with k by (destruct n; lia).
    destruct (Z.eqb_spec (if n then - k else k) 0); [destruct n; lia |].
    f_equal. destruct n; symmetry; [apply Z.ltb_lt | apply Z.ltb_ge]; lia. }
  destruct (eqb n1 n2) eqn:En.
  - apply eqb_prop in En as <-. apply HR; [lia | destruct n1; lia].
  - destruct (Z.eqb_spec u1 u2) as [<- |].
    + assert ((if n1 then - u1 else u1) + (if n2 then - u1 else u1) = 0) as ->
        by (destruct n1, n2; discriminate || lia). reflexivity.
    + apply HR; [lia | destruct n1, n2; discriminate || lia].
Qed.

Lemma ieee_sum_comm (n1 n2 : bool) (a b : Z) :
  ieee_sum format rounding n1 n2 a b = ieee_sum format rounding n2 n1 b a.
Proof. unfold ieee_sum. rewrite (Z.add_comm a b). destruct n1, n2; reflexivity. Qed.

Lemma ieee_sum_zero (n1 n2 : bool) (u : Z) :
  0 < u ->
  ieee_sum format rounding n1 n2 0 (signed n2 u) =
  ieee_round format rounding n2 (ratio u 1 e0) (e0 + Z.log2 u).
Proof.
  intros Hu. unfold ieee_sum, signed. rewrite Z.add_0_l.
  destruct (Z.eqb_spec (if n2 then - u else u) 0); [destruct n2; lia |].
  replace (Z.abs (if n2 then - u else u)) with u by (destruct n2; lia).
  f_equal. destruct n2; [apply Z.ltb_lt | apply Z.ltb_ge]; lia.
Qed.

Lemma add_finite_spec (lhs rhs : Unpacked) (nl nr : bool) (ul ur : Z) :
  stands_for lhs nl ul -> stands_for rhs nr ur ->
  let '(value, is_sticky) := add_finite lhs rhs context in
  Context.pack context value is_sticky =
  flushed (ieee_sum format rounding nl nr (signed nl ul) (signed nr ur)).
Proof.
  intros Hl Hrr. unfold add_finite.
  assert (forall v n u, unpacks_to format v n u ->
    Unpacked.is_zero v = false /\ 0 < u /\ Unpacked.is_negative v = n) as Hnz.
  { intros v n u Hv. pose proof (unpacks_bounds format v n u Hv) as (_ & Hq & _).
    repeat split; [apply Z.eqb_neq; lia | apply (unpacks_log2 format v n u Hv) | apply Hv]. }
  assert (forall n : bool, signed n 0 = 0) as Hs0 by (intros []; reflexivity).
  destruct Hl as [[-> ->] | Hl], Hrr as [[-> ->] | Hrr].
  - rewrite !Hs0. unfold ieee_sum. cbv zeta. change (0 + 0 =? 0) with true. cbv iota. rewrite flush_zero.
    destruct nl, nr; apply pack_zero.
  - destruct (Hnz _ _ _ Hrr) as (-> & Hpos & _). cbn [Unpacked.is_zero Unpacked.zero Unpacked.significand Z.eqb andb].
    rewrite Hs0, ieee_sum_zero by exact Hpos. apply pack_unpacked; assumption.
  - destruct (Hnz _ _ _ Hl) as (-> & Hpos & _). cbn [Unpacked.is_zero Unpacked.zero Unpacked.significand Z.eqb andb].
    rewrite Hs0, ieee_sum_comm, ieee_sum_zero by exact Hpos. apply pack_unpacked; assumption.
  - destruct (Hnz _ _ _ Hl) as (-> & Hposl & Hnl), (Hnz _ _ _ Hrr) as (-> & Hposr & Hnr). cbn [andb].
    rewrite (is_larger_spec format lhs rhs nl nr ul ur Hl Hrr).
    destruct (Z.leb_spec ur ul).
    + pose proof (add_larger lhs rhs nl nr ul ur Hl Hrr ltac:(lia)) as Ha.
      rewrite signed_sum_larger in Ha by lia. rewrite Hnl, Hnr. cbv iota.
      destruct (align _ _) as [a st]. rewrite Hnl in Ha. exact Ha.
    + pose proof (add_larger rhs lhs nr nl ur ul Hrr Hl ltac:(lia)) as Ha.
      rewrite signed_sum_larger, ieee_sum_comm in Ha by lia. rewrite Hnl, Hnr. cbv iota.
      destruct (align _ _) as [a st]. rewrite Hnr in Ha. exact Ha.
Qed.

End Add.

(** ** Addition *)

Lemma unpack_stands_for (format : FpFormat) (context : Context) (bits : Z) :
  Context.format context = format -> in_format format bits -> finite format bits = true ->
  stands_for context (unpack bits format) (is_negative format bits) (unsigned_units format bits).
Proof.
  intros <- Hb Hfin. destruct (Z.eq_dec (units (Context.format context) bits) 0) as [Hz | Hz].
  - left. split; [rewrite <- abs_units; lia | apply unpack_zero; assumption].
  - right. apply unpack_spec; assumption.
Qed.

Lemma add_finite_operands (lhs rhs : Z) (context : Context) :
  let format := Context.format context in
  in_format format lhs -> in_format format rhs ->
  finite format lhs = true -> finite format rhs = true ->
  flushing format (Context.control context) = false ->
  Context.rounding context <> FpRounding.Odd ->
  add lhs rhs false context =
  ieee_sum format (Context.rounding context) (is_negative format lhs) (is_negative format rhs)
    (units format lhs) (units format rhs).
Proof.
  intros format Hl Hr Hfl Hfr Hflush Hodd. unfold add, flush_pair.
  rewrite !no_input_flush by exact Hflush. fold format.
  assert (nan.propagate [lhs; rhs] format (Context.control context) = None) as ->.
  { unfold nan.propagate. cbn [List.find]. rewrite !finite_not_nan by assumption. reflexivity. }
  assert (add_infinities lhs rhs context = None) as ->.
  { unfold add_infinities. fold format. rewrite !finite_not_infinite by assumption. reflexivity. }
  pose proof (add_finite_spec context Hodd _ _ _ _ _ _
    (unpack_stands_for format context lhs eq_refl Hl Hfl)
    (unpack_stands_for format context rhs eq_refl Hr Hfr)) as Ha.
  destruct (add_finite _ _ _) as [value is_sticky].
  rewrite Ha, no_output_flush by exact Hflush. apply flush_none.
Qed.

(** ** Products, quotients and roots *)

(** ** The exponent of a quotient *)

Definition ratio_lead (n d : Z) : Z :=
  let l := Z.log2 n - Z.log2 d in
  if floor_at (ratio n d 0) l =? 0 then l - 1 else l.

Lemma ratio_lead_spec (n d : Z) :
  0 < n -> 0 < d -> floor_at (ratio n d 0) (ratio_lead n d) = 1.
Proof.
  intros Hn Hd. unfold ratio_lead. set (a := Z.log2 n). set (b := Z.log2 d).
  pose proof (Z.log2_spec n Hn) as Hn2. pose proof (Z.log2_spec d Hd) as Hd2.
  fold a in Hn2. fold b in Hd2.
  assert (0 <= a) by apply Z.log2_nonneg. assert (0 <= b) by apply Z.log2_nonneg.
  rewrite !Z.pow_succ_r in * by lia.
  pose proof (pow2_pos a ltac:(lia)). pose proof (pow2_pos b ltac:(lia)).
  destruct (ratio_at n d 0 (a - b) b Hd) as [-> _]; [lia | lia |].
  replace (b + (a - b) - 0) with a by lia.
  destruct (Z.eqb_spec (n * 2 ^ b / (d * 2 ^ a)) 0) as [Hz | Hz].
  - apply Z.div_small_iff in Hz; [| nia]. assert (n * 2 ^ b < d * 2 ^ a) by nia.
    destruct (ratio_at n d 0 (a - b - 1) (b + 1) Hd) as [-> _]; [lia | lia |].
    replace (b + 1 + (a - b - 1) - 0) with a by lia. rewrite Z.pow_add_r by lia. change (2 ^ 1) with 2.
    symmetry. apply Z.div_unique with (n * (2 ^ b * 2) - d * 2 ^ a); nia.
  - destruct (ratio_at n d 0 (a - b) b Hd) as [-> _]; [lia | lia |].
    replace (b + (a - b) - 0) with a by lia.
    assert (0 <= n * 2 ^ b / (d * 2 ^ a)) by (apply Z.div_pos; nia).
    assert (n * 2 ^ b / (d * 2 ^ a) < 2) by (apply Z.div_lt_upper_bound; nia). lia.
Qed.

(** ** Rounding a result of any magnitude *)

Section Product.

Context (context : Context).

#[local] Abbreviation format := (Context.format context).
#[local] Abbreviation rounding := (Context.rounding context).
#[local] Abbreviation e0 := (unit_exponent format).
#[local] Abbreviation s := (mantissa_bits format + 3).

#[local] Abbreviation flushed result :=
  (apply_flush_to_zero result format (Context.control context)).

Context (Hr : rounding <> FpRounding.Odd).

Lemma pack_magnitude (x : magnitude) (neg : bool) (E q e : Z) (st : bool) :
  magnitude_ok x -> 0 < q < 2 ^ 64 -> (st = true -> 2 ^ (s - 1) <= q) ->
  represents_at x q st (E - s) -> floor_at x e = 1 -> - 2 ^ 20 <= e <= 2 ^ 20 ->
  Context.pack context (Unpacked.mk neg E q) st = flushed (code_round format rounding neg x e).
Proof.
  intros Hx Hq Hst Hrep He Hb. unfold Context.pack.
  rewrite (round_and_pack_spec format (Context.rounding_context context st) x neg E q e) by assumption.
  reflexivity.
Qed.

Context (v1 v2 : Unpacked) (n1 n2 : bool) (u1 u2 : Z).
Context (H1 : unpacks_to format v1 n1 u1) (H2 : unpacks_to format v2 n2 u2).

#[local] Abbreviation E1 := (Unpacked.exponent v1).
#[local] Abbreviation E2 := (Unpacked.exponent v2).
#[local] Abbreviation q1 := (Unpacked.significand v1).
#[local] Abbreviation q2 := (Unpacked.significand v2).

Lemma multiply_represents (neg : bool) :
  let '(significand, is_sticky) := narrow (wmul 128 q1 q2) (significand_scale format) in
  Context.pack context (Unpacked.mk neg (E1 + E2) significand) is_sticky =
  flushed (code_round format rounding neg (ratio (u1 * u2) 1 (2 * e0)) (2 * e0 + Z.log2 (u1 * u2))).
Proof.
  pose proof (format_bounds format) as Hf.
  pose proof (unpacks_log2 format v1 n1 u1 H1) as [Hp1 Hl1].
  pose proof (unpacks_log2 format v2 n2 u2 H2) as [Hp2 Hl2].
  pose proof (unpacks_bounds format v1 n1 u1 H1) as (HE1 & Hb1 & He0).
  pose proof (unpacks_bounds format v2 n2 u2 H2) as (HE2 & Hb2 & _).
  destruct H1 as (_ & Hq1 & _ & Hx1 & _ & Hu1), H2 as (_ & Hq2 & _ & Hx2 & _ & Hu2).
  unfold narrow, significand_scale, GUARD_BITS, wmul.
  rewrite wrap_small by (change (2 ^ 56) with 72057594037927936 in *; split; nia).
  assert (wsub 128 (wshl 128 1 s) 1 = 2 ^ s - 1) as -> by (destruct format; reflexivity).
  rewrite land_low, wshr_div by lia.
  pose proof (pow2_pos s ltac:(lia)) as Hps. set (p := q1 * q2) in *.
  pose proof (Z.div_mod p (2 ^ s) ltac:(lia)). pose proof (Z.mod_pos_bound p (2 ^ s) ltac:(lia)).
  replace (mantissa_bits format + 4) with (s + 1) in * by lia.
  rewrite !(Z.pow_add_r 2 s 1) in * by lia. change (2 ^ 1) with 2 in *.
  assert (2 ^ s <= p / 2 ^ s < 4 * 2 ^ s) as Hq.
  { split; [apply Z.div_le_lower_bound | apply Z.div_lt_upper_bound]; unfold p; nia. }
  assert (2 ^ s <= 2 ^ 60) by (apply Z.pow_le_mono_r; lia).
  unfold as_u64. rewrite wrap_small by (split; lia).
  assert (Z.log2 (u1 * u2) <= Z.log2 u1 + Z.log2 u2 + 1) by (apply Z.log2_mul_above; lia).
  pose proof (Z.log2_nonneg (u1 * u2)).
  assert (0 < u1 * u2) by nia.
  apply pack_magnitude; [apply ratio_ok; lia | lia | | | apply ratio_exponent; assumption | lia].
  - intros _. apply (Z.le_trans _ (2 ^ s)); [apply Z.pow_le_mono_r; lia | lia].
  - set (A1 := 2 ^ (E1 - e0)) in *. set (A2 := 2 ^ (E2 - e0)) in *.
    assert (0 < A1) by (apply pow2_pos; lia). assert (0 < A2) by (apply pow2_pos; lia).
    replace (p mod 2 ^ s =? 0) with (p mod 2 ^ s * (A1 * A2) =? 0)
      by (apply eq_true_iff_eq; rewrite !Z.eqb_eq; nia).
    assert (2 ^ (2 * s + (E1 + E2 - s) - 2 * e0) = 2 ^ s * (A1 * A2)) as HD.
    { unfold A1, A2. rewrite <- !Z.pow_add_r by lia. f_equal. lia. }
    apply represents_ratio with (2 * s); rewrite ?HD; try lia; [| nia].
    replace (2 * s) with (s + s) by lia. rewrite Z.pow_add_r by lia.
    transitivity (u1 * 2 ^ s * (u2 * 2 ^ s)); [ring |]. rewrite Hu1, Hu2.
    transitivity (p * (A1 * A2)); [unfold p; ring |]. nia.
Qed.

Lemma divide_represents (neg : bool) :
  let numerator := wshl 128 q1 (significand_scale format) in
  Context.pack context (Unpacked.mk neg (E1 - E2) (as_u64 (numerator / q2)))
    (negb (numerator mod q2 =? 0)) =
  flushed (code_round format rounding neg (ratio u1 u2 0) (ratio_lead u1 u2)).
Proof.
  pose proof (format_bounds format) as Hf.
  pose proof (unpacks_log2 format v1 n1 u1 H1) as [Hp1 Hl1].
  pose proof (unpacks_log2 format v2 n2 u2 H2) as [Hp2 Hl2].
  pose proof (unpacks_bounds format v1 n1 u1 H1) as (HE1 & Hb1 & He0).
  pose proof (unpacks_bounds format v2 n2 u2 H2) as (HE2 & Hb2 & _).
  destruct H1 as (_ & Hq1 & _ & Hx1 & _ & Hu1), H2 as (_ & Hq2 & _ & Hx2 & _ & Hu2).
  pose proof (pow2_pos s ltac:(lia)) as Hps. unfold significand_scale, GUARD_BITS.
  replace (mantissa_bits format + 4) with (s + 1) in * by lia.
  assert (2 ^ s = 2 * 2 ^ (s - 1)) as Hhalf by (rewrite <- Z.pow_succ_r by lia; f_equal; lia).
  pose proof (pow2_pos (s - 1) ltac:(lia)).
  rewrite !(Z.pow_add_r 2 s 1) in * by lia. change (2 ^ 1) with 2 in *.
  assert (2 ^ s <= 2 ^ 60) by (apply Z.pow_le_mono_r; lia).
  cbv zeta. rewrite wshl_small by (lia || (split; nia)).
  pose proof (Z.div_mod (q1 * 2 ^ s) q2 ltac:(lia)).
  pose proof (Z.mod_pos_bound (q1 * 2 ^ s) q2 ltac:(lia)).
  assert (2 ^ (s - 1) <= q1 * 2 ^ s / q2 < 2 * 2 ^ s) as Hq.
  { split; [apply Z.div_le_lower_bound | apply Z.div_lt_upper_bound]; nia. }
  unfold as_u64. rewrite wrap_small by (split; lia).
  apply pack_magnitude;
    [apply ratio_ok; lia | lia | lia | | apply ratio_lead_spec; assumption |
     unfold ratio_lead; destruct (_ =? 0); lia].
  set (A1 := 2 ^ (E1 - e0)) in *. set (A2 := 2 ^ (E2 - e0)) in *.
  assert (0 < A1) by (apply pow2_pos; lia). assert (0 < A2) by (apply pow2_pos; lia).
  replace ((q1 * 2 ^ s) mod q2 =? 0) with ((q1 * 2 ^ s) mod q2 * (A1 * A2) =? 0)
    by (apply eq_true_iff_eq; rewrite !Z.eqb_eq; nia).
  assert (2 ^ (2 * s + (E2 - e0) + (E1 - E2 - s) - 0) = 2 ^ s * A1) as HD.
  { unfold A1. rewrite <- Z.pow_add_r by lia. f_equal. lia. }
  assert (u2 * (2 ^ s * A1) = q2 * (A1 * A2)) as HD' by nia.
  apply represents_ratio with (2 * s + (E2 - e0)); rewrite ?HD, ?HD'; try lia; [| nia].
  rewrite Z.pow_add_r by lia. fold A2. replace (2 * s) with (s + s) by lia.
  rewrite Z.pow_add_r by lia. transitivity (u1 * 2 ^ s * (2 ^ s * A2)); [ring |]. rewrite Hu1.
  transitivity (q1 * 2 ^ s * (A1 * A2)); [ring |]. nia.
Qed.

End Product.

(** ** Roots *)

(** ** The integer square root *)

(** [r] is the part of the root above bit [j]: the loop holds what is left of
    the value, and the root shifted up by the place it is working on. *)
Lemma isqrt_loop_spec (j fuel : nat) (v r : Z) :
  (j <= fuel)%nat -> 0 <= r -> r + 2 ^ Z.of_nat j <= 2 ^ 64 ->
  r * r <= v < (r + 2 ^ Z.of_nat j) * (r + 2 ^ Z.of_nat j) ->
  isqrt_loop fuel (v - r * r) (r * 2 ^ Z.of_nat j)
    (match j with O => 0 | Datatypes.S i => 2 ^ (2 * Z.of_nat i) end) = Z.sqrt v.
Proof.
  revert fuel r. induction j as [| j IH]; intros fuel r Hfuel Hr Hbound Hv.
  - change (2 ^ Z.of_nat 0) with 1 in *. rewrite Z.mul_1_r. transitivity r.
    + destruct fuel; reflexivity.
    + symmetry. apply Z.sqrt_unique. unfold Z.succ. lia.
  - destruct fuel as [| fuel]; [lia |]. cbn [isqrt_loop]. set (P := 2 ^ Z.of_nat j). assert (0 < P) by (apply pow2_pos; lia).
    assert (2 ^ Z.of_nat (S j) = 2 * P) as HP
      by (unfold P; rewrite <- Z.pow_succ_r by lia; f_equal; lia).
    assert (2 ^ (2 * Z.of_nat j) = P * P) as HPP
      by (unfold P; rewrite <- Z.pow_add_r by lia; f_equal; lia).
    rewrite HP in *. rewrite HPP. destruct (Z.eqb_spec (P * P) 0); [nia |].
    assert (r * (2 * P) + P * P < 2 ^ 128).
    { assert ((r + 2 * P) * (2 * P) <= 2 ^ 64 * 2 ^ 64) by (apply Z.mul_le_mono_nonneg; lia).
      change (2 ^ 128) with (2 ^ 64 * 2 ^ 64). nia. }
    unfold wadd, wsub. rewrite (wrap_small 128 (r * (2 * P) + P * P)) by (split; nia).
    assert (wshr 128 (r * (2 * P)) 1 = r * P) as ->.
    { rewrite wshr_div by lia. change (2 ^ 1) with 2.
      replace (r * (2 * P)) with (r * P * 2) by ring. apply Z.div_mul. lia. }
    assert (wshr 128 (P * P) 2 = match j with O => 0 | S i => 2 ^ (2 * Z.of_nat i) end) as ->.
    { rewrite wshr_div by lia. change (2 ^ 2) with 4. rewrite <- HPP. destruct j as [| j]; [reflexivity |].
      replace (2 * Z.of_nat (S j)) with (2 * Z.of_nat j + 2) by lia.
      rewrite Z.pow_add_r by lia. change (2 ^ 2) with 4. apply Z.div_mul. lia. }
    destruct (Z.leb_spec (r * (2 * P) + P * P) (v - r * r)) as [Hge | Hlt].
    + rewrite (wrap_small 128 (v - r * r - _)), (wrap_small 128 (r * P + P * P)) by (split; nia).
      replace (v - r * r - (r * (2 * P) + P * P)) with (v - (r + P) * (r + P)) by ring.
      replace (r * P + P * P) with ((r + P) * P) by ring.
      apply IH; fold P; lia || nia.
    + apply IH; fold P; lia || nia.
Qed.

(** The highest even bit position at or below the leading one. *)
Lemma even_position (l : Z) : 0 <= l < 128 -> Z.land l (wnot 32 1) = 2 * (l / 2).
Proof.
  intros Hl. apply Z.eqb_eq.
  apply (forall_below_spec 128 (fun l => Z.land l (wnot 32 1) =? 2 * (l / 2))); [reflexivity | exact Hl].
Qed.

Lemma isqrt_u128_spec (v : Z) : 0 <= v < 2 ^ 128 -> isqrt_u128 v = Z.sqrt v.
Proof.
  intros Hv. unfold isqrt_u128. destruct (Z.eqb_spec v 0) as [-> | Hv0]; [reflexivity |].
  pose proof (Z.log2_spec v ltac:(lia)) as Hl. pose proof (Z.log2_nonneg v).
  assert (Z.log2 v < 128) by (apply Z.log2_lt_pow2; lia).
  unfold leading_zeros. destruct (Z.eqb_spec v 0); [contradiction |].
  replace (127 - (128 - 1 - Z.log2 v)) with (Z.log2 v) by lia.
  rewrite even_position by lia. set (i := Z.to_nat (Z.log2 v / 2)).
  assert (0 <= Z.log2 v / 2 < 64) by (Z.to_euclidean_division_equations; lia).
  assert (2 * Z.of_nat i <= Z.log2 v < 2 * Z.of_nat i + 2)
    by (unfold i; Z.to_euclidean_division_equations; lia).
  assert (wshl 128 1 (2 * (Z.log2 v / 2)) = 2 ^ (2 * Z.of_nat i)) as ->.
  { unfold i. rewrite Z2Nat.id, wshl_small, Z.mul_1_l; [reflexivity | lia | | lia].
    rewrite Z.mul_1_l. split; [lia | apply Z.pow_lt_mono_r; lia]. }
  pose proof (isqrt_loop_spec (S i) 64 v 0) as HL. cbv beta iota in HL.
  rewrite Z.mul_0_l, Z.sub_0_r in HL. apply HL; clear HL; [lia | lia | |].
  - apply Z.pow_le_mono_r; lia.
  - rewrite Z.add_0_l, <- Z.pow_add_r by lia. split; [lia |].
    apply (Z.lt_le_trans _ (2 ^ Z.succ (Z.log2 v))); [lia | apply Z.pow_le_mono_r; lia].
Qed.

(** ** The root as a magnitude *)

Lemma root_at (n e k t : Z) :
  0 <= t -> 0 <= t + k - e ->
  let N := n * 2 ^ (2 * t) in let D := 2 ^ (2 * (t + k - e)) in
  floor_at (root n e) k = Z.sqrt (N / D) /\
  (N mod D = 0 -> exact_at (root n e) k = (Z.sqrt (N / D) ^ 2 =? N / D)).
Proof.
  intros Ht Htk. cbv zeta. cbn [floor_at exact_at root]. unfold ratio_num, ratio_den.
  rewrite !Z.mul_1_l. set (u := Z.max 0 (2 * e - 2 * k)). set (w := Z.max 0 (2 * k - 2 * e)).
  assert (0 <= 2 * t - u) as Hz by lia. pose proof (pow2_pos _ Hz) as Hpz.
  assert (0 < 2 ^ w) by (apply pow2_pos; lia).
  assert (2 ^ (2 * t) = 2 ^ u * 2 ^ (2 * t - u)) as ->
    by (rewrite <- Z.pow_add_r by lia; f_equal; lia).
  assert (2 ^ (2 * (t + k - e)) = 2 ^ w * 2 ^ (2 * t - u)) as ->
    by (rewrite <- Z.pow_add_r by lia; f_equal; lia).
  rewrite Z.mul_assoc, Z.div_mul_cancel_r, Z.mul_mod_distr_r by lia. split; [reflexivity |].
  intros Hm. assert ((n * 2 ^ u) mod 2 ^ w = 0) as Hm0 by nia.
  pose proof (Z.div_mod (n * 2 ^ u) (2 ^ w) ltac:(lia)) as Hd. rewrite Hm0, Z.add_0_r in Hd.
  rewrite Hd at 2. apply eq_true_iff_eq. rewrite !Z.eqb_eq. nia.
Qed.

Section Root.

Context (context : Context).

#[local] Abbreviation format := (Context.format context).
#[local] Abbreviation rounding := (Context.rounding context).
#[local] Abbreviation e0 := (unit_exponent format).
#[local] Abbreviation s := (mantissa_bits format + 3).

#[local] Abbreviation flushed result :=
  (apply_flush_to_zero result format (Context.control context)).

Context (Hr : rounding <> FpRounding.Odd).

Lemma integer_square_root_spec (v : Unpacked) (n : bool) (u : Z) :
  unpacks_to format v n u ->
  let scaled := Unpacked.significand v * 2 ^ (Unpacked.exponent v mod 2) * 2 ^ s in
  integer_square_root v format = (Z.sqrt scaled, negb (Z.sqrt scaled ^ 2 =? scaled)) /\
  2 ^ s <= Z.sqrt scaled < 2 ^ (s + 1).
Proof.
  intros Hv. pose proof (format_bounds format) as Hf.
  pose proof (unpacks_bounds format v n u Hv) as (HE & Hb & _).
  destruct Hv as (_ & Hq & _). set (q := Unpacked.significand v) in *.
  set (p := Unpacked.exponent v mod 2). pose proof (Z.mod_pos_bound (Unpacked.exponent v) 2 ltac:(lia)) as Hp.
  fold p in Hp. cbv zeta. set (scaled := q * 2 ^ p * 2 ^ s).
  pose proof (pow2_pos s ltac:(lia)). assert (2 ^ s <= 2 ^ 55) by (apply Z.pow_le_mono_r; lia).
  assert (1 <= 2 ^ p <= 2) by (assert (p = 0 \/ p = 1) as [-> | ->] by lia; lia).
  replace (mantissa_bits format + 4) with (s + 1) in Hq by lia.
  rewrite (Z.pow_add_r 2 s 1) in Hq |- * by lia. change (2 ^ 1) with 2 in *.
  assert (2 ^ s * 2 ^ s <= scaled < 4 * (2 ^ s * 2 ^ s)) as Hscaled
    by (unfold scaled; assert (2 ^ s <= q * 2 ^ p < 4 * 2 ^ s) by nia; split; nia).
  assert (4 * (2 ^ s * 2 ^ s) <= 2 ^ 112) by nia.
  assert (2 ^ s <= Z.sqrt scaled < 2 * 2 ^ s) as Hroot.
  { split; [apply Z.sqrt_le_square | apply Z.sqrt_lt_square]; nia. }
  split; [| lia]. unfold integer_square_root. fold q.
  assert ((if Unpacked.exponent v mod 2 =? 0 then q else wshl 128 q 1) = q * 2 ^ p) as ->.
  { unfold p. assert (p = 0 \/ p = 1) as [Hp0 | Hp1] by lia; unfold p in *.
    - rewrite Hp0. cbn [Z.eqb]. lia.
    - rewrite Hp1. cbn [Z.eqb]. rewrite wshl_small; [reflexivity | lia | split; lia]. }
  unfold significand_scale, GUARD_BITS. rewrite wshl_small by (lia || (fold scaled; split; lia)).
  fold scaled. rewrite isqrt_u128_spec by lia. unfold as_u64, wmul.
  rewrite !wrap_small, <- Z.pow_2_r by (split; nia). reflexivity.
Qed.

Lemma root_represents (v : Unpacked) (n : bool) (u : Z) :
  unpacks_to format v n u ->
  let '(significand, is_sticky) := integer_square_root v format in
  Context.pack context (Unpacked.mk false (Unpacked.exponent v / 2) significand) is_sticky =
  flushed (code_round format rounding false (root (u * 2 ^ (e0 mod 2)) (e0 / 2)) (Unpacked.exponent v / 2)).
Proof.
  intros Hv. pose proof (format_bounds format) as Hf.
  pose proof (unpacks_bounds format v n u Hv) as (HE & Hb & He0).
  destruct (unpacks_log2 format v n u Hv) as [Hu Hl].
  destruct (integer_square_root_spec v n u Hv) as [-> Hq].
  destruct Hv as (_ & _ & _ & Hx & _ & Hsc).
  set (q := Unpacked.significand v) in *. set (E := Unpacked.exponent v) in *.
  set (scaled := q * 2 ^ (E mod 2) * 2 ^ s) in *.
  assert (0 < 2 ^ (e0 mod 2)) by (apply pow2_pos; apply Z.mod_pos_bound; lia).
  assert (magnitude_ok (root (u * 2 ^ (e0 mod 2)) (e0 / 2))) as Hx0 by (apply root_ok; nia).
  assert (0 <= s + (E / 2 - s) - e0 / 2) as Ht by (Z.to_euclidean_division_equations; lia).
  destruct (root_at (u * 2 ^ (e0 mod 2)) (e0 / 2) (E / 2 - s) s ltac:(lia) Ht) as [Hfl Hex].
  set (D := 2 ^ (2 * (s + (E / 2 - s) - e0 / 2))) in *. assert (0 < D) by (apply pow2_pos; lia).
  assert (u * 2 ^ (e0 mod 2) * 2 ^ (2 * s) = scaled * D) as HN.
  { replace (2 * s) with (s + s) by lia. rewrite Z.pow_add_r by lia.
    transitivity (u * 2 ^ s * 2 ^ (e0 mod 2) * 2 ^ s); [ring |]. rewrite Hsc. unfold scaled, D.
    pose proof (Z.mod_pos_bound e0 2 ltac:(lia)). pose proof (Z.mod_pos_bound E 2 ltac:(lia)).
    transitivity (q * 2 ^ s * (2 ^ (E - e0) * 2 ^ (e0 mod 2))); [ring |].
    transitivity (q * 2 ^ s * (2 ^ (E mod 2) * 2 ^ (2 * (s + (E / 2 - s) - e0 / 2)))); [| ring].
    rewrite <- !Z.pow_add_r by lia. do 2 f_equal. Z.to_euclidean_division_equations; lia. }
  rewrite HN, Z.div_mul in Hfl by lia. rewrite HN, Z.div_mul in Hex by lia.
  specialize (Hex ltac:(apply Z.mod_mul; lia)).
  assert (2 ^ (s + 1) <= 2 ^ 60) by (apply Z.pow_le_mono_r; lia).
  pose proof (pow2_pos s ltac:(lia)).
  apply pack_magnitude; try assumption.
  - lia.
  - intros _. apply (Z.le_trans _ (2 ^ s)); [apply Z.pow_le_mono_r; lia | lia].
  - split; [exact Hfl | rewrite Hex, negb_involutive; reflexivity].
  - replace (E / 2) with (E / 2 - s + s) by lia. rewrite (floor_up _ Hx0), Hfl by lia.
    rewrite (Z.pow_add_r 2 s 1) in Hq by lia. symmetry.
    apply Z.div_unique with (Z.sqrt scaled - 2 ^ s); lia.
  - Z.to_euclidean_division_equations; lia.
Qed.

End Root.
