(* ===== verification/FpInteger.v ===== *)
(** Conversions between integers and floating-point values, rounding to an
    integral value, and moving between the formats. *)

From stdpp Require Import base numbers list option.
From S2P Require Import Prelude FpOperand FpDecompose FpCompare FpArithmetic FpBackend FpConvert.
From S2P Require Import FpMagnitude FpRound FpValues FpAddition.

#[local] Open Scope Z_scope.

Import FpFormat decompose convert.

(** ** The integers of a format *)

Definition int_min (target : IntFormat) : Z :=
  if IntFormat.is_signed target then - 2 ^ (IntFormat.bits target - 1) else 0.

Definition int_max (target : IntFormat) : Z :=
  if IntFormat.is_signed target then 2 ^ (IntFormat.bits target - 1) - 1
  else 2 ^ IntFormat.bits target - 1.

(** The integer that the low bits of a register hold. *)
Definition int_value (source : IntFormat) (value : Z) : Z :=
  if IntFormat.is_signed source then to_signed (IntFormat.bits source) value
  else value mod 2 ^ IntFormat.bits source.

Definition int_format_ok (target : IntFormat) : Prop := 1 <= IntFormat.bits target <= 64.

Lemma mask_to_width_spec (value : Z) (target : IntFormat) :
  int_format_ok target -> in_range 64 value ->
  mask_to_width value target = value mod 2 ^ IntFormat.bits target.
Proof.
  unfold int_format_ok, mask_to_width. intros Hw Hv.
  destruct (Z.leb_spec 64 (IntFormat.bits target)).
  - replace (IntFormat.bits target) with 64 by lia. symmetry. apply Z.mod_small. exact Hv.
  - rewrite low_mask, land_low by lia. reflexivity.
Qed.

Lemma half_range (w : Z) : 1 <= w -> 2 ^ w = 2 * 2 ^ (w - 1).
Proof. intros Hw. rewrite <- Z.pow_succ_r by lia. f_equal. lia. Qed.

Lemma magnitude_of_spec (value : Z) (source : IntFormat) :
  int_format_ok source -> in_range 64 value ->
  magnitude_of value source = (Z.abs (int_value source value), int_value source value <? 0) /\
  Z.abs (int_value source value) < 2 ^ 64.
Proof.
  intros Hw Hv. unfold magnitude_of, int_value. rewrite mask_to_width_spec by assumption.
  unfold int_format_ok in Hw. set (w := IntFormat.bits source) in *.
  pose proof (half_range w ltac:(lia)) as Hh. pose proof (pow2_pos (w - 1) ltac:(lia)).
  pose proof (Z.mod_pos_bound value (2 ^ w) ltac:(lia)) as Hm.
  assert (2 ^ w <= 2 ^ 64) by (apply Z.pow_le_mono_r; lia).
  destruct (IntFormat.is_signed source); cbn [negb].
  - unfold to_signed, wrap. set (v := value mod 2 ^ w) in *.
    assert (wshl 64 1 (w - 1) = 2 ^ (w - 1)) as ->.
    { rewrite wshl_small, Z.mul_1_l; [reflexivity | lia | rewrite Z.mul_1_l; split; lia]. }
    assert ((Z.land v (2 ^ (w - 1)) =? 0) = (v <? 2 ^ (w - 1))) as ->.
    { rewrite land_bit by lia. rewrite Z.testbit_odd, Z.shiftr_div_pow2 by lia.
      destruct (Z.ltb_spec v (2 ^ (w - 1))); [rewrite Z.div_small by lia; reflexivity |].
      assert (v / 2 ^ (w - 1) = 1) as ->; [| reflexivity].
      symmetry. apply Z.div_unique with (v - 2 ^ (w - 1)); lia. }
    destruct (Z.ltb_spec v (2 ^ (w - 1))).
    + destruct (Z.ltb_spec v 0); [lia |]. rewrite Z.abs_eq by lia. split; [reflexivity | lia].
    + destruct (Z.ltb_spec (v - 2 ^ w) 0); [| lia]. rewrite Z.abs_neq by lia.
      rewrite mask_to_width_spec by (exact Hw || apply wrap_range; lia).
      split; [| lia]. f_equal. unfold wsub. fold w.
      change (wrap 64 (0 - v) mod 2 ^ w) with (wrap w (wrap 64 (0 - v))).
      rewrite (wrap_wrap_le w 64) by lia. unfold wrap.
      symmetry. apply Z.mod_unique with (-1); lia.
  - destruct (Z.ltb_spec (value mod 2 ^ w) 0); [lia |]. rewrite Z.abs_eq by lia. split; [reflexivity | lia].
Qed.

(** ** From integers *)

Lemma from_integer_spec (value : Z) (source : IntFormat) (target : FpFormat)
    (rounding : FpRounding) (control : FpControl) :
  int_format_ok source -> in_range 64 value -> rounding <> FpRounding.Odd ->
  let n := int_value source value in
  from_integer value source target rounding control =
  if n =? 0 then FpResult.exact (zero target false)
  else apply_flush_to_zero
         (ieee_round target rounding (n <? 0) (ratio (Z.abs n) 1 0) (Z.log2 (Z.abs n))) target control.
Proof.
  intros Hw Hv Hodd. cbv zeta. unfold from_integer.
  destruct (magnitude_of_spec value source Hw Hv) as [-> Hn]. set (n := int_value source value) in *.
  destruct (Z.eqb_spec (Z.abs n) 0), (Z.eqb_spec n 0); try lia; [reflexivity |].
  set (u := Z.abs n) in *. assert (0 < u) as Hu by lia. set (neg := n <? 0). clearbody u neg.
  pose proof (Z.log2_spec u Hu) as Hl. pose proof (Z.log2_nonneg u).
  assert (Z.log2 u < 64) by (apply Z.log2_lt_pow2; lia).
  unfold leading_zeros. destruct (Z.eqb_spec u 0); [lia |].
  replace (63 - (64 - 1 - Z.log2 u)) with (Z.log2 u) by lia.
  pose proof (format_bounds target) as Hf. unfold GUARD_BITS. set (s := mantissa_bits target + 3).
  pose proof (pow2_pos s ltac:(lia)).
  set (x := ratio u 1 0).
  assert (forall q st, 2 ^ s <= q < 2 ^ (s + 1) -> represents_at x q st (Z.log2 u - s) ->
    round_and_pack (Unpacked.mk neg (Z.log2 u) q) target (RoundingContext.mk rounding st control) =
    apply_flush_to_zero (ieee_round target rounding neg x (Z.log2 u)) target control) as Hpack.
  { intros q st Hq Hrep. assert (2 ^ (s + 1) <= 2 ^ 60) by (apply Z.pow_le_mono_r; lia).
    pose proof (pack_magnitude (Context.mk target rounding control) Hodd x neg (Z.log2 u) q
      (Z.log2 u) st) as Hp. cbn [Context.format Context.rounding] in Hp. fold s in Hp.
    unfold Context.pack, Context.rounding_context in Hp. cbn [Context.format Context.rounding Context.control] in Hp.
    rewrite Hp; [| apply ratio_ok; lia | lia | | exact Hrep | | lia].
    - unfold code_round, halves. destruct (Z.ltb_spec (Z.log2 u) (min_exponent target)); [| reflexivity].
      unfold min_exponent in *. lia.
    - intros _. apply (Z.le_trans _ (2 ^ s)); [apply Z.pow_le_mono_r; lia | lia].
    - apply (ratio_exponent u 0 Hu). }
  destruct (Z.leb_spec (Z.log2 u) s).
  - assert (2 ^ s <= u * 2 ^ (s - Z.log2 u) < 2 ^ (s + 1)) as Hq.
    { pose proof (pow2_pos (s - Z.log2 u) ltac:(lia)).
      assert (2 ^ s = 2 ^ Z.log2 u * 2 ^ (s - Z.log2 u)) as ->
        by (rewrite <- Z.pow_add_r by lia; f_equal; lia).
      replace (s + 1) with (Z.succ (Z.log2 u) + (s - Z.log2 u)) by lia.
      rewrite (Z.pow_add_r 2 (Z.succ (Z.log2 u))) by lia. nia. }
    assert (2 ^ (s + 1) <= 2 ^ 60) by (apply Z.pow_le_mono_r; lia).
    rewrite wshl_small by (lia || (split; lia)). apply Hpack; [exact Hq |].
    change false with (negb (0 =? 0)). apply represents_ratio with (s - Z.log2 u); try lia;
      replace (s - Z.log2 u + (Z.log2 u - s) - 0) with 0 by lia; change (2 ^ 0) with 1; lia.
  - rewrite low_mask, land_low, wshr_div by lia.
    set (d := Z.log2 u - s) in *. pose proof (pow2_pos d ltac:(lia)).
    apply Hpack.
    + replace s with (Z.log2 u - d) by lia. apply div_pow_bounds; [lia |]. rewrite Z.add_1_r. exact Hl.
    + apply represents_ratio with 0; try lia; replace (0 + d - 0) with d by lia;
        rewrite !Z.mul_1_l; [| apply Z.mod_pos_bound; lia].
      pose proof (Z.div_mod u (2 ^ d) ltac:(lia)). lia.
Qed.

(** ** Rounding to an integer *)

Lemma represents_shift (x : magnitude) (q k j : Z) :
  magnitude_ok x -> 0 <= j -> represents_at x q false k ->
  represents_at x (q / 2 ^ j) (negb (q mod 2 ^ j =? 0)) (k + j).
Proof.
  intros Hx Hj Hrep. destruct (Z.eq_dec j 0) as [-> | Hj0].
  - rewrite Z.div_1_r, Z.mod_1_r, Z.add_0_r. exact Hrep.
  - apply (tracks_shr x Hx q false k j); [lia |]. apply represents_tracks; assumption.
Qed.

Lemma land_one_odd (q : Z) : (Z.land q 1 =? 1) = Z.odd q.
Proof.
  change 1 with (2 ^ 1 - 1) at 1. rewrite land_low by lia. change (2 ^ 1) with 2.
  rewrite Zmod_odd. destruct (Z.odd q); reflexivity.
Qed.

(** The bits below the units place decide as the reference does, in every
    mode. *)
Lemma rounds_away_spec (x : magnitude) (v : Unpacked) (rounding : FpRounding) (k sh : Z) :
  let q := Unpacked.significand v in
  magnitude_ok x -> 1 <= sh <= 63 -> represents_at x q false k ->
  q mod 2 ^ sh <> 0 ->
  rounds_away (q / 2 ^ sh) (q mod 2 ^ sh) sh rounding v =
  rounds_up rounding (Unpacked.is_negative v) x (k + sh).
Proof.
  intros q Hx Hsh Hrep Hne.
  destruct (represents_shift x q k sh Hx ltac:(lia) Hrep) as [Hf He].
  destruct (represents_shift x q k (sh - 1) Hx ltac:(lia) Hrep) as [Hf' He'].
  unfold rounds_away, rounds_up. replace (k + sh - 1) with (k + (sh - 1)) by lia.
  rewrite Hf, He, Hf', He', !negb_involutive.
  pose proof (pow2_pos (sh - 1) ltac:(lia)).
  assert (wshl 64 1 (sh - 1) = 2 ^ (sh - 1)) as ->.
  { rewrite wshl_small, Z.mul_1_l; [reflexivity | lia |]. rewrite Z.mul_1_l.
    split; [lia | apply Z.pow_lt_mono_r; lia]. }
  rewrite land_one_odd, land_one, Z.negb_odd.
  pose proof (half_range sh ltac:(lia)) as Hhalf. set (half := 2 ^ (sh - 1)) in *.
  assert (q mod 2 ^ sh = q mod half + half * ((q / half) mod 2)) as Hrem.
  { rewrite Hhalf, (Z.mul_comm 2). apply Z.rem_mul_r; lia. }
  pose proof (Z.mod_pos_bound q half ltac:(lia)) as Hlow.
  rewrite <- (Z.negb_even (q / half)), (even_mod (q / half)).
  pose proof (Z.mod_pos_bound (q / half) 2 ltac:(lia)) as Hbit.
  destruct (Z.eqb_spec (q mod 2 ^ sh) 0); [contradiction |].
  assert ((q / half) mod 2 = 0 \/ (q / half) mod 2 = 1) as Hcase by lia.
  rewrite Hrem. set (low := q mod half) in *. set (b := (q / half) mod 2) in *. clearbody low b.
  destruct rounding; cbn [negb andb]; try reflexivity; destruct Hcase as [-> | ->]; cbn [Z.eqb negb andb];
    repeat match goal with
           | |- context [?a <? ?c] => destruct (Z.ltb_spec a c)
           | |- context [?a =? ?c] => destruct (Z.eqb_spec a c)
           | |- context [?a <=? ?c] => destruct (Z.leb_spec a c)
           end; cbn [negb andb orb]; try lia; reflexivity.
Qed.

Section ToInteger.

Context (format : FpFormat) (v : Unpacked) (neg : bool) (u : Z).
Context (Hv : unpacks_to format v neg u).

#[local] Abbreviation e0 := (unit_exponent format).
#[local] Abbreviation s := (mantissa_bits format + 3).
#[local] Abbreviation x := (ratio u 1 e0).
#[local] Abbreviation E := (Unpacked.exponent v).
#[local] Abbreviation q := (Unpacked.significand v).

Lemma unpacked_represents : represents_at x q false (E - s).
Proof.
  pose proof (format_bounds format). destruct Hv as (_ & _ & _ & HE & _ & Hu).
  pose proof (pow2_pos (E - e0) HE). change false with (negb (0 =? 0)).
  apply represents_ratio with s; try lia; replace (s + (E - s) - e0) with (E - e0) by lia; lia.
Qed.

(** A value below a half of a half: only a directed mode leaves zero. *)
Lemma rounded_below (rounding : FpRounding) (k : Z) :
  rounding <> FpRounding.Odd -> E + 2 <= k ->
  rounded rounding neg x k = b2z (points_away rounding neg) /\ exact_at x k = false.
Proof.
  intros Hodd HE. destruct (unpacks_log2 format v neg u Hv) as [Hu Hl].
  pose proof (ratio_ok u 1 e0 ltac:(lia) ltac:(lia)) as Hx.
  pose proof (ratio_exponent u e0 Hu) as Hlead. replace (e0 + Z.log2 u) with E in Hlead by lia.
  assert (exact_at x k = false) as Hex.
  { apply (exact_below x Hx E); [lia | lia | apply floor_above with E; lia || assumption]. }
  split; [| exact Hex]. unfold rounded, rounds_up.
  rewrite Hex, !(floor_above x E) by (lia || assumption).
  destruct rounding, neg; reflexivity || congruence.
Qed.

(** The shift of the units place and what is below it. *)
Lemma units_place (rounding : FpRounding) (sh : Z) :
  1 <= sh <= 63 -> sh = s - E ->
  let remainder := Z.land q (wsub 64 (wshl 64 1 sh) 1) in
  let truncated := wshr 64 q sh in
  let is_away := negb (remainder =? 0) && rounds_away truncated remainder sh rounding v in
  (remainder =? 0) = exact_at x 0 /\
  wadd 64 truncated (b2z is_away) = rounded rounding neg x 0 /\
  (remainder = 0 -> truncated = rounded rounding neg x 0).
Proof.
  intros Hsh Heq. pose proof (format_bounds format). cbv zeta.
  destruct (unpacks_log2 format v neg u Hv) as [Hu _].
  pose proof (unpacks_bounds format v neg u Hv) as (_ & Hq & _).
  pose proof (ratio_ok u 1 e0 ltac:(lia) ltac:(lia)) as Hx.
  rewrite low_mask, land_low, wshr_div by lia.
  destruct (represents_shift x q (E - s) sh Hx ltac:(lia) unpacked_represents) as [Hf He].
  replace (E - s + sh) with 0 in * by lia.
  pose proof (pow2_pos sh ltac:(lia)) as Hp.
  assert (0 <= q / 2 ^ sh <= 2 ^ 56) as Ht.
  { split; [apply Z.div_pos; lia | apply Z.div_le_upper_bound; nia]. }
  assert (Hneg : Unpacked.is_negative v = neg) by apply Hv.
  assert (forall b, wadd 64 (q / 2 ^ sh) (b2z b) = q / 2 ^ sh + b2z b) as Hadd.
  { intros b. unfold wadd. apply wrap_small. change (2 ^ 56) with 72057594037927936 in Ht.
    split; destruct b; cbn [b2z]; lia. }
  rewrite Hadd, He, negb_involutive. split; [reflexivity |]. unfold rounded. rewrite Hf.
  destruct (Z.eqb_spec (q mod 2 ^ sh) 0) as [Hz | Hz]; cbn [negb andb].
  - rewrite rounds_up_exact by (assumption || (rewrite He, negb_involutive; apply Z.eqb_eq; exact Hz)).
    cbn [b2z]. rewrite Z.add_0_r. split; [reflexivity | intros _; reflexivity].
  - split; [| contradiction]. do 2 f_equal.
    rewrite (rounds_away_spec x v rounding (E - s) sh Hx Hsh unpacked_represents Hz), Hneg.
    f_equal. lia.
Qed.

Lemma integral_magnitude_spec (rounding : FpRounding) :
  rounding <> FpRounding.Odd -> E < 128 ->
  integral_magnitude v s rounding = (rounded rounding neg x 0, negb (exact_at x 0)).
Proof.
  intros Hodd HE. pose proof (format_bounds format).
  pose proof (unpacks_bounds format v neg u Hv) as (HEb & Hq & _).
  destruct (unpacks_log2 format v neg u Hv) as [Hu _].
  pose proof (ratio_ok u 1 e0 ltac:(lia) ltac:(lia)) as Hx. unfold integral_magnitude.
  assert (Hneg : Unpacked.is_negative v = neg) by apply Hv.
  destruct (Z.leb_spec 0 (E - s)) as [Hup | Hdown].
  - destruct (Z.leb_spec 128 (E - s)); [lia |].
    pose proof (represents_shl x Hx q (E - s) (E - s) Hup unpacked_represents) as [Hf He].
    rewrite Z.sub_diag in Hf, He. unfold rounded. rewrite rounds_up_exact, Hf, He by assumption.
    cbn [b2z negb]. rewrite Z.add_0_r. f_equal. destruct Hv as (_ & Hlead & _).
    apply wshl_small; [lia |]. pose proof (pow2_pos (E - s) Hup). split; [nia |].
    apply (Z.lt_le_trans _ (2 ^ (mantissa_bits format + 4) * 2 ^ (E - s))); [nia |].
    rewrite <- Z.pow_add_r by lia. apply Z.pow_le_mono_r; lia.
  - unfold as_u32. rewrite wrap_small by (split; lia). replace (- (E - s)) with (s - E) by lia.
    destruct (Z.leb_spec 64 (s - E)).
    + destruct (rounded_below rounding 0 Hodd ltac:(lia)) as [-> ->]. rewrite Hneg. reflexivity.
    + destruct (units_place rounding (s - E) ltac:(lia) eq_refl) as (Hex & Hr & Hz). cbv zeta in *.
      rewrite <- Hex. set (remainder := Z.land q (wsub 64 (wshl 64 1 (s - E)) 1)) in *.
      destruct (Z.eqb_spec remainder 0) as [Hrem | Hrem]; cbn [negb andb] in *.
      * f_equal. apply Hz, Hrem.
      * f_equal. exact Hr.
Qed.

End ToInteger.

(** ** To integers *)

(** An integer in the target, saturated. *)
Definition integer_result (target : IntFormat) (n : Z) (is_inexact : bool) : FpResult :=
  let bound := 2 ^ IntFormat.bits target in
  if n <? int_min target then FpResult.mk (int_min target mod bound) FpExceptions.INVALID
  else if int_max target <? n then FpResult.mk (int_max target mod bound) FpExceptions.INVALID
  else FpResult.mk (n mod bound) (if is_inexact then FpExceptions.INEXACT else FpExceptions.NONE).

Lemma saturate_spec (target : IntFormat) (neg : bool) :
  int_format_ok target ->
  saturate neg target =
  (if neg then int_min target else int_max target) mod 2 ^ IntFormat.bits target.
Proof.
  intros Hw. unfold saturate, int_min, int_max. pose proof Hw as Hw'. unfold int_format_ok in Hw'.
  set (w := IntFormat.bits target) in *. pose proof (half_range w ltac:(lia)) as Hh.
  pose proof (pow2_pos (w - 1) ltac:(lia)).
  assert (2 ^ (w - 1) <= 2 ^ 63) by (apply Z.pow_le_mono_r; lia).
  assert (wshl 64 1 (w - 1) = 2 ^ (w - 1)) as Hs.
  { rewrite wshl_small, Z.mul_1_l; [reflexivity | lia | rewrite Z.mul_1_l; split; lia]. }
  destruct (IntFormat.is_signed target), neg; cbn [negb].
  - rewrite Hs, mask_to_width_spec by (exact Hw || (split; lia)). fold w.
    rewrite Z.mod_small by lia. apply Z.mod_unique with (-1); lia.
  - rewrite low_mask, mask_to_width_spec by (exact Hw || lia || (split; lia)). reflexivity.
  - rewrite mask_to_width_spec by (exact Hw || (split; lia)). reflexivity.
  - rewrite mask_to_width_spec by (exact Hw || (split; lia)). fold w.
    rewrite (Z.mod_small (2 ^ w - 1)) by lia.
    assert (2 ^ 64 = 2 ^ w * 2 ^ (64 - w)) as -> by (rewrite <- Z.pow_add_r by lia; f_equal; lia).
    symmetry. apply Z.mod_unique with (2 ^ (64 - w) - 1); lia.
Qed.

Lemma encode_integer_spec (target : IntFormat) (r : Z) (neg is_inexact : bool) :
  int_format_ok target -> 0 <= r ->
  encode_integer r neg is_inexact target =
  if negb (IntFormat.is_signed target) && neg then FpResult.mk 0 FpExceptions.INVALID
  else integer_result target (if neg then - r else r) is_inexact.
Proof.
  intros Hw Hr. unfold encode_integer. rewrite saturate_spec by exact Hw.
  pose proof Hw as Hw'. unfold int_format_ok in Hw'. unfold integer_result.
  destruct (negb (IntFormat.is_signed target) && neg) eqn:Eu; [reflexivity |].
  set (w := IntFormat.bits target) in *. pose proof (half_range w ltac:(lia)) as Hh.
  pose proof (pow2_pos (w - 1) ltac:(lia)).
  assert (2 ^ w <= 2 ^ 64) as Hw64 by (apply Z.pow_le_mono_r; lia).
  assert (magnitude_limit neg target = if neg then - int_min target else int_max target) as ->.
  { unfold magnitude_limit, int_min, int_max. fold w.
    assert (forall a, 0 <= a <= 64 -> wshl 128 1 a = 2 ^ a) as Hs.
    { intros a Ha. rewrite wshl_small, Z.mul_1_l; [reflexivity | lia |]. rewrite Z.mul_1_l.
      pose proof (pow2_pos a). split; [lia | apply Z.pow_lt_mono_r; lia]. }
    assert (2 ^ 64 < 2 ^ 128) by reflexivity.
    rewrite !Hs by lia. unfold wsub. rewrite !wrap_small by (split; lia).
    destruct (IntFormat.is_signed target), neg; cbn [negb andb] in *; (discriminate Eu || lia). }
  assert (int_min target <= 0 <= int_max target /\ int_max target < 2 ^ 64 /\ - int_min target < 2 ^ 64)
    as (Hmin & Hmax & Hmin').
  { unfold int_min, int_max. fold w. destruct (IntFormat.is_signed target); lia. }
  assert (forall n, 0 <= r < 2 ^ 64 -> n = (if neg then - r else r) ->
    mask_to_width (if neg then wsub 64 0 (as_u64 r) else as_u64 r) target = n mod 2 ^ w) as Hmask.
  { intros n Hr64 ->. unfold as_u64. rewrite (wrap_small 64 r) by exact Hr64.
    rewrite mask_to_width_spec by (exact Hw || (destruct neg; [apply wrap_range; lia | exact Hr64])).
    destruct neg; [| reflexivity]. unfold wsub. fold w.
    change (wrap 64 (0 - r) mod 2 ^ w) with (wrap w (wrap 64 (0 - r))).
    rewrite wrap_wrap_le by lia. unfold wrap. reflexivity. }
  destruct neg.
  - destruct (Z.ltb_spec (- int_min target) r), (Z.ltb_spec (- r) (int_min target)); try lia; [reflexivity |].
    destruct (Z.ltb_spec (int_max target) (- r)); [lia |]. unfold FpResult.raising. f_equal.
    apply Hmask; lia.
  - destruct (Z.ltb_spec r (int_min target)); [lia |].
    destruct (Z.ltb_spec (int_max target) r); [reflexivity |]. unfold FpResult.raising. f_equal.
    apply Hmask; lia.
Qed.

Lemma to_integer_spec (bits : Z) (format : FpFormat) (target : IntFormat) (rounding : FpRounding) :
  let neg := is_negative format bits in
  let u := unsigned_units format bits in
  let x := ratio u 1 (unit_exponent format) in
  int_format_ok target -> in_format format bits -> finite format bits = true ->
  rounding <> FpRounding.Odd -> u < 2 ^ (128 - unit_exponent format) ->
  to_integer bits format target rounding =
  if u =? 0 then FpResult.exact 0
  else if negb (IntFormat.is_signed target) && neg then FpResult.mk 0 FpExceptions.INVALID
  else integer_result target
    (if neg then - rounded rounding neg x 0 else rounded rounding neg x 0)
    (negb (exact_at x 0)).
Proof.
  intros neg u x Hw Hb Hfin Hodd Hlt. unfold to_integer.
  rewrite finite_not_nan, finite_not_infinite, is_zero_spec by assumption. fold neg.
  pose proof (abs_units format bits) as Habs. fold u in Habs.
  destruct (Z.eqb_spec (units format bits) 0) as [Hz | Hz], (Z.eqb_spec u 0); try lia; [reflexivity |].
  pose proof (unpack_spec format bits Hb Hfin Hz) as Hv. fold neg u in Hv.
  destruct (unpacks_log2 format _ neg u Hv) as [Hu Hl].
  pose proof (unpacks_bounds format _ neg u Hv) as (_ & _ & He0).
  apply Z.log2_lt_pow2 in Hlt; [| exact Hu].
  change (mantissa_bits format + GUARD_BITS) with (mantissa_bits format + 3).
  rewrite (integral_magnitude_spec format _ neg u Hv rounding Hodd) by lia. fold x.
  apply encode_integer_spec; [exact Hw |].
  pose proof (rounded_bounds rounding neg x 0).
  pose proof (floor_nonneg x (ratio_ok u 1 (unit_exponent format) ltac:(lia) ltac:(lia)) 0). lia.
Qed.

(** ** Integral values and other formats *)

(** ** One magnitude, two ways of writing it *)

Lemma ratio_shift (n e j k : Z) :
  0 <= j ->
  floor_at (ratio (n * 2 ^ j) 1 (e - j)) k = floor_at (ratio n 1 e) k /\
  exact_at (ratio (n * 2 ^ j) 1 (e - j)) k = exact_at (ratio n 1 e) k.
Proof.
  intros Hj. set (t := Z.max 0 (e - j - k)).
  destruct (ratio_at (n * 2 ^ j) 1 (e - j) k t) as [-> ->]; [lia | lia | lia |].
  destruct (ratio_at n 1 e k (t + j)) as [-> ->]; [lia | lia | lia |].
  replace (t + j + k - e) with (t + k - (e - j)) by lia.
  rewrite (Z.add_comm t j), Z.pow_add_r, Z.mul_assoc by lia. split; reflexivity.
Qed.

Lemma ieee_round_ext (format : FpFormat) (rounding : FpRounding) (neg : bool) (x y : magnitude)
    (e : Z) :
  (forall k, floor_at x k = floor_at y k /\ exact_at x k = exact_at y k) ->
  ieee_round format rounding neg x e = ieee_round format rounding neg y e.
Proof.
  intros H. unfold ieee_round, rounded, rounds_up.
  rewrite (proj1 (H (quantum format e))), (proj2 (H (quantum format e))),
    (proj1 (H (quantum format e - 1))), (proj2 (H (quantum format e - 1))). reflexivity.
Qed.

(** ** Integers are never subnormal *)

Lemma not_subnormal (format : FpFormat) (neg : bool) (n : Z) :
  2 ^ mantissa_bits format <= n < 2 ^ exponent_bits format * 2 ^ mantissa_bits format ->
  is_subnormal format (b2z neg * 2 ^ sign_shift format + n) = false.
Proof.
  intros Hn. pose proof (format_bounds format) as Hf.
  pose proof (pow2_pos (mantissa_bits format) ltac:(lia)) as Hm.
  set (m := 2 ^ mantissa_bits format) in *.
  pose proof (Z.div_mod n m ltac:(lia)) as Hd. pose proof (Z.mod_pos_bound n m Hm) as Hmod.
  assert (1 <= n / m) as Hq1 by (apply Z.div_le_lower_bound; lia).
  assert (n / m < 2 ^ exponent_bits format) as Hq2 by (apply Z.div_lt_upper_bound; lia).
  destruct (decode_encoding format neg (n / m) (n mod m) ltac:(lia) Hmod) as (_ & _ & Hraw & _).
  replace (n / m * 2 ^ mantissa_bits format + n mod m) with n in Hraw by (fold m; lia).
  unfold is_subnormal. rewrite land_raw, Hraw. destruct (Z.eqb_spec (n / m) 0); [lia | reflexivity].
Qed.

(** Nor is any result from the least normal exponent up, so that flushing does
    not touch it. *)
Lemma normal_not_flushed (format : FpFormat) (rounding : FpRounding) (control : FpControl)
    (neg : bool) (x : magnitude) (e : Z) :
  magnitude_ok x -> min_exponent format <= e -> floor_at x e = 1 ->
  apply_flush_to_zero (ieee_round format rounding neg x e) format control =
  ieee_round format rounding neg x e.
Proof.
  intros Hx He Hlead. unfold apply_flush_to_zero.
  enough (is_subnormal format (FpResult.bits (ieee_round format rounding neg x e)) = false) as ->
    by (rewrite orb_true_r; reflexivity).
  pose proof (format_bounds format) as Hf. pose proof (pow2_pos (mantissa_bits format) ltac:(lia)) as Hm.
  assert (2 ^ 5 <= 2 ^ exponent_bits format) by (apply Z.pow_le_mono_r; lia).
  unfold ieee_round. cbv zeta. assert (quantum format e = e - mantissa_bits format) as Hk by (unfold quantum; lia).
  rewrite Hk. set (k := e - mantissa_bits format) in *.
  assert (2 ^ mantissa_bits format <= rounded rounding neg x k) as Hr.
  { pose proof (rounded_bounds rounding neg x k).
    pose proof (floor_up x Hx k (mantissa_bits format) ltac:(lia)) as Hfl.
    replace (k + mantissa_bits format) with e in Hfl by lia. rewrite Hlead in Hfl.
    pose proof (Z.mul_div_le (floor_at x k) (2 ^ mantissa_bits format) Hm). lia. }
  replace (k + mantissa_bits format) with e by lia.
  destruct (Z.leb_spec ((2 ^ exponent_bits format - 1) * 2 ^ mantissa_bits format)
    ((e - min_exponent format) * 2 ^ mantissa_bits format + rounded rounding neg x k));
    cbn [FpResult.bits]; apply not_subnormal; [destruct (overflows_to_infinity _ _); nia | split; nia].
Qed.

(** ** Rounding to an integral value *)

Section RoundToIntegral.

Context (format : FpFormat) (rounding : FpRounding) (control : FpControl).
Context (Hodd : rounding <> FpRounding.Odd).

#[local] Abbreviation s := (mantissa_bits format + 3).
#[local] Abbreviation e0 := (unit_exponent format).

(** Packing the integer [r], at any scale that holds it. *)
Lemma pack_integer (neg : bool) (r sh : Z) :
  0 < r -> 0 <= sh <= 63 -> r * 2 ^ sh < 2 ^ 64 ->
  round_and_pack (Unpacked.mk neg (s - sh) (r * 2 ^ sh)) format
    (RoundingContext.mk rounding false control) =
  ieee_round format rounding neg (ratio r 1 0) (Z.log2 r).
Proof.
  intros Hr Hsh Hbound. pose proof (format_bounds format). pose proof (pow2_pos sh ltac:(lia)).
  pose proof (Z.log2_nonneg r).
  assert (Z.log2 r < 64) by (apply Z.log2_lt_pow2; nia).
  pose proof (pack_magnitude (Context.mk format rounding control) Hodd (ratio r 1 0) neg
    (s - sh) (r * 2 ^ sh) (Z.log2 r) false) as Hp.
  unfold Context.pack, Context.rounding_context in Hp.
  cbn [Context.format Context.rounding Context.control] in Hp.
  assert (min_exponent format <= Z.log2 r) by (unfold min_exponent in *; lia).
  rewrite Hp; [| apply ratio_ok; lia | nia | discriminate | | | lia].
  - unfold code_round, halves. destruct (Z.ltb_spec (Z.log2 r) (min_exponent format)); [lia |]. cbn [andb].
    apply normal_not_flushed; [apply ratio_ok; lia | assumption | apply (ratio_exponent r 0 Hr)].
  - change false with (negb (0 =? 0)). apply represents_ratio with sh; try lia;
      replace (sh + (s - sh - s) - 0) with 0 by lia; change (2 ^ 0) with 1; lia.
  - apply (ratio_exponent r 0 Hr).
Qed.

Lemma zero_bits (bits : Z) :
  in_format format bits -> units format bits = 0 -> bits = zero format (is_negative format bits).
Proof.
  intros Hb Hz. pose proof (encoding format bits Hb) as He. rewrite zero_eq.
  pose proof (raw_bounds format bits). pose proof (fraction_bounds format bits).
  pose proof (format_bounds format). pose proof (pow2_pos (mantissa_bits format) ltac:(lia)).
  pose proof (abs_units format bits) as Ha. unfold unsigned_units in Ha. rewrite Hz in Ha.
  destruct (Z.eqb_spec (raw_exponent format bits) 0) as [Hr | Hr]; [rewrite Hr in He; lia |].
  pose proof (pow2_pos (raw_exponent format bits - 1) ltac:(lia)). nia.
Qed.

(** From two to the width of a significand up, every value is integral. *)
Lemma integral_already (bits : Z) (v : Unpacked) :
  let neg := is_negative format bits in
  let u := unsigned_units format bits in
  let r := rounded rounding neg (ratio u 1 e0) 0 in
  in_format format bits -> finite format bits = true -> units format bits <> 0 ->
  unpacks_to format v neg u -> s <= Unpacked.exponent v ->
  FpResult.exact bits =
  if r =? 0 then FpResult.exact (zero format neg)
  else ieee_round format rounding neg (ratio r 1 0) (Z.log2 r).
Proof.
  intros neg u r Hb Hfin Hnz Hv HE. destruct (unpacks_log2 format v neg u Hv) as [Hu Hl].
  pose proof (unpacks_bounds format v neg u Hv) as (_ & Hq & He0).
  pose proof (ratio_ok u 1 e0 ltac:(lia) ltac:(lia)) as Hx.
  pose proof (represents_shl _ Hx _ _ (Unpacked.exponent v - s) ltac:(lia)
    (unpacked_represents format v neg u Hv)) as [Hf He].
  replace (Unpacked.exponent v - s - (Unpacked.exponent v - s)) with 0 in * by lia.
  assert (u = r * 2 ^ (- e0)) as Hur.
  { unfold r, rounded. rewrite rounds_up_exact by assumption. cbn [b2z]. rewrite Z.add_0_r.
    destruct (ratio_at u 1 e0 0 0) as [Hfl Hex]; [lia | lia | lia |]. rewrite Hfl. rewrite Hex in He.
    apply Z.eqb_eq in He. rewrite Z.mul_1_r, Z.mul_1_l in *. change (0 + 0 - e0) with (- e0) in *.
    pose proof (pow2_pos (- e0) ltac:(lia)). pose proof (Z.div_mod u (2 ^ (- e0)) ltac:(lia)). lia. }
  pose proof (pow2_pos (- e0) ltac:(lia)). assert (0 < r) as Hr by nia.
  destruct (Z.eqb_spec r 0); [lia |].
  rewrite <- (ieee_round_exact format rounding bits Hb Hfin Hnz). fold neg u.
  assert (e0 + Z.log2 u = Z.log2 r) as -> by (rewrite Hur, Z.log2_mul_pow2 by lia; lia).
  apply ieee_round_ext. intros k. rewrite Hur. pose proof (ratio_shift r 0 (- e0) k ltac:(lia)) as Hs.
  replace (0 - - e0) with e0 in Hs by lia. exact Hs.
Qed.

Lemma round_to_integral_spec (bits : Z) :
  let neg := is_negative format bits in
  let u := unsigned_units format bits in
  let r := rounded rounding neg (ratio u 1 e0) 0 in
  in_format format bits -> finite format bits = true ->
  round_to_integral bits format rounding control =
  if r =? 0 then FpResult.exact (zero format neg)
  else ieee_round format rounding neg (ratio r 1 0) (Z.log2 r).
Proof.
  intros neg u r Hb Hfin. unfold round_to_integral, nan.propagate. cbn [List.find].
  pose proof (format_bounds format) as Hf.
  rewrite finite_not_nan, finite_not_infinite, is_zero_spec by assumption. cbn [mbind option_bind orb].
  pose proof (abs_units format bits) as Habs. fold u in Habs.
  destruct (Z.eqb_spec (units format bits) 0) as [Hz | Hz].
  { assert (u = 0) as Hu0 by lia.
    assert (r = 0) as ->.
    { unfold r. rewrite Hu0. unfold rounded, rounds_up. destruct rounding, neg; reflexivity || congruence. }
    cbn [Z.eqb]. f_equal. apply zero_bits; assumption. }
  pose proof (unpack_spec format bits Hb Hfin Hz) as Hv. fold neg u in Hv.
  destruct (unpacks_log2 format _ neg u Hv) as [Hu Hl].
  pose proof (unpacks_bounds format _ neg u Hv) as (HE & Hq & He0).
  pose proof (ratio_ok u 1 e0 ltac:(lia) ltac:(lia)) as Hx.
  assert (0 <= r) as Hr0.
  { pose proof (rounded_bounds rounding neg (ratio u 1 e0) 0). pose proof (floor_nonneg _ Hx 0). lia. }
  assert (Unpacked.is_negative (unpack bits format) = neg) as Hneg by apply Hv.
  rewrite Hneg. set (v := unpack bits format) in *. unfold GUARD_BITS.
  destruct (Z.leb_spec s (Unpacked.exponent v)) as [Hbig | Hsmall].
  - apply (integral_already bits v); assumption.
  - unfold round_significand_to_integer, as_u32. rewrite wrap_small by (split; lia). rewrite Hneg.
    set (sh := s - Unpacked.exponent v) in *.
    destruct (Z.leb_spec 64 sh).
    + destruct (rounded_below format v neg u Hv rounding 0 Hodd ltac:(lia)) as [Hrb _].
      fold r in Hrb. rewrite Hrb. destruct (points_away rounding neg); [| reflexivity]. cbn [b2z Z.eqb].
      pose proof (pack_integer neg 1 s ltac:(lia) ltac:(lia)) as Hp. rewrite Z.sub_diag, Z.mul_1_l in Hp.
      cbn [Unpacked.exponent Unpacked.significand].
      rewrite wshl_small, Z.mul_1_l; [apply Hp | lia | rewrite Z.mul_1_l; split; [apply Z.pow_nonneg; lia |]];
        apply Z.pow_lt_mono_r; lia.
    + destruct (units_place format v neg u Hv rounding sh ltac:(lia) eq_refl) as (_ & Hr & _).
      cbv zeta in Hr |- *. rewrite Hr. fold r. destruct (Z.eqb_spec r 0); [reflexivity |].
      cbn [Unpacked.exponent Unpacked.significand].
      assert (r * 2 ^ sh < 2 ^ 64) as Hbound.
      { pose proof (rounded_bounds rounding neg (ratio u 1 e0) 0) as Hrb. fold r in Hrb.
        pose proof (represents_shift (ratio u 1 e0) _ _ sh Hx ltac:(lia) (unpacked_represents format v neg u Hv)) as [Hfl _].
        replace (Unpacked.exponent v - s + sh) with 0 in Hfl by lia. rewrite Hfl in Hrb.
        pose proof (pow2_pos sh ltac:(lia)). assert (2 ^ sh <= 2 ^ 63) by (apply Z.pow_le_mono_r; lia).
        pose proof (Z.mul_div_le (Unpacked.significand v) (2 ^ sh) ltac:(lia)).
        change (2 ^ 64) with (2 ^ 63 * 2). change (2 ^ 56) with 72057594037927936 in Hq. nia. }
      rewrite wshl_small by (lia || (pose proof (pow2_pos sh); split; nia)).
      replace (Unpacked.exponent v) with (s - sh) by lia. apply pack_integer; lia.
Qed.

End RoundToIntegral.

(** ** Between formats *)

Lemma convert_format_spec (bits : Z) (source target : FpFormat) (control : FpControl)
    (rounding : FpRounding) :
  let neg := is_negative source bits in
  let u := unsigned_units source bits in
  in_format source bits -> finite source bits = true ->
  rounding <> FpRounding.Odd ->
  convert_format bits source target control rounding =
  if u =? 0 then FpResult.exact (zero target neg)
  else apply_flush_to_zero
         (code_round target rounding neg (ratio u 1 (unit_exponent source))
            (unit_exponent source + Z.log2 u)) target control.
Proof.
  intros neg u Hb Hfin Hodd. unfold convert_format.
  rewrite finite_not_nan, finite_not_infinite, is_zero_spec by assumption. fold neg.
  pose proof (abs_units source bits) as Habs. fold u in Habs.
  destruct (Z.eqb_spec (units source bits) 0) as [Hz | Hz], (Z.eqb_spec u 0); try lia; [reflexivity |].
  pose proof (unpack_spec source bits Hb Hfin Hz) as Hv. fold neg u in Hv.
  set (v := unpack bits source) in *.
  destruct (unpacks_log2 source v neg u Hv) as [Hu Hl].
  pose proof (unpacks_bounds source v neg u Hv) as (HE & Hq & He0).
  set (x := ratio u 1 (unit_exponent source)).
  pose proof (ratio_ok u 1 (unit_exponent source) ltac:(lia) ltac:(lia)) as Hx. fold x in Hx.
  pose proof (unpacked_represents source v neg u Hv) as Hrep. fold x in Hrep.
  assert (Unpacked.is_negative v = neg) as -> by apply Hv. destruct Hv as (_ & Hlead & _).
  pose proof (format_bounds source) as Hfs. pose proof (format_bounds target) as Hft.
  unfold rescale, GUARD_BITS.
  set (ss := mantissa_bits source + 3) in *. set (st := mantissa_bits target + 3).
  replace (mantissa_bits source + 4) with (ss + 1) in Hlead by lia.
  assert (2 ^ (st + 1) <= 2 ^ 60) by (apply Z.pow_le_mono_r; lia).
  pose proof (pow2_pos st ltac:(lia)).
  assert (forall q is_sticky, 2 ^ st <= q < 2 ^ (st + 1) ->
    represents_at x q is_sticky (Unpacked.exponent v - st) ->
    round_and_pack (Unpacked.mk neg (Unpacked.exponent v) q) target
      (RoundingContext.mk rounding is_sticky control) =
    apply_flush_to_zero (code_round target rounding neg x (unit_exponent source + Z.log2 u))
      target control) as Hpack.
  { intros q is_sticky Hb' Hr'.
    apply (pack_magnitude (Context.mk target rounding control) Hodd); cbn [Context.format];
      fold st; try assumption; [lia | | apply ratio_exponent; exact Hu | lia].
    intros _. apply (Z.le_trans _ (2 ^ st)); [apply Z.pow_le_mono_r; lia | lia]. }
  destruct (Z.leb_spec ss st); cbn [fst snd].
  - assert (2 ^ st <= Unpacked.significand v * 2 ^ (st - ss) < 2 ^ (st + 1)) as Hb'.
    { pose proof (pow2_pos (st - ss) ltac:(lia)).
      assert (2 ^ st = 2 ^ ss * 2 ^ (st - ss)) as -> by (rewrite <- Z.pow_add_r by lia; f_equal; lia).
      replace (st + 1) with (ss + 1 + (st - ss)) by lia. rewrite (Z.pow_add_r 2 (ss + 1)) by lia. nia. }
    rewrite wshl_small by (lia || (split; lia)). apply Hpack; [exact Hb' |].
    replace (Unpacked.exponent v - st) with (Unpacked.exponent v - ss - (st - ss)) by lia.
    apply represents_shl; assumption || lia.
  - rewrite low_mask, land_low, wshr_div by lia. apply Hpack.
    + pose proof (div_pow_bounds _ ss (ss - st) ltac:(lia) Hlead) as Hd.
      replace (ss - (ss - st)) with st in Hd by lia. exact Hd.
    + replace (Unpacked.exponent v - st) with (Unpacked.exponent v - ss + (ss - st)) by lia.
      apply represents_shift; assumption || lia.
Qed.

(** What is a whole number of [2^k] is written in them. *)
Lemma ratio_in_quanta (n e k j : Z) :
  exact_at (ratio n 1 e) k = true ->
  floor_at (ratio (floor_at (ratio n 1 e) k) 1 k) j = floor_at (ratio n 1 e) j /\
  exact_at (ratio (floor_at (ratio n 1 e) k) 1 k) j = exact_at (ratio n 1 e) j.
Proof.
  intros Hex. destruct (Z.le_ge_cases k e) as [Hle | Hge].
  - destruct (ratio_at n 1 e k (e - k)) as [-> _]; [lia | lia | lia |].
    replace (e - k + k - e) with 0 by lia. change (1 * 2 ^ 0) with 1. rewrite Z.div_1_r.
    replace k with (e - (e - k)) at 2 4 by lia. apply ratio_shift. lia.
  - destruct (ratio_at n 1 e k 0) as [Hf He]; [lia | lia | lia |]. rewrite Hf. rewrite He in Hex.
    apply Z.eqb_eq in Hex. replace (0 + k - e) with (k - e) in * by lia. rewrite Z.mul_1_r, Z.mul_1_l in *.
    pose proof (pow2_pos (k - e) ltac:(lia)). pose proof (Z.div_mod n (2 ^ (k - e)) ltac:(lia)) as Hd.
    set (F := n / 2 ^ (k - e)) in *. rewrite Hex, Z.add_0_r, Z.mul_comm in Hd.
    pose proof (ratio_shift F k (k - e) j ltac:(lia)) as Hs. replace (k - (k - e)) with e in Hs by lia.
    rewrite <- Hd in Hs. destruct Hs as [-> ->]. split; reflexivity.
Qed.

(** An exact result decodes to the magnitude it came from. *)
Lemma ieee_round_decodes (format : FpFormat) (rounding : FpRounding) (neg : bool) (x : magnitude)
    (e : Z) :
  let k := quantum format e in
  magnitude_ok x -> floor_at x e = 1 -> exact_at x k = true -> e <= exponent_bias format ->
  exists bits, ieee_round format rounding neg x e = FpResult.exact bits /\
    in_format format bits /\ finite format bits = true /\ is_negative format bits = neg /\
    unsigned_units format bits = floor_at x k * 2 ^ (k - unit_exponent format).
Proof.
  intros k Hx He Hex Hbias. pose proof (format_bounds format) as Hf.
  pose proof (pow2_pos (mantissa_bits format) ltac:(lia)) as Hp.
  unfold ieee_round, rounded. fold k. rewrite Hex, rounds_up_exact by assumption. cbn [b2z].
  rewrite Z.add_0_r. set (F := floor_at x k).
  assert (exists raw f, 0 <= raw < 2 ^ exponent_bits format - 1 /\ 0 <= f < 2 ^ mantissa_bits format /\
    (k + mantissa_bits format - min_exponent format) * 2 ^ mantissa_bits format + F =
      raw * 2 ^ mantissa_bits format + f /\
    (if raw =? 0 then f else (2 ^ mantissa_bits format + f) * 2 ^ (raw - 1)) =
      F * 2 ^ (k - unit_exponent format)) as (raw & f & Hraw & Hfr & Henc & Hun).
  { destruct (Z.lt_ge_cases e (min_exponent format)) as [Hsub | Hnorm].
    - exists 0, F. pose proof (floor_below_normal format x e Hx He Hsub).
      assert (k = unit_exponent format) as Hk by (unfold k, quantum, unit_exponent; lia).
      rewrite Hk, Z.sub_diag. unfold unit_exponent. fold k F in H. change (0 =? 0) with true.
      cbv iota. rewrite Z.mul_1_r. lia.
    - assert (k = e - mantissa_bits format) as Hk by (unfold k, quantum; lia).
      pose proof (floor_up x Hx k (mantissa_bits format) ltac:(lia)) as Hfl.
      replace (k + mantissa_bits format) with e in Hfl by lia. rewrite He in Hfl. fold F in Hfl.
      pose proof (Z.div_mod F (2 ^ mantissa_bits format) ltac:(lia)).
      pose proof (Z.mod_pos_bound F (2 ^ mantissa_bits format) ltac:(lia)).
      exists (e - min_exponent format + 1), (F - 2 ^ mantissa_bits format).
      destruct (Z.eqb_spec (e - min_exponent format + 1) 0); [lia |].
      replace (k - unit_exponent format) with (e - min_exponent format + 1 - 1)
        by (unfold unit_exponent; lia).
      replace (2 ^ mantissa_bits format + (F - 2 ^ mantissa_bits format)) with F by lia.
      unfold min_exponent in *. repeat apply conj; nia || lia || reflexivity. }
  rewrite Henc. destruct (Z.leb_spec ((2 ^ exponent_bits format - 1) * 2 ^ mantissa_bits format)
    (raw * 2 ^ mantissa_bits format + f)); [nia |].
  destruct (decode_encoding format neg raw f ltac:(lia) Hfr) as (Hin & Hneg & Hr & Hfrac).
  eexists. split; [reflexivity |]. split; [exact Hin |].
  unfold finite, unsigned_units. rewrite Hneg, Hr, Hfrac. split; [apply Z.ltb_lt; lia |].
  split; [reflexivity | exact Hun].
Qed.

(** Every value of [source] is one of [target]. *)
Definition widens (source target : FpFormat) : bool :=
  (mantissa_bits source <=? mantissa_bits target) && (exponent_bias source <=? exponent_bias target).

Lemma exact_in_format (source : FpFormat) (bits : Z) :
  in_format source bits -> finite source bits = true -> units source bits <> 0 ->
  let u := unsigned_units source bits in
  let e := unit_exponent source + Z.log2 u in
  exact_at (ratio u 1 (unit_exponent source)) (quantum source e) = true /\
  e <= exponent_bias source.
Proof.
  intros Hb Hfin Hnz u e. split.
  - pose proof (ieee_round_exact source FpRounding.Nearest bits Hb Hfin Hnz) as Hr. fold u e in Hr.
    apply (f_equal FpResult.raised) in Hr. unfold ieee_round in Hr.
    destruct (_ <=? _); [discriminate Hr |]. cbn [FpResult.raised] in Hr.
    destruct (exact_at _ _); [reflexivity |]. destruct (_ <? _); discriminate Hr.
  - pose proof (unpack_spec source bits Hb Hfin Hnz) as Hv. fold u in Hv.
    destruct (unpacks_log2 source _ _ u Hv) as [_ Hl]. destruct Hv as (_ & _ & _ & _ & HE & _). lia.
Qed.

(** Zero keeps its sign. *)
Lemma zero_decodes (format : FpFormat) (neg : bool) :
  in_format format (zero format neg) /\ finite format (zero format neg) = true /\
  is_negative format (zero format neg) = neg /\ unsigned_units format (zero format neg) = 0.
Proof.
  pose proof (format_bounds format) as Hf.
  destruct (decode_encoding format neg 0 0) as (Hin & Hneg & Hraw & Hfr);
    [pose proof (pow2_pos (exponent_bits format)); lia |
     pose proof (pow2_pos (mantissa_bits format)); lia |].
  rewrite Z.mul_0_l, Z.add_0_l, Z.add_0_r, <- zero_eq in *.
  unfold finite, unsigned_units. rewrite Hraw, Hfr. split; [exact Hin |]. split; [| split; [exact Hneg | reflexivity]].
  apply Z.ltb_lt. assert (2 ^ 5 <= 2 ^ exponent_bits format) by (apply Z.pow_le_mono_r; lia). lia.
Qed.

Lemma code_round_exact (format : FpFormat) (rounding : FpRounding) (neg : bool) (x : magnitude)
    (e : Z) :
  exact_at x (quantum format e) = true ->
  code_round format rounding neg x e = ieee_round format rounding neg x e.
Proof.
  intros Hex. unfold code_round, halves. rewrite Hex. cbn [negb].
  rewrite andb_false_r. reflexivity.
Qed.

(** A magnitude that is, at every scale, the one of an encoding rounds to it. *)
Lemma rounds_to_encoding (format : FpFormat) (rounding : FpRounding) (bits n k : Z) :
  let u := unsigned_units format bits in
  in_format format bits -> finite format bits = true -> units format bits <> 0 -> 0 < n ->
  (forall j, floor_at (ratio n 1 k) j = floor_at (ratio u 1 (unit_exponent format)) j /\
             exact_at (ratio n 1 k) j = exact_at (ratio u 1 (unit_exponent format)) j) ->
  code_round format rounding (is_negative format bits) (ratio n 1 k) (k + Z.log2 n) =
  FpResult.exact bits.
Proof.
  intros u Hb Hfin Hnz Hn Hext. pose proof (abs_units format bits) as Habs. fold u in Habs.
  pose proof (unsigned_units_nonneg format bits) as Hnn. fold u in Hnn.
  assert (k + Z.log2 n = unit_exponent format + Z.log2 u) as ->.
  { apply (exponent_unique (ratio u 1 (unit_exponent format))); [apply ratio_ok; lia | |].
    - rewrite <- (proj1 (Hext _)). apply ratio_exponent. exact Hn.
    - apply ratio_exponent. lia. }
  rewrite code_round_exact.
  - rewrite (ieee_round_ext _ _ _ _ _ _ Hext). apply ieee_round_exact; assumption.
  - rewrite (proj2 (Hext _)). apply exact_in_format; assumption.
Qed.

Lemma round_trip (source target : FpFormat) (bits : Z) (control : FpControl)
    (r r' : FpRounding) :
  widens source target = true ->
  flushing source control = false -> flushing target control = false ->
  r <> FpRounding.Odd -> r' <> FpRounding.Odd ->
  in_format source bits -> finite source bits = true ->
  exists wide, convert_format bits source target control r = FpResult.exact wide /\
    in_format target wide /\ finite target wide = true /\
    convert_format wide target source control r' = FpResult.exact bits.
Proof.
  intros [Hm Hbias]%andb_true_iff Hfs Hft Hr Hr' Hb Hfin. apply Z.leb_le in Hm, Hbias.
  rewrite convert_format_spec by assumption. cbv zeta.
  set (u := unsigned_units source bits). set (neg := is_negative source bits).
  pose proof (abs_units source bits) as Habs. fold u in Habs.
  destruct (Z.eqb_spec u 0) as [Hu0 | Hu0].
  { destruct (zero_decodes target neg) as (Hin & Hfin' & Hneg & Hun).
    exists (zero target neg). repeat (split; [assumption || reflexivity |]).
    rewrite convert_format_spec by assumption. cbv zeta. rewrite Hun, Hneg. cbn [Z.eqb].
    f_equal. symmetry. apply zero_bits; [exact Hb | lia]. }
  assert (units source bits <> 0) as Hnz by lia.
  destruct (exact_in_format source bits Hb Hfin Hnz) as [Hex He]. fold u in Hex, He.
  set (x := ratio u 1 (unit_exponent source)) in *. set (e := unit_exponent source + Z.log2 u) in *.
  pose proof (unsigned_units_nonneg source bits) as Hnn. fold u in Hnn. assert (0 < u) as Hu by lia.
  pose proof (ratio_ok u 1 (unit_exponent source) ltac:(lia) ltac:(lia)) as Hx. fold x in Hx.
  pose proof (ratio_exponent u (unit_exponent source) Hu) as Hlead. fold x e in Hlead.
  set (k := quantum target e). assert (exact_at x k = true) as Hext.
  { apply (exact_up x Hx _ (quantum source e - k)); unfold k, quantum, min_exponent in *; [lia |].
    replace (_ + _) with (Z.max e (1 - exponent_bias source) - mantissa_bits source) by lia. exact Hex. }
  rewrite no_output_flush by exact Hft. rewrite code_round_exact by exact Hext.
  destruct (ieee_round_decodes target r neg x e Hx Hlead Hext ltac:(lia))
    as (wide & -> & Hin & Hfin' & Hneg & Hun).
  fold k in Hun. set (F := floor_at x k) in *.
  exists wide. repeat (split; [assumption || reflexivity |]).
  assert (0 <= k - unit_exponent target) as Hk by (unfold k, quantum, unit_exponent; lia).
  pose proof (pow2_pos _ Hk). pose proof (ratio_in_quanta u (unit_exponent source) k) as Hq.
  fold x in Hq. fold F in Hq.
  assert (0 < F) as HF.
  { pose proof (floor_nonneg x Hx k). fold F in H0.
    destruct (Z.eq_dec F 0) as [HF0 |]; [| lia]. exfalso.
    destruct (Hq e Hext) as [Hfl _]. rewrite HF0, Hlead in Hfl. discriminate Hfl. }
  rewrite convert_format_spec by assumption. cbv zeta. rewrite Hun, Hneg.
  destruct (Z.eqb_spec (F * 2 ^ (k - unit_exponent target)) 0); [nia |].
  rewrite no_output_flush by exact Hfs. apply rounds_to_encoding; try assumption; [nia |]. intros j. fold x.
  destruct (ratio_shift F k (k - unit_exponent target) j Hk) as [Hf1 He1].
  replace (k - (k - unit_exponent target)) with (unit_exponent target) in Hf1, He1 by lia.
  destruct (Hq j Hext) as [Hf2 He2]. rewrite Hf1, He1, Hf2, He2. split; reflexivity.
Qed.
