(* ===== verification/FpData.v ===== *)
(** What an encoding stands for, and what IEEE 754 has the operations answer on
    it: the NaNs, the infinities, the zeros, flushing, and the finite results. *)

From stdpp Require Import base numbers list option.
From S2P Require Import Prelude FpOperand FpDecompose FpCompare FpArithmetic FpMagnitude FpRound.
From S2P Require Import FpValues FpAddition FpInteger.

#[local] Open Scope Z_scope.

Import FpFormat decompose arithmetic.

(** ** Data *)

(** A finite value is a sign and a number of units of the least subnormal. *)
Inductive datum : Type :=
| NaN (is_signalling : bool)
| Infinite (is_negative : bool)
| Finite (is_negative : bool) (u : Z).

Definition datum_of (format : FpFormat) (bits : Z) : datum :=
  if finite format bits
  then Finite (is_negative format bits) (unsigned_units format bits)
  else if fraction format bits =? 0 then Infinite (is_negative format bits)
  else NaN (negb (Z.testbit bits (mantissa_bits format - 1))).

Definition negated (d : datum) : datum :=
  match d with
  | NaN s => NaN s
  | Infinite n => Infinite (negb n)
  | Finite n u => Finite (negb n) u
  end.

(** A value that is neither zero nor normal. *)
Definition tiny (format : FpFormat) (d : datum) : bool :=
  match d with Finite _ u => (0 <? u) && (u <? 2 ^ mantissa_bits format) | _ => false end.

(** FPCR.FZ on an operand. *)
Definition flushed_operand (format : FpFormat) (control : FpControl) (d : datum) : datum :=
  match d with
  | Finite n u => if flushing format control && tiny format d then Finite n 0 else d
  | _ => d
  end.

Definition operand_flags (format : FpFormat) (control : FpControl) (d : datum) : FpExceptions :=
  if flushing format control && tiny format d then FpExceptions.INPUT_DENORMAL else FpExceptions.NONE.

(** FPCR.FZ on a result. *)
Definition flushed_result (format : FpFormat) (control : FpControl) (r : FpResult) : FpResult :=
  match datum_of format (FpResult.bits r) with
  | Finite n u =>
      if flushing format control && tiny format (Finite n u)
      then FpResult.mk (zero format n)
             (FpExceptions.union (FpExceptions.union (FpResult.raised r) FpExceptions.UNDERFLOW)
                FpExceptions.INEXACT)
      else r
  | _ => r
  end.

(** ** Answers *)

(** A NaN operand makes some quiet NaN, an invalid operation the default NaN;
    any other answer is one encoding. *)
Inductive outcome : Type :=
| QuietNaN (is_invalid : bool)
| Invalid
| Number (r : FpResult).

Definition quiet_nan (format : FpFormat) (bits : Z) : Prop :=
  datum_of format bits = NaN false.

(** [result] is the outcome, with the flags the operands had raised already. *)
Definition delivers (format : FpFormat) (raised : FpExceptions) (o : outcome) (result : FpResult) :
    Prop :=
  match o with
  | QuietNaN is_invalid =>
      quiet_nan format (FpResult.bits result) /\
      FpResult.raised result =
        FpExceptions.union (if is_invalid then FpExceptions.INVALID else FpExceptions.NONE) raised
  | Invalid =>
      result = FpResult.mk (default_nan format) (FpExceptions.union FpExceptions.INVALID raised)
  | Number r => result = with_flags r raised
  end.

(** The same of the bits alone, a NaN being any quiet NaN. *)
Definition delivers_bits (format : FpFormat) (o : outcome) (bits : Z) : Prop :=
  match o with
  | QuietNaN _ | Invalid => quiet_nan format bits
  | Number r => bits = FpResult.bits r
  end.

Section Operations.

Context (format : FpFormat) (rounding : FpRounding) (control : FpControl).

#[local] Abbreviation e0 := (unit_exponent format).

(** A sum. *)
Definition ieee_sum_of (l r : datum) : outcome :=
  match l, r with
  | NaN s1, NaN s2 => QuietNaN (s1 || s2)
  | NaN s, _ | _, NaN s => QuietNaN s
  | Infinite n1, Infinite n2 =>
      if eqb n1 n2 then Number (FpResult.exact (signed_infinity format n1)) else Invalid
  | Infinite n, Finite _ _ | Finite _ _, Infinite n =>
      Number (FpResult.exact (signed_infinity format n))
  | Finite n1 u1, Finite n2 u2 =>
      Number (flushed_result format control
                (ieee_sum format rounding n1 n2 (signed n1 u1) (signed n2 u2)))
  end.

(** A product. *)
Definition ieee_product_of (l r : datum) : outcome :=
  match l, r with
  | NaN s1, NaN s2 => QuietNaN (s1 || s2)
  | NaN s, _ | _, NaN s => QuietNaN s
  | Infinite n1, Infinite n2 => Number (FpResult.exact (signed_infinity format (xorb n1 n2)))
  | Infinite n1, Finite n2 u | Finite n1 u, Infinite n2 =>
      if u =? 0 then Invalid else Number (FpResult.exact (signed_infinity format (xorb n1 n2)))
  | Finite n1 u1, Finite n2 u2 =>
      Number
        (if u1 * u2 =? 0 then FpResult.exact (zero format (xorb n1 n2))
         else flushed_result format control
                (ieee_round format rounding (xorb n1 n2) (ratio (u1 * u2) 1 (2 * e0))
                   (2 * e0 + Z.log2 (u1 * u2))))
  end.

(** A quotient. *)
Definition ieee_quotient_of (l r : datum) : outcome :=
  match l, r with
  | NaN s1, NaN s2 => QuietNaN (s1 || s2)
  | NaN s, _ | _, NaN s => QuietNaN s
  | Infinite _, Infinite _ => Invalid
  | Infinite n1, Finite n2 _ => Number (FpResult.exact (signed_infinity format (xorb n1 n2)))
  | Finite n1 _, Infinite n2 => Number (FpResult.exact (zero format (xorb n1 n2)))
  | Finite n1 u1, Finite n2 u2 =>
      if (u1 =? 0) && (u2 =? 0) then Invalid
      else Number
        (if u2 =? 0 then FpResult.mk (signed_infinity format (xorb n1 n2)) FpExceptions.DIVIDE_BY_ZERO
         else if u1 =? 0 then FpResult.exact (zero format (xorb n1 n2))
         else flushed_result format control
                (ieee_round format rounding (xorb n1 n2) (ratio u1 u2 0) (ratio_lead u1 u2)))
  end.

(** A root: [u] units of [2^e0], where [e0] may be odd. *)
Definition ieee_root_of (d : datum) : outcome :=
  match d with
  | NaN s => QuietNaN s
  | Infinite n => if n then Invalid else Number (FpResult.exact (signed_infinity format false))
  | Finite n u =>
      if u =? 0 then Number (FpResult.exact (zero format n))
      else if n then Invalid
      else Number (flushed_result format control
                     (ieee_round format rounding false (root (u * 2 ^ (e0 mod 2)) (e0 / 2))
                        ((e0 + Z.log2 u) / 2)))
  end.

(** The rounding of a product or of a quotient is outside the case [halves]. *)
Definition product_rounds (l r : datum) : Prop :=
  forall n1 n2 u1 u2, l = Finite n1 u1 -> r = Finite n2 u2 ->
  halves format rounding (xorb n1 n2) (ratio (u1 * u2) 1 (2 * e0)) (2 * e0 + Z.log2 (u1 * u2)) = false.

Definition quotient_rounds (l r : datum) : Prop :=
  forall n1 n2 u1 u2, l = Finite n1 u1 -> r = Finite n2 u2 -> 0 < u1 -> 0 < u2 ->
  halves format rounding (xorb n1 n2) (ratio u1 u2 0) (ratio_lead u1 u2) = false.

End Operations.

(** A finite encoding. *)
Definition number (format : FpFormat) (bits : Z) : Prop :=
  in_format format bits /\ finite format bits = true.

(** ** Classification *)

Section Classes.

Context (format : FpFormat).

#[local] Abbreviation m := (mantissa_bits format).

Lemma quiet_bit_spec (bits : Z) :
  (Z.land bits (quiet_bit format) =? 0) = negb (Z.testbit bits (m - 1)).
Proof.
  replace (quiet_bit format) with (2 ^ (m - 1)) by (destruct format; reflexivity).
  apply land_bit. destruct format; vm_compute; discriminate.
Qed.

Lemma is_nan_datum (bits : Z) :
  is_nan format bits = match datum_of format bits with NaN _ => true | _ => false end.
Proof.
  rewrite is_nan_spec. unfold datum_of.
  destruct (finite format bits), (fraction format bits =? 0); reflexivity.
Qed.

Lemma is_signalling_datum (bits : Z) :
  is_signalling_nan format bits = match datum_of format bits with NaN s => s | _ => false end.
Proof.
  unfold is_signalling_nan. rewrite is_nan_spec, quiet_bit_spec. unfold datum_of.
  destruct (finite format bits), (fraction format bits =? 0); reflexivity.
Qed.

Lemma is_infinite_datum (bits : Z) :
  is_infinite format bits = match datum_of format bits with Infinite _ => true | _ => false end.
Proof.
  rewrite is_infinite_spec. unfold datum_of.
  destruct (finite format bits), (fraction format bits =? 0); reflexivity.
Qed.

Lemma is_zero_datum (bits : Z) :
  in_format format bits ->
  is_zero format bits = match datum_of format bits with Finite _ u => u =? 0 | _ => false end.
Proof.
  intros Hb. rewrite is_zero_spec by exact Hb. pose proof (abs_units format bits) as Ha. unfold datum_of.
  destruct (finite format bits) eqn:Hfin.
  - apply eq_true_iff_eq. rewrite !Z.eqb_eq. lia.
  - unfold unsigned_units in Ha. apply Z.ltb_ge in Hfin. pose proof (fraction_bounds format bits).
    pose proof (format_bounds format). assert (2 ^ 5 <= 2 ^ exponent_bits format) by (apply Z.pow_le_mono_r; lia).
    destruct (Z.eqb_spec (raw_exponent format bits) 0); [lia |].
    pose proof (pow2_pos (raw_exponent format bits - 1) ltac:(lia)).
    assert (units format bits <> 0) as Hu by nia. apply Z.eqb_neq in Hu. rewrite Hu.
    destruct (fraction format bits =? 0); reflexivity.
Qed.

Lemma datum_finite (bits : Z) (n : bool) (u : Z) :
  datum_of format bits = Finite n u ->
  finite format bits = true /\ is_negative format bits = n /\ unsigned_units format bits = u.
Proof.
  unfold datum_of. destruct (finite format bits); [intros [= <- <-]; auto |].
  destruct (_ =? 0); discriminate.
Qed.

Lemma datum_infinite (bits : Z) (n : bool) :
  in_format format bits -> datum_of format bits = Infinite n ->
  is_negative format bits = n /\ bits = signed_infinity format n.
Proof.
  intros Hb. unfold datum_of. destruct (finite format bits) eqn:Hfin; [discriminate |].
  destruct (Z.eqb_spec (fraction format bits) 0) as [Hfr |]; [| discriminate]. intros [= <-].
  split; [reflexivity |]. pose proof (encoding format bits Hb) as He.
  apply Z.ltb_ge in Hfin. pose proof (raw_bounds format bits).
  assert (raw_exponent format bits = 2 ^ exponent_bits format - 1) as Hraw by lia.
  rewrite Hfr, Hraw, Z.add_0_r in He. rewrite He at 1. clear He.
  destruct (is_negative format bits), format; vm_compute; reflexivity.
Qed.

Lemma is_subnormal_datum (bits : Z) : is_subnormal format bits = tiny format (datum_of format bits).
Proof.
  unfold is_subnormal. rewrite land_raw, land_fraction. unfold datum_of, finite.
  pose proof (raw_bounds format bits). pose proof (fraction_bounds format bits) as Hfr.
  pose proof (format_bounds format). assert (2 ^ 5 <= 2 ^ exponent_bits format) by (apply Z.pow_le_mono_r; lia).
  destruct (Z.eqb_spec (raw_exponent format bits) 0) as [Hz | Hz]; cbn [andb].
  - destruct (Z.ltb_spec (raw_exponent format bits) (2 ^ exponent_bits format - 1)); [| lia].
    unfold tiny, unsigned_units. rewrite Hz. cbn [Z.eqb].
    destruct (Z.eqb_spec (fraction format bits) 0), (Z.ltb_spec 0 (fraction format bits)),
      (Z.ltb_spec (fraction format bits) (2 ^ m)); reflexivity || lia.
  - destruct (_ <? _); [| destruct (_ =? 0); reflexivity]. unfold tiny, unsigned_units.
    destruct (Z.eqb_spec (raw_exponent format bits) 0); [contradiction |].
    pose proof (pow2_pos (raw_exponent format bits - 1) ltac:(lia)).
    destruct (Z.ltb_spec ((2 ^ m + fraction format bits) * 2 ^ (raw_exponent format bits - 1)) (2 ^ m));
      [nia | symmetry; apply andb_false_r].
Qed.

Lemma zero_datum (n : bool) : datum_of format (zero format n) = Finite n 0.
Proof.
  destruct (zero_decodes format n) as (_ & Hfin & Hn & Hu). unfold datum_of. rewrite Hfin, Hn, Hu. reflexivity.
Qed.

Lemma flipped_datum (bits : Z) :
  in_format format bits ->
  datum_of format (Z.lxor bits (wshl 64 1 (sign_shift format))) = negated (datum_of format bits).
Proof.
  intros Hb. destruct (flip_sign format bits Hb) as (_ & Hn & Hr & Hf).
  destruct (flip_sign_units format bits Hb) as [Hfin _]. unfold datum_of, unsigned_units.
  rewrite Hfin, Hn, Hr, Hf. destruct (finite format bits); [reflexivity |].
  destruct (_ =? 0); [reflexivity |]. cbn [negated]. do 2 f_equal. rewrite Z.lxor_spec.
  assert (Z.testbit (wshl 64 1 (sign_shift format)) (m - 1) = false) as -> by (destruct format; reflexivity).
  apply xorb_false_r.
Qed.

End Classes.

(** ** Flushing *)

Lemma flush_input_datum (bits : Z) (context : Context) :
  let format := Context.format context in
  let control := Context.control context in
  in_format format bits ->
  let '(bits', raised) := flush_input bits context in
  in_format format bits' /\
  datum_of format bits' = flushed_operand format control (datum_of format bits) /\
  raised = operand_flags format control (datum_of format bits).
Proof.
  intros format control Hb. unfold flush_input. fold format control.
  change (match format with
          | Half => FpControl.is_flush_to_zero_fp16 control
          | Single | Double => FpControl.is_flush_to_zero control
          end) with (flushing format control).
  rewrite is_subnormal_datum, <- negb_andb. unfold operand_flags, flushed_operand.
  destruct (flushing format control && tiny format (datum_of format bits)) eqn:Hf; cbn [negb].
  - split; [apply zero_decodes |]. rewrite zero_datum.
    destruct (datum_of format bits) as [| | n u] eqn:Hd;
      try (cbn [tiny] in Hf; rewrite andb_false_r in Hf; discriminate Hf).
    apply datum_finite in Hd as (_ & -> & _). auto.
  - split; [exact Hb |]. destruct (datum_of format bits) as [| | n u]; auto.
Qed.

Lemma flush_result_datum (result : FpResult) (format : FpFormat) (control : FpControl) :
  apply_flush_to_zero result format control = flushed_result format control result.
Proof.
  unfold apply_flush_to_zero, flushed_result.
  change (match format with
          | Half => FpControl.is_flush_to_zero_fp16 control
          | Single | Double => FpControl.is_flush_to_zero control
          end) with (flushing format control).
  rewrite is_subnormal_datum, <- negb_andb.
  destruct (datum_of format (FpResult.bits result)) as [| | n u] eqn:Hd;
    try (cbn [tiny]; rewrite andb_false_r; reflexivity).
  apply datum_finite in Hd as (_ & -> & _).
  destruct (flushing format control && tiny format (Finite n u)); reflexivity.
Qed.

Lemma flushed_result_none (format : FpFormat) (control : FpControl) (result : FpResult) :
  flushing format control = false -> flushed_result format control result = result.
Proof. intros H. rewrite <- flush_result_datum. apply no_output_flush, H. Qed.

Lemma flushed_operand_none (format : FpFormat) (control : FpControl) (d : datum) :
  flushing format control = false ->
  flushed_operand format control d = d /\ operand_flags format control d = FpExceptions.NONE.
Proof. intros H. unfold operand_flags, flushed_operand. rewrite H. destruct d; split; reflexivity. Qed.

(** ** NaNs *)

Lemma default_nan_quiet (format : FpFormat) : quiet_nan format (default_nan format).
Proof. destruct format; reflexivity. Qed.

(** All the exponent's bits and the quiet bit. *)
Lemma quiet_nan_intro (format : FpFormat) (bits : Z) :
  raw_exponent format bits = 2 ^ exponent_bits format - 1 ->
  Z.testbit bits (mantissa_bits format - 1) = true -> quiet_nan format bits.
Proof.
  intros Hraw Hbit. unfold quiet_nan, datum_of, finite. rewrite Hraw, Z.ltb_irrefl, Hbit.
  enough (fraction format bits <> 0) as Hfr by (apply Z.eqb_neq in Hfr; rewrite Hfr; reflexivity).
  intros H0. rewrite <- land_fraction in H0.
  apply (f_equal (fun z => Z.testbit z (mantissa_bits format - 1))) in H0.
  rewrite Z.land_spec, Hbit, Z.bits_0 in H0.
  assert (Z.testbit (mantissa_mask format) (mantissa_bits format - 1) = true) as E by (destruct format; reflexivity).
  rewrite E in H0. discriminate H0.
Qed.

Lemma quiet_bit_eq (format : FpFormat) : quiet_bit format = 2 ^ (mantissa_bits format - 1).
Proof. destruct format; reflexivity. Qed.

(** Setting the quiet bit of a NaN. *)
Lemma quieten_quiet (format : FpFormat) (bits : Z) :
  is_nan format bits = true -> quiet_nan format (quieten format bits).
Proof.
  intros Hn. unfold quieten. destruct (is_signalling_nan format bits) eqn:Hs.
  - pose proof (format_bounds format) as Hf. unfold is_nan in Hn. apply andb_true_iff in Hn as [Hraw _].
    rewrite land_raw in Hraw. apply Z.eqb_eq in Hraw. rewrite max_exponent_eq in Hraw.
    apply quiet_nan_intro.
    + rewrite <- Hraw, <- !land_raw. unfold wshr. rewrite Z.shiftr_lor.
      assert (Z.shiftr (quiet_bit format) (mantissa_bits format mod 64) = 0) as -> by (destruct format; reflexivity).
      rewrite Z.lor_0_r. reflexivity.
    + rewrite quiet_bit_eq, Z.lor_spec, Z.pow2_bits_true by lia. apply orb_true_r.
  - rewrite is_nan_datum in Hn. rewrite is_signalling_datum in Hs. unfold quiet_nan.
    destruct (datum_of format bits); try discriminate Hn. rewrite Hs. reflexivity.
Qed.

(** What an outcome leaves in the register. *)
Lemma delivers_result (format : FpFormat) (raised : FpExceptions) (o : outcome) (result : FpResult) :
  delivers format raised o result -> delivers_bits format o (FpResult.bits result).
Proof.
  destruct o as [s | | r]; cbn [delivers delivers_bits].
  - intros [H _]. exact H.
  - intros ->. apply default_nan_quiet.
  - intros ->. reflexivity.
Qed.

(** The signal of the NaNs among the data, if there is one. *)
Definition nan_among (data : list datum) : option bool :=
  foldr (fun d s => match d, s with
                    | NaN s1, Some s2 => Some (s1 || s2)
                    | NaN s1, None => Some s1
                    | _, _ => s
                    end) None data.

Lemma nan_among_flags (format : FpFormat) (operands : list Z) :
  nan_among (map (datum_of format) operands) =
  if nan.any_nan operands format then Some (nan.signalling_among operands format) else None.
Proof.
  unfold nan.any_nan, nan.signalling_among.
  induction operands as [| bits l IH]; [reflexivity |]. cbn [map nan_among foldr existsb].
  fold (nan_among (map (datum_of format) l)). rewrite IH, is_nan_datum, is_signalling_datum.
  destruct (datum_of format bits) as [s | |]; cbn [orb]; [| reflexivity..].
  destruct (existsb (is_nan format) l) eqn:Hn; [reflexivity |].
  enough (existsb (is_signalling_nan format) l = false) as -> by (rewrite orb_false_r; reflexivity).
  apply not_true_iff_false. intros (b & Hb & Hs)%existsb_exists.
  unfold is_signalling_nan in Hs. apply andb_true_iff in Hs as [Hs _].
  apply not_true_iff_false in Hn. apply Hn, existsb_exists. exists b. split; assumption.
Qed.

(** The three operand lists of the operations differ in length only. *)
Lemma propagate_delivers (operands : list Z) (format : FpFormat) (control : FpControl)
    (raised : FpExceptions) :
  match nan_among (map (datum_of format) operands) with
  | Some is_invalid =>
      exists result, nan.propagate operands format control = Some result /\
      delivers format raised (QuietNaN is_invalid) (with_flags result raised)
  | None => nan.propagate operands format control = None
  end.
Proof.
  rewrite nan_among_flags. unfold nan.propagate, nan.any_nan.
  destruct (List.find (is_nan format) operands) as [bits |] eqn:Hfind.
  - apply List.find_some in Hfind as [Hin Hnan].
    assert (existsb (is_nan format) operands = true) as -> by (apply existsb_exists; eauto).
    eexists. split; [reflexivity |]. split; [| reflexivity].
    cbn [with_flags FpResult.bits FpResult.raising]. unfold nan.quiet_result.
    destruct (FpControl.is_default_nan control); [apply default_nan_quiet | apply quieten_quiet, Hnan].
  - assert (existsb (is_nan format) operands = false) as ->; [| reflexivity].
    apply not_true_iff_false. intros (b & Hb & Hn)%existsb_exists.
    rewrite (List.find_none _ _ Hfind b Hb) in Hn. discriminate Hn.
Qed.

(** ** Finite operands *)

Lemma propagate_numbers (operands : list Z) (format : FpFormat) (control : FpControl) :
  Forall (number format) operands -> nan.propagate operands format control = None.
Proof.
  intros Hall. unfold nan.propagate.
  assert (List.find (is_nan format) operands = None) as ->; [| reflexivity].
  induction Hall as [| bits l [_ Hfin] _ IH]; cbn [List.find]; [reflexivity |].
  rewrite finite_not_nan by exact Hfin. exact IH.
Qed.

Lemma units_zero (format : FpFormat) (bits : Z) :
  (units format bits =? 0) = (unsigned_units format bits =? 0).
Proof. rewrite <- abs_units. apply eq_true_iff_eq. rewrite !Z.eqb_eq. lia. Qed.

Lemma unpack_number (format : FpFormat) (bits : Z) :
  number format bits -> unsigned_units format bits <> 0 ->
  unpacks_to format (unpack bits format) (is_negative format bits) (unsigned_units format bits).
Proof.
  intros [Hb Hfin] Hnz. apply unpack_spec; [exact Hb | exact Hfin |].
  intros Hz. apply Hnz. rewrite <- abs_units, Hz. reflexivity.
Qed.
