(* ===== verification/FpOperations.v ===== *)
(** The softfloat operations deliver what IEEE 754 has them answer, on every
    encoding: NaNs, infinities, zeros, subnormals with and without flushing;
    the arithmetic, the extrema and the conversions. *)

From stdpp Require Import base numbers list option.
From S2P Require Import Prelude FpOperand FpDecompose FpCompare FpArithmetic FpBackend FpConvert.
From S2P Require Import FpMagnitude FpRound FpValues FpAddition FpInteger FpData.

#[local] Open Scope Z_scope.

Import FpFormat decompose arithmetic convert.

Section Operations.

Context (context : Context).

#[local] Abbreviation format := (Context.format context).
#[local] Abbreviation rounding := (Context.rounding context).
#[local] Abbreviation control := (Context.control context).
#[local] Abbreviation operand bits := (flushed_operand format control (datum_of format bits)).
#[local] Abbreviation flags_of bits := (operand_flags format control (datum_of format bits)).

Context (Hodd : rounding <> FpRounding.Odd).

Lemma finite_unpacks (bits : Z) (n : bool) (u : Z) :
  in_format format bits -> datum_of format bits = Finite n u -> u <> 0 ->
  unpacks_to format (unpack bits format) n u.
Proof.
  intros Hb Hd Hu. apply datum_finite in Hd as (Hfin & <- & <-).
  apply unpack_spec; [exact Hb | exact Hfin |].
  intros Hz. apply Hu. rewrite <- abs_units, Hz. reflexivity.
Qed.

Lemma finite_nonneg (bits : Z) (n : bool) (u : Z) : datum_of format bits = Finite n u -> 0 <= u.
Proof. intros (_ & _ & <-)%datum_finite. apply unsigned_units_nonneg. Qed.

(** *** Addition *)

Lemma add_data (l r : Z) (raised : FpExceptions) :
  in_format format l -> in_format format r ->
  delivers format raised (ieee_sum_of format rounding control (datum_of format l) (datum_of format r))
    match nan.propagate [l; r] format control with
    | Some result => with_flags result raised
    | None =>
    match add_infinities l r context with
    | Some result => with_flags result raised
    | None =>
        let '(value, is_sticky) := add_finite (unpack l format) (unpack r format) context in
        with_flags (Context.pack context value is_sticky) raised
    end end.
Proof.
  intros Hl Hr. pose proof (propagate_delivers [l; r] format control raised) as Hn. cbn [map] in Hn.
  unfold add_infinities. rewrite !is_infinite_datum.
  destruct (datum_of format l) as [s1 | n1 | n1 u1] eqn:Dl, (datum_of format r) as [s2 | n2 | n2 u2] eqn:Dr;
    cbn [nan_among foldr] in Hn;
    try (destruct Hn as (result & -> & Hd); exact Hd); rewrite Hn; cbn [negb andb ieee_sum_of].
  - destruct (datum_infinite format l n1 Hl Dl) as [-> ->], (datum_infinite format r n2 Hr Dr) as [-> _].
    destruct n1, n2; reflexivity.
  - destruct (datum_infinite format l n1 Hl Dl) as [_ ->]. reflexivity.
  - destruct (datum_infinite format r n2 Hr Dr) as [_ ->]. reflexivity.
  - pose proof (datum_finite format l n1 u1 Dl) as (Hfl & <- & <-).
    pose proof (datum_finite format r n2 u2 Dr) as (Hfr & <- & <-).
    pose proof (add_finite_spec context Hodd _ _ _ _ _ _
      (unpack_stands_for format context l eq_refl Hl Hfl)
      (unpack_stands_for format context r eq_refl Hr Hfr)) as Ha.
    destruct (add_finite _ _ _) as [value is_sticky]. cbn [delivers].
    rewrite Ha, flush_result_datum. reflexivity.
Qed.

Lemma add_delivers (lhs rhs : Z) (is_subtracting : bool) :
  in_format format lhs -> in_format format rhs ->
  delivers format (FpExceptions.union (flags_of lhs) (flags_of rhs))
    (ieee_sum_of format rounding control (operand lhs)
       (if is_subtracting then negated (operand rhs) else operand rhs))
    (add lhs rhs is_subtracting context).
Proof.
  intros Hl Hr. unfold add, flush_pair.
  pose proof (flush_input_datum lhs context Hl) as Fl. pose proof (flush_input_datum rhs context Hr) as Fr.
  cbv zeta in Fl, Fr.
  destruct (flush_input lhs context) as [l fl], (flush_input rhs context) as [r fr].
  destruct Fl as (Hl' & <- & ->), Fr as (Hr' & <- & ->).
  destruct is_subtracting; [| apply add_data; assumption].
  rewrite <- flipped_datum by exact Hr'. apply add_data; [exact Hl' | apply flip_sign, Hr'].
Qed.

(** *** Multiplication *)

Lemma multiply_data (l r : Z) (raised : FpExceptions) :
  in_format format l -> in_format format r ->
  product_rounds format rounding (datum_of format l) (datum_of format r) ->
  delivers format raised (ieee_product_of format rounding control (datum_of format l) (datum_of format r))
    match nan.propagate [l; r] format control with
    | Some result => with_flags result raised
    | None =>
    let is_negative := xorb (is_negative format l) (is_negative format r) in
    match multiply_specials l r is_negative context with
    | Some result => with_flags result raised
    | None =>
        let product := wmul 128 (Unpacked.significand (unpack l format)) (Unpacked.significand (unpack r format)) in
        let '(significand, is_sticky) := narrow product (significand_scale format) in
        let value :=
          Unpacked.mk is_negative (Unpacked.exponent (unpack l format) + Unpacked.exponent (unpack r format))
            significand in
        with_flags (Context.pack context value is_sticky) raised
    end end.
Proof.
  intros Hl Hr Hh. pose proof (propagate_delivers [l; r] format control raised) as Hn. cbn [map] in Hn.
  unfold multiply_specials. rewrite !is_infinite_datum, !is_zero_datum by assumption.
  destruct (datum_of format l) as [s1 | n1 | n1 u1] eqn:Dl, (datum_of format r) as [s2 | n2 | n2 u2] eqn:Dr;
    cbn [nan_among foldr] in Hn;
    try (destruct Hn as (result & -> & Hd); exact Hd); rewrite Hn; cbn [andb orb ieee_product_of].
  - destruct (datum_infinite format l n1 Hl Dl) as [-> _], (datum_infinite format r n2 Hr Dr) as [-> _].
    reflexivity.
  - destruct (datum_infinite format l n1 Hl Dl) as [-> _], (datum_finite format r n2 u2 Dr) as (_ & -> & _).
    rewrite orb_false_r. destruct (u2 =? 0); reflexivity.
  - destruct (datum_finite format l n1 u1 Dl) as (_ & -> & _), (datum_infinite format r n2 Hr Dr) as [-> _].
    destruct (u1 =? 0); reflexivity.
  - pose proof (datum_finite format l n1 u1 Dl) as (_ & -> & _).
    pose proof (datum_finite format r n2 u2 Dr) as (_ & -> & _).
    rewrite andb_false_r. cbn [orb delivers].
    destruct (Z.eqb_spec u1 0) as [-> |]; [reflexivity |].
    destruct (Z.eqb_spec u2 0) as [-> |]; [rewrite Z.mul_0_r; reflexivity |]. cbn [orb].
    destruct (Z.eqb_spec (u1 * u2) 0); [nia |].
    pose proof (multiply_represents context Hodd _ _ _ _ _ _
      (finite_unpacks l n1 u1 Hl Dl ltac:(assumption)) (finite_unpacks r n2 u2 Hr Dr ltac:(assumption))
      (xorb n1 n2)) as Hm. cbv zeta.
    destruct (narrow _ _) as [significand is_sticky]. rewrite Hm, flush_result_datum.
    unfold code_round. rewrite (Hh n1 n2 u1 u2 eq_refl eq_refl). reflexivity.
Qed.

Lemma multiply_delivers (lhs rhs : Z) :
  in_format format lhs -> in_format format rhs ->
  product_rounds format rounding (operand lhs) (operand rhs) ->
  delivers format (FpExceptions.union (flags_of lhs) (flags_of rhs))
    (ieee_product_of format rounding control (operand lhs) (operand rhs)) (multiply lhs rhs context).
Proof.
  intros Hl Hr Hh. unfold multiply, flush_pair.
  pose proof (flush_input_datum lhs context Hl) as Fl. pose proof (flush_input_datum rhs context Hr) as Fr.
  cbv zeta in Fl, Fr.
  destruct (flush_input lhs context) as [l fl], (flush_input rhs context) as [r fr].
  destruct Fl as (Hl' & Dl & ->), Fr as (Hr' & Dr & ->). rewrite <- Dl, <- Dr in *.
  apply multiply_data; assumption.
Qed.

(** *** Division *)

Lemma divide_data (l r : Z) (raised : FpExceptions) :
  in_format format l -> in_format format r ->
  quotient_rounds format rounding (datum_of format l) (datum_of format r) ->
  returns
    match nan.propagate [l; r] format control with
    | Some result => mret (with_flags result raised)
    | None =>
    let is_negative := xorb (is_negative format l) (is_negative format r) in
    match divide_specials l r is_negative context with
    | Some result => mret (with_flags result raised)
    | None =>
        let left := unpack l format in
        let right := unpack r format in
        let numerator := wshl 128 (Unpacked.significand left) (significand_scale format) in
        rust_assert (negb (Unpacked.significand right =? 0));;
        let quotient := numerator / Unpacked.significand right in
        let is_sticky := negb (numerator mod Unpacked.significand right =? 0) in
        let value :=
          Unpacked.mk is_negative (Unpacked.exponent left - Unpacked.exponent right) (as_u64 quotient) in
        mret (with_flags (Context.pack context value is_sticky) raised)
    end end
    (delivers format raised (ieee_quotient_of format rounding control (datum_of format l) (datum_of format r))).
Proof.
  intros Hl Hr Hh. pose proof (propagate_delivers [l; r] format control raised) as Hn. cbn [map] in Hn.
  unfold divide_specials. rewrite !is_infinite_datum, !is_zero_datum by assumption.
  destruct (datum_of format l) as [s1 | n1 | n1 u1] eqn:Dl, (datum_of format r) as [s2 | n2 | n2 u2] eqn:Dr;
    cbn [nan_among foldr] in Hn;
    try (destruct Hn as (result & -> & Hd); apply returns_ret; exact Hd);
    rewrite Hn; cbn [andb orb ieee_quotient_of].
  - apply returns_ret. reflexivity.
  - destruct (datum_infinite format l n1 Hl Dl) as [-> _], (datum_finite format r n2 u2 Dr) as (_ & -> & _).
    apply returns_ret. reflexivity.
  - destruct (datum_finite format l n1 u1 Dl) as (_ & -> & _), (datum_infinite format r n2 Hr Dr) as [-> _].
    rewrite andb_false_r. apply returns_ret. reflexivity.
  - pose proof (datum_finite format l n1 u1 Dl) as (_ & -> & _).
    pose proof (datum_finite format r n2 u2 Dr) as (_ & -> & _).
    pose proof (finite_nonneg l n1 u1 Dl). pose proof (finite_nonneg r n2 u2 Dr).
    destruct (Z.eqb_spec u1 0), (Z.eqb_spec u2 0); cbn [andb orb]; try (apply returns_ret; reflexivity).
    pose proof (finite_unpacks l n1 u1 Hl Dl ltac:(assumption)) as U1.
    pose proof (finite_unpacks r n2 u2 Hr Dr ltac:(assumption)) as U2.
    pose proof (unpacks_bounds format _ _ _ U2) as (_ & Hq & _). cbv zeta.
    destruct (Z.eqb_spec (Unpacked.significand (unpack r format)) 0); [lia |].
    cbn [negb rust_assert]. apply returns_ret. cbn [delivers].
    pose proof (divide_represents context Hodd _ _ _ _ _ _ U1 U2 (xorb n1 n2)) as Hm. cbv zeta in Hm.
    rewrite Hm, flush_result_datum. unfold code_round.
    rewrite (Hh n1 n2 u1 u2 eq_refl eq_refl) by lia. reflexivity.
Qed.

Lemma divide_delivers (lhs rhs : Z) :
  in_format format lhs -> in_format format rhs ->
  quotient_rounds format rounding (operand lhs) (operand rhs) ->
  returns (divide lhs rhs context)
    (delivers format (FpExceptions.union (flags_of lhs) (flags_of rhs))
       (ieee_quotient_of format rounding control (operand lhs) (operand rhs))).
Proof.
  intros Hl Hr Hh. unfold divide, flush_pair.
  pose proof (flush_input_datum lhs context Hl) as Fl. pose proof (flush_input_datum rhs context Hr) as Fr.
  cbv zeta in Fl, Fr.
  destruct (flush_input lhs context) as [l fl], (flush_input rhs context) as [r fr].
  destruct Fl as (Hl' & Dl & ->), Fr as (Hr' & Dr & ->). rewrite <- Dl, <- Dr in *.
  apply divide_data; assumption.
Qed.

(** *** Square root *)

(** A root is never subnormal. *)
Lemma root_normal (bits : Z) (u : Z) :
  unpacks_to format (unpack bits format) false u ->
  (unit_exponent format + Z.log2 u) / 2 = Unpacked.exponent (unpack bits format) / 2 /\
  min_exponent format <= Unpacked.exponent (unpack bits format) / 2.
Proof.
  intros Hv. destruct (unpacks_log2 format _ _ _ Hv) as [_ Hl]. destruct Hv as (_ & _ & _ & HE & _).
  pose proof (format_bounds format) as Hf. split; [f_equal; lia |].
  unfold unit_exponent, min_exponent in *.
  assert (mantissa_bits format + 1 <= exponent_bias format) by (destruct format; vm_compute; discriminate).
  Z.to_euclidean_division_equations; lia.
Qed.

Lemma square_root_delivers (value : Z) :
  in_format format value ->
  delivers format (flags_of value) (ieee_root_of format rounding control (operand value))
    (square_root value context).
Proof.
  intros Hv. unfold square_root. pose proof (flush_input_datum value context Hv) as F. cbv zeta in F.
  destruct (flush_input value context) as [bits raised]. destruct F as (Hb & <- & ->).
  generalize (flags_of value) as raised. intros raised.
  pose proof (propagate_delivers [bits] format control raised) as Hn. cbn [map] in Hn.
  rewrite is_zero_datum, is_infinite_datum by exact Hb.
  destruct (datum_of format bits) as [s | n | n u] eqn:D; cbn [nan_among foldr] in Hn;
    [destruct Hn as (result & -> & Hd); exact Hd | |]; rewrite Hn; cbn [ieee_root_of].
  - destruct (datum_infinite format bits n Hb D) as [-> ->]. destruct n; reflexivity.
  - pose proof (datum_finite format bits n u D) as (Hfin & Hneg & Hu). rewrite Hneg.
    destruct (Z.eqb_spec u 0) as [-> |].
    + cbn [delivers]. rewrite <- Hneg, <- (zero_bits format bits Hb); [reflexivity |].
      pose proof (abs_units format bits). lia.
    + destruct n; [reflexivity |]. cbn [delivers].
      pose proof (finite_unpacks bits false u Hb D ltac:(assumption)) as U.
      pose proof (root_represents context Hodd _ _ _ U) as Hm. destruct (root_normal bits u U) as [-> Hmin].
      destruct (integer_square_root _ _) as [significand is_sticky]. rewrite Hm, flush_result_datum.
      unfold code_round, halves. destruct (Z.ltb_spec (Unpacked.exponent (unpack bits format) / 2) (min_exponent format));
        [lia | reflexivity].
Qed.

End Operations.

(** ** The extrema *)

(** [lhs] or [rhs] by value, the zeros by sign; a lone quiet NaN gives way to a
    number where the operation has it so. *)
Definition ieee_extremum_of (format : FpFormat) (which : Extremum) (lhs rhs : Z) : outcome :=
  let is_ignored s := Extremum.ignores_quiet_nan which && negb s in
  match datum_of format lhs, datum_of format rhs with
  | NaN s1, NaN s2 => QuietNaN (s1 || s2)
  | NaN s, _ => if is_ignored s then Number (FpResult.exact rhs) else QuietNaN s
  | _, NaN s => if is_ignored s then Number (FpResult.exact lhs) else QuietNaN s
  | _, _ =>
      let l := units format lhs in
      let r := units format rhs in
      Number (FpResult.exact
        (if (l =? 0) && (r =? 0) then
           zero format
             (if Extremum.is_maximum which then is_negative format lhs && is_negative format rhs
              else is_negative format lhs || is_negative format rhs)
         else if (if Extremum.is_maximum which then r <? l else l <? r) then lhs else rhs))
  end.

Lemma extremum_ordered (format : FpFormat) (which : Extremum) (lhs rhs : Z) :
  in_format format lhs -> in_format format rhs ->
  (if is_zero format lhs && is_zero format rhs then
     FpResult.exact (zero format
       (if Extremum.is_maximum which then is_negative format lhs && is_negative format rhs
        else is_negative format lhs || is_negative format rhs))
   else
     FpResult.exact
       (if eqb (match compare.ordering lhs rhs format with FpComparison.Greater => true | _ => false end)
             (Extremum.is_maximum which) then lhs else rhs)) =
  FpResult.exact
    (let l := units format lhs in
     let r := units format rhs in
     if (l =? 0) && (r =? 0) then
       zero format
         (if Extremum.is_maximum which then is_negative format lhs && is_negative format rhs
          else is_negative format lhs || is_negative format rhs)
     else if (if Extremum.is_maximum which then r <? l else l <? r) then lhs else rhs).
Proof.
  intros Hl Hr. rewrite !is_zero_spec, ordering_units by assumption. cbv zeta.
  destruct ((units format lhs =? 0) && (units format rhs =? 0)) eqn:Hz; [reflexivity |].
  f_equal. destruct (Z.compare_spec (units format lhs) (units format rhs)) as [He | Hlt | Hgt]; cbn [order_of].
  - assert (lhs = rhs) as ->; [| destruct (eqb _ _), (if Extremum.is_maximum which then _ else _); reflexivity].
    apply (same_units_same_bits format); try assumption.
    intros H0. rewrite <- He, H0 in Hz. discriminate Hz.
  - destruct (Z.ltb_spec (units format rhs) (units format lhs)); [lia |].
    destruct (Z.ltb_spec (units format lhs) (units format rhs)); [| lia].
    destruct (Extremum.is_maximum which); reflexivity.
  - destruct (Z.ltb_spec (units format rhs) (units format lhs)); [| lia].
    destruct (Z.ltb_spec (units format lhs) (units format rhs)); [lia |].
    destruct (Extremum.is_maximum which); reflexivity.
Qed.

Lemma extremum_delivers (lhs rhs : Z) (which : Extremum) (format : FpFormat) (control : FpControl) :
  in_format format lhs -> in_format format rhs ->
  delivers format FpExceptions.NONE (ieee_extremum_of format which lhs rhs)
    (compare.extremum lhs rhs which format control).
Proof.
  intros Hl Hr. pose proof (propagate_delivers [lhs; rhs] format control FpExceptions.NONE) as Hn.
  unfold compare.extremum, compare.numeric_nan_case, nan.signalling_among, ieee_extremum_of.
  cbn [map existsb] in *. rewrite orb_false_r, !is_nan_datum, !is_signalling_datum.
  destruct (datum_of format lhs) as [s1 | n1 | n1 u1] eqn:Dl, (datum_of format rhs) as [s2 | n2 | n2 u2] eqn:Dr;
    cbn [nan_among foldr] in Hn; cbn [orb]; rewrite ?orb_false_r, ?orb_false_l.
  all: try (destruct Hn as (result & -> & Hd); rewrite with_no_flags in Hd;
    destruct (Extremum.ignores_quiet_nan which); cbn [negb andb]; try exact Hd;
    repeat match goal with s : bool |- _ => destruct s end; cbn [orb negb andb] in *;
    exact Hd || (cbn [delivers]; rewrite with_no_flags; reflexivity)).
  all: rewrite Hn; destruct (negb _); cbn [delivers]; rewrite with_no_flags; apply extremum_ordered; assumption.
Qed.

(** ** Conversions *)

(** ** References *)

(** To an integer: the bound with IOC for what is outside the target or no
    number, zero for a NaN. *)
Definition ieee_integer_of (format : FpFormat) (rounding : FpRounding) (target : IntFormat)
    (d : datum) : FpResult :=
  let bound := 2 ^ IntFormat.bits target in
  match d with
  | NaN _ => FpResult.mk 0 FpExceptions.INVALID
  | Infinite n =>
      FpResult.mk ((if n then int_min target else int_max target) mod bound) FpExceptions.INVALID
  | Finite neg u =>
      let x := ratio u 1 (unit_exponent format) in
      let n := signed neg (rounded rounding neg x 0) in
      if u =? 0 then FpResult.exact 0
      else if negb (IntFormat.is_signed target) && neg then FpResult.mk 0 FpExceptions.INVALID
      else if n <? int_min target then FpResult.mk (int_min target mod bound) FpExceptions.INVALID
      else if int_max target <? n then FpResult.mk (int_max target mod bound) FpExceptions.INVALID
      else FpResult.mk (n mod bound) (if exact_at x 0 then FpExceptions.NONE else FpExceptions.INEXACT)
  end.

(** To another format. *)
Definition ieee_conversion_of (source target : FpFormat) (rounding : FpRounding) (control : FpControl)
    (d : datum) : outcome :=
  match d with
  | NaN s => QuietNaN s
  | Infinite n => Number (FpResult.exact (signed_infinity target n))
  | Finite n u =>
      Number
        (if u =? 0 then FpResult.exact (zero target n)
         else flushed_result target control
                (ieee_round target rounding n (ratio u 1 (unit_exponent source))
                   (unit_exponent source + Z.log2 u)))
  end.

Definition conversion_rounds (source target : FpFormat) (rounding : FpRounding) (d : datum) : Prop :=
  forall n u, d = Finite n u ->
  halves target rounding n (ratio u 1 (unit_exponent source)) (unit_exponent source + Z.log2 u) = false.

(** To an integral value of the format. *)
Definition ieee_integral_of (format : FpFormat) (rounding : FpRounding) (d : datum) : outcome :=
  match d with
  | NaN s => QuietNaN s
  | Infinite n => Number (FpResult.exact (signed_infinity format n))
  | Finite n u =>
      let r := rounded rounding n (ratio u 1 (unit_exponent format)) 0 in
      Number (if r =? 0 then FpResult.exact (zero format n)
              else ieee_round format rounding n (ratio r 1 0) (Z.log2 r))
  end.

(** ** To integers *)

Lemma to_integer_delivers (bits : Z) (format : FpFormat) (target : IntFormat) (rounding : FpRounding) :
  int_format_ok target -> in_format format bits -> rounding <> FpRounding.Odd ->
  (forall n u, datum_of format bits = Finite n u -> u < 2 ^ (128 - unit_exponent format)) ->
  to_integer bits format target rounding = ieee_integer_of format rounding target (datum_of format bits).
Proof.
  intros Hw Hb Hodd Hlt. destruct (datum_of format bits) as [s | n | n u] eqn:D; cbn [ieee_integer_of].
  - unfold to_integer. rewrite is_nan_datum, D. reflexivity.
  - unfold to_integer. rewrite is_nan_datum, is_infinite_datum, D, saturate_spec by exact Hw.
    destruct (datum_infinite format bits n Hb D) as [-> _]. reflexivity.
  - specialize (Hlt n u eq_refl). destruct (datum_finite format bits n u D) as (Hfin & <- & <-).
    rewrite to_integer_spec by assumption. unfold integer_result.
    destruct (exact_at _ 0); reflexivity.
Qed.

(** ** Between formats *)

Lemma lor_land_self (a b : Z) : Z.land (Z.lor a b) b = b.
Proof.
  apply Z.bits_inj'. intros i _. rewrite Z.land_spec, Z.lor_spec.
  destruct (Z.testbit a i), (Z.testbit b i); reflexivity.
Qed.

(** Any bits with the exponent and the quiet bit set. *)
Lemma quiet_pattern (format : FpFormat) (a b : Z) :
  quiet_nan format (Z.lor (Z.lor (Z.lor a (infinity format)) (quiet_bit format)) b).
Proof.
  pose proof (format_bounds format) as Hf.
  replace (Z.lor (Z.lor (Z.lor a (infinity format)) (quiet_bit format)) b)
    with (Z.lor (Z.lor (Z.lor a b) (quiet_bit format)) (infinity format))
    by (apply Z.bits_inj'; intros i _; rewrite !Z.lor_spec;
        destruct (Z.testbit a i), (Z.testbit b i), (Z.testbit (infinity format) i),
          (Z.testbit (quiet_bit format) i); reflexivity).
  apply quiet_nan_intro.
  - rewrite <- land_raw, <- max_exponent_eq. unfold wshr. rewrite Z.shiftr_lor.
    assert (Z.shiftr (infinity format) (mantissa_bits format mod 64) = max_exponent format) as ->
      by (destruct format; reflexivity).
    apply lor_land_self.
  - rewrite quiet_bit_eq, !Z.lor_spec, Z.pow2_bits_true, orb_true_r by lia. reflexivity.
Qed.

Lemma convert_delivers (bits : Z) (source target : FpFormat) (control : FpControl)
    (rounding : FpRounding) :
  in_format source bits -> rounding <> FpRounding.Odd ->
  conversion_rounds source target rounding (datum_of source bits) ->
  delivers target FpExceptions.NONE
    (ieee_conversion_of source target rounding control (datum_of source bits))
    (convert_format bits source target control rounding).
Proof.
  intros Hb Hodd Hh. destruct (datum_of source bits) as [s | n | n u] eqn:D; cbn [ieee_conversion_of].
  - unfold convert_format. rewrite is_nan_datum, D. unfold convert_nan. rewrite is_signalling_datum, D.
    destruct (FpControl.is_default_nan control); (split; [| destruct s; reflexivity]).
    + apply default_nan_quiet.
    + apply quiet_pattern.
  - unfold convert_format. rewrite is_nan_datum, is_infinite_datum, D.
    destruct (datum_infinite source bits n Hb D) as [-> _]. symmetry. apply with_no_flags.
  - destruct (datum_finite source bits n u D) as (Hfin & Hn & Hu). cbn [delivers].
    rewrite with_no_flags, convert_format_spec, flush_result_datum by assumption. cbv zeta.
    rewrite Hn, Hu. unfold code_round. rewrite (Hh n u eq_refl). reflexivity.
Qed.

(** ** To an integral value *)

Lemma round_to_integral_delivers (bits : Z) (format : FpFormat) (rounding : FpRounding)
    (control : FpControl) :
  in_format format bits -> rounding <> FpRounding.Odd ->
  delivers format FpExceptions.NONE (ieee_integral_of format rounding (datum_of format bits))
    (round_to_integral bits format rounding control).
Proof.
  intros Hb Hodd.
  pose proof (propagate_delivers [bits] format control FpExceptions.NONE) as Hn. cbn [map] in Hn.
  destruct (datum_of format bits) as [s | n | n u] eqn:D; cbn [nan_among foldr] in Hn; cbn [ieee_integral_of].
  - unfold round_to_integral. destruct Hn as (result & -> & Hd). rewrite with_no_flags in Hd. exact Hd.
  - unfold round_to_integral. rewrite Hn, is_infinite_datum, D. cbn [orb delivers].
    rewrite with_no_flags. destruct (datum_infinite format bits n Hb D) as [_ ->]. reflexivity.
  - destruct (datum_finite format bits n u D) as (Hfin & <- & <-). cbn [delivers].
    rewrite with_no_flags. apply round_to_integral_spec; assumption.
Qed.

(** ** From integers *)

Lemma from_integer_flushed (value : Z) (source : IntFormat) (target : FpFormat)
    (rounding : FpRounding) (control : FpControl) :
  int_format_ok source -> in_range 64 value -> rounding <> FpRounding.Odd ->
  let n := int_value source value in
  from_integer value source target rounding control =
  if n =? 0 then FpResult.exact (zero target false)
  else flushed_result target control
         (ieee_round target rounding (n <? 0) (ratio (Z.abs n) 1 0) (Z.log2 (Z.abs n))).
Proof. intros Hw Hv Hodd n. rewrite <- flush_result_datum. apply from_integer_spec; assumption. Qed.
