(* ===== verification/FpMultiplyAdd.v ===== *)
(** The fused multiply-add rounds the exact sum once, and delivers what IEEE 754
    has it answer ([crates/core/src/fp/softfloat/fused.rs]), where nothing that the
    alignment shifts out has to be borrowed. *)

From stdpp Require Import base numbers list option.
From S2P Require Import Prelude FpOperand FpDecompose FpCompare FpArithmetic FpFused FpMagnitude.
From S2P Require Import FpRound FpValues FpAddition FpInteger FpData.

#[local] Open Scope Z_scope.

Import FpFormat decompose arithmetic fused.

Lemma shift_right_sticky_spec (q shift : Z) :
  0 <= q < 2 ^ 128 -> 0 <= shift ->
  shift_right_sticky q shift = (q / 2 ^ shift, negb (q mod 2 ^ shift =? 0)).
Proof.
  intros Hq Hs. unfold shift_right_sticky. destruct (Z.leb_spec 128 shift).
  - assert (2 ^ 128 <= 2 ^ shift) by (apply Z.pow_le_mono_r; lia).
    rewrite Z.div_small, Z.mod_small by lia. reflexivity.
  - pose proof (pow2_pos shift ltac:(lia)).
    assert (2 ^ shift < 2 ^ 128) by (apply Z.pow_lt_mono_r; lia).
    rewrite (wshl_small 128 1 shift), Z.mul_1_l by (lia || (rewrite Z.mul_1_l; split; lia)).
    unfold wsub. rewrite wrap_small by (split; lia). rewrite land_low, wshr_div by lia. reflexivity.
Qed.

Lemma represents_shift_sticky (x : magnitude) (q k j : Z) (st : bool) :
  magnitude_ok x -> 0 <= j -> represents_at x q st k ->
  represents_at x (q / 2 ^ j) (st || negb (q mod 2 ^ j =? 0)) (k + j).
Proof.
  intros Hx Hj Hrep. destruct (Z.eq_dec j 0) as [-> | Hj0].
  - rewrite Z.div_1_r, Z.mod_1_r, Z.add_0_r, orb_false_r. exact Hrep.
  - apply (tracks_shr x Hx q st k j); [lia |]. apply represents_tracks; assumption.
Qed.

Section Fma.

Context (context : Context).

#[local] Abbreviation format := (Context.format context).
#[local] Abbreviation rounding := (Context.rounding context).
#[local] Abbreviation e0 := (unit_exponent format).
#[local] Abbreviation s := (mantissa_bits format + 3).

Context (Hflush : flushing format (Context.control context) = false).
Context (Hr : rounding <> FpRounding.Odd).

Lemma round_wide_spec (x : magnitude) (neg st : bool) (E W e : Z) :
  magnitude_ok x -> 0 < W < 2 ^ 128 -> (st = true -> 2 ^ (2 * s) <= W) ->
  represents_at x W st (E - 2 * s) -> floor_at x e = 1 -> - 2 ^ 20 <= e <= 2 ^ 20 ->
  round_wide (ExactProduct.mk neg E W) st context = code_round format rounding neg x e.
Proof.
  intros Hx HW Hst Hrep He Hb. pose proof (format_bounds format) as Hf.
  unfold round_wide, GUARD_BITS. cbn [ExactProduct.significand ExactProduct.exponent ExactProduct.is_negative].
  destruct (Z.eqb_spec W 0); [lia |]. unfold leading_zeros. destruct (Z.eqb_spec W 0); [lia |].
  replace (127 - (128 - 1 - Z.log2 W)) with (Z.log2 W) by lia.
  pose proof (Z.log2_spec W ltac:(lia)) as Hl. pose proof (Z.log2_nonneg W).
  assert (2 ^ (2 * s + 1) <= 2 ^ 112) by (apply Z.pow_le_mono_r; lia). cbv zeta.
  assert (exists W' E' st',
    (if 2 * s <? Z.log2 W then
       let '(shifted, discarded) := shift_right_sticky W (Z.log2 W - 2 * s) in
       (shifted, st || discarded, E + (Z.log2 W - 2 * s))
     else (wshl 128 W (2 * s - Z.log2 W), st, E - (2 * s - Z.log2 W))) = (W', st', E') /\
    2 ^ (2 * s) <= W' < 2 ^ (2 * s + 1) /\ represents_at x W' st' (E' - 2 * s))
    as (W' & E' & st' & -> & HW' & Hrep').
  { destruct (Z.ltb_spec (2 * s) (Z.log2 W)).
    - rewrite shift_right_sticky_spec by lia. cbv zeta.
      eexists _, _, _. split; [reflexivity |]. set (d := Z.log2 W - 2 * s). split.
      + pose proof (div_pow_bounds W (Z.log2 W) d ltac:(lia) ltac:(rewrite Z.add_1_r; exact Hl)) as Hd.
        replace (Z.log2 W - d) with (2 * s) in Hd by lia. exact Hd.
      + replace (E + d - 2 * s) with (E - 2 * s + d) by lia.
        apply represents_shift_sticky; assumption || lia.
    - set (d := 2 * s - Z.log2 W). pose proof (pow2_pos d ltac:(lia)) as Hpd.
      assert (2 ^ (2 * s) <= W * 2 ^ d < 2 ^ (2 * s + 1)) as Hbound.
      { assert (2 ^ (2 * s) = 2 ^ Z.log2 W * 2 ^ d) as ->
          by (rewrite <- Z.pow_add_r by lia; f_equal; lia).
        replace (2 * s + 1) with (Z.succ (Z.log2 W) + d) by lia. rewrite (Z.pow_add_r 2 (Z.succ _)) by lia. nia. }
      cbv zeta. assert (2 ^ 112 < 2 ^ 128) by reflexivity.
      rewrite wshl_small by (lia || (split; lia)).
      eexists _, _, _. split; [reflexivity |]. split; [exact Hbound |].
      destruct st.
      + specialize (Hst eq_refl). assert (d = 0) as ->.
        { enough (2 * s <= Z.log2 W) by lia. apply Z.log2_le_pow2; lia. }
        rewrite Z.mul_1_r, Z.sub_0_r. exact Hrep.
      + replace (E - d - 2 * s) with (E - 2 * s - d) by lia. apply represents_shl; assumption || lia. }
  assert (2 ^ 112 < 2 ^ 128) by reflexivity.
  rewrite shift_right_sticky_spec by (pose proof (pow2_pos (2 * s)); lia).
  pose proof (div_pow_bounds W' (2 * s) s ltac:(lia) HW') as Hq. replace (2 * s - s) with s in Hq by lia.
  assert (2 ^ (s + 1) <= 2 ^ 60) by (apply Z.pow_le_mono_r; lia). pose proof (pow2_pos s ltac:(lia)).
  unfold as_u64. rewrite wrap_small by (split; lia).
  rewrite <- (no_output_flush (code_round _ _ _ _ _) format (Context.control context) Hflush).
  apply (pack_magnitude context Hr); try assumption; [lia | |].
  - intros _. apply (Z.le_trans _ (2 ^ s)); [apply Z.pow_le_mono_r; lia | lia].
  - replace (E' - s) with (E' - 2 * s + s) by lia. apply represents_shift_sticky; assumption || lia.
Qed.

(** ** Two wide values *)

(** [u] units of [2^(2 e0)], as a wide significand. *)
Definition wide (W E u : Z) : Prop :=
  2 ^ (2 * s) <= W < 2 ^ (2 * s + 2) /\ 2 * e0 <= E <= 2100 /\ u * 2 ^ (2 * s) = W * 2 ^ (E - 2 * e0).

Lemma wide_log2 (W E u : Z) :
  wide W E u -> 0 < u /\ E - 2 * e0 <= Z.log2 u <= E - 2 * e0 + 1.
Proof.
  intros (HW & HE & Hu). pose proof (format_bounds format). pose proof (pow2_pos (2 * s) ltac:(lia)) as Hp.
  pose proof (pow2_pos (E - 2 * e0) ltac:(lia)). rewrite (Z.pow_add_r 2 (2 * s) 2) in HW by lia. change (2 ^ 2) with 4 in HW.
  assert (2 ^ (E - 2 * e0) <= u < 4 * 2 ^ (E - 2 * e0)) as Hb by nia. split; [lia |].
  split; [apply Z.log2_le_pow2; lia |]. apply Z.lt_succ_r, Z.log2_lt_pow2; [lia |].
  replace (Z.succ (E - 2 * e0 + 1)) with (2 + (E - 2 * e0)) by lia. rewrite Z.pow_add_r by lia. lia.
Qed.

Lemma wide_represents (W E u : Z) :
  wide W E u -> represents_at (ratio u 1 (2 * e0)) W false (E - 2 * s).
Proof.
  intros (_ & HE & Hu). pose proof (format_bounds format).
  pose proof (pow2_pos (E - 2 * e0) ltac:(lia)). change false with (negb (0 =? 0)).
  apply represents_ratio with (2 * s); try lia;
    replace (2 * s + (E - 2 * s) - 2 * e0) with (E - 2 * e0) by lia; lia.
Qed.

(** After alignment: the sum with its sticky bit, and both values when there is
    nothing to stick. *)
Definition aligned (a1 a2 E u1 u2 : Z) (st : bool) : Prop :=
  represents_at (ratio (u1 + u2) 1 (2 * e0)) (a1 + a2) st (E - 2 * s) /\
  2 ^ (2 * s) <= a1 + a2 < 2 ^ (2 * s + 3) /\ 0 <= a1 /\ 0 <= a2 /\ 2 * e0 <= E <= 2100 /\
  (st = false -> u1 * 2 ^ (2 * s) = a1 * 2 ^ (E - 2 * e0) /\ u2 * 2 ^ (2 * s) = a2 * 2 ^ (E - 2 * e0)).

Lemma aligned_comm (a1 a2 E u1 u2 : Z) (st : bool) :
  aligned a1 a2 E u1 u2 st -> aligned a2 a1 E u2 u1 st.
Proof.
  intros (Hrep & Hb & H1 & H2 & HE & Hst). unfold aligned. rewrite (Z.add_comm a2), (Z.add_comm u2).
  repeat (split; [assumption |]). intros Hf. destruct (Hst Hf). split; assumption.
Qed.

Lemma align_larger (W1 E1 u1 W2 E2 u2 : Z) :
  wide W1 E1 u1 -> wide W2 E2 u2 -> E2 <= E1 ->
  aligned W1 (W2 / 2 ^ (E1 - E2)) E1 u1 u2 (negb (W2 mod 2 ^ (E1 - E2) =? 0)).
Proof.
  intros (HW1 & HE1 & Hu1) (HW2 & HE2 & Hu2) Hle. pose proof (format_bounds format) as Hf.
  pose proof (pow2_pos (2 * s) ltac:(lia)) as Hp.
  assert (2 ^ (E1 - 2 * e0) = 2 ^ (E1 - E2) * 2 ^ (E2 - 2 * e0)) as Hd
    by (rewrite <- Z.pow_add_r by lia; f_equal; lia).
  pose proof (pow2_pos (E1 - E2) ltac:(lia)) as Hpd. pose proof (pow2_pos (E2 - 2 * e0) ltac:(lia)) as HpP.
  set (d := 2 ^ (E1 - E2)) in *. set (P2 := 2 ^ (E2 - 2 * e0)) in *.
  pose proof (Z.mod_pos_bound W2 d ltac:(lia)). pose proof (Z.div_mod W2 d ltac:(lia)).
  assert (0 <= W2 / d <= W2) by (split; [apply Z.div_pos; lia | apply Z.div_le_upper_bound; nia]).
  unfold aligned. rewrite (Z.pow_add_r 2 (2 * s) 3), (Z.pow_add_r 2 (2 * s) 2) in * by lia.
  change (2 ^ 2) with 4 in *. change (2 ^ 3) with 8.
  split; [| split; [lia |]; split; [lia |]; split; [lia |]; split; [lia |]].
  - replace (W2 mod d =? 0) with (W2 mod d * P2 =? 0) by (apply eq_true_iff_eq; rewrite !Z.eqb_eq; nia).
    apply represents_ratio with (2 * s); try lia;
      replace (2 * s + (E1 - 2 * s) - 2 * e0) with (E1 - 2 * e0) by lia; rewrite Hd; nia.
  - intros Hst. apply negb_false_iff, Z.eqb_eq in Hst. rewrite Hd in *. split; [exact Hu1 |]. nia.
Qed.

Lemma align_term_spec (Wp Ep up Wa Ea ua : Z) :
  wide Wp Ep up -> wide Wa Ea ua ->
  let '(ap, aa, E, st) := align Wp Ep Wa Ea in aligned ap aa E up ua st.
Proof.
  intros Hp Ha. pose proof (format_bounds format) as Hf. unfold align, as_u32.
  assert (2 ^ (2 * s + 2) <= 2 ^ 112 /\ 2 ^ 112 < 2 ^ 128) as [Hs1 Hs2]
    by (split; [apply Z.pow_le_mono_r; lia | reflexivity]).
  pose proof (pow2_pos (2 * s) ltac:(lia)).
  assert (- 1100 <= e0 <= 0) as He0 by (unfold unit_exponent, min_exponent; lia).
  pose proof Hp as (Hp1 & Hp2 & _). pose proof Ha as (Ha1 & Ha2 & _).
  destruct (Z.leb_spec Ea Ep).
  - rewrite wrap_small, shift_right_sticky_spec by (lia || (split; lia)). apply align_larger; assumption.
  - rewrite wrap_small, shift_right_sticky_spec by (lia || (split; lia)). apply aligned_comm, align_larger; assumption || lia.
Qed.

(** ** The accumulation *)

(** The rounded sum of [p] and [a] units of [2^(2 e0)]. *)
Definition rounded_sum (np na : bool) (p a : Z) : FpResult :=
  let sum := p + a in
  if sum =? 0
  then FpResult.exact (zero format (if eqb np na then np else is_minus rounding))
  else code_round format rounding (sum <? 0) (ratio (Z.abs sum) 1 (2 * e0))
         (2 * e0 + Z.log2 (Z.abs sum)).

Lemma rounded_sum_nonzero (np na neg : bool) (p a u : Z) :
  0 < u -> p + a = signed neg u ->
  rounded_sum np na p a = code_round format rounding neg (ratio u 1 (2 * e0)) (2 * e0 + Z.log2 u).
Proof.
  intros Hu Hs. unfold rounded_sum, signed in *. rewrite Hs.
  replace (Z.abs (if neg then - u else u)) with u by (destruct neg; lia).
  destruct (Z.eqb_spec (if neg then - u else u) 0); [destruct neg; lia |].
  f_equal. destruct neg; [apply Z.ltb_lt | apply Z.ltb_ge]; lia.
Qed.

(** The part of [accumulate] after the alignment. *)
Definition accumulate_aligned (np na : bool) (ap aa E : Z) (is_sticky : bool) : FpResult :=
  let '(significand, is_negative) :=
    if eqb np na then (wadd 128 ap aa, np)
    else if aa <=? ap then (wsub 128 ap aa, np) else (wsub 128 aa ap, na) in
  if (significand =? 0) && negb is_sticky
  then FpResult.exact (zero format (is_minus rounding))
  else
    round_wide (ExactProduct.mk is_negative E significand)
      (is_sticky && negb (significand =? 0)) context.

Lemma round_aligned (neg : bool) (W E u : Z) (st : bool) :
  represents_at (ratio u 1 (2 * e0)) W st (E - 2 * s) -> 0 < W < 2 ^ 128 ->
  (st = true -> 2 ^ (2 * s) <= W) -> 0 < u -> Z.log2 u <= 2 ^ 19 ->
  round_wide (ExactProduct.mk neg E W) st context =
  code_round format rounding neg (ratio u 1 (2 * e0)) (2 * e0 + Z.log2 u).
Proof.
  intros Hrep HW Hst Hu Hlog. pose proof (format_bounds format). pose proof (Z.log2_nonneg u).
  apply round_wide_spec; try assumption; [apply ratio_ok; lia | apply ratio_exponent; exact Hu |].
  unfold unit_exponent, min_exponent. lia.
Qed.

Lemma accumulate_aligned_spec (np na : bool) (ap aa E up ua : Z) (st : bool) :
  aligned ap aa E up ua st -> 0 < up -> 0 < ua -> Z.log2 (up + ua) <= 2 ^ 19 ->
  eqb np na = true \/ st = false ->
  accumulate_aligned np na ap aa E st = rounded_sum np na (signed np up) (signed na ua).
Proof.
  intros (Hrep & Hb & Hap & Haa & HE & Hst) Hup Hua Hlog Hcase. pose proof (format_bounds format) as Hf.
  assert (2 ^ (2 * s + 3) <= 2 ^ 113 /\ 2 ^ 113 < 2 ^ 128) as [Hs1 Hs2]
    by (split; [apply Z.pow_le_mono_r; lia | reflexivity]).
  pose proof (pow2_pos (2 * s) ltac:(lia)) as Hps. unfold accumulate_aligned.
  destruct (eqb np na) eqn:En.
  - apply eqb_prop in En as <-. unfold wadd. rewrite wrap_small by (split; lia).
    destruct (Z.eqb_spec (ap + aa) 0); [lia |]. cbn [andb negb]. rewrite andb_true_r.
    rewrite (round_aligned np (ap + aa) E (up + ua)) by (lia || assumption).
    symmetry. apply rounded_sum_nonzero; [lia | destruct np; cbn [signed]; lia].
  - destruct Hcase as [| ->]; [discriminate |]. destruct (Hst eq_refl) as [Hu1 Hu2].
    pose proof (pow2_pos (E - 2 * e0) ltac:(lia)) as HpE.
    assert (forall neg a1 a2 u1 u2, a2 < a1 -> 0 <= a2 -> a1 < 2 ^ 128 ->
      u1 * 2 ^ (2 * s) = a1 * 2 ^ (E - 2 * e0) -> u2 * 2 ^ (2 * s) = a2 * 2 ^ (E - 2 * e0) ->
      0 < u2 -> u1 <= up + ua -> signed np up + signed na ua = signed neg (u1 - u2) ->
      round_wide (ExactProduct.mk neg E (a1 - a2)) false context =
      rounded_sum np na (signed np up) (signed na ua)) as Hround.
    { intros neg a1 a2 u1 u2 Hlt H2 H1 Hx1 Hx2 Hu2' Hle Hsum. assert (u2 < u1) by nia.
      rewrite (rounded_sum_nonzero np na neg _ _ (u1 - u2)) by (lia || assumption).
      apply round_aligned; [| lia | discriminate | lia |].
      - change false with (negb (0 =? 0)). apply represents_ratio with (2 * s); try lia;
          replace (2 * s + (E - 2 * s) - 2 * e0) with (E - 2 * e0) by lia; nia.
      - assert (Z.log2 (u1 - u2) <= Z.log2 (up + ua)) by (apply Z.log2_le_mono; lia). lia. }
    destruct (Z.leb_spec aa ap) as [Hle | Hgt].
    + unfold wsub. rewrite wrap_small by (split; lia).
      destruct (Z.eqb_spec (ap - aa) 0) as [Hz | Hz]; cbn [andb negb].
      * assert (up = ua) as -> by nia. unfold rounded_sum.
        assert (signed np ua + signed na ua = 0) as ->
          by (destruct np, na; discriminate || (cbn [signed]; lia)). rewrite En. reflexivity.
      * apply (Hround np ap aa up ua); try lia; try assumption.
        destruct np, na; discriminate || (cbn [signed]; lia).
    + unfold wsub. rewrite wrap_small by (split; lia).
      destruct (Z.eqb_spec (aa - ap) 0); [lia |]. cbn [andb negb].
      apply (Hround na aa ap ua up); try lia; try assumption.
      destruct np, na; discriminate || (cbn [signed]; lia).
Qed.

(** ** Packing the operands *)

Lemma product_wide (v1 v2 : Unpacked) (n1 n2 : bool) (u1 u2 : Z) :
  unpacks_to format v1 n1 u1 -> unpacks_to format v2 n2 u2 ->
  wmul 128 (Unpacked.significand v1) (Unpacked.significand v2) =
    Unpacked.significand v1 * Unpacked.significand v2 /\
  wide (Unpacked.significand v1 * Unpacked.significand v2)
    (Unpacked.exponent v1 + Unpacked.exponent v2) (u1 * u2).
Proof.
  intros H1 H2. pose proof (format_bounds format) as Hf.
  pose proof (unpacks_bounds format v1 n1 u1 H1) as (HE1 & Hb1 & He0).
  pose proof (unpacks_bounds format v2 n2 u2 H2) as (HE2 & Hb2 & _).
  destruct H1 as (_ & Hq1 & _ & Hx1 & _ & Hu1), H2 as (_ & Hq2 & _ & Hx2 & _ & Hu2).
  split; [unfold wmul; apply wrap_small; change (2 ^ 56) with 72057594037927936 in *; split; nia |].
  replace (mantissa_bits format + 4) with (s + 1) in * by lia. unfold wide.
  replace (2 * s + 2) with ((s + 1) + (s + 1)) by lia. replace (2 * s) with (s + s) by lia.
  rewrite (Z.pow_add_r 2 (s + 1) (s + 1)), !(Z.pow_add_r 2 s s) by lia.
  pose proof (pow2_pos s ltac:(lia)). split; [nia |]. split; [lia |].
  replace (Unpacked.exponent v1 + Unpacked.exponent v2 - 2 * e0)
    with ((Unpacked.exponent v1 - e0) + (Unpacked.exponent v2 - e0)) by lia.
  rewrite (Z.pow_add_r 2 (Unpacked.exponent v1 - e0)) by lia.
  set (A1 := 2 ^ (Unpacked.exponent v1 - e0)) in *. set (A2 := 2 ^ (Unpacked.exponent v2 - e0)) in *.
  set (P := 2 ^ s) in *. clearbody A1 A2 P.
  transitivity (u1 * P * (u2 * P)); [ring |]. rewrite Hu1, Hu2. ring.
Qed.

Lemma addend_wide (v : Unpacked) (n : bool) (u : Z) :
  unpacks_to format v n u ->
  wshl 128 (Unpacked.significand v) s = Unpacked.significand v * 2 ^ s /\
  wide (Unpacked.significand v * 2 ^ s) (Unpacked.exponent v) (u * 2 ^ (- e0)).
Proof.
  intros Hv. pose proof (format_bounds format) as Hf.
  pose proof (unpacks_bounds format v n u Hv) as (HE & Hb & He0).
  destruct Hv as (_ & Hq & _ & Hx & _ & Hu). pose proof (pow2_pos s ltac:(lia)) as Hp.
  assert (2 ^ s <= 2 ^ 55) by (apply Z.pow_le_mono_r; lia).
  split; [apply wshl_small; [lia |]; change (2 ^ 56) with 72057594037927936 in *;
          change (2 ^ 55) with 36028797018963968 in *; split; nia |].
  replace (mantissa_bits format + 4) with (s + 1) in * by lia. unfold wide.
  replace (2 * s + 2) with (s + 1 + 1 + s) by lia. replace (2 * s) with (s + s) by lia.
  rewrite !(Z.pow_add_r 2 s s), (Z.pow_add_r 2 (s + 1 + 1) s), (Z.pow_add_r 2 (s + 1) 1) by lia.
  change (2 ^ 1) with 2. pose proof (pow2_pos (s + 1) ltac:(lia)).
  split; [nia |]. split; [lia |].
  replace (Unpacked.exponent v - 2 * e0) with ((Unpacked.exponent v - e0) + (- e0)) by lia.
  rewrite (Z.pow_add_r 2 (Unpacked.exponent v - e0)) by lia.
  set (A := 2 ^ (Unpacked.exponent v - e0)) in *. set (B := 2 ^ (- e0)) in *.
  set (P := 2 ^ s) in *. clearbody A B P.
  transitivity (u * P * B * P); [ring |]. rewrite Hu. ring.
Qed.

End Fma.

(** ** Every encoding *)

(** ** Fused multiply-add *)

(** The signs of the product and of the addend as the operation has them. *)
Definition product_sign (format : FpFormat) (operands : FusedOperands) : bool :=
  xorb (xorb (is_negative format (FusedOperands.multiplicand operands))
          (is_negative format (FusedOperands.multiplier operands)))
    (FusedOperands.is_product_negated operands).

Definition addend_sign (format : FpFormat) (operands : FusedOperands) : bool :=
  xorb (is_negative format (FusedOperands.addend operands))
    (FusedOperands.is_addend_negated operands).

(** Both in units of the square of the format's. *)
Definition product_units (format : FpFormat) (operands : FusedOperands) : Z :=
  unsigned_units format (FusedOperands.multiplicand operands) *
  unsigned_units format (FusedOperands.multiplier operands).

Definition addend_units (format : FpFormat) (operands : FusedOperands) : Z :=
  unsigned_units format (FusedOperands.addend operands) * 2 ^ (- unit_exponent format).

Definition fused_total (format : FpFormat) (operands : FusedOperands) : Z :=
  signed (product_sign format operands) (product_units format operands) +
  signed (addend_sign format operands) (addend_units format operands).

Definition ieee_fused (format : FpFormat) (rounding : FpRounding) (operands : FusedOperands) :
    FpResult :=
  let np := product_sign format operands in
  let na := addend_sign format operands in
  let sum := fused_total format operands in
  let e := 2 * unit_exponent format in
  if sum =? 0 then FpResult.exact (zero format (if eqb np na then np else arithmetic.is_minus rounding))
  else ieee_round format rounding (sum <? 0) (ratio (Z.abs sum) 1 e) (e + Z.log2 (Z.abs sum)).

(** Whether bringing the product and the addend onto one exponent shifts a set
    bit out. *)
Definition alignment_loses (format : FpFormat) (operands : FusedOperands) : bool :=
  let left := decompose.unpack (FusedOperands.multiplicand operands) format in
  let right := decompose.unpack (FusedOperands.multiplier operands) format in
  let addend := decompose.unpack (fused.signed_addend operands format) format in
  snd (fused.align (Unpacked.significand left * Unpacked.significand right)
         (Unpacked.exponent left + Unpacked.exponent right)
         (Unpacked.significand addend * 2 ^ (mantissa_bits format + 3)) (Unpacked.exponent addend)).

(** The product as a datum, in units of the square of the format's; [None] for
    an infinity times a zero. *)
Definition fused_product (l r : datum) (is_negated : bool) : option datum :=
  match l, r with
  | Infinite n1, Infinite n2 => Some (Infinite (xorb (xorb n1 n2) is_negated))
  | Infinite n1, Finite n2 u | Finite n1 u, Infinite n2 =>
      if u =? 0 then None else Some (Infinite (xorb (xorb n1 n2) is_negated))
  | Finite n1 u1, Finite n2 u2 => Some (Finite (xorb (xorb n1 n2) is_negated) (u1 * u2))
  | NaN s, _ | _, NaN s => Some (NaN s)
  end.

(** What the operation answers, without flushing. *)
Definition ieee_fused_of (format : FpFormat) (rounding : FpRounding) (operands : FusedOperands) :
    outcome :=
  let l := datum_of format (FusedOperands.multiplicand operands) in
  let r := datum_of format (FusedOperands.multiplier operands) in
  let a := datum_of format (FusedOperands.addend operands) in
  match nan_among [l; r; a] with
  | Some s => QuietNaN s
  | None =>
  match fused_product l r (FusedOperands.is_product_negated operands),
        (if FusedOperands.is_addend_negated operands then negated a else a) with
  | None, _ => Invalid
  | Some (Infinite np), Infinite na =>
      if eqb np na then Number (FpResult.exact (signed_infinity format np)) else Invalid
  | Some (Infinite n), _ | _, Infinite n => Number (FpResult.exact (signed_infinity format n))
  | _, _ => Number (ieee_fused format rounding operands)
  end end.

Lemma signed_addend_spec (format : FpFormat) (operands : FusedOperands) :
  number format (FusedOperands.addend operands) ->
  let bits := fused.signed_addend operands format in
  number format bits /\ is_negative format bits = addend_sign format operands /\
  unsigned_units format bits = unsigned_units format (FusedOperands.addend operands).
Proof.
  intros [Hb Hfin]. unfold fused.signed_addend, addend_sign.
  destruct (FusedOperands.is_addend_negated operands).
  - destruct (flip_sign format _ Hb) as (Hin & Hn & Hr & Hf).
    destruct (flip_sign_units format _ Hb) as [Hfin' _].
    split; [split; [exact Hin | rewrite Hfin'; exact Hfin] |].
    split; [rewrite Hn, xorb_true_r; reflexivity |]. unfold unsigned_units. rewrite Hr, Hf. reflexivity.
  - split; [split; assumption |]. split; [rewrite xorb_false_r; reflexivity | reflexivity].
Qed.

(** A zero product leaves the addend as it is. *)
Lemma zero_product_spec (operands : FusedOperands) (context : Context) :
  let format := Context.format context in
  let np := product_sign format operands in
  let na := addend_sign format operands in
  number format (FusedOperands.addend operands) ->
  product_units format operands = 0 ->
  fused.zero_product (fused.signed_addend operands format) np context =
  rounded_sum context np na (signed np (product_units format operands))
    (signed na (addend_units format operands)).
Proof.
  intros format np na H3 ->. destruct (signed_addend_spec format operands H3) as ([Hab Haf] & Han & Hau).
  set (addend := fused.signed_addend operands format) in *. fold na in Han.
  assert (signed np 0 = 0) as -> by (destruct np; reflexivity).
  pose proof (unsigned_units_nonneg format addend) as Hnn.
  assert (0 < 2 ^ (- unit_exponent format)) as Hp
    by (apply pow2_pos; destruct format; vm_compute; discriminate).
  unfold addend_units. rewrite <- Hau. unfold fused.zero_product. fold format.
  rewrite is_zero_spec, units_zero, Han by exact Hab.
  destruct (Z.eqb_spec (unsigned_units format addend) 0) as [Hz | Hz]; cbn [negb].
  - rewrite Hz, Z.mul_0_l. assert (signed na 0 = 0) as -> by (destruct na; reflexivity).
    unfold rounded_sum. cbn [Z.eqb Z.add]. fold format. destruct na, np; reflexivity.
  - rewrite (rounded_sum_nonzero context np na na _ _
      (unsigned_units format addend * 2 ^ (- unit_exponent format))) by (reflexivity || nia).
    fold format. rewrite <- Han. symmetry. apply rounds_to_encoding; try assumption; [| nia |].
    + intros Hu. apply Hz. rewrite <- abs_units, Hu. reflexivity.
    + intros j. replace (2 * unit_exponent format) with (unit_exponent format - (- unit_exponent format)) by lia.
      apply ratio_shift. destruct format; vm_compute; discriminate.
Qed.

Lemma multiply_add_nonzero (operands : FusedOperands) (context : Context) :
  let format := Context.format context in
  let np := product_sign format operands in
  let na := addend_sign format operands in
  number format (FusedOperands.multiplicand operands) ->
  number format (FusedOperands.multiplier operands) ->
  number format (FusedOperands.addend operands) ->
  flushing format (Context.control context) = false -> Context.rounding context <> FpRounding.Odd ->
  eqb np na = true \/ alignment_loses format operands = false ->
  product_units format operands <> 0 ->
  fused.accumulate (fused.exact_product operands context) (fused.signed_addend operands format) context =
  rounded_sum context np na (signed np (product_units format operands))
    (signed na (addend_units format operands)).
Proof.
  intros format np na H1 H2 H3 Hflush Hodd Hcase Hp. pose proof (format_bounds format) as Hf.
  destruct (signed_addend_spec format operands H3) as ([Hab Haf] & Han & Hau).
  set (addend := fused.signed_addend operands format) in *. unfold product_units in Hp.
  pose proof (unpack_number format _ H1 ltac:(intros Hz; rewrite Hz in Hp; lia)) as U1.
  pose proof (unpack_number format _ H2 ltac:(intros Hz; rewrite Hz in Hp; lia)) as U2.
  destruct (product_wide context _ _ _ _ _ _ U1 U2) as [Hmul Hwide].
  destruct (wide_log2 context _ _ _ Hwide) as [Hpos Hlog]. fold format in Hwide, Hlog.
  unfold fused.accumulate, fused.exact_product. fold format. rewrite Hmul.
  cbn [ExactProduct.is_negative ExactProduct.exponent ExactProduct.significand].
  set (v1 := decompose.unpack (FusedOperands.multiplicand operands) format) in *.
  set (v2 := decompose.unpack (FusedOperands.multiplier operands) format) in *.
  assert ((if FusedOperands.is_product_negated operands
           then negb (xorb (Unpacked.is_negative v1) (Unpacked.is_negative v2))
           else xorb (Unpacked.is_negative v1) (Unpacked.is_negative v2)) = np) as ->.
  { unfold np, product_sign. rewrite (proj1 U1), (proj1 U2).
    destruct (FusedOperands.is_product_negated operands); [rewrite xorb_true_r | rewrite xorb_false_r]; reflexivity. }
  rewrite is_zero_spec, units_zero, Hau by exact Hab.
  unfold addend_units. destruct (Z.eqb_spec (unsigned_units format (FusedOperands.addend operands)) 0) as [Hz | Hz].
  - rewrite Hz, Z.mul_0_l. pose proof Hwide as (HW & HE & Hu). fold format in HW, HE, Hu.
    assert (2 ^ (2 * (mantissa_bits format + 3) + 2) <= 2 ^ 112) by (apply Z.pow_le_mono_r; lia).
    assert (2 ^ 112 < 2 ^ 128) by reflexivity. pose proof (pow2_pos (2 * (mantissa_bits format + 3)) ltac:(lia)).
    rewrite (rounded_sum_nonzero context np na np _ _ (product_units format operands))
      by (exact Hpos || (unfold signed; destruct na; lia)).
    pose proof (unpacks_bounds format _ _ _ U1) as (HE1 & _ & He0).
    assert (Z.log2 (product_units format operands) <= 2 ^ 19) as Hlog' by (unfold product_units; lia).
    apply round_aligned; try assumption; [| lia | discriminate].
    apply wide_represents. exact Hwide.
  - assert (unsigned_units format addend <> 0) as Hnz by congruence.
    pose proof (unpack_number format addend (conj Hab Haf) Hnz) as U3. rewrite Han in U3.
    set (v3 := decompose.unpack addend format) in *.
    destruct (addend_wide context _ _ _ U3) as [Hshift Hwide3].
    destruct (wide_log2 context _ _ _ Hwide3) as [Hpos3 Hlog3].
    change (mantissa_bits format + GUARD_BITS) with (mantissa_bits format + 3).
    fold format in Hshift. rewrite Hshift. cbv zeta.
    pose proof (align_term_spec context _ _ _ _ _ _ Hwide Hwide3) as Hal.
    unfold alignment_loses in Hcase. fold addend v1 v2 v3 in Hcase.
    fold format in Hal. rewrite Hau in *.
    destruct (fused.align _ _ _ _) as [[[ap aa] E] st]. cbn [snd] in Hcase.
    rewrite (proj1 U3).
    apply (accumulate_aligned_spec context Hflush Hodd np na ap aa E _ _ st Hal); try assumption.
    assert (forall a b, 0 < a -> 0 < b -> Z.log2 (a + b) <= Z.log2 a + Z.log2 b + 1) as Hsum.
    { intros a b Ha Hb. pose proof (Z.log2_nonneg a). pose proof (Z.log2_nonneg b).
      pose proof (Z.log2_double (Z.max a b) ltac:(lia)).
      assert (Z.log2 (a + b) <= Z.log2 (2 * Z.max a b)) by (apply Z.log2_le_mono; lia).
      destruct (Z.max_spec a b) as [[_ Hm] | [_ Hm]]; rewrite Hm in *; lia. }
    specialize (Hsum _ _ Hpos Hpos3). fold format in Hlog3, Hsum.
    pose proof (unpacks_bounds format _ _ _ U1) as (HE1 & _ & He0).
    pose proof (unpacks_bounds format _ _ _ U2) as (HE2 & _ & _).
    pose proof (unpacks_bounds format _ _ _ U3) as (HE3 & _ & _). lia.
Qed.

(** Finite operands. *)
Lemma multiply_add_numbers (operands : FusedOperands) (context : Context) :
  let format := Context.format context in
  let rounding := Context.rounding context in
  let sum := fused_total format operands in
  let e := 2 * unit_exponent format in
  number format (FusedOperands.multiplicand operands) ->
  number format (FusedOperands.multiplier operands) ->
  number format (FusedOperands.addend operands) ->
  flushing format (Context.control context) = false -> rounding <> FpRounding.Odd ->
  eqb (product_sign format operands) (addend_sign format operands) = true \/
    alignment_loses format operands = false ->
  halves format rounding (sum <? 0) (ratio (Z.abs sum) 1 e) (e + Z.log2 (Z.abs sum)) = false ->
  fused.multiply_add operands context = ieee_fused format rounding operands.
Proof.
  intros format rounding sum e H1 H2 H3 Hflush Hodd Hcase Hh.
  assert (ieee_fused format rounding operands =
    rounded_sum context (product_sign format operands) (addend_sign format operands)
      (signed (product_sign format operands) (product_units format operands))
      (signed (addend_sign format operands) (addend_units format operands))) as ->.
  { unfold ieee_fused, rounded_sum, code_round. fold format rounding. fold (fused_total format operands).
    fold sum e. rewrite Hh. reflexivity. }
  unfold fused.multiply_add. fold format. rewrite propagate_numbers by
    (repeat apply Forall_cons_2; try apply Forall_nil_2; assumption).
  destruct (signed_addend_spec format operands H3) as ([Hab Haf] & Han & Hau).
  unfold fused.special_cases. fold format.
  rewrite !(finite_not_infinite format (FusedOperands.multiplicand operands)) by apply H1.
  rewrite !(finite_not_infinite format (FusedOperands.multiplier operands)) by apply H2.
  rewrite (finite_not_infinite format (fused.signed_addend operands format)) by exact Haf.
  cbn [andb orb]. rewrite andb_false_r. cbn [orb].
  rewrite !is_zero_spec, !units_zero by (apply H1 || apply H2).
  destruct ((unsigned_units format (FusedOperands.multiplicand operands) =? 0) ||
            (unsigned_units format (FusedOperands.multiplier operands) =? 0)) eqn:Hz.
  - assert (product_units format operands = 0) as Hp.
    { unfold product_units. apply orb_true_iff in Hz as [Hz%Z.eqb_eq | Hz%Z.eqb_eq]; rewrite Hz; lia. }
    assert ((if FusedOperands.is_product_negated operands
             then negb (xorb (is_negative format (FusedOperands.multiplicand operands))
                             (is_negative format (FusedOperands.multiplier operands)))
             else xorb (is_negative format (FusedOperands.multiplicand operands))
                       (is_negative format (FusedOperands.multiplier operands))) =
            product_sign format operands) as ->.
    { unfold product_sign.
      destruct (FusedOperands.is_product_negated operands); [rewrite xorb_true_r | rewrite xorb_false_r]; reflexivity. }
    apply zero_product_spec; assumption.
  - apply multiply_add_nonzero; try assumption. unfold product_units.
    apply orb_false_iff in Hz as [Hz1%Z.eqb_neq Hz2%Z.eqb_neq]. intros [Hm | Hm]%Z.mul_eq_0; contradiction.
Qed.

(** What rounding the finite operands asks: one sign or nothing lost, and not the
    case [halves]. *)
Definition fused_rounds (format : FpFormat) (rounding : FpRounding) (operands : FusedOperands) : Prop :=
  let sum := fused_total format operands in
  let e := 2 * unit_exponent format in
  number format (FusedOperands.multiplicand operands) ->
  number format (FusedOperands.multiplier operands) ->
  number format (FusedOperands.addend operands) ->
  (eqb (product_sign format operands) (addend_sign format operands) = true \/
   alignment_loses format operands = false) /\
  halves format rounding (sum <? 0) (ratio (Z.abs sum) 1 e) (e + Z.log2 (Z.abs sum)) = false.

(** The factors that are not NaNs, and the signs of the encodings. *)
#[local] Ltac product_data :=
  match goal with
  | Hnan : nan_among [datum_of ?f ?a; datum_of ?f ?b; datum_of ?f ?c] = None |- _ =>
      destruct (datum_of f a) as [s1 | n1 | n1 u1] eqn:Dl, (datum_of f b) as [s2 | n2 | n2 u2] eqn:Dr;
      try (cbn in Hnan; destruct (datum_of f c); discriminate Hnan)
  end.

#[local] Ltac signs :=
  repeat match goal with
  | Hb : in_format ?f ?bits, D : datum_of ?f ?bits = Infinite ?n |- context [is_negative ?f ?bits] =>
      rewrite (proj1 (datum_infinite f bits n Hb D))
  | D : datum_of ?f ?bits = Finite ?n ?u |- context [is_negative ?f ?bits] =>
      rewrite (proj1 (proj2 (datum_finite f bits n u D)))
  end.

#[local] Ltac by_signs negated :=
  cbn [fused_product]; destruct negated;
  repeat match goal with |- context [?u =? 0] => destruct (u =? 0) end;
  repeat match goal with b : bool |- _ => destruct b end; reflexivity.

Lemma multiply_add_delivers (operands : FusedOperands) (context : Context) :
  let format := Context.format context in
  in_format format (FusedOperands.multiplicand operands) ->
  in_format format (FusedOperands.multiplier operands) ->
  in_format format (FusedOperands.addend operands) ->
  flushing format (Context.control context) = false -> Context.rounding context <> FpRounding.Odd ->
  fused_rounds format (Context.rounding context) operands ->
  delivers format FpExceptions.NONE (ieee_fused_of format (Context.rounding context) operands)
    (fused.multiply_add operands context).
Proof.
  intros format Hl Hr Ha Hflush Hodd Hrounds.
  unfold ieee_fused_of.
  pose proof (propagate_delivers [FusedOperands.multiplicand operands; FusedOperands.multiplier operands;
    FusedOperands.addend operands] format (Context.control context) FpExceptions.NONE) as Hn.
  cbn [map] in Hn.
  destruct (nan_among _) as [s |] eqn:Hnan.
  { unfold fused.multiply_add. fold format. destruct Hn as (result & -> & Hd).
    rewrite with_no_flags in Hd. exact Hd. }
  assert (in_format format (fused.signed_addend operands format) /\
    datum_of format (fused.signed_addend operands format) =
    if FusedOperands.is_addend_negated operands
    then negated (datum_of format (FusedOperands.addend operands))
    else datum_of format (FusedOperands.addend operands)) as [Hin Hdatum].
  { unfold fused.signed_addend. destruct (FusedOperands.is_addend_negated operands); [| auto].
    split; [apply flip_sign, Ha | apply flipped_datum, Ha]. }
  rewrite <- Hdatum.
  destruct (datum_of format (fused.signed_addend operands format)) as [s3 | na | na ua] eqn:Da.
  { exfalso. destruct (FusedOperands.is_addend_negated operands);
      destruct (datum_of format (FusedOperands.addend operands)); try discriminate Hdatum;
      cbn [nan_among foldr] in Hnan;
      destruct (datum_of format (FusedOperands.multiplicand operands)),
        (datum_of format (FusedOperands.multiplier operands)); discriminate Hnan. }
  - unfold fused.multiply_add. fold format. rewrite Hn. unfold fused.special_cases. fold format.
    rewrite !is_infinite_datum, !is_zero_datum, Da by assumption.
    destruct (datum_infinite format _ na Hin Da) as [-> ->].
    product_data; signs; by_signs (FusedOperands.is_product_negated operands).
  - destruct (datum_finite format _ na ua Da) as (Hfa & Hna & _).
    assert (number format (FusedOperands.addend operands)) as Hnum.
    { split; [exact Ha |]. destruct (FusedOperands.is_addend_negated operands) eqn:En;
        unfold fused.signed_addend in Hfa; rewrite En in Hfa; [| exact Hfa].
      rewrite <- Hfa. symmetry. apply flip_sign_units, Ha. }
    product_data;
      [unfold fused.multiply_add; fold format; rewrite Hn; unfold fused.special_cases; fold format;
       rewrite !is_infinite_datum, !is_zero_datum, Da, Dl, Dr by assumption; signs;
       by_signs (FusedOperands.is_product_negated operands).. |].
    destruct (datum_finite format _ n1 u1 Dl) as (Hfl & _), (datum_finite format _ n2 u2 Dr) as (Hfr & _).
    destruct Hrounds as [Hcase Hh]; [exact Hnum || (split; assumption) .. |].
    cbn [fused_product delivers]. rewrite with_no_flags. apply multiply_add_numbers; assumption || (split; assumption).
Qed.
