(* ===== verification/FpLaws.v ===== *)
(** What the floating-point engine promises of its backends, as a class, and
    the two instances.

    The host's operators and casts are known by their documented behaviour:
    IEEE 754 in round-to-nearest, on every encoding, where a NaN result is some
    quiet NaN. *)

From stdpp Require Import base numbers list option.
From S2P Require Import Prelude FpOperand FpDecompose FpCompare FpArithmetic FpFused FpBackend.
From S2P Require Import FpConvert FpSoftfloat FpNative FpMagnitude FpRound FpValues FpAddition.
From S2P Require Import FpInteger FpData FpOperations FpMultiplyAdd.

#[local] Open Scope Z_scope.

Import FpFormat decompose.

(** The mode a host has. *)
Definition default_mode (control : FpControl) : Prop :=
  (forall format, flushing format control = false) /\ FpControl.rounding control = FpRounding.Nearest.

(** The operands of an instruction as data, under FPCR. *)
Definition lhs_datum (control : FpControl) (operands : FpOperands) : datum :=
  flushed_operand (FpOperands.format operands) control
    (datum_of (FpOperands.format operands) (FpOperands.lhs operands)).

Definition rhs_datum (control : FpControl) (operands : FpOperands) : datum :=
  flushed_operand (FpOperands.format operands) control
    (datum_of (FpOperands.format operands) (FpOperands.rhs operands)).

(** What the two-operand operations answer; the extrema are exact, and flush
    nothing. *)
Definition ieee_binary_of (control : FpControl) (op : FpBinaryOp) (operands : FpOperands) : outcome :=
  let format := FpOperands.format operands in
  let rounding := FpOperands.rounding operands in
  let l := lhs_datum control operands in
  let r := rhs_datum control operands in
  let extremum which := ieee_extremum_of format which (FpOperands.lhs operands) (FpOperands.rhs operands) in
  match op with
  | FpBinaryOp.Add => ieee_sum_of format rounding control l r
  | FpBinaryOp.Sub => ieee_sum_of format rounding control l (negated r)
  | FpBinaryOp.Mul => ieee_product_of format rounding control l r
  | FpBinaryOp.Div => ieee_quotient_of format rounding control l r
  | FpBinaryOp.Max => extremum Extremum.Max
  | FpBinaryOp.Min => extremum Extremum.Min
  | FpBinaryOp.MaxNum => extremum Extremum.MaxNum
  | FpBinaryOp.MinNum => extremum Extremum.MinNum
  end.

(** Outside the case [halves]. *)
Definition binary_rounds (control : FpControl) (op : FpBinaryOp) (operands : FpOperands) : Prop :=
  let format := FpOperands.format operands in
  let rounding := FpOperands.rounding operands in
  match op with
  | FpBinaryOp.Mul => product_rounds format rounding (lhs_datum control operands) (rhs_datum control operands)
  | FpBinaryOp.Div => quotient_rounds format rounding (lhs_datum control operands) (rhs_datum control operands)
  | _ => True
  end.

Definition operands_ok (operands : FpOperands) : Prop :=
  in_format (FpOperands.format operands) (FpOperands.lhs operands) /\
  in_format (FpOperands.format operands) (FpOperands.rhs operands).

Definition value_ok (value : FpValue) : Prop := in_format (FpValue.format value) (FpValue.bits value).

Definition value_datum (value : FpValue) : datum := datum_of (FpValue.format value) (FpValue.bits value).

(** The one-operand operations; a rounding to an integral value flushes nothing. *)
Definition ieee_unary_of (control : FpControl) (op : FpUnaryOp) (operand : FpValue)
    (rounding : FpRounding) : outcome :=
  let format := FpValue.format operand in
  match op with
  | FpUnaryOp.Sqrt =>
      ieee_root_of format rounding control (flushed_operand format control (value_datum operand))
  | FpUnaryOp.RoundToIntegral => ieee_integral_of format rounding (value_datum operand)
  end.

(** The operands of a fused multiply-add, without the format and mode. *)
Definition fused_operands (operands : FpFmaOperands) : FusedOperands :=
  FusedOperands.mk (FpFmaOperands.multiplicand operands) (FpFmaOperands.multiplier operands)
    (FpFmaOperands.addend operands) (FpFmaOperands.is_product_negated operands)
    (FpFmaOperands.is_addend_negated operands).

Definition fma_ok (operands : FpFmaOperands) : Prop :=
  let format := FpFmaOperands.format operands in
  in_format format (FpFmaOperands.multiplicand operands) /\
  in_format format (FpFmaOperands.multiplier operands) /\
  in_format format (FpFmaOperands.addend operands).

Definition fma_rounds (control : FpControl) (operands : FpFmaOperands) : Prop :=
  let format := FpFmaOperands.format operands in
  flushing format control = false /\
  fused_rounds format (FpFmaOperands.rounding operands) (fused_operands operands).

(** To an integer, below the magnitude where the code wraps. *)
Definition convertible (value : FpValue) : Prop :=
  forall n u, value_datum value = Finite n u -> u < 2 ^ (128 - unit_exponent (FpValue.format value)).

Definition ieee_from_integer (control : FpControl) (source : FromIntegerSource) (value : Z) : FpResult :=
  let n := int_value (FromIntegerSource.format source) value in
  let target := FromIntegerSource.target source in
  if n =? 0 then FpResult.exact (zero target false)
  else flushed_result target control
         (ieee_round target (FromIntegerSource.rounding source) (n <? 0) (ratio (Z.abs n) 1 0)
            (Z.log2 (Z.abs n))).

(** A backend serves the FPCR values it [admits]. *)
Class FpBackendLaws (B : Type) `{FpBackend B} : Type := {
  admits : FpControl -> Prop;
  binary_returns : forall (b : B) (op : FpBinaryOp) (operands : FpOperands) (control : FpControl),
    operands_ok operands -> returns (binary b op operands control) (fun _ => True);
  binary_delivers : forall (b : B) (op : FpBinaryOp) (operands : FpOperands) (control : FpControl),
    admits control -> operands_ok operands -> FpOperands.rounding operands <> FpRounding.Odd ->
    binary_rounds control op operands ->
    returns (binary b op operands control)
      (fun result => delivers_bits (FpOperands.format operands) (ieee_binary_of control op operands)
                       (FpResult.bits result));
  compare_orders : forall (b : B) (operands : FpOperands) (is_signalling : bool),
    operands_ok operands ->
    fst (compare b operands is_signalling) =
    if is_nan (FpOperands.format operands) (FpOperands.lhs operands) ||
       is_nan (FpOperands.format operands) (FpOperands.rhs operands)
    then FpComparison.Unordered
    else order_of (units (FpOperands.format operands) (FpOperands.lhs operands) ?=
                   units (FpOperands.format operands) (FpOperands.rhs operands));
  unary_delivers : forall (b : B) (op : FpUnaryOp) (operand : FpValue) (rounding : FpRounding)
      (control : FpControl),
    value_ok operand -> rounding <> FpRounding.Odd ->
    delivers_bits (FpValue.format operand) (ieee_unary_of control op operand rounding)
      (FpResult.bits (unary b op operand rounding control));
  fused_delivers : forall (b : B) (operands : FpFmaOperands) (control : FpControl),
    fma_ok operands -> FpFmaOperands.rounding operands <> FpRounding.Odd -> fma_rounds control operands ->
    delivers_bits (FpFmaOperands.format operands)
      (ieee_fused_of (FpFmaOperands.format operands) (FpFmaOperands.rounding operands)
         (fused_operands operands))
      (FpResult.bits (fused_multiply_add b operands control));
  conversion_delivers : forall (b : B) (value : FpValue) (target : FpFormat) (control : FpControl),
    admits control -> value_ok value -> FpControl.rounding control <> FpRounding.Odd ->
    conversion_rounds (FpValue.format value) target (FpControl.rounding control) (value_datum value) ->
    delivers_bits target
      (ieee_conversion_of (FpValue.format value) target (FpControl.rounding control) control
         (value_datum value))
      (FpResult.bits (convert_format b value target control));
  to_integer_answers : forall (b : B) (value : FpValue) (target : ToIntegerTarget) (control : FpControl),
    int_format_ok (ToIntegerTarget.format target) -> value_ok value -> convertible value ->
    ToIntegerTarget.rounding target <> FpRounding.Odd ->
    to_integer b value target control =
    ieee_integer_of (FpValue.format value) (ToIntegerTarget.rounding target)
      (ToIntegerTarget.format target) (value_datum value);
  from_integer_answers : forall (b : B) (value : Z) (source : FromIntegerSource) (control : FpControl),
    int_format_ok (FromIntegerSource.format source) -> in_range 64 value ->
    FromIntegerSource.rounding source <> FpRounding.Odd ->
    convert_from_integer b value source control = ieee_from_integer control source value
}.

(** ** The reference backend *)

Lemma flush_input_in_format (bits : Z) (context : Context) :
  in_format (Context.format context) bits ->
  in_format (Context.format context) (fst (arithmetic.flush_input bits context)).
Proof.
  intros Hb. unfold arithmetic.flush_input. destruct (_ || _); [exact Hb |]. cbn [fst].
  pose proof (format_bounds (Context.format context)) as Hf.
  destruct (decode_encoding (Context.format context) (is_negative (Context.format context) bits) 0 0)
    as [Hin _]; [pose proof (pow2_pos (exponent_bits (Context.format context))); lia |
                 pose proof (pow2_pos (mantissa_bits (Context.format context))); lia |].
  rewrite Z.mul_0_l, !Z.add_0_r, <- zero_eq in Hin. exact Hin.
Qed.

(** The divisor is never zero where the division is reached. *)
Lemma divide_returns (lhs rhs : Z) (context : Context) :
  in_format (Context.format context) lhs -> in_format (Context.format context) rhs ->
  returns (arithmetic.divide lhs rhs context) (fun _ => True).
Proof.
  intros Hl Hr. unfold arithmetic.divide, arithmetic.flush_pair.
  pose proof (flush_input_in_format lhs context Hl) as Hl'.
  pose proof (flush_input_in_format rhs context Hr) as Hr'.
  destruct (arithmetic.flush_input lhs context) as [l fl], (arithmetic.flush_input rhs context) as [r fr].
  cbn [fst] in Hl', Hr'. set (format := Context.format context) in *.
  destruct (nan.propagate [l; r] format (Context.control context)) as [result |] eqn:En; [apply returns_ret, I |].
  destruct (arithmetic.divide_specials l r _ context) as [result |] eqn:Es; [apply returns_ret, I |].
  assert (Unpacked.significand (decompose.unpack r format) <> 0) as Hnz; [| apply Z.eqb_neq in Hnz; rewrite Hnz; apply returns_ret, I].
  assert (is_nan format r = false) as Hnan.
  { unfold nan.propagate in En. cbn [List.find] in En. destruct (is_nan format l); [discriminate En |].
    destruct (is_nan format r); [discriminate En | reflexivity]. }
  unfold arithmetic.divide_specials in Es. fold format in Es.
  destruct (is_infinite format l), (is_infinite format r) eqn:Hinf, (is_zero format l), (is_zero format r) eqn:Hz;
    cbn [andb orb] in Es; try discriminate Es.
  rewrite is_nan_spec in Hnan. rewrite is_infinite_spec in Hinf.
  assert (finite format r = true) as Hfin.
  { destruct (finite format r); [reflexivity |]. destruct (fraction format r =? 0); discriminate. }
  rewrite is_zero_spec in Hz by exact Hr'. apply Z.eqb_neq in Hz.
  pose proof (unpack_spec format r Hr' Hfin Hz) as Hv.
  pose proof (unpacks_bounds format _ _ _ Hv) as (_ & Hq & _). lia.
Qed.

Lemma compare_spec (lhs rhs : Z) (format : FpFormat) (is_signalling : bool) :
  in_format format lhs -> in_format format rhs ->
  fst (compare.compare lhs rhs format is_signalling) =
  if is_nan format lhs || is_nan format rhs then FpComparison.Unordered
  else order_of (units format lhs ?= units format rhs).
Proof.
  intros Hl Hr. unfold compare.compare, nan.any_nan. cbn [existsb]. rewrite orb_false_r.
  destruct (is_nan format lhs || is_nan format rhs); [reflexivity |].
  apply ordering_units; assumption.
Qed.

#[export] Instance softfloat_laws : FpBackendLaws Softfloat.
Proof.
  refine {| admits := fun _ => True |}.
  - intros b op operands control [Hl Hr]. destruct op; try (apply returns_ret, I).
    apply divide_returns; assumption.
  - intros b op [lhs rhs format rounding] control _ [Hl Hr] Hodd Hrounds.
    cbn [FpOperands.format FpOperands.rounding FpOperands.lhs FpOperands.rhs] in *.
    destruct op; cbn [binary softfloat_backend Softfloat.binary].
    1-3,5-8: apply returns_ret; eapply delivers_result.
    + exact (add_delivers (Context.mk format rounding control) Hodd lhs rhs false Hl Hr).
    + exact (add_delivers (Context.mk format rounding control) Hodd lhs rhs true Hl Hr).
    + exact (multiply_delivers (Context.mk format rounding control) Hodd lhs rhs Hl Hr Hrounds).
    + exact (extremum_delivers lhs rhs Extremum.Max format control Hl Hr).
    + exact (extremum_delivers lhs rhs Extremum.Min format control Hl Hr).
    + exact (extremum_delivers lhs rhs Extremum.MaxNum format control Hl Hr).
    + exact (extremum_delivers lhs rhs Extremum.MinNum format control Hl Hr).
    + eapply returns_mono; [exact (divide_delivers (Context.mk format rounding control) Hodd lhs rhs Hl Hr Hrounds) |].
      intros result. apply delivers_result.
  - intros b operands is_signalling [Hl Hr]. apply compare_spec; assumption.
  - intros b op [bits format] rounding control Hv Hodd.
    destruct op; cbn [unary softfloat_backend Softfloat.unary]; eapply delivers_result.
    + exact (square_root_delivers (Context.mk format rounding control) Hodd bits Hv).
    + exact (round_to_integral_delivers bits format rounding control Hv Hodd).
  - intros b operands control (Hl & Hr & Ha) Hodd [Hflush Hrounds]. eapply delivers_result.
    exact (multiply_add_delivers (fused_operands operands)
      (Context.mk (FpFmaOperands.format operands) (FpFmaOperands.rounding operands) control)
      Hl Hr Ha Hflush Hodd Hrounds).
  - intros b [bits format] target control _ Hv Hodd Hrounds. eapply delivers_result.
    exact (convert_delivers bits format target control (FpControl.rounding control) Hv Hodd Hrounds).
  - intros b [bits format] target control Hw Hv Hlt Hodd. apply to_integer_delivers; assumption.
  - intros b value source control Hw Hv Hodd. apply from_integer_flushed; assumption.
Defined.

(** ** The native backend *)

(** What IEEE 754 has a host answer, in its one mode. *)
Definition ieee_default_of (format : FpFormat) (op : FpBinaryOp) (lhs rhs : Z) : outcome :=
  ieee_binary_of FpControl.DEFAULT op (FpOperands.mk lhs rhs format FpRounding.Nearest).

(** What a host float type of this format does: IEEE 754 with NaNs of any
    payload. *)
Record host_ops_ok (format : FpFormat) (T : host_ops) : Prop := {
  host_operators_ok : forall op operator lhs rhs,
    In (op, operator) [(FpBinaryOp.Add, host_add T); (FpBinaryOp.Sub, host_sub T);
                       (FpBinaryOp.Mul, host_mul T); (FpBinaryOp.Div, host_div T)] ->
    in_format format lhs -> in_format format rhs ->
    delivers_bits format (ieee_default_of format op lhs rhs) (operator lhs rhs);
  host_lt_ok : forall lhs rhs, in_format format lhs -> in_format format rhs ->
    host_lt T lhs rhs =
    negb (is_nan format lhs || is_nan format rhs) && (units format lhs <? units format rhs);
  host_eq_ok : forall lhs rhs, in_format format lhs -> in_format format rhs ->
    host_eq T lhs rhs =
    negb (is_nan format lhs || is_nan format rhs) && (units format lhs =? units format rhs)
}.

(** What a host's conversion between its two types does. *)
Definition host_cast_ok (source target : FpFormat) (cast : Z -> Z) : Prop :=
  forall bits, in_format source bits ->
  delivers_bits target
    (ieee_conversion_of source target FpRounding.Nearest FpControl.DEFAULT (datum_of source bits))
    (cast bits).

Class HostFloatLaws `{HostFloat} : Prop := {
  f32_ok : host_ops_ok FpFormat.Single f32;
  f64_ok : host_ops_ok FpFormat.Double f64;
  f32_as_f64_ok : host_cast_ok FpFormat.Single FpFormat.Double f32_as_f64;
  f64_as_f32_ok : host_cast_ok FpFormat.Double FpFormat.Single f64_as_f32
}.

Lemma partial_order_spec (format : FpFormat) (T : host_ops) (lhs rhs : Z) :
  host_ops_ok format T -> in_format format lhs -> in_format format rhs ->
  Native.partial_order T lhs rhs =
  if is_nan format lhs || is_nan format rhs then FpComparison.Unordered
  else order_of (units format lhs ?= units format rhs).
Proof.
  intros HT Hl Hr. unfold Native.partial_order.
  rewrite !(host_lt_ok format T HT), (host_eq_ok format T HT) by assumption.
  rewrite (orb_comm (is_nan format rhs)).
  destruct (is_nan format lhs || is_nan format rhs); cbn [negb andb]; [reflexivity |].
  destruct (Z.compare_spec (units format lhs) (units format rhs));
    destruct (Z.ltb_spec (units format lhs) (units format rhs)),
      (Z.ltb_spec (units format rhs) (units format lhs)),
      (Z.eqb_spec (units format lhs) (units format rhs)); reflexivity || lia.
Qed.

Lemma as_u32_in_format (bits : Z) : in_format FpFormat.Single bits -> as_u32 bits = bits.
Proof. intros Hb. apply wrap_small, Hb. Qed.

(** Where nothing is flushed, the reference is the one of the default mode. *)
Lemma ieee_binary_default (control : FpControl) (op : FpBinaryOp) (lhs rhs : Z) (format : FpFormat) :
  flushing format control = false ->
  ieee_binary_of control op (FpOperands.mk lhs rhs format FpRounding.Nearest) =
  ieee_default_of format op lhs rhs.
Proof.
  intros Hf. assert (flushing format FpControl.DEFAULT = false) as Hd by (destruct format; reflexivity).
  unfold ieee_default_of, ieee_binary_of, lhs_datum, rhs_datum.
  cbn [FpOperands.format FpOperands.rounding FpOperands.lhs FpOperands.rhs].
  rewrite !(proj1 (flushed_operand_none format _ _ Hf)), !(proj1 (flushed_operand_none format _ _ Hd)).
  unfold ieee_sum_of, ieee_product_of, ieee_quotient_of.
  destruct op; try reflexivity; destruct (datum_of format lhs), (datum_of format rhs); cbn [negated];
    try reflexivity; rewrite !flushed_result_none by assumption; reflexivity.
Qed.

Lemma ieee_conversion_default (source target : FpFormat) (control : FpControl) (d : datum) :
  flushing target control = false ->
  ieee_conversion_of source target FpRounding.Nearest control d =
  ieee_conversion_of source target FpRounding.Nearest FpControl.DEFAULT d.
Proof.
  intros Hf. assert (flushing target FpControl.DEFAULT = false) as Hd by (destruct target; reflexivity).
  destruct d; cbn [ieee_conversion_of]; rewrite ?flushed_result_none by assumption; reflexivity.
Qed.

#[export] Instance native_laws `{HostFloatLaws} : FpBackendLaws Native.
Proof.
  refine {| admits := default_mode |}.
  - intros b op operands control Hok. cbn [binary native_backend]. unfold Native.binary.
    destruct (negb (Native.can_serve _ _)); [apply binary_returns; assumption |].
    destruct op; try (apply returns_ret, I); apply binary_returns; assumption.
  - intros b op operands control Hflush Hok Hodd Hrounds.
    cbn [binary native_backend]. unfold Native.binary.
    pose proof (binary_delivers (Native.fallback b) op operands control I Hok Hodd Hrounds) as Hfallback.
    destruct (Native.can_serve _ _) eqn:Hc; cbn [negb]; [| exact Hfallback].
    destruct operands as [lhs rhs format rounding]. destruct Hok as [Hl Hr].
    cbn [FpOperands.format FpOperands.rounding FpOperands.lhs FpOperands.rhs] in *.
    unfold Native.can_serve in Hc. destruct rounding; try discriminate Hc. cbn [andb] in Hc.
    rewrite ieee_binary_default in * by apply (proj1 Hflush).
    destruct format; try discriminate Hc; destruct op; try exact Hfallback; apply returns_ret;
      cbn [FpResult.bits FpResult.exact Native.dispatch_binary fst snd];
      rewrite ?as_u32_in_format by assumption;
      (apply (host_operators_ok _ _ f32_ok) || apply (host_operators_ok _ _ f64_ok));
      try assumption; cbn [In]; auto.
  - intros b operands is_signalling Hok. cbn [compare native_backend]. unfold Native.compare.
    destruct operands as [lhs rhs format rounding]. pose proof Hok as [Hl Hr].
    cbn [FpOperands.format FpOperands.rounding FpOperands.lhs FpOperands.rhs] in *.
    destruct format; cbn [fst].
    + apply (compare_orders (Native.fallback b)
        (FpOperands.mk lhs rhs FpFormat.Half rounding) is_signalling). exact Hok.
    + rewrite !as_u32_in_format by assumption. apply partial_order_spec; [apply f32_ok | assumption | assumption].
    + apply partial_order_spec; [apply f64_ok | assumption | assumption].
  - intros b op operand rounding control. apply (unary_delivers (Native.fallback b)).
  - intros b operands control. apply (fused_delivers (Native.fallback b)).
  - intros b value target control Hflush Hv Hodd Hrounds.
    pose proof (conversion_delivers (Native.fallback b) value target control I Hv Hodd Hrounds) as Hfallback.
    destruct Hflush as [Hflush Hnearest].
    cbn [convert_format native_backend]. unfold Native.convert_format.
    destruct value as [bits []]; unfold value_ok, value_datum in *; cbn [FpValue.format FpValue.bits] in *;
      destruct target; try exact Hfallback; cbn [FpResult.bits FpResult.exact];
      rewrite Hnearest, ieee_conversion_default, ?as_u32_in_format by (apply Hflush || exact Hv);
      (apply f32_as_f64_ok || apply f64_as_f32_ok); exact Hv.
  - intros b value target control. apply (to_integer_answers (Native.fallback b)).
  - intros b value source control. apply (from_integer_answers (Native.fallback b)).
Defined.
