(* ===== verification/FpHost.v ===== *)
(** The floats of a host, as the Standard Library specifies them, and that they are
    what the reference says IEEE 754 floats are.

    [SpecFloat] is the Standard Library's specification of its own machine floats: a
    sign, a positive mantissa and an exponent, with operations that round to
    nearest, and is written independently of the magnitudes of [FpMagnitude].
    Module [Ieee] puts it on encodings.  The file shows that the two agree on every
    encoding of the three formats: a shift record of [SpecFloat] stands for a
    magnitude, and its rounding is [ieee_round].  Then [ieee_host] is a [HostFloat]
    that obeys [HostFloatLaws], and the softfloat backend computes what [SpecFloat]
    specifies. *)

From Stdlib Require Import SpecFloat.
From stdpp Require Import base numbers list option.
From S2P Require Import Prelude FpOperand FpCompare FpArithmetic FpBackend FpSoftfloat FpNative.
From S2P Require Import FpMagnitude FpRound FpValues FpAddition FpInteger FpData FpOperations.
From S2P Require Import FpLaws.

#[local] Open Scope Z_scope.

(** ** The operations, on encodings *)

Module Ieee.

Section Ieee.

(** Width of the mantissa field, of the format, and the exponent of infinity. *)
Context (mantissa width emax : Z).

#[local] Abbreviation prec := (mantissa + 1).

Definition of_bits (bits : Z) : spec_float :=
  let is_negative := Z.testbit bits (width - 1) in
  let fraction := Z.land bits (Z.ones mantissa) in
  let exponent := Z.land (Z.shiftr bits mantissa) (Z.ones (width - 1 - mantissa)) in
  if exponent =? Z.ones (width - 1 - mantissa) then
    if fraction =? 0 then S754_infinity is_negative else S754_nan
  else
    let significand := if exponent =? 0 then fraction else fraction + Z.shiftl 1 mantissa in
    match significand with
    | Zpos m => S754_finite is_negative m (Z.max exponent 1 + emin prec emax - 1)
    | _ => S754_zero is_negative
    end.

Definition to_bits (x : spec_float) : Z :=
  let sign (s : bool) := if s then Z.shiftl 1 (width - 1) else 0 in
  let infinity := Z.shiftl (Z.ones (width - 1 - mantissa)) mantissa in
  match x with
  | S754_zero s => sign s
  | S754_infinity s => sign s + infinity
  | S754_nan => infinity + Z.shiftl 1 (mantissa - 1)
  | S754_finite s m e =>
      if (Z.pos m) <? Z.shiftl 1 mantissa then sign s + Z.pos m
      else sign s + Z.shiftl (e - emin prec emax) mantissa + Z.pos m
  end.

Definition on2 (f : spec_float -> spec_float -> spec_float) (lhs rhs : Z) : Z :=
  to_bits (f (of_bits lhs) (of_bits rhs)).

Definition add : Z -> Z -> Z := on2 (SFadd prec emax).
Definition sub : Z -> Z -> Z := on2 (SFsub prec emax).
Definition mul : Z -> Z -> Z := on2 (SFmul prec emax).
Definition div : Z -> Z -> Z := on2 (SFdiv prec emax).
Definition sqrt (value : Z) : Z := to_bits (SFsqrt prec emax (of_bits value)).
Definition lt (lhs rhs : Z) : bool := SFltb (of_bits lhs) (of_bits rhs).
Definition eq (lhs rhs : Z) : bool := SFeqb (of_bits lhs) (of_bits rhs).

(** [f64::mul_add], of finite operands whose product and sum are not zero: the
    exact sum, rounded once. *)
Definition mul_add (multiplicand multiplier addend : Z) : Z :=
  to_bits
    match of_bits multiplicand, of_bits multiplier, of_bits addend with
    | S754_finite s1 m1 e1, S754_finite s2 m2 e2, S754_finite s3 m3 e3 =>
        let e := Z.min (e1 + e2) e3 in
        let scaled s m e' := cond_Zopp s (Z.shiftl (Z.pos m) (e' - e)) in
        binary_normalize prec emax (scaled (xorb s1 s2) (Pos.mul m1 m2) (e1 + e2) + scaled s3 m3 e3)
          e false
    | _, _, _ => S754_nan
    end.

(** The value nearest to [n * 10 ^ k]. *)
Definition lit (n k : Z) : Z :=
  to_bits
    (if k <? 0
     then SFdiv prec emax
            match n with
            | Z0 => S754_zero false
            | Zpos m => S754_finite false m 0
            | Zneg m => S754_finite true m 0
            end
            (S754_finite false (Z.to_pos (10 ^ (- k))) 0)
     else binary_normalize prec emax (n * 10 ^ k) 0 false).

(** [value as i64] of a value in the range. *)
Definition trunc (value : Z) : Z :=
  match of_bits value with
  | S754_finite s m e => cond_Zopp s (Z.shiftl (Z.pos m) e)
  | _ => 0
  end.

Definition of_int (value : Z) : Z := to_bits (binary_normalize prec emax value 0 false).

Definition ops : host_ops := Build_host_ops add sub mul div lt eq.

End Ieee.

(** [as] between the two types. *)
Definition narrow (mantissa width emax : Z) (x : spec_float) : Z :=
  to_bits mantissa width emax
    match x with
    | S754_finite true m e => binary_normalize (mantissa + 1) emax (Zneg m) e false
    | S754_finite false m e => binary_normalize (mantissa + 1) emax (Zpos m) e false
    | x => x
    end.

End Ieee.

(** ** Digits and shifts *)

Lemma digits2_log2 (p : positive) : Z.pos (digits2_pos p) = Z.log2 (Z.pos p) + 1.
Proof.
  induction p as [p IH | p IH |]; cbn [digits2_pos]; [| | reflexivity];
    rewrite Pos2Z.inj_succ, IH.
  - rewrite Pos2Z.inj_xI, Z.log2_succ_double by reflexivity. lia.
  - rewrite Pos2Z.inj_xO, Z.log2_double by reflexivity. lia.
Qed.

Lemma iter_double (p n : positive) : Z.pos (Pos.iter xO p n) = Z.pos p * 2 ^ Z.pos n.
Proof.
  revert n. refine (Pos.peano_ind _ _ _).
  - cbn. lia.
  - intros n IH. rewrite Pos.iter_succ, Pos2Z.inj_xO, IH, Pos2Z.inj_succ, Z.pow_succ_r by lia. ring.
Qed.

(** A shift record stands for [x]: the mantissa is its floor at [2^k], and below
    it are the bit of one half and whether there is anything else. *)
Definition stands (x : magnitude) (mrs : shr_record) (k : Z) : Prop :=
  0 <= shr_m mrs /\ represents_at x (2 * shr_m mrs + b2z (shr_r mrs)) (shr_s mrs) (k - 1).

Section Rounding.

Context (x : magnitude) (Hx : magnitude_ok x).

Lemma shr_1_stands (mrs : shr_record) (k : Z) :
  stands x mrs k -> stands x (shr_1 mrs) (k + 1).
Proof.
  intros [Hm Hrep]. apply represents_shr in Hrep; [| exact Hx].
  replace (k - 1 + 1) with (k + 1 - 1) in Hrep by lia.
  assert (shr_1 mrs = Build_shr_record (shr_m mrs / 2) (Z.odd (shr_m mrs)) (shr_r mrs || shr_s mrs)) as ->.
  { destruct mrs as [[| [p | p |] | p] r s]; cbn [shr_1 shr_m shr_r shr_s Z.odd] in *; try reflexivity;
      [| | lia].
    - f_equal. apply Z.div_unique with 1; lia.
    - f_equal. apply Z.div_unique with 0; lia. }
  split; cbn [shr_m shr_r shr_s]; [apply Z.div_pos; lia |].
  destruct Hrep as [Hf He]. split.
  - rewrite Hf. rewrite (Z.div_mod (shr_m mrs) 2) at 1 by lia.
    rewrite <- Z.bit0_mod, Z.bit0_odd.
    destruct (shr_r mrs), (Z.odd (shr_m mrs)); cbn [b2z Z.b2z];
      match goal with |- (2 * (2 * ?q + ?a) + ?b) / 2 = _ =>
        symmetry; apply Z.div_unique with b; lia end.
  - rewrite He. f_equal. rewrite Z.add_comm, Z.odd_add_mul_2.
    destruct (shr_r mrs), (shr_s mrs); reflexivity.
Qed.

Lemma iter_stands (p : positive) (mrs : shr_record) (k : Z) :
  stands x mrs k -> stands x (SpecFloat.iter_pos shr_1 p mrs) (k + Z.pos p).
Proof.
  revert mrs k. induction p as [p IH | p IH |]; intros mrs k Hs; cbn [SpecFloat.iter_pos].
  - rewrite Pos2Z.inj_xI. replace (k + (2 * Z.pos p + 1)) with (k + 1 + Z.pos p + Z.pos p) by lia.
    apply IH, IH, shr_1_stands, Hs.
  - rewrite Pos2Z.inj_xO. replace (k + 2 * Z.pos p) with (k + Z.pos p + Z.pos p) by lia.
    apply IH, IH, Hs.
  - apply shr_1_stands, Hs.
Qed.

Lemma shr_stands (mrs : shr_record) (k n : Z) :
  0 <= n -> stands x mrs k -> stands x (fst (shr mrs k n)) (k + n) /\ snd (shr mrs k n) = k + n.
Proof.
  intros Hn Hs. unfold shr. destruct n as [| p | p]; cbn [fst snd];
    [rewrite Z.add_0_r | | lia]; (split; [| reflexivity]); [exact Hs | apply iter_stands, Hs].
Qed.

(** Nothing is shifted left. *)
Lemma shr_neg (mrs : shr_record) (k n : Z) : n <= 0 -> shr mrs k n = (mrs, k).
Proof. destruct n; cbn; reflexivity || lia. Qed.

Lemma stands_floor (mrs : shr_record) (k : Z) : stands x mrs k -> floor_at x k = shr_m mrs.
Proof.
  intros [Hm [Hf _]]. pose proof (floor_step x Hx (k - 1)) as Hs.
  replace (k - 1 + 1) with k in Hs by lia. rewrite Hs, Hf. symmetry.
  apply Z.div_unique with (b2z (shr_r mrs)); destruct (shr_r mrs); cbn [b2z]; lia.
Qed.

(** The rounding of the Standard Library is the reference's. *)
Lemma stands_rounded (mrs : shr_record) (k : Z) (neg : bool) :
  stands x mrs k ->
  round_nearest_even (shr_m mrs) (loc_of_shr_record mrs) = rounded FpRounding.Nearest neg x k.
Proof.
  intros Hs. pose proof (stands_floor mrs k Hs) as Hfl. destruct Hs as [Hm [Hf He]].
  unfold rounded, rounds_up. rewrite Hfl, Hf, He, (Z.add_comm (2 * _)), Z.odd_add_mul_2.
  destruct mrs as [m [] []]; cbn [shr_m shr_r shr_s loc_of_shr_record round_nearest_even b2z Z.odd andb orb negb];
    rewrite ?Z.add_0_l, ?Z.add_0_r; try reflexivity; try lia.
  rewrite <- Z.negb_even. destruct (Z.even m); cbn; lia.
Qed.

End Rounding.

(** ** Rounding into a format *)

Import FpFormat.

Section Format.

Context (format : FpFormat).

#[local] Abbreviation m := (FpFormat.mantissa_bits format).
#[local] Abbreviation w := (FpFormat.bits format).
#[local] Abbreviation emax := (FpFormat.exponent_bias format + 1).
#[local] Abbreviation e0 := (unit_exponent format).
#[local] Abbreviation to_bits := (Ieee.to_bits m w emax).
#[local] Abbreviation of_bits := (Ieee.of_bits m w emax).

Lemma emin_unit : emin (m + 1) emax = e0.
Proof. unfold emin, unit_exponent, min_exponent. lia. Qed.

Lemma fexp_quantum (e : Z) : fexp (m + 1) emax (e + 1) = quantum format e.
Proof. unfold fexp, quantum. rewrite emin_unit. unfold unit_exponent. lia. Qed.

Lemma quantum_unit (e : Z) : e0 <= quantum format e /\ e - m <= quantum format e.
Proof. unfold quantum, unit_exponent. lia. Qed.

(** The bits of the sign, of infinity, and of the finite values. *)
Lemma to_bits_infinity (s : bool) :
  to_bits (S754_infinity s) = b2z s * 2 ^ sign_shift format + (2 ^ exponent_bits format - 1) * 2 ^ m.
Proof. destruct format, s; reflexivity. Qed.

Lemma to_bits_zero (s : bool) : to_bits (S754_zero s) = b2z s * 2 ^ sign_shift format.
Proof. destruct format, s; reflexivity. Qed.

Lemma to_bits_finite (s : bool) (p : positive) (e : Z) :
  to_bits (S754_finite s p e) =
  b2z s * 2 ^ sign_shift format + ((if Z.pos p <? 2 ^ m then 0 else (e - e0) * 2 ^ m) + Z.pos p).
Proof.
  pose proof (format_bounds format) as Hf. unfold Ieee.to_bits. rewrite emin_unit, Z.shiftl_1_l.
  assert ((if s then Z.shiftl 1 (w - 1) else 0) = b2z s * 2 ^ sign_shift format) as ->
    by (destruct format, s; reflexivity).
  rewrite Z.shiftl_mul_pow2 by lia. destruct (Z.pos p <? 2 ^ m); lia.
Qed.

Lemma shr_record_of_loc_m (q : Z) (l : location) : shr_m (shr_record_of_loc q l) = q.
Proof. destruct l as [| []]; reflexivity. Qed.

Lemma zdigits2_log2 (q : Z) : 0 < q -> Zdigits2 q = Z.log2 q + 1.
Proof. destruct q as [| p | p]; [lia | intros _; apply digits2_log2 | lia]. Qed.

(** The shift of a significand that stands for a magnitude of exponent [e] is to
    the quantum of [e]. *)
Lemma shr_fexp_quantum (x : magnitude) (e q k : Z) (l : location) :
  magnitude_ok x -> floor_at x e = 1 -> stands x (shr_record_of_loc q l) k ->
  k <= quantum format e ->
  let '(mrs, k') := shr_fexp (m + 1) emax q k l in
  k' = quantum format e /\ stands x mrs (quantum format e).
Proof.
  intros Hx He Hs Hk. unfold shr_fexp.
  assert (fexp (m + 1) emax (Zdigits2 q + k) = quantum format e) as ->.
  { pose proof (stands_floor x Hx _ _ Hs) as Hfl. rewrite shr_record_of_loc_m in Hfl.
    destruct (Z.le_gt_cases k e) as [Hle | Hgt].
    - replace e with (k + (e - k)) in He by lia. rewrite (floor_up x Hx), Hfl in He by lia.
      pose proof (pow2_pos (e - k) ltac:(lia)). pose proof (Z.div_mod q (2 ^ (e - k)) ltac:(lia)) as Hd.
      pose proof (Z.mod_pos_bound q (2 ^ (e - k)) ltac:(lia)). rewrite He in Hd.
      assert (Z.log2 q = e - k) as Hl
        by (apply Z.log2_unique; [lia |]; rewrite Z.pow_succ_r by lia; lia).
      rewrite zdigits2_log2, Hl by lia. replace (e - k + 1 + k) with (e + 1) by lia. apply fexp_quantum.
    - rewrite (floor_above x e k Hx He Hgt) in Hfl. subst q. cbn [Zdigits2].
      unfold fexp, quantum in *. rewrite emin_unit. unfold unit_exponent in *.
      pose proof (format_bounds format). lia. }
  destruct (shr_stands x Hx _ k (quantum format e - k) ltac:(lia) Hs) as [Hs' Hk'].
  destruct (shr _ _ _) as [mrs k']. cbn [fst snd] in *.
  replace (k + (quantum format e - k)) with (quantum format e) in * by lia. split; assumption.
Qed.

Lemma rounded_range (x : magnitude) (e : Z) (neg : bool) :
  magnitude_ok x -> floor_at x e = 1 ->
  let r := rounded FpRounding.Nearest neg x (quantum format e) in
  0 <= r <= 2 ^ (m + 1) /\ (quantum format e = e0 \/ 2 ^ m <= r).
Proof.
  intros Hx He r. pose proof (format_bounds format) as Hf.
  pose proof (rounded_bounds FpRounding.Nearest neg x (quantum format e)) as Hb. fold r in Hb.
  pose proof (floor_nonneg x Hx (quantum format e)) as Hn.
  set (k := quantum format e) in *. unfold quantum in k.
  destruct (Z.le_gt_cases k e) as [Hle | Hgt].
  - pose proof He as He'. replace e with (k + (e - k)) in He' by lia.
    rewrite (floor_up x Hx) in He' by lia. pose proof (pow2_pos (e - k) ltac:(lia)).
    pose proof (Z.div_mod (floor_at x k) (2 ^ (e - k)) ltac:(lia)) as Hd. rewrite He' in Hd.
    pose proof (Z.mod_pos_bound (floor_at x k) (2 ^ (e - k)) ltac:(lia)).
    assert (2 ^ (e - k) <= 2 ^ m) by (apply Z.pow_le_mono_r; lia).
    rewrite Z.pow_add_r by lia. change (2 ^ 1) with 2. split; [lia |].
    destruct (Z.le_gt_cases (min_exponent format) e); [right | left; unfold unit_exponent; lia].
    replace (e - k) with m in * by lia. lia.
  - rewrite (floor_above x e k Hx He Hgt) in Hb. pose proof (pow2_pos (m + 1) ltac:(lia)).
    split; [lia |]. left. unfold unit_exponent. lia.
Qed.

Lemma rounding_spec (x : magnitude) (e q k : Z) (neg : bool) (l : location) :
  magnitude_ok x -> floor_at x e = 1 -> stands x (shr_record_of_loc q l) k ->
  k <= quantum format e ->
  to_bits (binary_round_aux (m + 1) emax neg q k l) =
  FpResult.bits (ieee_round format FpRounding.Nearest neg x e).
Proof.
  intros Hx He Hs Hk. pose proof (format_bounds format) as Hf.
  pose proof (quantum_unit e) as [Hq0 _]. pose proof (rounded_range x e neg Hx He) as [Hr Hnorm].
  unfold binary_round_aux. pose proof (shr_fexp_quantum x e q k l Hx He Hs Hk) as Hshr.
  destruct (shr_fexp _ _ q k l) as [mrs k']. destruct Hshr as [-> Hs'].
  rewrite (stands_rounded x Hx mrs _ neg Hs').
  unfold ieee_round, overflows_to_infinity. cbv zeta.
  replace (quantum format e + m - min_exponent format) with (quantum format e - e0)
    by (unfold unit_exponent; lia).
  set (r := rounded _ _ _ _) in *. clearbody r. set (j := quantum format e) in *. clearbody j.
  clear Hs' Hs Hk He Hx mrs.
  pose proof (pow2_pos m ltac:(lia)) as Hp. rewrite Z.pow_add_r in Hr by lia. change (2 ^ 1) with 2 in Hr.
  unfold shr_fexp. change (shr_record_of_loc r loc_Exact) with (Build_shr_record r false false).
  destruct (Z.eq_dec r (2 * 2 ^ m)) as [Hc | Hc].
  - assert (r = 2 ^ (m + 1)) as Hc' by (rewrite Z.pow_add_r by lia; change (2 ^ 1) with 2; lia).
    assert (fexp (m + 1) emax (Zdigits2 r + j) = j + 1) as ->.
    { rewrite zdigits2_log2, Hc', Z.log2_pow2 by lia. unfold fexp. rewrite emin_unit. lia. }
    replace (j + 1 - j) with 1 by lia. cbn [shr SpecFloat.iter_pos].
    assert (shr_m (shr_1 (Build_shr_record r false false)) = 2 ^ m) as Hm.
    { destruct r as [| [p | p |] | p]; cbn [shr_1 shr_m]; lia. }
    rewrite Hm. destruct (2 ^ m) as [| p | p] eqn:Ep; [lia | | lia].
    destruct (Z.leb_spec (j + 1) (emax - (m + 1))).
    + rewrite to_bits_finite, Ep, Z.ltb_irrefl.
      destruct (Z.leb_spec ((2 ^ exponent_bits format - 1) * Z.pos p) ((j - e0) * Z.pos p + r));
        cbn [FpResult.bits]; [| lia]. unfold unit_exponent, min_exponent in *. nia.
    + rewrite to_bits_infinity, Ep.
      destruct (Z.leb_spec ((2 ^ exponent_bits format - 1) * Z.pos p) ((j - e0) * Z.pos p + r));
        cbn [FpResult.bits]; [reflexivity |]. unfold unit_exponent, min_exponent in *. nia.
  - assert (fexp (m + 1) emax (Zdigits2 r + j) <= j) as Hfe.
    { unfold fexp. rewrite emin_unit. destruct (Z.eq_dec r 0) as [-> | Hz]; [cbn [Zdigits2]; lia |].
      rewrite zdigits2_log2 by lia. assert (Z.log2 r < m + 1); [| lia].
      apply Z.log2_lt_pow2; [lia |]. rewrite Z.pow_add_r by lia. change (2 ^ 1) with 2. lia. }
    rewrite shr_neg by lia. cbn [shr_m]. destruct r as [| p | p]; [| | lia].
    + rewrite to_bits_zero. destruct Hnorm as [-> |]; [| lia]. rewrite Z.sub_diag, Z.mul_0_l.
      destruct (Z.leb_spec ((2 ^ exponent_bits format - 1) * 2 ^ m) (0 + 0)); cbn [FpResult.bits]; [nia | lia].
    + assert (Z.pos p < 2 ^ m -> j = e0) as Hsub by lia.
      destruct (Z.leb_spec j (emax - (m + 1))).
      * rewrite to_bits_finite.
        destruct (Z.leb_spec ((2 ^ exponent_bits format - 1) * 2 ^ m) ((j - e0) * 2 ^ m + Z.pos p));
          cbn [FpResult.bits]; [unfold unit_exponent, min_exponent in *; nia |].
        destruct (Z.ltb_spec (Z.pos p) (2 ^ m)); [rewrite Hsub by assumption |]; lia.
      * rewrite to_bits_infinity.
        destruct (Z.leb_spec ((2 ^ exponent_bits format - 1) * 2 ^ m) ((j - e0) * 2 ^ m + Z.pos p));
          cbn [FpResult.bits]; [reflexivity |]. unfold unit_exponent, min_exponent in *. nia.
Qed.


(** ** What an encoding is *)

(** The significand and exponent of a non-zero finite value of [u] units. *)
Definition canonical (p : positive) (e u : Z) : Prop :=
  e0 <= e <= emax - (m + 1) /\ Z.pos p < 2 ^ (m + 1) /\ (e = e0 \/ 2 ^ m <= Z.pos p) /\
  u = Z.pos p * 2 ^ (e - e0).

(** A datum of the reference as a specification float. *)
Definition spec_of (d : datum) (x : spec_float) : Prop :=
  match d, x with
  | NaN _, S754_nan => True
  | Infinite n, S754_infinity s => s = n
  | Finite n u, S754_zero s => s = n /\ u = 0
  | Finite n u, S754_finite s p e => s = n /\ canonical p e u
  | _, _ => False
  end.

Lemma of_bits_sign (bits : Z) : Z.testbit bits (w - 1) = is_negative format bits.
Proof.
  pose proof (format_bounds format) as Hf. unfold is_negative.
  rewrite wshr_div, <- Z.shiftr_div_pow2 by lia.
  change 1 with (Z.ones 1) at 2. rewrite Z.land_ones by lia. change (2 ^ 1) with 2.
  rewrite <- Z.bit0_mod, Z.shiftr_spec, Z.add_0_l by lia.
  replace (w - 1) with (sign_shift format) by (destruct format; reflexivity).
  destruct (Z.testbit bits (sign_shift format)); reflexivity.
Qed.

Lemma of_bits_spec (bits : Z) : in_format format bits -> spec_of (datum_of format bits) (of_bits bits).
Proof.
  intros Hb. pose proof (format_bounds format) as Hf.
  pose proof (raw_bounds format bits) as Hr. pose proof (fraction_bounds format bits) as Hfr.
  pose proof (pow2_pos m ltac:(lia)) as Hp.
  unfold Ieee.of_bits. rewrite of_bits_sign, emin_unit.
  assert (w - 1 - m = exponent_bits format) as -> by (destruct format; reflexivity).
  rewrite !Z.land_ones, Z.shiftr_div_pow2, Z.shiftl_1_l, Z.ones_equiv, <- Z.sub_1_r by lia.
  fold (fraction format bits) (raw_exponent format bits).
  unfold datum_of, finite, unsigned_units.
  destruct (Z.eqb_spec (raw_exponent format bits) (2 ^ exponent_bits format - 1)) as [He | He].
  - destruct (Z.ltb_spec (raw_exponent format bits) (2 ^ exponent_bits format - 1)); [lia |].
    destruct (fraction format bits =? 0); cbn; trivial.
  - destruct (Z.ltb_spec (raw_exponent format bits) (2 ^ exponent_bits format - 1)); [| lia].
    destruct (Z.eqb_spec (raw_exponent format bits) 0) as [Hz | Hz].
    + rewrite Hz. destruct (fraction format bits) as [| p | p] eqn:Ef; [cbn; auto | | lia].
      cbn [spec_of]. split; [reflexivity |]. unfold canonical.
      replace (Z.max 0 1 + e0 - 1) with e0 by lia. rewrite Z.sub_diag, Z.pow_add_r by lia.
      change (2 ^ 1) with 2. change (2 ^ 0) with 1. unfold unit_exponent, min_exponent. lia.
    + destruct (fraction format bits + 2 ^ m) as [| p | p] eqn:Ep; [lia | | lia].
      cbn [spec_of]. split; [reflexivity |]. unfold canonical.
      rewrite Z.max_l by lia. rewrite Z.pow_add_r by lia. change (2 ^ 1) with 2.
      replace (raw_exponent format bits + e0 - 1 - e0) with (raw_exponent format bits - 1) by lia.
      rewrite (Z.add_comm (2 ^ m)), Ep. unfold unit_exponent, min_exponent. lia.
Qed.

(** ** What a canonical significand stands for *)

Lemma canonical_pos (p : positive) (e u : Z) :
  canonical p e u -> 0 < u /\ Z.log2 u = Z.log2 (Z.pos p) + (e - e0) /\
  quantum format (e0 + Z.log2 u) = e.
Proof.
  intros (He & Hp & Hn & ->). pose proof (format_bounds format) as Hf.
  pose proof (pow2_pos (e - e0) ltac:(lia)).
  assert (Z.log2 (Z.pos p * 2 ^ (e - e0)) = Z.log2 (Z.pos p) + (e - e0)) as Hl
    by (rewrite Z.log2_mul_pow2 by lia; lia).
  split; [lia |]. split; [exact Hl |]. rewrite Hl.
  assert (Z.log2 (Z.pos p) < m + 1) by (apply Z.log2_lt_pow2; lia).
  unfold quantum, unit_exponent in *. destruct Hn as [-> | Hn]; [lia |].
  assert (m <= Z.log2 (Z.pos p)) by (apply Z.log2_le_pow2; lia). lia.
Qed.

(** An exact significand stands for its magnitude at its own scale. *)
Lemma stands_exact (x : magnitude) (q k : Z) :
  magnitude_ok x -> 0 <= q -> represents_at x q false k ->
  stands x (shr_record_of_loc q loc_Exact) k.
Proof.
  intros Hx Hq Hrep. split; cbn [shr_record_of_loc shr_m shr_r shr_s b2z]; [exact Hq |].
  apply (represents_shl x Hx q k 1 ltac:(lia)) in Hrep. change (2 ^ 1) with 2 in Hrep.
  rewrite Z.add_0_r, Z.mul_comm. exact Hrep.
Qed.

(** [n * 2^b] as [q * 2^k]. *)
Lemma represents_scaled (n q b k : Z) :
  n * 2 ^ Z.max 0 (b - k) = q * 2 ^ Z.max 0 (k - b) -> represents_at (ratio n 1 b) q false k.
Proof.
  intros Hn. pose proof (pow2_pos (Z.max 0 (k - b)) ltac:(lia)).
  change false with (negb (0 =? 0)). apply represents_ratio with (Z.max 0 (b - k)); try lia;
    replace (Z.max 0 (b - k) + k - b) with (Z.max 0 (k - b)) by lia; lia.
Qed.

Lemma represents_multiple (n q b k : Z) :
  b <= k -> n = q * 2 ^ (k - b) -> represents_at (ratio n 1 b) q false k.
Proof.
  intros Hk Hn. apply represents_scaled. rewrite (Z.max_l 0 (b - k)), (Z.max_r 0 (k - b)) by lia. lia.
Qed.

(** Rounding a canonical value changes nothing. *)
Lemma round_canonical (s : bool) (p : positive) (e u : Z) :
  canonical p e u ->
  to_bits (binary_round_aux (m + 1) emax s (Z.pos p) e loc_Exact) =
  FpResult.bits (ieee_round format FpRounding.Nearest s (ratio u 1 e0) (e0 + Z.log2 u)).
Proof.
  intros Hc. pose proof (canonical_pos p e u Hc) as (Hu & _ & Hq). destruct Hc as (He & _ & _ & Hpe).
  assert (magnitude_ok (ratio u 1 e0)) as Hx by (apply ratio_ok; lia).
  apply rounding_spec; [exact Hx | apply ratio_exponent, Hu | | lia].
  apply stands_exact; [exact Hx | lia |]. apply represents_multiple; [lia | exact Hpe].
Qed.

Lemma fexp_canonical (p : positive) (e u : Z) :
  canonical p e u -> fexp (m + 1) emax (Zdigits2 (Z.pos p) + e) = e.
Proof.
  intros Hc. pose proof (canonical_pos p e u Hc) as (_ & Hl & Hq). rewrite zdigits2_log2 by lia.
  replace (Z.log2 (Z.pos p) + 1 + e) with (e0 + Z.log2 u + 1) by lia. rewrite fexp_quantum. exact Hq.
Qed.

Lemma canonical_fixed (s : bool) (p : positive) (e u : Z) :
  canonical p e u ->
  binary_round_aux (m + 1) emax s (Z.pos p) e loc_Exact = S754_finite s p e.
Proof.
  intros Hc. pose proof (fexp_canonical p e u Hc) as Hf. destruct Hc as ((_ & He) & _).
  unfold binary_round_aux, shr_fexp. rewrite Hf, Z.sub_diag.
  cbn [shr shr_record_of_loc loc_of_shr_record shr_m round_nearest_even]. rewrite Hf, Z.sub_diag.
  cbn [shr shr_m]. destruct (Z.leb_spec e (emax - (m + 1))); [reflexivity | lia].
Qed.

Lemma to_bits_canonical (s : bool) (p : positive) (e u : Z) :
  canonical p e u ->
  to_bits (S754_finite s p e) =
  FpResult.bits (ieee_round format FpRounding.Nearest s (ratio u 1 e0) (e0 + Z.log2 u)).
Proof. intros Hc. rewrite <- (round_canonical s p e u Hc), (canonical_fixed s p e u Hc). reflexivity. Qed.

(** ** Sums *)

Lemma shl_align_spec (p : positive) (k k' : Z) :
  Z.pos (fst (shl_align p k k')) = Z.pos p * 2 ^ (k - snd (shl_align p k k')) /\
  snd (shl_align p k k') = Z.min k k'.
Proof.
  unfold shl_align. destruct (k' - k) as [| d | d] eqn:Ed; cbn [fst snd].
  - rewrite Z.sub_diag. lia.
  - rewrite Z.sub_diag. lia.
  - rewrite iter_double. replace (k - k') with (Z.pos d) by lia. lia.
Qed.

(** Units are kept by a shift to a smaller exponent. *)
Lemma aligned_units (p : positive) (e k u : Z) :
  e0 <= k <= e -> u = Z.pos p * 2 ^ (e - e0) ->
  u = Z.pos (fst (shl_align p e k)) * 2 ^ (k - e0).
Proof.
  intros Hk ->. destruct (shl_align_spec p e k) as [-> ->].
  rewrite <- Z.mul_assoc, <- Z.pow_add_r by lia. do 2 f_equal. lia.
Qed.

(** A whole number of any quanta rounds. *)
Lemma binary_round_spec (s : bool) (p : positive) (k u b : Z) :
  b <= k -> u = Z.pos p * 2 ^ (k - b) ->
  to_bits (binary_round (m + 1) emax s p k) =
  FpResult.bits (ieee_round format FpRounding.Nearest s (ratio u 1 b) (b + Z.log2 u)).
Proof.
  intros Hk Hu. pose proof (pow2_pos (k - b) ltac:(lia)).
  assert (0 < u) as Hpos by lia.
  assert (Z.log2 u = Z.log2 (Z.pos p) + (k - b)) as Hl by (rewrite Hu, Z.log2_mul_pow2 by lia; lia).
  assert (magnitude_ok (ratio u 1 b)) as Hx by (apply ratio_ok; lia).
  unfold binary_round. rewrite digits2_log2.
  replace (Z.log2 (Z.pos p) + 1 + k) with (b + Z.log2 u + 1) by lia. rewrite fexp_quantum.
  destruct (shl_align_spec p k (quantum format (b + Z.log2 u))) as [Hp' Hk'].
  destruct (shl_align _ _ _) as [p' k']. cbn [fst snd] in *.
  apply rounding_spec; [exact Hx | apply ratio_exponent, Hpos | | lia].
  apply stands_exact; [exact Hx | lia |]. apply represents_scaled.
  rewrite Hp', Hu, <- !Z.mul_assoc, <- !Z.pow_add_r by lia. do 2 f_equal. lia.
Qed.

#[local] Abbreviation delivers_here o bits := (delivers_bits format o bits).

Lemma nan_delivered (o : outcome) :
  match o with Number _ => False | _ => True end -> delivers_here o (to_bits S754_nan).
Proof. destruct o; [intros _ | intros _ | intros []]; destruct format; reflexivity. Qed.

Lemma infinity_delivered (s : bool) :
  delivers_here (Number (FpResult.exact (signed_infinity format s))) (to_bits (S754_infinity s)).
Proof. destruct format, s; reflexivity. Qed.

Lemma zero_delivered (s : bool) :
  delivers_here (Number (FpResult.exact (zero format s))) (to_bits (S754_zero s)).
Proof. destruct format, s; reflexivity. Qed.

Lemma default_never_flushed (r : FpResult) : flushed_result format FpControl.DEFAULT r = r.
Proof. apply flushed_result_none. destruct format; reflexivity. Qed.

#[local] Abbreviation nearest := (FpArithmetic.Context.mk format FpRounding.Nearest FpControl.DEFAULT).

(** A zero and a value. *)
Lemma sum_with_zero (n1 n2 : bool) (p : positive) (e u : Z) :
  canonical p e u ->
  FpResult.bits (ieee_sum format FpRounding.Nearest n1 n2 0 (signed n2 u)) =
  to_bits (S754_finite n2 p e).
Proof.
  intros Hc. rewrite (to_bits_canonical n2 p e u Hc).
  apply f_equal, (ieee_sum_zero nearest), (canonical_pos p e u Hc).
Qed.

Lemma signed_scale (n : bool) (u k : Z) : signed n (u * k) = cond_Zopp n u * k.
Proof. unfold signed, cond_Zopp. destruct n; lia. Qed.

#[local] Ltac same_signs :=
  repeat match goal with
  | H : _ = _ /\ _ |- _ => destruct H as [-> H]
  | H : ?a = _ |- _ => is_var a; subst a
  end.

Lemma sum_delivered (l r : datum) (x y : spec_float) :
  spec_of l x -> spec_of r y ->
  delivers_here (ieee_sum_of format FpRounding.Nearest FpControl.DEFAULT l r)
    (to_bits (SFadd (m + 1) emax x y)).
Proof.
  intros Hl Hr. assert (forall n : bool, signed n 0 = 0) as Hs0 by (intros []; reflexivity).
  destruct l as [s1 | n1 | n1 u1], x as [a | a | | a p1 e1]; try contradiction;
    destruct r as [s2 | n2 | n2 u2], y as [b | b | | b p2 e2]; try contradiction;
    cbn [SFadd ieee_sum_of]; try (apply nan_delivered; exact I);
    cbn [spec_of] in *; same_signs; try apply infinity_delivered.
  - destruct n1, n2; cbn [eqb]; apply infinity_delivered || (apply nan_delivered; exact I).
  - rewrite default_never_flushed, !Hs0.
    unfold ieee_sum. cbv zeta. change (0 + 0 =? 0) with true. cbv iota.
    destruct n1, n2; apply zero_delivered.
  - rewrite default_never_flushed, Hs0. symmetry. apply sum_with_zero, Hr.
  - rewrite default_never_flushed, Hs0, (ieee_sum_comm nearest). symmetry. apply sum_with_zero, Hl.
  - rewrite default_never_flushed.
    pose proof (canonical_pos p1 e1 u1 Hl) as (Hu1 & _). pose proof (canonical_pos p2 e2 u2 Hr) as (Hu2 & _).
    destruct Hl as ((He1 & _) & _ & _ & Hp1), Hr as ((He2 & _) & _ & _ & Hp2).
    rewrite (aligned_units p1 e1 (Z.min e1 e2) u1), (aligned_units p2 e2 (Z.min e1 e2) u2) by lia.
    rewrite !signed_scale. set (k := Z.min e1 e2).
    set (q1 := fst (shl_align p1 e1 k)). set (q2 := fst (shl_align p2 e2 k)).
    unfold ieee_sum. rewrite <- Z.mul_add_distr_r.
    set (N := cond_Zopp n1 (Z.pos q1) + cond_Zopp n2 (Z.pos q2)) in *.
    pose proof (pow2_pos (k - e0) ltac:(lia)) as Hpk.
    cbv zeta. destruct N as [| p | p] eqn:EN; cbn [binary_normalize].
    + rewrite Z.mul_0_l. change (0 =? 0) with true. cbv iota.
      assert (eqb n1 n2 = false) as -> by (destruct n1, n2; cbn in N; subst N; reflexivity || lia).
      apply zero_delivered.
    + destruct (Z.eqb_spec (Z.pos p * 2 ^ (k - e0)) 0); [lia |].
      destruct (Z.ltb_spec (Z.pos p * 2 ^ (k - e0)) 0); [lia |].
      rewrite Z.abs_eq by lia. apply binary_round_spec; [lia | reflexivity].
    + destruct (Z.eqb_spec (Z.neg p * 2 ^ (k - e0)) 0); [lia |].
      destruct (Z.ltb_spec (Z.neg p * 2 ^ (k - e0)) 0); [| lia].
      rewrite Z.abs_neq by lia. apply binary_round_spec; lia.
Qed.

(** The difference is the sum with the sign changed. *)
Lemma sub_opp (x y : spec_float) :
  SFsub (m + 1) emax x y = SFadd (m + 1) emax x (SFopp y).
Proof.
  destruct x as [[] | [] | | [] p1 e1], y as [[] | [] | | [] p2 e2]; cbn [SFsub SFadd SFopp negb];
    try reflexivity; f_equal; cbn [cond_Zopp]; lia.
Qed.

Lemma spec_of_opp (d : datum) (x : spec_float) : spec_of d x -> spec_of (negated d) (SFopp x).
Proof.
  destruct d, x; cbn; intros H; try contradiction; try exact I; try (subst; reflexivity);
    destruct H as [-> H]; split; trivial.
Qed.

(** ** Products *)

Lemma product_delivered (l r : datum) (x y : spec_float) :
  spec_of l x -> spec_of r y ->
  delivers_here (ieee_product_of format FpRounding.Nearest FpControl.DEFAULT l r)
    (to_bits (SFmul (m + 1) emax x y)).
Proof.
  intros Hl Hr.
  destruct l as [s1 | n1 | n1 u1], x as [a | a | | a p1 e1]; try contradiction;
    destruct r as [s2 | n2 | n2 u2], y as [b | b | | b p2 e2]; try contradiction;
    cbn [SFmul ieee_product_of]; try (apply nan_delivered; exact I);
    cbn [spec_of] in *; same_signs;
    rewrite ?Z.mul_0_l, ?Z.mul_0_r, ?Z.eqb_refl;
    try apply infinity_delivered; try apply zero_delivered; try (apply nan_delivered; exact I).
  - pose proof (canonical_pos p2 e2 u2 Hr) as (Hu2 & _).
    destruct (Z.eqb_spec u2 0); [lia | apply infinity_delivered].
  - pose proof (canonical_pos p1 e1 u1 Hl) as (Hu1 & _).
    destruct (Z.eqb_spec u1 0); [lia | apply infinity_delivered].
  - pose proof (canonical_pos p1 e1 u1 Hl) as (Hu1 & _). pose proof (canonical_pos p2 e2 u2 Hr) as (Hu2 & _).
    assert (0 < u1 * u2) as Hu by nia. destruct (Z.eqb_spec (u1 * u2) 0); [lia |].
    rewrite default_never_flushed. pose proof (format_bounds format) as Hf.
    destruct Hl as ((He1 & _) & _ & Hn1 & Hp1), Hr as ((He2 & _) & _ & Hn2 & Hp2).
    assert (u1 * u2 = Z.pos p1 * Z.pos p2 * 2 ^ (e1 + e2 - 2 * e0)) as Hprod.
    { rewrite Hp1, Hp2. replace (e1 + e2 - 2 * e0) with (e1 - e0 + (e2 - e0)) by lia.
      rewrite Z.pow_add_r by lia. ring. }
    assert (magnitude_ok (ratio (u1 * u2) 1 (2 * e0))) as Hx by (apply ratio_ok; lia).
    apply rounding_spec; [exact Hx | apply ratio_exponent, Hu | |].
    + change (Z.pos (p1 * p2)) with (Z.pos p1 * Z.pos p2). apply stands_exact; [exact Hx | lia |].
      apply represents_multiple; [lia | exact Hprod].
    + destruct (quantum_unit (2 * e0 + Z.log2 (u1 * u2))) as [Hq0 Hq].
      assert (Z.log2 (u1 * u2) = Z.log2 (Z.pos p1 * Z.pos p2) + (e1 + e2 - 2 * e0)) as Hl
        by (rewrite Hprod, Z.log2_mul_pow2 by lia; lia).
      assert (2 ^ m <= Z.pos p1 * Z.pos p2 \/ e1 = e0 /\ e2 = e0) as [Hbig | [-> ->]] by nia.
      * apply Z.log2_le_mono in Hbig. rewrite Z.log2_pow2 in Hbig by lia. lia.
      * unfold unit_exponent, min_exponent in *. lia.
Qed.

(** ** Quotients *)

Lemma new_location_eq (d r : Z) :
  new_location d r =
  if r =? 0 then loc_Exact
  else loc_Inexact (if Z.even d then 2 * r ?= d
                    else match 2 * r + 1 ?= d with Gt => Gt | _ => Lt end).
Proof.
  transitivity ((if Z.even d then new_location_even d else new_location_odd d) r); [reflexivity |].
  destruct (Z.even d).
  - change (new_location_even d r) with (if r =? 0 then loc_Exact else loc_Inexact (2 * r ?= d)).
    reflexivity.
  - change (new_location_odd d r) with
      (if r =? 0 then loc_Exact
       else loc_Inexact match 2 * r + 1 ?= d with Lt => Lt | Eq => Lt | Gt => Gt end).
    destruct (r =? 0), (2 * r + 1 ?= d); reflexivity.
Qed.

(** What is left of a division, as the location of the quotient. *)
Lemma new_location_spec (q r d : Z) :
  0 <= r < d ->
  let mrs := shr_record_of_loc q (new_location d r) in
  shr_m mrs = q /\
  2 * (q * d + r) = (2 * q + b2z (shr_r mrs)) * d + (if shr_r mrs then 2 * r - d else 2 * r) /\
  0 <= (if shr_r mrs then 2 * r - d else 2 * r) < d /\
  shr_s mrs = negb ((if shr_r mrs then 2 * r - d else 2 * r) =? 0).
Proof.
  intros Hr. cbv zeta. rewrite shr_record_of_loc_m. split; [reflexivity |].
  assert (forall c, shr_record_of_loc q (loc_Inexact c) =
    Build_shr_record q (match c with Lt => false | _ => true end) (match c with Eq => false | _ => true end))
    as Hloc by (intros []; reflexivity).
  rewrite new_location_eq. destruct (Z.eqb_spec r 0) as [-> | Hnz];
    [cbn [shr_record_of_loc shr_r shr_s b2z]; repeat apply conj; reflexivity || lia |].
  destruct (Z.even d) eqn:Ed.
  - rewrite Hloc; cbn [shr_r shr_s]. destruct (Z.compare_spec (2 * r) d); cbn [b2z];
      match goal with |- context [?z =? 0] => destruct (Z.eqb_spec z 0) end;
      cbn [negb]; repeat apply conj; reflexivity || lia.
  - assert (2 * r <> d) as Hne by (intros <-; rewrite Z.even_mul in Ed; discriminate).
    rewrite Hloc; cbn [shr_r shr_s]. destruct (Z.compare_spec (2 * r + 1) d); cbn [b2z];
      match goal with |- context [?z =? 0] => destruct (Z.eqb_spec z 0) end;
      cbn [negb]; repeat apply conj; reflexivity || lia.
Qed.

Lemma quotient_stands (p1 p2 : positive) (e1 e2 u1 u2 k : Z) :
  canonical p1 e1 u1 -> canonical p2 e2 u2 -> k <= e1 - e2 ->
  let n := Z.pos p1 * 2 ^ (e1 - e2 - k) in
  stands (ratio u1 u2 0)
    (shr_record_of_loc (n / Z.pos p2) (new_location (Z.pos p2) (n mod Z.pos p2))) k.
Proof.
  intros H1 H2 Hk n. pose proof (canonical_pos p1 e1 u1 H1) as (Hu1 & _).
  pose proof (canonical_pos p2 e2 u2 H2) as (Hu2 & _).
  destruct H1 as ((He1 & _) & _ & _ & Hp1), H2 as ((He2 & _) & _ & _ & Hp2).
  pose proof (pow2_pos (e1 - e2 - k) ltac:(lia)).
  pose proof (Z.div_mod n (Z.pos p2) ltac:(lia)) as Hd.
  pose proof (Z.mod_pos_bound n (Z.pos p2) ltac:(lia)) as Hr.
  assert (0 <= n / Z.pos p2) as Hq by (apply Z.div_pos; unfold n; lia).
  destruct (new_location_spec (n / Z.pos p2) (n mod Z.pos p2) (Z.pos p2) Hr) as (Hm & H2n & Hrem & Hs).
  split; [rewrite Hm; exact Hq |]. rewrite Hm, Hs.
  set (bit := shr_r _) in *. set (rem := if bit then _ else _) in *.
  set (t := Z.max 0 (1 - k)). set (B := e2 - e0 + t + (k - 1)).
  pose proof (pow2_pos B ltac:(lia)) as HB.
  replace (rem =? 0) with (rem * 2 ^ B =? 0) by (apply eq_true_iff_eq; rewrite !Z.eqb_eq; nia).
  assert (u2 * 2 ^ (t + (k - 1) - 0) = Z.pos p2 * 2 ^ B) as Hden.
  { rewrite Hp2, <- Z.mul_assoc, <- Z.pow_add_r by lia. do 2 f_equal. lia. }
  assert (u1 * 2 ^ t = 2 * n * 2 ^ B) as Hnum.
  { rewrite Hp1. unfold n. transitivity (Z.pos p1 * (2 ^ 1 * 2 ^ (e1 - e2 - k) * 2 ^ B)); [| change (2 ^ 1) with 2; ring].
    rewrite <- !Z.pow_add_r, <- Z.mul_assoc, <- Z.pow_add_r by lia. do 2 f_equal. lia. }
  apply represents_ratio with t; rewrite ?Hden, ?Hnum; try lia.
  split; [apply Z.mul_nonneg_nonneg | apply Z.mul_lt_mono_pos_r]; lia.
Qed.

Lemma quotient_delivered (l r : datum) (x y : spec_float) :
  spec_of l x -> spec_of r y ->
  delivers_here (ieee_quotient_of format FpRounding.Nearest FpControl.DEFAULT l r)
    (to_bits (SFdiv (m + 1) emax x y)).
Proof.
  intros Hl Hr.
  destruct l as [s1 | n1 | n1 u1], x as [a | a | | a p1 e1]; try contradiction;
    destruct r as [s2 | n2 | n2 u2], y as [b | b | | b p2 e2]; try contradiction;
    cbn [SFdiv ieee_quotient_of]; try (apply nan_delivered; exact I);
    cbn [spec_of] in *; same_signs;
    try apply infinity_delivered; try apply zero_delivered; try (apply nan_delivered; exact I).
  - pose proof (canonical_pos p2 e2 u2 Hr) as (Hu2 & _).
    destruct (Z.eqb_spec u2 0); [lia |]. apply zero_delivered.
  - pose proof (canonical_pos p1 e1 u1 Hl) as (Hu1 & _).
    destruct (Z.eqb_spec u1 0); [lia |]. apply (infinity_delivered (xorb n1 n2)).
  - pose proof (canonical_pos p1 e1 u1 Hl) as (Hu1 & Hl1 & _).
    pose proof (canonical_pos p2 e2 u2 Hr) as (Hu2 & Hl2 & _).
    destruct (Z.eqb_spec u1 0); [lia |]. destruct (Z.eqb_spec u2 0); [lia |]. cbn [andb].
    rewrite default_never_flushed. unfold SFdiv_core_binary.
    rewrite !zdigits2_log2 by lia.
    set (k := Z.min _ (e1 - e2)).
    assert ((match e1 - e2 - k with Z0 => Z.pos p1 | Z.pos _ => Z.shiftl (Z.pos p1) (e1 - e2 - k)
             | Z.neg _ => 0 end) = Z.pos p1 * 2 ^ (e1 - e2 - k)) as ->.
    { destruct (e1 - e2 - k) as [| z | z] eqn:E; [lia | apply Z.shiftl_mul_pow2; lia | symmetry; apply Z.mul_0_r]. }
    assert (k <= e1 - e2) as Hk by apply Z.le_min_r.
    pose proof (quotient_stands p1 p2 e1 e2 u1 u2 k Hl Hr Hk) as Hs. cbv zeta in Hs.
    unfold Z.div, Z.modulo in Hs. destruct (Z.div_eucl _ _) as [q rem].
    apply rounding_spec; [apply ratio_ok; lia | apply ratio_lead_spec; assumption | exact Hs |].
    transitivity (quantum format (Z.log2 u1 - Z.log2 u2 - 1)).
    + etransitivity; [apply Z.le_min_l |]. rewrite <- fexp_quantum. apply Z.eq_le_incl. f_equal. lia.
    + unfold ratio_lead, quantum. destruct (_ =? 0); lia.
Qed.

(** ** Roots *)

Lemma root_ok_units (u : Z) : 0 < u -> magnitude_ok (root (u * 2 ^ (e0 mod 2)) (e0 / 2)).
Proof.
  intros Hu. pose proof (pow2_pos (e0 mod 2) ltac:(apply Z.mod_pos_bound; lia)). apply root_ok. nia.
Qed.

Lemma root_exponent (u : Z) :
  0 < u -> floor_at (root (u * 2 ^ (e0 mod 2)) (e0 / 2)) ((e0 + Z.log2 u) / 2) = 1.
Proof.
  intros Hu. pose proof (Z.mod_pos_bound e0 2 ltac:(lia)) as Hm. pose proof (Z.div_mod e0 2 ltac:(lia)) as He.
  pose proof (Z.log2_nonneg u) as Hl. set (j := (e0 + Z.log2 u) / 2).
  assert (2 * j <= e0 + Z.log2 u < 2 * j + 2) as Hj by (unfold j; Z.to_euclidean_division_equations; lia).
  destruct (root_at (u * 2 ^ (e0 mod 2)) (e0 / 2) j 0 ltac:(lia) ltac:(lia)) as [-> _].
  rewrite Z.mul_0_r, Z.pow_0_r, Z.mul_1_r, Z.add_0_l. apply Z.sqrt_unique. change (Z.succ 1) with 2.
  set (D := 2 * (j - e0 / 2)). pose proof (pow2_pos D ltac:(lia)) as HD.
  destruct (Z.log2_spec u Hu) as [Hlo Hhi]. pose proof (pow2_pos (e0 mod 2) ltac:(lia)) as Hp.
  assert (2 ^ D <= u * 2 ^ (e0 mod 2) < 4 * 2 ^ D) as Hn.
  { split.
    - apply (Z.le_trans _ (2 ^ Z.log2 u * 2 ^ (e0 mod 2))); [| apply Z.mul_le_mono_nonneg_r; lia].
      rewrite <- Z.pow_add_r by lia. apply Z.pow_le_mono_r; lia.
    - apply (Z.lt_le_trans _ (2 ^ Z.succ (Z.log2 u) * 2 ^ (e0 mod 2))); [apply Z.mul_lt_mono_pos_r; lia |].
      change 4 with (2 ^ 2). rewrite <- !Z.pow_add_r by lia. apply Z.pow_le_mono_r; lia. }
  change (1 * 1) with 1. change (2 * 2) with 4. split.
  - apply Z.div_le_lower_bound; lia.
  - apply Z.div_lt_upper_bound; lia.
Qed.

Lemma sqrt_four (n q r : Z) :
  0 <= q -> n = q * q + r -> 0 <= r <= 2 * q ->
  Z.sqrt (4 * n) = 2 * q + b2z (negb (r <=? q)) /\ (Z.sqrt (4 * n) ^ 2 =? 4 * n) = (r =? 0).
Proof.
  intros Hq -> Hr.
  assert (Z.sqrt (4 * (q * q + r)) = 2 * q + b2z (negb (r <=? q))) as ->.
  { apply Z.sqrt_unique. destruct (Z.leb_spec r q); cbn [negb b2z]; nia. }
  split; [reflexivity |]. apply eq_true_iff_eq. rewrite !Z.eqb_eq.
  destruct (Z.leb_spec r q); cbn [negb b2z]; rewrite Z.pow_2_r; lia.
Qed.

Lemma root_stands (p : positive) (e u k : Z) :
  canonical p e u -> 2 * k <= e ->
  let n := Z.pos p * 2 ^ (e - 2 * k) in
  let '(q, r) := Z.sqrtrem n in
  stands (root (u * 2 ^ (e0 mod 2)) (e0 / 2))
    (shr_record_of_loc q
       (if r =? 0 then loc_Exact else loc_Inexact (if r <=? q then Lt else Gt))) k.
Proof.
  intros Hc Hk n. destruct Hc as ((He & _) & _ & _ & Hu).
  pose proof (pow2_pos (e - 2 * k) ltac:(lia)) as Hp.
  pose proof (Z.sqrtrem_spec n ltac:(lia)) as Hs. destruct (Z.sqrtrem n) as [q r]. destruct Hs as [Hn Hr].
  assert (0 <= q) as Hq by lia.
  destruct (sqrt_four n q r Hq Hn Hr) as [Hroot Hexact].
  set (t := Z.max 0 (e0 / 2 - k + 1)).
  destruct (root_at (u * 2 ^ (e0 mod 2)) (e0 / 2) (k - 1) t ltac:(lia) ltac:(unfold t; Z.to_euclidean_division_equations; lia)) as [Hfl Hex].
  set (d := 2 * (t + (k - 1) - e0 / 2)) in *. pose proof (pow2_pos d ltac:(unfold d, t; Z.to_euclidean_division_equations; lia)) as HD.
  assert (u * 2 ^ (e0 mod 2) * 2 ^ (2 * t) = 4 * n * 2 ^ d) as HN.
  { pose proof (Z.mod_pos_bound e0 2 ltac:(lia)). pose proof (Z.div_mod e0 2 ltac:(lia)).
    rewrite Hu. unfold n. change 4 with (2 ^ 2).
    transitivity (Z.pos p * (2 ^ (e - e0) * 2 ^ (e0 mod 2) * 2 ^ (2 * t))); [ring |].
    transitivity (Z.pos p * (2 ^ 2 * 2 ^ (e - 2 * k) * 2 ^ d)); [| ring].
    rewrite <- !Z.pow_add_r by lia. do 2 f_equal. lia. }
  rewrite HN, Z.div_mul in Hfl, Hex by lia. specialize (Hex ltac:(apply Z.mod_mul; lia)).
  assert (forall b : bool, shr_record_of_loc q (loc_Inexact (if b then Lt else Gt)) =
    Build_shr_record q (negb b) true) as Hloc by (intros []; reflexivity).
  split.
  - rewrite shr_record_of_loc_m. exact Hq.
  - split.
    + rewrite Hfl, Hroot. destruct (Z.eqb_spec r 0) as [-> | Hnz].
      * destruct (Z.leb_spec 0 q); [reflexivity | lia].
      * rewrite Hloc. reflexivity.
    + rewrite Hex, Hexact. destruct (r =? 0); [reflexivity |]. rewrite Hloc. reflexivity.
Qed.

Lemma root_delivered (d : datum) (x : spec_float) :
  spec_of d x ->
  delivers_here (ieee_root_of format FpRounding.Nearest FpControl.DEFAULT d)
    (to_bits (SFsqrt (m + 1) emax x)).
Proof.
  intros Hd. destruct d as [s | n | n u], x as [a | a | | a p e]; try contradiction;
    cbn [SFsqrt ieee_root_of spec_of] in *; same_signs; try (apply nan_delivered; exact I);
    try (destruct n; apply infinity_delivered || (apply nan_delivered; exact I));
    try apply zero_delivered.
  pose proof (canonical_pos p e u Hd) as (Hu & Hl & _).
  destruct (Z.eqb_spec u 0); [lia |]. destruct n; [apply nan_delivered; exact I |].
  rewrite default_never_flushed. unfold SFsqrt_core_binary.
  rewrite zdigits2_log2 by lia. set (k := Z.min _ (Z.div2 e)).
  assert (2 * k <= e) as Hk.
  { pose proof (Z.le_min_r (fexp (m + 1) emax (Z.div2 (Z.log2 (Z.pos p) + 1 + e + 1))) (Z.div2 e)).
    fold k in H. rewrite Z.div2_div in H. Z.to_euclidean_division_equations; lia. }
  assert ((match e - 2 * k with Z0 => Z.pos p | Z.pos _ => Z.shiftl (Z.pos p) (e - 2 * k)
           | Z.neg _ => 0 end) = Z.pos p * 2 ^ (e - 2 * k)) as ->.
  { destruct (e - 2 * k) as [| z | z] eqn:E; [lia | apply Z.shiftl_mul_pow2; lia | lia]. }
  pose proof (root_stands p e u k Hd Hk) as Hs. cbv zeta in Hs.
  destruct (Z.sqrtrem _) as [q r].
  apply rounding_spec; [apply root_ok_units, Hu | apply root_exponent, Hu | exact Hs |].
  etransitivity; [apply Z.le_min_l |]. apply Z.eq_le_incl. rewrite <- fexp_quantum. f_equal.
  rewrite Z.div2_div. Z.to_euclidean_division_equations; lia.
Qed.

(** ** Order *)

Lemma canonical_compare (p1 p2 : positive) (e1 e2 u1 u2 : Z) :
  canonical p1 e1 u1 -> canonical p2 e2 u2 ->
  (u1 ?= u2) = match e1 ?= e2 with Eq => Pos.compare_cont Eq p1 p2 | c => c end.
Proof.
  intros (He1 & Hp1 & Hn1 & ->) (He2 & Hp2 & Hn2 & ->). pose proof (format_bounds format) as Hf.
  rewrite Z.pow_add_r in Hp1, Hp2 by lia. change (2 ^ 1) with 2 in *.
  assert (forall p p' e e', Z.pos p < 2 ^ m * 2 -> e0 <= e < e' -> e' = e0 \/ 2 ^ m <= Z.pos p' ->
    Z.pos p * 2 ^ (e - e0) < Z.pos p' * 2 ^ (e' - e0)) as Hless.
  { intros p p' e e' Hp He [-> | Hp']; [lia |].
    replace (e' - e0) with (1 + (e - e0) + (e' - e - 1)) by lia. rewrite !Z.pow_add_r by lia.
    change (2 ^ 1) with 2. pose proof (pow2_pos (e - e0) ltac:(lia)). pose proof (pow2_pos (e' - e - 1) ltac:(lia)).
    set (X := 2 ^ (e - e0)) in *. set (Y := 2 ^ (e' - e - 1)) in *. clearbody X Y.
    apply (Z.lt_le_trans _ (Z.pos p' * (2 * X))); [nia |].
    apply Z.mul_le_mono_nonneg_l; nia. }
  destruct (Z.compare_spec e1 e2) as [-> | Hlt | Hgt].
  - pose proof (pow2_pos (e2 - e0) ltac:(lia)). rewrite !(Z.mul_comm _ (2 ^ (e2 - e0))).
    rewrite <- Zmult_compare_compat_l by lia. reflexivity.
  - apply Z.compare_lt_iff, Hless; lia.
  - apply Z.compare_gt_iff, Hless; lia.
Qed.

(** The units of an infinity, which no finite value has. *)
#[local] Abbreviation top := (2 ^ m * 2 ^ (2 ^ exponent_bits format - 2)).

Definition datum_units (d : datum) : Z :=
  match d with
  | NaN _ => 0
  | Infinite n => signed n top
  | Finite n u => signed n u
  end.

Lemma units_datum (bits : Z) :
  in_format format bits -> is_nan format bits = false ->
  units format bits = datum_units (datum_of format bits) /\
  match datum_of format bits with NaN _ => False | Infinite _ => True | Finite _ u => u < top end.
Proof.
  intros Hb Hn. rewrite is_nan_datum in Hn. unfold datum_of in *.
  pose proof (unsigned_units_bounds format bits) as [Hz Hr]. cbv zeta in Hz, Hr.
  pose proof (raw_bounds format bits) as Hraw. pose proof (fraction_bounds format bits) as Hfr.
  pose proof (format_bounds format) as Hf.
  assert (2 ^ m <= top) as Htop by (pose proof (pow2_pos m ltac:(lia));
    assert (0 < 2 ^ (2 ^ exponent_bits format - 2)) by (apply pow2_pos; lia); nia).
  unfold finite in *. destruct (Z.ltb_spec (raw_exponent format bits) (2 ^ exponent_bits format - 1)).
  - split; [reflexivity |]. destruct (Z.eq_dec (raw_exponent format bits) 0) as [E | E]; [rewrite (Hz E); lia |].
    apply (Z.lt_le_trans _ (2 ^ m * 2 ^ raw_exponent format bits)); [apply Hr; lia |].
    apply Z.mul_le_mono_nonneg_l; [lia | apply Z.pow_le_mono_r; lia].
  - destruct (Z.eqb_spec (fraction format bits) 0) as [E |]; [| discriminate]. split; [| exact I].
    cbn [datum_units]. unfold units, signed. assert (unsigned_units format bits = top) as ->; [| reflexivity].
    unfold unsigned_units. replace (raw_exponent format bits) with (2 ^ exponent_bits format - 1) by lia.
    destruct (Z.eqb_spec (2 ^ exponent_bits format - 1) 0); [lia |]. rewrite E, Z.add_0_r. do 2 f_equal. lia.
Qed.

Lemma compare_spec_of (l r : datum) (x y : spec_float) :
  spec_of l x -> spec_of r y ->
  match l with NaN _ => False | Infinite _ => True | Finite _ u => u < top end ->
  match r with NaN _ => False | Infinite _ => True | Finite _ u => u < top end ->
  SFcompare x y = Some (datum_units l ?= datum_units r).
Proof.
  intros Hl Hr Ll Lr.
  assert (0 < top) as Htop by (pose proof (format_bounds format);
    apply Z.mul_pos_pos; apply pow2_pos; lia).
  unfold datum_units. set (t := top) in *. clearbody t.
  destruct l as [s1 | n1 | n1 u1], x as [a | a | | a p1 e1]; try contradiction;
    destruct r as [s2 | n2 | n2 u2], y as [b | b | | b p2 e2]; try contradiction;
    cbn [spec_of] in *; same_signs;
    repeat match goal with
    | H : canonical ?p ?e ?u |- _ =>
        lazymatch goal with _ : 0 < u |- _ => fail | _ => pose proof (proj1 (canonical_pos p e u H)) end
    end.
  all: unfold signed; cbn [SFcompare]; f_equal.
  all: try (destruct n1, n2; symmetry;
    (apply Z.compare_eq_iff || apply Z.compare_lt_iff || apply Z.compare_gt_iff); lia).
  all: try (destruct n1; symmetry;
    (apply Z.compare_eq_iff || apply Z.compare_lt_iff || apply Z.compare_gt_iff); lia).
  all: try (destruct n2; symmetry;
    (apply Z.compare_eq_iff || apply Z.compare_lt_iff || apply Z.compare_gt_iff); lia).
  pose proof (canonical_compare p1 p2 e1 e2 u1 u2 Hl Hr) as Hc.
  destruct n1, n2; [| symmetry; apply Z.compare_lt_iff; lia | symmetry; apply Z.compare_gt_iff; lia | symmetry; exact Hc].
  rewrite Z.compare_opp, (Z.compare_antisym u1 u2), Hc. destruct (e1 ?= e2); reflexivity.
Qed.

Lemma compare_units (l r : Z) :
  in_format format l -> in_format format r ->
  SFcompare (of_bits l) (of_bits r) =
  if is_nan format l || is_nan format r then None else Some (units format l ?= units format r).
Proof.
  intros Hl Hr. pose proof (of_bits_spec l Hl) as Sl. pose proof (of_bits_spec r Hr) as Sr.
  destruct (is_nan format l) eqn:Nl; [| destruct (is_nan format r) eqn:Nr]; cbn [orb].
  - rewrite is_nan_datum in Nl. destruct (datum_of format l); try discriminate.
    destruct (of_bits l); try contradiction. reflexivity.
  - rewrite is_nan_datum in Nr. destruct (datum_of format r); try discriminate.
    destruct (of_bits r); try contradiction. destruct (of_bits l); reflexivity.
  - destruct (units_datum l Hl Nl) as [-> Ll], (units_datum r Hr Nr) as [-> Lr].
    apply compare_spec_of; assumption.
Qed.

(** ** From another format *)

Lemma narrow_delivered (source : FpFormat) (p : positive) (k u b : Z) (n : bool) :
  b <= k -> u = Z.pos p * 2 ^ (k - b) -> b = unit_exponent source ->
  delivers_here
    (ieee_conversion_of source format FpRounding.Nearest FpControl.DEFAULT (Finite n u))
    (to_bits (binary_normalize (m + 1) emax (if n then Z.neg p else Z.pos p) k false)).
Proof.
  intros Hk Hu ->. pose proof (pow2_pos (k - unit_exponent source) ltac:(lia)).
  cbn [ieee_conversion_of delivers_bits]. destruct (Z.eqb_spec u 0); [lia |].
  rewrite default_never_flushed. destruct n; cbn [binary_normalize]; apply binary_round_spec; assumption.
Qed.

(** ** The laws of the host *)

Lemma ieee_ops_ok : host_ops_ok format (Ieee.ops m w emax).
Proof.
  assert (flushing format FpControl.DEFAULT = false) as Hd by (destruct format; reflexivity).
  split.
  - intros op operator lhs rhs Hop Hl Hr.
    pose proof (of_bits_spec lhs Hl) as Sl. pose proof (of_bits_spec rhs Hr) as Sr.
    unfold ieee_default_of, ieee_binary_of, lhs_datum, rhs_datum.
    cbn [FpOperands.format FpOperands.rounding FpOperands.lhs FpOperands.rhs].
    rewrite !(proj1 (flushed_operand_none format _ _ Hd)).
    cbn [In] in Hop. repeat destruct Hop as [[= <- <-] | Hop]; [| | | | contradiction];
      cbn [host_add host_sub host_mul host_div Ieee.ops].
    + apply sum_delivered; assumption.
    + unfold Ieee.sub, Ieee.on2. rewrite sub_opp. apply sum_delivered; [assumption | apply spec_of_opp, Sr].
    + apply product_delivered; assumption.
    + apply quotient_delivered; assumption.
  - intros lhs rhs Hl Hr. cbn [host_lt Ieee.ops]. unfold Ieee.lt, SFltb. rewrite compare_units by assumption.
    destruct (_ || _); reflexivity.
  - intros lhs rhs Hl Hr. cbn [host_eq Ieee.ops]. unfold Ieee.eq, SFeqb. rewrite compare_units by assumption.
    destruct (_ || _); [reflexivity |]. cbn [negb andb].
    destruct (Z.compare_spec (units format lhs) (units format rhs)),
      (Z.eqb_spec (units format lhs) (units format rhs)); reflexivity || lia.
Qed.

(** The root, likewise. *)
Lemma ieee_sqrt_ok (bits : Z) :
  in_format format bits ->
  delivers_bits format (ieee_root_of format FpRounding.Nearest FpControl.DEFAULT (datum_of format bits))
    (Ieee.sqrt m w emax bits).
Proof. intros Hb. apply root_delivered, of_bits_spec, Hb. Qed.

(** Two results that no program can tell apart but by the payload of a NaN. *)
Definition same_number (a b : Z) : Prop := a = b \/ quiet_nan format a /\ quiet_nan format b.

Lemma same_outcome (o : outcome) (a b : Z) :
  delivers_bits format o a -> delivers_bits format o b -> same_number a b.
Proof. destruct o; cbn [delivers_bits]; intros Ha Hb; [right; auto | right; auto | left; congruence]. Qed.

End Format.

(** ** A host *)

#[global] Instance ieee_host : HostFloat := {
  f32 := Ieee.ops 23 32 128;
  f64 := Ieee.ops 52 64 1024;
  f32_as_f64 value := Ieee.narrow 52 64 1024 (Ieee.of_bits 23 32 128 value);
  f64_as_f32 value := Ieee.narrow 23 32 128 (Ieee.of_bits 52 64 1024 value)
}.

Lemma narrow_ok (source target : FpFormat) :
  host_cast_ok source target (fun value =>
    Ieee.narrow (FpFormat.mantissa_bits target) (FpFormat.bits target) (FpFormat.exponent_bias target + 1)
      (Ieee.of_bits (FpFormat.mantissa_bits source) (FpFormat.bits source)
         (FpFormat.exponent_bias source + 1) value)).
Proof.
  intros value Hv. pose proof (of_bits_spec source value Hv) as Hs. unfold Ieee.narrow.
  destruct (datum_of source value) as [s | n | n u], (Ieee.of_bits _ _ _ _) as [a | a | | a p e];
    try contradiction; cbn [spec_of] in Hs.
  - apply nan_delivered. exact I.
  - subst a. apply infinity_delivered.
  - destruct Hs as [-> ->]. apply zero_delivered.
  - destruct Hs as [-> ((He & _) & _ & _ & Hu)].
    pose proof (narrow_delivered target source p e u _ n He Hu eq_refl) as Hn.
    destruct n; exact Hn.
Qed.

Lemma ieee_host_laws : @HostFloatLaws ieee_host.
Proof.
  split.
  - apply (ieee_ops_ok FpFormat.Single).
  - apply (ieee_ops_ok FpFormat.Double).
  - apply (narrow_ok FpFormat.Single FpFormat.Double).
  - apply (narrow_ok FpFormat.Double FpFormat.Single).
Qed.

Lemma of_int_ok (target : FpFormat) (n : Z) :
  FpResult.bits
    (if n =? 0 then FpResult.exact (zero target false)
     else ieee_round target FpRounding.Nearest (n <? 0) (ratio (Z.abs n) 1 0) (Z.log2 (Z.abs n))) =
  Ieee.of_int (FpFormat.mantissa_bits target) (FpFormat.bits target) (FpFormat.exponent_bias target + 1) n.
Proof.
  unfold Ieee.of_int. rewrite <- (Z.add_0_l (Z.log2 (Z.abs n))).
  destruct n as [| p | p]; cbn [binary_normalize Z.eqb Z.ltb Z.compare Z.abs].
  - destruct target; reflexivity.
  - symmetry. apply binary_round_spec; [lia |]. rewrite Z.sub_diag, Z.pow_0_r. lia.
  - symmetry. apply binary_round_spec; [lia |]. rewrite Z.sub_diag, Z.pow_0_r. lia.
Qed.

(** ** The softfloat backend *)

(** The four operators of the specification. *)
Definition spec_operator (op : FpBinaryOp) : option (Z -> Z -> spec_float -> spec_float -> spec_float) :=
  match op with
  | FpBinaryOp.Add => Some SFadd
  | FpBinaryOp.Sub => Some SFsub
  | FpBinaryOp.Mul => Some SFmul
  | FpBinaryOp.Div => Some SFdiv
  | _ => None
  end.

(** Where nothing is flushed, the root is that of the default mode. *)
Lemma ieee_root_default (format : FpFormat) (control : FpControl) (d : datum) :
  flushing format control = false ->
  ieee_root_of format FpRounding.Nearest control (flushed_operand format control d) =
  ieee_root_of format FpRounding.Nearest FpControl.DEFAULT d.
Proof.
  intros Hf. assert (flushing format FpControl.DEFAULT = false) as Hd by (destruct format; reflexivity).
  rewrite (proj1 (flushed_operand_none format control d Hf)).
  destruct d; cbn [ieee_root_of]; rewrite ?flushed_result_none by assumption; reflexivity.
Qed.

(** What the specification has for an operation on encodings of a format. *)
Definition on_encodings (format : FpFormat) (f : Z -> Z -> spec_float -> spec_float -> spec_float)
    (lhs rhs : Z) : Z :=
  let mantissa := FpFormat.mantissa_bits format in
  let emax := FpFormat.exponent_bias format + 1 in
  Ieee.on2 mantissa (FpFormat.bits format) emax (f (mantissa + 1) emax) lhs rhs.

Definition order_of_spec (c : option comparison) : FpComparison :=
  match c with Some c => order_of c | None => FpComparison.Unordered end.

Lemma spec_operator_ok (format : FpFormat) (op : FpBinaryOp) f (lhs rhs : Z) :
  spec_operator op = Some f -> in_format format lhs -> in_format format rhs ->
  delivers_bits format (ieee_default_of format op lhs rhs) (on_encodings format f lhs rhs).
Proof.
  intros Hf Hl Hr.
  refine (host_operators_ok _ _ (ieee_ops_ok format) op (on_encodings format f) lhs rhs _ Hl Hr).
  destruct op; try discriminate Hf; injection Hf as <-; cbn [In]; auto.
Qed.


