(* ===== verification/FpTheorems.v ===== *)
(** The floating-point unit: what its operations compute, and what the engine
    keeps.

    The reference throughout is the exact result, a [magnitude], rounded by
    [ieee_round].  [halves] names the one case of the rounding step that is
    wrong, a subnormal result that is rounded up to a power of two of the least
    quantum. *)

From stdpp Require Import base numbers list option.
From S2P Require Import Prelude FpOperand FpDecompose FpCompare FpArithmetic FpFused FpBackend.
From S2P Require Import FpConvert FpSoftfloat FpNative FpEngine FpMagnitude FpRound FpValues.
From S2P Require Import FpAddition FpInteger FpData FpOperations FpMultiplyAdd.


#[local] Open Scope Z_scope.

Import FpFormat.

(** A concrete encoding. *)
#[local] Ltac encoding := unfold in_format, in_range; cbn; lia.

(** ** The rounding step *)

(** C10: [round_and_pack] is correct rounding.  A non-zero significand [q] with
    its sticky bit, standing for a magnitude [x] of exponent [e] in units of
    [2^(E - m - 3)], packs to the value of the format that the rounding mode
    chooses for [x], with the flags of IEEE 754, then flushed when FPCR says so;
    the sticky bit needs the significand to have lost at most its leading bit,
    and the case [halves] is left out. *)
Theorem round_and_pack_correct (format : FpFormat) (context : RoundingContext) (x : magnitude)
    (neg : bool) (E q e : Z) :
  let scale := mantissa_bits format + 3 in
  let rounding := RoundingContext.rounding context in
  let is_sticky := RoundingContext.is_sticky context in
  magnitude_ok x -> rounding <> FpRounding.Odd ->
  0 < q < 2 ^ 64 -> (is_sticky = true -> 2 ^ (scale - 1) <= q) ->
  represents_at x q is_sticky (E - scale) ->
  floor_at x e = 1 -> - 2 ^ 20 <= e <= 2 ^ 20 ->
  halves format rounding neg x e = false ->
  decompose.round_and_pack (Unpacked.mk neg E q) format context =
  decompose.apply_flush_to_zero (ieee_round format rounding neg x e) format
    (RoundingContext.control context).
Proof.
  intros scale rounding is_sticky Hx Hodd Hq Hst Hrep He Hb Hh.
  rewrite (round_and_pack_spec format context x neg E q e) by assumption.
  fold rounding. unfold code_round. rewrite Hh. reflexivity.
Qed.

(** One third, in half precision. *)
Lemma round_and_pack_correct_witness :
  decompose.round_and_pack (Unpacked.mk false (-2) 10922) Half
    (RoundingContext.mk FpRounding.Nearest true FpControl.DEFAULT) =
  FpResult.mk 0x3555 FpExceptions.INEXACT.
Proof.
  rewrite (round_and_pack_correct Half (RoundingContext.mk FpRounding.Nearest true FpControl.DEFAULT)
    (ratio 1 3 0) false (-2) 10922 (-2)).
  - vm_compute. reflexivity.
  - apply ratio_ok; lia.
  - discriminate.
  - lia.
  - intros _. vm_compute. discriminate.
  - split; vm_compute; reflexivity.
  - vm_compute. reflexivity.
  - lia.
  - vm_compute. reflexivity.
Defined.

(** ** Arithmetic *)

(** The flags that reading two operands raises. *)
Definition pair_flags (format : FpFormat) (control : FpControl) (lhs rhs : Z) : FpExceptions :=
  FpExceptions.union (operand_flags format control (datum_of format lhs))
    (operand_flags format control (datum_of format rhs)).

(** C11: [add] is IEEE 754 addition and subtraction on every pair of encodings, in
    every rounding mode that FPCR can select, with and without flushing: NaNs
    and infinities, the sign of a zero result, and the correctly rounded sum of
    the values, with the flags. *)
Theorem add_correct (lhs rhs : Z) (is_subtracting : bool) (context : Context) :
  let format := Context.format context in
  let control := Context.control context in
  let l := flushed_operand format control (datum_of format lhs) in
  let r := flushed_operand format control (datum_of format rhs) in
  in_format format lhs -> in_format format rhs -> Context.rounding context <> FpRounding.Odd ->
  delivers format (pair_flags format control lhs rhs)
    (ieee_sum_of format (Context.rounding context) control l (if is_subtracting then negated r else r))
    (arithmetic.add lhs rhs is_subtracting context).
Proof. intros format control l r Hl Hr Hodd. apply add_delivers; assumption. Qed.

(** [1.0 - 2^-60] toward zero, and infinity less infinity. *)
Lemma add_correct_witness :
  let context := Context.mk Double FpRounding.Zero FpControl.DEFAULT in
  arithmetic.add 0x3FF0000000000000 0x3C30000000000000 true context =
    FpResult.mk 0x3FEFFFFFFFFFFFFF FpExceptions.INEXACT /\
  arithmetic.add 0x7FF0000000000000 0x7FF0000000000000 true context =
    FpResult.mk 0x7FF8000000000000 FpExceptions.INVALID.
Proof.
  intros context.
  pose proof (add_correct 0x3FF0000000000000 0x3C30000000000000 true context ltac:(encoding)
    ltac:(encoding) ltac:(discriminate)) as H1.
  pose proof (add_correct 0x7FF0000000000000 0x7FF0000000000000 true context ltac:(encoding)
    ltac:(encoding) ltac:(discriminate)) as H2.
  split; [exact H1 | exact H2].
Defined.

(** C28: [multiply] is IEEE 754 multiplication on every pair of encodings, in
    every mode, with and without flushing, outside the case [halves]: the exact
    product of finite values, correctly rounded. *)
Theorem multiply_correct (lhs rhs : Z) (context : Context) :
  let format := Context.format context in
  let rounding := Context.rounding context in
  let control := Context.control context in
  let l := flushed_operand format control (datum_of format lhs) in
  let r := flushed_operand format control (datum_of format rhs) in
  in_format format lhs -> in_format format rhs -> rounding <> FpRounding.Odd ->
  product_rounds format rounding l r ->
  delivers format (pair_flags format control lhs rhs) (ieee_product_of format rounding control l r)
    (arithmetic.multiply lhs rhs context).
Proof. intros format rounding control l r Hl Hr Hodd Hh. apply multiply_delivers; assumption. Qed.

(** The largest half-precision value squared overflows; an infinity times a zero
    is invalid. *)
Lemma multiply_correct_witness :
  let context := Context.mk Half FpRounding.Plus FpControl.DEFAULT in
  arithmetic.multiply 0x7BFF 0xFBFF context =
    FpResult.mk 0xFBFF (FpExceptions.union FpExceptions.OVERFLOW FpExceptions.INEXACT) /\
  arithmetic.multiply 0x7C00 0x8000 context = FpResult.mk 0x7E00 FpExceptions.INVALID.
Proof.
  intros context. split.
  - refine (multiply_correct 0x7BFF 0xFBFF context _ _ _ _); [encoding | encoding | discriminate |].
    intros n1 n2 u1 u2 [= <- <-] [= <- <-]. vm_compute. reflexivity.
  - refine (multiply_correct 0x7C00 0x8000 context _ _ _ _); [encoding | encoding | discriminate |].
    intros n1 n2 u1 u2 [=].
Defined.

(** C29: [divide] never panics and is IEEE 754 division on every pair of
    encodings, in every mode, with and without flushing, outside the case
    [halves]: a finite value over zero is an infinity with DZC, zero over zero the
    default NaN with IOC, and any other quotient the exact one, correctly
    rounded. *)
Theorem divide_correct (lhs rhs : Z) (context : Context) :
  let format := Context.format context in
  let rounding := Context.rounding context in
  let control := Context.control context in
  let l := flushed_operand format control (datum_of format lhs) in
  let r := flushed_operand format control (datum_of format rhs) in
  in_format format lhs -> in_format format rhs -> rounding <> FpRounding.Odd ->
  quotient_rounds format rounding l r ->
  returns (arithmetic.divide lhs rhs context)
    (delivers format (pair_flags format control lhs rhs) (ieee_quotient_of format rounding control l r)).
Proof. intros format rounding control l r Hl Hr Hodd Hh. apply divide_delivers; assumption. Qed.

(** [1.0 / 3.0]. *)
Lemma divide_correct_witness :
  returns (arithmetic.divide 0x3F800000 0x40400000 (Context.mk Single FpRounding.Nearest FpControl.DEFAULT))
    (fun result => result = FpResult.mk 0x3EAAAAAB FpExceptions.INEXACT).
Proof.
  eapply returns_mono.
  - apply (divide_correct 0x3F800000 0x40400000 (Context.mk Single FpRounding.Nearest FpControl.DEFAULT));
      [encoding | encoding | discriminate |].
    intros n1 n2 u1 u2 [= <- <-] [= <- <-] _ _. vm_compute. reflexivity.
  - intros result H. rewrite H. vm_compute. reflexivity.
Defined.

(** C30: [square_root] is the IEEE 754 square root of every encoding, in every
    mode, with and without flushing: the exact root, correctly rounded; a zero
    for a zero, of its sign, and the default NaN with IOC for a negative
    value. *)
Theorem square_root_correct (bits : Z) (context : Context) :
  let format := Context.format context in
  let control := Context.control context in
  in_format format bits -> Context.rounding context <> FpRounding.Odd ->
  delivers format (operand_flags format control (datum_of format bits))
    (ieee_root_of format (Context.rounding context) control
       (flushed_operand format control (datum_of format bits)))
    (arithmetic.square_root bits context).
Proof. intros format control Hb Hodd. apply square_root_delivers; assumption. Qed.

(** The root of two, and of minus zero. *)
Lemma square_root_correct_witness :
  let context := Context.mk Double FpRounding.Minus FpControl.DEFAULT in
  arithmetic.square_root 0x4000000000000000 context = FpResult.mk 0x3FF6A09E667F3BCC FpExceptions.INEXACT /\
  arithmetic.square_root 0x8000000000000000 context = FpResult.exact 0x8000000000000000.
Proof.
  intros context. split.
  - refine (square_root_correct 0x4000000000000000 context _ _); [encoding | discriminate].
  - refine (square_root_correct 0x8000000000000000 context _ _); [encoding | discriminate].
Defined.

(** ** Fused multiply-add *)

(** C31: the fused multiply-add rounds [addend + multiplicand * multiplier], with
    the two sign controls, exactly once, on every triple of encodings: NaNs, the
    invalid products and sums, infinities, and finite values when the product
    and the addend have one sign or their alignment loses nothing, outside the
    case [halves]; nothing is flushed. *)
Theorem multiply_add_correct (operands : FusedOperands) (context : Context) :
  let format := Context.format context in
  let rounding := Context.rounding context in
  in_format format (FusedOperands.multiplicand operands) ->
  in_format format (FusedOperands.multiplier operands) ->
  in_format format (FusedOperands.addend operands) ->
  flushing format (Context.control context) = false -> rounding <> FpRounding.Odd ->
  fused_rounds format rounding operands ->
  delivers format FpExceptions.NONE (ieee_fused_of format rounding operands)
    (fused.multiply_add operands context).
Proof. apply multiply_add_delivers. Qed.

(** [1 + 2^-52] squared, less one: the product is not rounded before the
    subtraction. *)
Lemma multiply_add_correct_witness :
  fused.multiply_add
    (FusedOperands.mk 0x3FF0000000000001 0x3FF0000000000001 0x3FF0000000000000 false true)
    (Context.mk Double FpRounding.Plus FpControl.DEFAULT) =
  FpResult.mk 0x3CC0000000000001 FpExceptions.INEXACT.
Proof.
  refine (multiply_add_correct
    (FusedOperands.mk 0x3FF0000000000001 0x3FF0000000000001 0x3FF0000000000000 false true)
    (Context.mk Double FpRounding.Plus FpControl.DEFAULT) _ _ _ _ _ _);
    [encoding | encoding | encoding | reflexivity | discriminate |].
  intros _ _ _. split; [right |]; vm_compute; reflexivity.
Defined.

(** ** Comparison *)

(** Comparison is by value.  For any two encodings of a format, infinities
    and subnormals included, [compare] reports unordered exactly when one of
    them is a NaN, and raises invalid then for FCMPE or for a signalling NaN;
    otherwise it raises nothing and orders the values, the two zeroes equal. *)
Theorem compare_correct (lhs rhs : Z) (format : FpFormat) (is_signalling : bool) :
  in_format format lhs -> in_format format rhs ->
  compare.compare lhs rhs format is_signalling =
  if is_nan format lhs || is_nan format rhs then
    (FpComparison.Unordered,
     if is_signalling || is_signalling_nan format lhs || is_signalling_nan format rhs
     then FpExceptions.INVALID else FpExceptions.NONE)
  else (order_of (units format lhs ?= units format rhs), FpExceptions.NONE).
Proof.
  intros Hl Hr. unfold compare.compare, nan.any_nan, nan.signalling_among. cbn [existsb].
  rewrite !orb_false_r, orb_assoc.
  destruct (is_nan format lhs || is_nan format rhs); [reflexivity |].
  rewrite ordering_units by assumption. reflexivity.
Qed.

(** [-inf < -0x1p-149], single precision. *)
Lemma compare_correct_witness :
  compare.compare 0xFF800000 0x80000001 Single true = (FpComparison.Less, FpExceptions.NONE).
Proof.
  rewrite compare_correct; [vm_compute; reflexivity | |]; (vm_compute; split; discriminate || reflexivity).
Defined.

(** ** Conversions *)

(** C32: [to_integer] saturates.  A NaN gives zero with IOC and an infinity the
    bound of its sign with IOC.  A finite value below 2^128 in magnitude is
    rounded to the integer [n] the mode chooses; an [n] outside the target's
    range gives the nearer bound with IOC, and one inside it its two's
    complement, with IXC exactly when the value was no integer.  A negative
    value to an unsigned target gives zero with IOC, whatever it rounds to. *)
Theorem to_integer_correct (bits : Z) (format : FpFormat) (target : IntFormat)
    (rounding : FpRounding) :
  int_format_ok target -> in_format format bits -> rounding <> FpRounding.Odd ->
  (forall n u, datum_of format bits = Finite n u -> u < 2 ^ (128 - unit_exponent format)) ->
  convert.to_integer bits format target rounding =
  ieee_integer_of format rounding target (datum_of format bits).
Proof. apply to_integer_delivers. Qed.

(** [-2147483648.75] to a signed word, toward minus infinity, and minus infinity
    to a signed doubleword. *)
Lemma to_integer_correct_witness :
  convert.to_integer 0xC1E0000000180000 Double IntFormat.S32 FpRounding.Minus =
    FpResult.mk 0x80000000 FpExceptions.INVALID /\
  convert.to_integer 0xFF800000 Single IntFormat.S64 FpRounding.Zero =
    FpResult.mk 0x8000000000000000 FpExceptions.INVALID.
Proof.
  split; (rewrite to_integer_correct; [vm_compute; reflexivity | | encoding | discriminate |]).
  - vm_compute. split; discriminate.
  - intros n u [= <- <-]. vm_compute. reflexivity.
  - vm_compute. split; discriminate.
  - intros n u [=].
Defined.

(** [from_integer] rounds the integer that the register holds, in either
    signedness and any width up to 64 bits, to the target correctly: overflow to
    infinity in half precision included. *)
Theorem from_integer_correct (value : Z) (source : IntFormat) (target : FpFormat)
    (rounding : FpRounding) (control : FpControl) :
  let n := int_value source value in
  int_format_ok source -> in_range 64 value -> rounding <> FpRounding.Odd ->
  convert.from_integer value source target rounding control =
  if n =? 0 then FpResult.exact (zero target false)
  else flushed_result target control
         (ieee_round target rounding (n <? 0) (ratio (Z.abs n) 1 0) (Z.log2 (Z.abs n))).
Proof. apply from_integer_flushed. Qed.

(** [2^24 + 1], to single precision. *)
Lemma from_integer_correct_witness :
  convert.from_integer 0xFFFFFFFFFEFFFFFF IntFormat.S32 Single FpRounding.Nearest FpControl.DEFAULT =
  FpResult.mk 0xCB800000 FpExceptions.INEXACT.
Proof.
  rewrite from_integer_correct; [vm_compute; reflexivity | | | discriminate].
  - vm_compute. split; discriminate.
  - vm_compute. split; discriminate || reflexivity.
Defined.

(** C34: [round_to_integral] rounds every finite value to the integer that the
    mode chooses, in every mode but rounding to odd and under every FPCR, keeping
    the sign of a value that rounds away, and raises nothing for it; an infinity is
    itself and a NaN is quieted.  No FPCR flushes the operand: a subnormal is
    rounded by its value, away from zero where the mode says so. *)
Theorem round_to_integral_correct (bits : Z) (format : FpFormat) (rounding : FpRounding)
    (control : FpControl) :
  in_format format bits -> rounding <> FpRounding.Odd ->
  delivers format FpExceptions.NONE (ieee_integral_of format rounding (datum_of format bits))
    (convert.round_to_integral bits format rounding control).
Proof. apply round_to_integral_delivers. Qed.

(** [2.5] to even, [-0.25] up to a negative zero, and the least subnormal up to
    one although FPCR.FZ is set. *)
Lemma round_to_integral_correct_witness :
  convert.round_to_integral 0x4100 Half FpRounding.Nearest FpControl.DEFAULT = FpResult.exact 0x4000 /\
  convert.round_to_integral 0xB400 Half FpRounding.Plus FpControl.DEFAULT = FpResult.exact 0x8000 /\
  convert.round_to_integral 1 Single FpRounding.Plus (FpControl.from_bits (2 ^ 24)) =
    FpResult.exact 0x3F800000.
Proof.
  split; [| split].
  - refine (round_to_integral_correct 0x4100 Half FpRounding.Nearest FpControl.DEFAULT _ _);
      [encoding | discriminate].
  - refine (round_to_integral_correct 0xB400 Half FpRounding.Plus FpControl.DEFAULT _ _);
      [encoding | discriminate].
  - refine (round_to_integral_correct 1 Single FpRounding.Plus (FpControl.from_bits (2 ^ 24)) _ _);
      [encoding | discriminate].
Defined.

(** C33: [convert_format] is the IEEE 754 conversion between any two formats, in
    every mode, with and without flushing, outside the case [halves]: finite
    values correctly rounded, infinities and the sign of zeros kept, a NaN a
    quiet NaN of the target with IOC exactly when it was signalling. *)
Theorem convert_format_correct (bits : Z) (source target : FpFormat) (control : FpControl)
    (rounding : FpRounding) :
  in_format source bits -> rounding <> FpRounding.Odd ->
  conversion_rounds source target rounding (datum_of source bits) ->
  delivers target FpExceptions.NONE
    (ieee_conversion_of source target rounding control (datum_of source bits))
    (convert.convert_format bits source target control rounding).
Proof. apply convert_delivers. Qed.

(** The largest double overflows in half precision; a flushed subnormal. *)
Lemma convert_format_correct_witness :
  convert.convert_format 0x7FEFFFFFFFFFFFFF Double Half FpControl.DEFAULT FpRounding.Nearest =
    FpResult.mk 0x7C00 (FpExceptions.union FpExceptions.OVERFLOW FpExceptions.INEXACT) /\
  convert.convert_format 0xB6A0000000000000 Double Single (FpControl.from_bits (2 ^ 24)) FpRounding.Nearest =
    FpResult.mk 0x80000000 (FpExceptions.union FpExceptions.UNDERFLOW FpExceptions.INEXACT).
Proof.
  split.
  - refine (convert_format_correct 0x7FEFFFFFFFFFFFFF Double Half FpControl.DEFAULT FpRounding.Nearest _ _ _);
      [encoding | discriminate |]. intros n u [= <- <-]. vm_compute. reflexivity.
  - refine (convert_format_correct 0xB6A0000000000000 Double Single (FpControl.from_bits (2 ^ 24))
      FpRounding.Nearest _ _ _);
      [encoding | discriminate |]. intros n u [= <- <-]. vm_compute. reflexivity.
Defined.

(** Widening is exact and undone by narrowing.  A finite value of [source],
    converted to a format that has every value of it and back, in any two
    rounding modes, is the same encoding, and no flag is raised on the way. *)
Theorem convert_round_trip (source target : FpFormat) (bits : Z) (control : FpControl)
    (rounding rounding' : FpRounding) :
  widens source target = true ->
  flushing source control = false -> flushing target control = false ->
  rounding <> FpRounding.Odd -> rounding' <> FpRounding.Odd -> number source bits ->
  exists wide,
    convert.convert_format bits source target control rounding = FpResult.exact wide /\
    convert.convert_format wide target source control rounding' = FpResult.exact bits.
Proof.
  intros Hw Hs Ht Hr Hr' [Hb Hfin].
  destruct (round_trip source target bits control rounding rounding' Hw Hs Ht Hr Hr' Hb Hfin)
    as (wide & H1 & _ & _ & H2).
  exists wide. split; assumption.
Qed.

(** The least single-precision subnormal. *)
Lemma convert_round_trip_witness :
  exists wide,
    convert.convert_format 1 Single Double FpControl.DEFAULT FpRounding.Plus = FpResult.exact wide /\
    convert.convert_format wide Double Single FpControl.DEFAULT FpRounding.Zero = FpResult.exact 1.
Proof.
  apply convert_round_trip; try reflexivity; try discriminate.
  split; [vm_compute; split; discriminate || reflexivity | vm_compute; reflexivity].
Defined.

(** The bit-by-bit square root of a [u128] is the integer square root: the
    64 rounds the loop has are enough for every value. *)
Theorem isqrt_u128_correct (value : Z) :
  in_range 128 value -> arithmetic.isqrt_u128 value = Z.sqrt value.
Proof. apply isqrt_u128_spec. Qed.

Lemma isqrt_u128_correct_witness :
  arithmetic.isqrt_u128 (2 ^ 128 - 1) = 2 ^ 64 - 1.
Proof.
  rewrite isqrt_u128_correct; [vm_compute; reflexivity | vm_compute; split; discriminate || reflexivity].
Defined.

(** ** Where the code departs from the reference *)

(** [halves]: half precision, to nearest.  The least normal value times
    [0x3BFF / 0x3C00] rounds to the least normal, [0x0400], and comes out as half
    of it; the least subnormal times three quarters comes out as zero. *)
Lemma subnormal_carry_halved :
  let context := Context.mk Half FpRounding.Nearest FpControl.DEFAULT in
  let reference := ieee_product_of Half FpRounding.Nearest FpControl.DEFAULT in
  arithmetic.multiply 0x0400 0x3BFF context =
    FpResult.mk 0x0200 (FpExceptions.union FpExceptions.INEXACT FpExceptions.UNDERFLOW) /\
  delivers_bits Half (reference (datum_of Half 0x0400) (datum_of Half 0x3BFF)) 0x0400 /\
  FpResult.bits (arithmetic.multiply 0x0001 0x3A00 context) = 0 /\
  delivers_bits Half (reference (datum_of Half 0x0001) (datum_of Half 0x3A00)) 1.
Proof. vm_compute. repeat split. Qed.

(** [1.0 - 2^-1022] toward zero, fused: the bits of the product that the
    alignment shifts out are not borrowed for. *)
Lemma fused_borrow_missing :
  let operands := FusedOperands.mk 0x0010000000000000 0x3FF0000000000000 0x3FF0000000000000 true false in
  FpResult.bits (fused.multiply_add operands (Context.mk Double FpRounding.Zero FpControl.DEFAULT)) =
    0x3FF0000000000000 /\
  FpResult.bits (ieee_fused Double FpRounding.Zero operands) = 0x3FEFFFFFFFFFFFFF.
Proof. vm_compute. split; reflexivity. Qed.

(** [2^128] converts to zero, with no flag, instead of saturating. *)
Lemma to_integer_wraps :
  convert.to_integer 0x47F0000000000000 Double IntFormat.U64 FpRounding.Zero = FpResult.exact 0.
Proof. vm_compute. reflexivity. Qed.

(** The fixed-point forms: [1.5] with one fractional bit is [1], not [3]. *)
Lemma fractional_bits_ignored :
  FpResult.bits (Softfloat.to_integer Softfloat.new (FpValue.mk 0x3FC00000 Single)
    (ToIntegerTarget.mk IntFormat.S32 FpRounding.Zero 1) FpControl.DEFAULT) = 1.
Proof. vm_compute. reflexivity. Qed.

(** FSUB returns its NaN operand with the sign flipped, and a quiet first
    operand hides a signalling second one. *)
Lemma nan_choice :
  FpResult.bits (arithmetic.add 0x3F800000 0x7FC00001 true
    (Context.mk Single FpRounding.Nearest FpControl.DEFAULT)) = 0xFFC00001 /\
  nan.propagate [0x7FC00001; 0x7F800002] Single FpControl.DEFAULT =
    Some (FpResult.mk 0x7FC00001 FpExceptions.INVALID).
Proof. vm_compute. split; reflexivity. Qed.
