(* ===== verification/FpEngineTheorems.v ===== *)
(** The engine: which backend serves an FPCR value, that the choice cannot be
    seen in any operation, and that the exception flags only accumulate. *)

From stdpp Require Import base numbers list option.
From S2P Require Import Prelude FpOperand FpDecompose FpCompare FpArithmetic FpFused FpBackend.
From S2P Require Import FpConvert FpSoftfloat FpNative FpEngine FpMagnitude FpRound FpValues.
From S2P Require Import FpAddition FpInteger FpData FpOperations FpMultiplyAdd FpLaws FpHost.

#[local] Open Scope Z_scope.

(** ** Selection *)

Lemma land_lor_zero (x a b : Z) :
  (Z.land x (Z.lor a b) =? 0) = (Z.land x a =? 0) && (Z.land x b =? 0).
Proof.
  rewrite Z.land_lor_distr_r. apply eq_true_iff_eq.
  rewrite andb_true_iff, !Z.eqb_eq, Z.lor_eq_0_iff. reflexivity.
Qed.

Lemma has_bit_spec (fpcr b : Z) : 0 <= b < 64 -> FpControl.has_bit fpcr b = Z.testbit fpcr b.
Proof.
  intros Hb. unfold FpControl.has_bit.
  assert (wshl 64 1 b = 2 ^ b) as ->.
  { rewrite wshl_small, Z.mul_1_l; [reflexivity | lia |]. rewrite Z.mul_1_l.
    split; [apply Z.pow_nonneg; lia | apply Z.pow_lt_mono_r; lia]. }
  rewrite land_bit by lia. apply negb_involutive.
Qed.

(** The mask test agrees with the interpreted control. *)
Lemma default_mode_bits (fpcr : Z) :
  is_default_mode_bits fpcr = FpControl.is_default_mode (FpControl.from_bits fpcr).
Proof.
  unfold is_default_mode_bits, FpControl.is_default_mode, FpControl.from_bits.
  cbn [FpControl.rounding FpControl.is_flush_to_zero FpControl.is_flush_to_zero_fp16
       FpControl.is_default_nan FpControl.is_alternative_fp16].
  unfold MEANINGFUL_BITS. rewrite !land_lor_zero.
  rewrite !has_bit_spec by (vm_compute; split; congruence).
  assert (forall b, 0 <= b < 64 -> (Z.land fpcr (wshl 64 1 b) =? 0) = negb (Z.testbit fpcr b)) as Hbit.
  { intros b Hb. rewrite <- has_bit_spec by exact Hb. unfold FpControl.has_bit. symmetry. apply negb_involutive. }
  rewrite !Hbit by (vm_compute; split; congruence).
  assert ((Z.land fpcr (wshl 64 3 fpcr_bit.RMODE_LSB) =? 0) =
          match FpRounding.from_rmode (as_u8 (Z.land (wshr 64 fpcr fpcr_bit.RMODE_LSB) 3)) with
          | FpRounding.Nearest => true | _ => false end) as ->.
  { change (wshl 64 3 fpcr_bit.RMODE_LSB) with (Z.lor (2 ^ 22) (2 ^ 23)).
    rewrite land_lor_zero, !land_bit by lia.
    assert (Z.land (wshr 64 fpcr fpcr_bit.RMODE_LSB) 3 =
            b2z (Z.testbit fpcr 22) + 2 * b2z (Z.testbit fpcr 23)) as ->.
    { change 3 with (2 ^ 2 - 1). rewrite land_low by lia. unfold wshr, fpcr_bit.RMODE_LSB.
      change (22 mod 64) with 22. change (2 ^ 2) with (2 * 2).
      rewrite Z.rem_mul_r, !Zmod_odd by lia.
      rewrite <- Z.bit0_odd, Z.shiftr_spec by lia.
      change (Z.shiftr fpcr 22 / 2) with (Z.shiftr fpcr 22 / 2 ^ 1).
      rewrite <- Z.shiftr_div_pow2, <- Z.bit0_odd, !Z.shiftr_spec by lia.
      change (0 + 22) with 22. change (0 + 1 + 22) with 23. destruct (Z.testbit fpcr 22), (Z.testbit fpcr 23); reflexivity. }
    destruct (Z.testbit fpcr 22), (Z.testbit fpcr 23); reflexivity. }
  rewrite <- !andb_assoc. f_equal.
  destruct (Z.testbit fpcr fpcr_bit.FZ), (Z.testbit fpcr fpcr_bit.DN), (Z.testbit fpcr fpcr_bit.AHP),
    (Z.testbit fpcr fpcr_bit.FZ16); reflexivity.
Qed.

Section Engine.

Context `{HF : HostFloat} `{PB : PreciseBuild}.

(** The native backend is selected exactly when the build is not precise
    and FPCR, as it is interpreted, is in its default mode; the cheap test that
    [select] does on the register's bits reads nothing else. *)
Theorem select_default_mode (fpcr : Z) :
  FpEngine.selects_native_backend fpcr =
  negb IS_PRECISE_BUILD && FpControl.is_default_mode (FpEngine.control (FpEngine.with_fpcr fpcr)).
Proof.
  cbn [FpEngine.with_fpcr FpEngine.control]. rewrite <- default_mode_bits.
  unfold FpEngine.selects_native_backend, FpEngine.select.
  destruct IS_PRECISE_BUILD; [reflexivity |]. cbn [orb negb andb].
  destruct (is_default_mode_bits fpcr); reflexivity.
Qed.

(** ** The flags *)

(** What every operation of the engine keeps: the selection, the control, and
    each flag that was set. *)
Definition keeps (self self' : FpEngine) : Prop :=
  FpEngine.selected self' = FpEngine.selected self /\
  FpEngine.control self' = FpEngine.control self /\
  Z.land (FpEngine.exceptions self) (FpEngine.exceptions self') = FpEngine.exceptions self.

Lemma raise_keeps (self : FpEngine) (raised : FpExceptions) : keeps self (FpEngine.raise self raised).
Proof.
  repeat split. cbn [FpEngine.raise FpEngine.set_exceptions FpEngine.exceptions]. unfold accumulate.
  rewrite Z.land_lor_distr_r, Z.land_diag. apply Z.bits_inj'. intros i Hi.
  rewrite Z.lor_spec, Z.land_spec. destruct (Z.testbit _ i); [reflexivity | apply andb_false_l].
Qed.

(** the exception flags are cumulative.  No operation of the engine, on any
    operands and under either backend, clears a flag of FPSR, changes the
    selected backend or the interpreted FPCR. *)
Theorem flags_accumulate (self : FpEngine) :
  (forall op operands, match FpEngine.binary self op operands with
                       | Done (_, self') => keeps self self' | Panic => True end) /\
  (forall op operand rounding, keeps self (snd (FpEngine.unary self op operand rounding))) /\
  (forall operands, keeps self (snd (FpEngine.fused_multiply_add self operands))) /\
  (forall operands is_signalling, keeps self (snd (FpEngine.compare self operands is_signalling))) /\
  (forall operands, keeps self (snd (FpEngine.compare_ordering self operands))) /\
  (forall value target, keeps self (snd (FpEngine.convert_format self value target))) /\
  (forall value target, keeps self (snd (FpEngine.to_integer self value target))) /\
  (forall value source, keeps self (snd (FpEngine.convert_from_integer self value source))).
Proof.
  repeat apply conj; intros; unfold FpEngine.unary, FpEngine.fused_multiply_add, FpEngine.compare,
    FpEngine.compare_ordering, FpEngine.convert_format, FpEngine.to_integer,
    FpEngine.convert_from_integer, FpEngine.record; cbn [snd]; try apply raise_keeps.
  - unfold FpEngine.binary.
    destruct (binary (backend_value (FpEngine.backend self)) op operands (FpEngine.control self));
      [apply raise_keeps | exact I].
  - destruct (compare _ _ _) as [ordering raised]. apply raise_keeps.
  - destruct (compare _ _ _) as [ordering raised]. apply raise_keeps.
Qed.

(** ** The choice cannot be seen *)

(** The native backend is only kept for the default mode. *)
Definition engine_ok (self : FpEngine) : Prop :=
  match FpEngine.selected self with
  | Selected.Native _ => FpControl.is_default_mode (FpEngine.control self) = true
  | Selected.Reference _ => True
  end.

Lemma with_fpcr_ok (fpcr : Z) : engine_ok (FpEngine.with_fpcr fpcr).
Proof.
  unfold engine_ok, FpEngine.with_fpcr, FpEngine.select. cbn [FpEngine.selected FpEngine.control].
  rewrite <- default_mode_bits. destruct (IS_PRECISE_BUILD), (is_default_mode_bits fpcr); reflexivity || exact I.
Qed.

Lemma set_fpcr_ok (self : FpEngine) (fpcr : Z) : engine_ok (FpEngine.set_fpcr self fpcr).
Proof. apply (with_fpcr_ok fpcr). Qed.

Lemma keeps_ok (self self' : FpEngine) : keeps self self' -> engine_ok self -> engine_ok self'.
Proof. intros (Hs & Hc & _). unfold engine_ok. rewrite Hs, Hc. exact id. Qed.

Lemma is_default_mode_spec (control : FpControl) :
  FpControl.is_default_mode control = true -> default_mode control.
Proof.
  unfold FpControl.is_default_mode, default_mode, flushing. rewrite !andb_true_iff, !negb_true_iff.
  intros ((((Hr & Hf) & Hf16) & _) & _). split; [intros []; assumption |].
  destruct (FpControl.rounding control); discriminate || reflexivity.
Qed.

Context `{!HostFloatLaws}.

#[local] Instance backend_laws (self : FpEngine) : FpBackendLaws (backend_type (FpEngine.backend self)).
Proof. unfold FpEngine.backend. destruct (FpEngine.selected self); cbn [backend_type backend_methods]; exact _. Defined.

Lemma engine_admits (self : FpEngine) :
  engine_ok self -> admits (FpEngine.control self) (FpBackendLaws := backend_laws self).
Proof.
  unfold engine_ok, backend_laws, FpEngine.backend.
  destruct (FpEngine.selected self); intros Hok; [apply is_default_mode_spec, Hok | exact I].
Qed.

(** C12: whichever backend serves the FPCR value, the arithmetic and the
    comparison come out the same.  In any engine that FPCR was written to, under
    any FPCR, no two-operand operation on encodings of the format panics.  In a
    mode other than rounding to odd: a sum or difference, and a product or quotient
    outside the case [halves] (a subnormal result that rounding carries to a power
    of two, which the code halves), is the encoding IEEE 754 has for it, with the
    subnormals that FPCR flushes read and written as zeros; a maximum or minimum is
    the one of its two operands as they are, for these flush nothing whatever FPCR
    says; each is some quiet NaN where IEEE 754 has a NaN, and no cumulative flag
    is cleared.  A comparison is the NZCV of the order of the operands' values, not
    flushed either, or of unordered for a NaN. *)
Theorem engine_refines_ieee (self : FpEngine) (operands : FpOperands) (is_signalling : bool) :
  let format := FpOperands.format operands in
  let control := FpEngine.control self in
  engine_ok self -> operands_ok operands ->
  (forall op, returns (FpEngine.binary self op operands) (fun _ => True)) /\
  (forall op, FpOperands.rounding operands <> FpRounding.Odd -> binary_rounds control op operands ->
   returns (FpEngine.binary self op operands)
     (fun '(bits, self') =>
        delivers_bits format (ieee_binary_of control op operands) bits /\ keeps self self')) /\
  fst (FpEngine.compare self operands is_signalling) =
    FpComparison.to_nzcv
      (if FpFormat.is_nan format (FpOperands.lhs operands) || FpFormat.is_nan format (FpOperands.rhs operands)
       then FpComparison.Unordered
       else order_of (units format (FpOperands.lhs operands) ?= units format (FpOperands.rhs operands))).
Proof.
  intros format control Hself Hok. repeat apply conj.
  - intros op. eapply returns_bind; [apply binary_returns; assumption |].
    intros result _. apply returns_ret, I.
  - intros op Hodd Hrounds. eapply returns_bind.
    + apply (binary_delivers (backend_value (FpEngine.backend self)) op operands (FpEngine.control self));
        try assumption. apply engine_admits, Hself.
    + intros result Hbits. apply returns_ret. split; [exact Hbits | apply raise_keeps].
  - unfold FpEngine.compare.
    pose proof (compare_orders (backend_value (FpEngine.backend self)) operands is_signalling Hok) as Hc.
    destruct (compare _ _ _) as [ordering raised]. cbn [fst] in *. rewrite Hc. reflexivity.
Qed.

(** C13: the other operations, in any engine that FPCR was written to, whichever
    backend serves it, in every mode but rounding to odd.  A square root gives the
    encoding IEEE 754 has for it, with flushing as FPCR says; a rounding to an
    integral value that of its operand, which it never flushes; a fused
    multiply-add that of the singly rounded sum, if FPCR flushes nothing, nothing
    is shifted out of a term that is subtracted, and the result is not of the case
    [halves]; a conversion between formats that of the operand, outside [halves];
    and each some quiet NaN where IEEE 754 has a NaN.  A conversion to an integer,
    of a value below 2^128 and without fractional bits, gives exactly the
    reference's bits, saturated; one from an integer, without fractional bits,
    exactly the reference's.  None clears a cumulative flag. *)
Theorem engine_conversions_refine_ieee (self : FpEngine) :
  let control := FpEngine.control self in
  engine_ok self -> FpControl.rounding control <> FpRounding.Odd ->
  (forall op operand rounding,
   value_ok operand -> rounding <> FpRounding.Odd ->
   let '(bits, self') := FpEngine.unary self op operand rounding in
   delivers_bits (FpValue.format operand) (ieee_unary_of control op operand rounding) bits /\
   keeps self self') /\
  (forall operands,
   fma_ok operands -> FpFmaOperands.rounding operands <> FpRounding.Odd -> fma_rounds control operands ->
   let '(bits, self') := FpEngine.fused_multiply_add self operands in
   delivers_bits (FpFmaOperands.format operands)
     (ieee_fused_of (FpFmaOperands.format operands) (FpFmaOperands.rounding operands)
        (fused_operands operands)) bits /\
   keeps self self') /\
  (forall value target,
   value_ok value ->
   conversion_rounds (FpValue.format value) target (FpControl.rounding control) (value_datum value) ->
   let '(bits, self') := FpEngine.convert_format self value target in
   delivers_bits target
     (ieee_conversion_of (FpValue.format value) target (FpControl.rounding control) control
        (value_datum value)) bits /\
   keeps self self') /\
  (forall value target,
   int_format_ok (ToIntegerTarget.format target) -> value_ok value -> convertible value ->
   ToIntegerTarget.rounding target <> FpRounding.Odd -> ToIntegerTarget.fractional_bits target = 0 ->
   let '(bits, self') := FpEngine.to_integer self value target in
   bits = FpResult.bits (ieee_integer_of (FpValue.format value) (ToIntegerTarget.rounding target)
                           (ToIntegerTarget.format target) (value_datum value)) /\
   keeps self self') /\
  (forall value source,
   int_format_ok (FromIntegerSource.format source) -> in_range 64 value ->
   FromIntegerSource.rounding source <> FpRounding.Odd -> FromIntegerSource.fractional_bits source = 0 ->
   let '(bits, self') := FpEngine.convert_from_integer self value source in
   bits = FpResult.bits (ieee_from_integer control source value) /\ keeps self self').
Proof.
  intros control Hself Hcontrol. repeat apply conj; intros; split; try apply raise_keeps.
  - apply (unary_delivers (backend_value (FpEngine.backend self))); assumption.
  - apply (fused_delivers (backend_value (FpEngine.backend self))); assumption.
  - apply (conversion_delivers (backend_value (FpEngine.backend self))); try assumption.
    apply engine_admits, Hself.
  - f_equal. apply (to_integer_answers (backend_value (FpEngine.backend self))); assumption.
  - f_equal. apply (from_integer_answers (backend_value (FpEngine.backend self))); assumption.
Qed.

End Engine.

(** ** On the host of [FpHost] *)

(** [1.0 / 3.0] on the native backend of a default-mode engine, and the order of
    the two. *)
Lemma engine_refines_ieee_witness :
  let self := @FpEngine.new false in
  let operands := FpOperands.mk 0x3FF0000000000000 0x4008000000000000 FpFormat.Double FpRounding.Nearest in
  @FpEngine.selects_native_backend false 0 = true /\
  returns (@FpEngine.binary ieee_host self FpBinaryOp.Div operands)
    (fun '(bits, _) => bits = 0x3FD5555555555555) /\
  fst (@FpEngine.compare ieee_host self operands false) = 8.
Proof.
  destruct (@engine_refines_ieee ieee_host ieee_host_laws
    (@FpEngine.new false)
    (FpOperands.mk 0x3FF0000000000000 0x4008000000000000 FpFormat.Double FpRounding.Nearest) false)
    as (_ & Hquotient & Hcompare).
  - reflexivity.
  - split; unfold in_format, in_range; cbn; lia.
  - split; [vm_compute; reflexivity |]. split.
    + eapply returns_mono; [apply (Hquotient FpBinaryOp.Div) |].
      * discriminate.
      * intros n1 n2 u1 u2 [= <- <-] [= <- <-] _ _. vm_compute. reflexivity.
      * intros [bits self'] [Hbits _]. cbn [delivers_bits] in Hbits. rewrite Hbits. vm_compute. reflexivity.
    + rewrite Hcompare. vm_compute. reflexivity.
Defined.

(** In a native engine: the root of two, a double that overflows in single
    precision, and minus infinity to a signed word. *)
Lemma engine_conversions_refine_ieee_witness :
  let self := @FpEngine.new false in
  fst (@FpEngine.unary ieee_host self FpUnaryOp.Sqrt (FpValue.mk 0x40000000 FpFormat.Single) FpRounding.Nearest)
    = 0x3FB504F3 /\
  fst (@FpEngine.convert_format ieee_host self (FpValue.mk 0xC7F0000000000000 FpFormat.Double) FpFormat.Single)
    = 0xFF800000 /\
  fst (@FpEngine.to_integer ieee_host self (FpValue.mk 0xFF800000 FpFormat.Single)
         (ToIntegerTarget.mk IntFormat.S32 FpRounding.Zero 0)) = 0x80000000.
Proof.
  destruct (@engine_conversions_refine_ieee ieee_host ieee_host_laws (@FpEngine.new false))
    as (Hunary & _ & Hformat & Hinteger & _); [reflexivity | discriminate |]. split; [| split].
  - specialize (Hunary FpUnaryOp.Sqrt (FpValue.mk 0x40000000 FpFormat.Single) FpRounding.Nearest
      ltac:(split; cbn; lia) ltac:(discriminate)).
    destruct (FpEngine.unary _ _ _ _) as [bits self']. destruct Hunary as [-> _]. vm_compute. reflexivity.
  - assert (value_ok (FpValue.mk 0xC7F0000000000000 FpFormat.Double)) as Hv by (split; cbn; lia).
    specialize (Hformat _ FpFormat.Single Hv ltac:(intros n u [= <- <-]; vm_compute; reflexivity)).
    destruct (FpEngine.convert_format _ _ _) as [bits self']. destruct Hformat as [-> _]. vm_compute. reflexivity.
  - assert (value_ok (FpValue.mk 0xFF800000 FpFormat.Single)) as Hv by (split; cbn; lia).
    specialize (Hinteger _ (ToIntegerTarget.mk IntFormat.S32 FpRounding.Zero 0)
      ltac:(vm_compute; split; discriminate) Hv ltac:(intros n u [=]) ltac:(discriminate) eq_refl).
    destruct (FpEngine.to_integer _ _ _) as [bits self']. destruct Hinteger as [-> _]. vm_compute. reflexivity.
Defined.

(** The root of two raises IXC in a default-mode engine, whose backend says that
    it does not track exceptions. *)
Lemma default_mode_raises :
  let self := @FpEngine.new false in
  @FpEngine.tracks_exceptions ieee_host self = false /\
  FpEngine.exceptions (snd (@FpEngine.unary ieee_host self FpUnaryOp.Sqrt
    (FpValue.mk 0x40000000 FpFormat.Single) FpRounding.Nearest)) = 16.
Proof. vm_compute. split; reflexivity. Qed.
