(* ===== verification/FpConformance.v ===== *)
(** The unit tests of the floating-point code ([crates/core/src/fp/]), run on the
    model.

    One module per test module of the source, one boolean per test: the
    conjunction of its assertions.  [bool] is the outcome of the test, so a test
    that passes is one whose definition is [true], which the [Example] at the end
    of each module evaluates.

    The oracle of many of these tests is the arithmetic of the host, [f32] and
    [f64]: here that of [FpHost], the specification floats of the Standard Library
    on the bits of the values.  A decimal literal [n * 10^k] is
    [f64_lit n k].  A test that sweeps a pseudorandom sequence takes the number of
    rounds, thousands in the source; the examples run the first few. *)

From stdpp Require Import base numbers list option.
From S2P Require Import Prelude FpOperand FpDecompose FpCompare FpArithmetic FpFused FpBackend.
From S2P Require Import FpConvert FpSoftfloat FpNative FpEngine FpHost.

#[local] Open Scope Z_scope.

(** ** The host *)

Abbreviation f64_lit := (Ieee.lit 52 64 1024).
Abbreviation f32_lit := (Ieee.lit 23 32 128).

Module F64.
Definition MAX : Z := 0x7fefffffffffffff.
Definition MIN_POSITIVE : Z := 0x0010000000000000.
Definition EPSILON : Z := 0x3cb0000000000000.
Definition INFINITY : Z := 0x7ff0000000000000.
Definition NEG_INFINITY : Z := 0xfff0000000000000.
Definition NAN : Z := 0x7ff8000000000000.
Definition neg (value : Z) : Z := Z.lxor value 0x8000000000000000.
Definition abs (value : Z) : Z := Z.land value 0x7fffffffffffffff.
Definition max (lhs rhs : Z) : Z := if host_lt f64 lhs rhs then rhs else lhs.
Definition min (lhs rhs : Z) : Z := if host_lt f64 rhs lhs then rhs else lhs.
End F64.

Module F32.
Definition MAX : Z := 0x7f7fffff.
Definition MIN_POSITIVE : Z := 0x00800000.
Definition INFINITY : Z := 0x7f800000.
Definition NEG_INFINITY : Z := 0xff800000.
Definition neg (value : Z) : Z := Z.lxor value 0x80000000.
End F32.

(** ** What the tests share *)

#[local] Instance FpComparison_eq_dec : EqDecision FpComparison.
Proof. solve_decision. Defined.
#[local] Instance FpExceptions_eq_dec : EqDecision FpExceptions.
Proof. solve_decision. Defined.
#[local] Instance FpControl_eq_dec : EqDecision FpControl.
Proof. solve_decision. Defined.

#[local] Notation "x == y" := (bool_decide (x = y)) (at level 70).
#[local] Notation "x != y" := (negb (x =? y)) (at level 70).
#[local] Abbreviation all := (fun l f => forallb f l) (only parsing).

(** [result.raised.contains(flag)] *)
Definition raises (result : FpResult) (flag : FpExceptions) : bool :=
  FpExceptions.contains (FpResult.raised result) flag.

(** [for _ in 0..rounds]; a round consumes what it needs of the sequence. *)
Fixpoint sweep (rounds : nat) (state : Z) (round : Z -> bool * Z) : bool :=
  match rounds with
  | O => true
  | S rounds => let '(outcome, state) := round state in outcome && sweep rounds state round
  end.

(** A value in [1, 2) or its negation, of the bits of a pseudorandom word. *)
Definition unit_range (state : Z) : Z :=
  Z.lor (Z.land state 0x800fffffffffffff) 0x3ff0000000000000.

Definition one : Z := f64_lit 1 0.

Example host_literals :
  (f64_lit 1 (-1), f64_lit (-5) (-1), f64_lit 1 300, f64_lit 1 (-300), f32_lit 1 (-1)) =
  (0x3fb999999999999a, 0xbfe0000000000000, 0x7e37e43c8800759c, 0x01a56e1fc2f8f359, 0x3dcccccd).
Proof. vm_compute. reflexivity. Qed.

(** ** [operand.rs] *)

Module operand_tests.

Import FpFormat.

Definition format_geometry_matches_ieee_754 : bool :=
  all [(Half, 16, 10, 5, 15); (Single, 32, 23, 8, 127); (Double, 64, 52, 11, 1023)]
    (fun '(format, width, mantissa, exponent, bias) =>
      (bits format =? width) && (mantissa_bits format =? mantissa) &&
      (exponent_bits format =? exponent) && (exponent_bias format =? bias)).

Definition the_named_constants_match_the_hosts_own_float_encodings : bool :=
  (infinity Single =? F32.INFINITY) && (infinity Double =? F64.INFINITY) &&
  (max_finite Single =? F32.MAX) && (max_finite Double =? F64.MAX) &&
  (default_nan Single =? 0x7fc00000) && (default_nan Double =? 0x7ff8000000000000) &&
  (default_nan Half =? 0x7e00).

Definition classification_separates_nan_infinity_zero_and_subnormal : bool :=
  is_nan Single (default_nan Single) && negb (is_nan Single (infinity Single)) &&
  is_infinite Single (infinity Single) && negb (is_infinite Single (default_nan Single)) &&
  is_zero Single 0 && is_zero Single 0x80000000 && negb (is_zero Single 1) &&
  is_subnormal Single 1 && negb (is_subnormal Single 0) &&
  negb (is_subnormal Single (f32_lit 1 0)).

Definition a_signalling_nan_is_a_nan_with_a_clear_quiet_bit : bool :=
  let signalling := 0x7f800001 in
  let quiet := 0x7fc00001 in
  is_signalling_nan Single signalling && negb (is_signalling_nan Single quiet) &&
  (is_nan Single signalling && is_nan Single quiet) &&
  (quieten Single signalling =? quiet) && (quieten Single quiet =? quiet) &&
  (quieten Single 0 =? 0).

Definition comparison_outcomes_map_to_the_architectures_nzcv_values : bool :=
  (FpComparison.to_nzcv FpComparison.Less =? 8) &&
  (FpComparison.to_nzcv FpComparison.Equal =? 6) &&
  (FpComparison.to_nzcv FpComparison.Greater =? 2) &&
  (FpComparison.to_nzcv FpComparison.Unordered =? 3).

Definition rmode_maps_to_rounding_in_encoding_order : bool :=
  (FpRounding.from_rmode 0 == FpRounding.Nearest) &&
  (FpRounding.from_rmode 1 == FpRounding.Plus) &&
  (FpRounding.from_rmode 2 == FpRounding.Minus) &&
  (FpRounding.from_rmode 3 == FpRounding.Zero).

Example operand_tests_pass :
  [format_geometry_matches_ieee_754;
   the_named_constants_match_the_hosts_own_float_encodings;
   classification_separates_nan_infinity_zero_and_subnormal;
   a_signalling_nan_is_a_nan_with_a_clear_quiet_bit;
   comparison_outcomes_map_to_the_architectures_nzcv_values;
   rmode_maps_to_rounding_in_encoding_order] = replicate 6 true.
Proof. vm_compute. reflexivity. Qed.

End operand_tests.

(** ** [control.rs] *)

Module control_tests.

Definition a_zeroed_fpcr_is_default_mode : bool :=
  is_default_mode_bits 0 && (FpControl.from_bits 0 == FpControl.DEFAULT) &&
  FpControl.is_default_mode (FpControl.from_bits 0).

Definition each_meaningful_fpcr_bit_leaves_default_mode : bool :=
  all [fpcr_bit.FZ; fpcr_bit.DN; fpcr_bit.AHP; fpcr_bit.FZ16; fpcr_bit.RMODE_LSB;
       fpcr_bit.RMODE_LSB + 1]
    (fun bit =>
      let fpcr := wshl 64 1 bit in
      negb (is_default_mode_bits fpcr) &&
      negb (FpControl.is_default_mode (FpControl.from_bits fpcr))).

Definition the_trap_enable_bits_do_not_leave_default_mode : bool :=
  all [8; 9; 10; 11; 12; 15] (fun bit => is_default_mode_bits (wshl 64 1 bit)).

Definition rmode_decodes_in_encoding_order : bool :=
  all [(0, FpRounding.Nearest); (1, FpRounding.Plus); (2, FpRounding.Minus); (3, FpRounding.Zero)]
    (fun '(rmode, rounding) =>
      let fpcr := wshl 64 rmode fpcr_bit.RMODE_LSB in
      FpControl.rounding (FpControl.from_bits fpcr) == rounding).

Definition exception_flags_land_on_the_fpsr_bits_the_architecture_names : bool :=
  (FpExceptions.to_bits FpExceptions.INVALID =? 1) &&
  (FpExceptions.to_bits FpExceptions.DIVIDE_BY_ZERO =? 2) &&
  (FpExceptions.to_bits FpExceptions.OVERFLOW =? 4) &&
  (FpExceptions.to_bits FpExceptions.UNDERFLOW =? 8) &&
  (FpExceptions.to_bits FpExceptions.INEXACT =? 16) &&
  (FpExceptions.to_bits FpExceptions.INPUT_DENORMAL =? 128).

Definition accumulating_flags_is_sticky : bool :=
  let after_first := accumulate 0 FpExceptions.INEXACT in
  let after_second := accumulate after_first FpExceptions.OVERFLOW in
  (after_second =?
     FpExceptions.to_bits (FpExceptions.union FpExceptions.INEXACT FpExceptions.OVERFLOW)) &&
  (accumulate after_second FpExceptions.NONE =? after_second).

Definition unrelated_fpsr_bits_survive_accumulation : bool :=
  let existing := Z.lor (wshl 64 1 27) (wshl 64 10 28) in
  accumulate existing FpExceptions.INVALID =? Z.lor existing 1.

Example control_tests_pass :
  [a_zeroed_fpcr_is_default_mode;
   each_meaningful_fpcr_bit_leaves_default_mode;
   the_trap_enable_bits_do_not_leave_default_mode;
   rmode_decodes_in_encoding_order;
   exception_flags_land_on_the_fpsr_bits_the_architecture_names;
   accumulating_flags_is_sticky;
   unrelated_fpsr_bits_survive_accumulation] = replicate 7 true.
Proof. vm_compute. reflexivity. Qed.

End control_tests.

(** ** [backend.rs] *)

Module backend_tests.

Definition negation_and_absolute_value_touch_only_the_sign_bit : bool :=
  let negative := FpValue.new (f64_lit (-25) (-1)) FpFormat.Double in
  let positive := FpValue.new (f64_lit 25 (-1)) FpFormat.Double in
  (copy_sign negative FpSignOp.Negate =? FpValue.bits positive) &&
  (copy_sign negative FpSignOp.Absolute =? FpValue.bits positive) &&
  (copy_sign positive FpSignOp.Absolute =? FpValue.bits positive).

Definition the_sign_operations_leave_a_signalling_nan_signalling : bool :=
  let signalling := FpValue.new 0x7f800001 FpFormat.Single in
  (copy_sign signalling FpSignOp.Negate =? 0xff800001) &&
  (copy_sign signalling FpSignOp.Absolute =? 0x7f800001).

Definition an_fp_value_is_masked_to_its_format : bool :=
  let value := FpValue.new 0xdeadbeef7f800001 FpFormat.Single in
  FpValue.bits value =? 0x7f800001.

Example backend_tests_pass :
  [negation_and_absolute_value_touch_only_the_sign_bit;
   the_sign_operations_leave_a_signalling_nan_signalling;
   an_fp_value_is_masked_to_its_format] = replicate 3 true.
Proof. vm_compute. reflexivity. Qed.

End backend_tests.

(** ** [softfloat/nan.rs] *)

Module nan_tests.

Import nan.

#[local] Abbreviation SINGLE := FpFormat.Single.

Definition QUIET_A : Z := 0x7fc00001.
Definition QUIET_B : Z := 0x7fc00002.
Definition SIGNALLING : Z := 0x7f800003.
Definition ONE : Z := 0x3f800000.

(** [propagate(..).unwrap()], and the assertions on what it gives. *)
Definition unwrap_propagate (operands : list Z) (control : FpControl) (check : FpResult -> bool) :
    bool :=
  match propagate operands SINGLE control with Some result => check result | None => false end.

Definition no_nan_operand_yields_no_nan_result : bool :=
  match propagate [ONE; ONE] SINGLE FpControl.DEFAULT with None => true | Some _ => false end.

Definition the_first_nan_in_operand_order_wins : bool :=
  unwrap_propagate [QUIET_A; QUIET_B] FpControl.DEFAULT
    (fun result => FpResult.bits result =? QUIET_A) &&
  unwrap_propagate [QUIET_B; QUIET_A] FpControl.DEFAULT
    (fun reversed => FpResult.bits reversed =? QUIET_B).

Definition a_non_nan_first_operand_does_not_shadow_a_later_nan : bool :=
  unwrap_propagate [ONE; QUIET_B] FpControl.DEFAULT
    (fun result => FpResult.bits result =? QUIET_B).

Definition a_signalling_nan_is_quietened_with_its_payload_intact_and_raises_invalid : bool :=
  unwrap_propagate [SIGNALLING; ONE] FpControl.DEFAULT (fun result =>
    (FpResult.bits result =? 0x7fc00003) && raises result FpExceptions.INVALID).

Definition a_signalling_nan_raises_invalid_even_when_a_quiet_nan_is_returned : bool :=
  unwrap_propagate [QUIET_A; SIGNALLING] FpControl.DEFAULT (fun result =>
    (FpResult.bits result =? QUIET_A) && raises result FpExceptions.INVALID).

Definition a_quiet_nan_alone_raises_nothing : bool :=
  unwrap_propagate [QUIET_A; ONE] FpControl.DEFAULT
    (fun result => FpExceptions.is_empty (FpResult.raised result)).

Definition default_nan_mode_replaces_the_payload_but_keeps_the_exception : bool :=
  let control := FpControl.mk FpRounding.Nearest false false true false in
  unwrap_propagate [QUIET_A; ONE] control (fun quiet =>
    (FpResult.bits quiet =? FpFormat.default_nan SINGLE) &&
    FpExceptions.is_empty (FpResult.raised quiet)) &&
  unwrap_propagate [SIGNALLING; ONE] control (fun signalling =>
    (FpResult.bits signalling =? FpFormat.default_nan SINGLE) &&
    raises signalling FpExceptions.INVALID).

Definition an_invalid_operation_without_nan_operands_produces_the_default_nan : bool :=
  let result := invalid_operation SINGLE in
  (FpResult.bits result =? 0x7fc00000) && raises result FpExceptions.INVALID.

Definition nan_predicates_scan_every_operand : bool :=
  signalling_among [ONE; ONE; SIGNALLING] SINGLE && negb (signalling_among [ONE; QUIET_A] SINGLE) &&
  any_nan [ONE; QUIET_A] SINGLE && negb (any_nan [ONE; ONE] SINGLE).

Example nan_tests_pass :
  [no_nan_operand_yields_no_nan_result;
   the_first_nan_in_operand_order_wins;
   a_non_nan_first_operand_does_not_shadow_a_later_nan;
   a_signalling_nan_is_quietened_with_its_payload_intact_and_raises_invalid;
   a_signalling_nan_raises_invalid_even_when_a_quiet_nan_is_returned;
   a_quiet_nan_alone_raises_nothing;
   default_nan_mode_replaces_the_payload_but_keeps_the_exception;
   an_invalid_operation_without_nan_operands_produces_the_default_nan;
   nan_predicates_scan_every_operand] = replicate 9 true.
Proof. vm_compute. reflexivity. Qed.

End nan_tests.

(** ** [softfloat/compare.rs] *)

Module compare_tests.

Import compare.

#[local] Abbreviation DOUBLE := FpFormat.Double.

Definition QUIET : Z := 0x7ff8000000000001.
Definition SIGNALLING : Z := 0x7ff0000000000001.

Definition compare_double (lhs rhs : Z) : FpComparison := fst (compare lhs rhs DOUBLE false).

Definition ordering_matches_the_hosts_own_partial_order : bool :=
  let values :=
    [F64.NEG_INFINITY; f64_lit (-1) 300; f64_lit (-1) 0; F64.neg F64.MIN_POSITIVE;
     F64.neg (f64_lit 0 0); f64_lit 0 0; F64.MIN_POSITIVE; f64_lit 1 0; f64_lit 1 300;
     F64.INFINITY] in
  all values (fun lhs => all values (fun rhs =>
    let expected :=
      if host_lt f64 lhs rhs then FpComparison.Less
      else if host_lt f64 rhs lhs then FpComparison.Greater
      else FpComparison.Equal in
    compare_double lhs rhs == expected)).

Definition the_two_zeroes_compare_equal_despite_differing_bits : bool :=
  let zero := f64_lit 0 0 in
  (compare_double zero (F64.neg zero) == FpComparison.Equal) &&
  (compare_double (F64.neg zero) zero == FpComparison.Equal) && (zero != F64.neg zero).

Definition any_nan_operand_makes_the_result_unordered : bool :=
  all [(QUIET, one); (one, QUIET); (QUIET, QUIET)] (fun '(lhs, rhs) =>
    fst (compare lhs rhs DOUBLE false) == FpComparison.Unordered).

Definition a_quiet_nan_raises_invalid_only_for_the_signalling_compare : bool :=
  let quiet_fcmp := snd (compare QUIET one DOUBLE false) in
  let quiet_fcmpe := snd (compare QUIET one DOUBLE true) in
  negb (FpExceptions.contains quiet_fcmp FpExceptions.INVALID) &&
  FpExceptions.contains quiet_fcmpe FpExceptions.INVALID &&
  FpExceptions.contains (snd (compare SIGNALLING one DOUBLE false)) FpExceptions.INVALID &&
  FpExceptions.contains (snd (compare SIGNALLING one DOUBLE true)) FpExceptions.INVALID.

Definition unordered_maps_to_the_nzcv_the_architecture_names : bool :=
  (FpComparison.to_nzcv FpComparison.Unordered =? 3) &&
  (FpComparison.to_nzcv (compare_double F64.NAN one) =? 3).

Definition extremum_double (lhs rhs : Z) (which : Extremum) : Z :=
  FpResult.bits (extremum lhs rhs which DOUBLE FpControl.DEFAULT).

Definition maximum_and_minimum_pick_the_expected_operand : bool :=
  all [(f64_lit 1 0, f64_lit 2 0); (f64_lit (-1) 0, f64_lit 1 0); (f64_lit (-5) 0, f64_lit (-2) 0);
       (f64_lit 1 300, f64_lit 1 (-300))]
    (fun '(lhs, rhs) =>
      host_eq f64 (extremum_double lhs rhs Extremum.Max) (F64.max lhs rhs) &&
      host_eq f64 (extremum_double lhs rhs Extremum.Min) (F64.min lhs rhs) &&
      host_eq f64 (extremum_double rhs lhs Extremum.Max) (F64.max lhs rhs) &&
      host_eq f64 (extremum_double rhs lhs Extremum.Min) (F64.min lhs rhs)).

Definition the_extrema_distinguish_the_two_zeroes : bool :=
  let zero := f64_lit 0 0 in
  (extremum_double zero (F64.neg zero) Extremum.Max =? zero) &&
  (extremum_double (F64.neg zero) zero Extremum.Max =? zero) &&
  (extremum_double zero (F64.neg zero) Extremum.Min =? F64.neg zero) &&
  (extremum_double (F64.neg zero) zero Extremum.Min =? F64.neg zero).

Definition fmax_propagates_a_nan_but_fmaxnm_ignores_a_lone_quiet_one : bool :=
  let control := FpControl.DEFAULT in
  (FpResult.bits (extremum QUIET one Extremum.Max DOUBLE control) =? QUIET) &&
  (FpResult.bits (extremum QUIET one Extremum.Min DOUBLE control) =? QUIET) &&
  (FpResult.bits (extremum QUIET one Extremum.MaxNum DOUBLE control) =? one) &&
  (FpResult.bits (extremum one QUIET Extremum.MaxNum DOUBLE control) =? one) &&
  (FpResult.bits (extremum QUIET one Extremum.MinNum DOUBLE control) =? one).

Definition fmaxnm_still_propagates_a_signalling_nan_and_raises : bool :=
  let result := extremum SIGNALLING one Extremum.MaxNum DOUBLE FpControl.DEFAULT in
  (FpResult.bits result =? 0x7ff8000000000001) && raises result FpExceptions.INVALID.

Definition fmaxnm_with_two_quiet_nans_propagates_the_first : bool :=
  let second := 0x7ff8000000000002 in
  let result := extremum QUIET second Extremum.MaxNum DOUBLE FpControl.DEFAULT in
  FpResult.bits result =? QUIET.

Example compare_tests_pass :
  [ordering_matches_the_hosts_own_partial_order;
   the_two_zeroes_compare_equal_despite_differing_bits;
   any_nan_operand_makes_the_result_unordered;
   a_quiet_nan_raises_invalid_only_for_the_signalling_compare;
   unordered_maps_to_the_nzcv_the_architecture_names;
   maximum_and_minimum_pick_the_expected_operand;
   the_extrema_distinguish_the_two_zeroes;
   fmax_propagates_a_nan_but_fmaxnm_ignores_a_lone_quiet_one;
   fmaxnm_still_propagates_a_signalling_nan_and_raises;
   fmaxnm_with_two_quiet_nans_propagates_the_first] = replicate 10 true.
Proof. vm_compute. reflexivity. Qed.

End compare_tests.

(** ** [softfloat/decompose.rs] *)

Module decompose_tests.

Import decompose.

#[local] Abbreviation SINGLE := FpFormat.Single.
#[local] Abbreviation DOUBLE := FpFormat.Double.
#[local] Abbreviation packed value rounding_context :=
  (FpResult.bits (round_and_pack value SINGLE rounding_context)) (only parsing).

Definition context (rounding : FpRounding) : RoundingContext :=
  RoundingContext.mk rounding false FpControl.DEFAULT.

Definition round_trip (bits : Z) (format : FpFormat) : Z :=
  FpResult.bits (round_and_pack (unpack bits format) format (context FpRounding.Nearest)).

Definition unpacking_a_normal_value_exposes_the_implicit_bit : bool :=
  let one := unpack (f32_lit 1 0) SINGLE in
  negb (Unpacked.is_negative one) && (Unpacked.exponent one =? 0) &&
  (Unpacked.significand one =? implicit_bit SINGLE).

Definition unpacking_normalises_a_subnormal : bool :=
  let smallest := unpack 1 SINGLE in
  (Unpacked.exponent smallest =? -149) && (Unpacked.significand smallest =? implicit_bit SINGLE).

Definition unpacking_distinguishes_the_two_zeroes : bool :=
  Unpacked.is_zero (unpack 0 SINGLE) && negb (Unpacked.is_negative (unpack 0 SINGLE)) &&
  Unpacked.is_zero (unpack 0x80000000 SINGLE) && Unpacked.is_negative (unpack 0x80000000 SINGLE).

Definition packing_an_unpacked_value_returns_the_original_bits : bool :=
  all [0; 0x80000000; f32_lit 1 0; f32_lit (-25) (-1); F32.MIN_POSITIVE; F32.MAX; 1; 0x007fffff;
       host_div f32 (f32_lit 1 0) (f32_lit 3 0)]
    (fun bits => round_trip bits SINGLE =? bits) &&
  all [f64_lit 1 0; f64_lit (-1) (-300); F64.MAX; F64.MIN_POSITIVE; 1]
    (fun bits => round_trip bits DOUBLE =? bits).

Definition rounding_to_nearest_breaks_ties_toward_an_even_significand : bool :=
  let half := wshl 64 1 (GUARD_BITS - 1) in
  let odd :=
    Unpacked.mk false 0 (Z.lor (Z.lor (implicit_bit SINGLE) (wshl 64 1 GUARD_BITS)) half) in
  let even := Unpacked.mk false 0 (Z.lor (implicit_bit SINGLE) half) in
  let rounded_odd := round_and_pack odd SINGLE (context FpRounding.Nearest) in
  let rounded_even := round_and_pack even SINGLE (context FpRounding.Nearest) in
  (Z.land (FpResult.bits rounded_odd) 3 =? 2) && (Z.land (FpResult.bits rounded_even) 1 =? 0) &&
  raises rounded_odd FpExceptions.INEXACT.

Definition directed_rounding_moves_the_expected_way : bool :=
  let half := wshl 64 1 (GUARD_BITS - 1) in
  let build is_negative := Unpacked.mk is_negative 0 (Z.lor (implicit_bit SINGLE) half) in
  let up := packed (build false) (context FpRounding.Plus) in
  let down := packed (build false) (context FpRounding.Minus) in
  let negative_up := packed (build true) (context FpRounding.Plus) in
  let negative_down := packed (build true) (context FpRounding.Minus) in
  (up =? down + 1) && (negative_down =? negative_up + 1).

Definition overflow_goes_to_infinity_or_the_largest_finite_by_mode : bool :=
  let huge := Unpacked.mk false 200 (implicit_bit SINGLE) in
  let raised := round_and_pack huge SINGLE (context FpRounding.Nearest) in
  (packed huge (context FpRounding.Nearest) =? FpFormat.infinity SINGLE) &&
  (packed huge (context FpRounding.Zero) =? FpFormat.max_finite SINGLE) &&
  (packed huge (context FpRounding.Minus) =? FpFormat.max_finite SINGLE) &&
  raises raised FpExceptions.OVERFLOW && raises raised FpExceptions.INEXACT.

Definition a_result_below_the_smallest_subnormal_underflows_to_zero : bool :=
  let tiny := Unpacked.mk false (-200) (implicit_bit SINGLE) in
  let result := round_and_pack tiny SINGLE (context FpRounding.Nearest) in
  (FpResult.bits result =? 0) && raises result FpExceptions.UNDERFLOW &&
  raises result FpExceptions.INEXACT.

Definition flush_to_zero_replaces_a_subnormal_result_and_flags_it : bool :=
  let control := FpControl.mk FpRounding.Nearest true false false false in
  let subnormal := unpack 1 SINGLE in
  let result :=
    round_and_pack subnormal SINGLE (RoundingContext.mk FpRounding.Nearest false control) in
  (FpResult.bits result =? 0) && raises result FpExceptions.UNDERFLOW &&
  (round_trip 1 SINGLE =? 1).

Definition flush_to_zero_keeps_the_sign_of_what_it_flushed : bool :=
  let control := FpControl.mk FpRounding.Nearest true false false false in
  packed (unpack 0x80000001 SINGLE) (RoundingContext.mk FpRounding.Nearest false control)
    =? 0x80000000.

Definition fp16_flushing_is_keyed_on_its_own_control_bit : bool :=
  let fz_only := FpControl.mk FpRounding.Nearest true false false false in
  let context_for control := RoundingContext.mk FpRounding.Nearest false control in
  let fz16 := FpControl.mk FpRounding.Nearest false true false false in
  let half_of control :=
    FpResult.bits
      (round_and_pack (unpack 1 FpFormat.Half) FpFormat.Half (context_for control)) in
  (half_of fz_only =? 1) && (half_of fz16 =? 0).

Example decompose_tests_pass :
  [unpacking_a_normal_value_exposes_the_implicit_bit;
   unpacking_normalises_a_subnormal;
   unpacking_distinguishes_the_two_zeroes;
   packing_an_unpacked_value_returns_the_original_bits;
   rounding_to_nearest_breaks_ties_toward_an_even_significand;
   directed_rounding_moves_the_expected_way;
   overflow_goes_to_infinity_or_the_largest_finite_by_mode;
   a_result_below_the_smallest_subnormal_underflows_to_zero;
   flush_to_zero_replaces_a_subnormal_result_and_flags_it;
   flush_to_zero_keeps_the_sign_of_what_it_flushed;
   fp16_flushing_is_keyed_on_its_own_control_bit] = replicate 11 true.
Proof. vm_compute. reflexivity. Qed.

End decompose_tests.

(** ** [softfloat/arithmetic.rs] *)

Module arithmetic_tests.

Import arithmetic.

#[local] Abbreviation SINGLE := FpFormat.Single.
#[local] Abbreviation DOUBLE := FpFormat.Double.

Definition context (format : FpFormat) : Context :=
  Context.mk format FpRounding.Nearest FpControl.DEFAULT.

Definition double_op (operation : Z -> Z -> Context -> may_panic FpResult) (lhs rhs : Z) :
    may_panic Z :=
  result ← operation lhs rhs (context DOUBLE); mret (FpResult.bits result).

(** [multiply] as an argument of [double_op]. *)
Definition multiply_op (lhs rhs : Z) (context : Context) : may_panic FpResult :=
  mret (multiply lhs rhs context).

Definition add_double (lhs rhs : Z) : Z := FpResult.bits (add lhs rhs false (context DOUBLE)).

Definition addition_matches_the_hosts_own_double_arithmetic : bool :=
  all [(f64_lit 1 0, f64_lit 2 0); (f64_lit 1 (-1), f64_lit 2 (-1)); (f64_lit 1 0, f64_lit (-1) 0);
       (f64_lit 1 300, f64_lit 1 300); (f64_lit 1 0, f64_lit 1 (-300));
       (f64_lit (-55) (-1), f64_lit 225 (-2)); (F64.MAX, F64.MAX);
       (F64.MIN_POSITIVE, F64.MIN_POSITIVE); (f64_lit 1 0, F64.MIN_POSITIVE);
       (f64_lit 123456789 (-3), f64_lit (-123) (-6))]
    (fun '(lhs, rhs) => add_double lhs rhs =? host_add f64 lhs rhs).

Definition subtract (lhs rhs : Z) : Z := FpResult.bits (add lhs rhs true (context DOUBLE)).

Definition subtraction_matches_the_host : bool :=
  all [(f64_lit 1 0, f64_lit 2 0); (f64_lit 3 (-1), f64_lit 1 (-1));
       (f64_lit 1 300, f64_lit (-1) 300); (f64_lit 1 0, f64_lit 1 0)]
    (fun '(lhs, rhs) => subtract lhs rhs =? host_sub f64 lhs rhs).

Definition multiplication_matches_the_host : bool :=
  all [(f64_lit 15 (-1), f64_lit 2 0); (f64_lit 1 (-1), f64_lit 3 (-1));
       (f64_lit 1 200, f64_lit 1 200); (f64_lit 1 (-200), f64_lit 1 (-200));
       (f64_lit (-3) 0, f64_lit 75 (-1)); (F64.MAX, f64_lit 5 (-1));
       (F64.MIN_POSITIVE, f64_lit 5 (-1)); (host_div f64 one (f64_lit 3 0), f64_lit 3 0)]
    (fun '(lhs, rhs) => passes
      (product ← double_op multiply_op lhs rhs; mret (product =? host_mul f64 lhs rhs))).

Definition division_matches_the_host : bool :=
  all [(f64_lit 1 0, f64_lit 3 0); (f64_lit 10 0, f64_lit 4 0); (f64_lit 1 300, f64_lit 1 (-10));
       (f64_lit (-7) 0, f64_lit 2 0); (f64_lit 1 0, F64.MAX); (F64.MIN_POSITIVE, f64_lit 2 0)]
    (fun '(lhs, rhs) => passes
      (quotient ← double_op divide lhs rhs; mret (quotient =? host_div f64 lhs rhs))).

Definition square_root_matches_the_host : bool :=
  all [f64_lit 0 0; f64_lit 1 0; f64_lit 2 0; f64_lit 4 0; f64_lit 9 0; f64_lit 25 (-2);
       f64_lit 1 300; f64_lit 1 (-300); f64_lit 123456789 (-3); f64_lit 3 0]
    (fun value =>
      FpResult.bits (square_root value (context DOUBLE)) =? Ieee.sqrt 52 64 1024 value).

Definition single_precision_arithmetic_matches_the_host : bool :=
  let single := context SINGLE in
  all [(f32_lit 1 0, f32_lit 3 0); (f32_lit 1 (-1), f32_lit 2 (-1)); (f32_lit 1 30, f32_lit 1 30);
       (f32_lit 75 (-1), f32_lit (-225) (-2))]
    (fun '(lhs, rhs) =>
      let sum := add lhs rhs false single in
      let product := multiply lhs rhs single in
      (as_u32 (FpResult.bits sum) =? host_add f32 lhs rhs) &&
      (as_u32 (FpResult.bits product) =? host_mul f32 lhs rhs) &&
      passes (quotient ← divide lhs rhs single;
              mret (as_u32 (FpResult.bits quotient) =? host_div f32 lhs rhs))).

Definition adding_opposite_infinities_is_invalid : bool :=
  let result :=
    add (FpFormat.infinity DOUBLE) (FpFormat.signed_infinity DOUBLE true) false (context DOUBLE) in
  (FpResult.bits result =? FpFormat.default_nan DOUBLE) && raises result FpExceptions.INVALID.

Definition multiplying_zero_by_infinity_is_invalid : bool :=
  let result := multiply 0 (FpFormat.infinity DOUBLE) (context DOUBLE) in
  (FpResult.bits result =? FpFormat.default_nan DOUBLE) && raises result FpExceptions.INVALID.

Definition dividing_a_finite_by_zero_raises_divide_by_zero_not_invalid : bool := passes
  (result ← divide one 0 (context DOUBLE);
   negative ← divide (f64_lit (-1) 0) 0 (context DOUBLE);
   zero_over_zero ← divide 0 0 (context DOUBLE);
   mret
     ((FpResult.bits result =? FpFormat.infinity DOUBLE) &&
      raises result FpExceptions.DIVIDE_BY_ZERO && negb (raises result FpExceptions.INVALID) &&
      (FpResult.bits negative =? FpFormat.signed_infinity DOUBLE true) &&
      raises zero_over_zero FpExceptions.INVALID &&
      negb (raises zero_over_zero FpExceptions.DIVIDE_BY_ZERO))).

Definition the_square_root_of_a_negative_is_invalid_but_of_negative_zero_is_not : bool :=
  let negative := square_root (f64_lit (-1) 0) (context DOUBLE) in
  let negative_zero := square_root (FpFormat.zero DOUBLE true) (context DOUBLE) in
  (FpResult.bits negative =? FpFormat.default_nan DOUBLE) &&
  raises negative FpExceptions.INVALID &&
  (FpResult.bits negative_zero =? FpFormat.zero DOUBLE true) &&
  FpExceptions.is_empty (FpResult.raised negative_zero).

Definition the_sign_of_a_zero_sum_follows_the_rounding_mode : bool :=
  let toward_minus := Context.mk DOUBLE FpRounding.Minus FpControl.DEFAULT in
  (FpResult.bits (add one (f64_lit (-1) 0) false (context DOUBLE)) =? 0) &&
  (FpResult.bits (add one (f64_lit (-1) 0) false toward_minus) =? FpFormat.zero DOUBLE true).

Definition inexact_is_raised_exactly_when_the_result_was_rounded : bool :=
  let exact := add one one false (context DOUBLE) in
  let rounded := add (f64_lit 1 (-1)) (f64_lit 2 (-1)) false (context DOUBLE) in
  negb (raises exact FpExceptions.INEXACT) && raises rounded FpExceptions.INEXACT.

Definition overflow_and_underflow_are_flagged : bool :=
  let overflowed := multiply F64.MAX (f64_lit 2 0) (context DOUBLE) in
  let underflowed := multiply F64.MIN_POSITIVE F64.MIN_POSITIVE (context DOUBLE) in
  (FpResult.bits overflowed =? FpFormat.infinity DOUBLE) &&
  raises overflowed FpExceptions.OVERFLOW &&
  (FpResult.bits underflowed =? 0) && raises underflowed FpExceptions.UNDERFLOW.

Definition a_flushed_subnormal_input_raises_input_denormal_and_reads_as_zero : bool :=
  let flushing :=
    Context.mk DOUBLE FpRounding.Nearest (FpControl.mk FpRounding.Nearest true false false false) in
  let result := add one 1 false flushing in
  (FpResult.bits result =? one) && raises result FpExceptions.INPUT_DENORMAL.

Definition a_signalling_nan_operand_propagates_quietened_from_every_operation : bool :=
  let signalling := 0x7ff0000000000001 in
  let quietened := 0x7ff8000000000001 in
  passes
    (quotient ← divide signalling one (context DOUBLE);
     mret
       (all [add signalling one false (context DOUBLE); multiply signalling one (context DOUBLE);
             quotient; square_root signalling (context DOUBLE)]
          (fun result =>
            (FpResult.bits result =? quietened) && raises result FpExceptions.INVALID))).

Definition arithmetic_agrees_with_the_host_across_a_pseudorandom_sweep (rounds : nat) : bool :=
  sweep rounds 0x853c49e6748fea9b (fun state =>
    let state := xorshift state in
    let lhs := unit_range state in
    let state := xorshift state in
    let rhs := unit_range state in
    let root := FpResult.bits (square_root (F64.abs lhs) (context DOUBLE)) in
    ((add_double lhs rhs =? host_add f64 lhs rhs) &&
     (subtract lhs rhs =? host_sub f64 lhs rhs) &&
     passes (product ← double_op multiply_op lhs rhs; mret (product =? host_mul f64 lhs rhs)) &&
     passes (quotient ← double_op divide lhs rhs; mret (quotient =? host_div f64 lhs rhs)) &&
     (root =? Ieee.sqrt 52 64 1024 (F64.abs lhs)), state)).

Example arithmetic_tests_pass :
  [addition_matches_the_hosts_own_double_arithmetic;
   subtraction_matches_the_host;
   multiplication_matches_the_host;
   division_matches_the_host;
   square_root_matches_the_host;
   single_precision_arithmetic_matches_the_host;
   adding_opposite_infinities_is_invalid;
   multiplying_zero_by_infinity_is_invalid;
   dividing_a_finite_by_zero_raises_divide_by_zero_not_invalid;
   the_square_root_of_a_negative_is_invalid_but_of_negative_zero_is_not;
   the_sign_of_a_zero_sum_follows_the_rounding_mode;
   inexact_is_raised_exactly_when_the_result_was_rounded;
   overflow_and_underflow_are_flagged;
   a_flushed_subnormal_input_raises_input_denormal_and_reads_as_zero;
   a_signalling_nan_operand_propagates_quietened_from_every_operation;
   arithmetic_agrees_with_the_host_across_a_pseudorandom_sweep 5] = replicate 16 true.
Proof. vm_compute. reflexivity. Qed.

End arithmetic_tests.

(** ** [softfloat/fused.rs] *)

Module fused_tests.

Import fused.

#[local] Abbreviation SINGLE := FpFormat.Single.
#[local] Abbreviation DOUBLE := FpFormat.Double.
#[local] Abbreviation mul_add64 := (Ieee.mul_add 52 64 1024).
#[local] Abbreviation mul_add32 := (Ieee.mul_add 23 32 128).

Definition context (format : FpFormat) : Context :=
  Context.mk format FpRounding.Nearest FpControl.DEFAULT.

Definition plain (multiplicand multiplier addend : Z) : FusedOperands :=
  FusedOperands.mk multiplicand multiplier addend false false.

Definition fma_double (multiplicand multiplier addend : Z) : Z :=
  let operands := plain multiplicand multiplier addend in
  FpResult.bits (multiply_add operands (context DOUBLE)).

Definition fused_multiply_add_matches_the_hosts_own_fma : bool :=
  all [(f64_lit 1 0, f64_lit 2 0, f64_lit 3 0); (f64_lit 1 (-1), f64_lit 2 (-1), f64_lit 3 (-1));
       (f64_lit 15 (-1), f64_lit 25 (-1), f64_lit (-375) (-2));
       (f64_lit 1 300, f64_lit 1 (-300), f64_lit 1 0);
       (f64_lit 123456 (-3), f64_lit 789012 (-3), f64_lit (-5) (-1));
       (host_div f64 one (f64_lit 3 0), f64_lit 3 0, f64_lit (-1) 0);
       (F64.MIN_POSITIVE, f64_lit 5 (-1), f64_lit 1 0);
       (f64_lit (-25) (-1), f64_lit 425 (-2), f64_lit 10 0)]
    (fun '(multiplicand, multiplier, addend) =>
      fma_double multiplicand multiplier addend =? mul_add64 multiplicand multiplier addend).

Definition the_product_is_not_rounded_before_the_addition : bool :=
  let multiplicand := host_add f64 one F64.EPSILON in
  let multiplier := host_sub f64 one F64.EPSILON in
  let addend := f64_lit (-1) 0 in
  let fused := fma_double multiplicand multiplier addend in
  let unfused := host_add f64 (host_mul f64 multiplicand multiplier) addend in
  (fused =? mul_add64 multiplicand multiplier addend) && (fused != unfused).

Definition negating_the_product_and_the_addend_selects_the_four_mnemonics : bool :=
  let build is_product_negated is_addend_negated :=
    let operands :=
      FusedOperands.mk (f64_lit 3 0) (f64_lit 5 0) (f64_lit 2 0) is_product_negated
        is_addend_negated in
    FpResult.bits (multiply_add operands (context DOUBLE)) in
  host_eq f64 (build false false) (f64_lit 17 0) && host_eq f64 (build true false) (f64_lit (-13) 0) &&
  host_eq f64 (build false true) (f64_lit 13 0) && host_eq f64 (build true true) (f64_lit (-17) 0).

Definition an_infinite_product_plus_the_opposite_infinity_is_invalid : bool :=
  let operands := plain (FpFormat.infinity DOUBLE) one (FpFormat.signed_infinity DOUBLE true) in
  let result := multiply_add operands (context DOUBLE) in
  (FpResult.bits result =? FpFormat.default_nan DOUBLE) && raises result FpExceptions.INVALID.

Definition a_zero_times_infinity_product_is_invalid_whatever_the_addend : bool :=
  let operands := plain 0 (FpFormat.infinity DOUBLE) one in
  let result := multiply_add operands (context DOUBLE) in
  (FpResult.bits result =? FpFormat.default_nan DOUBLE) && raises result FpExceptions.INVALID.

Definition a_signalling_nan_in_any_of_the_three_operands_propagates : bool :=
  let signalling := 0x7ff0000000000001 in
  all [plain signalling one one; plain one signalling one; plain one one signalling]
    (fun operands =>
      let result := multiply_add operands (context DOUBLE) in
      (FpResult.bits result =? 0x7ff8000000000001) && raises result FpExceptions.INVALID).

Definition single_precision_fma_matches_the_host : bool :=
  all [(f32_lit 1 0, f32_lit 2 0, f32_lit 3 0); (f32_lit 1 (-1), f32_lit 2 (-1), f32_lit 3 (-1));
       (f32_lit 15 (-1), f32_lit (-25) (-1), f32_lit 125 (-3))]
    (fun '(multiplicand, multiplier, addend) =>
      let operands := plain multiplicand multiplier addend in
      let result := multiply_add operands (context SINGLE) in
      as_u32 (FpResult.bits result) =? mul_add32 multiplicand multiplier addend).

Definition fused_multiply_add_agrees_with_the_host_across_a_pseudorandom_sweep (rounds : nat) :
    bool :=
  sweep rounds 0x9e3779b97f4a7c15 (fun state =>
    let state := xorshift state in
    let multiplicand := unit_range state in
    let state := xorshift state in
    let multiplier := unit_range state in
    let state := xorshift state in
    let addend := unit_range state in
    (fma_double multiplicand multiplier addend =? mul_add64 multiplicand multiplier addend, state)).

Example fused_tests_pass :
  [fused_multiply_add_matches_the_hosts_own_fma;
   the_product_is_not_rounded_before_the_addition;
   negating_the_product_and_the_addend_selects_the_four_mnemonics;
   an_infinite_product_plus_the_opposite_infinity_is_invalid;
   a_zero_times_infinity_product_is_invalid_whatever_the_addend;
   a_signalling_nan_in_any_of_the_three_operands_propagates;
   single_precision_fma_matches_the_host;
   fused_multiply_add_agrees_with_the_host_across_a_pseudorandom_sweep 8] = replicate 8 true.
Proof. vm_compute. reflexivity. Qed.

End fused_tests.

(** ** [softfloat/convert.rs] *)

Module convert_tests.

Import convert.

#[local] Abbreviation SINGLE := FpFormat.Single.
#[local] Abbreviation DOUBLE := FpFormat.Double.
#[local] Abbreviation HALF := FpFormat.Half.
#[local] Abbreviation DEFAULT := FpControl.DEFAULT.

Definition to_signed_64 (value : Z) (rounding : FpRounding) : Z :=
  FpResult.bits (to_integer value DOUBLE IntFormat.S64 rounding).

Definition widening_a_single_to_a_double_is_exact : bool :=
  all [f32_lit 1 0; f32_lit (-25) (-1); f32_lit 1 (-1); F32.MIN_POSITIVE; F32.MAX]
    (fun value =>
      let result := convert_format value SINGLE DOUBLE DEFAULT FpRounding.Nearest in
      (FpResult.bits result =? f32_as_f64 value) &&
      FpExceptions.is_empty (FpResult.raised result)).

Definition narrowing_a_double_to_a_single_matches_the_hosts_cast : bool :=
  all [f64_lit 1 0; f64_lit (-25) (-1); f64_lit 1 (-1); host_div f64 one (f64_lit 3 0);
       f64_lit 1 (-300); f64_lit 1 300; f64_lit 123456789 (-3)]
    (fun value =>
      let result := convert_format value DOUBLE SINGLE DEFAULT FpRounding.Nearest in
      as_u32 (FpResult.bits result) =? f64_as_f32 value).

Definition narrowing_preserves_infinities_and_signed_zeroes : bool :=
  all [(F64.INFINITY, F32.INFINITY); (F64.NEG_INFINITY, F32.NEG_INFINITY);
       (f64_lit 0 0, f32_lit 0 0); (F64.neg (f64_lit 0 0), F32.neg (f32_lit 0 0))]
    (fun '(source, expected) =>
      let result := convert_format source DOUBLE SINGLE DEFAULT FpRounding.Nearest in
      as_u32 (FpResult.bits result) =? expected).

Definition a_signalling_nan_converts_to_a_quiet_one_and_raises : bool :=
  let result := convert_format 0x7f800001 SINGLE DOUBLE DEFAULT FpRounding.Nearest in
  FpFormat.is_nan DOUBLE (FpResult.bits result) &&
  negb (FpFormat.is_signalling_nan DOUBLE (FpResult.bits result)) &&
  raises result FpExceptions.INVALID.

Definition half_precision_round_trips_through_single : bool :=
  all [f32_lit 1 0; f32_lit 2 0; f32_lit (-5) (-1); f32_lit 0 0]
    (fun value =>
      let narrowed := convert_format value SINGLE HALF DEFAULT FpRounding.Nearest in
      let widened :=
        convert_format (FpResult.bits narrowed) HALF SINGLE DEFAULT FpRounding.Nearest in
      host_eq f32 (as_u32 (FpResult.bits widened)) value).

Definition converting_to_a_signed_integer_truncates_toward_zero : bool :=
  all [(f64_lit 19 (-1), 1); (f64_lit (-19) (-1), -1); (f64_lit 5 (-1), 0); (f64_lit (-5) (-1), 0);
       (f64_lit 2 0, 2); (f64_lit (-100075) (-2), -1000); (f64_lit 1 15, 1000000000000000)]
    (fun '(value, expected) => as_i64 (to_signed_64 value FpRounding.Zero) =? expected).

Definition each_rounding_mode_moves_the_expected_way : bool :=
  let value := f64_lit 25 (-1) in
  all [(FpRounding.Zero, 2); (FpRounding.Plus, 3); (FpRounding.Minus, 2); (FpRounding.Nearest, 2);
       (FpRounding.NearestAway, 3)]
    (fun '(rounding, want) => as_i64 (to_signed_64 value rounding) =? want) &&
  (as_i64 (to_signed_64 (f64_lit (-25) (-1)) FpRounding.Minus) =? -3) &&
  (as_i64 (to_signed_64 (f64_lit (-25) (-1)) FpRounding.Plus) =? -2) &&
  (as_i64 (to_signed_64 (f64_lit 35 (-1)) FpRounding.Nearest) =? 4).

Definition an_out_of_range_conversion_saturates_and_raises_invalid : bool :=
  let too_big := to_integer (f64_lit 1 300) DOUBLE IntFormat.S32 FpRounding.Zero in
  let too_small := to_integer (f64_lit (-1) 300) DOUBLE IntFormat.S32 FpRounding.Zero in
  (as_u32 (FpResult.bits too_big) =? 0x7fffffff) && raises too_big FpExceptions.INVALID &&
  (as_u32 (FpResult.bits too_small) =? 0x80000000) && raises too_small FpExceptions.INVALID.

Definition a_negative_value_converts_to_zero_and_raises_for_an_unsigned_target : bool :=
  let result := to_integer (f64_lit (-15) (-1)) DOUBLE IntFormat.U64 FpRounding.Zero in
  (FpResult.bits result =? 0) && raises result FpExceptions.INVALID.

Definition a_nan_converts_to_zero_rather_than_a_saturated_value : bool :=
  let result := to_integer F64.NAN DOUBLE IntFormat.S64 FpRounding.Zero in
  (FpResult.bits result =? 0) && raises result FpExceptions.INVALID.

Definition an_infinity_saturates_with_the_right_sign : bool :=
  let positive := to_integer F64.INFINITY DOUBLE IntFormat.S64 FpRounding.Zero in
  let negative := to_integer F64.NEG_INFINITY DOUBLE IntFormat.S64 FpRounding.Zero in
  (as_i64 (FpResult.bits positive) =? 2 ^ 63 - 1) && (as_i64 (FpResult.bits negative) =? - 2 ^ 63).

Definition integer_to_fp_matches_the_hosts_own_cast : bool :=
  all [0; 1; -1; 42; -42; 2 ^ 40; - 2 ^ 40; 2 ^ 63 - 1; - 2 ^ 63]
    (fun value =>
      let result :=
        from_integer (as_u64 value) IntFormat.S64 DOUBLE FpRounding.Nearest DEFAULT in
      FpResult.bits result =? Ieee.of_int 52 64 1024 value) &&
  all [0; 1; 2 ^ 64 - 1; 2 ^ 63; 12345678901234567890]
    (fun value =>
      let result := from_integer value IntFormat.U64 DOUBLE FpRounding.Nearest DEFAULT in
      FpResult.bits result =? Ieee.of_int 52 64 1024 value).

Definition a_32_bit_source_reads_only_its_own_width : bool :=
  let result :=
    from_integer 0xdeadbeef0000002a IntFormat.S32 DOUBLE FpRounding.Nearest DEFAULT in
  host_eq f64 (FpResult.bits result) (f64_lit 42 0).

Definition a_negative_32_bit_integer_sign_extends_from_its_own_width : bool :=
  let result := from_integer 0xffffffff IntFormat.S32 DOUBLE FpRounding.Nearest DEFAULT in
  let unsigned := from_integer 0xffffffff IntFormat.U32 DOUBLE FpRounding.Nearest DEFAULT in
  host_eq f64 (FpResult.bits result) (f64_lit (-1) 0) &&
  host_eq f64 (FpResult.bits unsigned) (f64_lit 4294967295 0).

Definition round_to_integral_matches_the_hosts_own_rounding : bool :=
  all [(f64_lit 15 (-1), FpRounding.Nearest, f64_lit 2 0);
       (f64_lit 25 (-1), FpRounding.Nearest, f64_lit 2 0);
       (f64_lit (-15) (-1), FpRounding.Nearest, f64_lit (-2) 0);
       (f64_lit 15 (-1), FpRounding.NearestAway, f64_lit 2 0);
       (f64_lit 25 (-1), FpRounding.NearestAway, f64_lit 3 0);
       (f64_lit 11 (-1), FpRounding.Plus, f64_lit 2 0);
       (f64_lit 19 (-1), FpRounding.Minus, f64_lit 1 0);
       (f64_lit (-11) (-1), FpRounding.Zero, f64_lit (-1) 0);
       (f64_lit 4 (-1), FpRounding.Nearest, f64_lit 0 0);
       (f64_lit 1 300, FpRounding.Nearest, f64_lit 1 300)]
    (fun '(value, rounding, expected) =>
      host_eq f64 (FpResult.bits (round_to_integral value DOUBLE rounding DEFAULT)) expected).

Definition round_to_integral_keeps_the_sign_of_a_zero_result : bool :=
  let result := round_to_integral (f64_lit (-4) (-1)) DOUBLE FpRounding.Nearest DEFAULT in
  FpResult.bits result =? FpFormat.zero DOUBLE true.

Definition round_to_integral_leaves_infinities_and_nans_alone : bool :=
  let infinity := round_to_integral F64.INFINITY DOUBLE FpRounding.Nearest DEFAULT in
  let nan := round_to_integral 0x7ff0000000000001 DOUBLE FpRounding.Nearest DEFAULT in
  (FpResult.bits infinity =? FpFormat.infinity DOUBLE) &&
  FpFormat.is_nan DOUBLE (FpResult.bits nan) && raises nan FpExceptions.INVALID.

Definition conversions_agree_with_the_host_across_a_pseudorandom_sweep (rounds : nat) : bool :=
  sweep rounds 0xd1b54a32d192ed03 (fun state =>
    let raw := xorshift state in
    let value := Z.lor (Z.land raw 0x800fffffffffffff) 0x40b0000000000000 in
    let narrowed := convert_format value DOUBLE SINGLE DEFAULT FpRounding.Nearest in
    let integer := as_i64 raw in
    let converted :=
      from_integer (as_u64 integer) IntFormat.S64 DOUBLE FpRounding.Nearest DEFAULT in
    ((as_i64 (to_signed_64 value FpRounding.Zero) =? Ieee.trunc 52 64 1024 value) &&
     (as_u32 (FpResult.bits narrowed) =? f64_as_f32 value) &&
     (FpResult.bits converted =? Ieee.of_int 52 64 1024 integer), raw)).

Example convert_tests_pass :
  [widening_a_single_to_a_double_is_exact;
   narrowing_a_double_to_a_single_matches_the_hosts_cast;
   narrowing_preserves_infinities_and_signed_zeroes;
   a_signalling_nan_converts_to_a_quiet_one_and_raises;
   half_precision_round_trips_through_single;
   converting_to_a_signed_integer_truncates_toward_zero;
   each_rounding_mode_moves_the_expected_way;
   an_out_of_range_conversion_saturates_and_raises_invalid;
   a_negative_value_converts_to_zero_and_raises_for_an_unsigned_target;
   a_nan_converts_to_zero_rather_than_a_saturated_value;
   an_infinity_saturates_with_the_right_sign;
   integer_to_fp_matches_the_hosts_own_cast;
   a_32_bit_source_reads_only_its_own_width;
   a_negative_32_bit_integer_sign_extends_from_its_own_width;
   round_to_integral_matches_the_hosts_own_rounding;
   round_to_integral_keeps_the_sign_of_a_zero_result;
   round_to_integral_leaves_infinities_and_nans_alone;
   conversions_agree_with_the_host_across_a_pseudorandom_sweep 8] = replicate 18 true.
Proof. vm_compute. reflexivity. Qed.

End convert_tests.

(** ** [native.rs] *)

Module native_tests.

#[local] Abbreviation SINGLE := FpFormat.Single.
#[local] Abbreviation DOUBLE := FpFormat.Double.
#[local] Abbreviation DEFAULT := FpControl.DEFAULT.

(** [native.binary(op, pair, control).bits == reference.binary(op, pair, control).bits] *)
Definition agree (op : FpBinaryOp) (pair : FpOperands) (control : FpControl) : bool := passes
  (ours ← FpBackend.binary Native.new op pair control;
   theirs ← FpBackend.binary Softfloat.new op pair control;
   mret (FpResult.bits ours =? FpResult.bits theirs)).

Definition operands (lhs rhs : Z) (format : FpFormat) : FpOperands :=
  FpOperands.new lhs rhs format FpRounding.Nearest.

Definition the_native_backend_reports_that_it_tracks_no_exceptions : bool :=
  negb (FpBackend.tracks_exceptions Native.new) && FpBackend.tracks_exceptions Softfloat.new.

Definition native_arithmetic_agrees_with_softfloat_on_ordinary_values (rounds : nat) : bool :=
  sweep rounds 0x243f6a8885a308d3 (fun state =>
    let first := xorshift state in
    let second := xorshift first in
    let pair := operands (unit_range first) (unit_range second) DOUBLE in
    (all [FpBinaryOp.Add; FpBinaryOp.Sub; FpBinaryOp.Mul; FpBinaryOp.Div]
       (fun op => agree op pair DEFAULT), second)).

Definition native_single_precision_agrees_with_softfloat : bool :=
  all [(f32_lit 1 0, f32_lit 3 0); (f32_lit 1 (-1), f32_lit 2 (-1));
       (f32_lit (-75) (-1), f32_lit 225 (-2)); (f32_lit 1 30, f32_lit 1 (-30))]
    (fun '(lhs, rhs) =>
      let pair := operands lhs rhs SINGLE in
      all [FpBinaryOp.Add; FpBinaryOp.Mul; FpBinaryOp.Div] (fun op => agree op pair DEFAULT)).

Definition the_native_backend_raises_no_exception_flags : bool := passes
  (let pair := operands one (f64_lit 0 0) DOUBLE in
   result ← FpBackend.binary Native.new FpBinaryOp.Div pair DEFAULT;
   reference ← FpBackend.binary Softfloat.new FpBinaryOp.Div pair DEFAULT;
   mret
     ((FpResult.bits result =? FpFormat.infinity DOUBLE) &&
      FpExceptions.is_empty (FpResult.raised result) &&
      raises reference FpExceptions.DIVIDE_BY_ZERO)).

Definition a_non_default_rounding_mode_falls_through_to_the_reference : bool := passes
  (let lhs := f64_lit 10 0 in
   let rhs := f64_lit 3 0 in
   let toward_zero := FpOperands.new lhs rhs DOUBLE FpRounding.Zero in
   native_result ← FpBackend.binary Native.new FpBinaryOp.Div toward_zero DEFAULT;
   reference_result ← FpBackend.binary Softfloat.new FpBinaryOp.Div toward_zero DEFAULT;
   nearest ← FpBackend.binary Native.new FpBinaryOp.Div (operands lhs rhs DOUBLE) DEFAULT;
   mret
     ((FpResult.bits native_result =? FpResult.bits reference_result) &&
      (FpResult.bits native_result != FpResult.bits nearest))).

Definition half_precision_falls_through_to_the_reference : bool :=
  let half := FpOperands.new 0x3c00 0x4000 FpFormat.Half FpRounding.Nearest in
  agree FpBinaryOp.Add half DEFAULT.

Definition comparison_agrees_with_the_reference_including_the_unordered_case : bool :=
  let values :=
    [F64.NEG_INFINITY; f64_lit (-1) 0; F64.neg (f64_lit 0 0); f64_lit 0 0; f64_lit 1 0;
     F64.INFINITY; F64.NAN] in
  all values (fun lhs => all values (fun rhs =>
    let pair := operands lhs rhs DOUBLE in
    fst (FpBackend.compare Native.new pair false) ==
    fst (FpBackend.compare Softfloat.new pair false))).

Definition the_extrema_stay_on_the_reference_path : bool := passes
  (let quiet := 0x7ff8000000000001 in
   let pair := operands quiet one DOUBLE in
   maximum ← FpBackend.binary Native.new FpBinaryOp.Max pair DEFAULT;
   maximum_number ← FpBackend.binary Native.new FpBinaryOp.MaxNum pair DEFAULT;
   mret ((FpResult.bits maximum =? quiet) && (FpResult.bits maximum_number =? one))).

Definition format_conversion_agrees_with_the_reference : bool :=
  all [f64_lit 1 0; f64_lit (-25) (-1); f64_lit 1 (-1); host_div f64 one (f64_lit 3 0);
       f64_lit 1 300; f64_lit 1 (-300)]
    (fun value =>
      let source := FpValue.new value DOUBLE in
      FpResult.bits (FpBackend.convert_format Native.new source SINGLE DEFAULT) =?
      FpResult.bits (FpBackend.convert_format Softfloat.new source SINGLE DEFAULT)) &&
  all [f32_lit 1 0; f32_lit (-25) (-1); f32_lit 1 (-1); F32.MIN_POSITIVE]
    (fun value =>
      let source := FpValue.new value SINGLE in
      FpResult.bits (FpBackend.convert_format Native.new source DOUBLE DEFAULT) =?
      FpResult.bits (FpBackend.convert_format Softfloat.new source DOUBLE DEFAULT)).

Example native_tests_pass :
  [the_native_backend_reports_that_it_tracks_no_exceptions;
   native_arithmetic_agrees_with_softfloat_on_ordinary_values 5;
   native_single_precision_agrees_with_softfloat;
   the_native_backend_raises_no_exception_flags;
   a_non_default_rounding_mode_falls_through_to_the_reference;
   half_precision_falls_through_to_the_reference;
   comparison_agrees_with_the_reference_including_the_unordered_case;
   the_extrema_stay_on_the_reference_path;
   format_conversion_agrees_with_the_reference] = replicate 9 true.
Proof. vm_compute. reflexivity. Qed.

End native_tests.

(** ** [engine.rs], of either build *)

Module engine_tests.

Import FpEngine.

Section engine_tests.

Context `{PreciseBuild}.

#[local] Abbreviation DOUBLE := FpFormat.Double.

Definition TOWARD_ZERO : Z := wshl 64 3 22.
Definition FLUSH_TO_ZERO : Z := wshl 64 1 24.

Definition operands (lhs rhs : Z) : FpOperands :=
  FpOperands.new lhs rhs DOUBLE FpRounding.Nearest.

Definition a_default_fpcr_selects_the_native_backend_outside_precise_builds : bool :=
  let engine := FpEngine.new in
  Bool.eqb (tracks_exceptions engine) IS_PRECISE_BUILD &&
  Bool.eqb (selects_native_backend 0) (negb IS_PRECISE_BUILD).

Definition a_non_default_fpcr_always_selects_the_reference : bool :=
  all [TOWARD_ZERO; FLUSH_TO_ZERO; wshl 64 1 25; wshl 64 1 19] (fun fpcr =>
    negb (selects_native_backend fpcr) && tracks_exceptions (with_fpcr fpcr)).

Definition writing_fpcr_reselects_the_backend : bool :=
  let engine := FpEngine.new in
  let is_initial := Bool.eqb (tracks_exceptions engine) IS_PRECISE_BUILD in
  let engine := set_fpcr engine TOWARD_ZERO in
  let is_reference := tracks_exceptions engine && (default_rounding engine == FpRounding.Zero) in
  let engine := set_fpcr engine 0 in
  is_initial && is_reference && Bool.eqb (tracks_exceptions engine) IS_PRECISE_BUILD &&
  (default_rounding engine == FpRounding.Nearest).

Definition the_engine_computes_the_same_answer_whichever_backend_is_selected : bool := passes
  (let native := with_fpcr 0 in
   let _reference := set_fpcr (with_fpcr TOWARD_ZERO) 0 in
   let pair := operands (f64_lit 1 (-1)) (f64_lit 2 (-1)) in
   from_engine ← binary native FpBinaryOp.Add pair;
   from_reference ← FpBackend.binary Softfloat.new FpBinaryOp.Add pair FpControl.DEFAULT;
   mret (fst from_engine =? FpResult.bits from_reference)).

Definition exception_flags_accumulate_only_on_the_reference_path : bool := passes
  (let pair := FpOperands.new one (f64_lit 0 0) DOUBLE FpRounding.Zero in
   '(_, reference) ← binary (with_fpcr TOWARD_ZERO) FpBinaryOp.Div pair;
   '(_, native) ← binary FpEngine.new FpBinaryOp.Div
     (FpOperands.new one (f64_lit 0 0) DOUBLE FpRounding.Nearest);
   mret
     ((Z.land (exceptions reference) (FpExceptions.to_bits FpExceptions.DIVIDE_BY_ZERO) != 0) &&
      Bool.eqb (exceptions native != 0) IS_PRECISE_BUILD)).

Definition flags_are_cumulative_across_operations_and_cleared_only_by_a_write : bool := passes
  (let engine := with_fpcr TOWARD_ZERO in
   let rounding := FpRounding.Zero in
   '(_, engine) ← binary engine FpBinaryOp.Div (FpOperands.new one (f64_lit 0 0) DOUBLE rounding);
   let after_first := exceptions engine in
   '(_, engine) ← binary engine FpBinaryOp.Add (FpOperands.new one one DOUBLE rounding);
   let after_second := exceptions engine in
   let engine := set_exceptions engine 0 in
   mret
     ((after_first != 0) && (Z.land after_second after_first =? after_first) &&
      (exceptions engine =? 0))).

Definition the_sign_operations_never_touch_the_flags : bool :=
  let engine := with_fpcr TOWARD_ZERO in
  let signalling := FpValue.new 0x7ff0000000000001 DOUBLE in
  let negated := copy_sign engine signalling FpSignOp.Negate in
  (negated =? 0xfff0000000000001) && (exceptions engine =? 0).

Definition a_comparison_returns_the_architectures_nzcv : bool :=
  let engine := FpEngine.new in
  let '(less, engine) := compare engine (operands (f64_lit 1 0) (f64_lit 2 0)) false in
  let '(greater, engine) := compare engine (operands (f64_lit 2 0) (f64_lit 1 0)) false in
  let '(equal, engine) := compare engine (operands (f64_lit 1 0) (f64_lit 1 0)) false in
  let '(unordered, engine) := compare engine (operands F64.NAN (f64_lit 1 0)) false in
  (less =? 8) && (greater =? 2) && (equal =? 6) && (unordered =? 3).

Definition all_tests : list bool :=
  [a_default_fpcr_selects_the_native_backend_outside_precise_builds;
   a_non_default_fpcr_always_selects_the_reference;
   writing_fpcr_reselects_the_backend;
   the_engine_computes_the_same_answer_whichever_backend_is_selected;
   exception_flags_accumulate_only_on_the_reference_path;
   flags_are_cumulative_across_operations_and_cleared_only_by_a_write;
   the_sign_operations_never_touch_the_flags;
   a_comparison_returns_the_architectures_nzcv].

End engine_tests.

Example engine_tests_pass :
  (@all_tests false, @all_tests true) = (replicate 8 true, replicate 8 true).
Proof. vm_compute. reflexivity. Qed.

End engine_tests.
