(* ===== verification/Conformance.v ===== *)
(** The unit tests of the decoder, the interpreter, the traps, the traces, the
    shim and the machine ([crates/]), run on the model.

    One module per test module of the source, one boolean per test: the
    conjunction of its assertions, [true] when the test passes.  A call that
    panics, and an [expect] of an error, make the test fail.  The [Example] at the
    end of each module evaluates its tests.

    A test that sweeps a pseudorandom sequence takes the number of rounds, up to
    200,000 in the source, and the exhaustive comparison of the bitmask decoder
    takes the rotations it tries, 0 to 63 in the source; the examples run a few. *)

From Stdlib Require Import Ascii String.
From stdpp Require Import base numbers list option.
From S2P Require Import Prelude Reg Pstate RegFile Operand Op Instruction DpImmediate Decode.
From S2P Require Import Flags Fetch GuestMemory Memory Trap Cache TraceFormat TraceSink Cpu.
From S2P Require Import Interp Machine ShimHost MemoryMap Shim.

#[local] Open Scope Z_scope.

(** ** What the tests share *)

#[local] Instance ShiftKind_eq_dec : EqDecision ShiftKind.
Proof. solve_decision. Defined.
#[local] Instance ShiftedReg_eq_dec : EqDecision ShiftedReg.
Proof. solve_decision. Defined.
#[local] Instance ExtendKind_eq_dec : EqDecision ExtendKind.
Proof. solve_decision. Defined.
#[local] Instance ExtendedReg_eq_dec : EqDecision ExtendedReg.
Proof. solve_decision. Defined.
#[local] Instance WriteBack_eq_dec : EqDecision WriteBack.
Proof. solve_decision. Defined.
#[local] Instance AddrMode_eq_dec : EqDecision AddrMode.
Proof. solve_decision. Defined.
#[local] Instance AccessSize_eq_dec : EqDecision AccessSize.
Proof. solve_decision. Defined.
#[local] Instance Ordering_eq_dec : EqDecision Ordering.
Proof. solve_decision. Defined.
#[local] Instance VecHalf_eq_dec : EqDecision VecHalf.
Proof. solve_decision. Defined.
#[local] Instance VecShape_eq_dec : EqDecision VecShape.
Proof. solve_decision. Defined.
#[local] Instance VecOperand_eq_dec : EqDecision VecOperand.
Proof. solve_decision. Defined.
#[local] Instance Form_eq_dec : EqDecision Form.
Proof. solve_decision. Defined.
#[local] Instance EncodingGroup_eq_dec : EqDecision EncodingGroup.
Proof. solve_decision. Defined.
#[local] Instance RegFile_eq_dec : EqDecision RegFile.
Proof. solve_decision. Defined.
#[local] Instance EffectiveAddress_eq_dec : EqDecision EffectiveAddress.
Proof. solve_decision. Defined.
#[local] Instance AccessFault_eq_dec : EqDecision AccessFault.
Proof. solve_decision. Defined.
#[local] Instance LayoutError_eq_dec : EqDecision guest_memory.LayoutError.LayoutError.
Proof. solve_decision. Defined.
#[local] Instance Trap_eq_dec : EqDecision Trap.
Proof. solve_decision. Defined.
#[local] Instance Stop_eq_dec : EqDecision Stop.
Proof. solve_decision. Defined.
#[local] Instance IoVec_eq_dec : EqDecision structs.IoVec.
Proof. solve_decision. Defined.
#[local] Instance result_eq_dec `{EqDecision T, EqDecision E} : EqDecision (result T E).
Proof. solve_decision. Defined.

#[local] Notation "x == y" := (bool_decide (x = y)) (at level 70).
#[local] Notation "x != y" := (negb (x =? y)) (at level 70).
#[local] Abbreviation all := (fun l f => forallb f l) (only parsing).

(** [for x in l], with the assertions of each round. *)
Fixpoint for_all {A} (l : list A) (round : A -> may_panic bool) : may_panic bool :=
  match l with
  | [] => mret true
  | a :: l => outcome ← round a; rest ← for_all l round; mret (outcome && rest)
  end.

(** [result.expect(..)] and [option.expect(..)] *)
Definition expect {T E} (r : result T E) : may_panic T :=
  match r with Ok t => mret t | Err _ => Panic end.
Definition expect_some {T} (o : option T) : may_panic T :=
  match o with Some t => mret t | None => Panic end.

(** [memory.write_uint(..).expect(..)]: the memory it leaves. *)
Definition write_expect (memory : FlatMemory) (address width value : Z) : may_panic FlatMemory :=
  '(memory, outcome) ← write_uint memory address width value;
  _ ← expect outcome;
  mret memory.

(** The successive words of the generator. *)
Fixpoint words (rounds : nat) (state : Z) : list Z :=
  match rounds with
  | O => []
  | S rounds => let state := xorshift state in state :: words rounds state
  end.

Definition u64_MAX : Z := 2 ^ 64 - 1.

(** [-n as u64] *)
Abbreviation negative n := (as_u64 (- n)) (only parsing).

(** ** [reg.rs] *)

Module reg_tests.

Definition slot_31_resolves_to_the_register_the_encoding_asked_for : bool := passes
  (zr ← Gpr.from_index_zr 31;
   sp ← Gpr.from_index_sp 31;
   zr_30 ← Gpr.from_index_zr 30;
   sp_30 ← Gpr.from_index_sp 30;
   mret ((zr == Gpr.ZR) && (sp == Gpr.SP) && (zr_30 == Gpr.X 30) && (sp_30 == Gpr.X 30))).

Definition only_the_zero_register_discards_writes : bool :=
  Gpr.is_zero Gpr.ZR && negb (Gpr.is_zero Gpr.SP) && negb (Gpr.is_zero (Gpr.X 0)).

Definition trace_ids_match_the_wire_contract : bool := passes
  (gpr_0 ← trace_reg_id.gpr 0;
   gpr_30 ← trace_reg_id.gpr 30;
   lo_0 ← trace_reg_id.vec_lo 0;
   hi_0 ← trace_reg_id.vec_hi 0;
   lo_31 ← trace_reg_id.vec_lo 31;
   hi_31 ← trace_reg_id.vec_hi 31;
   mret
     ((gpr_0 =? 0) && (gpr_30 =? 30) && (trace_reg_id.SP =? 31) && (trace_reg_id.PC =? 32) &&
      (trace_reg_id.PSTATE =? 33) && (trace_reg_id.FPCR =? 34) && (trace_reg_id.FPSR =? 35) &&
      (lo_0 =? 64) && (hi_0 =? 65) && (lo_31 =? 126) && (hi_31 =? 127) &&
      (trace_reg_id.SYS_BASE =? 256))).

Definition vector_registers_keep_the_slot_they_were_built_from : bool := passes
  (for_all (zrange (Z.to_nat Vec.COUNT)) (fun index =>
     vec ← Vec.new index; mret (Vec.index vec =? index))).

Example reg_tests_pass :
  [slot_31_resolves_to_the_register_the_encoding_asked_for;
   only_the_zero_register_discards_writes;
   trace_ids_match_the_wire_contract;
   vector_registers_keep_the_slot_they_were_built_from] = replicate 4 true.
Proof. vm_compute. reflexivity. Qed.

End reg_tests.

(** ** [pstate.rs] *)

Module pstate_tests.

Definition condition_flags_round_trip_through_their_packed_field : bool :=
  all (zrange 16) (fun bits =>
    (Nzcv.to_bits (Nzcv.from_bits bits) =? bits) && (Daif.to_bits (Daif.from_bits bits) =? bits)).

Definition the_trace_word_places_every_field_where_the_format_says : bool :=
  let state :=
    Pstate.mk (Nzcv.from_bits 10) (Daif.from_bits 6) ExceptionLevel.El1 StackPointerSelect.Elx in
  let word := Pstate.to_trace_word state in
  (Z.land (wshr 64 word 28) 15 =? 10) && (Z.land (wshr 64 word 6) 15 =? 6) &&
  (Z.land (wshr 64 word 2) 3 =? 1) && (Z.land word 1 =? 1).

Definition the_trace_word_leaves_every_other_bit_zero : bool :=
  let all_fields_set :=
    Pstate.mk (Nzcv.from_bits 15) (Daif.from_bits 15) ExceptionLevel.El1 StackPointerSelect.Elx in
  let occupied :=
    Z.lor (Z.lor (Z.lor (wshl 64 15 28) (wshl 64 15 6)) (wshl 64 3 2)) 1 in
  (Z.land (Pstate.to_trace_word all_fields_set) (wnot 64 occupied) =? 0) &&
  (Pstate.to_trace_word (RegFile.pstate RegFile.new) =? 0).

Example pstate_tests_pass :
  [condition_flags_round_trip_through_their_packed_field;
   the_trace_word_places_every_field_where_the_format_says;
   the_trace_word_leaves_every_other_bit_zero] = replicate 3 true.
Proof. vm_compute. reflexivity. Qed.

End pstate_tests.

(** ** [regfile.rs] *)

Module regfile_tests.

Import RegFile.

Definition the_zero_register_reads_zero_and_swallows_writes : bool := passes
  (regs ← write_x RegFile.new Gpr.ZR 0xdeadbeefdeadbeef;
   value ← read_x regs Gpr.ZR;
   mret ((value =? 0) && (regs == RegFile.new))).

Definition sp_and_x_slot_31_are_different_storage : bool := passes
  (regs ← write_x RegFile.new Gpr.SP 0x1000;
   regs ← write_x regs (Gpr.X 30) 0x2000;
   sp_value ← read_x regs Gpr.SP;
   x30_value ← read_x regs (Gpr.X 30);
   mret ((sp_value =? 0x1000) && (sp regs =? 0x1000) && (x30_value =? 0x2000))).

Definition a_w_form_write_clears_the_upper_half : bool := passes
  (regs ← write_x RegFile.new (Gpr.X 5) 0xffffffffffffffff;
   regs ← write_w regs (Gpr.X 5) 0x12345678;
   x_value ← read_x regs (Gpr.X 5);
   w_value ← read_w regs (Gpr.X 5);
   mret ((x_value =? 0x12345678) && (w_value =? 0x12345678))).

Definition vector_registers_hold_all_128_bits : bool := passes
  (let value := 0x0f0e0d0c0b0a09080706050403020100 in
   v31 ← Vec.new 31;
   v30 ← Vec.new 30;
   regs ← write_v RegFile.new v31 value;
   high ← read_v regs v31;
   other ← read_v regs v30;
   mret ((high =? value) && (other =? 0))).

Definition every_general_purpose_register_is_independent_storage : bool := passes
  (regs ← for_each (zrange (Z.to_nat NUM_GPR))
     (fun index regs => write_x regs (Gpr.X index) (0x100 + index)) RegFile.new;
   for_all (zrange (Z.to_nat NUM_GPR)) (fun index =>
     value ← x_at regs index; mret (value =? 0x100 + index))).

Example regfile_tests_pass :
  [the_zero_register_reads_zero_and_swallows_writes;
   sp_and_x_slot_31_are_different_storage;
   a_w_form_write_clears_the_upper_half;
   vector_registers_hold_all_128_bits;
   every_general_purpose_register_is_independent_storage] = replicate 5 true.
Proof. vm_compute. reflexivity. Qed.

End regfile_tests.

(** ** [decode/operand.rs] *)

Module operand_tests.

Definition the_sf_bit_selects_operand_width_and_its_mask : bool :=
  (RegWidth.from_sf false == RegWidth.W32) && (RegWidth.from_sf true == RegWidth.X64) &&
  (RegWidth.mask RegWidth.W32 =? 0xffffffff) && (RegWidth.mask RegWidth.X64 =? u64_MAX) &&
  (RegWidth.bits RegWidth.W32 =? 32) && (RegWidth.bits RegWidth.X64 =? 64).

Definition extend_options_decode_in_encoding_order : bool :=
  all
    (imap (fun option row => (Z.of_nat option, row))
       [(ExtendKind.Uxtb, 8, false); (ExtendKind.Uxth, 16, false); (ExtendKind.Uxtw, 32, false);
        (ExtendKind.Uxtx, 64, false); (ExtendKind.Sxtb, 8, true); (ExtendKind.Sxth, 16, true);
        (ExtendKind.Sxtw, 32, true); (ExtendKind.Sxtx, 64, true)])
    (fun '(option, (kind, bits, is_signed)) =>
      let decoded := ExtendKind.from_option option in
      (decoded == kind) && (ExtendKind.source_bits decoded =? bits) &&
      Bool.eqb (ExtendKind.is_signed decoded) is_signed).

Definition condition_codes_decode_in_encoding_order : bool :=
  (Cond.from_bits 0 == Cond.Eq) && (Cond.from_bits 7 == Cond.Vc) &&
  (Cond.from_bits 13 == Cond.Le) && (Cond.from_bits 14 == Cond.Al) &&
  (Cond.from_bits 15 == Cond.Nv).

Definition inverting_a_condition_flips_the_low_encoding_bit : bool :=
  all (zrange 14) (fun bits =>
    let cond := Cond.from_bits bits in
    (Cond.invert cond == Cond.from_bits (Z.lxor bits 1)) &&
    (Cond.invert (Cond.invert cond) == cond)) &&
  (Cond.invert Cond.Al == Cond.Al) && (Cond.invert Cond.Nv == Cond.Nv).

Definition element_sizes_decode_from_the_two_bit_size_field : bool :=
  (ElemSize.bits (ElemSize.from_size 0) =? 8) && (ElemSize.bits (ElemSize.from_size 1) =? 16) &&
  (ElemSize.bits (ElemSize.from_size 2) =? 32) && (ElemSize.bits (ElemSize.from_size 3) =? 64) &&
  (ElemSize.bits ElemSize.Q128 =? 128).

Example decode_operand_tests_pass :
  [the_sf_bit_selects_operand_width_and_its_mask;
   extend_options_decode_in_encoding_order;
   condition_codes_decode_in_encoding_order;
   inverting_a_condition_flips_the_low_encoding_bit;
   element_sizes_decode_from_the_two_bit_size_field] = replicate 5 true.
Proof. vm_compute. reflexivity. Qed.

End operand_tests.

(** ** [decode/address.rs] *)

Module address_tests.

Definition every_register_based_mode_reports_its_base : bool :=
  let base := Gpr.SP in
  (AddrMode.base (AddrMode.Immediate base 8 WriteBack.None) == Some base) &&
  (AddrMode.base (AddrMode.BaseOnly base) == Some base) &&
  (AddrMode.base
     (AddrMode.Register base (ExtendedReg.mk (Gpr.X 1) ExtendKind.Uxtx 3) WriteBack.None)
   == Some base) &&
  (AddrMode.base (AddrMode.PcRelative (-4)) == None).

Definition only_pre_and_post_indexed_modes_write_back : bool :=
  let indexed writeback := AddrMode.Immediate (Gpr.X 0) 16 writeback in
  negb (AddrMode.has_writeback (indexed WriteBack.None)) &&
  AddrMode.has_writeback (indexed WriteBack.Pre) &&
  AddrMode.has_writeback (indexed WriteBack.Post) &&
  negb (AddrMode.has_writeback (AddrMode.BaseOnly (Gpr.X 0))).

Definition the_access_scale_is_log2_of_its_width : bool :=
  (AccessSize.scale AccessSize.B =? 0) && (AccessSize.scale AccessSize.H =? 1) &&
  (AccessSize.scale AccessSize.W =? 2) && (AccessSize.scale AccessSize.X =? 3) &&
  (AccessSize.scale AccessSize.Q =? 4).

Example address_tests_pass :
  [every_register_based_mode_reports_its_base;
   only_pre_and_post_indexed_modes_write_back;
   the_access_scale_is_log2_of_its_width] = replicate 3 true.
Proof. vm_compute. reflexivity. Qed.

End address_tests.

(** ** [decode/op.rs] *)

Module op_tests.

Definition merging_opcodes_read_their_destination : bool :=
  all [Op.Movk; Op.Bfm; Op.VecBsl; Op.Fmla; Op.Ins; Op.Fmls; Op.VecMla; Op.VecMls; Op.VecBit;
       Op.VecBif; Op.InsGpr; Op.Tbx]
    Op.reads_destination.

Definition overwriting_opcodes_do_not_read_their_destination : bool :=
  all [Op.Movz; Op.Add; Op.Fmul; Op.Ldr; Op.Tbl; Op.Dup] (fun op => negb (Op.reads_destination op)).

Example op_tests_pass :
  [merging_opcodes_read_their_destination;
   overwriting_opcodes_do_not_read_their_destination] = replicate 2 true.
Proof. vm_compute. reflexivity. Qed.

End op_tests.

(** ** [decode/instruction.rs] *)

Module instruction_tests.

Import Instruction.

Definition an_instruction_defaults_to_64_bit_operands_without_flags : bool :=
  let insn :=
    new 0x8b010020 Op.Add
      (Form.RegShifted (Gpr.X 0) (Gpr.X 1) (ShiftedReg.mk (Gpr.X 1) ShiftKind.Lsl 0)) in
  (width insn == RegWidth.X64) && negb (sets_flags insn) && (encoding insn =? 0x8b010020).

Definition width_and_flag_setting_are_independent_of_the_opcode : bool :=
  let insn := setting_flags (with_width (new 0 Op.Add Form.None) RegWidth.W32) in
  (width insn == RegWidth.W32) && sets_flags insn && (op insn == Op.Add).

Definition an_unallocated_encoding_is_an_instruction_not_an_error : bool :=
  let insn := unallocated 0xffffffff in
  Op.is_unallocated (op insn) && (encoding insn =? 0xffffffff) &&
  negb (Op.is_unallocated Op.Add).

Example instruction_tests_pass :
  [an_instruction_defaults_to_64_bit_operands_without_flags;
   width_and_flag_setting_are_independent_of_the_opcode;
   an_unallocated_encoding_is_an_instruction_not_an_error] = replicate 3 true.
Proof. vm_compute. reflexivity. Qed.

End instruction_tests.

(** ** [decode/group/mod.rs] *)

Module group_tests.

Import Instruction.

Definition add_immediate_resolves_slot_31_as_sp_and_keeps_its_immediate : bool := passes
  (insn ← decode 0x910043ff;
   mret
     ((op insn == Op.Add) && negb (sets_flags insn) && (width insn == RegWidth.X64) &&
      (form insn == Form.RegImm Gpr.SP Gpr.SP 0x10))).

Definition a_flag_setting_add_immediate_resolves_slot_31_as_the_zero_register : bool := passes
  (insn ← decode 0xb100041f;
   mret
     ((op insn == Op.Add) && sets_flags insn &&
      (form insn == Form.RegImm Gpr.ZR (Gpr.X 0) 1))).

Definition a_shifted_immediate_is_expanded_at_decode_time : bool := passes
  (insn ← decode 0x91400400;
   mret (form insn == Form.RegImm (Gpr.X 0) (Gpr.X 0) 0x1000)).

Definition a_32_bit_add_immediate_reports_the_narrow_width : bool := passes
  (insn ← decode 0x11000c41;
   mret ((width insn == RegWidth.W32) && (op insn == Op.Add))).

Definition branch_offsets_are_sign_extended_and_scaled_to_bytes : bool := passes
  (forward ← decode 0x14000002;
   backward ← decode 0x97fffffe;
   mret
     ((form forward == Form.Branch 8) && (op backward == Op.Bl) &&
      (form backward == Form.Branch (-8)))).

Definition ret_decodes_to_an_indirect_branch_through_its_link_register : bool := passes
  (insn ← decode 0xd65f03c0;
   mret ((op insn == Op.Ret) && (form insn == Form.BranchIndirect (Gpr.X 30)))).

Definition nop_decodes_with_no_operands : bool := passes
  (insn ← decode 0xd503201f;
   mret ((op insn == Op.Nop) && (form insn == Form.None))).

Definition an_unsigned_offset_load_scales_its_immediate_by_the_access_size : bool := passes
  (insn ← decode 0xf9400820;
   mret
     ((op insn == Op.Ldr) &&
      (form insn ==
         Form.LoadStore (Gpr.X 0) None None (AddrMode.Immediate (Gpr.X 1) 16 WriteBack.None)
           AccessSize.X Ordering.PLAIN))).

Definition a_byte_store_reports_a_one_byte_unsigned_access : bool := passes
  (insn ← decode 0x39000c20;
   match form insn with
   | Form.LoadStore _ _ _ addr size _ =>
       mret
         ((op insn == Op.Str) && (size == AccessSize.B) &&
          (addr == AddrMode.Immediate (Gpr.X 1) 3 WriteBack.None))
   | _ => Panic
   end).

Definition a_load_through_slot_31_uses_the_stack_pointer_as_its_base : bool := passes
  (insn ← decode 0xf94003e0;
   match form insn with
   | Form.LoadStore _ _ _ addr _ _ => mret (AddrMode.base addr == Some Gpr.SP)
   | _ => Panic
   end).

Definition shifted_register_forms_carry_their_shift_kind_and_amount : bool := passes
  (insn ← decode 0x8b021020;
   mret
     ((op insn == Op.Add) &&
      (form insn ==
         Form.RegShifted (Gpr.X 0) (Gpr.X 1) (ShiftedReg.mk (Gpr.X 2) ShiftKind.Lsl 4)))).

Definition the_logical_group_sets_flags_only_for_ands : bool := passes
  (and_ ← decode 0x8a020020;
   ands ← decode 0xea020020;
   orr ← decode 0xaa020020;
   mret
     (negb (sets_flags and_) && (op ands == Op.And) && sets_flags ands && (op orr == Op.Orr) &&
      negb (sets_flags orr))).

Definition the_advanced_simd_half_of_the_fp_group_is_still_unclaimed : bool := passes
  (fadd ← decode 0x1e202800;
   add ← decode 0x4e208400;
   fmla ← decode 0x4e22cc20;
   mret ((op fadd == Op.Fadd) && (op add == Op.VecAdd) && Op.is_unallocated (op fmla))).

Example group_tests_pass :
  [add_immediate_resolves_slot_31_as_sp_and_keeps_its_immediate;
   a_flag_setting_add_immediate_resolves_slot_31_as_the_zero_register;
   a_shifted_immediate_is_expanded_at_decode_time;
   a_32_bit_add_immediate_reports_the_narrow_width;
   branch_offsets_are_sign_extended_and_scaled_to_bytes;
   ret_decodes_to_an_indirect_branch_through_its_link_register;
   nop_decodes_with_no_operands;
   an_unsigned_offset_load_scales_its_immediate_by_the_access_size;
   a_byte_store_reports_a_one_byte_unsigned_access;
   a_load_through_slot_31_uses_the_stack_pointer_as_its_base;
   shifted_register_forms_carry_their_shift_kind_and_amount;
   the_logical_group_sets_flags_only_for_ands;
   the_advanced_simd_half_of_the_fp_group_is_still_unclaimed] = replicate 13 true.
Proof. vm_compute. reflexivity. Qed.

End group_tests.

(** ** [decode/group/dp_immediate.rs] *)

Module dp_immediate_tests.

(** [while at < bits { value |= rotated << at; at += esize }]: at most 32 rounds,
    of elements of two bits or more. *)
Fixpoint replicate_reference (fuel : nat) (value rotated at_ esize bits : Z) : Z :=
  match fuel with
  | O => value
  | S fuel =>
      if at_ <? bits
      then replicate_reference fuel (Z.lor value (wshl 64 rotated at_)) rotated (at_ + esize) esize
             bits
      else value
  end.

(** One round of the loop over [len]: [None] goes on to the next. *)
Definition reference_at (n immr imms : Z) (width : RegWidth) (len : Z) : option (option Z) :=
  let bits := RegWidth.bits width in
  if (len =? 6) && (n != 1) then None else
  if (len <? 6) && ((n != 0) || (Z.land (wshr 8 (wnot 8 imms) len) 1 =? 0)) then None else
  if bits <? wshl 32 1 len then Some None else
  let esize := wshl 32 1 len in
  let s := Z.land imms (esize - 1) in
  let r := Z.land immr (esize - 1) in
  if s =? esize - 1 then Some None else
  let welem := foldl (fun welem i => Z.lor welem (wshl 64 1 i)) 0 (zrange (Z.to_nat (s + 1))) in
  let rotated :=
    foldl (fun rotated i =>
      if Z.land (wshr 64 welem ((i + r) mod esize)) 1 =? 1
      then Z.lor rotated (wshl 64 1 i) else rotated) 0 (zrange (Z.to_nat esize)) in
  let value := replicate_reference 64 0 rotated 0 esize bits in
  Some (Some (Z.land value (RegWidth.mask width))).

Definition reference (n immr imms : Z) (width : RegWidth) : option Z :=
  let fix loop lens :=
    match lens with
    | [] => None
    | len :: lens =>
        match reference_at n immr imms width len with
        | Some answer => answer
        | None => loop lens
        end
    end in
  loop (rev (zrange 7)).

Definition the_bitmask_decoder_matches_the_architecture_over_every_encoding (immrs : list Z) :
    bool :=
  all (zrange 2) (fun n =>
    all immrs (fun immr =>
      all (zrange 64) (fun imms =>
        all [RegWidth.W32; RegWidth.X64] (fun width =>
          decode_bit_masks n immr imms width == reference n immr imms width)))).

Example dp_immediate_tests_pass :
  the_bitmask_decoder_matches_the_architecture_over_every_encoding [0; 23] = true.
Proof. vm_compute. reflexivity. Qed.

End dp_immediate_tests.

(** ** [decode/mod.rs] *)

Module decode_tests.

Definition word_with_op0 (op0 : Z) : Z := wshl 32 op0 25.

Definition op0_routes_each_encoding_to_the_group_the_arm_arm_names : bool :=
  all [(0, EncodingGroup.Reserved); (1, EncodingGroup.Unallocated); (2, EncodingGroup.Sve);
       (3, EncodingGroup.Unallocated); (4, EncodingGroup.LoadsAndStores);
       (5, EncodingGroup.DataProcessingRegister); (6, EncodingGroup.LoadsAndStores);
       (7, EncodingGroup.DataProcessingSimdFp); (8, EncodingGroup.DataProcessingImmediate);
       (9, EncodingGroup.DataProcessingImmediate); (10, EncodingGroup.BranchesExceptionsSystem);
       (11, EncodingGroup.BranchesExceptionsSystem); (12, EncodingGroup.LoadsAndStores);
       (13, EncodingGroup.DataProcessingRegister); (14, EncodingGroup.LoadsAndStores);
       (15, EncodingGroup.DataProcessingSimdFp)]
    (fun '(op0, group) => EncodingGroup.of_ (word_with_op0 op0) == group).

Definition bits_outside_op0_do_not_change_the_group : bool :=
  let op0_mask := wshl 32 15 25 in
  all (zrange 16) (fun op0 =>
    let group := EncodingGroup.of_ (word_with_op0 op0) in
    EncodingGroup.of_ (Z.lor (word_with_op0 op0) (wnot 32 op0_mask)) == group).

Definition sve_and_the_reserved_spaces_decode_as_unallocated : bool := passes
  (for_all [0; 1; 2; 3] (fun op0 =>
     insn ← decode (word_with_op0 op0); mret (Op.is_unallocated (Instruction.op insn)))).

Definition decode_is_total_over_a_wide_sweep_of_encodings (rounds : nat) : bool := passes
  (for_all (words rounds 0x2545f4914f6cdd1d) (fun state =>
     insn ← decode (as_u32 state); mret (Instruction.encoding insn =? as_u32 state))).

Example decode_tests_pass :
  [op0_routes_each_encoding_to_the_group_the_arm_arm_names;
   bits_outside_op0_do_not_change_the_group;
   sve_and_the_reserved_spaces_decode_as_unallocated;
   decode_is_total_over_a_wide_sweep_of_encodings 100] = replicate 4 true.
Proof. vm_compute. reflexivity. Qed.

End decode_tests.

(** ** [interp/flags.rs] *)

Module flags_tests.

Import FlaggedResult.

Definition adding_zero_to_zero_sets_only_the_zero_flag : bool :=
  let result := add_with_carry (0, 0) false RegWidth.X64 in
  (value result =? 0) && (flags result == Nzcv.mk false true false false).

Definition carry_out_is_taken_from_the_top_of_the_operand_width_not_the_register : bool :=
  let narrow := add_with_carry (0xffffffff, 1) false RegWidth.W32 in
  let wide := add_with_carry (0xffffffff, 1) false RegWidth.X64 in
  Nzcv.c (flags narrow) && (value narrow =? 0) && negb (Nzcv.c (flags wide)) &&
  (value wide =? 0x100000000).

Definition signed_overflow_is_distinct_from_unsigned_carry : bool :=
  let result := add_with_carry (0x7fffffff, 1) false RegWidth.W32 in
  Nzcv.v (flags result) && negb (Nzcv.c (flags result)) && Nzcv.n (flags result).

Definition subtracting_equal_values_sets_zero_and_carry : bool :=
  let result := add_with_carry (7, wnot 64 7) true RegWidth.X64 in
  (value result =? 0) && Nzcv.z (flags result) && Nzcv.c (flags result) &&
  negb (Nzcv.v (flags result)).

Definition carry_in_participates_in_the_result_and_the_flags : bool :=
  let result := add_with_carry (u64_MAX, 0) true RegWidth.X64 in
  (value result =? 0) && Nzcv.c (flags result) && Nzcv.z (flags result).

Definition logical_operations_clear_carry_and_overflow : bool :=
  let flags := logical_flags 0xffffffffffffffff RegWidth.X64 in
  (flags == Nzcv.mk true false false false) && Nzcv.z (logical_flags 0 RegWidth.W32) &&
  Nzcv.n (logical_flags 0x80000000 RegWidth.W32) &&
  negb (Nzcv.n (logical_flags 0x80000000 RegWidth.X64)).

Definition each_condition_is_the_negation_of_its_inverse : bool :=
  all (Nzcv.from_bits <$> zrange 16) (fun flags =>
    all (zrange 14) (fun bits =>
      let cond := Cond.from_bits bits in
      negb (Bool.eqb (is_condition_met cond flags) (is_condition_met (Cond.invert cond) flags)))).

Definition always_and_never_both_test_true : bool :=
  let flags := Nzcv.from_bits 0 in
  is_condition_met Cond.Al flags && is_condition_met Cond.Nv flags.

Definition the_signed_and_unsigned_orderings_disagree_where_they_should : bool :=
  let result := add_with_carry (0xffffffff, wnot 64 1) true RegWidth.W32 in
  is_condition_met Cond.Lt (flags result) && is_condition_met Cond.Hi (flags result).

Example flags_tests_pass :
  [adding_zero_to_zero_sets_only_the_zero_flag;
   carry_out_is_taken_from_the_top_of_the_operand_width_not_the_register;
   signed_overflow_is_distinct_from_unsigned_carry;
   subtracting_equal_values_sets_zero_and_carry;
   carry_in_participates_in_the_result_and_the_flags;
   logical_operations_clear_carry_and_overflow;
   each_condition_is_the_negation_of_its_inverse;
   always_and_never_both_test_true;
   the_signed_and_unsigned_orderings_disagree_where_they_should] = replicate 9 true.
Proof. vm_compute. reflexivity. Qed.

End flags_tests.

(** ** [interp/fetch.rs] *)

Module fetch_tests.

Definition regs_with (reg value : Z) : may_panic RegFile :=
  RegFile.write_x RegFile.new (Gpr.X reg) value.

Definition shifted (kind : ShiftKind) (amount : Z) : ShiftedReg :=
  ShiftedReg.mk (Gpr.X 0) kind amount.

Definition an_arithmetic_shift_right_replicates_the_sign_of_the_operand_width : bool := passes
  (regs ← regs_with 0 0xffffffff80000000;
   narrow ← read_shifted regs (shifted ShiftKind.Asr 4) RegWidth.W32;
   wide ← read_shifted regs (shifted ShiftKind.Asr 4) RegWidth.X64;
   mret ((narrow =? 0xf8000000) && (wide =? 0xfffffffff8000000))).

Definition a_32_bit_rotate_wraps_within_32_bits : bool := passes
  (regs ← regs_with 0 0x00000000000000ff;
   value ← read_shifted regs (shifted ShiftKind.Ror 4) RegWidth.W32;
   mret (value =? 0xf000000f)).

Definition a_logical_shift_left_drops_bits_above_the_operand_width : bool := passes
  (regs ← regs_with 0 0xffffffff;
   value ← read_shifted regs (shifted ShiftKind.Lsl 4) RegWidth.W32;
   mret (value =? 0xfffffff0)).

Definition a_signed_extension_widens_from_its_source_width_then_scales : bool := passes
  (regs ← regs_with 1 0xffffffffffffff80;
   value ← read_extended regs (ExtendedReg.mk (Gpr.X 1) ExtendKind.Sxtb 2);
   mret (value =? as_u64 (-128 * 4))).

Definition an_unsigned_extension_discards_the_bits_above_its_source_width : bool := passes
  (regs ← regs_with 1 0xdeadbeef;
   value ← read_extended regs (ExtendedReg.mk (Gpr.X 1) ExtendKind.Uxth 0);
   mret (value =? 0xbeef)).

Definition a_post_indexed_access_uses_the_old_base_and_writes_back_the_new_one : bool := passes
  (regs ← regs_with 2 0x1000;
   computed ← effective_address regs (AddrMode.Immediate (Gpr.X 2) 8 WriteBack.Post) 0;
   mret
     ((EffectiveAddress.address computed =? 0x1000) &&
      (EffectiveAddress.writeback computed == Some (Gpr.X 2, 0x1008)))).

Definition a_pre_indexed_access_uses_the_new_base_and_writes_it_back : bool := passes
  (regs ← regs_with 2 0x1000;
   computed ← effective_address regs (AddrMode.Immediate (Gpr.X 2) (-8) WriteBack.Pre) 0;
   mret
     ((EffectiveAddress.address computed =? 0x0ff8) &&
      (EffectiveAddress.writeback computed == Some (Gpr.X 2, 0x0ff8)))).

Definition a_plain_offset_access_owes_no_write_back : bool := passes
  (regs ← regs_with 2 0x1000;
   computed ← effective_address regs (AddrMode.Immediate (Gpr.X 2) 8 WriteBack.None) 0;
   mret (computed == EffectiveAddress.mk 0x1008 None)).

Definition a_literal_access_is_relative_to_the_instructions_own_address : bool := passes
  (computed ← effective_address RegFile.new (AddrMode.PcRelative (-16)) 0x8000;
   mret
     ((EffectiveAddress.address computed =? 0x7ff0) &&
      (EffectiveAddress.writeback computed == None))).

Example fetch_tests_pass :
  [an_arithmetic_shift_right_replicates_the_sign_of_the_operand_width;
   a_32_bit_rotate_wraps_within_32_bits;
   a_logical_shift_left_drops_bits_above_the_operand_width;
   a_signed_extension_widens_from_its_source_width_then_scales;
   an_unsigned_extension_discards_the_bits_above_its_source_width;
   a_post_indexed_access_uses_the_old_base_and_writes_back_the_new_one;
   a_pre_indexed_access_uses_the_new_base_and_writes_it_back;
   a_plain_offset_access_owes_no_write_back;
   a_literal_access_is_relative_to_the_instructions_own_address] = replicate 9 true.
Proof. vm_compute. reflexivity. Qed.

End fetch_tests.

(** ** [guest_memory.rs], on a 64-bit host *)

Module guest_memory_tests.

Import guest_memory.

#[local] Abbreviation reserve := (reserve 64).
#[local] Abbreviation linear_offset := (linear_offset 64).

Definition default_ram_reserves_a_page_aligned_window_above_the_rust_heap : bool := passes
  ('(start, end_) ← expect (reserve DEFAULT_RAM_BYTES);
   mret
     ((start =? RAM_BASE) && (end_ - start =? DEFAULT_RAM_BYTES) && (end_ =? wshl 64 2 30))).

Definition ram_beyond_the_wasm32_address_space_is_rejected : bool :=
  let too_big := MAX_RAM_BYTES + PAGE_SIZE in
  reserve too_big == Err (LayoutError.TooLarge too_big MAX_RAM_BYTES).

Definition unaligned_and_empty_sizes_are_rejected : bool :=
  (reserve (PAGE_SIZE + 1) == Err (LayoutError.Unaligned (PAGE_SIZE + 1))) &&
  (reserve 0 == Err LayoutError.Empty).

Definition guest_physical_maps_to_a_fixed_displacement_from_ram_base : bool :=
  (linear_offset PHYS_RAM_BASE DEFAULT_RAM_BYTES == Some RAM_BASE) &&
  (linear_offset (PHYS_RAM_BASE + 0x1234) DEFAULT_RAM_BYTES == Some (RAM_BASE + 0x1234)).

Definition addresses_outside_the_ram_window_do_not_translate : bool :=
  (linear_offset 0x09000000 DEFAULT_RAM_BYTES == None) &&
  (linear_offset (PHYS_RAM_BASE + as_u64 DEFAULT_RAM_BYTES) DEFAULT_RAM_BYTES == None).

Example guest_memory_tests_pass :
  [default_ram_reserves_a_page_aligned_window_above_the_rust_heap;
   ram_beyond_the_wasm32_address_space_is_rejected;
   unaligned_and_empty_sizes_are_rejected;
   guest_physical_maps_to_a_fixed_displacement_from_ram_base;
   addresses_outside_the_ram_window_do_not_translate] = replicate 5 true.
Proof. vm_compute. reflexivity. Qed.

End guest_memory_tests.

#[local] Abbreviation PHYS_RAM_BASE := guest_memory.PHYS_RAM_BASE.

(** ** [interp/memory.rs] *)

Module memory_tests.

Definition memory : FlatMemory := FlatMemory.new 4096.

Definition a_stored_value_reads_back_at_every_width : bool := passes
  (let address := PHYS_RAM_BASE + 8 in
   mem ← write_expect memory address 8 0x8877665544332211;
   byte ← read_uint mem address 1;
   half ← read_uint mem address 2;
   word ← read_uint mem address 4;
   double ← read_uint mem address 8;
   mret
     ((byte == Ok 0x11) && (half == Ok 0x2211) && (word == Ok 0x44332211) &&
      (double == Ok 0x8877665544332211))).

Definition a_narrow_write_leaves_the_neighbouring_bytes_alone : bool := passes
  (let address := PHYS_RAM_BASE + 16 in
   mem ← write_expect memory address 8 u64_MAX;
   mem ← write_expect mem address 1 0;
   value ← read_uint mem address 8;
   mret (value == Ok 0xffffffffffffff00)).

Definition an_access_below_the_mapped_window_faults_rather_than_wrapping : bool := passes
  (value ← read_uint memory (PHYS_RAM_BASE - 1) 1;
   mret (value == Err (AccessFault.mk (PHYS_RAM_BASE - 1) false))).

Definition an_access_straddling_the_end_of_the_window_faults : bool := passes
  (let last := FlatMemory.limit memory - 1 in
   value ← read_uint memory last 1;
   '(_, outcome) ← write_uint memory last 2 0;
   mret ((value == Ok 0) && (outcome == Err (AccessFault.mk last true)))).

Definition a_borrowed_slice_sees_what_was_stored_there : bool := passes
  (let address := PHYS_RAM_BASE + 32 in
   '(mem, outcome) ← FlatMemory.store_slice memory address (as_bytes "hi");
   _ ← expect outcome;
   inside ← FlatMemory.slice_ mem address 2;
   outside ← FlatMemory.slice_ mem (FlatMemory.limit mem - 1) 2;
   mret
     ((inside == Ok (as_bytes "hi")) && match outside with Err _ => true | Ok _ => false end)).

Example memory_tests_pass :
  [a_stored_value_reads_back_at_every_width;
   a_narrow_write_leaves_the_neighbouring_bytes_alone;
   an_access_below_the_mapped_window_faults_rather_than_wrapping;
   an_access_straddling_the_end_of_the_window_faults;
   a_borrowed_slice_sees_what_was_stored_there] = replicate 5 true.
Proof. vm_compute. reflexivity. Qed.

End memory_tests.

(** ** [trap.rs] *)

Module trap_tests.

Import TrapLog.

(** [for encoding in l { log.record(encoding) }] *)
Definition recording (l : list Z) (log : TrapLog) : may_panic TrapLog :=
  for_each l (fun encoding log => record log encoding) log.

Definition repeated_encounters_with_one_encoding_collapse_to_a_single_entry : bool := passes
  (log ← recording (replicate 1000 0x4e208400) new;
   entries ← entries_ log;
   first ← expect_some (entries !! 0%nat);
   mret
     ((length entries == 1%nat) && (TrapLogEntry.encoding first =? 0x4e208400) &&
      (TrapLogEntry.count first =? 1000) && (total_encounters log =? 1000) &&
      (dropped_encodings log =? 0))).

Definition an_entry_names_the_group_that_owes_the_implementation : bool := passes
  (log ← record new 0x4e208400;
   entries ← entries_ log;
   entry ← expect_some (entries !! 0%nat);
   mret (TrapLogEntry.group entry == EncodingGroup.DataProcessingSimdFp)).

Definition overflowing_the_log_is_counted_rather_than_silently_lost : bool := passes
  (log ← recording (zrange (Z.to_nat (TRAP_LOG_CAPACITY + 1))) new;
   entries ← entries_ log;
   mret
     ((Z.of_nat (length entries) =? TRAP_LOG_CAPACITY) && (dropped_encodings log =? 1) &&
      (total_encounters log =? TRAP_LOG_CAPACITY + 1))).

Definition a_full_log_still_counts_encodings_it_already_holds : bool := passes
  (log ← recording (zrange (Z.to_nat TRAP_LOG_CAPACITY)) new;
   log ← record log 0;
   entries ← entries_ log;
   first ← expect_some (entries !! 0%nat);
   mret ((dropped_encodings log =? 0) && (TrapLogEntry.count first =? 2))).

Definition only_undefined_instruction_traps_are_a_coverage_gap : bool := passes
  (log ← record_trap new (Trap.SupervisorCall 0x1000 0);
   log ← record_trap log (Trap.DataAbort 0x1000 0 true);
   let was_empty := is_empty log in
   log ← record_trap log (Trap.UndefinedInstruction 0x1000 0xffffffff);
   mret (was_empty && negb (is_empty log))).

Definition an_unimplemented_encoding_becomes_a_trap_naming_its_own_pc : bool := passes
  (insn ← decode 0x4e22cc20;
   let trap := Trap.undefined 0xdead0000 insn in
   mret
     (is_unimplemented insn && (trap == Trap.UndefinedInstruction 0xdead0000 0x4e22cc20))).

Definition a_fuzz_sweep_of_random_words_never_panics_and_stays_bounded (rounds : nat) : bool :=
  passes
    (log ← for_each (words rounds 0x853c49e6748fea9b) (fun state log =>
       insn ← decode (as_u32 state);
       if is_unimplemented insn then record_trap log (Trap.undefined 0x1000 insn)
       else mret log) new;
     entries ← entries_ log;
     mret
       ((Z.of_nat (length entries) <=? TRAP_LOG_CAPACITY) && (0 <? total_encounters log))).

Example trap_tests_pass :
  [repeated_encounters_with_one_encoding_collapse_to_a_single_entry;
   an_entry_names_the_group_that_owes_the_implementation;
   overflowing_the_log_is_counted_rather_than_silently_lost;
   a_full_log_still_counts_encodings_it_already_holds;
   only_undefined_instruction_traps_are_a_coverage_gap;
   an_unimplemented_encoding_becomes_a_trap_naming_its_own_pc;
   a_fuzz_sweep_of_random_words_never_panics_and_stays_bounded 50] = replicate 7 true.
Proof. vm_compute. reflexivity. Qed.

End trap_tests.

(** ** [interp/cache.rs] *)

Module cache_tests.

Import DecodeCache.

(** [assert_eq!(cache.decoded(pc, encoding).op, op)], and the cache it leaves. *)
Definition decodes_to (cache : DecodeCache) (pc encoding : Z) (op : Op) :
    may_panic (DecodeCache * bool) :=
  '(cache, insn) ← decoded cache pc encoding;
  mret (cache, Instruction.op insn == op).

(** The same assertion [rounds] times. *)
Fixpoint repeated (rounds : nat) (cache : DecodeCache)
    (round : DecodeCache -> may_panic (DecodeCache * bool)) : may_panic (DecodeCache * bool) :=
  match rounds with
  | O => mret (cache, true)
  | S rounds =>
      '(cache, outcome) ← round cache;
      '(cache, rest) ← repeated rounds cache round;
      mret (cache, outcome && rest)
  end.

Definition a_repeated_lookup_at_one_pc_decodes_only_once : bool := passes
  ('(cache, outcome) ← repeated 100 new (fun cache => decodes_to cache 0x1000 0x91000400 Op.Add);
   mret (outcome && (misses cache =? 1) && (hits cache =? 99))).

Definition rewriting_the_word_at_a_pc_re_decodes_it_without_explicit_invalidation : bool := passes
  ('(cache, is_add) ← decodes_to new 0x1000 0x91000400 Op.Add;
   '(cache, is_sub) ← decodes_to cache 0x1000 0xd1000400 Op.Sub;
   mret (is_add && is_sub && (misses cache =? 2) && (hits cache =? 0))).

Definition two_pcs_that_alias_one_slot_evict_each_other_but_stay_correct : bool := passes
  (let stride := DECODE_CACHE_ENTRIES * 4 in
   '(cache, outcome) ← repeated 10 new (fun cache =>
     '(cache, is_add) ← decodes_to cache 0x1000 0x91000400 Op.Add;
     '(cache, is_sub) ← decodes_to cache (0x1000 + stride) 0xd1000400 Op.Sub;
     mret (cache, is_add && is_sub));
   mret (outcome && (hits cache =? 0) && (misses cache =? 20))).

Definition an_all_zero_word_is_never_served_from_an_empty_slot : bool := passes
  ('(cache, insn) ← decoded new 0x2000 0;
   mret (Op.is_unallocated (Instruction.op insn) && (hits cache =? 0) && (misses cache =? 1))).

Definition a_hot_loop_that_fits_the_cache_misses_only_on_its_first_pass : bool := passes
  (let body := [0x91000400; 0xd1000400; 0x8b010020; 0x14000000] in
   '(cache, _) ← repeated 50 new (fun cache =>
     cache ← for_each (imap (fun index encoding => (Z.of_nat index, encoding)) body)
       (fun '(index, encoding) cache =>
          '(cache, _) ← decoded cache (0x3000 + index * 4) encoding; mret cache) cache;
     mret (cache, true));
   mret (misses cache =? Z.of_nat (length body))).

Example cache_tests_pass :
  [a_repeated_lookup_at_one_pc_decodes_only_once;
   rewriting_the_word_at_a_pc_re_decodes_it_without_explicit_invalidation;
   two_pcs_that_alias_one_slot_evict_each_other_but_stay_correct;
   an_all_zero_word_is_never_served_from_an_empty_slot;
   a_hot_loop_that_fits_the_cache_misses_only_on_its_first_pass] = replicate 5 true.
Proof. vm_compute. reflexivity. Qed.

End cache_tests.

(** ** [interp/mod.rs] *)

Module interp_tests.

Import Cpu.

Definition cpu_running (program : list Z) : may_panic (Cpu FlatMemory NullSink.NullSink) :=
  memory ← for_each (imap (fun index word => (Z.of_nat index, word)) program)
    (fun '(index, word) memory => write_expect memory (PHYS_RAM_BASE + index * INSN_BYTES) 4 word)
    (FlatMemory.new 4096);
  let cpu := with_sink memory NullSink.mk in
  mret (set_regs cpu (RegFile.set_pc (regs cpu) PHYS_RAM_BASE)).

Definition a_straight_line_program_retires_one_instruction_per_step : bool := passes
  (cpu ← cpu_running [0x91000400; 0x91000400; 0x91000400];
   '(cpu, stop) ← run 3 cpu;
   x0 ← RegFile.read_x (regs cpu) (Gpr.X 0);
   mret
     ((stop == Stop.BudgetExhausted) && (x0 =? 3) && (icount cpu =? 3) &&
      (RegFile.pc (regs cpu) =? PHYS_RAM_BASE + 12))).

Definition an_unimplemented_opcode_traps_and_is_logged_rather_than_panicking : bool := passes
  (cpu ← cpu_running [0x4e208400];
   '(cpu, stop) ← run 16 cpu;
   entries ← TrapLog.entries_ (trap_log cpu);
   mret
     ((stop == Stop.Trapped (Trap.UndefinedInstruction PHYS_RAM_BASE 0x4e208400)) &&
      (RegFile.pc (regs cpu) =? PHYS_RAM_BASE) && (length entries == 1%nat))).

Definition fetching_outside_mapped_memory_is_an_instruction_abort : bool := passes
  (cpu ← cpu_running [];
   let cpu := set_regs cpu (RegFile.set_pc (regs cpu) 0) in
   '(_, stop) ← run 1 cpu;
   mret (stop == Stop.Trapped (Trap.InstructionAbort 0))).

Definition the_budget_bounds_the_loop_even_when_the_guest_never_traps : bool := passes
  (cpu ← cpu_running [0x14000000];
   '(cpu, stop) ← run 1000 cpu;
   mret
     ((stop == Stop.BudgetExhausted) && (icount cpu =? 1000) &&
      (RegFile.pc (regs cpu) =? PHYS_RAM_BASE))).

Definition a_trapped_run_resumes_where_it_stopped : bool := passes
  (cpu ← cpu_running [0x91000400; 0x4e208400; 0x91000400];
   '(cpu, first) ← run 16 cpu;
   let retired := icount cpu in
   let cpu :=
     set_regs cpu (RegFile.set_pc (regs cpu) (RegFile.pc (regs cpu) + INSN_BYTES)) in
   '(cpu, second) ← run 1 cpu;
   x0 ← RegFile.read_x (regs cpu) (Gpr.X 0);
   mret
     (match first with Stop.Trapped _ => true | _ => false end && (retired =? 1) &&
      (second == Stop.BudgetExhausted) && (x0 =? 2))).

Example interp_tests_pass :
  [a_straight_line_program_retires_one_instruction_per_step;
   an_unimplemented_opcode_traps_and_is_logged_rather_than_panicking;
   fetching_outside_mapped_memory_is_an_instruction_abort;
   the_budget_bounds_the_loop_even_when_the_guest_never_traps;
   a_trapped_run_resumes_where_it_stopped] = replicate 5 true.
Proof. vm_compute. reflexivity. Qed.

End interp_tests.

(** ** [trace/format.rs] and [trace/sink.rs] *)

Module format_tests.

Definition fnv1a_matches_the_published_test_vectors : bool :=
  (fnv1a "" =? FNV_OFFSET_BASIS) && (fnv1a "a" =? 0xaf63dc4c8601ec8c) &&
  (fnv1a "foobar" =? 0x85944171f73967e8).

Definition the_feature_string_is_the_one_the_harness_pins : bool :=
  String.eqb FEATURE_MASK "armv8.0-a+el1+nolse+nosve+nopauth+nomte+nobti+qemucrypto" &&
  (CPU_FEATURE_ID =? 0x665fe771b9605c07).

Definition record_sizes_are_the_multiples_of_eight_the_format_requires : bool :=
  all [FILE_HEADER_BYTES; RECORD_HEADER_BYTES; REG_DELTA_BYTES; BLOCK_PREFIX_BYTES]
    (fun size => size mod 8 =? 0).

Example format_tests_pass :
  [fnv1a_matches_the_published_test_vectors;
   the_feature_string_is_the_one_the_harness_pins;
   record_sizes_are_the_multiples_of_eight_the_format_requires] = replicate 3 true.
Proof. vm_compute. reflexivity. Qed.

End format_tests.

Module sink_tests.

Definition the_null_sink_accepts_every_event_without_state : bool := passes
  (sink ← on_marker NullSink.mk MarkerKind.TraceStart 0 0;
   sink ← on_block sink 0x1000 0 [RegDelta.mk 0 1];
   sink ← on_exception sink
     (ExceptionEvent.mk 1 0x1000 0x200 DisconType.Exception RegFile.new);
   _ ← finish sink EndReason.Normal 1;
   mret true).

Example sink_tests_pass : the_null_sink_accepts_every_event_without_state = true.
Proof. vm_compute. reflexivity. Qed.

End sink_tests.

(** ** [shim/structs.rs] *)

Module structs_tests.

Import structs.

Definition memory : FlatMemory := FlatMemory.new 4096.

(** [write_stat(..).expect(..)] *)
Definition stat_of (file : bool * Z) : may_panic FlatMemory :=
  '(memory, outcome) ← write_stat memory PHYS_RAM_BASE file;
  _ ← expect outcome;
  mret memory.

Definition a_terminal_stat_reports_a_character_device : bool := passes
  (memory ← stat_of (true, 0);
   mode ← read_uint memory (PHYS_RAM_BASE + 16) 4;
   mode ← expect mode;
   mret (mode =? MODE_CHARACTER_DEVICE)).

Definition a_file_stat_reports_its_size_and_a_regular_file_mode : bool := passes
  (memory ← stat_of (false, 1234);
   mode ← read_uint memory (PHYS_RAM_BASE + 16) 4;
   size ← read_uint memory (PHYS_RAM_BASE + 48) 8;
   blocks ← read_uint memory (PHYS_RAM_BASE + 64) 8;
   mret ((mode == Ok MODE_REGULAR_FILE) && (size == Ok 1234) && (blocks == Ok 3))).

Definition stat_into_an_unmapped_address_is_a_fault_not_a_panic : bool := passes
  ('(_, outcome) ← write_stat memory 0 (true, 0);
   mret (outcome == Err Errno.Fault)).

Definition utsname_names_an_aarch64_machine_in_the_field_musl_reads : bool := passes
  ('(memory, outcome) ← write_utsname memory PHYS_RAM_BASE;
   _ ← expect outcome;
   let machine_offset := PHYS_RAM_BASE + 4 * UTSNAME_FIELD_BYTES in
   field ← FlatMemory.slice_ memory machine_offset 8;
   field ← expect field;
   name ← slice field 0 7;
   terminator ← index field 7;
   mret ((name == as_bytes "aarch64") && (terminator =? 0))).

Definition an_iovec_array_is_read_entry_by_entry : bool := passes
  (let array := PHYS_RAM_BASE in
   memory ← write_expect memory array 8 0x1000;
   memory ← write_expect memory (array + 8) 8 4;
   memory ← write_expect memory (array + 16) 8 0x2000;
   memory ← write_expect memory (array + 24) 8 8;
   first ← read_iovec memory array 0;
   second ← read_iovec memory array 1;
   mret ((first == Ok (IoVec.mk 0x1000 4)) && (second == Ok (IoVec.mk 0x2000 8)))).

Definition a_timespec_splits_nanoseconds_into_whole_seconds_and_a_remainder : bool := passes
  ('(memory, outcome) ← write_timespec memory PHYS_RAM_BASE 2500000000;
   _ ← expect outcome;
   seconds ← read_uint memory PHYS_RAM_BASE 8;
   remainder ← read_uint memory (PHYS_RAM_BASE + 8) 8;
   mret ((seconds == Ok 2) && (remainder == Ok 500000000))).

Example structs_tests_pass :
  [a_terminal_stat_reports_a_character_device;
   a_file_stat_reports_its_size_and_a_regular_file_mode;
   stat_into_an_unmapped_address_is_a_fault_not_a_panic;
   utsname_names_an_aarch64_machine_in_the_field_musl_reads;
   an_iovec_array_is_read_entry_by_entry;
   a_timespec_splits_nanoseconds_into_whole_seconds_and_a_remainder] = replicate 6 true.
Proof. vm_compute. reflexivity. Qed.

End structs_tests.

(** ** [shim/memory_map.rs] *)

Module memory_map_tests.

Import MemoryMap.

Definition LAYOUT : ArenaLayout := ArenaLayout.mk 0x10000 0x20000 0x100000 0x130000.

#[local] Abbreviation heap_base := (ArenaLayout.heap_base LAYOUT).
#[local] Abbreviation PAGE_SIZE := guest_memory.PAGE_SIZE.

Definition brk_starts_at_the_base_of_its_window_and_moves_where_asked : bool :=
  let map := new LAYOUT in
  let '(moved, answer) := set_brk map (heap_base + 0x1000) in
  (brk map =? heap_base) && (answer =? heap_base + 0x1000) && (brk moved =? heap_base + 0x1000).

Definition querying_the_break_with_a_low_address_reports_it_without_moving_it : bool :=
  let '(map, _) := set_brk (new LAYOUT) (heap_base + 0x800) in
  let '(_, answer) := set_brk map 0 in
  answer =? heap_base + 0x800.

Definition a_break_beyond_the_window_is_refused_by_reporting_the_old_one : bool :=
  let '(map, result) := set_brk (new LAYOUT) (ArenaLayout.heap_limit LAYOUT + 1) in
  (result =? heap_base) && (brk map =? heap_base).

Definition successive_mappings_do_not_overlap_and_are_page_aligned : bool := passes
  (let '(arena, first) := map (new LAYOUT) 1 in
   first ← expect_some first;
   let '(arena, second) := map arena (PAGE_SIZE + 1) in
   second ← expect_some second;
   let '(_, third) := map arena 1 in
   third ← expect_some third;
   mret
     ((first mod PAGE_SIZE =? 0) && (second =? first + PAGE_SIZE) &&
      (second + 2 * PAGE_SIZE <=? third))).

Definition exhausting_the_arena_is_reported_rather_than_wrapping : bool :=
  let size := ArenaLayout.mmap_limit LAYOUT - ArenaLayout.mmap_base LAYOUT in
  let '(arena, whole) := map (new LAYOUT) size in
  let '(_, more) := map arena 1 in
  match whole with Some _ => true | None => false end && (more == None).

Definition a_zero_length_mapping_is_rejected : bool :=
  snd (map (new LAYOUT) 0) == None.

Example memory_map_tests_pass :
  [brk_starts_at_the_base_of_its_window_and_moves_where_asked;
   querying_the_break_with_a_low_address_reports_it_without_moving_it;
   a_break_beyond_the_window_is_refused_by_reporting_the_old_one;
   successive_mappings_do_not_overlap_and_are_page_aligned;
   exhausting_the_arena_is_reported_rather_than_wrapping;
   a_zero_length_mapping_is_rejected] = replicate 6 true.
Proof. vm_compute. reflexivity. Qed.

End memory_map_tests.

(** ** [shim/host.rs] *)

Module host_tests.

Import CapturingHost.

Definition an_error_number_becomes_the_negative_value_musl_expects : bool :=
  (Errno.to_return_value Errno.NoSys =? negative 38) &&
  (Errno.to_return_value Errno.BadFd =? negative 9).

Definition the_capturing_host_keeps_the_two_output_streams_apart : bool := passes
  ('(host, out) ← write new 1 (as_bytes "out");
   '(host, err) ← write host 2 (as_bytes "err");
   mret
     ((out == Ok 3) && (err == Ok 3) && (stdout host == as_bytes "out") &&
      (stderr host == as_bytes "err"))).

Definition writing_to_a_descriptor_that_was_never_opened_is_a_bad_descriptor : bool := passes
  ('(_, outcome) ← write new 7 (as_bytes "x"); mret (outcome == Err Errno.BadFd)).

Definition random_bytes_are_not_all_the_same_value : bool := passes
  ('(_, buffer) ← random new (replicate 32 0);
   first ← index buffer 0;
   mret (existsb (fun byte => byte != first) buffer)).

Definition the_monotonic_clock_never_goes_backwards : bool := passes
  ('(host, first) ← monotonic_nanos new;
   '(_, second) ← monotonic_nanos host;
   mret (first <? second)).

Example host_tests_pass :
  [an_error_number_becomes_the_negative_value_musl_expects;
   the_capturing_host_keeps_the_two_output_streams_apart;
   writing_to_a_descriptor_that_was_never_opened_is_a_bad_descriptor;
   random_bytes_are_not_all_the_same_value;
   the_monotonic_clock_never_goes_backwards] = replicate 5 true.
Proof. vm_compute. reflexivity. Qed.

End host_tests.

(** ** [threading.rs], [devices], [machine] and [wasm], of either build *)

Section build_tests.

Context `{ThreadedBuild}.

#[local] Abbreviation blocks :=
  match IDLE_STRATEGY with
  | IdleStrategy.BlockOnAtomic => true
  | IdleStrategy.YieldToHost => false
  end.

Definition only_a_threaded_build_blocks_and_only_it_needs_isolation : bool :=
  let does_block := blocks in
  Bool.eqb does_block IS_THREADED_BUILD &&
  Bool.eqb REQUIRES_CROSS_ORIGIN_ISOLATION IS_THREADED_BUILD.

Definition the_wake_mechanism_matches_how_the_cpu_idles : bool :=
  let expected :=
    match IDLE_STRATEGY with
    | IdleStrategy.BlockOnAtomic => WakeMechanism.NotifyAtomic
    | IdleStrategy.YieldToHost => WakeMechanism.SetPendingFlag
    end in
  match WAKE_MECHANISM, expected with
  | WakeMechanism.NotifyAtomic, WakeMechanism.NotifyAtomic
  | WakeMechanism.SetPendingFlag, WakeMechanism.SetPendingFlag => true
  | _, _ => false
  end.

Definition the_default_machine_is_a_valid_configuration : bool := passes
  ('(start, end_) ← expect (MachineConfig.validate 64 MachineConfig.default);
   mret (end_ - start =? guest_memory.DEFAULT_RAM_BYTES)).

Definition a_machine_asking_for_more_ram_than_the_address_space_is_rejected : bool :=
  let config := MachineConfig.mk (guest_memory.MAX_RAM_BYTES + guest_memory.PAGE_SIZE) in
  match MachineConfig.validate 64 config with
  | Err (guest_memory.LayoutError.TooLarge _ _) => true
  | _ => false
  end.

Definition build_info_reports_the_layout_the_js_host_must_agree_with : bool :=
  let info := build_info in
  (BuildInfo.guest_ram_base info =? as_u32 guest_memory.RAM_BASE) &&
  Bool.eqb (BuildInfo.threaded info) IS_THREADED_BUILD &&
  Bool.eqb (BuildInfo.requires_cross_origin_isolation info) IS_THREADED_BUILD.

Definition the_reported_ram_window_matches_what_the_machine_will_reserve : bool := passes
  (let info := build_info in
   let config := MachineConfig.mk (BuildInfo.default_guest_ram_bytes info) in
   '(start, end_) ← expect (MachineConfig.validate 64 config);
   mret
     ((as_u32 start =? BuildInfo.guest_ram_base info) &&
      (as_u32 (end_ - start) =? BuildInfo.default_guest_ram_bytes info))).

Definition build_tests : list bool :=
  [only_a_threaded_build_blocks_and_only_it_needs_isolation;
   the_wake_mechanism_matches_how_the_cpu_idles;
   the_default_machine_is_a_valid_configuration;
   a_machine_asking_for_more_ram_than_the_address_space_is_rejected;
   build_info_reports_the_layout_the_js_host_must_agree_with;
   the_reported_ram_window_matches_what_the_machine_will_reserve].

End build_tests.

Example build_tests_pass :
  (@build_tests false, @build_tests true) = (replicate 6 true, replicate 6 true).
Proof. vm_compute. reflexivity. Qed.
